(* ===== verification/_CoqProject ===== *)
-Q . S2P
Prelude.v
IpFragment.v
Interceptor.v
TcpSegment.v
Rebuild.v
Emission.v
Flow.v
Sni.v
Text.v
Firewall.v
NetAddr.v
TlsTemplate.v
Config.v
ScanList.v
ScannerHttp.v
Scanner.v
SniScan.v
Methods.v
HandshakeMethods.v
DataMethods.v
Composite.v
Handler.v
Session.v
SocketMethods.v
Socket.v
SocketLogic.v
Relay.v
Proxy.v
Connections.v
Waiting.v
Protocol.v
WireMethod.v
RootHelper.v
Bootstrap.v
Told.v
HelperClient.v
RemoteFlows.v
Netmon.v
Uplink.v
DataPlane.v
RemotePlane.v
Recovery.v
Events.v
TargetPool.v
LowTtlDiscover.v
Rescan.v
MethodScan.v
ProxyTest.v
Screens.v
Dashboard.v
Headless.v
Accounts.v
Reload.v
CommandLine.v
Startup.v
Launch.v
ScanModes.v
Program.v
