(* ===== verification/Prelude.v ===== *)
(** * ZeroDPI: a verification development

    ZeroDPI (Rust, five crates under [crates/]) is a local TCP proxy that gets
    TLS connections past a censor that reads the host name in the ClientHello.
    A client connects to the proxy; the proxy takes a relay target from its
    pool and connects there.  Depending on the configured list of methods it
    changes what it writes itself (socket-side methods) or has a packet
    interceptor change the packets of the connection (a fake ClientHello
    behind the handshake, a fragmented or reordered first data packet).  The
    interceptor runs in the same process, or in a privileged helper process
    that talks to the proxy over a framed protocol.

    ** Files and what they model

    Paths are relative to [src/crates/]; [core] is [zerodpi-core/src].
    A definition keeps the name of the function, type or constant it models;
    PROJECT.json maps each to its lines.

    - [Prelude]: panicking computations, fixed-width integers, byte lists and
      shared list lemmas and tactics.
    - Packets: [IpFragment] ([core/ip_fragment.rs]), [Interceptor]
      ([core/interceptor.rs]), [TcpSegment] ([core/tcp_segment.rs]), [Flow]
      ([core/flow.rs]).
    - Data formats: [Sni] ([core/methods/sni.rs]), [TlsTemplate]
      ([core/tls_template.rs]), [Text] and [NetAddr] (what is used of Rust's
      string, integer and address parsing).
    - Configuration: [Config] ([core/config.rs]): values, defaults, validation.
    - Packet methods: [Methods] (the interface, a class that states what the
      handler may rely on), [HandshakeMethods], [DataMethods], [Composite]
      ([core/methods/*.rs]); [Handler] ([core/handler.rs]) is proved against
      the interface, [Session] composes handler and methods over the packets
      of one connection.
    - Socket-side methods: [SocketMethods] (what becomes of the first record),
      [Socket] (the writers), [SocketLogic] (the program logic they are proved
      in).
    - The proxy ([core/proxy.rs]): [Relay] (the copy loops), [Proxy] (the three
      connection handlers), [Connections] (their theorems), [Waiting] (the
      waiting loops interleaved with the handler).
    - The helper: [Protocol] ([zerodpi-helper-protocol/src/lib.rs]),
      [WireMethod] (the method across the boundary), [RootHelper] and [Told]
      ([zerodpi-root-helper/src/unix.rs]), [Bootstrap] (how both sides find and
      check each other), [HelperClient]
      ([zerodpi/src/helper_client.rs]), [RemoteFlows] (the composition of
      both processes).
    - Service: [Netmon] ([zerodpi-platform/src/netmon/mod.rs], the binding of
      [core/net.rs]), [DataPlane] ([zerodpi/src/data_plane.rs]), [RemotePlane]
      (its remote half over the helper of [RootHelper]), [Recovery]
      ([zerodpi/src/network_recovery.rs]), [Reload] ([zerodpi/src/reload.rs]).
    - [TargetPool] ([core/target_pool.rs]).
    - The platform backends ([zerodpi-platform/src/linux.rs], [windows.rs],
      [emission.rs]): [Rebuild] (parsing a captured packet and building the
      modified one, over the etherparse library), [Emission] (what a verdict
      puts on the wire, the capture loops), [Firewall] (the rules that send
      packets to the queue), [Uplink] ([zerodpi-platform/src/uplink.rs], the
      interface everything leaves by).
    - Measuring targets: [ScanList] ([scan_list.rs], [cloudflare.rs], the lists of
      candidates), [ScannerHttp] ([scanner_http.rs]), [Scanner] ([ip_scanner.rs],
      one probe and its score), [SniScan] ([sni_scanner.rs], [dns.rs]),
      [LowTtlDiscover] ([low_ttl_discover.rs], over [Handler]); [MethodScan]
      ([method_scanner.rs]) and [ProxyTest] ([proxy_tester.rs]), which start the
      engine around their probes; [Rescan] (the
      rescans of [zerodpi/src/main.rs], [manual_rescan.rs] and
      [target_selection.rs], over [TargetPool]).
    - What the user sees: [Events] ([core/proxy/events.rs], the event channel and
      the sampled progress of relays), [Dashboard] ([zerodpi/src/tui.rs],
      [tui/targets.rs], the state behind the screen), [Accounts] (the
      connection handlers composed with it) and [Screens] (the progress screens
      and selection tables of [tui.rs]).
    - The program itself ([zerodpi/src/main.rs]): [CommandLine] (arguments and
      their overrides), [Startup] (the three proxy modes up to the moment they
      serve) with [Launch], [ScanModes] (the modes that end by themselves),
      [Headless] ([runtime_events.rs], operation without a terminal) and
      [Program] ([main], [run] and the dispatch of [run_config]).  Effects are
      listed in order by a writer with failures and panics ([Startup.proc]);
      what the environment answers is a record ([Startup.Surroundings],
      [Program.Host]).

    ** How code is represented

    Bytes and machine integers are [Z] with their wrap-around written out,
    buffers are lists.  A function that can panic returns [exec]; one that can
    fail returns [option] or a sum.  [Arc]s that are shared and mutated are
    cells of an explicit heap ([Flow.Heap], the counters of [TargetPool]).  A
    tokio [Notify] is the count of its [notify_waiters] calls.  A lock that is
    held for a whole operation makes that operation one step; where the code
    drops the lock or awaits, the operation is split (the requests of
    [HelperClient], the rounds of [RootHelper], the waiting loops of
    [Waiting]), and a schedule chooses the order.  Clocks, random seeds and
    the answers of the operating system are arguments; the theorems hold for
    every value of them.

    ** What the theorems show

    - Byte level: fragmentation and segmentation lose nothing and never panic
      (C1, C2); the SNI locator is complete and panics exactly on
      four shapes of record (C5, C3); the fake ClientHello is a well-formed one
      (C6); record fragmentation only re-frames (C14).
    - Configuration: what validation guarantees (C9, C19).
    - Methods: composites in closed form ([composite_staging], [chained_data_stage]).
    - Handler and sessions: safety in every reachable state (C24), outcomes
      written once ([outcome_write_once]), which packets are changed
      ([modified_only_when_due]) and whole handshakes (C26).
    - Helper: its bootstrap (C36), sessions (C30), the method across the boundary ([remote_method]), the flow
      records on both sides (C15), the frames (C40).
    - Target pool: uniform draws and their termination ([random_index_uniform]), refinement of a
      ledger (C31), selection ([acquire_selects]).
    - Socket side and proxy: the transforms ([tls_padding_spec], [splitters_cut]), the writers ([write_fragmented_chunks]), the
      relay (C37), the connections (C38, [direct_connections]), no lost wake-up (C39).
    - Targets: the two scans (C13, C12), the TTL search
      (C27), the rescans (C33; [ip_rescan_sound] for addresses).
      The testers: C20, C35; [ProxyTest.candidate_test] and
      [ProxyTest.url_parts] state the steps around the second.
      [ScanList.scan_list_cleaned], [ScannerHttp.download_sample] and
      [SniScan.custom_dns_in_order] state the steps below them.
    - Platform: rebuilt packets (C28), emission under every failure
      (C29), the two backends compared (C8), firewall rules and
      their ownership (C7), their installation and removal
      ([firewall_lifecycle]), the network monitor (C11), the uplink
      chosen ([Uplink.uplink_least], [Uplink.adapter_least]).
    - Service: the local data plane (C25), the remote one over the helper
      (C34), recovery (C10), its back-off (C4) and its
      composition with the plane ([recovery_mirrors]), reloads (C32).
    - Dashboard: the event channel (C18), the log and the counters
      against the open connections (C17), what every end of a
      handler leaves on it (C16).  Ports are the identity of
      a connection there; [Accounts.discipline_by_port] is why interleavings
      of different ports do not matter.
    - Program: what it may do before and after it is admitted
      (C21), the start of the proxy modes (C22), the proxy
      scan (C23).  [Screens.run_selection_ok] discharges what the
      start assumes of the user's choice; [Headless.log_followed] states that the JSON
      lines carry the ledger of connections.

    ** Bounds and fuel

    Loops over a buffer recurse on a fuel that starts at the buffer's length
    (plus one): every iteration consumes at least one byte, and each such loop
    has a lemma that the fuel is not exhausted.  [TargetPool] draws indices with
    a fuel of 2^64 draws, after which one is accepted ([random_index_uniform]).  The relay and the
    helper run over schedules, which are lists; the relay's fair schedules are
    characterised by their length (C37).

    ** Not modelled

    - In [on_packet] the window between dropping the flow lock and finishing
      the packet (the outcome is published after it) is one step.
    - A relay deadline strikes between iterations of a copy loop, not within
      one; a write on a broken connection sends a prefix that the schedule
      chooses.
    - Accept loops, task cancellation and the progress batches of the proxy.
    - The JSON codec of the helper protocol: a parameter with its round trip.
    - The atomicity of [request_begin] is that of one check and one write; the
      peer, path and ownership checks of [connect] and of the helper's
      bootstrap are left out.
    - A duplicated low_ttl on the wire makes two cells of the same value.
    - The order in which a [HashMap] is iterated is a choice of the schedule.
    - The operating system: queue, raw socket, WinDivert, the iptables and nft
      programs, netlink sources and interface tables are environments of the
      model; outbound socket options and what a DNS server answers are not
      modelled.
    - Drawing, the result tables, the JSON encoding of events and reports, and
      the glue around the packaged Android binary: no state depends on them.
    - The loops that only wait: accept loops, the timers of rescans and pings,
      wait_fatal, and the tokio runtime with its cancellation; what a task does
      in between is modelled with its interleavings.
    - In [DataPlane] and [Recovery] an error is its outermost message, without
      the chain behind it or the replies printed in it.
    - Header fields that etherparse does not keep (the reserved TCP bits).

    ** Plan

    The components were taken from the packet outwards: packets and methods,
    the handler and the flow table, connections and targets, the platform
    backends and the helper, recovery and reloads, the testers, what the user
    sees, and the program that starts them.  What remains is under Not
    modelled. *)
From stdpp Require Import base list numbers strings gmap.
From Stdlib Require Import ZArith Lia.

(** ** Panicking computations

    A Rust function that indexes, slices, asserts or unwraps may panic.  Such
    a function is modelled in [exec]: [Done a] is a normal return, [Panic] an
    unwinding panic. *)
Inductive exec (A : Type) : Type :=
  | Done (a : A)
  | Panic.
Global Arguments Done {A} _.
Global Arguments Panic {A}.

Definition exec_bind {A B} (e : exec A) (k : A → exec B) : exec B :=
  match e with Done a => k a | Panic => Panic end.

(** [o?] in a function returning [Option]. *)
Definition try_opt {A B} (o : option A) (k : A → exec (option B)) : exec (option B) :=
  match o with Some a => k a | None => Done None end.

(** [f()?] in a function returning [Option], where [f] may panic. *)
Definition try_exec {A B} (e : exec (option A)) (k : A → exec (option B)) : exec (option B) :=
  exec_bind e (λ o, try_opt o k).

(** [o.expect(..)] and [o.unwrap()]. *)
Definition expect {A} (o : option A) : exec A :=
  match o with Some a => Done a | None => Panic end.

(** [assert!(b)]. *)
Definition rassert {A} (b : bool) (k : exec A) : exec A :=
  if b then k else Panic.

Definition exec_map {A B} (f : A → B) (e : exec A) : exec B :=
  match e with Done a => Done (f a) | Panic => Panic end.

Declare Scope rust_scope.
Delimit Scope rust_scope with rust.
Notation "'let!' x := e 'in' k" := (exec_bind e (λ x, k))
  (at level 10, x pattern, e at level 100, k at level 200) : rust_scope.
Notation "'let?' x := e 'in' k" := (try_opt e (λ x, k))
  (at level 10, x pattern, e at level 100, k at level 200) : rust_scope.
Notation "'let?!' x := e 'in' k" := (try_exec e (λ x, k))
  (at level 10, x pattern, e at level 100, k at level 200) : rust_scope.
Global Open Scope rust_scope.

(** Running the continuation over a list, threading a state, stopping at the
    first panic: a [for] loop whose body may panic. *)
Fixpoint exec_fold {A S} (f : S → A → exec S) (l : list A) (s : S) : exec S :=
  match l with
  | [] => Done s
  | x :: l' => exec_bind (f s x) (exec_fold f l')
  end.

(** ** Fixed-width integers *)

Definition u8_max : Z := 255.
Definition u16_max : Z := 65535.

(** [x as uN]. *)
Definition as_u8 (z : Z) : Z := z mod 2 ^ 8.
Definition as_u16 (z : Z) : Z := z mod 2 ^ 16.
Definition as_u32 (z : Z) : Z := z mod 2 ^ 32.
Definition as_u64 (z : Z) : Z := z mod 2 ^ 64.

Definition wadd16 (a b : Z) : Z := (a + b) mod 2 ^ 16.
Definition wadd32 (a b : Z) : Z := (a + b) mod 2 ^ 32.
Definition wsub32 (a b : Z) : Z := (a - b) mod 2 ^ 32.
Definition wadd64 (a b : Z) : Z := (a + b) mod 2 ^ 64.
Definition wmul64 (a b : Z) : Z := (a * b) mod 2 ^ 64.

Definition is_u8 (z : Z) : Prop := (0 ≤ z < 2 ^ 8)%Z.
Definition is_u16 (z : Z) : Prop := (0 ≤ z < 2 ^ 16)%Z.
Definition is_u32 (z : Z) : Prop := (0 ≤ z < 2 ^ 32)%Z.
Definition is_u64 (z : Z) : Prop := (0 ≤ z < 2 ^ 64)%Z.

(** A byte string: every element a [u8]. *)
Definition is_bytes (l : list Z) : Prop := Forall is_u8 l.

(** [u16::from_be_bytes], [u32::from_be_bytes] and [to_be_bytes]. *)
Definition from_be16 (a b : Z) : Z := a * 256 + b.
Definition from_be32 (a b c d : Z) : Z := ((a * 256 + b) * 256 + c) * 256 + d.
Definition to_be16 (z : Z) : list Z := [(z / 256) mod 256; z mod 256]%Z.
Definition to_be32 (z : Z) : list Z :=
  [(z / 16777216) mod 256; (z / 65536) mod 256; (z / 256) mod 256; z mod 256]%Z.

(** [u64::to_le_bytes]. *)
Fixpoint le_bytes (n : nat) (z : Z) : list Z :=
  match n with
  | O => []
  | S n' => (z mod 256)%Z :: le_bytes n' (z / 256)%Z
  end.

(** ** Slices *)

(** [l[i]] *)
Definition idx {A} (l : list A) (i : nat) : exec A :=
  match l !! i with Some x => Done x | None => Panic end.

(** [l.get(a..b)] *)
Definition get_range {A} (l : list A) (a b : nat) : option (list A) :=
  if (a <=? b)%nat && (b <=? length l)%nat then Some (take (b - a) (drop a l)) else None.

(** [&l[a..b]] *)
Definition slice {A} (l : list A) (a b : nat) : exec (list A) :=
  expect (get_range l a b).

(** [l[i] = v] *)
Definition upd {A} (l : list A) (i : nat) (v : A) : exec (list A) :=
  if (i <? length l)%nat then Done (<[i := v]> l) else Panic.

(** [l[a..b].copy_from_slice(src)] *)
Definition blit {A} (l : list A) (a b : nat) (src : list A) : exec (list A) :=
  if (a <=? b)%nat && (b <=? length l)%nat && (length src =? b - a)%nat
  then Done (take a l ++ src ++ drop b l) else Panic.

(** [l.chunks(n)] for [n > 0]: consecutive pieces of [n] elements, the last
    one holding the remainder.  The fuel [length l] is enough since every
    piece is nonempty. *)
Fixpoint chunks_aux {A} (fuel n : nat) (l : list A) : list (list A) :=
  match fuel with
  | O => []
  | S fuel' =>
      match l with
      | [] => []
      | _ => take n l :: chunks_aux fuel' n (drop n l)
      end
  end.
Definition chunks {A} (n : nat) (l : list A) : list (list A) := chunks_aux (length l) n l.

(** [a.div_ceil(b)] *)
Definition div_ceil (a b : nat) : nat := (a / b + (if (a mod b =? 0)%nat then 0 else 1))%nat.

(** [v.resize(n, x)] *)
Definition resize_vec {A} (l : list A) (n : nat) (x : A) : list A :=
  if (length l <? n)%nat then l ++ replicate (n - length l) x else take n l.

(** ** SplitMix64

    The generator is written out in several modules of the program (the
    overlap prefix, the fragment, padding and mixed-case samplers, the target
    pool); one step maps the state to the next state and an output. *)
Definition splitmix64 (state : Z) : Z * Z :=
  let state := wadd64 state 0x9E3779B97F4A7C15%Z in
  let z := state in
  let z := wmul64 (Z.lxor z (Z.shiftr z 30)) 0xBF58476D1CE4E5B9%Z in
  let z := wmul64 (Z.lxor z (Z.shiftr z 27)) 0x94D049BB133111EB%Z in
  let z := Z.lxor z (Z.shiftr z 31) in
  (state, z).

Global Arguments splitmix64 : simpl never.

(** ** Automation

    [zdpi] collects the well-formedness facts (byte ranges, lengths) that
    close most side conditions; [lens] rewrites lengths. *)
Create HintDb zdpi.
Create HintDb lens.

(** Case analysis on the head [if] or [match] of the goal or a hypothesis. *)
Ltac dcase :=
  match goal with
  | |- context [if ?b then _ else _] => destruct b eqn:?
  | |- context [match ?o with Some _ => _ | None => _ end] => destruct o eqn:?
  | H : context [if ?b then _ else _] |- _ => destruct b eqn:?
  | H : context [match ?o with Some _ => _ | None => _ end] |- _ => destruct o eqn:?
  end.

Definition is_nil {A} (l : list A) : bool := match l with [] => true | _ => false end.
Lemma is_nil_true {A} (l : list A) : is_nil l = true ↔ l = [].
Proof. by destruct l. Qed.

(** Turn boolean comparisons on [nat] and [Z] into propositions. *)
Ltac bool_to_prop :=
  repeat match goal with
  | H : (_ && _) = true |- _ => apply andb_true_iff in H as [? ?]
  | H : (_ && _) = false |- _ => apply andb_false_iff in H
  | H : (_ || _) = false |- _ => apply orb_false_iff in H as [? ?]
  | H : (_ || _) = true |- _ => apply orb_true_iff in H
  | H : negb _ = true |- _ => apply negb_true_iff in H
  | H : negb _ = false |- _ => apply negb_false_iff in H
  | H : (_ =? _)%nat = true |- _ => apply Nat.eqb_eq in H
  | H : (_ =? _)%nat = false |- _ => apply Nat.eqb_neq in H
  | H : (_ <=? _)%nat = true |- _ => apply Nat.leb_le in H
  | H : (_ <=? _)%nat = false |- _ => apply Nat.leb_gt in H
  | H : (_ <? _)%nat = true |- _ => apply Nat.ltb_lt in H
  | H : (_ <? _)%nat = false |- _ => apply Nat.ltb_ge in H
  | H : (_ =? _)%Z = true |- _ => apply Z.eqb_eq in H
  | H : (_ =? _)%Z = false |- _ => apply Z.eqb_neq in H
  | H : (_ <=? _)%Z = true |- _ => apply Z.leb_le in H
  | H : (_ <=? _)%Z = false |- _ => apply Z.leb_gt in H
  | H : (_ <? _)%Z = true |- _ => apply Z.ltb_lt in H
  | H : (_ <? _)%Z = false |- _ => apply Z.ltb_ge in H
  end.

(** ** Lemmas on [exec] *)
Lemma exec_bind_done {A B} (e : exec A) (k : A → exec B) b :
  exec_bind e k = Done b ↔ ∃ a, e = Done a ∧ k a = Done b.
Proof. destruct e; simpl; naive_solver. Qed.

Lemma expect_done {A} (o : option A) a : expect o = Done a ↔ o = Some a.
Proof. destruct o; simpl; naive_solver. Qed.

Lemma exec_fold_app {A S} (f : S → A → exec S) l1 l2 s :
  exec_fold f (l1 ++ l2) s = exec_bind (exec_fold f l1 s) (exec_fold f l2).
Proof.
  revert s; induction l1 as [|x l1 IH]; intros s; simpl; [done|].
  destruct (f s x); simpl; auto.
Qed.

(** A loop invariant: if the body is total and preserves [I], so is the loop. *)
Lemma exec_fold_inv {A S} (I : S → Prop) (f : S → A → exec S) l s :
  I s → (∀ s x, x ∈ l → I s → ∃ s', f s x = Done s' ∧ I s') →
  ∃ s', exec_fold f l s = Done s' ∧ I s'.
Proof.
  revert s; induction l as [|x l IH]; intros s Hs Hf; simpl; [eauto|].
  destruct (Hf s x) as (s1 & -> & Hs1); [left|done|]; simpl.
  apply IH; [done|]. intros; apply Hf; [by right|done].
Qed.

(** ** Lemmas on slices *)
Lemma idx_lookup {A} (l : list A) i x : l !! i = Some x → idx l i = Done x.
Proof. unfold idx; by intros ->. Qed.

Lemma idx_done {A} (l : list A) i : i < length l → ∃ x, idx l i = Done x ∧ l !! i = Some x.
Proof.
  intros H. destruct (lookup_lt_is_Some_2 l i H) as [x Hx].
  exists x. unfold idx. by rewrite Hx.
Qed.

Lemma idx_panic {A} (l : list A) i : length l ≤ i → idx l i = Panic.
Proof. intros H. unfold idx. by rewrite (lookup_ge_None_2 l i H). Qed.

Lemma get_range_some {A} (l : list A) a b :
  a ≤ b → b ≤ length l → get_range l a b = Some (take (b - a) (drop a l)).
Proof.
  intros H1 H2. unfold get_range.
  by rewrite (proj2 (Nat.leb_le a b) H1), (proj2 (Nat.leb_le b _) H2).
Qed.

Lemma get_range_inv {A} (l : list A) a b s :
  get_range l a b = Some s →
  a ≤ b ∧ b ≤ length l ∧ s = take (b - a) (drop a l) ∧ length s = b - a.
Proof.
  unfold get_range. destruct (_ && _) eqn:E; [|done]. bool_to_prop.
  intros [= <-]. repeat split; auto.
  rewrite length_take, length_drop. lia.
Qed.

Lemma get_range_none {A} (l : list A) a b :
  get_range l a b = None → a ≤ b → length l < b.
Proof.
  unfold get_range. destruct (a <=? b)%nat eqn:E1, (b <=? length l)%nat eqn:E2; simpl;
    bool_to_prop; done || lia.
Qed.

(** A range that is a visible part of the list. *)
Lemma get_range_mid {A} (l1 m l2 l : list A) a b :
  l = l1 ++ m ++ l2 → a = length l1 → b = a + length m → get_range l a b = Some m.
Proof.
  intros -> -> ->. rewrite get_range_some by (rewrite ?length_app; lia).
  rewrite drop_app_length. replace (length l1 + length m - length l1) with (length m) by lia.
  by rewrite take_app_length.
Qed.

Lemma lookup_get_range {A} (l : list A) a b s i :
  get_range l a b = Some s → i < b - a → s !! i = l !! (a + i).
Proof.
  intros (_ & _ & -> & _)%get_range_inv Hi.
  by rewrite lookup_take_lt, lookup_drop by done.
Qed.

Lemma slice_done {A} (l : list A) a b :
  a ≤ b → b ≤ length l → slice l a b = Done (take (b - a) (drop a l)).
Proof. intros. unfold slice. by rewrite get_range_some. Qed.

Lemma upd_done {A} (l : list A) i v : i < length l → upd l i v = Done (<[i:=v]> l).
Proof. intros H. unfold upd. by rewrite (proj2 (Nat.ltb_lt _ _) H). Qed.

Lemma blit_done {A} (l : list A) a b src :
  a ≤ b → b ≤ length l → length src = b - a →
  blit l a b src = Done (take a l ++ src ++ drop b l).
Proof.
  intros H1 H2 H3. unfold blit.
  by rewrite (proj2 (Nat.leb_le _ _) H1), (proj2 (Nat.leb_le _ _) H2),
    (proj2 (Nat.eqb_eq _ _) H3).
Qed.

Lemma slice_mid {A} (l1 m l2 l : list A) a b :
  l = l1 ++ m ++ l2 → a = length l1 → b = a + length m → slice l a b = Done m.
Proof. intros. unfold slice. by rewrite (get_range_mid l1 m l2). Qed.

Lemma blit_mid {A} (l1 m l2 src : list A) a b :
  a = length l1 → b = a + length m → length src = length m →
  blit (l1 ++ m ++ l2) a b src = Done (l1 ++ src ++ l2).
Proof.
  intros -> -> Hs. rewrite blit_done by (rewrite ?length_app; lia).
  rewrite take_app_length. rewrite (app_assoc l1 m), drop_app_length'; [done|].
  by rewrite length_app.
Qed.

Lemma length_blit {A} (l : list A) a b src l' :
  blit l a b src = Done l' → length l' = length l.
Proof.
  unfold blit. destruct (_ && _) eqn:E; [|done]. bool_to_prop.
  intros [= <-]. rewrite !length_app, length_take, length_drop. lia.
Qed.

Lemma resize_vec_length {A} (l : list A) n x : length (resize_vec l n x) = n.
Proof.
  unfold resize_vec. destruct (_ <? _)%nat eqn:E; bool_to_prop.
  - rewrite length_app, length_replicate. lia.
  - rewrite length_take. lia.
Qed.

Lemma lookup_insert_at {A} (l : list A) i j x :
  i = j → j < length l → <[i:=x]> l !! j = Some x.
Proof. intros ->. apply list_lookup_insert_eq. Qed.

(** Lookups through a chain of insertions, the positions decided by [lia]. *)
Ltac lookup_ins :=
  repeat first
    [ rewrite list_lookup_insert_ne by lia
    | rewrite lookup_insert_at by
        first [lia | rewrite ?length_insert; autorewrite with lens; lia] ].

(** Writing four bytes is four insertions. *)
Lemma blit4 {A} (l : list A) a b x0 x1 x2 x3 :
  b = a + 4 → a + 4 ≤ length l →
  blit l a b [x0; x1; x2; x3] =
  Done (<[a + 3 := x3]> (<[a + 2 := x2]> (<[a + 1 := x1]> (<[a := x0]> l)))).
Proof.
  intros -> H. rewrite blit_done by (simpl; lia). f_equal.
  assert (∃ y0 y1 y2 y3, l = take a l ++ y0 :: y1 :: y2 :: y3 :: drop (a + 4) l)
    as (y0 & y1 & y2 & y3 & E).
  { destruct (lookup_lt_is_Some_2 l a) as [y0 H0]; [lia|].
    destruct (lookup_lt_is_Some_2 l (S a)) as [y1 H1]; [lia|].
    destruct (lookup_lt_is_Some_2 l (S (S a))) as [y2 H2]; [lia|].
    destruct (lookup_lt_is_Some_2 l (S (S (S a)))) as [y3 H3]; [lia|].
    exists y0, y1, y2, y3. rewrite <- (take_drop a l) at 1. f_equal.
    rewrite (drop_S l y0 a), (drop_S l y1 (S a)), (drop_S l y2 (S (S a))),
      (drop_S l y3 (S (S (S a)))) by done. do 4 f_equal. f_equal. lia. }
  assert (length (take a l) = a) as Hl by (rewrite length_take; lia).
  rewrite E at 3. rewrite <- Hl at 3 4 5 6.
  replace (length (take a l)) with (length (take a l) + 0) at 4 by lia.
  rewrite !insert_app_r. done.
Qed.

(** ** Lemmas on integers *)
Section integer_facts.
Local Open Scope Z_scope.

Lemma as_u8_range z : is_u8 (as_u8 z).
Proof. apply Z.mod_pos_bound. lia. Qed.
Lemma as_u16_range z : is_u16 (as_u16 z).
Proof. apply Z.mod_pos_bound. lia. Qed.
Lemma as_u32_range z : is_u32 (as_u32 z).
Proof. apply Z.mod_pos_bound. lia. Qed.
Lemma as_u64_range z : is_u64 (as_u64 z).
Proof. apply Z.mod_pos_bound. lia. Qed.
Lemma wadd16_range a b : is_u16 (wadd16 a b).
Proof. apply Z.mod_pos_bound. lia. Qed.
Lemma wadd32_range a b : is_u32 (wadd32 a b).
Proof. apply Z.mod_pos_bound. lia. Qed.
Lemma wsub32_range a b : is_u32 (wsub32 a b).
Proof. apply Z.mod_pos_bound. lia. Qed.
Lemma wadd64_range a b : is_u64 (wadd64 a b).
Proof. apply Z.mod_pos_bound. lia. Qed.
Lemma wmul64_range a b : is_u64 (wmul64 a b).
Proof. apply Z.mod_pos_bound. lia. Qed.

Lemma as_u8_small z : is_u8 z → as_u8 z = z.
Proof. apply Z.mod_small. Qed.
Lemma as_u16_small z : is_u16 z → as_u16 z = z.
Proof. apply Z.mod_small. Qed.
Lemma as_u32_small z : is_u32 z → as_u32 z = z.
Proof. apply Z.mod_small. Qed.

(** Sequence-number arithmetic: moving forward by [a] then back by [b]. *)
Lemma wsub32_wadd32 s a b : wsub32 (wadd32 s a) b = (s + a - b) mod 2 ^ 32.
Proof. unfold wsub32, wadd32. by rewrite Zminus_mod_idemp_l. Qed.
Lemma wadd32_wsub32 s a : is_u32 s → wadd32 (wsub32 s a) a = s.
Proof.
  intros Hs. unfold wadd32, wsub32. rewrite Zplus_mod_idemp_l.
  replace (s - a + a) with s by lia. by apply Z.mod_small.
Qed.

(** Distances on the sequence circle. *)
Lemma wsub32_wsub32 a x y : wsub32 (wsub32 a x) y = wsub32 a (x + y).
Proof. unfold wsub32. rewrite Zminus_mod_idemp_l. f_equal. lia. Qed.
Lemma wsub32_back a k : is_u32 k → wsub32 a (wsub32 a k) = k.
Proof.
  intros Hk. unfold wsub32. rewrite Zminus_mod_idemp_r.
  replace (a - (a - k)) with k by lia. by apply Z.mod_small.
Qed.

Lemma to_be16_bytes z : is_bytes (to_be16 z).
Proof. repeat constructor; apply Z.mod_pos_bound; lia. Qed.
Lemma to_be32_bytes z : is_bytes (to_be32 z).
Proof. repeat constructor; apply Z.mod_pos_bound; lia. Qed.
Lemma le_bytes_bytes n z : is_bytes (le_bytes n z).
Proof. revert z; induction n; intros; constructor; [apply Z.mod_pos_bound; lia|apply IHn]. Qed.
Lemma length_le_bytes n z : length (le_bytes n z) = n.
Proof. revert z; induction n; intros; simpl; auto. Qed.

Lemma from_be16_range a b : is_u8 a → is_u8 b → is_u16 (from_be16 a b).
Proof. unfold is_u8, is_u16, from_be16. lia. Qed.
Lemma from_be32_range a b c d :
  is_u8 a → is_u8 b → is_u8 c → is_u8 d → is_u32 (from_be32 a b c d).
Proof. unfold is_u8, is_u32, from_be32. lia. Qed.

(** Encoding then decoding is the identity on the type's range. *)
Lemma be16_roundtrip z : is_u16 z →
  from_be16 ((z / 256) mod 256) (z mod 256) = z.
Proof.
  unfold is_u16, from_be16. intros Hz.
  rewrite (Z.mod_small (z / 256)) by (split; [apply Z.div_pos|apply Z.div_lt_upper_bound]; lia).
  pose proof (Z.div_mod z 256). lia.
Qed.

Lemma be32_roundtrip z : is_u32 z →
  from_be32 ((z / 16777216) mod 256) ((z / 65536) mod 256) ((z / 256) mod 256) (z mod 256) = z.
Proof.
  unfold is_u32, from_be32. intros Hz.
  rewrite (Z.mod_small (z / 16777216))
    by (split; [apply Z.div_pos|apply Z.div_lt_upper_bound]; lia).
  change 16777216 with (256 * 65536). change 65536 with (256 * 256).
  rewrite <- !Z.div_div by lia.
  pose proof (Z.div_mod z 256).
  pose proof (Z.div_mod (z / 256) 256).
  pose proof (Z.div_mod (z / 256 / 256) 256). lia.
Qed.

Lemma be16_bytes_roundtrip a b : is_u8 a → is_u8 b → to_be16 (from_be16 a b) = [a; b].
Proof.
  unfold is_u8, to_be16, from_be16. intros Ha Hb.
  rewrite Z.div_add_l by lia. rewrite (Z.div_small b) by lia.
  rewrite Z.add_0_r, (Z.mod_small a) by lia.
  by rewrite Z.add_comm, Z.mod_add, Z.mod_small by lia.
Qed.

Lemma be32_bytes_roundtrip a b c d : is_u8 a → is_u8 b → is_u8 c → is_u8 d →
  to_be32 (from_be32 a b c d) = [a; b; c; d].
Proof.
  unfold is_u8, to_be32, from_be32. intros Ha Hb Hc Hd.
  replace (((a * 256 + b) * 256 + c) * 256 + d) with (a * 16777216 + (b * 65536 + (c * 256 + d))) by lia.
  repeat f_equal.
  - rewrite Z.div_add_l, (Z.div_small (b * 65536 + _)), Z.add_0_r by lia. by apply Z.mod_small.
  - replace (a * 16777216 + (b * 65536 + (c * 256 + d)))
      with ((a * 256 + b) * 65536 + (c * 256 + d)) by lia.
    rewrite Z.div_add_l, (Z.div_small (c * 256 + d)), Z.add_0_r by lia.
    by rewrite Z.add_comm, Z.mod_add, Z.mod_small by lia.
  - replace (a * 16777216 + (b * 65536 + (c * 256 + d)))
      with (((a * 256 + b) * 256 + c) * 256 + d) by lia.
    rewrite Z.div_add_l, (Z.div_small d), Z.add_0_r by lia.
    by rewrite Z.add_comm, Z.mod_add, Z.mod_small by lia.
  - replace (a * 16777216 + (b * 65536 + (c * 256 + d)))
      with (d + ((a * 256 + b) * 256 + c) * 256) by lia.
    by rewrite Z.mod_add, Z.mod_small by lia.
Qed.

(** [a << k | b] is a sum when [b] fits in the low bits. *)
Lemma lor_shiftl a b k : 0 ≤ k → 0 ≤ b < 2 ^ k → Z.lor (Z.shiftl a k) b = a * 2 ^ k + b.
Proof.
  intros Hk Hb. assert (Z.land (Z.shiftl a k) b = 0) as Hl.
  { apply Z.bits_inj'. intros n Hn. rewrite Z.land_spec, Z.bits_0.
    destruct (decide (n < k)).
    - by rewrite Z.shiftl_spec_low.
    - rewrite <- (Z.mod_small b (2 ^ k)) by done.
      rewrite Z.mod_pow2_bits_high by lia. apply andb_false_r. }
  rewrite <- Z.lxor_lor by done. rewrite <- Z.add_nocarry_lxor by done.
  by rewrite Z.shiftl_mul_pow2.
Qed.

End integer_facts.
#[export] Hint Resolve as_u8_range as_u16_range as_u32_range as_u64_range
  wadd16_range wadd32_range wsub32_range wadd64_range wmul64_range
  to_be16_bytes to_be32_bytes le_bytes_bytes : zdpi.
#[export] Hint Rewrite @length_app @length_take @length_drop @length_replicate
  @length_insert @length_fmap length_le_bytes : lens.

(** ** Lemmas on byte strings *)
Lemma is_bytes_app l1 l2 : is_bytes (l1 ++ l2) ↔ is_bytes l1 ∧ is_bytes l2.
Proof. apply Forall_app. Qed.
Lemma is_bytes_take n l : is_bytes l → is_bytes (take n l).
Proof. apply Forall_take. Qed.
Lemma is_bytes_drop n l : is_bytes l → is_bytes (drop n l).
Proof. apply Forall_drop. Qed.
Lemma is_bytes_insert i x l : is_bytes l → is_u8 x → is_bytes (<[i:=x]> l).
Proof. intros. by apply Forall_insert. Qed.
Lemma is_bytes_lookup l i x : is_bytes l → l !! i = Some x → is_u8 x.
Proof. intros H Hi. by eapply Forall_lookup_1 in H. Qed.
Lemma is_bytes_replicate n : is_bytes (replicate n 0%Z).
Proof. apply Forall_replicate. unfold is_u8. lia. Qed.
Lemma is_bytes_concat ls : Forall is_bytes ls → is_bytes (concat ls).
Proof. induction 1; simpl; [constructor|]. by apply is_bytes_app. Qed.

(** Concrete byte strings are checked by evaluation. *)
Definition is_bytesb (l : list Z) : bool := forallb (λ z, (0 <=? z)%Z && (z <? 256)%Z) l.
Lemma is_bytesb_spec l : is_bytesb l = true ↔ is_bytes l.
Proof.
  unfold is_bytesb, is_bytes. rewrite forallb_forall, Forall_forall. unfold is_u8.
  setoid_rewrite list_elem_of_In. split; intros H x Hx; specialize (H x Hx); lia.
Qed.
#[export] Hint Resolve is_bytes_take is_bytes_drop is_bytes_insert is_bytes_replicate
  is_bytes_concat : zdpi.

(** ** Lemmas on [chunks] *)
Section chunks_facts.
Context {A : Type} (n : nat) (Hn : 0 < n).

Lemma chunks_aux_concat fuel (l : list A) :
  length l ≤ fuel → concat (chunks_aux fuel n l) = l.
Proof.
  revert l; induction fuel as [|fuel IH]; intros [|x l] H; simpl in *; try done; try lia.
  destruct n as [|m]; [lia|]. simpl.
  rewrite IH by (rewrite length_drop; lia).
  by rewrite take_drop.
Qed.

Lemma chunks_aux_fuel fuel fuel' (l : list A) :
  length l ≤ fuel → length l ≤ fuel' → chunks_aux fuel n l = chunks_aux fuel' n l.
Proof.
  revert fuel' l; induction fuel as [|fuel IH]; intros [|fuel'] [|x l] H H'; simpl in *;
    try done; try lia.
  f_equal. apply IH; destruct n; simpl; rewrite ?length_drop; lia.
Qed.

Lemma chunks_cons (l : list A) :
  l ≠ [] → chunks n l = take n l :: chunks n (drop n l).
Proof.
  intros Hl. unfold chunks. destruct l as [|x l]; [done|]. simpl length.
  cbn [chunks_aux]. f_equal. apply chunks_aux_fuel; destruct n; simpl; rewrite ?length_drop; lia.
Qed.

Lemma concat_chunks (l : list A) : concat (chunks n l) = l.
Proof. by apply chunks_aux_concat. Qed.

(** Induction that follows [chunks]. *)
Lemma chunks_ind (P : list A → list (list A) → Prop) :
  P [] [] →
  (∀ l, l ≠ [] → P (drop n l) (chunks n (drop n l)) →
        P l (take n l :: chunks n (drop n l))) →
  ∀ l, P l (chunks n l).
Proof.
  intros H0 HS l. remember (length l) as k eqn:Hk. revert l Hk.
  induction k as [k IH] using lt_wf_ind. intros [|x l] Hk; [done|].
  rewrite chunks_cons by done. apply HS; [done|].
  eapply IH; [|reflexivity]. subst k. rewrite length_drop. simpl. lia.
Qed.

Lemma chunks_sizes (l : list A) : Forall (λ c, 0 < length c ≤ n) (chunks n l).
Proof.
  apply (chunks_ind (λ _ cs, Forall _ cs)); [done|].
  intros l' Hl' IH. constructor; [|done].
  rewrite length_take. destruct l'; [done|]; simpl. lia.
Qed.

(** No piece is longer than the list. *)
Lemma chunks_sizes_le (l : list A) : Forall (λ c, length c ≤ length l ∧ length c ≤ n) (chunks n l).
Proof.
  apply (chunks_ind (λ l cs, Forall (λ c, length c ≤ length l ∧ length c ≤ n) cs)); [done|].
  intros l' Hl' IH. constructor; [rewrite length_take; lia|].
  eapply Forall_impl; [exact IH|]. intros c. simpl. rewrite length_drop. lia.
Qed.

Lemma length_chunks (l : list A) : length (chunks n l) = div_ceil (length l) n.
Proof.
  apply (chunks_ind (λ l cs, length cs = div_ceil (length l) n)).
  - unfold div_ceil. rewrite Nat.Div0.div_0_l, Nat.Div0.mod_0_l. done.
  - intros l' Hl' IH. simpl. rewrite IH, length_drop. unfold div_ceil.
    destruct (decide (length l' < n)) as [Hlt|Hge].
    + replace (length l' - n) with 0 by lia.
      rewrite Nat.Div0.div_0_l, Nat.Div0.mod_0_l, Nat.div_small, Nat.mod_small by done.
      destruct l'; [done|]. done.
    + replace (length l') with ((length l' - n) + 1 * n) at 3 4 by lia.
      rewrite Nat.div_add, Nat.Div0.mod_add by lia. lia.
Qed.

Lemma concat_take_chunks (l : list A) k : concat (take k (chunks n l)) = take (k * n) l.
Proof.
  revert k. apply (chunks_ind (λ l cs, ∀ k, concat (take k cs) = take (k * n) l)).
  - intros k. by rewrite !take_nil.
  - intros l' Hl' IH [|k]; [by rewrite take_0|]. simpl. rewrite IH.
    by rewrite <- (take_take_drop l' n (k * n)).
Qed.

Lemma concat_drop_chunks (l : list A) k : concat (drop k (chunks n l)) = drop (k * n) l.
Proof.
  apply (app_inv_head (take (k * n) l)).
  rewrite <- concat_take_chunks at 1. by rewrite <- concat_app, !take_drop, concat_chunks.
Qed.

Lemma lookup_chunks (l : list A) i c :
  chunks n l !! i = Some c → i * n < length l ∧ c = take n (drop (i * n) l).
Proof.
  revert i c. apply (chunks_ind (λ l cs, ∀ i c, cs !! i = Some c →
    i * n < length l ∧ c = take n (drop (i * n) l))); [done|].
  intros l' Hl' IH [|i] c; simpl.
  - intros [= <-]. rewrite drop_0. destruct l'; [done|]. simpl. split; [lia|done].
  - intros [H1 ->]%IH. rewrite length_drop in H1. split; [lia|]. by rewrite drop_drop.
Qed.
End chunks_facts.

Lemma div_ceil_bounds a b : 0 < b → a ≤ div_ceil a b * b < a + b.
Proof.
  intros Hb. unfold div_ceil. pose proof (Nat.div_mod_eq a b).
  pose proof (Nat.mod_upper_bound a b).
  destruct (a mod b =? 0)%nat eqn:E; bool_to_prop; nia.
Qed.

Lemma div_ceil_pos a b : 0 < b → 0 < a → 0 < div_ceil a b.
Proof. intros Hb Ha. pose proof (div_ceil_bounds a b Hb). nia. Qed.

(** ** Byte placement

    The reassembly buffer of a receiver, used to state what fragmentation and
    segmentation preserve: [place m off l] writes [l] at offset [off], the
    latest write winning. *)
Definition place (m : gmap nat Z) (off : nat) (l : list Z) : gmap nat Z := map_seq off l ∪ m.

Lemma lookup_place m off l i :
  place m off l !! i =
    if decide (off ≤ i < off + length l) then l !! (i - off) else m !! i.
Proof.
  unfold place. rewrite lookup_union, lookup_map_seq.
  destruct (decide (off ≤ i < off + length l)) as [[H1 H2]|H].
  - rewrite option_guard_True by lia.
    destruct (lookup_lt_is_Some_2 l (i - off)) as [x Hx]; [lia|].
    rewrite Hx. by destruct (m !! i).
  - destruct (decide (off ≤ i)).
    + rewrite option_guard_True, lookup_ge_None_2 by lia. by destruct (m !! i).
    + rewrite option_guard_False by lia. by destruct (m !! i).
Qed.

(** The buffer holds exactly the byte string [l] from offset 0. *)
Definition holds (m : gmap nat Z) (l : list Z) : Prop := ∀ i, m !! i = l !! i.

(** ** Logs

    A log is lawful when every entry is allowed by what was logged before it. *)
Section logs.
Context {A : Type} (law : list A → A → Prop).

Definition each_allowed (log : list A) : Prop := ∀ pre c post, log = pre ++ c :: post → law pre c.

Lemma each_allowed_nil : each_allowed [].
Proof. by intros [|? ?] ? ?. Qed.

Lemma each_allowed_snoc log c : each_allowed (log ++ [c]) ↔ each_allowed log ∧ law log c.
Proof.
  split.
  - intros Hl. split; [|by apply (Hl log c [])]. intros pre c' post ->.
    apply (Hl pre c' (post ++ [c])). by rewrite <-app_assoc.
  - intros [Hl Hc] pre c' post Hs. destruct post as [|x post _] using rev_ind.
    + apply app_inj_tail in Hs as [<- <-]. done.
    + rewrite app_comm_cons, app_assoc in Hs. apply app_inj_tail in Hs as [-> _].
      by apply (Hl pre c' post).
Qed.
End logs.
