(* ===== verification/IpFragment.v ===== *)
(** * IPv4 header checksum and fragmentation

    Model of [crates/zerodpi-core/src/ip_fragment.rs]: the RFC 1071 checksum
    (shared with the TCP segmentation code) and [fragment_ipv4_packet], with
    the theorems that the checksum written in a header verifies and that the
    fragments of a packet reassemble to its payload. *)
From stdpp Require Import base list numbers gmap.
From Stdlib Require Import ZArith Lia.
From S2P Require Import Prelude.

(** ** Definitions *)

(** The [chunks_exact(2)] loop with its remainder: the [u32] accumulator
    [sum] plus the big-endian 16-bit words of [l], an odd last byte counting
    as the high byte of a word. *)
Fixpoint sum_words (l : list Z) (sum : Z) : Z :=
  match l with
  | a :: b :: l' => sum_words l' (wadd32 sum (from_be16 a b))
  | [b] => wadd32 sum (Z.shiftl b 8)
  | [] => sum
  end.

(** [while sum >> 16 != 0 { sum = (sum & 0xFFFF) + (sum >> 16) }] with the
    number of iterations bounded by [fuel]; [fold_carries_exits] shows that
    three iterations reach the exit condition for every [u32]. *)
Fixpoint fold_carries (fuel : nat) (sum : Z) : Z :=
  match fuel with
  | O => sum
  | S fuel' =>
      if (Z.shiftr sum 16 =? 0)%Z then sum
      else fold_carries fuel' (wadd32 (Z.land sum 0xFFFF) (Z.shiftr sum 16))
  end.

(** [!(sum as u16)] *)
Definition not16 (z : Z) : Z := (65535 - z)%Z.
Definition finish_sum (sum : Z) : Z := not16 (as_u16 (fold_carries 3 sum)).

Definition ipv4_header_checksum (header : list Z) : Z := finish_sum (sum_words header 0).

(** [frag_size & !7] *)
Definition round_down8 (n : nat) : nat := Z.to_nat (Z.land (Z.of_nat n) (Z.lnot 7)).

(** One iteration of the fragment loop: the fragment carrying [part] at byte
    [offset] of [payload]. *)
Definition build_fragment (bytes : list Z) (ihl : nat) (payload_len : nat)
    (ident0 ident1 : Z) (offset : nat) (part : list Z) : exec (list Z) :=
  let! frag := slice bytes 0 ihl in
  let total := as_u16 (Z.of_nat (ihl + length part)) in
  let! frag := upd frag 2 (as_u8 (Z.shiftr total 8)) in
  let! frag := upd frag 3 (as_u8 total) in
  let last := (payload_len <=? offset + length part)%nat in
  let flags_offset := as_u16 (Z.of_nat (offset / 8)) in
  let flags_offset := if last then flags_offset else Z.lor flags_offset 0x2000 in
  let! frag := upd frag 6 (as_u8 (Z.shiftr flags_offset 8)) in
  let! frag := upd frag 7 (as_u8 flags_offset) in
  let! frag := upd frag 4 ident0 in
  let! frag := upd frag 5 ident1 in
  let! frag := upd frag 10 0%Z in
  let! frag := upd frag 11 0%Z in
  let! hdr := slice frag 0 ihl in
  let checksum := ipv4_header_checksum hdr in
  let! frag := upd frag 10 (as_u8 (Z.shiftr checksum 8)) in
  let! frag := upd frag 11 (as_u8 checksum) in
  Done (frag ++ part).

Definition fragment_ipv4_packet (bytes : list Z) (frag_size : nat) : exec (list (list Z)) :=
  let unchanged := Done [bytes] in
  match head bytes with
  | None => unchanged
  | Some first =>
      let ihl := Z.to_nat (Z.land first 0x0F) * 4 in
      if (ihl <? 20)%nat || (length bytes <? ihl)%nat then unchanged else
      let chunk := round_down8 frag_size in
      if (chunk =? 0)%nat then unchanged else
      let! payload := slice bytes ihl (length bytes) in
      if (length payload <=? chunk)%nat then unchanged else
      let! ident0 := idx bytes 4 in
      let! ident1 := idx bytes 5 in
      let! st := exec_fold (λ '(offset, fragments) part,
          let! frag := build_fragment bytes ihl (length payload) ident0 ident1 offset part in
          Done (offset + length part, fragments ++ [frag]))
        (chunks chunk payload) (0, []) in
      Done (snd st)
  end.

(** ** The receiver's view of a fragment *)
Definition frag_ihl (f : list Z) : nat := Z.to_nat (Z.land (f !!! 0) 0x0F) * 4.
Definition frag_total_len (f : list Z) : Z := from_be16 (f !!! 2) (f !!! 3).
Definition frag_offset (f : list Z) : nat :=
  Z.to_nat (Z.land (from_be16 (f !!! 6) (f !!! 7)) 0x1FFF) * 8.
Definition frag_more (f : list Z) : bool := Z.testbit (from_be16 (f !!! 6) (f !!! 7)) 13.
Definition frag_body (f : list Z) : list Z := drop (frag_ihl f) f.

(** IP reassembly: each fragment's body at its offset. *)
Definition ip_reassemble (frags : list (list Z)) : gmap nat Z :=
  foldl (λ m f, place m (frag_offset f) (frag_body f)) ∅ frags.

(** ** The checksum *)
Section checksum_facts.
Local Open Scope Z_scope.

(** Induction two elements at a time, following [sum_words]. *)
Lemma list_ind2 {A} (P : list A → Prop) :
  P [] → (∀ a, P [a]) → (∀ a b l, P l → P (a :: b :: l)) → ∀ l, P l.
Proof.
  intros H0 H1 H2. assert (∀ l, P l ∧ ∀ a, P (a :: l)) as H; [|intros l; apply H].
  induction l as [|x l [IH1 IH2]]; split; auto.
Qed.

(** The mathematical sum of the words. *)
Fixpoint words_total (l : list Z) : Z :=
  match l with
  | a :: b :: l' => from_be16 a b + words_total l'
  | [b] => from_be16 b 0
  | [] => 0
  end.

Lemma words_total_bounds l :
  is_bytes l → 0 ≤ words_total l ∧ 2 * words_total l ≤ 65535 * (Z.of_nat (length l) + 1).
Proof.
  induction l as [|a|a b l IH] using list_ind2; intros Hl; simpl; [lia| |].
  - apply Forall_cons in Hl as [Ha _]. unfold is_u8, from_be16 in *. lia.
  - apply Forall_cons in Hl as [Ha [Hb Hl]%Forall_cons].
    destruct (IH Hl). unfold is_u8, from_be16 in *. lia.
Qed.

Lemma words_total_app l1 l2 :
  Nat.Even (length l1) → words_total (l1 ++ l2) = words_total l1 + words_total l2.
Proof.
  induction l1 as [|a|a b l1 IH] using list_ind2; intros He; simpl in *; [done| |].
  - destruct He as [k Hk]. lia.
  - rewrite IH; [lia|]. destruct He as [k Hk]. exists (k - 1)%nat. lia.
Qed.

(** As long as the total fits in a [u32] the accumulator does not wrap. *)
Lemma sum_words_total l s :
  is_bytes l → 0 ≤ s → s + words_total l < 2 ^ 32 → sum_words l s = s + words_total l.
Proof.
  revert s; induction l as [|a|a b l IH] using list_ind2; intros s Hl Hs Hb; simpl in *; [lia| |].
  - apply Forall_cons in Hl as [Ha _]. unfold wadd32, is_u8, from_be16 in *.
    rewrite Z.shiftl_mul_pow2 by lia. rewrite Z.mod_small; lia.
  - apply Forall_cons in Hl as [Ha [Hb' Hl]%Forall_cons].
    pose proof (words_total_bounds l Hl). unfold is_u8, wadd32 in *.
    rewrite Z.mod_small by (unfold from_be16 in *; lia).
    rewrite IH; try done; unfold from_be16 in *; lia.
Qed.

Lemma fold_step s : 0 ≤ s < 2 ^ 32 →
  wadd32 (Z.land s 0xFFFF) (Z.shiftr s 16) = s mod 65536 + s / 65536.
Proof.
  intros Hs. change 0xFFFF with (Z.ones 16). rewrite Z.land_ones, Z.shiftr_div_pow2 by lia.
  unfold wadd32. change (2 ^ 16) with 65536. apply Z.mod_small.
  pose proof (Z.mod_pos_bound s 65536). pose proof (Z.div_pos s 65536).
  assert (s / 65536 < 65536) by (apply Z.div_lt_upper_bound; lia). lia.
Qed.

Lemma fold_step_mod s : (s mod 65536 + s / 65536) mod 65535 = s mod 65535.
Proof.
  rewrite (Z.div_mod s 65536) at 3 by lia.
  replace (65536 * (s / 65536) + s mod 65536)
    with (s mod 65536 + s / 65536 + (s / 65536) * 65535) by lia.
  by rewrite Z.mod_add by lia.
Qed.

(** Three iterations reach the loop's exit condition [sum >> 16 = 0], and
    every iteration keeps the sum modulo 65535 and its being zero. *)
Lemma fold_carries_exits s : 0 ≤ s < 2 ^ 32 →
  0 ≤ fold_carries 3 s < 65536 ∧ fold_carries 3 s mod 65535 = s mod 65535 ∧
  (fold_carries 3 s = 0 ↔ s = 0).
Proof.
  assert (∀ k t, 0 ≤ t → t < 65536 → fold_carries k t = t) as Hdone.
  { intros [|k] t H0 H1; simpl; [done|]. rewrite Z.shiftr_div_pow2 by lia.
    change (2 ^ 16) with 65536. by rewrite Z.div_small by lia. }
  assert (∀ k t, 65536 ≤ t < 2 ^ 32 →
    fold_carries (S k) t = fold_carries k (t mod 65536 + t / 65536)) as Hstep.
  { intros k t Ht. cbn [fold_carries]. rewrite fold_step by lia.
    rewrite Z.shiftr_div_pow2 by lia. change (2 ^ 16) with 65536.
    destruct (Z.eqb_spec (t / 65536) 0) as [E|]; [|done].
    apply Z.div_small_iff in E; lia. }
  assert (∀ t, 65536 ≤ t < 2 ^ 32 →
    0 < t mod 65536 + t / 65536 ≤ 131070) as Hb.
  { intros t Ht. pose proof (Z.mod_pos_bound t 65536).
    assert (1 ≤ t / 65536) by (apply Z.div_le_lower_bound; lia).
    assert (t / 65536 < 65536) by (apply Z.div_lt_upper_bound; lia). lia. }
  intros Hs. destruct (decide (s < 65536)) as [|Hge]; [rewrite Hdone by lia; lia|].
  rewrite Hstep by lia. pose proof (Hb s ltac:(lia)) as Hb1.
  rewrite <- (fold_step_mod s). set (s1 := s mod 65536 + s / 65536) in *.
  destruct (decide (s1 < 65536)) as [|Hge1]; [rewrite Hdone by lia; lia|].
  rewrite Hstep by lia. rewrite <- (fold_step_mod s1).
  assert (s1 mod 65536 + s1 / 65536 ≤ 65535) as Hb2.
  { replace s1 with (s1 - 65536 + 1 * 65536) by lia.
    rewrite Z.mod_add, Z.div_add, Z.mod_small, Z.div_small by lia. lia. }
  pose proof (Hb s1 ltac:(lia)). rewrite Hdone by lia. lia.
Qed.

Lemma finish_sum_range s : 0 ≤ s < 2 ^ 32 → is_u16 (finish_sum s).
Proof.
  intros Hs. destruct (fold_carries_exits s Hs) as (H1 & _).
  unfold finish_sum, not16, is_u16. rewrite as_u16_small by (unfold is_u16; lia). lia.
Qed.

(** Adding the checksum of a sum to that sum gives a verifying sum. *)
Lemma finish_sum_verifies s :
  0 ≤ s → s + 65535 < 2 ^ 32 → finish_sum (s + finish_sum s) = 0.
Proof.
  intros Hs Hb. destruct (fold_carries_exits s ltac:(lia)) as (H1 & H2 & H3).
  unfold finish_sum at 2. rewrite as_u16_small by (unfold is_u16; lia). unfold not16 at 1.
  set (f := fold_carries 3 s) in *.
  destruct (fold_carries_exits (s + (65535 - f)) ltac:(lia)) as (G1 & G2 & G3).
  unfold finish_sum, not16. fold f. rewrite as_u16_small by (unfold is_u16; lia).
  set (g := fold_carries 3 (s + (65535 - f))) in *.
  assert (g mod 65535 = 0) as Hg.
  { rewrite G2, Z.add_mod, <- H2, <- Z.add_mod by lia.
    replace (f + (65535 - f)) with (1 * 65535) by lia. by apply Z.mod_mul. }
  assert (g ≠ 0) by (rewrite G3; lia).
  destruct (decide (g = 65535)); [lia|]. rewrite Z.mod_small in Hg by lia. lia.
Qed.

(** Words at an even position contribute their value. *)
Lemma words_total_field l k a b a' b' :
  (k + 1 < length l)%nat → Nat.Even k → l !! k = Some a → l !! S k = Some b →
  words_total (<[S k := b']> (<[k := a']> l)) =
  words_total l - from_be16 a b + from_be16 a' b'.
Proof.
  intros Hk He Ha Hb.
  assert (l = take k l ++ a :: b :: drop (S (S k)) l) as E.
  { rewrite <- (take_drop k l) at 1. f_equal.
    rewrite (drop_S l a k Ha). f_equal. by rewrite (drop_S l b (S k) Hb). }
  assert (length (take k l) = k) as Hlen by (rewrite length_take; lia).
  rewrite E. rewrite insert_app_r_alt by lia. rewrite Hlen, Nat.sub_diag. simpl.
  rewrite insert_app_r_alt by lia. rewrite Hlen. replace (S k - k)%nat with 1%nat by lia. simpl.
  rewrite !words_total_app by (by rewrite Hlen). simpl. lia.
Qed.
End checksum_facts.

Lemma frag_ihl_max f : frag_ihl f ≤ 60.
Proof.
  unfold frag_ihl. change 0x0F%Z with (Z.ones 4).
  rewrite Z.land_ones by lia. pose proof (Z.mod_pos_bound (f !!! 0) (2 ^ 4)). lia.
Qed.

(** ** One fragment *)

Lemma round_down8_spec n : round_down8 n = 8 * (n / 8).
Proof.
  unfold round_down8. change 7%Z with (Z.ones 3).
  rewrite <- Z.ldiff_land, Z.ldiff_ones_r, Z.shiftl_mul_pow2, Z.shiftr_div_pow2 by lia.
  change (2 ^ 3)%Z with (Z.of_nat 8). rewrite <- Nat2Z.inj_div. lia.
Qed.

(** The fragment's header before its checksum is filled in. *)
Definition frag_header0 (hdr : list Z) (total flags_offset i0 i1 : Z) : list Z :=
  <[11:=0%Z]> (<[10:=0%Z]> (<[5:=i1]> (<[4:=i0]>
    (<[7:=as_u8 flags_offset]> (<[6:=as_u8 (Z.shiftr flags_offset 8)]>
      (<[3:=as_u8 total]> (<[2:=as_u8 (Z.shiftr total 8)]> hdr))))))).

Definition set_checksum (h : list Z) (k : nat) (c : Z) : list Z :=
  <[S k := as_u8 c]> (<[k := as_u8 (Z.shiftr c 8)]> h).

Definition frag_flags (offset : nat) (last : bool) : Z :=
  let fo := as_u16 (Z.of_nat (offset / 8)) in if last then fo else Z.lor fo 0x2000.

Definition frag_bytes (bytes : list Z) (ihl payload_len : nat) (i0 i1 : Z)
    (offset : nat) (part : list Z) : list Z :=
  let h := frag_header0 (take ihl bytes) (as_u16 (Z.of_nat (ihl + length part)))
             (frag_flags offset (payload_len <=? offset + length part)%nat) i0 i1 in
  set_checksum h 10 (ipv4_header_checksum h) ++ part.

Lemma build_fragment_done bytes ihl plen i0 i1 offset part :
  20 ≤ ihl ≤ length bytes →
  build_fragment bytes ihl plen i0 i1 offset part =
  Done (frag_bytes bytes ihl plen i0 i1 offset part).
Proof.
  intros [H1 H2]. unfold build_fragment. rewrite slice_done by lia. rewrite drop_0, Nat.sub_0_r.
  assert (length (take ihl bytes) = ihl) as Hl by (rewrite length_take; lia).
  cbn [exec_bind].
  repeat (rewrite upd_done by (autorewrite with lens; lia); cbn [exec_bind]).
  rewrite slice_done by (autorewrite with lens; lia). cbn [exec_bind].
  repeat (rewrite upd_done by (autorewrite with lens; lia); cbn [exec_bind]).
  rewrite drop_0, Nat.sub_0_r, take_ge by (autorewrite with lens; lia).
  reflexivity.
Qed.

Lemma be16_set z : is_u16 z → from_be16 (as_u8 (Z.shiftr z 8)) (as_u8 z) = z.
Proof.
  intros Hz. unfold as_u8. rewrite Z.shiftr_div_pow2 by lia. by apply be16_roundtrip.
Qed.

Lemma set_checksum_bytes h k c : is_bytes h → is_bytes (set_checksum h k c).
Proof. intros. unfold set_checksum. auto with zdpi. Qed.

(** Filling in a checksum field that is zero makes the sum verify; [p] is
    what is summed beside the bytes (the TCP pseudo-header, 0 for IPv4). *)
Lemma checksum_field_verifies l k p :
  is_bytes l → Nat.Even k → (k + 1 < length l)%nat →
  l !! k = Some 0%Z → l !! S k = Some 0%Z →
  (0 ≤ p)%Z → (p + words_total l + 65535 < 2 ^ 32)%Z →
  finish_sum (sum_words (set_checksum l k (finish_sum (sum_words l p))) p) = 0%Z.
Proof.
  intros Hb He Hk H0 H1 Hp Hbd. pose proof (words_total_bounds l Hb) as [B1 B2].
  rewrite (sum_words_total l) by (done || lia).
  pose proof (finish_sum_range (p + words_total l) ltac:(lia)) as Hr.
  set (c := finish_sum (p + words_total l)) in *.
  assert (words_total (set_checksum l k c) = words_total l + c)%Z as Hw.
  { unfold set_checksum. rewrite (words_total_field l k 0 0) by done.
    rewrite be16_set by done. change (from_be16 0 0) with 0%Z. lia. }
  rewrite sum_words_total; [| |lia|].
  - rewrite Hw, Z.add_assoc. apply finish_sum_verifies; lia.
  - unfold set_checksum. auto with zdpi.
  - rewrite Hw. unfold is_u16 in Hr. lia.
Qed.

Lemma checksum_verifies h :
  is_bytes h → 12 ≤ length h ≤ 60 → h !! 10 = Some 0%Z → h !! 11 = Some 0%Z →
  ipv4_header_checksum (set_checksum h 10 (ipv4_header_checksum h)) = 0%Z.
Proof.
  intros Hb Hl H10 H11. pose proof (words_total_bounds h Hb).
  apply checksum_field_verifies; try done; try lia. by exists 5.
Qed.

Section one_fragment.
Context (bytes : list Z) (ihl plen : nat) (i0 i1 : Z) (offset : nat) (part : list Z).
Context (Hbytes : is_bytes bytes) (Hihl : 20 ≤ ihl ≤ length bytes) (Hmax : ihl ≤ 60).
Context (Hi0 : bytes !! 4 = Some i0) (Hi1 : bytes !! 5 = Some i1).
Let f := frag_bytes bytes ihl plen i0 i1 offset part.

Lemma frag_header0_bytes total fo :
  is_bytes (frag_header0 (take ihl bytes) total fo i0 i1).
Proof.
  pose proof (is_bytes_lookup _ _ _ Hbytes Hi0). pose proof (is_bytes_lookup _ _ _ Hbytes Hi1).
  unfold frag_header0. repeat apply is_bytes_insert; auto with zdpi; unfold is_u8; lia.
Qed.

Lemma length_frag_header0 total fo :
  length (frag_header0 (take ihl bytes) total fo i0 i1) = ihl.
Proof. unfold frag_header0. autorewrite with lens. lia. Qed.

(** The header bytes of the fragment, by position. *)
Lemma frag_lookup k :
  k < ihl →
  f !! k =
    if decide (k = 2) then Some (as_u8 (Z.shiftr (as_u16 (Z.of_nat (ihl + length part))) 8))
    else if decide (k = 3) then Some (as_u8 (as_u16 (Z.of_nat (ihl + length part))))
    else if decide (k = 6) then
      Some (as_u8 (Z.shiftr (frag_flags offset (plen <=? offset + length part)%nat) 8))
    else if decide (k = 7) then
      Some (as_u8 (frag_flags offset (plen <=? offset + length part)%nat))
    else if decide (k = 10 ∨ k = 11) then f !! k
    else bytes !! k.
Proof.
  intros Hk. destruct (decide (k = 10 ∨ k = 11)) as [[->| ->]|Hn]; [by repeat case_decide..|].
  unfold f, frag_bytes, set_checksum.
  rewrite lookup_app_l by (rewrite !length_insert, length_frag_header0; lia).
  unfold frag_header0.
  repeat case_decide; subst; lookup_ins; try done.
  destruct (decide (k = 5)) as [->|]; [by lookup_ins|].
  destruct (decide (k = 4)) as [->|]; [by lookup_ins|].
  lookup_ins. by apply lookup_take_lt.
Qed.

Lemma frag_header_verifies : ipv4_header_checksum (take ihl f) = 0%Z.
Proof.
  unfold f, frag_bytes. rewrite take_app_le
    by (unfold set_checksum; rewrite !length_insert, length_frag_header0; lia).
  rewrite take_ge by (unfold set_checksum; rewrite !length_insert, length_frag_header0; lia).
  apply checksum_verifies.
  - apply frag_header0_bytes.
  - rewrite length_frag_header0. lia.
  - unfold frag_header0. rewrite list_lookup_insert_ne by lia.
    rewrite list_lookup_insert_eq; [done|]. autorewrite with lens. lia.
  - unfold frag_header0. rewrite list_lookup_insert_eq; [done|]. autorewrite with lens. lia.
Qed.

Lemma frag_drop_header : drop ihl f = part.
Proof.
  unfold f, frag_bytes. rewrite drop_app_ge
    by (unfold set_checksum; rewrite !length_insert, length_frag_header0; lia).
  unfold set_checksum. by rewrite !length_insert, length_frag_header0, Nat.sub_diag, drop_0.
Qed.
End one_fragment.

(** ** The whole packet *)
Section packet.
Context (bytes : list Z) (ihl plen : nat) (i0 i1 : Z).

Fixpoint frags_from (offset : nat) (parts : list (list Z)) : list (list Z) :=
  match parts with
  | [] => []
  | p :: ps => frag_bytes bytes ihl plen i0 i1 offset p :: frags_from (offset + length p) ps
  end.

Lemma fragment_loop (H : 20 ≤ ihl ≤ length bytes) parts off acc :
  exec_fold (λ '(offset, fragments) part,
      let! frag := build_fragment bytes ihl plen i0 i1 offset part in
      Done (offset + length part, fragments ++ [frag])) parts (off, acc) =
  Done (off + length (concat parts), acc ++ frags_from off parts).
Proof.
  revert off acc; induction parts as [|p ps IH]; intros off acc; simpl.
  - by rewrite Nat.add_0_r, app_nil_r.
  - rewrite build_fragment_done by done. simpl. rewrite IH.
    rewrite length_app, Nat.add_assoc, <- app_assoc. done.
Qed.

Lemma length_frags_from off parts : length (frags_from off parts) = length parts.
Proof. revert off; induction parts; intros; simpl; auto. Qed.
End packet.

(** The fragmentation unit: all parts but the last have length [chunk]. *)
Fixpoint aligned (chunk : nat) (parts : list (list Z)) : Prop :=
  match parts with
  | [] => True
  | p :: ps => (ps ≠ [] → length p = chunk) ∧ 0 < length p ≤ chunk ∧ aligned chunk ps
  end.

Lemma chunks_aligned chunk l : 0 < chunk → aligned chunk (chunks chunk l).
Proof.
  intros Hc. apply (chunks_ind chunk Hc (λ _ cs, aligned chunk cs)); [done|].
  intros l' Hl IH. simpl. rewrite length_take.
  split; [|split; [destruct l'; [done|]; simpl; lia|done]].
  intros Hne. destruct (decide (length l' < chunk)); [|lia].
  exfalso. apply Hne. rewrite drop_ge by lia. done.
Qed.

Lemma aligned_take chunk k parts : aligned chunk parts → aligned chunk (take k parts).
Proof.
  revert k; induction parts as [|p ps IH]; intros [|k]; simpl; try done.
  intros (H1 & H2 & H3). split; [|split; [done|by apply IH]].
  intros Hne. apply H1. intros ->. by rewrite take_nil in Hne.
Qed.

Lemma aligned_drop chunk k parts : aligned chunk parts → aligned chunk (drop k parts).
Proof.
  revert k; induction parts as [|p ps IH]; intros [|k]; simpl; try done.
  intros (_ & _ & H3). by apply IH.
Qed.

Lemma frag_flags_offset off last :
  off mod 8 = 0 → (Z.of_nat off < 65536)%Z →
  Z.to_nat (Z.land (frag_flags off last) 0x1FFF) * 8 = off ∧
  Z.testbit (frag_flags off last) 13 = negb last ∧ is_u16 (frag_flags off last).
Proof.
  intros Hm Ho. unfold frag_flags.
  assert (0 ≤ Z.of_nat (off / 8) < 8192)%Z as Hb.
  { pose proof (Nat.div_mod_eq off 8). split; [lia|].
    lia. }
  rewrite as_u16_small by (unfold is_u16; lia).
  set (q := Z.of_nat (off / 8)) in *.
  assert (Z.land q 0x1FFF = q) as Hland.
  { change 0x1FFF%Z with (Z.ones 13). rewrite Z.land_ones by lia. apply Z.mod_small. lia. }
  assert (Z.testbit q 13 = false) as Hbit.
  { apply Z.bits_above_log2; [lia|]. destruct (decide (q = 0%Z)) as [->|]; [done|].
    apply Z.log2_lt_pow2; lia. }
  assert (Z.to_nat q * 8 = off) as Hq by (unfold q; pose proof (Nat.div_mod_eq off 8); lia).
  destruct last; cbn [negb].
  - rewrite Hland. split; [done|]. split; [done|]. unfold is_u16. lia.
  - rewrite Z.land_lor_distr_l, Hland. change (Z.land 0x2000 0x1FFF) with 0%Z.
    rewrite Z.lor_0_r, Z.lor_spec, Hbit. split; [done|]. split; [done|].
    change 0x2000%Z with (2 ^ 13)%Z.
    assert (Z.land q (2 ^ 13) = 0%Z) as Hz.
    { rewrite <- Hland, <- Z.land_assoc. change (Z.land 0x1FFF (2 ^ 13)) with 0%Z. apply Z.land_0_r. }
    assert (Z.lor q (2 ^ 13) = q + 2 ^ 13)%Z as ->.
    { symmetry. apply Z.add_nocarry_lxor in Hz as Hx. rewrite Hx. by apply Z.lxor_lor. }
    unfold is_u16. lia.
Qed.

(** What the property states of every emitted fragment: a verifying header
    that says its own length, the packet's identification, and at most
    [frag_size] bytes of payload. *)
Record fragment_ok (bytes : list Z) (frag_size : nat) (f : list Z) : Prop := {
  fo_ihl : frag_ihl f = frag_ihl bytes;
  fo_checksum : ipv4_header_checksum (take (frag_ihl f) f) = 0%Z;
  fo_total_len : frag_total_len f = Z.of_nat (length f);
  fo_ident : f !! 4 = bytes !! 4 ∧ f !! 5 = bytes !! 5;
  fo_body : 0 < length (frag_body f) ≤ frag_size;
}.

Section fragments.
Context (bytes : list Z) (Hbytes : is_bytes bytes).
Context (ihl : nat) (Hihl : ihl = frag_ihl bytes) (H20 : 20 ≤ ihl ≤ length bytes).
Context (i0 i1 : Z) (Hi0 : bytes !! 4 = Some i0) (Hi1 : bytes !! 5 = Some i1).
Context (chunk : nat) (Hchunk : 0 < chunk) (Hc8 : chunk mod 8 = 0).

Lemma ihl_max : ihl ≤ 60.
Proof. rewrite Hihl. apply frag_ihl_max. Qed.

Section one.
Context (plen offset : nat) (part : list Z).
Let f := frag_bytes bytes ihl plen i0 i1 offset part.
Let last := (plen <=? offset + length part)%nat.
Context (Hpart : (Z.of_nat (ihl + offset + length part) ≤ 65535)%Z) (Hoff : offset mod 8 = 0).

Let lookup_f k (Hk : k < ihl) :=
  frag_lookup bytes ihl plen i0 i1 offset part H20 ihl_max Hi0 Hi1 k Hk.

Lemma frag_bytes_ihl : frag_ihl f = ihl.
Proof.
  rewrite Hihl. unfold frag_ihl. f_equal. f_equal. f_equal.
  rewrite !list_lookup_total_alt. f_equal. unfold f. rewrite lookup_f by lia. done.
Qed.

Lemma length_frag_bytes : length f = ihl + length part.
Proof.
  unfold f, frag_bytes, set_checksum.
  rewrite length_app, !length_insert, length_frag_header0; auto using ihl_max.
Qed.

Lemma frag_bytes_flags : from_be16 (f !!! 6) (f !!! 7) = frag_flags offset last.
Proof.
  rewrite !list_lookup_total_alt. unfold f.
  rewrite (lookup_f 6), (lookup_f 7) by lia. simpl.
  destruct (frag_flags_offset offset last) as (_ & _ & Hr); [done|lia|]. by apply be16_set.
Qed.

Lemma frag_bytes_offset : frag_offset f = offset.
Proof.
  destruct (frag_flags_offset offset last) as (Ho & _ & _); [done|lia|].
  unfold frag_offset. by rewrite frag_bytes_flags.
Qed.

Lemma frag_bytes_more : frag_more f = negb last.
Proof.
  destruct (frag_flags_offset offset last) as (_ & Hb & _); [done|lia|].
  unfold frag_more. by rewrite frag_bytes_flags.
Qed.

Lemma frag_bytes_body : frag_body f = part.
Proof. unfold frag_body. rewrite frag_bytes_ihl. apply frag_drop_header; auto using ihl_max. Qed.

Lemma frag_bytes_ok n : 0 < length part ≤ n → fragment_ok bytes n f.
Proof.
  intros Hn. pose proof ihl_max. constructor.
  - rewrite frag_bytes_ihl. done.
  - rewrite frag_bytes_ihl. apply frag_header_verifies; auto; lia.
  - unfold frag_total_len. rewrite !list_lookup_total_alt. unfold f.
    rewrite (lookup_f 2), (lookup_f 3) by lia. simpl. fold f. rewrite length_frag_bytes.
    rewrite be16_set by auto with zdpi. apply as_u16_small. unfold is_u16. lia.
  - unfold f. by rewrite (lookup_f 4), (lookup_f 5) by lia.
  - by rewrite frag_bytes_body.
Qed.
End one.

Lemma frags_from_spec plen parts off m :
  off mod 8 = 0 → aligned chunk parts →
  plen = off + length (concat parts) → (Z.of_nat (ihl + plen) ≤ 65535)%Z →
  let frags := frags_from bytes ihl plen i0 i1 off parts in
  Forall (fragment_ok bytes chunk) frags ∧
  (∀ i f, frags !! i = Some f → frag_more f = negb (S i =? length frags)%nat) ∧
  ∀ i, foldl (λ m f, place m (frag_offset f) (frag_body f)) m frags !! i =
    if decide (off ≤ i < plen) then concat parts !! (i - off) else m !! i.
Proof.
  intros Hoff Hal Hplen Hmax. revert off m Hoff Hal Hplen.
  induction parts as [|p ps IH]; intros off m Hoff Hal Hplen;
    cbn [aligned concat frags_from foldl length] in *.
  - repeat split; [done..|]. intros i. case_decide; [lia|done].
  - destruct Hal as (Hlast & Hp & Hal). rewrite length_app in Hplen.
    assert (ps ≠ [] → (off + length p) mod 8 = 0) as Hoff'.
    { intros Hne. rewrite (Hlast Hne). by rewrite Nat.Div0.add_mod, Hoff, Hc8. }
    destruct (decide (ps = [])) as [->|Hne].
    + cbn [concat frags_from foldl length] in *. repeat split.
      * constructor; [|constructor]. apply frag_bytes_ok; lia.
      * intros [|i] f; simpl; [intros [= <-]|done]. rewrite frag_bytes_more by lia.
        rewrite (proj2 (Nat.leb_le _ _)) by lia. done.
      * intros i. rewrite frag_bytes_offset, frag_bytes_body by lia.
        rewrite lookup_place, app_nil_r. repeat case_decide; lia || done.
    + destruct (IH (off + length p) (place m off p) (Hoff' Hne) Hal ltac:(lia)) as (I1 & I2 & I3).
      repeat split.
      * constructor; [|done]. apply frag_bytes_ok; lia.
      * intros [|i] f; simpl; [intros [= <-]|intros Hf].
        -- rewrite frag_bytes_more by lia. rewrite length_frags_from.
           assert (0 < length (concat ps)) as Hpos.
           { destruct ps as [|q qs]; [done|]. simpl in *. rewrite length_app. lia. }
           rewrite (proj2 (Nat.leb_gt _ _)) by lia. destruct ps; [done|]. done.
        -- rewrite (I2 i f Hf). done.
      * intros i. rewrite frag_bytes_offset, frag_bytes_body by lia. rewrite I3.
        rewrite lookup_place. repeat case_decide; try lia; try done.
        -- rewrite lookup_app_r by lia. f_equal. lia.
        -- by rewrite lookup_app_l by lia.
Qed.
End fragments.

(** ** The packet-level theorems *)

(** The condition under which the code splits: a complete header, a fragment
    size of at least one 8-byte unit, and more payload than one fragment
    holds. *)
Definition splits (bytes : list Z) (frag_size : nat) : bool :=
  match bytes with
  | [] => false
  | _ => (20 <=? frag_ihl bytes) && (frag_ihl bytes <=? length bytes) &&
         (8 <=? frag_size) &&
         (round_down8 frag_size <? length bytes - frag_ihl bytes)
  end.

Lemma fragment_ipv4_packet_eq bytes n :
  fragment_ipv4_packet bytes n =
  if splits bytes n then
    Done (frags_from bytes (frag_ihl bytes) (length bytes - frag_ihl bytes)
      (bytes !!! 4) (bytes !!! 5) 0 (chunks (round_down8 n) (drop (frag_ihl bytes) bytes)))
  else Done [bytes].
Proof.
  destruct bytes as [|first rest] eqn:E; [done|].
  unfold fragment_ipv4_packet, splits. cbn [head].
  replace (Z.to_nat (Z.land first 15) * 4) with (frag_ihl (first :: rest)) by done.
  set (ihl := frag_ihl (first :: rest)). rewrite <- E in *.
  assert ((ihl <? 20) = negb (20 <=? ihl)) as -> by apply Nat.ltb_antisym.
  assert ((length bytes <? ihl) = negb (ihl <=? length bytes)) as -> by apply Nat.ltb_antisym.
  destruct (20 <=? ihl) eqn:E1; cbn [negb orb andb]; [|done].
  destruct (ihl <=? length bytes) eqn:E2; cbn [negb orb andb]; [|done]. bool_to_prop.
  pose proof (round_down8_spec n) as Hr. pose proof (Nat.div_mod_eq n 8).
  pose proof (Nat.mod_upper_bound n 8).
  destruct (round_down8 n =? 0) eqn:E3, (8 <=? n) eqn:E4; bool_to_prop; cbn [andb]; try done;
    try (exfalso; rewrite Hr in E3; destruct (n / 8); lia).
  rewrite slice_done by lia. cbn [exec_bind].
  assert (length (take (length bytes - ihl) (drop ihl bytes)) = length bytes - ihl) as Hlp
    by (rewrite length_take, length_drop; lia).
  rewrite Hlp.
  rewrite take_ge by (rewrite length_drop; lia).
  rewrite Nat.ltb_antisym.
  destruct (length bytes - ihl <=? round_down8 n); cbn [negb]; [done|].
  destruct (idx_done bytes 4 ltac:(lia)) as (i0 & -> & H4).
  destruct (idx_done bytes 5 ltac:(lia)) as (i1 & -> & H5). cbn [exec_bind].
  rewrite fragment_loop by lia. cbn [exec_bind snd app].
  by rewrite !list_lookup_total_alt, H4, H5.
Qed.

(** What splitting a packet yields. *)
Lemma fragments_lossless bytes n :
  is_bytes bytes → (Z.of_nat (length bytes) ≤ 65535)%Z → splits bytes n = true →
  ∃ frags, fragment_ipv4_packet bytes n = Done frags ∧
    2 ≤ length frags ∧
    Forall (fragment_ok bytes n) frags ∧
    (∀ i f, frags !! i = Some f → frag_more f = negb (S i =? length frags)) ∧
    holds (ip_reassemble frags) (drop (frag_ihl bytes) bytes).
Proof.
  intros Hb Hlen Hs. rewrite fragment_ipv4_packet_eq, Hs. eexists; split; [done|].
  assert (20 ≤ frag_ihl bytes ≤ length bytes ∧ 8 ≤ n ∧
    round_down8 n < length bytes - frag_ihl bytes) as (Hihl & Hn & Hsz).
  { unfold splits in Hs. destruct bytes; [done|]. bool_to_prop. lia. }
  pose proof (round_down8_spec n) as Hr. pose proof (Nat.div_mod_eq n 8).
  assert (0 < round_down8 n ≤ n) as Hc by (rewrite Hr; pose proof (Nat.div_le_lower_bound n 8 1); lia).
  assert (round_down8 n mod 8 = 0) as Hc8
    by (rewrite Hr, Nat.mul_comm; apply Nat.Div0.mod_mul).
  set (parts := chunks (round_down8 n) (drop (frag_ihl bytes) bytes)).
  assert (concat parts = drop (frag_ihl bytes) bytes) as Hcat by (apply concat_chunks; lia).
  destruct (lookup_lt_is_Some_2 bytes 4) as [i0 H4]; [lia|].
  destruct (lookup_lt_is_Some_2 bytes 5) as [i1 H5]; [lia|].
  assert (bytes !!! 4 = i0) as -> by (by rewrite list_lookup_total_alt, H4).
  assert (bytes !!! 5 = i1) as -> by (by rewrite list_lookup_total_alt, H5).
  destruct (frags_from_spec bytes Hb (frag_ihl bytes) eq_refl Hihl i0 i1 H4 H5
    (round_down8 n) ltac:(lia) Hc8 (length bytes - frag_ihl bytes) parts 0 ∅)
    as (I1 & I2 & I3); try done.
  - by apply chunks_aligned; lia.
  - by rewrite Hcat, length_drop.
  - lia.
  - split; [|split; [|split; [done|]]].
    + rewrite length_frags_from. unfold parts.
      rewrite length_chunks, length_drop by lia.
      pose proof (div_ceil_bounds (length bytes - frag_ihl bytes) (round_down8 n) ltac:(lia)). nia.
    + eapply Forall_impl; [exact I1|]. intros f []; constructor; auto; lia.
    + intros i. unfold ip_reassemble. rewrite I3, Hcat, Nat.sub_0_r.
      case_decide as Hd; [done|].
      rewrite lookup_ge_None_2 by (rewrite length_drop; lia). done.
Qed.

(** (C1) IPv4 fragmentation is total and lossless.  For every packet of at
    most 65535 bytes and every fragment size, [fragment_ipv4_packet] does not
    panic.  When the packet cannot or need not be split it is returned as it
    is; otherwise at least two fragments are returned, each with the packet's
    header length and identification, a total length that is its length, a
    header checksum that verifies and at most [frag_size] payload bytes; the
    MF flag is set on every fragment but the last; and a receiver that places
    each fragment's body at its offset holds exactly the packet's payload. *)
Theorem fragment_ipv4_packet_lossless bytes n :
  is_bytes bytes → (Z.of_nat (length bytes) ≤ 65535)%Z →
  ∃ frags, fragment_ipv4_packet bytes n = Done frags ∧
    if splits bytes n then
      2 ≤ length frags ∧
      Forall (fragment_ok bytes n) frags ∧
      (∀ i f, frags !! i = Some f → frag_more f = negb (S i =? length frags)) ∧
      holds (ip_reassemble frags) (drop (frag_ihl bytes) bytes)
    else frags = [bytes].
Proof.
  intros Hb Hlen. destruct (splits bytes n) eqn:Hs; [by apply fragments_lossless|].
  rewrite fragment_ipv4_packet_eq, Hs. eauto.
Qed.

(** A 20-byte header and 20 bytes of payload, split at 8 bytes. *)
Definition sample_packet : list Z :=
  [0x45; 0; 0; 40; 0xAB; 0xCD; 0x40; 0; 64; 6; 0; 0; 10; 0; 0; 1; 10; 0; 0; 2;
   1; 2; 3; 4; 5; 6; 7; 8; 9; 10; 11; 12; 13; 14; 15; 16; 17; 18; 19; 20]%Z.

Lemma fragment_ipv4_packet_lossless_witness :
  splits sample_packet 8 = true ∧
  ∃ frags, fragment_ipv4_packet sample_packet 8 = Done frags ∧
    if splits sample_packet 8 then
      2 ≤ length frags ∧
      Forall (fragment_ok sample_packet 8) frags ∧
      (∀ i f, frags !! i = Some f → frag_more f = negb (S i =? length frags)) ∧
      holds (ip_reassemble frags) (drop (frag_ihl sample_packet) sample_packet)
    else frags = [sample_packet].
Proof.
  split; [vm_compute; reflexivity|].
  apply (fragment_ipv4_packet_lossless sample_packet 8).
  - apply is_bytesb_spec. reflexivity.
  - vm_compute. discriminate.
Defined.
