(* ===== verification/Interceptor.v ===== *)
(** * The interception interface

    Model of [crates/zerodpi-core/src/interceptor.rs]: packet directions and
    flags, the [PacketView] a backend hands to the handler with its staged
    mutations, the staged emission requests ([DecoyPacket], [DisorderSpec],
    [OverlapFake]), verdicts and the backend filter description.  IPv4
    addresses and 32-bit fields are [Z]; [usize] lengths are [nat]; borrowed
    and owned byte buffers are [list Z]. *)
From stdpp Require Import base list numbers strings.
From Stdlib Require Import ZArith Lia.
From S2P Require Import Prelude.

(** ** Data *)
Inductive Direction := Outbound | Inbound.
#[export] Instance Direction_eq_dec : EqDecision Direction.
Proof. solve_decision. Defined.

Record TcpFlags := MkTcpFlags {
  f_syn : bool; f_ack : bool; f_psh : bool; f_rst : bool; f_fin : bool; f_urg : bool }.
#[export] Instance TcpFlags_eq_dec : EqDecision TcpFlags.
Proof. solve_decision. Defined.

Record OverlapFake := MkOverlapFake {
  of_bytes : nat;
  of_pattern : option (list Z);
  of_seed : Z }.

(** The [while out.len() < self.bytes] loop: [bytes] iterations are enough,
    each pushing at least one byte ([length_overlap_loop]). *)
Fixpoint overlap_loop (fuel bytes : nat) (state : Z) (out : list Z) : list Z :=
  match fuel with
  | O => out
  | S fuel' =>
      if (length out <? bytes)%nat then
        let '(state, z) := splitmix64 state in
        let n := Nat.min (bytes - length out) 8 in
        overlap_loop fuel' bytes state (out ++ take n (le_bytes 8 z))
      else out
  end.

Definition materialize (o : OverlapFake) : list Z :=
  match o.(of_pattern) with
  | Some pattern => resize_vec pattern o.(of_bytes) 0%Z
  | None => overlap_loop o.(of_bytes) o.(of_bytes) o.(of_seed) []
  end.

Record DecoyPacket := MkDecoyPacket {
  dp_seq : Z;
  dp_payload : list Z;
  dp_flags : TcpFlags;
  dp_bump_ipv4_ident : bool;
  dp_repeats : nat;
  dp_delay_ms : Z }.

Record DisorderSpec := MkDisorderSpec {
  ds_segments : nat;
  ds_reverse : bool;
  ds_delay_ms : Z;
  ds_overlap : option OverlapFake }.

Record PacketView := MkPacketView {
  pv_direction : Direction;
  pv_src_ip : Z;
  pv_dst_ip : Z;
  pv_src_port : Z;
  pv_dst_port : Z;
  pv_seq : Z;
  pv_ack : Z;
  pv_flags : TcpFlags;
  pv_payload_len : nat;
  pv_payload : list Z;
  pv_tcp_options : list Z;
  pv_new_seq : option Z;
  pv_new_ack : option Z;
  pv_new_flags : option TcpFlags;
  pv_new_urgent_pointer : option Z;
  pv_new_payload : option (list Z);
  pv_replace_tcp_options : option (list Z);
  pv_append_tcp_options : list Z;
  pv_bump_ipv4_ident : bool;
  pv_corrupt_tcp_checksum_delta : option Z;
  pv_emit_original_after : bool;
  pv_decoy : option DecoyPacket;
  pv_ip_frag_payload_size : option nat;
  pv_disorder_spec : option DisorderSpec;
  pv_new_ipv4_ttl : option Z;
}.

(** Assignments to the staged fields ([pkt.new_seq = ..] and so on). *)
Definition set_new_seq (v : option Z) (p : PacketView) : PacketView :=
  MkPacketView
    p.(pv_direction) p.(pv_src_ip) p.(pv_dst_ip) p.(pv_src_port) p.(pv_dst_port) p.(pv_seq)
    p.(pv_ack) p.(pv_flags) p.(pv_payload_len) p.(pv_payload) p.(pv_tcp_options) v
    p.(pv_new_ack) p.(pv_new_flags) p.(pv_new_urgent_pointer) p.(pv_new_payload)
    p.(pv_replace_tcp_options) p.(pv_append_tcp_options) p.(pv_bump_ipv4_ident)
    p.(pv_corrupt_tcp_checksum_delta) p.(pv_emit_original_after) p.(pv_decoy)
    p.(pv_ip_frag_payload_size) p.(pv_disorder_spec) p.(pv_new_ipv4_ttl).
Definition set_new_ack (v : option Z) (p : PacketView) : PacketView :=
  MkPacketView
    p.(pv_direction) p.(pv_src_ip) p.(pv_dst_ip) p.(pv_src_port) p.(pv_dst_port) p.(pv_seq)
    p.(pv_ack) p.(pv_flags) p.(pv_payload_len) p.(pv_payload) p.(pv_tcp_options) p.(pv_new_seq)
    v p.(pv_new_flags) p.(pv_new_urgent_pointer) p.(pv_new_payload) p.(pv_replace_tcp_options)
    p.(pv_append_tcp_options) p.(pv_bump_ipv4_ident) p.(pv_corrupt_tcp_checksum_delta)
    p.(pv_emit_original_after) p.(pv_decoy) p.(pv_ip_frag_payload_size) p.(pv_disorder_spec)
    p.(pv_new_ipv4_ttl).
Definition set_new_flags (v : option TcpFlags) (p : PacketView) : PacketView :=
  MkPacketView
    p.(pv_direction) p.(pv_src_ip) p.(pv_dst_ip) p.(pv_src_port) p.(pv_dst_port) p.(pv_seq)
    p.(pv_ack) p.(pv_flags) p.(pv_payload_len) p.(pv_payload) p.(pv_tcp_options) p.(pv_new_seq)
    p.(pv_new_ack) v p.(pv_new_urgent_pointer) p.(pv_new_payload) p.(pv_replace_tcp_options)
    p.(pv_append_tcp_options) p.(pv_bump_ipv4_ident) p.(pv_corrupt_tcp_checksum_delta)
    p.(pv_emit_original_after) p.(pv_decoy) p.(pv_ip_frag_payload_size) p.(pv_disorder_spec)
    p.(pv_new_ipv4_ttl).
Definition set_new_urgent_pointer (v : option Z) (p : PacketView) : PacketView :=
  MkPacketView
    p.(pv_direction) p.(pv_src_ip) p.(pv_dst_ip) p.(pv_src_port) p.(pv_dst_port) p.(pv_seq)
    p.(pv_ack) p.(pv_flags) p.(pv_payload_len) p.(pv_payload) p.(pv_tcp_options) p.(pv_new_seq)
    p.(pv_new_ack) p.(pv_new_flags) v p.(pv_new_payload) p.(pv_replace_tcp_options)
    p.(pv_append_tcp_options) p.(pv_bump_ipv4_ident) p.(pv_corrupt_tcp_checksum_delta)
    p.(pv_emit_original_after) p.(pv_decoy) p.(pv_ip_frag_payload_size) p.(pv_disorder_spec)
    p.(pv_new_ipv4_ttl).
Definition set_new_payload (v : option (list Z)) (p : PacketView) : PacketView :=
  MkPacketView
    p.(pv_direction) p.(pv_src_ip) p.(pv_dst_ip) p.(pv_src_port) p.(pv_dst_port) p.(pv_seq)
    p.(pv_ack) p.(pv_flags) p.(pv_payload_len) p.(pv_payload) p.(pv_tcp_options) p.(pv_new_seq)
    p.(pv_new_ack) p.(pv_new_flags) p.(pv_new_urgent_pointer) v p.(pv_replace_tcp_options)
    p.(pv_append_tcp_options) p.(pv_bump_ipv4_ident) p.(pv_corrupt_tcp_checksum_delta)
    p.(pv_emit_original_after) p.(pv_decoy) p.(pv_ip_frag_payload_size) p.(pv_disorder_spec)
    p.(pv_new_ipv4_ttl).
Definition set_replace_tcp_options (v : option (list Z)) (p : PacketView) : PacketView :=
  MkPacketView
    p.(pv_direction) p.(pv_src_ip) p.(pv_dst_ip) p.(pv_src_port) p.(pv_dst_port) p.(pv_seq)
    p.(pv_ack) p.(pv_flags) p.(pv_payload_len) p.(pv_payload) p.(pv_tcp_options) p.(pv_new_seq)
    p.(pv_new_ack) p.(pv_new_flags) p.(pv_new_urgent_pointer) p.(pv_new_payload) v
    p.(pv_append_tcp_options) p.(pv_bump_ipv4_ident) p.(pv_corrupt_tcp_checksum_delta)
    p.(pv_emit_original_after) p.(pv_decoy) p.(pv_ip_frag_payload_size) p.(pv_disorder_spec)
    p.(pv_new_ipv4_ttl).
Definition set_append_tcp_options (v : list Z) (p : PacketView) : PacketView :=
  MkPacketView
    p.(pv_direction) p.(pv_src_ip) p.(pv_dst_ip) p.(pv_src_port) p.(pv_dst_port) p.(pv_seq)
    p.(pv_ack) p.(pv_flags) p.(pv_payload_len) p.(pv_payload) p.(pv_tcp_options) p.(pv_new_seq)
    p.(pv_new_ack) p.(pv_new_flags) p.(pv_new_urgent_pointer) p.(pv_new_payload)
    p.(pv_replace_tcp_options) v p.(pv_bump_ipv4_ident) p.(pv_corrupt_tcp_checksum_delta)
    p.(pv_emit_original_after) p.(pv_decoy) p.(pv_ip_frag_payload_size) p.(pv_disorder_spec)
    p.(pv_new_ipv4_ttl).
Definition set_bump_ipv4_ident (v : bool) (p : PacketView) : PacketView :=
  MkPacketView
    p.(pv_direction) p.(pv_src_ip) p.(pv_dst_ip) p.(pv_src_port) p.(pv_dst_port) p.(pv_seq)
    p.(pv_ack) p.(pv_flags) p.(pv_payload_len) p.(pv_payload) p.(pv_tcp_options) p.(pv_new_seq)
    p.(pv_new_ack) p.(pv_new_flags) p.(pv_new_urgent_pointer) p.(pv_new_payload)
    p.(pv_replace_tcp_options) p.(pv_append_tcp_options) v p.(pv_corrupt_tcp_checksum_delta)
    p.(pv_emit_original_after) p.(pv_decoy) p.(pv_ip_frag_payload_size) p.(pv_disorder_spec)
    p.(pv_new_ipv4_ttl).
Definition set_corrupt_tcp_checksum_delta (v : option Z) (p : PacketView) : PacketView :=
  MkPacketView
    p.(pv_direction) p.(pv_src_ip) p.(pv_dst_ip) p.(pv_src_port) p.(pv_dst_port) p.(pv_seq)
    p.(pv_ack) p.(pv_flags) p.(pv_payload_len) p.(pv_payload) p.(pv_tcp_options) p.(pv_new_seq)
    p.(pv_new_ack) p.(pv_new_flags) p.(pv_new_urgent_pointer) p.(pv_new_payload)
    p.(pv_replace_tcp_options) p.(pv_append_tcp_options) p.(pv_bump_ipv4_ident) v
    p.(pv_emit_original_after) p.(pv_decoy) p.(pv_ip_frag_payload_size) p.(pv_disorder_spec)
    p.(pv_new_ipv4_ttl).
Definition set_emit_original_after (v : bool) (p : PacketView) : PacketView :=
  MkPacketView
    p.(pv_direction) p.(pv_src_ip) p.(pv_dst_ip) p.(pv_src_port) p.(pv_dst_port) p.(pv_seq)
    p.(pv_ack) p.(pv_flags) p.(pv_payload_len) p.(pv_payload) p.(pv_tcp_options) p.(pv_new_seq)
    p.(pv_new_ack) p.(pv_new_flags) p.(pv_new_urgent_pointer) p.(pv_new_payload)
    p.(pv_replace_tcp_options) p.(pv_append_tcp_options) p.(pv_bump_ipv4_ident)
    p.(pv_corrupt_tcp_checksum_delta) v p.(pv_decoy) p.(pv_ip_frag_payload_size)
    p.(pv_disorder_spec) p.(pv_new_ipv4_ttl).
Definition set_decoy (v : option DecoyPacket) (p : PacketView) : PacketView :=
  MkPacketView
    p.(pv_direction) p.(pv_src_ip) p.(pv_dst_ip) p.(pv_src_port) p.(pv_dst_port) p.(pv_seq)
    p.(pv_ack) p.(pv_flags) p.(pv_payload_len) p.(pv_payload) p.(pv_tcp_options) p.(pv_new_seq)
    p.(pv_new_ack) p.(pv_new_flags) p.(pv_new_urgent_pointer) p.(pv_new_payload)
    p.(pv_replace_tcp_options) p.(pv_append_tcp_options) p.(pv_bump_ipv4_ident)
    p.(pv_corrupt_tcp_checksum_delta) p.(pv_emit_original_after) v p.(pv_ip_frag_payload_size)
    p.(pv_disorder_spec) p.(pv_new_ipv4_ttl).
Definition set_ip_frag_payload_size (v : option nat) (p : PacketView) : PacketView :=
  MkPacketView
    p.(pv_direction) p.(pv_src_ip) p.(pv_dst_ip) p.(pv_src_port) p.(pv_dst_port) p.(pv_seq)
    p.(pv_ack) p.(pv_flags) p.(pv_payload_len) p.(pv_payload) p.(pv_tcp_options) p.(pv_new_seq)
    p.(pv_new_ack) p.(pv_new_flags) p.(pv_new_urgent_pointer) p.(pv_new_payload)
    p.(pv_replace_tcp_options) p.(pv_append_tcp_options) p.(pv_bump_ipv4_ident)
    p.(pv_corrupt_tcp_checksum_delta) p.(pv_emit_original_after) p.(pv_decoy) v
    p.(pv_disorder_spec) p.(pv_new_ipv4_ttl).
Definition set_disorder_spec (v : option DisorderSpec) (p : PacketView) : PacketView :=
  MkPacketView
    p.(pv_direction) p.(pv_src_ip) p.(pv_dst_ip) p.(pv_src_port) p.(pv_dst_port) p.(pv_seq)
    p.(pv_ack) p.(pv_flags) p.(pv_payload_len) p.(pv_payload) p.(pv_tcp_options) p.(pv_new_seq)
    p.(pv_new_ack) p.(pv_new_flags) p.(pv_new_urgent_pointer) p.(pv_new_payload)
    p.(pv_replace_tcp_options) p.(pv_append_tcp_options) p.(pv_bump_ipv4_ident)
    p.(pv_corrupt_tcp_checksum_delta) p.(pv_emit_original_after) p.(pv_decoy)
    p.(pv_ip_frag_payload_size) v p.(pv_new_ipv4_ttl).
Definition set_new_ipv4_ttl (v : option Z) (p : PacketView) : PacketView :=
  MkPacketView
    p.(pv_direction) p.(pv_src_ip) p.(pv_dst_ip) p.(pv_src_port) p.(pv_dst_port) p.(pv_seq)
    p.(pv_ack) p.(pv_flags) p.(pv_payload_len) p.(pv_payload) p.(pv_tcp_options) p.(pv_new_seq)
    p.(pv_new_ack) p.(pv_new_flags) p.(pv_new_urgent_pointer) p.(pv_new_payload)
    p.(pv_replace_tcp_options) p.(pv_append_tcp_options) p.(pv_bump_ipv4_ident)
    p.(pv_corrupt_tcp_checksum_delta) p.(pv_emit_original_after) p.(pv_decoy)
    p.(pv_ip_frag_payload_size) p.(pv_disorder_spec) v.

(** ** Operations *)
Definition decoy_view (p : PacketView) (d : DecoyPacket) : PacketView :=
  MkPacketView
    p.(pv_direction) p.(pv_src_ip) p.(pv_dst_ip) p.(pv_src_port) p.(pv_dst_port) p.(pv_seq)
    p.(pv_ack) p.(pv_flags) p.(pv_payload_len) p.(pv_payload) p.(pv_tcp_options) (Some
    d.(dp_seq)) None (Some d.(dp_flags)) None (Some d.(dp_payload)) None []
    d.(dp_bump_ipv4_ident) None false None None None None.

Definition is_bare_ack (p : PacketView) : bool :=
  p.(pv_flags).(f_ack) && negb p.(pv_flags).(f_syn) && negb p.(pv_flags).(f_rst) &&
  negb p.(pv_flags).(f_fin) && (p.(pv_payload_len) =? 0).

Definition is_syn_ack (p : PacketView) : bool :=
  p.(pv_flags).(f_syn) && p.(pv_flags).(f_ack) && negb p.(pv_flags).(f_rst) &&
  negb p.(pv_flags).(f_fin) && (p.(pv_payload_len) =? 0).

Definition is_bare_syn (p : PacketView) : bool :=
  p.(pv_flags).(f_syn) && negb p.(pv_flags).(f_ack) && negb p.(pv_flags).(f_rst) &&
  negb p.(pv_flags).(f_fin) && (p.(pv_payload_len) =? 0).

Inductive Verdict := Accept | AcceptModified | Drop_.
#[export] Instance Verdict_eq_dec : EqDecision Verdict.
Proof. solve_decision. Defined.

Inductive LinuxFirewallBackend := Iptables | Nftables.
#[export] Instance LinuxFirewallBackend_eq_dec : EqDecision LinuxFirewallBackend.
Proof. solve_decision. Defined.

Definition firewall_parse (value : string) : option LinuxFirewallBackend :=
  if String.eqb value "iptables" then Some Iptables
  else if String.eqb value "nftables" then Some Nftables
  else None.

Definition firewall_as_str (b : LinuxFirewallBackend) : string :=
  match b with Iptables => "iptables" | Nftables => "nftables" end.

Record FilterSpec := MkFilterSpec {
  fs_interface_ip : Z;
  fs_remote_ip : option Z;
  fs_remote_port : Z;
  fs_queue_num : Z;
  fs_linux_firewall_backend : LinuxFirewallBackend;
  fs_firewall_owner : option string }.

(** ** Lemmas *)
Lemma length_overlap_loop fuel bytes state out :
  length out ≤ bytes → bytes - length out ≤ fuel →
  length (overlap_loop fuel bytes state out) = bytes.
Proof.
  revert state out; induction fuel as [|fuel IH]; intros state out H1 H2; simpl; [lia|].
  destruct (length out <? bytes) eqn:E; bool_to_prop; [|lia].
  apply IH; rewrite length_app, length_take; simpl; lia.
Qed.

(** The overlap prefix has exactly the requested length. *)
Lemma length_materialize o : length (materialize o) = o.(of_bytes).
Proof.
  unfold materialize. destruct (of_pattern o).
  - apply resize_vec_length.
  - apply length_overlap_loop; simpl; lia.
Qed.

Lemma overlap_loop_bytes fuel bytes state out :
  is_bytes out → is_bytes (overlap_loop fuel bytes state out).
Proof.
  revert state out; induction fuel as [|fuel IH]; intros state out H; simpl; [done|].
  destruct (_ <? _); [|done]. apply IH. apply is_bytes_app. split; [done|].
  apply is_bytes_take. apply (le_bytes_bytes 8).
Qed.

Lemma materialize_bytes o : from_option is_bytes True o.(of_pattern) → is_bytes (materialize o).
Proof.
  unfold materialize. destruct (of_pattern o) as [l|]; simpl; intros H.
  - unfold resize_vec. destruct (_ <? _); auto with zdpi.
    apply is_bytes_app; auto with zdpi.
  - by apply overlap_loop_bytes, Forall_nil.
Qed.

Lemma firewall_parse_as_str b : firewall_parse (firewall_as_str b) = Some b.
Proof. by destruct b. Qed.
#[export] Hint Resolve materialize_bytes : zdpi.
#[export] Hint Rewrite length_materialize : lens.
