(* ===== verification/TcpSegment.v ===== *)
(** * Out-of-order TCP segmentation

    Model of [crates/zerodpi-core/src/tcp_segment.rs]: [split_tcp_payload] and
    [tcp_checksum], with the theorem that a receiver rebuilds the original
    payload from the emitted segments, in both emission orders and with an
    overlap prefix. *)
From stdpp Require Import base list numbers gmap.
From Stdlib Require Import ZArith Lia.
From S2P Require Import Prelude IpFragment Interceptor.

(** ** Definitions *)

(** The pseudo-header part of the sum. *)
Definition pseudo_sum (seg : list Z) (tcp_len : Z) : exec Z :=
  let! b12 := idx seg 12 in let! b13 := idx seg 13 in
  let sum := wadd32 0 (from_be16 b12 b13) in
  let! b14 := idx seg 14 in let! b15 := idx seg 15 in
  let sum := wadd32 sum (from_be16 b14 b15) in
  let! b16 := idx seg 16 in let! b17 := idx seg 17 in
  let sum := wadd32 sum (from_be16 b16 b17) in
  let! b18 := idx seg 18 in let! b19 := idx seg 19 in
  let sum := wadd32 sum (from_be16 b18 b19) in
  Done (wadd32 (wadd32 sum 6) tcp_len).

Definition tcp_checksum (seg : list Z) (ihl tcp_hdr_len : nat) : exec Z :=
  let tcp_len := as_u16 (Z.of_nat (tcp_hdr_len + (length seg - (ihl + tcp_hdr_len)))) in
  let! sum := pseudo_sum seg tcp_len in
  let! body := slice seg ihl (length seg) in
  Done (finish_sum (sum_words body sum)).

(** [flags_byte & !0x08] on a [u8]. *)
Definition clear_psh (b : Z) : Z := Z.land b 0xF7.

(** One iteration of the segment loop. *)
Definition build_segment (bytes : list Z) (ihl tcp_hdr_len payload_len : nat) (orig_seq : Z)
    (offset : nat) (prefix part : list Z) : exec (list Z) :=
  let payload_off := ihl + tcp_hdr_len in
  let! hdr := slice bytes 0 payload_off in
  let seg := hdr ++ prefix ++ part in
  let total := as_u16 (Z.of_nat (payload_off + length prefix + length part)) in
  let! seg := upd seg 2 (as_u8 (Z.shiftr total 8)) in
  let! seg := upd seg 3 (as_u8 total) in
  let seq := wsub32 (wadd32 orig_seq (as_u32 (Z.of_nat offset)))
                    (as_u32 (Z.of_nat (length prefix))) in
  let! seg := blit seg (ihl + 4) (ihl + 8) (to_be32 seq) in
  let ends_payload := offset + length part =? payload_len in
  let! flags_byte := idx bytes (ihl + 13) in
  let! seg := upd seg (ihl + 13) (if ends_payload then flags_byte else clear_psh flags_byte) in
  let! seg := upd seg 10 0%Z in
  let! seg := upd seg 11 0%Z in
  let! iphdr := slice seg 0 ihl in
  let ip_csum := ipv4_header_checksum iphdr in
  let! seg := upd seg 10 (as_u8 (Z.shiftr ip_csum 8)) in
  let! seg := upd seg 11 (as_u8 ip_csum) in
  let! seg := upd seg (ihl + 16) 0%Z in
  let! seg := upd seg (ihl + 17) 0%Z in
  let! tcp_csum := tcp_checksum seg ihl tcp_hdr_len in
  let! seg := upd seg (ihl + 16) (as_u8 (Z.shiftr tcp_csum 8)) in
  let! seg := upd seg (ihl + 17) (as_u8 tcp_csum) in
  Done seg.

(** The overlap prefix after its three filters. *)
Definition overlap_prefix (spec : DisorderSpec) (payload_off chunk : nat) : option (list Z) :=
  match spec.(ds_overlap) with
  | None => None
  | Some o =>
      let prefix := materialize o in
      if (length prefix =? 0) then None
      else if spec.(ds_reverse) && negb (length prefix <? chunk) then None
      else if (Z.of_nat (payload_off + chunk + length prefix) <=? 65535)%Z then Some prefix
      else None
  end.

Definition split_tcp_payload (bytes : list Z) (spec : DisorderSpec) : exec (list (list Z)) :=
  let unchanged := Done [bytes] in
  match head bytes with
  | None => unchanged
  | Some first =>
      let ihl := Z.to_nat (Z.land first 0x0F) * 4 in
      if (ihl <? 20) || (length bytes <? ihl + 20) then unchanged else
      let! b12 := idx bytes (ihl + 12) in
      let tcp_hdr_len := Z.to_nat (Z.shiftr b12 4) * 4 in
      if (tcp_hdr_len <? 20) || (length bytes <? ihl + tcp_hdr_len) then unchanged else
      let payload_off := ihl + tcp_hdr_len in
      let! payload := slice bytes payload_off (length bytes) in
      if (spec.(ds_segments) <? 2) || (length payload <? spec.(ds_segments)) then unchanged else
      let chunk := div_ceil (length payload) spec.(ds_segments) in
      let! s0 := idx bytes (ihl + 4) in let! s1 := idx bytes (ihl + 5) in
      let! s2 := idx bytes (ihl + 6) in let! s3 := idx bytes (ihl + 7) in
      let orig_seq := from_be32 s0 s1 s2 s3 in
      let chunk_count := div_ceil (length payload) chunk in
      let overlap_index := if spec.(ds_reverse) then chunk_count - 1 else 0 in
      let prefix := overlap_prefix spec payload_off chunk in
      let! st := exec_fold (λ '(index, offset, built) part,
          let prefix := if index =? overlap_index then default [] prefix else [] in
          let! seg := build_segment bytes ihl tcp_hdr_len (length payload) orig_seq
                        offset prefix part in
          Done (S index, offset + length part, built ++ [seg]))
        (chunks chunk payload) (0, 0, []) in
      let built := snd st in
      Done (if spec.(ds_reverse) then reverse built else built)
  end.

(** ** The receiver's view *)
Definition tcp_hdr (f : list Z) : nat := Z.to_nat (Z.shiftr (f !!! (frag_ihl f + 12)) 4) * 4.
Definition tcp_off (f : list Z) : nat := frag_ihl f + tcp_hdr f.
Definition tcp_seq (f : list Z) : Z :=
  from_be32 (f !!! (frag_ihl f + 4)) (f !!! (frag_ihl f + 5))
            (f !!! (frag_ihl f + 6)) (f !!! (frag_ihl f + 7)).
Definition tcp_body (f : list Z) : list Z := drop (tcp_off f) f.

(** A receiver expecting [rcv_nxt] at buffer offset 0: the part of a segment
    below the window is trimmed, the rest is written at its offset, the last
    copy winning. *)
Definition tcp_accept (rcv_nxt : Z) (m : gmap nat Z) (f : list Z) : gmap nat Z :=
  let d := wsub32 (tcp_seq f) rcv_nxt in
  if (d <? 2 ^ 31)%Z then place m (Z.to_nat d) (tcp_body f)
  else place m 0 (drop (Z.to_nat (2 ^ 32 - d)) (tcp_body f)).
Definition tcp_receive (rcv_nxt : Z) (segs : list (list Z)) : gmap nat Z :=
  foldl (tcp_accept rcv_nxt) ∅ segs.

(** ** One segment *)
Definition seg_flags (bytes : list Z) (ihl : nat) (last : bool) : Z :=
  if last then bytes !!! (ihl + 13) else clear_psh (bytes !!! (ihl + 13)).

Definition seg_base (bytes : list Z) (ihl thl : nat) (total seq flags : Z) (body : list Z)
    : list Z :=
  let seg := <[3:=as_u8 total]> (<[2:=as_u8 (Z.shiftr total 8)]> (take (ihl + thl) bytes ++ body)) in
  let seg := <[ihl+4+3:=(seq mod 256)%Z]> (<[ihl+4+2:=((seq / 256) mod 256)%Z]>
    (<[ihl+4+1:=((seq / 65536) mod 256)%Z]> (<[ihl+4:=((seq / 16777216) mod 256)%Z]> seg))) in
  <[11:=0%Z]> (<[10:=0%Z]> (<[ihl+13:=flags]> seg)).

Definition seg_ip (bytes : list Z) (ihl thl : nat) (total seq flags : Z) (body : list Z)
    : list Z :=
  let seg := seg_base bytes ihl thl total seq flags body in
  <[ihl+17:=0%Z]> (<[ihl+16:=0%Z]>
    (set_checksum seg 10 (ipv4_header_checksum (take ihl seg)))).

Definition word_at (l : list Z) (k : nat) : Z := from_be16 (l !!! k) (l !!! (S k)).
Definition seg_pseudo (bytes : list Z) (tcp_len : Z) : Z :=
  (word_at bytes 12 + word_at bytes 14 + word_at bytes 16 + word_at bytes 18 + 6 + tcp_len)%Z.

Definition seg_bytes (bytes : list Z) (ihl thl plen : nat) (orig_seq : Z)
    (offset : nat) (prefix part : list Z) : list Z :=
  let total := as_u16 (Z.of_nat (ihl + thl + length prefix + length part)) in
  let seq := wsub32 (wadd32 orig_seq (as_u32 (Z.of_nat offset)))
                    (as_u32 (Z.of_nat (length prefix))) in
  let seg := seg_ip bytes ihl thl total seq
               (seg_flags bytes ihl (offset + length part =? plen)) (prefix ++ part) in
  let tcp_len := as_u16 (Z.of_nat (thl + (length seg - (ihl + thl)))) in
  set_checksum seg (ihl + 16)
    (finish_sum (sum_words (drop ihl seg) (seg_pseudo bytes tcp_len))).

Section segment.
Context (bytes : list Z) (ihl thl plen : nat) (orig_seq : Z) (offset : nat).
Context (prefix part : list Z).
Context (Hb : is_bytes bytes) (Hpre : is_bytes prefix) (Hpart : is_bytes part).
Context (Hi : 20 ≤ ihl ≤ 60) (Ht : 20 ≤ thl) (Hl : ihl + thl ≤ length bytes).
Context (Hmax : (Z.of_nat (ihl + thl + length prefix + length part) ≤ 65535)%Z).
Let f := seg_bytes bytes ihl thl plen orig_seq offset prefix part.

Lemma length_seg_base total seq flags body :
  length (seg_base bytes ihl thl total seq flags body) = ihl + thl + length body.
Proof. unfold seg_base. rewrite !length_insert. autorewrite with lens. lia. Qed.

Lemma length_seg_ip total seq flags body :
  length (seg_ip bytes ihl thl total seq flags body) = ihl + thl + length body.
Proof. unfold seg_ip, set_checksum. by rewrite !length_insert, length_seg_base. Qed.

Lemma length_seg_bytes : length f = ihl + thl + length prefix + length part.
Proof.
  unfold f, seg_bytes, set_checksum.
  rewrite !length_insert, length_seg_ip, length_app. lia.
Qed.

(** A byte of the segment that no write touches. *)
Definition untouched (k : nat) : Prop :=
  k ≠ 2 ∧ k ≠ 3 ∧ k ≠ 10 ∧ k ≠ 11 ∧ ¬ (ihl + 4 ≤ k < ihl + 8) ∧ k ≠ ihl + 13 ∧
  k ≠ ihl + 16 ∧ k ≠ ihl + 17.

Lemma seg_base_untouched total seq flags body k :
  untouched k → k < ihl + thl →
  seg_base bytes ihl thl total seq flags body !! k = bytes !! k.
Proof.
  intros Hk Hlt. destruct Hk as (?&?&?&?&?&?&?&?).
  unfold seg_base. rewrite !list_lookup_insert_ne by lia.
  rewrite lookup_app_l by (rewrite length_take; lia). by apply lookup_take_lt.
Qed.

Lemma seg_ip_untouched total seq flags body k :
  untouched k → k < ihl + thl →
  seg_ip bytes ihl thl total seq flags body !! k = bytes !! k.
Proof.
  intros Hk Hlt. unfold seg_ip, set_checksum.
  rewrite !list_lookup_insert_ne by (destruct Hk; lia). by apply seg_base_untouched.
Qed.

Lemma seg_bytes_untouched k : untouched k → k < ihl + thl → f !! k = bytes !! k.
Proof.
  intros Hk Hlt. unfold f, seg_bytes, set_checksum.
  rewrite !list_lookup_insert_ne by (destruct Hk; lia). by apply seg_ip_untouched.
Qed.

Lemma untouched_small k : 4 ≤ k < 20 → k ≠ 10 → k ≠ 11 → untouched k.
Proof. unfold untouched. lia. Qed.

Lemma wadd32_small a b : (0 ≤ a + b < 2 ^ 32)%Z → wadd32 a b = (a + b)%Z.
Proof. apply Z.mod_small. Qed.

Lemma word_at_range k : is_bytes bytes → S k < length bytes → is_u16 (word_at bytes k).
Proof.
  intros Hb' Hk. unfold word_at. rewrite !list_lookup_total_alt.
  destruct (lookup_lt_is_Some_2 bytes k) as [x Hx]; [lia|].
  destruct (lookup_lt_is_Some_2 bytes (S k)) as [y Hy]; [lia|].
  rewrite Hx, Hy. apply from_be16_range; by eapply is_bytes_lookup.
Qed.

Lemma pseudo_sum_done seg tcp_len :
  (∀ k, 12 ≤ k < 20 → seg !! k = bytes !! k) → is_u16 tcp_len →
  pseudo_sum seg tcp_len = Done (seg_pseudo bytes tcp_len).
Proof.
  intros Hk Htl. unfold pseudo_sum, idx.
  rewrite !Hk by lia.
  assert (∀ k, k < 20 → bytes !! k = Some (bytes !!! k)) as Hs.
  { intros k Hlt. apply list_lookup_lookup_total_lt. lia. }
  rewrite !Hs by lia. cbn [exec_bind].
  pose proof (word_at_range 12 Hb ltac:(lia)). pose proof (word_at_range 14 Hb ltac:(lia)).
  pose proof (word_at_range 16 Hb ltac:(lia)). pose proof (word_at_range 18 Hb ltac:(lia)).
  unfold seg_pseudo. fold (word_at bytes 12) (word_at bytes 14) (word_at bytes 16) (word_at bytes 18).
  unfold is_u16 in *. rewrite !wadd32_small; repeat rewrite wadd32_small; try lia.
  by f_equal.
Qed.

Lemma seg_ip_pseudo total seq flags body k :
  12 ≤ k < 20 → seg_ip bytes ihl thl total seq flags body !! k = bytes !! k.
Proof. intros. apply seg_ip_untouched; [apply untouched_small|]; lia. Qed.

Lemma tcp_checksum_done seg :
  length seg = ihl + thl + length prefix + length part →
  (∀ k, 12 ≤ k < 20 → seg !! k = bytes !! k) →
  tcp_checksum seg ihl thl =
  Done (finish_sum (sum_words (drop ihl seg)
    (seg_pseudo bytes (as_u16 (Z.of_nat (thl + (length seg - (ihl + thl)))))))).
Proof.
  intros Hlen Hk. unfold tcp_checksum. rewrite pseudo_sum_done by auto with zdpi.
  cbn [exec_bind]. rewrite slice_done by lia. cbn [exec_bind].
  by rewrite take_ge by (rewrite length_drop; lia).
Qed.

(** [build_segment] does not panic and returns the closed form. *)
Lemma build_segment_done :
  build_segment bytes ihl thl plen orig_seq offset prefix part = Done f.
Proof.
  unfold build_segment. rewrite slice_done by lia. cbn [exec_bind].
  rewrite drop_0, Nat.sub_0_r.
  set (total := as_u16 _). set (seq := wsub32 _ _).
  assert (length (take (ihl + thl) bytes ++ prefix ++ part) =
    ihl + thl + length prefix + length part) as Hlen
    by (rewrite !length_app, length_take; lia).
  repeat (rewrite upd_done by (rewrite ?length_insert; lia); cbn [exec_bind]).
  unfold to_be32. rewrite blit4 by (rewrite ?length_insert; lia). cbn [exec_bind].
  destruct (lookup_lt_is_Some_2 bytes (ihl + 13)) as [fb Hfb]; [lia|].
  rewrite (idx_lookup _ _ _ Hfb). cbn [exec_bind].
  assert (bytes !!! (ihl + 13) = fb) as Hfb' by (by rewrite list_lookup_total_alt, Hfb).
  rewrite <- Hfb'. fold (seg_flags bytes ihl (offset + length part =? plen)).
  repeat (rewrite upd_done by (rewrite ?length_insert; lia); cbn [exec_bind]).
  fold (seg_base bytes ihl thl total seq (seg_flags bytes ihl (offset + length part =? plen))
         (prefix ++ part)).
  rewrite slice_done by (rewrite ?length_seg_base, ?length_app; lia). cbn [exec_bind].
  rewrite drop_0, Nat.sub_0_r.
  repeat (rewrite upd_done by (rewrite ?length_insert, length_seg_base, length_app; lia);
    cbn [exec_bind]).
  fold (set_checksum (seg_base bytes ihl thl total seq
    (seg_flags bytes ihl (offset + length part =? plen)) (prefix ++ part)) 10
    (ipv4_header_checksum (take ihl (seg_base bytes ihl thl total seq
      (seg_flags bytes ihl (offset + length part =? plen)) (prefix ++ part))))).
  fold (seg_ip bytes ihl thl total seq
    (seg_flags bytes ihl (offset + length part =? plen)) (prefix ++ part)).
  rewrite tcp_checksum_done; cycle 1.
  { rewrite length_seg_ip, length_app. lia. }
  { intros. by apply seg_ip_pseudo. }
  cbn [exec_bind].
  repeat (rewrite upd_done by (rewrite ?length_insert, length_seg_ip, length_app; lia);
    cbn [exec_bind]).
  unfold f, seg_bytes, set_checksum. fold total seq.
  by replace (S (ihl + 16)) with (ihl + 17) by lia.
Qed.

Lemma seg_flags_range b : is_u8 (seg_flags bytes ihl b).
Proof.
  assert (is_u8 (bytes !!! (ihl + 13))) as H.
  { eapply is_bytes_lookup; [exact Hb|]. apply list_lookup_lookup_total_lt. lia. }
  unfold seg_flags, clear_psh. destruct b; [done|].
  change 0xF7%Z with (Z.land 0xF7 (Z.ones 8)).
  rewrite Z.land_assoc, Z.land_ones by lia. apply Z.mod_pos_bound. lia.
Qed.

Lemma seg_base_bytes total seq body b :
  is_bytes body → is_bytes (seg_base bytes ihl thl total seq (seg_flags bytes ihl b) body).
Proof.
  intros Hbody. unfold seg_base.
  assert (∀ z, is_u8 (z mod 256)) by (intros; apply Z.mod_pos_bound; lia).
  assert (is_u8 0) by (unfold is_u8; lia). pose proof (seg_flags_range b).
  repeat apply is_bytes_insert; auto with zdpi.
  apply is_bytes_app. auto with zdpi.
Qed.

(** Fields of the emitted segment. *)
Lemma seg_bytes_total_len : frag_total_len f = Z.of_nat (length f).
Proof.
  unfold frag_total_len. rewrite length_seg_bytes. rewrite !list_lookup_total_alt.
  unfold f, seg_bytes, seg_ip, seg_base, set_checksum. lookup_ins.
  change (default inhabitant (Some ?x)) with x. rewrite be16_set by auto with zdpi.
  apply as_u16_small. unfold is_u16. lia.
Qed.

Lemma body_bytes : is_bytes (prefix ++ part).
Proof. by apply is_bytes_app. Qed.

Lemma seg_bytes_seq :
  from_be32 (f !!! (ihl + 4)) (f !!! (ihl + 5)) (f !!! (ihl + 6)) (f !!! (ihl + 7)) =
  wsub32 (wadd32 orig_seq (as_u32 (Z.of_nat offset))) (as_u32 (Z.of_nat (length prefix))).
Proof.
  rewrite !list_lookup_total_alt.
  unfold f, seg_bytes, seg_ip, seg_base, set_checksum.
  set (seq := wsub32 _ _).
  lookup_ins. apply be32_roundtrip. apply wsub32_range.
Qed.

Lemma seg_bytes_flags :
  f !!! (ihl + 13) = seg_flags bytes ihl (offset + length part =? plen).
Proof.
  rewrite !list_lookup_total_alt.
  unfold f, seg_bytes, seg_ip, seg_base, set_checksum. by lookup_ins.
Qed.

Lemma seg_bytes_body : drop (ihl + thl) f = prefix ++ part.
Proof.
  unfold f, seg_bytes, seg_ip, seg_base, set_checksum.
  rewrite !drop_insert_lt by lia. rewrite drop_app_ge by (rewrite length_take; lia).
  by rewrite length_take, Nat.min_l, Nat.sub_diag, drop_0 by lia.
Qed.

Lemma seg_bytes_ip_checksum : ipv4_header_checksum (take ihl f) = 0%Z.
Proof.
  unfold f, seg_bytes. set (total := as_u16 _). set (seq := wsub32 _ _).
  unfold seg_ip, set_checksum at 1 2. rewrite !take_insert_ge by lia.
  set (seg := seg_base _ _ _ _ _ _ _).
  assert (length seg = ihl + thl + length (prefix ++ part)) as Hlen by apply length_seg_base.
  rewrite !take_insert_lt by lia. fold (set_checksum (take ihl seg) 10
    (ipv4_header_checksum (take ihl seg))).
  apply checksum_verifies.
  - apply is_bytes_take, seg_base_bytes, body_bytes.
  - rewrite length_take. lia.
  - rewrite lookup_take_lt by lia. unfold seg, seg_base. by lookup_ins.
  - rewrite lookup_take_lt by lia. unfold seg, seg_base. by lookup_ins.
Qed.

(** The TCP checksum recomputed over the segment as a receiver does. *)
Lemma seg_bytes_tcp_checksum : tcp_checksum f ihl thl = Done 0%Z.
Proof.
  rewrite tcp_checksum_done; [|apply length_seg_bytes|].
  2:{ intros k Hk. apply seg_bytes_untouched; [apply untouched_small|]; lia. }
  f_equal. rewrite length_seg_bytes. unfold f, seg_bytes.
  set (total := as_u16 _). set (seq := wsub32 _ _).
  set (seg := seg_ip _ _ _ _ _ _ _).
  assert (length seg = ihl + thl + (length prefix + length part)) as Hlen
    by (unfold seg; by rewrite length_seg_ip, length_app).
  replace (length seg) with (ihl + thl + length prefix + length part) by lia.
  set (p := seg_pseudo bytes _). unfold set_checksum.
  rewrite !drop_insert_ge by lia.
  replace (S (ihl + 16) - ihl) with 17 by lia. replace (ihl + 16 - ihl) with 16 by lia.
  fold (set_checksum (drop ihl seg) 16 (finish_sum (sum_words (drop ihl seg) p))).
  assert (is_bytes (drop ihl seg)) as Hbs.
  { apply is_bytes_drop. unfold seg, seg_ip.
    do 2 (apply is_bytes_insert; [|done]).
    apply set_checksum_bytes, seg_base_bytes, body_bytes. }
  assert (0 ≤ p ≤ 5 * 65535 + 6)%Z as Hp.
  { pose proof (word_at_range 12 Hb ltac:(lia)). pose proof (word_at_range 14 Hb ltac:(lia)).
    pose proof (word_at_range 16 Hb ltac:(lia)). pose proof (word_at_range 18 Hb ltac:(lia)).
    pose proof (as_u16_range (Z.of_nat (thl + (ihl + thl + length prefix + length part -
      (ihl + thl))))).
    unfold p, seg_pseudo, is_u16 in *. lia. }
  pose proof (words_total_bounds _ Hbs) as [_ Hw]. rewrite length_drop in Hw.
  apply checksum_field_verifies; try done; try lia.
  - by exists 8.
  - rewrite length_drop. lia.
  - rewrite lookup_drop. unfold seg, seg_ip, set_checksum, seg_base. by lookup_ins.
  - rewrite lookup_drop. unfold seg, seg_ip, set_checksum, seg_base. by lookup_ins.
Qed.
End segment.

(** What is stated of every emitted segment: a packet with the original
    header lengths, whose IPv4 and TCP checksums verify and whose total length
    is its length; the header bytes other than length, checksums, sequence
    number and flags are the original ones; PSH is kept on the chunk that ends
    the payload only; the body is the chunk at stream offset [off] behind the
    overlap prefix, and the sequence number is rewound by the prefix. *)
Record segment_ok (bytes : list Z) (off : nat) (pre part : list Z) (last : bool) (f : list Z)
    : Prop := {
  so_ihl : frag_ihl f = frag_ihl bytes;
  so_hdr : tcp_hdr f = tcp_hdr bytes;
  so_ip_checksum : ipv4_header_checksum (take (frag_ihl f) f) = 0%Z;
  so_tcp_checksum : tcp_checksum f (frag_ihl f) (tcp_hdr f) = Done 0%Z;
  so_total_len : frag_total_len f = Z.of_nat (length f);
  so_untouched : ∀ k, untouched (frag_ihl bytes) k → k < tcp_off bytes → f !! k = bytes !! k;
  so_flags : f !!! (frag_ihl f + 13) = seg_flags bytes (frag_ihl bytes) last;
  so_body : tcp_body f = pre ++ part;
  so_seq : tcp_seq f = wsub32 (tcp_seq bytes + Z.of_nat off) (Z.of_nat (length pre));
}.

Section split.
Context (bytes : list Z) (Hb : is_bytes bytes).
Context (Hihl : 20 ≤ frag_ihl bytes) (Hthl : 20 ≤ tcp_hdr bytes).
Context (Hlen : tcp_off bytes ≤ length bytes).
Context (plen : nat).
Let segb := seg_bytes bytes (frag_ihl bytes) (tcp_hdr bytes) plen (tcp_seq bytes).

Lemma seg_bytes_ok off pre part :
  is_bytes pre → is_bytes part → off + length part ≤ plen →
  (Z.of_nat (tcp_off bytes + length pre + length part) ≤ 65535)%Z →
  (Z.of_nat plen ≤ 65535)%Z →
  segment_ok bytes off pre part (off + length part =? plen) (segb off pre part).
Proof.
  intros Hpre Hpart Hoff Hmax Hmax'. set (f := segb off pre part).
  pose proof (frag_ihl_max bytes) as H60.
  assert (frag_ihl f = frag_ihl bytes) as Ei.
  { unfold frag_ihl at 1. rewrite list_lookup_total_alt. unfold f, segb.
    rewrite seg_bytes_untouched; [by rewrite <- list_lookup_total_alt|auto..|];
      unfold untouched, tcp_off in *; lia. }
  assert (tcp_hdr f = tcp_hdr bytes) as Eh.
  { unfold tcp_hdr at 1. rewrite Ei, list_lookup_total_alt. unfold f, segb.
    rewrite seg_bytes_untouched; [by rewrite <- list_lookup_total_alt|auto..|];
      unfold untouched, tcp_off in *; lia. }
  unfold tcp_off in *. constructor; unfold tcp_body, tcp_off, tcp_seq; rewrite ?Ei, ?Eh; try done.
  - apply seg_bytes_ip_checksum; auto.
  - apply seg_bytes_tcp_checksum; auto.
  - apply seg_bytes_total_len; auto.
  - intros k Hk Hlt. apply seg_bytes_untouched; auto.
  - apply seg_bytes_flags; auto.
  - apply seg_bytes_body; auto.
  - unfold f, segb. rewrite seg_bytes_seq by auto. unfold wsub32, wadd32, as_u32.
    rewrite !(Z.mod_small (Z.of_nat _)) by lia. by rewrite Zminus_mod_idemp_l.
Qed.

(** The effect of one segment on the receiver's buffer. *)
Lemma accept_lookup m off pre part last f i :
  segment_ok bytes off pre part last f →
  (Z.of_nat (off + length pre) ≤ 65535 * 2)%Z →
  tcp_accept (tcp_seq bytes) m f !! i =
    if decide (off ≤ i < off + length part) then part !! (i - off)
    else if decide (off - length pre ≤ i < off) then pre !! (i + length pre - off)
    else m !! i.
Proof.
  intros Hok Hmax. unfold tcp_accept. rewrite (so_seq _ _ _ _ _ _ Hok), (so_body _ _ _ _ _ _ Hok).
  assert (wsub32 (wsub32 (tcp_seq bytes + Z.of_nat off) (Z.of_nat (length pre))) (tcp_seq bytes)
    = (Z.of_nat off - Z.of_nat (length pre)) mod 2 ^ 32)%Z as ->.
  { unfold wsub32. rewrite Zminus_mod_idemp_l. f_equal. lia. }
  destruct (decide (length pre ≤ off)) as [Hle|Hgt].
  - rewrite Z.mod_small by lia. rewrite (proj2 (Z.ltb_lt _ _)) by lia.
    replace (Z.to_nat (Z.of_nat off - Z.of_nat (length pre))) with (off - length pre) by lia.
    rewrite lookup_place, length_app. repeat case_decide; try lia; try done.
    + rewrite lookup_app_r by lia. f_equal. lia.
    + rewrite lookup_app_l by lia. f_equal. lia.
  - assert ((Z.of_nat off - Z.of_nat (length pre)) mod 2 ^ 32 =
      2 ^ 32 + Z.of_nat off - Z.of_nat (length pre))%Z as ->.
    { symmetry. apply Z.mod_unique with (-1)%Z; lia. }
    rewrite (proj2 (Z.ltb_ge _ _)) by lia.
    replace (Z.to_nat (2 ^ 32 - (2 ^ 32 + Z.of_nat off - Z.of_nat (length pre))))
      with (length pre - off) by lia.
    rewrite lookup_place, length_drop, length_app.
    repeat case_decide; try lia; try done; rewrite ?lookup_drop.
    + rewrite lookup_app_r by lia. f_equal. lia.
    + rewrite lookup_app_l by lia. f_equal. lia.
Qed.
End split.

(** ** The segments in stream order *)
Section stream.
Context (bytes : list Z) (Hb : is_bytes bytes).
Context (Hihl : 20 ≤ frag_ihl bytes) (Hthl : 20 ≤ tcp_hdr bytes).
Context (Hlen : tcp_off bytes ≤ length bytes).
Context (plen chunk ov : nat) (pre : list Z) (Hpre : is_bytes pre).
Context (Hchunk : 0 < chunk).
Context (Hmax : (Z.of_nat (tcp_off bytes + plen) ≤ 65535)%Z).
Context (Hmax' : (Z.of_nat (tcp_off bytes + chunk + length pre) ≤ 65535)%Z).
Let segb := seg_bytes bytes (frag_ihl bytes) (tcp_hdr bytes) plen (tcp_seq bytes).

Definition pre_at (index : nat) : list Z := if index =? ov then pre else [].

Fixpoint segs_from (index off : nat) (parts : list (list Z)) : list (list Z) :=
  match parts with
  | [] => []
  | p :: ps => segb off (pre_at index) p :: segs_from (S index) (off + length p) ps
  end.

Lemma pre_at_bytes index : is_bytes (pre_at index).
Proof. unfold pre_at. destruct (_ =? _); [done|constructor]. Qed.
Lemma length_pre_at index : length (pre_at index) ≤ length pre.
Proof. unfold pre_at. destruct (_ =? _); simpl; lia. Qed.

Lemma length_segs_from index off parts : length (segs_from index off parts) = length parts.
Proof. revert index off; induction parts; intros; simpl; auto. Qed.

(** The loop of [split_tcp_payload] builds [segs_from]. *)
Lemma segment_loop parts index off acc :
  Forall is_bytes parts → Forall (λ p, length p ≤ chunk) parts →
  exec_fold (λ '(index, offset, built) part,
      let! seg := build_segment bytes (frag_ihl bytes) (tcp_hdr bytes) plen (tcp_seq bytes)
                    offset (if index =? ov then pre else []) part in
      Done (S index, offset + length part, built ++ [seg])) parts (index, off, acc) =
  Done (index + length parts, off + length (concat parts), acc ++ segs_from index off parts).
Proof.
  revert index off acc; induction parts as [|p ps IH]; intros index off acc Hbs Hls; simpl.
  - by rewrite !Nat.add_0_r, app_nil_r.
  - apply Forall_cons in Hbs as [Hp Hbs], Hls as [Hlp Hls].
    pose proof (frag_ihl_max bytes). pose proof (length_pre_at index).
    fold (pre_at index). rewrite build_segment_done
      by (auto using pre_at_bytes; unfold tcp_off in *; lia).
    cbn [exec_bind]. rewrite IH by done.
    rewrite length_app, <- app_assoc, Nat.add_succ_r, Nat.add_assoc. done.
Qed.

(** The segments from stream position [index] on. *)
Lemma drop_segs_from k parts index off :
  aligned chunk parts → k < length parts →
  drop k (segs_from index off parts) = segs_from (index + k) (off + k * chunk) (drop k parts).
Proof.
  revert parts index off; induction k as [|k IH]; intros parts index off Hal Hk.
  - by rewrite !drop_0, !Nat.add_0_r.
  - destruct parts as [|p ps]; simpl in *; [lia|]. destruct Hal as (Hp & _ & Hal).
    rewrite Hp by (destruct ps; simpl in *; [lia|done]).
    rewrite IH by (done || lia). f_equal; lia.
Qed.

Lemma take_segs_from k parts index off :
  take k (segs_from index off parts) = segs_from index off (take k parts).
Proof.
  revert parts index off; induction k as [|k IH]; intros [|p ps] index off; simpl; try done.
  by rewrite IH.
Qed.

Lemma segs_from_lookup parts index off i f :
  aligned chunk parts → Forall is_bytes parts → off + length (concat parts) = plen →
  segs_from index off parts !! i = Some f →
  ∃ p, parts !! i = Some p ∧
    segment_ok bytes (off + i * chunk) (pre_at (index + i)) p (S i =? length parts) f.
Proof.
  revert parts index off; induction i as [|i IH]; intros [|p ps] index off Hal Hbs Hpl Hf; try done;
    simpl in Hal, Hpl, Hf; destruct Hal as (Hp & Hp' & Hal); apply Forall_cons in Hbs as [Hbp Hbs];
    rewrite length_app in Hpl.
  - injection Hf as <-. exists p. split; [done|].
    pose proof (length_pre_at index). rewrite !Nat.add_0_r.
    replace (1 =? length (p :: ps)) with (off + length p =? plen).
    + apply seg_bytes_ok; auto using pre_at_bytes; lia.
    + destruct ps as [|q qs]; simpl in *; [by rewrite !(proj2 (Nat.eqb_eq _ _)) by lia|].
      rewrite length_app in Hpl. rewrite (proj2 (Nat.eqb_neq _ _)) by lia. done.
  - destruct (IH ps (S index) (off + length p)) as (q & Hq & Hok); try done; [lia|].
    exists q. split; [done|]. destruct ps as [|r rs]; [done|].
    rewrite Hp in Hok by done. simpl.
    replace (off + (chunk + i * chunk)) with (off + chunk + i * chunk) by lia.
    by replace (index + S i) with (S index + i) by lia.
Qed.

Lemma accept_seg m index off p i :
  is_bytes p → length p ≤ chunk → off + length p ≤ plen →
  tcp_accept (tcp_seq bytes) m (segb off (pre_at index) p) !! i =
    if decide (off ≤ i < off + length p) then p !! (i - off)
    else if decide (off - length (pre_at index) ≤ i < off)
    then pre_at index !! (i + length (pre_at index) - off)
    else m !! i.
Proof.
  intros Hp Hlp Hpl. pose proof (length_pre_at index).
  eapply accept_lookup; auto; [|lia]. apply seg_bytes_ok; auto using pre_at_bytes; lia.
Qed.

(** In stream order the receiver holds exactly what has been emitted: the
    prefix, on the first segment, is below the window and trimmed. *)
Lemma receive_ordered parts index off m i :
  aligned chunk parts → Forall is_bytes parts → off + length (concat parts) ≤ plen →
  ov ≤ index → (index = ov → off = 0) →
  foldl (tcp_accept (tcp_seq bytes)) m (segs_from index off parts) !! i =
    if decide (off ≤ i < off + length (concat parts)) then concat parts !! (i - off)
    else m !! i.
Proof.
  revert index off m; induction parts as [|p ps IH]; intros index off m Hal Hbs Hpl Hov Hoff.
  - simpl. case_decide; [lia|done].
  - destruct Hal as (_ & Hp' & Hal). apply Forall_cons in Hbs as [Hbp Hbs].
    cbn [concat] in *. rewrite length_app in *. cbn [segs_from foldl].
    rewrite IH by (done || lia).
    pose proof (length_pre_at index) as Hpl'.
    rewrite accept_seg by (done || lia).
    assert (off - length (pre_at index) ≤ i < off → False) as Hno.
    { unfold pre_at in *. destruct (index =? ov) eqn:E; bool_to_prop; simpl; lia. }
    repeat case_decide; try done; try lia; try (exfalso; lia).
    + rewrite lookup_app_r by lia. f_equal. lia.
    + by rewrite lookup_app_l by lia.
Qed.

(** In reverse order: from stream position [off] up the receiver holds the
    payload; below it nothing, once a segment has covered the prefix. *)
Lemma receive_reverse parts index off :
  parts ≠ [] → aligned chunk parts → Forall is_bytes parts →
  off + length (concat parts) = plen →
  index + length parts = S ov → length pre < chunk →
  let m := foldl (tcp_accept (tcp_seq bytes)) ∅ (reverse (segs_from index off parts)) in
  (∀ i, off ≤ i → m !! i = concat parts !! (i - off)) ∧
  (∀ i, i < off → 1 < length parts ∨ i + length pre < off → m !! i = None).
Proof.
  intros Hne Hal Hbs Hpl Hov Hpc m. subst m.
  revert index off Hne Hal Hbs Hpl Hov; induction parts as [|p ps IH];
    intros index off Hne Hal Hbs Hpl Hov; [done|]. clear Hne.
  destruct Hal as (Hlast & Hp' & Hal). apply Forall_cons in Hbs as [Hbp Hbs].
  cbn [concat] in *. rewrite length_app in Hpl. cbn [segs_from].
  rewrite reverse_cons, foldl_app. cbn [foldl].
  pose proof (length_pre_at index) as Hpl'.
  destruct (decide (ps = [])) as [->|Hne].
  - simpl in Hov, Hpl. cbn [segs_from reverse]. change (reverse []) with (@nil (list Z)).
    assert (pre_at index = pre) as Epre
      by (unfold pre_at; by rewrite (proj2 (Nat.eqb_eq _ _)) by lia).
    rewrite Epre in Hpl'. cbn [foldl concat length]. rewrite app_nil_r.
    split; intros i Hi; [|intros Hi']; rewrite accept_seg, Epre by (done || lia);
      repeat case_decide; try lia; try done.
    rewrite lookup_empty, lookup_ge_None_2; [done|lia].
  - destruct (IH (S index) (off + length p) Hne Hal Hbs ltac:(lia)) as [I1 I2];
      [simpl in Hov; lia|].
    assert (pre_at index = []) as Epre.
    { unfold pre_at. destruct ps; [done|]. simpl in Hov.
      by rewrite (proj2 (Nat.eqb_neq _ _)) by lia. }
    rewrite Epre in Hpl'. specialize (Hlast Hne).
    split; intros i Hi; [|intros Hi']; rewrite accept_seg, Epre by (done || lia);
      simpl; repeat case_decide; try lia.
    + by rewrite lookup_app_l by lia.
    + rewrite I1 by lia. rewrite lookup_app_r by lia. f_equal. lia.
    + apply I2; [lia|right; lia].
Qed.
End stream.

(** ** The packet-level theorem *)

(** The condition under which the code splits. *)
Definition splits_tcp (bytes : list Z) (spec : DisorderSpec) : bool :=
  match bytes with
  | [] => false
  | _ => (20 <=? frag_ihl bytes) && (frag_ihl bytes + 20 <=? length bytes) &&
         (20 <=? tcp_hdr bytes) && (tcp_off bytes <=? length bytes) &&
         (2 <=? spec.(ds_segments)) && (spec.(ds_segments) <=? length (tcp_body bytes))
  end.

Definition seg_chunk (bytes : list Z) (spec : DisorderSpec) : nat :=
  div_ceil (length (tcp_body bytes)) spec.(ds_segments).
Definition seg_count (bytes : list Z) (spec : DisorderSpec) : nat :=
  div_ceil (length (tcp_body bytes)) (seg_chunk bytes spec).
Definition seg_prefix (bytes : list Z) (spec : DisorderSpec) : list Z :=
  default [] (overlap_prefix spec (tcp_off bytes) (seg_chunk bytes spec)).
(** The stream index of the segment that carries the prefix. *)
Definition seg_ov (bytes : list Z) (spec : DisorderSpec) : nat :=
  if spec.(ds_reverse) then seg_count bytes spec - 1 else 0.

Lemma splits_tcp_facts bytes spec :
  splits_tcp bytes spec = true →
  20 ≤ frag_ihl bytes ∧ 20 ≤ tcp_hdr bytes ∧ tcp_off bytes ≤ length bytes ∧
  2 ≤ spec.(ds_segments) ≤ length (tcp_body bytes).
Proof. unfold splits_tcp. destruct bytes; [done|]. intros. bool_to_prop. lia. Qed.

(** The chunk arithmetic: at least two nonempty chunks. *)
Lemma seg_chunk_facts bytes spec :
  splits_tcp bytes spec = true →
  let len := length (tcp_body bytes) in
  0 < seg_chunk bytes spec < len ∧ 2 ≤ seg_count bytes spec ≤ spec.(ds_segments) ∧
  len ≤ seg_count bytes spec * seg_chunk bytes spec < len + seg_chunk bytes spec.
Proof.
  intros (_ & _ & _ & Hs)%splits_tcp_facts len. fold len in Hs.
  unfold seg_count, seg_chunk. fold len. set (s := ds_segments spec) in *.
  pose proof (div_ceil_bounds len s ltac:(lia)) as H1.
  pose proof (div_ceil_pos len s ltac:(lia) ltac:(lia)) as H2. set (c := div_ceil len s) in *.
  pose proof (div_ceil_bounds len c ltac:(lia)) as H3. set (n := div_ceil len c) in *.
  assert (c < len) by nia. repeat split; try lia; nia.
Qed.

Definition pattern_bytes (spec : DisorderSpec) : Prop :=
  from_option (λ o, from_option is_bytes True o.(of_pattern)) True spec.(ds_overlap).

Lemma overlap_prefix_facts spec poff chunk :
  pattern_bytes spec →
  let pre := default [] (overlap_prefix spec poff chunk) in
  is_bytes pre ∧ (spec.(ds_reverse) = true → 0 < chunk → length pre < chunk) ∧
  (pre ≠ [] → Z.of_nat (poff + chunk + length pre) ≤ 65535)%Z.
Proof.
  intros Hp pre. subst pre. unfold pattern_bytes in Hp. unfold overlap_prefix.
  assert (is_bytes [] ∧ (ds_reverse spec = true → 0 < chunk → length (@nil Z) < chunk) ∧
    (@nil Z ≠ [] → Z.of_nat (poff + chunk + length (@nil Z)) ≤ 65535)%Z) as Hnil
    by (split; [constructor|split; [simpl; lia|done]]).
  destruct (ds_overlap spec) as [o|]; [|exact Hnil]. simpl in Hp.
  destruct (_ =? _); [exact Hnil|].
  destruct (ds_reverse spec && negb (length (materialize o) <? chunk)) eqn:E; [exact Hnil|].
  destruct (_ <=? 65535)%Z eqn:E'; [|exact Hnil]. bool_to_prop.
  simpl. split; [by apply materialize_bytes|]. split; [|done].
  intros Hr _. destruct E as [E|E]; [congruence|]. by bool_to_prop.
Qed.

Lemma seg_prefix_facts bytes spec :
  (Z.of_nat (length bytes) ≤ 65535)%Z → pattern_bytes spec → splits_tcp bytes spec = true →
  is_bytes (seg_prefix bytes spec) ∧
  (spec.(ds_reverse) = true → length (seg_prefix bytes spec) < seg_chunk bytes spec) ∧
  (Z.of_nat (tcp_off bytes + seg_chunk bytes spec + length (seg_prefix bytes spec)) ≤ 65535)%Z.
Proof.
  intros Hmax Hpat Hs. pose proof (seg_chunk_facts _ _ Hs) as (Hc & _).
  pose proof (splits_tcp_facts _ _ Hs) as (_ & _ & Hl & _).
  pose proof (overlap_prefix_facts spec (tcp_off bytes) (seg_chunk bytes spec) Hpat) as Hpre.
  fold (seg_prefix bytes spec) in Hpre. destruct Hpre as (H1 & H2 & H3).
  split; [done|]. split; [intros; apply H2; [done|lia]|].
  destruct (seg_prefix bytes spec) eqn:Ep; [|by apply H3].
  unfold tcp_body in Hc. rewrite length_drop in Hc. simpl. lia.
Qed.

Lemma idx_total (bytes : list Z) k : k < length bytes → idx bytes k = Done (bytes !!! k).
Proof. intros. by apply idx_lookup, list_lookup_lookup_total_lt. Qed.

Lemma chunks_bytes n l : 0 < n → is_bytes l → Forall is_bytes (chunks n l).
Proof. intros Hn Hl. apply Forall_concat. by rewrite concat_chunks. Qed.

Definition seg_built (bytes : list Z) (spec : DisorderSpec) : list (list Z) :=
  segs_from bytes (length (tcp_body bytes)) (seg_ov bytes spec)
    (seg_prefix bytes spec) 0 0 (chunks (seg_chunk bytes spec) (tcp_body bytes)).

Lemma split_tcp_payload_splits bytes spec :
  is_bytes bytes → (Z.of_nat (length bytes) ≤ 65535)%Z → pattern_bytes spec →
  splits_tcp bytes spec = true →
  split_tcp_payload bytes spec =
  Done (if spec.(ds_reverse) then reverse (seg_built bytes spec) else seg_built bytes spec).
Proof.
  intros Hb Hmax Hpat Hs.
  pose proof (splits_tcp_facts _ _ Hs) as (Hi & Ht & Hl & Hsg).
  pose proof (seg_chunk_facts _ _ Hs) as (Hc & Hn & _).
  pose proof (seg_prefix_facts _ _ Hmax Hpat Hs) as (Hpb & _ & Hpm).
  assert (length (tcp_body bytes) = length bytes - tcp_off bytes) as Hbl
    by (unfold tcp_body; by rewrite length_drop).
  unfold split_tcp_payload.
  destruct bytes as [|first rest] eqn:E; [done|]. cbn [head].
  replace (Z.to_nat (Z.land first 15) * 4) with (frag_ihl (first :: rest)) by done.
  rewrite <- E in *. unfold tcp_off in *.
  rewrite !(proj2 (Nat.ltb_ge _ _)) by lia. cbn [orb].
  rewrite !idx_total by lia. cbn [exec_bind]. fold (tcp_hdr bytes).
  rewrite !(proj2 (Nat.ltb_ge _ _)) by lia. cbn [orb].
  fold (tcp_off bytes). rewrite slice_done by (unfold tcp_off; lia). cbn [exec_bind].
  rewrite take_ge by (rewrite length_drop; unfold tcp_off; lia).
  fold (tcp_body bytes).
  rewrite !(proj2 (Nat.ltb_ge _ _)) by lia. cbn [orb].
  fold (seg_chunk bytes spec) (seg_count bytes spec) (tcp_seq bytes).
  fold (seg_ov bytes spec) (seg_prefix bytes spec).
  rewrite segment_loop with (chunk := seg_chunk bytes spec); try done.
  - lia.
  - unfold tcp_off. lia.
  - apply chunks_bytes; [lia|]. by apply is_bytes_drop.
  - eapply Forall_impl; [apply chunks_sizes; lia|]. simpl. lia.
Qed.

Lemma split_tcp_payload_unchanged bytes spec :
  splits_tcp bytes spec = false → split_tcp_payload bytes spec = Done [bytes].
Proof.
  intros Hs%not_true_iff_false.
  unfold split_tcp_payload, splits_tcp in *.
  destruct bytes as [|first rest] eqn:E; [done|]. cbn [head].
  replace (Z.to_nat (Z.land first 15) * 4) with (frag_ihl (first :: rest)) by done.
  rewrite <- E in *.
  destruct (_ || _) eqn:E1; [done|]. bool_to_prop.
  rewrite idx_total by lia. cbn [exec_bind]. fold (tcp_hdr bytes) (tcp_off bytes).
  destruct ((tcp_hdr bytes <? 20) || _) eqn:E2; [done|]. bool_to_prop.
  rewrite slice_done by lia. cbn [exec_bind].
  rewrite take_ge by (rewrite length_drop; lia). fold (tcp_body bytes).
  destruct ((ds_segments spec <? 2) || _) eqn:E3; [done|]. bool_to_prop.
  exfalso. apply Hs. by rewrite !(proj2 (Nat.leb_le _ _)) by lia.
Qed.

(** The segments built, in stream order. *)
Section built.
Context (bytes : list Z) (spec : DisorderSpec).
Context (Hb : is_bytes bytes) (Hmax : (Z.of_nat (length bytes) ≤ 65535)%Z).
Context (Hpat : pattern_bytes spec) (Hs : splits_tcp bytes spec = true).
Let n := seg_count bytes spec.
Let chunk := seg_chunk bytes spec.
Let pre := seg_prefix bytes spec.
Let body := tcp_body bytes.
Let parts := chunks chunk body.

Lemma built_facts :
  20 ≤ frag_ihl bytes ∧ 20 ≤ tcp_hdr bytes ∧ tcp_off bytes ≤ length bytes ∧
  0 < chunk ∧ is_bytes pre ∧ (Z.of_nat (tcp_off bytes + length body) ≤ 65535)%Z ∧
  (Z.of_nat (tcp_off bytes + chunk + length pre) ≤ 65535)%Z ∧
  aligned chunk parts ∧ Forall is_bytes parts ∧ concat parts = body ∧ length parts = n ∧ 2 ≤ n.
Proof.
  pose proof (splits_tcp_facts _ _ Hs) as (Hi & Ht & Hl & Hsg).
  pose proof (seg_chunk_facts _ _ Hs) as (Hc & Hn & _).
  pose proof (seg_prefix_facts _ _ Hmax Hpat Hs) as (Hpb & _ & Hpm).
  fold chunk in Hc, Hpm. fold n in Hn. fold pre in Hpb, Hpm.
  assert (length body = length bytes - tcp_off bytes) by (unfold body, tcp_body; apply length_drop).
  split; [done|]. split; [done|]. split; [done|]. split; [lia|]. split; [done|]. split; [lia|].
  split; [lia|]. split; [apply chunks_aligned; lia|].
  split; [apply chunks_bytes; [lia|by apply is_bytes_drop]|].
  split; [apply concat_chunks; lia|]. split; [apply length_chunks; lia|lia].
Qed.

Lemma length_seg_built : length (seg_built bytes spec) = n.
Proof. unfold seg_built. rewrite length_segs_from. apply built_facts. Qed.

Lemma seg_built_ok i f :
  seg_built bytes spec !! i = Some f →
  segment_ok bytes (i * chunk) (if i =? seg_ov bytes spec then pre else [])
    (take chunk (drop (i * chunk) body)) (i =? n - 1) f.
Proof.
  destruct built_facts as (Hi & Ht & Hl & Hc & Hpb & Hm & Hm' & Hal & Hbs & Hcat & Hlen & Hn).
  intros Hf. unfold seg_built in Hf.
  eapply segs_from_lookup in Hf as (p & Hp & Hok); eauto.
  2:{ by fold body chunk parts; rewrite Hcat. }
  apply lookup_chunks in Hp as [_ ->]; [|lia].
  fold body chunk parts in Hok. rewrite Hlen in Hok.
  replace (S i =? n) with (i =? n - 1) in Hok; [exact Hok|].
  destruct (Nat.eqb_spec i (n - 1)), (Nat.eqb_spec (S i) n); lia.
Qed.

Lemma seg_built_ordered k i :
  spec.(ds_reverse) = false →
  tcp_receive (tcp_seq bytes) (take k (seg_built bytes spec)) !! i =
    if i <? k * chunk then body !! i else None.
Proof.
  destruct built_facts as (Hi & Ht & Hl & Hc & Hpb & Hm & Hm' & Hal & Hbs & Hcat & Hlen & Hn).
  intros Hr. unfold tcp_receive, seg_built, seg_ov. rewrite Hr, take_segs_from.
  assert (concat (take k parts) = take (k * chunk) body) as Hct by (apply concat_take_chunks; lia).
  fold body chunk pre parts. rewrite receive_ordered with (chunk := chunk); auto.
  - rewrite Hct, Nat.sub_0_r, lookup_empty, length_take.
    destruct (Nat.ltb_spec i (k * chunk)).
    + rewrite lookup_take_lt by done. case_decide; [done|].
      symmetry. apply lookup_ge_None_2. lia.
    + case_decide; [lia|done].
  - by apply aligned_take.
  - by apply Forall_take.
  - rewrite Hct, length_take. lia.
Qed.

Lemma seg_built_reverse k i :
  spec.(ds_reverse) = true → 2 ≤ k ≤ n →
  tcp_receive (tcp_seq bytes) (take k (reverse (seg_built bytes spec))) !! i =
    if (n - k) * chunk <=? i then body !! i else None.
Proof.
  destruct built_facts as (Hi & Ht & Hl & Hc & Hpb & Hm & Hm' & Hal & Hbs & Hcat & Hlen & Hn).
  intros Hr Hk. pose proof (seg_prefix_facts _ _ Hmax Hpat Hs) as (_ & Hpc & _).
  rewrite take_reverse, length_seg_built.
  unfold tcp_receive, seg_built, seg_ov. rewrite Hr. fold body chunk pre parts n.
  rewrite drop_segs_from with (chunk := chunk) by (done || lia). rewrite !Nat.add_0_l.
  assert (concat (drop (n - k) parts) = drop ((n - k) * chunk) body) as Hcd
    by (apply concat_drop_chunks; lia).
  assert ((n - k) * chunk < length body) as Hlt.
  { destruct (lookup_lt_is_Some_2 parts (n - k)) as [c Hc']; [lia|].
    by apply lookup_chunks in Hc' as [? _]; [|lia]. }
  destruct (receive_reverse bytes Hb Hi Ht Hl (length body) chunk (n - 1) pre Hpb Hc Hm Hm'
    (drop (n - k) parts) (n - k) ((n - k) * chunk)) as [R1 R2].
  - intros E. apply (f_equal length) in E. rewrite length_drop in E. simpl in E. lia.
  - by apply aligned_drop.
  - by apply Forall_drop.
  - rewrite Hcd, length_drop. lia.
  - rewrite length_drop. lia.
  - by apply Hpc.
  - destruct (Nat.leb_spec ((n - k) * chunk) i) as [H|H].
    + rewrite R1, Hcd, lookup_drop by done. f_equal. lia.
    + apply R2; [done|left]. rewrite length_drop. lia.
Qed.
End built.

(** How many segments there are, and what a receiver holds after each. *)
Lemma split_received bytes spec :
  is_bytes bytes → (Z.of_nat (length bytes) ≤ 65535)%Z → pattern_bytes spec →
  splits_tcp bytes spec = true →
  ∃ segs, split_tcp_payload bytes spec = Done segs ∧
    let n := seg_count bytes spec in
    let chunk := seg_chunk bytes spec in
    length segs = n ∧ 2 ≤ n ≤ spec.(ds_segments) ∧
    (∀ k i, k ≤ n → (spec.(ds_reverse) = true → 2 ≤ k) →
      tcp_receive (tcp_seq bytes) (take k segs) !! i =
        if (if spec.(ds_reverse) then (n - k) * chunk <=? i else i <? k * chunk)
        then tcp_body bytes !! i else None) ∧
    holds (tcp_receive (tcp_seq bytes) segs) (tcp_body bytes).
Proof.
  intros Hb Hmax Hpat Hs. rewrite split_tcp_payload_splits by done.
  eexists; split; [done|]. cbv zeta.
  pose proof (seg_chunk_facts bytes spec Hs) as (_ & Hn & Hlen).
  pose proof (length_seg_built bytes spec Hb Hmax Hpat Hs) as Hlb.
  set (n := seg_count bytes spec) in *. set (chunk := seg_chunk bytes spec) in *.
  set (segs := if ds_reverse spec then _ else _).
  assert (length segs = n) as Hls
    by (unfold segs; destruct (ds_reverse spec); rewrite ?length_reverse; done).
  split; [done|]. split; [done|].
  assert (∀ k i, k ≤ n → (spec.(ds_reverse) = true → 2 ≤ k) →
    tcp_receive (tcp_seq bytes) (take k segs) !! i =
      if (if spec.(ds_reverse) then (n - k) * chunk <=? i else i <? k * chunk)
      then tcp_body bytes !! i else None) as Hrcv.
  { intros k i Hk Hk2. unfold segs. destruct (ds_reverse spec) eqn:Er.
    - apply seg_built_reverse; auto.
    - by apply seg_built_ordered. }
  split; [done|]. intros i. specialize (Hrcv n i (le_n _) ltac:(intros; lia)).
  rewrite take_ge in Hrcv by lia. rewrite Hrcv.
  destruct (ds_reverse spec).
  - by rewrite Nat.sub_diag.
  - destruct (Nat.ltb_spec i (n * chunk)); [done|]. symmetry. apply lookup_ge_None_2. lia.
Qed.

(** Each segment is well formed. *)
Lemma split_segments_ok bytes spec segs :
  is_bytes bytes → (Z.of_nat (length bytes) ≤ 65535)%Z → pattern_bytes spec →
  splits_tcp bytes spec = true → split_tcp_payload bytes spec = Done segs →
  let n := seg_count bytes spec in
  let chunk := seg_chunk bytes spec in
  let stream i := if spec.(ds_reverse) then n - 1 - i else i in
  ∀ i f, segs !! i = Some f →
    segment_ok bytes (stream i * chunk) (if i =? 0 then seg_prefix bytes spec else [])
      (take chunk (drop (stream i * chunk) (tcp_body bytes))) (stream i =? n - 1) f.
Proof.
  intros Hb Hmax Hpat Hs. rewrite split_tcp_payload_splits by done. intros [= <-].
  intros n chunk stream i f Hf. pose proof (seg_chunk_facts bytes spec Hs) as (_ & Hn & Hlen).
  pose proof (length_seg_built bytes spec Hb Hmax Hpat Hs) as Hlb.
  subst stream. pose proof (lookup_lt_Some _ _ _ Hf) as Hi.
  destruct (ds_reverse spec) eqn:Er.
  - rewrite length_reverse in Hi. rewrite reverse_lookup, Hlb in Hf by lia.
    rewrite Hlb in Hi. fold n in Hf, Hi. replace (n - S i) with (n - 1 - i) in Hf by lia.
    apply seg_built_ok in Hf; [|done..]. unfold seg_ov in Hf. rewrite Er in Hf. fold n in Hf.
    replace (i =? 0) with (n - 1 - i =? n - 1); [exact Hf|].
    destruct (Nat.eqb_spec i 0), (Nat.eqb_spec (n - 1 - i) (n - 1)); lia.
  - apply seg_built_ok in Hf; [|done..]. unfold seg_ov in Hf. by rewrite Er in Hf.
Qed.


(** Twenty-byte headers, eleven payload bytes, three segments in reverse order
    behind a three-byte overlap prefix. *)
Definition sample_tcp : list Z :=
  [0x45; 0; 0; 51; 0xAB; 0xCD; 0x40; 0; 64; 6; 0; 0; 10; 0; 0; 1; 10; 0; 0; 2;
   0x13; 0x88; 1; 0xBB; 0xFF; 0xFF; 0xFF; 0xFA; 0; 0; 0; 9; 0x50; 0x18; 1; 0; 0; 0; 0; 0;
   22; 3; 1; 0; 6; 1; 2; 3; 4; 5; 6]%Z.
Definition sample_spec : DisorderSpec :=
  MkDisorderSpec 3 true 0 (Some (MkOverlapFake 3 None 7)).

