(* ===== verification/Rebuild.v ===== *)
(** * Parsing and rebuilding captured packets

    Model of [parse_view], [build_modified] and [append_tcp_options] of
    [crates/zerodpi-platform/src/linux.rs] and [windows.rs], and of
    [corrupt_tcp_checksum] of the latter.  The header codec is the etherparse
    library: its two header structs are records with the library's public
    fields, its functions are the operations of the class [Etherparse], and
    [EtherparseLaws] states what the library documents of them, in terms of
    the wire formats of RFC 791 and RFC 9293 ([ipv4_wire], [tcp_wire]). *)
From stdpp Require Import base list numbers.
From Stdlib Require Import ZArith Lia.
From S2P Require Import Prelude IpFragment Interceptor TcpSegment.

(** ** The header structs of etherparse *)
Record Ipv4Header := MkIpv4Header {
  ih_dscp : Z; ih_ecn : Z;
  ih_total_len : Z;
  ih_identification : Z;
  ih_dont_fragment : bool; ih_more_fragments : bool; ih_fragment_offset : Z;
  ih_time_to_live : Z;
  ih_protocol : Z;
  ih_header_checksum : Z;
  ih_source : Z; ih_destination : Z;
  ih_options : list Z }.

Record TcpHeader := MkTcpHeader {
  th_source_port : Z; th_destination_port : Z;
  th_sequence_number : Z; th_acknowledgment_number : Z;
  th_ns : bool; th_fin : bool; th_syn : bool; th_rst : bool; th_psh : bool;
  th_ack : bool; th_urg : bool; th_ece : bool; th_cwr : bool;
  th_window_size : Z;
  th_checksum : Z;
  th_urgent_pointer : Z;
  th_options : list Z }.

(** [Ipv4Header::header_len] and [TcpHeader::header_len]. *)
Definition ipv4_header_len (h : Ipv4Header) : nat := 20 + length h.(ih_options).
Definition tcp_header_len (t : TcpHeader) : nat := 20 + length t.(th_options).

Definition set_ip_checksum (c : Z) (h : Ipv4Header) : Ipv4Header :=
  MkIpv4Header h.(ih_dscp) h.(ih_ecn) h.(ih_total_len) h.(ih_identification)
    h.(ih_dont_fragment) h.(ih_more_fragments) h.(ih_fragment_offset) h.(ih_time_to_live)
    h.(ih_protocol) c h.(ih_source) h.(ih_destination) h.(ih_options).
Definition set_ip_total_len (n : Z) (h : Ipv4Header) : Ipv4Header :=
  MkIpv4Header h.(ih_dscp) h.(ih_ecn) n h.(ih_identification)
    h.(ih_dont_fragment) h.(ih_more_fragments) h.(ih_fragment_offset) h.(ih_time_to_live)
    h.(ih_protocol) h.(ih_header_checksum) h.(ih_source) h.(ih_destination) h.(ih_options).
Definition set_tcp_checksum (c : Z) (t : TcpHeader) : TcpHeader :=
  MkTcpHeader t.(th_source_port) t.(th_destination_port) t.(th_sequence_number)
    t.(th_acknowledgment_number) t.(th_ns) t.(th_fin) t.(th_syn) t.(th_rst) t.(th_psh)
    t.(th_ack) t.(th_urg) t.(th_ece) t.(th_cwr) t.(th_window_size) c t.(th_urgent_pointer)
    t.(th_options).
Definition set_tcp_options (o : list Z) (t : TcpHeader) : TcpHeader :=
  MkTcpHeader t.(th_source_port) t.(th_destination_port) t.(th_sequence_number)
    t.(th_acknowledgment_number) t.(th_ns) t.(th_fin) t.(th_syn) t.(th_rst) t.(th_psh)
    t.(th_ack) t.(th_urg) t.(th_ece) t.(th_cwr) t.(th_window_size) t.(th_checksum)
    t.(th_urgent_pointer) o.

(** ** The wire formats *)
Definition ipv4_wire (h : Ipv4Header) : list Z :=
  [64 + Z.of_nat (ipv4_header_len h / 4); h.(ih_dscp) * 4 + h.(ih_ecn)]%Z ++
  to_be16 h.(ih_total_len) ++ to_be16 h.(ih_identification) ++
  to_be16 (Z.b2z h.(ih_dont_fragment) * 2 ^ 14 + Z.b2z h.(ih_more_fragments) * 2 ^ 13 +
           h.(ih_fragment_offset)) ++
  [h.(ih_time_to_live); h.(ih_protocol)] ++ to_be16 h.(ih_header_checksum) ++
  to_be32 h.(ih_source) ++ to_be32 h.(ih_destination) ++ h.(ih_options).

Definition flags_byte (t : TcpHeader) : Z :=
  Z.b2z t.(th_fin) + 2 * (Z.b2z t.(th_syn) + 2 * (Z.b2z t.(th_rst) + 2 * (Z.b2z t.(th_psh) +
  2 * (Z.b2z t.(th_ack) + 2 * (Z.b2z t.(th_urg) + 2 * (Z.b2z t.(th_ece) +
  2 * Z.b2z t.(th_cwr))))))).

Definition tcp_wire (t : TcpHeader) : list Z :=
  to_be16 t.(th_source_port) ++ to_be16 t.(th_destination_port) ++
  to_be32 t.(th_sequence_number) ++ to_be32 t.(th_acknowledgment_number) ++
  [Z.of_nat (tcp_header_len t / 4) * 16 + Z.b2z t.(th_ns); flags_byte t]%Z ++
  to_be16 t.(th_window_size) ++ to_be16 t.(th_checksum) ++ to_be16 t.(th_urgent_pointer) ++
  t.(th_options).

Record options_wf (o : list Z) : Prop := {
  ow_bytes : is_bytes o; ow_max : length o ≤ 40; ow_align : length o mod 4 = 0 }.

Record ip_wf (h : Ipv4Header) : Prop := {
  iw_dscp : (0 ≤ h.(ih_dscp) < 64)%Z; iw_ecn : (0 ≤ h.(ih_ecn) < 4)%Z;
  iw_total : is_u16 h.(ih_total_len); iw_ident : is_u16 h.(ih_identification);
  iw_offset : (0 ≤ h.(ih_fragment_offset) < 2 ^ 13)%Z;
  iw_ttl : is_u8 h.(ih_time_to_live); iw_protocol : is_u8 h.(ih_protocol);
  iw_checksum : is_u16 h.(ih_header_checksum);
  iw_source : is_u32 h.(ih_source); iw_destination : is_u32 h.(ih_destination);
  iw_options : options_wf h.(ih_options) }.

Record tcp_wf (t : TcpHeader) : Prop := {
  tw_source : is_u16 t.(th_source_port); tw_destination : is_u16 t.(th_destination_port);
  tw_seq : is_u32 t.(th_sequence_number); tw_ack : is_u32 t.(th_acknowledgment_number);
  tw_window : is_u16 t.(th_window_size); tw_checksum : is_u16 t.(th_checksum);
  tw_urgent : is_u16 t.(th_urgent_pointer); tw_options : options_wf t.(th_options) }.

(** ** The library *)
Class Etherparse := {
  (* [Ipv4HeaderSlice::from_slice] and the accessors of the slice; likewise for TCP *)
  Ipv4HeaderSlice_from_slice : list Z → option Ipv4Header;
  TcpHeaderSlice_from_slice : list Z → option TcpHeader;
  (* [Ipv4Header::from_slice(..)?.0] and [TcpHeader::from_slice(..)?.0] *)
  Ipv4Header_from_slice : list Z → option Ipv4Header;
  TcpHeader_from_slice : list Z → option TcpHeader;
  set_options_raw : TcpHeader → list Z → option TcpHeader;
  set_payload_len : Ipv4Header → nat → option Ipv4Header;
  calc_header_checksum : Ipv4Header → Z;
  calc_checksum_ipv4 : TcpHeader → Ipv4Header → list Z → option Z;
  Ipv4Header_write : Ipv4Header → option (list Z);
  TcpHeader_write : TcpHeader → option (list Z) }.

(** Options are padded with zeros (end of options) to a multiple of four. *)
Definition pad4 (o : list Z) : list Z := o ++ replicate ((4 - length o mod 4) mod 4) 0%Z.

Class EtherparseLaws `{Etherparse} : Prop := {
  ip_slice_wire h rest : ip_wf h → Ipv4HeaderSlice_from_slice (ipv4_wire h ++ rest) = Some h;
  tcp_slice_wire t rest : tcp_wf t → TcpHeaderSlice_from_slice (tcp_wire t ++ rest) = Some t;
  ip_header_wire h rest : ip_wf h → Ipv4Header_from_slice (ipv4_wire h ++ rest) = Some h;
  tcp_header_wire t rest : tcp_wf t → TcpHeader_from_slice (tcp_wire t ++ rest) = Some t;
  set_options_raw_law t o :
    set_options_raw t o = if length o <=? 40 then Some (set_tcp_options (pad4 o) t) else None;
  set_payload_len_law h n :
    set_payload_len h n =
      if (Z.of_nat (ipv4_header_len h + n) <=? 65535)%Z
      then Some (set_ip_total_len (Z.of_nat (ipv4_header_len h + n)) h) else None;
  calc_header_checksum_law h :
    ip_wf h → calc_header_checksum h = ipv4_header_checksum (ipv4_wire (set_ip_checksum 0 h));
  calc_checksum_ipv4_law t h payload :
    ip_wf h → tcp_wf t → is_bytes payload →
    (Z.of_nat (ipv4_header_len h + (tcp_header_len t + length payload)) ≤ 65535)%Z →
    ∃ c, calc_checksum_ipv4 t h payload = Some c ∧
      tcp_checksum (ipv4_wire h ++ tcp_wire (set_tcp_checksum 0 t) ++ payload)
        (ipv4_header_len h) (tcp_header_len t) = Done c;
  ip_write_law h :
    ip_wf h → Ipv4Header_write h = Some (ipv4_wire (set_ip_checksum (calc_header_checksum h) h));
  tcp_write_law t : tcp_wf t → TcpHeader_write t = Some (tcp_wire t) }.

(** ** The operations *)
Record PacketLayout := MkPacketLayout {
  pl_ip_hdr_len : nat; pl_tcp_hdr_len : nat; pl_payload_off : nat; pl_total_len : nat }.

(** [(n + 3) & !3] *)
Definition round_up4 (n : nat) : nat := Z.to_nat (Z.land (Z.of_nat (n + 3)) (Z.lnot 3)).

Definition TCP : Z := 6.
Definition TCP_MIN_LEN : nat := 20.
Definition TCP_MAX_LEN : nat := 60.

(** The view of a parsed packet, nothing staged. *)
Definition fresh_view (direction : Direction) (ip : Ipv4Header) (tcp : TcpHeader)
    (payload tcp_options : list Z) (payload_len : nat) : PacketView :=
  MkPacketView direction ip.(ih_source) ip.(ih_destination) tcp.(th_source_port)
    tcp.(th_destination_port) tcp.(th_sequence_number) tcp.(th_acknowledgment_number)
    (MkTcpFlags tcp.(th_syn) tcp.(th_ack) tcp.(th_psh) tcp.(th_rst) tcp.(th_fin) tcp.(th_urg))
    payload_len payload tcp_options
    None None None None None None [] false None false None None None None.

(** The assignments to the two headers in [build_modified]. *)
Definition stage_tcp (view : PacketView) (t : TcpHeader) : TcpHeader :=
  MkTcpHeader t.(th_source_port) t.(th_destination_port)
    (default t.(th_sequence_number) view.(pv_new_seq))
    (default t.(th_acknowledgment_number) view.(pv_new_ack))
    t.(th_ns)
    (from_option f_fin t.(th_fin) view.(pv_new_flags))
    (from_option f_syn t.(th_syn) view.(pv_new_flags))
    (from_option f_rst t.(th_rst) view.(pv_new_flags))
    (from_option f_psh t.(th_psh) view.(pv_new_flags))
    (from_option f_ack t.(th_ack) view.(pv_new_flags))
    (from_option f_urg t.(th_urg) view.(pv_new_flags))
    t.(th_ece) t.(th_cwr) t.(th_window_size) t.(th_checksum)
    (default t.(th_urgent_pointer) view.(pv_new_urgent_pointer))
    t.(th_options).

Definition stage_ip (view : PacketView) (h : Ipv4Header) : Ipv4Header :=
  MkIpv4Header h.(ih_dscp) h.(ih_ecn) h.(ih_total_len)
    (if view.(pv_bump_ipv4_ident) then wadd16 h.(ih_identification) 1 else h.(ih_identification))
    h.(ih_dont_fragment) h.(ih_more_fragments) h.(ih_fragment_offset)
    (default h.(ih_time_to_live) view.(pv_new_ipv4_ttl))
    h.(ih_protocol) h.(ih_header_checksum) h.(ih_source) h.(ih_destination) h.(ih_options).

Section operations.
Context `{Etherparse}.

Definition parse_view (direction : Direction) (buf : list Z)
    : exec (option (PacketView * PacketLayout)) :=
  let? ip := Ipv4HeaderSlice_from_slice buf in
  if negb (ip.(ih_protocol) =? TCP)%Z then Done None else
  let ip_hdr_len := ipv4_header_len ip in
  let! tcp_buf := slice buf ip_hdr_len (length buf) in
  let? tcp := TcpHeaderSlice_from_slice tcp_buf in
  let tcp_hdr_len := tcp_header_len tcp in
  let total_len := Z.to_nat ip.(ih_total_len) in
  let payload_off := ip_hdr_len + tcp_hdr_len in
  let tcp_options_off := ip_hdr_len + TCP_MIN_LEN in
  let payload_len := total_len - payload_off in
  let! payload := slice buf payload_off (payload_off + payload_len) in
  let! tcp_options := slice buf tcp_options_off payload_off in
  Done (Some (fresh_view direction ip tcp payload tcp_options payload_len,
              MkPacketLayout ip_hdr_len tcp_hdr_len payload_off total_len)).

Definition append_tcp_options (t : TcpHeader) (append : list Z) : option TcpHeader :=
  if (length append =? 0) then Some t else
  let original := t.(th_options) in
  let padded_len := round_up4 (length original + length append) in
  let max_options_len := TCP_MAX_LEN - TCP_MIN_LEN in
  if (max_options_len <? padded_len) then None else
  set_options_raw t (original ++ append).

(** The common part of the two backends' [build_modified]: [corrupt] is
    what is added to the finished TCP checksum. *)
Definition rebuild (corrupt : option Z) (orig : list Z) (layout : PacketLayout)
    (view : PacketView) : exec (option (list Z)) :=
  let! ip_bytes := slice orig 0 layout.(pl_ip_hdr_len) in
  let? ip_hdr := Ipv4Header_from_slice ip_bytes in
  let! tcp_bytes := slice orig layout.(pl_ip_hdr_len)
                      (layout.(pl_ip_hdr_len) + layout.(pl_tcp_hdr_len)) in
  let? tcp_hdr := TcpHeader_from_slice tcp_bytes in
  let! new_payload := match view.(pv_new_payload) with
                      | Some p => Done p
                      | None => slice orig layout.(pl_payload_off) layout.(pl_total_len)
                      end in
  let tcp_hdr := stage_tcp view tcp_hdr in
  let ip_hdr := stage_ip view ip_hdr in
  let? tcp_hdr := match view.(pv_replace_tcp_options) with
                  | Some options => set_options_raw tcp_hdr options
                  | None => Some tcp_hdr
                  end in
  let? tcp_hdr := append_tcp_options tcp_hdr view.(pv_append_tcp_options) in
  let new_tcp_hdr_len := tcp_header_len tcp_hdr in
  let? ip_hdr := set_payload_len ip_hdr (new_tcp_hdr_len + length new_payload) in
  let ip_hdr := set_ip_checksum (calc_header_checksum ip_hdr) ip_hdr in
  let? c := calc_checksum_ipv4 tcp_hdr ip_hdr new_payload in
  let tcp_hdr := set_tcp_checksum (from_option (wadd16 c) c corrupt) tcp_hdr in
  let? ip_out := Ipv4Header_write ip_hdr in
  let? tcp_out := TcpHeader_write tcp_hdr in
  Done (Some (ip_out ++ tcp_out ++ new_payload)).

(** [linux.rs] adds the corruption while it builds; [windows.rs] leaves it to
    [corrupt_tcp_checksum]. *)
Definition nfq_build_modified (orig : list Z) (layout : PacketLayout) (view : PacketView)
    : exec (option (list Z)) :=
  rebuild view.(pv_corrupt_tcp_checksum_delta) orig layout view.
Definition divert_build_modified (orig : list Z) (layout : PacketLayout) (view : PacketView)
    : exec (option (list Z)) :=
  rebuild None orig layout view.
End operations.

(** [corrupt_tcp_checksum]; [None] where the code bails out and leaves the
    buffer as it is. *)
Definition corrupt_tcp_checksum (buf : list Z) (layout : PacketLayout) (delta : Z)
    : exec (option (list Z)) :=
  let checksum_off := layout.(pl_ip_hdr_len) + 16 in
  if (length buf <? checksum_off + 2) then Done None else
  let! b0 := idx buf checksum_off in
  let! b1 := idx buf (checksum_off + 1) in
  let corrupted := wadd16 (from_be16 b0 b1) delta in
  let! buf := blit buf checksum_off (checksum_off + 2) (to_be16 corrupted) in
  Done (Some buf).

(** ** Captured packets *)

(** A well-formed TCP packet as the queue delivers it. *)
Definition packet (ip : Ipv4Header) (tcp : TcpHeader) (payload : list Z) : list Z :=
  ipv4_wire ip ++ tcp_wire tcp ++ payload.
Record packet_wf (ip : Ipv4Header) (tcp : TcpHeader) (payload : list Z) : Prop := {
  kw_ip : ip_wf ip; kw_tcp : tcp_wf tcp; kw_payload : is_bytes payload;
  kw_protocol : ip.(ih_protocol) = TCP;
  kw_total : ip.(ih_total_len) =
    Z.of_nat (ipv4_header_len ip + tcp_header_len tcp + length payload) }.

Definition layout_of (ip : Ipv4Header) (tcp : TcpHeader) (payload : list Z) : PacketLayout :=
  MkPacketLayout (ipv4_header_len ip) (tcp_header_len tcp)
    (ipv4_header_len ip + tcp_header_len tcp)
    (ipv4_header_len ip + tcp_header_len tcp + length payload).

(** What a method may stage. *)
Record staged_ok (v : PacketView) : Prop := {
  so_new_seq : from_option is_u32 True v.(pv_new_seq);
  so_new_ack : from_option is_u32 True v.(pv_new_ack);
  so_new_urgent : from_option is_u16 True v.(pv_new_urgent_pointer);
  so_new_ttl : from_option is_u8 True v.(pv_new_ipv4_ttl);
  so_new_payload : from_option is_bytes True v.(pv_new_payload);
  so_replace : from_option is_bytes True v.(pv_replace_tcp_options);
  so_append : is_bytes v.(pv_append_tcp_options) }.

(** The options, the payload and the headers the rebuilt packet has. *)
Definition new_options (v : PacketView) (t : TcpHeader) : list Z :=
  let o := from_option pad4 t.(th_options) v.(pv_replace_tcp_options) in
  if (length v.(pv_append_tcp_options) =? 0) then o else pad4 (o ++ v.(pv_append_tcp_options)).
Definition options_fit (v : PacketView) (t : TcpHeader) : bool :=
  length (new_options v t) <=? 40.
Definition sent_payload (v : PacketView) (payload : list Z) : list Z :=
  default payload v.(pv_new_payload).

Definition new_tcp (v : PacketView) (t : TcpHeader) : TcpHeader :=
  set_tcp_options (new_options v t) (stage_tcp v t).
Definition new_size (v : PacketView) (ip : Ipv4Header) (t : TcpHeader) (payload : list Z) : nat :=
  ipv4_header_len ip + (tcp_header_len (new_tcp v t) + length (sent_payload v payload)).
Definition new_ip (v : PacketView) (ip : Ipv4Header) (t : TcpHeader) (payload : list Z)
    : Ipv4Header :=
  let h := set_ip_total_len (Z.of_nat (new_size v ip t payload)) (stage_ip v ip) in
  set_ip_checksum (ipv4_header_checksum (ipv4_wire (set_ip_checksum 0 h))) h.

(** The checksum of a packet, and what [rebuild] makes of it: the modified
    packet, or nothing when the options or the packet grow too large. *)
Definition checksum_of (ip : Ipv4Header) (t : TcpHeader) (payload : list Z) : Z :=
  match tcp_checksum (packet ip (set_tcp_checksum 0 t) payload)
          (ipv4_header_len ip) (tcp_header_len t) with
  | Done c => c
  | Panic => 0%Z
  end.
Definition modified (corrupt : option Z) (v : PacketView) (ip : Ipv4Header) (t : TcpHeader)
    (payload : list Z) : list Z :=
  let ip' := new_ip v ip t payload in
  let c := checksum_of ip' (new_tcp v t) (sent_payload v payload) in
  packet ip' (set_tcp_checksum (from_option (wadd16 c) c corrupt) (new_tcp v t))
    (sent_payload v payload).
Definition rebuildable (v : PacketView) (ip : Ipv4Header) (t : TcpHeader) (payload : list Z)
    : bool :=
  options_fit v t && (Z.of_nat (new_size v ip t payload) <=? 65535)%Z.

(** ** Sizes and bytes *)
Lemma round_up4_spec n : round_up4 n = 4 * ((n + 3) / 4).
Proof.
  unfold round_up4. change 3%Z with (Z.ones 2).
  rewrite <- Z.ldiff_land, Z.ldiff_ones_r, Z.shiftl_mul_pow2, Z.shiftr_div_pow2 by lia.
  change (2 ^ 2)%Z with (Z.of_nat 4). rewrite <- Nat2Z.inj_div. lia.
Qed.

Lemma length_pad4 o : length (pad4 o) = round_up4 (length o).
Proof.
  unfold pad4. rewrite length_app, length_replicate, round_up4_spec.
  pose proof (Nat.mod_upper_bound (length o) 4) as Hr. pose proof (Nat.div_mod_eq (length o) 4) as E.
  set (q := length o / 4) in *. set (r := length o mod 4) in *.
  assert ((length o + 3) / 4 = q + (r + 3) / 4) as ->
    by (rewrite E; replace (4 * q + r + 3) with (q * 4 + (r + 3)) by lia; by rewrite Nat.div_add_l).
  destruct r as [|[|[|[|r]]]]; simpl; lia.
Qed.

Lemma pad4_bytes o : is_bytes o → is_bytes (pad4 o).
Proof. intros. unfold pad4. apply is_bytes_app. auto with zdpi. Qed.

Lemma pad4_fits o : (length (pad4 o) <=? 40) = (length o <=? 40).
Proof.
  rewrite length_pad4, round_up4_spec.
  pose proof (Nat.div_mod_eq (length o + 3) 4). pose proof (Nat.mod_upper_bound (length o + 3) 4).
  destruct (Nat.leb_spec (length o) 40), (Nat.leb_spec (4 * ((length o + 3) / 4)) 40); lia.
Qed.

Lemma pad4_wf o : is_bytes o → length o ≤ 40 → options_wf (pad4 o).
Proof.
  intros Hb Hl. constructor; [by apply pad4_bytes| |].
  - apply Nat.leb_le. rewrite pad4_fits. by apply Nat.leb_le.
  - rewrite length_pad4, round_up4_spec, Nat.mul_comm. apply Nat.Div0.mod_mul.
Qed.

Lemma length_ipv4_wire h : length (ipv4_wire h) = ipv4_header_len h.
Proof. unfold ipv4_wire, ipv4_header_len. by rewrite !length_app. Qed.
Lemma length_tcp_wire t : length (tcp_wire t) = tcp_header_len t.
Proof. unfold tcp_wire, tcp_header_len. by rewrite !length_app. Qed.
Lemma length_packet ip t payload :
  length (packet ip t payload) = ipv4_header_len ip + tcp_header_len t + length payload.
Proof. unfold packet. rewrite !length_app, length_ipv4_wire, length_tcp_wire. lia. Qed.
#[export] Hint Rewrite length_pad4 length_ipv4_wire length_tcp_wire length_packet : lens.

Lemma hdr_len_4 (o : list Z) : options_wf o → (20 + length o) mod 4 = 0 ∧ 5 ≤ (20 + length o) / 4 ≤ 15.
Proof.
  intros [_ Hm Ha].
  pose proof (Nat.div_mod_eq (length o) 4). replace (20 + length o) with (length o / 4 * 4 + 5 * 4) by lia.
  rewrite <- Nat.mul_add_distr_r, Nat.Div0.mod_mul, Nat.div_mul by lia. lia.
Qed.

Lemma is_bytes_pair a b : is_u8 a → is_u8 b → is_bytes [a; b].
Proof. intros. apply Forall_cons_2; [done|]. by apply Forall_singleton. Qed.

Lemma ipv4_wire_bytes h : ip_wf h → is_bytes (ipv4_wire h).
Proof.
  intros []. pose proof (hdr_len_4 _ iw_options0) as [_ H].
  unfold ipv4_wire. repeat (apply is_bytes_app; split); auto using to_be16_bytes, to_be32_bytes.
  - apply is_bytes_pair; unfold is_u8, ipv4_header_len; lia.
  - by apply is_bytes_pair.
  - by destruct iw_options0.
Qed.

Lemma flags_byte_u8 t : is_u8 (flags_byte t).
Proof. unfold flags_byte, is_u8. destruct (th_fin t), (th_syn t), (th_rst t), (th_psh t),
  (th_ack t), (th_urg t), (th_ece t), (th_cwr t); simpl; lia. Qed.

Lemma tcp_wire_bytes t : tcp_wf t → is_bytes (tcp_wire t).
Proof.
  intros []. pose proof (hdr_len_4 _ tw_options0) as [_ H].
  unfold tcp_wire. repeat (apply is_bytes_app; split); auto using to_be16_bytes, to_be32_bytes.
  - apply is_bytes_pair; [|apply flags_byte_u8].
    unfold is_u8, tcp_header_len. destruct (th_ns t); cbn [Z.b2z]; lia.
  - by destruct tw_options0.
Qed.
#[export] Hint Resolve pad4_bytes ipv4_wire_bytes tcp_wire_bytes : zdpi.

Lemma packet_bytes ip t payload :
  ip_wf ip → tcp_wf t → is_bytes payload → is_bytes (packet ip t payload).
Proof. intros. unfold packet. rewrite !is_bytes_app. auto with zdpi. Qed.
#[export] Hint Resolve packet_bytes : zdpi.

(** ** Fields on the wire *)
Lemma to_be16_set c : to_be16 c = [as_u8 (Z.shiftr c 8); as_u8 c].
Proof. unfold to_be16, as_u8. by rewrite Z.shiftr_div_pow2 by lia. Qed.

Lemma ipv4_wire_checksum c h :
  ipv4_wire (set_ip_checksum c h) = set_checksum (ipv4_wire (set_ip_checksum 0 h)) 10 c.
Proof. unfold ipv4_wire at 1. cbn [ih_header_checksum set_ip_checksum]. by rewrite (to_be16_set c). Qed.

Lemma tcp_wire_checksum c t :
  tcp_wire (set_tcp_checksum c t) = set_checksum (tcp_wire (set_tcp_checksum 0 t)) 16 c.
Proof. unfold tcp_wire at 1. cbn [th_checksum set_tcp_checksum]. by rewrite (to_be16_set c). Qed.

Lemma ip_checksum_fresh c h : set_ip_checksum c (set_ip_checksum 0 h) = set_ip_checksum c h.
Proof. by destruct h. Qed.

Lemma ip_checksum_verifies h :
  ip_wf h →
  ipv4_header_checksum (ipv4_wire
    (set_ip_checksum (ipv4_header_checksum (ipv4_wire (set_ip_checksum 0 h))) h)) = 0%Z.
Proof.
  intros Hw. rewrite ipv4_wire_checksum. pose proof (hdr_len_4 _ (iw_options h Hw)) as [_ ?].
  pose proof (ow_max _ (iw_options h Hw)).
  apply checksum_verifies; try done.
  - apply ipv4_wire_bytes. destruct Hw; by constructor.
  - rewrite length_ipv4_wire. unfold ipv4_header_len. simpl. lia.
Qed.

Section fields.
Context (ip : Ipv4Header) (t : TcpHeader) (payload : list Z).
Context (Hip : ip_wf ip) (Ht : tcp_wf t).

Lemma packet_ihl : frag_ihl (packet ip t payload) = ipv4_header_len ip.
Proof.
  unfold frag_ihl. change (packet ip t payload !!! 0) with
    (64 + Z.of_nat (ipv4_header_len ip / 4))%Z.
  pose proof (hdr_len_4 _ (iw_options ip Hip)) as [Hm Hb]. unfold ipv4_header_len.
  change 15%Z with (Z.ones 4). rewrite Z.land_ones by lia.
  replace (64 + Z.of_nat ((20 + length (ih_options ip)) / 4))%Z with
    (Z.of_nat ((20 + length (ih_options ip)) / 4) + 4 * 2 ^ 4)%Z by lia.
  rewrite Z.mod_add, Z.mod_small, Nat2Z.id by lia.
  pose proof (Nat.div_mod_eq (20 + length (ih_options ip)) 4). lia.
Qed.

Lemma packet_tcp_lookup k :
  packet ip t payload !!! (ipv4_header_len ip + k) = (tcp_wire t ++ payload) !!! k.
Proof.
  rewrite !list_lookup_total_alt. unfold packet.
  rewrite lookup_app_r by (rewrite length_ipv4_wire; lia). by rewrite length_ipv4_wire, Nat.add_comm, Nat.add_sub.
Qed.

Lemma packet_tcp_hdr : tcp_hdr (packet ip t payload) = tcp_header_len t.
Proof.
  unfold tcp_hdr. rewrite packet_ihl, packet_tcp_lookup.
  change ((tcp_wire t ++ payload) !!! 12) with
    (Z.of_nat (tcp_header_len t / 4) * 16 + Z.b2z (th_ns t))%Z.
  pose proof (hdr_len_4 _ (tw_options t Ht)) as [Hm Hb]. unfold tcp_header_len.
  rewrite Z.shiftr_div_pow2 by lia. change (2 ^ 4)%Z with 16%Z.
  rewrite Z.div_add_l by lia. rewrite Z.div_small, Z.add_0_r, Nat2Z.id by (destruct (th_ns t); cbn [Z.b2z]; lia).
  pose proof (Nat.div_mod_eq (20 + length (th_options t)) 4). lia.
Qed.

Lemma packet_tcp_off : tcp_off (packet ip t payload) = ipv4_header_len ip + tcp_header_len t.
Proof. unfold tcp_off. by rewrite packet_ihl, packet_tcp_hdr. Qed.

Lemma packet_drop_ip : drop (ipv4_header_len ip) (packet ip t payload) = tcp_wire t ++ payload.
Proof. unfold packet. by rewrite <- length_ipv4_wire, drop_app_length. Qed.

Lemma packet_tcp_body : tcp_body (packet ip t payload) = payload.
Proof.
  unfold tcp_body. rewrite packet_tcp_off, <- drop_drop, packet_drop_ip.
  by rewrite <- length_tcp_wire, drop_app_length.
Qed.

Lemma packet_tcp_seq : tcp_seq (packet ip t payload) = t.(th_sequence_number).
Proof.
  unfold tcp_seq. rewrite packet_ihl, !packet_tcp_lookup. apply be32_roundtrip. by destruct Ht.
Qed.

Lemma packet_total_len :
  frag_total_len (packet ip t payload) = ip.(ih_total_len).
Proof. apply be16_roundtrip. by destruct Hip. Qed.
End fields.

(** ** Parsing and rebuilding *)
Lemma slice_app_r {A} (l1 l2 : list A) : slice (l1 ++ l2) (length l1) (length (l1 ++ l2)) = Done l2.
Proof. by apply (slice_mid l1 l2 []); rewrite ?app_nil_r, ?length_app. Qed.

Section spec.
Context `{EtherparseLaws}.
Context (ip : Ipv4Header) (t : TcpHeader) (payload : list Z) (Hk : packet_wf ip t payload).
Let Hip : ip_wf ip := kw_ip _ _ _ Hk.
Let Ht : tcp_wf t := kw_tcp _ _ _ Hk.

Lemma total_len_nat :
  Z.to_nat ip.(ih_total_len) = ipv4_header_len ip + tcp_header_len t + length payload.
Proof. rewrite (kw_total _ _ _ Hk). lia. Qed.

Lemma packet_payload_slice :
  slice (packet ip t payload) (ipv4_header_len ip + tcp_header_len t)
    (ipv4_header_len ip + tcp_header_len t + length payload) = Done payload.
Proof.
  apply (slice_mid (ipv4_wire ip ++ tcp_wire t) payload []); [|by autorewrite with lens|done].
  by rewrite app_nil_r, <- app_assoc.
Qed.

Lemma packet_options_slice :
  slice (packet ip t payload) (ipv4_header_len ip + TCP_MIN_LEN)
    (ipv4_header_len ip + tcp_header_len t) = Done t.(th_options).
Proof.
  apply (slice_mid (ipv4_wire ip ++ take 20 (tcp_wire t)) t.(th_options) payload).
  - by rewrite <- app_assoc.
  - by rewrite length_app, length_ipv4_wire.
  - unfold tcp_header_len, TCP_MIN_LEN. lia.
Qed.

Lemma parse_view_packet d :
  parse_view d (packet ip t payload) =
  Done (Some (fresh_view d ip t payload t.(th_options) (length payload), layout_of ip t payload)).
Proof.
  unfold parse_view. unfold packet at 1. rewrite ip_slice_wire by done. cbn [try_opt].
  rewrite (kw_protocol _ _ _ Hk), Z.eqb_refl. cbn [negb].
  rewrite <- length_ipv4_wire at 1. unfold packet at 1 2. rewrite slice_app_r. cbn [exec_bind].
  rewrite tcp_slice_wire by done. cbn [try_opt]. rewrite total_len_nat.
  replace (ipv4_header_len ip + tcp_header_len t + length payload -
    (ipv4_header_len ip + tcp_header_len t)) with (length payload) by lia.
  rewrite packet_payload_slice. cbn [exec_bind]. rewrite packet_options_slice. done.
Qed.

(** *** The new headers *)
Context (v : PacketView) (Hv : staged_ok v).

Lemma new_options_wf : options_fit v t = true → options_wf (new_options v t).
Proof.
  unfold options_fit, new_options. intros Hf%Nat.leb_le.
  pose proof (tw_options _ Ht) as Ho. pose proof (ow_bytes _ Ho).
  destruct Hv as [_ _ _ _ _ Hr Ha].
  set (o := from_option pad4 _ _) in *.
  assert (is_bytes o) by (subst o; destruct (pv_replace_tcp_options v); simpl in *; auto with zdpi).
  destruct (length (pv_append_tcp_options v) =? 0).
  - subst o. destruct (pv_replace_tcp_options v) as [r|]; simpl in *; [|done].
    apply pad4_wf; [done|]. apply Nat.leb_le. rewrite <- pad4_fits. by apply Nat.leb_le.
  - apply pad4_wf; [by apply is_bytes_app|]. apply Nat.leb_le. rewrite <- pad4_fits.
    by apply Nat.leb_le.
Qed.

Lemma new_tcp_wf c : options_fit v t = true → is_u16 c → tcp_wf (set_tcp_checksum c (new_tcp v t)).
Proof.
  intros Hf%new_options_wf Hc. destruct Ht, Hv. constructor; simpl; try done.
  - by destruct (pv_new_seq v).
  - by destruct (pv_new_ack v).
  - by destruct (pv_new_urgent_pointer v).
Qed.

Lemma set_ip_checksum_wf h c : ip_wf h → is_u16 c → ip_wf (set_ip_checksum c h).
Proof. intros [] Hc. by constructor. Qed.

Lemma stage_ip_wf n : is_u16 n → ip_wf (set_ip_total_len n (stage_ip v ip)).
Proof.
  intros Hn. destruct Hip, Hv. constructor; simpl; try done.
  - destruct (pv_bump_ipv4_ident v); [apply wadd16_range|done].
  - by destruct (pv_new_ipv4_ttl v).
Qed.

Lemma sent_payload_bytes : is_bytes (sent_payload v payload).
Proof.
  unfold sent_payload. destruct Hv as [_ _ _ _ Hp _ _]. destruct (pv_new_payload v); simpl in *;
    [done|]. by destruct Hk.
Qed.

Lemma ipv4_checksum_u16 l : is_bytes l → length l ≤ 60 → is_u16 (ipv4_header_checksum l).
Proof.
  intros Hb Hl. pose proof (words_total_bounds l Hb) as [? ?].
  unfold ipv4_header_checksum. rewrite sum_words_total by (done || lia).
  apply finish_sum_range. lia.
Qed.

Lemma ip_checksum_u16 h :
  ip_wf h → is_u16 (ipv4_header_checksum (ipv4_wire (set_ip_checksum 0 h))).
Proof.
  intros Hh. assert (ip_wf (set_ip_checksum 0 h)) as Hz by by apply set_ip_checksum_wf.
  apply ipv4_checksum_u16; [by apply ipv4_wire_bytes|].
  rewrite length_ipv4_wire. unfold ipv4_header_len. pose proof (ow_max _ (iw_options _ Hz)). lia.
Qed.

Lemma new_ip_wf : rebuildable v ip t payload = true → ip_wf (new_ip v ip t payload).
Proof.
  intros [_ Hs%Z.leb_le]%andb_prop.
  assert (ip_wf (set_ip_total_len (Z.of_nat (new_size v ip t payload)) (stage_ip v ip)))
    by (apply stage_ip_wf; unfold is_u16; lia).
  apply set_ip_checksum_wf; [done|]. by apply ip_checksum_u16.
Qed.

Lemma rebuild_options :
  (let? t' := match v.(pv_replace_tcp_options) with
              | Some options => set_options_raw (stage_tcp v t) options
              | None => Some (stage_tcp v t)
              end in
   Done (append_tcp_options t' v.(pv_append_tcp_options))) =
  Done (if options_fit v t then Some (new_tcp v t) else None).
Proof.
  unfold options_fit, new_tcp, new_options, append_tcp_options.
  destruct (pv_replace_tcp_options v) as [r|]; cbn [from_option try_opt].
  - rewrite set_options_raw_law. destruct (Nat.leb_spec (length r) 40) as [Hr|Hr]; cbn [try_opt].
    + destruct (length (pv_append_tcp_options v) =? 0).
      * rewrite pad4_fits. by apply Nat.leb_le in Hr as ->.
      * cbn [th_options set_tcp_options]. rewrite set_options_raw_law, pad4_fits.
        rewrite <- length_app, <- length_pad4. unfold TCP_MAX_LEN, TCP_MIN_LEN.
        rewrite Nat.ltb_antisym. change (60 - 20) with 40. rewrite pad4_fits.
        by destruct (length _ <=? 40).
    + destruct (length (pv_append_tcp_options v) =? 0).
      * rewrite pad4_fits. by apply Nat.leb_gt in Hr as ->.
      * destruct (Nat.leb_spec (length (pad4 (pad4 r ++ pv_append_tcp_options v))) 40) as [Hc|]; [|done].
        apply Nat.leb_le in Hc. rewrite pad4_fits in Hc. apply Nat.leb_le in Hc.
        rewrite length_app in Hc. assert (length (pad4 r) ≤ 40) as Hp by lia.
        apply Nat.leb_le in Hp. rewrite pad4_fits in Hp. apply Nat.leb_le in Hp. lia.
  - destruct (length (pv_append_tcp_options v) =? 0).
    + pose proof (ow_max _ (tw_options _ Ht)) as Hm. apply Nat.leb_le in Hm as ->. by destruct t.
    + change (th_options (stage_tcp v t)) with (th_options t).
      rewrite set_options_raw_law, pad4_fits.
      rewrite <- length_app, <- length_pad4. unfold TCP_MAX_LEN, TCP_MIN_LEN.
      rewrite Nat.ltb_antisym. change (60 - 20) with 40. rewrite pad4_fits.
      by destruct (length _ <=? 40).
Qed.
End spec.

(** ** Checksums *)
Section checksum.
Context (ip : Ipv4Header) (t : TcpHeader) (payload : list Z).
Context (Hip : ip_wf ip) (Ht : tcp_wf t) (Hp : is_bytes payload).
Context (Hs : (Z.of_nat (length (packet ip t payload)) ≤ 65535)%Z).

Lemma packet_hdr_bounds : 20 ≤ ipv4_header_len ip ≤ 60 ∧ 20 ≤ tcp_header_len t.
Proof.
  pose proof (ow_max _ (iw_options _ Hip)). unfold ipv4_header_len, tcp_header_len. lia.
Qed.

Lemma packet_checksum :
  ∃ pseudo, (0 ≤ pseudo ≤ 5 * 65535 + 6)%Z ∧ ∀ c,
    tcp_checksum (packet ip (set_tcp_checksum c t) payload)
      (ipv4_header_len ip) (tcp_header_len t) =
    Done (finish_sum (sum_words (tcp_wire (set_tcp_checksum c t) ++ payload) pseudo)).
Proof.
  pose proof packet_hdr_bounds as [Hi Hth]. rewrite length_packet in Hs.
  set (l := as_u16 (Z.of_nat (tcp_header_len t + length payload))).
  exists (seg_pseudo (packet ip t payload) l). split.
  - assert (∀ k, k < 19 → is_u16 (word_at (packet ip t payload) k)) as Hw.
    { intros k Hk. apply (word_at_range _ (ipv4_header_len ip) (tcp_header_len t) [] payload);
        rewrite ?length_packet; cbn [length]; try lia. auto with zdpi. }
    pose proof (Hw 12 ltac:(lia)). pose proof (Hw 14 ltac:(lia)).
    pose proof (Hw 16 ltac:(lia)). pose proof (Hw 18 ltac:(lia)).
    pose proof (as_u16_range (Z.of_nat (tcp_header_len t + length payload))).
    unfold seg_pseudo, is_u16 in *. lia.
  - intros c. assert (length (packet ip (set_tcp_checksum c t) payload) =
      ipv4_header_len ip + tcp_header_len t + length payload) as Hl
      by exact (length_packet ip (set_tcp_checksum c t) payload).
    rewrite (tcp_checksum_done (packet ip t payload) _ _ [] payload);
      rewrite ?length_packet; cbn [length]; try lia.
    + rewrite packet_drop_ip. unfold l. do 5 f_equal.
      change (tcp_header_len (set_tcp_checksum c t)) with (tcp_header_len t). lia.
    + auto with zdpi.
    + change (tcp_header_len (set_tcp_checksum c t)) with (tcp_header_len t). lia.
    + intros k Hk. unfold packet. by rewrite !lookup_app_l by (rewrite length_ipv4_wire; lia).
Qed.

Lemma checksum_of_done :
  tcp_checksum (packet ip (set_tcp_checksum 0 t) payload) (ipv4_header_len ip) (tcp_header_len t) =
    Done (checksum_of ip t payload) ∧ is_u16 (checksum_of ip t payload).
Proof.
  destruct packet_checksum as (ps & Hps & Hc). unfold checksum_of. rewrite Hc. split; [done|].
  assert (tcp_wf (set_tcp_checksum 0 t)) as Hz by (destruct Ht; constructor; done).
  assert (is_bytes (tcp_wire (set_tcp_checksum 0 t) ++ payload)) as Hb
    by (apply is_bytes_app; auto with zdpi).
  pose proof (words_total_bounds _ Hb) as [? Hw].
  rewrite length_app, length_tcp_wire in Hw. rewrite length_packet in Hs.
  change (tcp_header_len (set_tcp_checksum 0 t)) with (tcp_header_len t) in Hw.
  rewrite sum_words_total by (done || lia). apply finish_sum_range. lia.
Qed.

(** The packet with its checksum filled in verifies at the receiver. *)
Lemma tcp_checksum_verifies :
  tcp_checksum (packet ip (set_tcp_checksum (checksum_of ip t payload) t) payload)
    (ipv4_header_len ip) (tcp_header_len t) = Done 0%Z.
Proof.
  destruct packet_checksum as (ps & Hps & Hc). unfold checksum_of. rewrite !Hc. f_equal.
  assert (tcp_wf (set_tcp_checksum 0 t)) as Hz by (destruct Ht; constructor; done).
  set (seg := tcp_wire (set_tcp_checksum 0 t) ++ payload).
  assert (is_bytes seg) as Hb by (apply is_bytes_app; auto with zdpi).
  pose proof (words_total_bounds _ Hb) as [? Hw].
  assert (length seg = tcp_header_len t + length payload) as Hl
    by (unfold seg; by rewrite length_app, length_tcp_wire).
  rewrite length_packet in Hs. pose proof packet_hdr_bounds.
  set (c := finish_sum (sum_words seg ps)).
  assert (tcp_wire (set_tcp_checksum c t) ++ payload = set_checksum seg 16 c) as ->.
  { unfold seg. rewrite tcp_wire_checksum. unfold set_checksum.
    rewrite !insert_app_l; rewrite ?length_insert, ?length_tcp_wire; try done;
      change (tcp_header_len (set_tcp_checksum 0 t)) with (tcp_header_len t); lia. }
  apply checksum_field_verifies; try done; try lia. by exists 8.
Qed.
End checksum.

(** ** [rebuild] in closed form *)
Lemma try_opt_assoc {A B C} (m : option A) (g : A → option B) (k : B → exec (option C)) r :
  try_opt m (λ a, Done (g a)) = Done r → try_opt m (λ a, try_opt (g a) k) = try_opt r k.
Proof. by destruct m; simpl; intros [= <-]. Qed.

Section rebuild.
Context `{EtherparseLaws}.
Context (ip : Ipv4Header) (t : TcpHeader) (payload : list Z) (Hk : packet_wf ip t payload).
Context (v : PacketView) (Hv : staged_ok v).

Lemma new_size_eq (c : Z) :
  length (packet (new_ip v ip t payload) (set_tcp_checksum c (new_tcp v t))
    (sent_payload v payload)) = new_size v ip t payload.
Proof.
  rewrite length_packet. unfold new_size.
  change (ipv4_header_len (new_ip v ip t payload)) with (ipv4_header_len ip).
  change (tcp_header_len (set_tcp_checksum c (new_tcp v t))) with (tcp_header_len (new_tcp v t)). lia.
Qed.

Lemma new_checksum :
  rebuildable v ip t payload = true →
  tcp_checksum (packet (new_ip v ip t payload) (set_tcp_checksum 0 (new_tcp v t))
      (sent_payload v payload)) (ipv4_header_len ip) (tcp_header_len (new_tcp v t)) =
    Done (checksum_of (new_ip v ip t payload) (new_tcp v t) (sent_payload v payload)) ∧
  is_u16 (checksum_of (new_ip v ip t payload) (new_tcp v t) (sent_payload v payload)) ∧
  tcp_checksum (modified None v ip t payload) (ipv4_header_len ip)
    (tcp_header_len (new_tcp v t)) = Done 0%Z.
Proof.
  intros Hr. pose proof (new_ip_wf _ _ _ Hk v Hv Hr) as Hip.
  apply andb_prop in Hr as [Hf Hs%Z.leb_le].
  pose proof (new_tcp_wf _ _ _ Hk v Hv 0 Hf ltac:(done)) as Ht0.
  assert (tcp_wf (new_tcp v t)) as Ht.
  { pose proof (new_tcp_wf _ _ _ Hk v Hv _ Hf (tw_checksum _ (kw_tcp _ _ _ Hk))) as Hw.
    by destruct v, t. }
  pose proof (sent_payload_bytes _ _ _ Hk v Hv) as Hp.
  pose proof (new_size_eq (th_checksum (new_tcp v t))) as Hl.
  assert (Z.of_nat (length (packet (new_ip v ip t payload) (new_tcp v t)
    (sent_payload v payload))) ≤ 65535)%Z as Hle.
  { etrans; [|exact Hs]. rewrite <- Hl. by destruct v, t. }
  pose proof (checksum_of_done _ _ _ Hip Ht Hp Hle) as [E Hu].
  split; [exact E|]. split; [done|]. exact (tcp_checksum_verifies _ _ _ Hip Ht Hp Hle).
Qed.

Lemma rebuild_packet corrupt :
  rebuild corrupt (packet ip t payload) (layout_of ip t payload) v =
  Done (if rebuildable v ip t payload then Some (modified corrupt v ip t payload) else None).
Proof.
  pose proof (kw_ip _ _ _ Hk) as Hip. pose proof (kw_tcp _ _ _ Hk) as Ht.
  unfold rebuild, layout_of. cbn [pl_ip_hdr_len pl_tcp_hdr_len pl_payload_off pl_total_len].
  rewrite (slice_mid [] (ipv4_wire ip) (tcp_wire t ++ payload)) by (by rewrite ?length_ipv4_wire).
  cbn [exec_bind]. rewrite <- (app_nil_r (ipv4_wire ip)), ip_header_wire by done. cbn [try_opt].
  rewrite (slice_mid (ipv4_wire ip) (tcp_wire t) payload)
    by (rewrite ?length_ipv4_wire, ?length_tcp_wire; done).
  cbn [exec_bind]. rewrite <- (app_nil_r (tcp_wire t)), tcp_header_wire by done. cbn [try_opt].
  assert (match v.(pv_new_payload) with
    | Some p => Done p
    | None => slice (packet ip t payload) (ipv4_header_len ip + tcp_header_len t)
                (ipv4_header_len ip + tcp_header_len t + length payload)
    end = Done (sent_payload v payload)) as ->.
  { unfold sent_payload. destruct (pv_new_payload v); [done|]. by apply packet_payload_slice. }
  cbn [exec_bind]. erewrite try_opt_assoc by exact (rebuild_options _ _ _ Hk v).
  unfold rebuildable. destruct (options_fit v t) eqn:Hf; cbn [try_opt andb]; [|done].
  rewrite set_payload_len_law.
  change (ipv4_header_len (stage_ip v ip)) with (ipv4_header_len ip).
  fold (new_size v ip t payload).
  destruct (Z.of_nat (new_size v ip t payload) <=? 65535)%Z eqn:Hs; cbn [try_opt]; [|done].
  assert (rebuildable v ip t payload = true) as Hr by (unfold rebuildable; by rewrite Hf).
  apply Z.leb_le in Hs.
  assert (ip_wf (set_ip_total_len (Z.of_nat (new_size v ip t payload)) (stage_ip v ip))) as Hw
    by (eapply stage_ip_wf; eauto; unfold is_u16; lia).
  rewrite calc_header_checksum_law by done. fold (new_ip v ip t payload).
  pose proof (new_ip_wf _ _ _ Hk v Hv Hr) as Hip'.
  pose proof (new_checksum Hr) as (Hc & Hu & _).
  assert (tcp_wf (new_tcp v t)) as Ht'.
  { pose proof (new_tcp_wf _ _ _ Hk v Hv _ Hf (tw_checksum _ Ht)) as Hw'. by destruct v, t. }
  destruct (calc_checksum_ipv4_law (new_tcp v t) (new_ip v ip t payload) (sent_payload v payload))
    as (c & -> & Hc'); [done|done|by eapply sent_payload_bytes|exact Hs|].
  cbn [try_opt]. change (ipv4_header_len (new_ip v ip t payload)) with (ipv4_header_len ip) in Hc'.
  fold (packet (new_ip v ip t payload) (set_tcp_checksum 0 (new_tcp v t)) (sent_payload v payload))
    in Hc'.
  rewrite Hc in Hc'. injection Hc' as <-.
  rewrite ip_write_law by done. cbn [try_opt].
  rewrite tcp_write_law; cycle 1.
  { eapply new_tcp_wf; eauto. destruct corrupt; [apply wadd16_range|done]. }
  cbn [try_opt]. rewrite calc_header_checksum_law by done. done.
Qed.
End rebuild.

(** ** What was built *)

(** The view of the packet on the wire after the staged changes to [w]. *)
Definition applied (v w : PacketView) (options : list Z) : PacketView :=
  MkPacketView w.(pv_direction) w.(pv_src_ip) w.(pv_dst_ip) w.(pv_src_port) w.(pv_dst_port)
    (default w.(pv_seq) v.(pv_new_seq)) (default w.(pv_ack) v.(pv_new_ack))
    (default w.(pv_flags) v.(pv_new_flags))
    (length (default w.(pv_payload) v.(pv_new_payload)))
    (default w.(pv_payload) v.(pv_new_payload)) options
    None None None None None None [] false None false None None None None.

Section built.
Context `{EtherparseLaws}.
Context (ip : Ipv4Header) (t : TcpHeader) (payload : list Z) (Hk : packet_wf ip t payload).
Context (v : PacketView) (Hv : staged_ok v) (Hr : rebuildable v ip t payload = true).

Lemma modified_wf c :
  is_u16 c →
  packet_wf (new_ip v ip t payload) (set_tcp_checksum c (new_tcp v t)) (sent_payload v payload).
Proof.
  intros Hc. constructor.
  - by eapply new_ip_wf.
  - apply andb_prop in Hr as [? _]. by eapply new_tcp_wf.
  - by eapply sent_payload_bytes.
  - apply (kw_protocol _ _ _ Hk).
  - change (ipv4_header_len (new_ip v ip t payload)) with (ipv4_header_len ip).
    change (tcp_header_len (set_tcp_checksum c (new_tcp v t))) with (tcp_header_len (new_tcp v t)).
    change (ih_total_len (new_ip v ip t payload)) with (Z.of_nat (new_size v ip t payload)).
    unfold new_size. lia.
Qed.

Lemma modified_packet corrupt :
  ∃ c, is_u16 c ∧
    c = from_option (wadd16 (checksum_of (new_ip v ip t payload) (new_tcp v t)
          (sent_payload v payload)))
          (checksum_of (new_ip v ip t payload) (new_tcp v t) (sent_payload v payload)) corrupt ∧
    modified corrupt v ip t payload =
    packet (new_ip v ip t payload) (set_tcp_checksum c (new_tcp v t)) (sent_payload v payload).
Proof.
  eexists. split; [|split; [reflexivity|reflexivity]].
  destruct corrupt; [apply wadd16_range|]. by eapply new_checksum.
Qed.

Lemma modified_bytes corrupt :
  is_bytes (modified corrupt v ip t payload) ∧
  length (modified corrupt v ip t payload) = new_size v ip t payload ∧
  (Z.of_nat (new_size v ip t payload) ≤ 65535)%Z.
Proof.
  destruct (modified_packet corrupt) as (c & Hc & _ & ->).
  pose proof (modified_wf c Hc) as []. split; [auto with zdpi|]. split; [by apply new_size_eq|].
  apply andb_prop in Hr as [_ ?%Z.leb_le]. done.
Qed.

Lemma modified_ip_checksum corrupt :
  ipv4_header_checksum (take (ipv4_header_len ip) (modified corrupt v ip t payload)) = 0%Z.
Proof.
  destruct (modified_packet corrupt) as (c & Hc & _ & ->). unfold packet.
  change (ipv4_header_len ip) with (ipv4_header_len (new_ip v ip t payload)).
  rewrite <- length_ipv4_wire, take_app_length.
  set (h := set_ip_total_len (Z.of_nat (new_size v ip t payload)) (stage_ip v ip)).
  apply (ip_checksum_verifies h). eapply stage_ip_wf; eauto.
  apply andb_prop in Hr as [_ ?%Z.leb_le]. unfold is_u16. lia.
Qed.

Lemma parse_modified corrupt d :
  ∃ layout, parse_view d (modified corrupt v ip t payload) =
  Done (Some (applied v (fresh_view d ip t payload t.(th_options) (length payload))
                (new_options v t), layout)).
Proof.
  destruct (modified_packet corrupt) as (c & Hc & _ & ->).
  rewrite parse_view_packet by (by apply modified_wf). eexists. do 3 f_equal.
  unfold fresh_view, applied, sent_payload. cbn. destruct (pv_new_flags v) as [[]|]; done.
Qed.

(** WinDivert's separate corruption step gives the packet NFQUEUE builds. *)
Lemma corrupt_modified delta :
  corrupt_tcp_checksum (modified None v ip t payload) (layout_of ip t payload) delta =
  Done (Some (modified (Some delta) v ip t payload)).
Proof.
  destruct (modified_packet None) as (c & Hc & Ec & ->). cbn [from_option] in Ec.
  destruct (modified_packet (Some delta)) as (c' & Hc' & Ec' & ->). cbn [from_option] in Ec'.
  rewrite <- Ec in Ec'. unfold corrupt_tcp_checksum. cbn [pl_ip_hdr_len layout_of].
  set (pre := ipv4_wire (new_ip v ip t payload) ++ take 16 (tcp_wire (new_tcp v t))).
  set (post := drop 18 (tcp_wire (new_tcp v t)) ++ sent_payload v payload).
  assert (∀ x, packet (new_ip v ip t payload) (set_tcp_checksum x (new_tcp v t))
    (sent_payload v payload) = pre ++ to_be16 x ++ post) as E
    by (intros; unfold packet, pre, post; rewrite <- !app_assoc; done).
  assert (length pre = ipv4_header_len ip + 16) as Hl
    by (unfold pre; rewrite length_app, length_ipv4_wire; done).
  rewrite !E, length_app, Hl.
  assert (length (to_be16 c ++ post) = 2 + length post) as -> by done.
  assert ((ipv4_header_len ip + 16 + (2 + length post) <? ipv4_header_len ip + 16 + 2) = false)
    as -> by (apply Nat.ltb_ge; lia).
  rewrite <- Hl. unfold to_be16 at 1 2 3.
  rewrite (idx_lookup _ _ ((c / 256) mod 256)%Z) by (rewrite lookup_app_r, Nat.sub_diag; done).
  cbn [exec_bind].
  rewrite (idx_lookup _ _ (c mod 256)%Z)
    by (rewrite lookup_app_r, Nat.add_comm, Nat.add_sub by lia; done).
  cbn [exec_bind]. rewrite be16_roundtrip by done. rewrite <- Ec'.
  by rewrite (blit_mid pre (to_be16 c) post (to_be16 c')).
Qed.
End built.

(** ** A header codec

    A concrete codec that has the library's laws. *)
Definition decode_ipv4 (l : list Z) : option Ipv4Header :=
  match l with
  | b0 :: b1 :: t1 :: t0 :: i1 :: i0 :: f1 :: f0 :: ttl :: proto :: c1 :: c0 ::
    s3 :: s2 :: s1 :: s0 :: d3 :: d2 :: d1 :: d0 :: rest =>
      let ihl := Z.to_nat (b0 mod 16) * 4 in
      if (b0 / 16 =? 4)%Z && (20 <=? ihl) && (ihl <=? length l) then
        Some (MkIpv4Header (b1 / 4) (b1 mod 4) (from_be16 t1 t0) (from_be16 i1 i0)
          (Z.odd (from_be16 f1 f0 / 2 ^ 14)) (Z.odd (from_be16 f1 f0 / 2 ^ 13))
          (from_be16 f1 f0 mod 2 ^ 13) ttl proto (from_be16 c1 c0) (from_be32 s3 s2 s1 s0)
          (from_be32 d3 d2 d1 d0) (take (ihl - 20) rest))
      else None
  | _ => None
  end.

Definition decode_tcp (l : list Z) : option TcpHeader :=
  match l with
  | s1 :: s0 :: d1 :: d0 :: q3 :: q2 :: q1 :: q0 :: a3 :: a2 :: a1 :: a0 :: off :: fl ::
    w1 :: w0 :: c1 :: c0 :: u1 :: u0 :: rest =>
      let thl := Z.to_nat (off / 16) * 4 in
      if (20 <=? thl) && (thl <=? length l) then
        Some (MkTcpHeader (from_be16 s1 s0) (from_be16 d1 d0) (from_be32 q3 q2 q1 q0)
          (from_be32 a3 a2 a1 a0) (Z.odd off) (Z.odd fl) (Z.odd (fl / 2)) (Z.odd (fl / 4))
          (Z.odd (fl / 8)) (Z.odd (fl / 16)) (Z.odd (fl / 32)) (Z.odd (fl / 64)) (Z.odd (fl / 128))
          (from_be16 w1 w0) (from_be16 c1 c0) (from_be16 u1 u0) (take (thl - 20) rest))
      else None
  | _ => None
  end.

Definition wire_codec : Etherparse := {|
  Ipv4HeaderSlice_from_slice := decode_ipv4;
  TcpHeaderSlice_from_slice := decode_tcp;
  Ipv4Header_from_slice := decode_ipv4;
  TcpHeader_from_slice := decode_tcp;
  set_options_raw t o := if length o <=? 40 then Some (set_tcp_options (pad4 o) t) else None;
  set_payload_len h n :=
    if (Z.of_nat (ipv4_header_len h + n) <=? 65535)%Z
    then Some (set_ip_total_len (Z.of_nat (ipv4_header_len h + n)) h) else None;
  calc_header_checksum h := ipv4_header_checksum (ipv4_wire (set_ip_checksum 0 h));
  calc_checksum_ipv4 t h payload := Some (checksum_of h t payload);
  Ipv4Header_write h :=
    Some (ipv4_wire (set_ip_checksum (ipv4_header_checksum (ipv4_wire (set_ip_checksum 0 h))) h));
  TcpHeader_write t := Some (tcp_wire t) |}.

Lemma frag_word_decode (df mf : bool) off :
  (0 ≤ off < 2 ^ 13)%Z →
  let w := (Z.b2z df * 2 ^ 14 + Z.b2z mf * 2 ^ 13 + off)%Z in
  is_u16 w ∧ Z.odd (w / 2 ^ 14) = df ∧ Z.odd (w / 2 ^ 13) = mf ∧ (w mod 2 ^ 13 = off)%Z.
Proof.
  intros Hoff w. unfold is_u16.
  assert (w / 2 ^ 14 = Z.b2z df)%Z as ->.
  { symmetry. apply (Z.div_unique_pos _ _ _ (Z.b2z mf * 2 ^ 13 + off)); unfold w;
      destruct mf; cbn [Z.b2z]; lia. }
  assert (w / 2 ^ 13 = Z.b2z df * 2 + Z.b2z mf)%Z as ->.
  { symmetry. apply (Z.div_unique_pos _ _ _ off); unfold w; lia. }
  assert (w mod 2 ^ 13 = off)%Z as ->.
  { symmetry. apply (Z.mod_unique_pos _ _ (Z.b2z df * 2 + Z.b2z mf)); unfold w; lia. }
  unfold w. destruct df, mf; cbn [Z.b2z]; split_and!; try done; lia.
Qed.

Lemma decode_ipv4_wire h rest : ip_wf h → decode_ipv4 (ipv4_wire h ++ rest) = Some h.
Proof.
  intros Hw. pose proof (hdr_len_4 _ (iw_options _ Hw)) as [Hm Hb]. destruct Hw.
  pose proof (frag_word_decode (ih_dont_fragment h) (ih_more_fragments h) _ iw_offset0)
    as (Hu & E1 & E2 & E3).
  set (w := (_ + ih_fragment_offset h)%Z) in *.
  unfold decode_ipv4. unfold ipv4_wire at 1, to_be16, to_be32. fold w. cbn [app].
  set (q := (20 + length (ih_options h)) / 4) in *.
  assert ((64 + Z.of_nat (ipv4_header_len h / 4)) mod 16 = Z.of_nat q)%Z as ->.
  { symmetry. apply (Z.mod_unique_pos _ _ 4); unfold ipv4_header_len; fold q; lia. }
  assert ((64 + Z.of_nat (ipv4_header_len h / 4)) / 16 = 4)%Z as ->.
  { symmetry. apply (Z.div_unique_pos _ _ _ (Z.of_nat q)); unfold ipv4_header_len; fold q; lia. }
  assert (q * 4 = 20 + length (ih_options h)) as Hq
    by (pose proof (Nat.div_mod_eq (20 + length (ih_options h)) 4); unfold q; lia).
  rewrite Nat2Z.id, Hq. cbn [Z.eqb Pos.eqb andb].
  assert ((20 <=? 20 + length (ih_options h)) = true) as -> by (apply Nat.leb_le; lia).
  match goal with |- context [?a <=? length ?l] => assert ((a <=? length l) = true) as -> end.
  { apply Nat.leb_le. rewrite length_app, length_ipv4_wire. unfold ipv4_header_len. lia. }
  cbn [andb]. replace (20 + length (ih_options h) - 20) with (length (ih_options h)) by lia.
  rewrite take_app_length, !be16_roundtrip, !be32_roundtrip, E1, E2, E3 by done.
  assert ((ih_dscp h * 4 + ih_ecn h) / 4 = ih_dscp h)%Z as ->
    by (symmetry; apply (Z.div_unique_pos _ _ _ (ih_ecn h)); lia).
  assert ((ih_dscp h * 4 + ih_ecn h) mod 4 = ih_ecn h)%Z as ->
    by (symmetry; apply (Z.mod_unique_pos _ _ (ih_dscp h)); lia).
  by destruct h.
Qed.

Lemma decode_tcp_wire t rest : tcp_wf t → decode_tcp (tcp_wire t ++ rest) = Some t.
Proof.
  intros Hw. pose proof (hdr_len_4 _ (tw_options _ Hw)) as [Hm Hb]. destruct Hw.
  unfold decode_tcp. unfold tcp_wire at 1, to_be16, to_be32. cbn [app].
  set (q := (20 + length (th_options t)) / 4) in *.
  assert ((Z.of_nat (tcp_header_len t / 4) * 16 + Z.b2z (th_ns t)) / 16 = Z.of_nat q)%Z as ->.
  { symmetry. apply (Z.div_unique_pos _ _ _ (Z.b2z (th_ns t))); unfold tcp_header_len; fold q;
      destruct (th_ns t); cbn [Z.b2z]; lia. }
  assert (Z.odd (Z.of_nat (tcp_header_len t / 4) * 16 + Z.b2z (th_ns t)) = th_ns t) as ->.
  { rewrite Z.odd_add, Z.odd_mul, Bool.andb_false_r. by destruct (th_ns t). }
  assert (q * 4 = 20 + length (th_options t)) as Hq
    by (pose proof (Nat.div_mod_eq (20 + length (th_options t)) 4); unfold q; lia).
  rewrite Nat2Z.id, Hq.
  assert ((20 <=? 20 + length (th_options t)) = true) as -> by (apply Nat.leb_le; lia).
  match goal with |- context [?a <=? length ?l] => assert ((a <=? length l) = true) as -> end.
  { apply Nat.leb_le. rewrite length_app, length_tcp_wire. unfold tcp_header_len. lia. }
  cbn [andb]. replace (20 + length (th_options t) - 20) with (length (th_options t)) by lia.
  rewrite take_app_length, !be16_roundtrip, !be32_roundtrip by done.
  f_equal. unfold flags_byte.
  destruct t as [? ? ? ? ? [] [] [] [] [] [] [] []]; reflexivity.
Qed.

#[export] Instance wire_codec_laws : @EtherparseLaws wire_codec.
Proof.
  constructor; intros; try done; try by apply decode_ipv4_wire.
  - by apply decode_tcp_wire.
  - by apply decode_tcp_wire.
  - eexists. split; [reflexivity|]. apply checksum_of_done; try done.
    by rewrite length_packet, <- Nat.add_assoc.
Qed.

(** ** The theorem *)

(** (C28) Rebuilding a captured packet.  For every well-formed TCP packet and
    every staged change, [build_modified] does not panic: it fails exactly
    when the options exceed 40 bytes or the packet 65535, and otherwise
    returns a packet that parses back to the captured view with the staged
    values in place of the old ones and nothing else changed, whose IPv4
    checksum verifies, and whose TCP checksum verifies unless a corruption is
    staged.  NFQUEUE's build with a corruption and WinDivert's build followed
    by its corruption step return the same bytes. *)
Theorem rebuilt_packet `{EtherparseLaws} ip t payload v d :
  packet_wf ip t payload → staged_ok v →
  let orig := packet ip t payload in
  let layout := layout_of ip t payload in
  parse_view d orig =
    Done (Some (fresh_view d ip t payload t.(th_options) (length payload), layout)) ∧
  ∃ r, nfq_build_modified orig layout v = Done r ∧
  match r with
  | None =>
      40 < length (new_options v t) ∨
      (65535 < Z.of_nat (ipv4_header_len ip +
        (20 + length (new_options v t) + length (sent_payload v payload))))%Z
  | Some new =>
      is_bytes new ∧ (Z.of_nat (length new) ≤ 65535)%Z ∧
      (∃ layout', parse_view d new =
        Done (Some (applied v (fresh_view d ip t payload t.(th_options) (length payload))
                      (new_options v t), layout'))) ∧
      (∃ tcp', new = packet (new_ip v ip t payload) tcp' (sent_payload v payload)) ∧
      ipv4_header_checksum (take (ipv4_header_len ip) new) = 0%Z ∧
      ∃ plain, divert_build_modified orig layout v = Done (Some plain) ∧
        tcp_checksum plain (ipv4_header_len ip) (20 + length (new_options v t)) = Done 0%Z ∧
        match v.(pv_corrupt_tcp_checksum_delta) with
        | None => new = plain
        | Some delta => corrupt_tcp_checksum plain layout delta = Done (Some new)
        end
  end.
Proof.
  intros Hk Hv orig layout. subst orig layout. split; [by apply parse_view_packet|].
  unfold nfq_build_modified, divert_build_modified. rewrite !rebuild_packet by done.
  eexists. split; [done|].
  destruct (rebuildable v ip t payload) eqn:Hr.
  - pose proof (modified_bytes _ _ _ Hk v Hv Hr (pv_corrupt_tcp_checksum_delta v)) as (? & -> & ?).
    split_and!; [done|done|by apply parse_modified|by eexists|by apply modified_ip_checksum|].
    eexists. split; [done|]. split; [by eapply new_checksum|].
    destruct (pv_corrupt_tcp_checksum_delta v); [|done]. by apply corrupt_modified.
  - apply andb_false_iff in Hr as [Hr%Nat.leb_gt|Hr%Z.leb_gt]; [by left|right].
    unfold new_size, tcp_header_len in Hr. cbn [th_options new_tcp set_tcp_options] in Hr. lia.
Qed.

(** The first data packet of a connection, its sequence number moved back and
    its checksum corrupted. *)
Definition sample_ip : Ipv4Header :=
  MkIpv4Header 0 0 60 0xABCD true false 0 64 6 0 0x0A000001 0x01020304 [].
Definition sample_tcp_header : TcpHeader :=
  MkTcpHeader 40000 443 1001 5001 false false false false true true false false false 502 0 0
    [1; 1; 8; 10; 0; 0; 0; 1; 0; 0; 0; 2]%Z.
Definition sample_payload : list Z := [22; 3; 1; 0; 3; 1; 2; 3]%Z.
Definition sample_view : PacketView :=
  set_new_seq (Some 484%Z) (set_corrupt_tcp_checksum_delta (Some 1%Z)
    (set_append_tcp_options [19; 2]%Z
      (fresh_view Outbound sample_ip sample_tcp_header sample_payload
        sample_tcp_header.(th_options) 8))).

Lemma sample_packet_wf : packet_wf sample_ip sample_tcp_header sample_payload.
Proof.
  assert (options_wf []) by (constructor; simpl; [apply Forall_nil|lia|done]).
  assert (options_wf sample_tcp_header.(th_options)).
  { constructor; [by apply is_bytesb_spec|simpl; lia|done]. }
  constructor; try done; try (by apply is_bytesb_spec);
    constructor; simpl; unfold is_u8, is_u16, is_u32; try lia; done.
Qed.

Lemma sample_staged_ok : staged_ok sample_view.
Proof.
  constructor; try done; by apply is_bytesb_spec.
Qed.

Lemma rebuilt_packet_witness :
  ∃ new layout', @nfq_build_modified wire_codec
      (packet sample_ip sample_tcp_header sample_payload)
      (layout_of sample_ip sample_tcp_header sample_payload) sample_view = Done (Some new) ∧
    @parse_view wire_codec Outbound new =
      Done (Some (applied sample_view
        (fresh_view Outbound sample_ip sample_tcp_header sample_payload
          sample_tcp_header.(th_options) 8)
        (sample_tcp_header.(th_options) ++ [19; 2; 0; 0]%Z), layout')).
Proof.
  destruct (@rebuilt_packet wire_codec wire_codec_laws sample_ip sample_tcp_header sample_payload
    sample_view Outbound sample_packet_wf sample_staged_ok) as (_ & r & E & Hr).
  destruct r as [new|].
  - destruct Hr as (_ & _ & (layout' & Hp) & _). exists new, layout'. split; [exact E|exact Hp].
  - exfalso. destruct Hr as [Hr|Hr]; revert Hr; [|vm_compute; discriminate].
    apply Nat.le_ngt. apply Nat.leb_le. reflexivity.
Defined.
