(* ===== verification/Emission.v ===== *)
(** * Emission of packets by the platform backends

    Model of what [run_until] of [crates/zerodpi-platform/src/linux.rs]
    (NFQUEUE) and [windows.rs] (WinDivert) does with a captured packet and the
    handler's verdict on it: the decoys, the rebuilt packet, its fragments,
    its segments with their delayed worker, and the fallbacks when the
    injection of packets is unavailable or fails.

    The operating system is an [Env]: whether the raw socket is there, which
    sends succeed, and when the shutdown is seen.  An emission appends to a
    trace of [Event]s; [wire] is what of it reaches the network.  Warnings are
    not modelled. *)
From stdpp Require Import base list numbers gmap.
From Stdlib Require Import ZArith Lia.
From S2P Require Import Prelude IpFragment Interceptor TcpSegment Rebuild.

(** ** Effects *)
Inductive NfqVerdict := NfqAccept | NfqDrop.

Inductive Event :=
  | Injected (bytes : list Z)
  | Rejected (bytes : list Z)
  | Slept (ms : Z)
  | Spawned (delay_ms : Z) (remaining : list (list Z))
  | Decided (verdict : NfqVerdict) (data : list Z).

(** [env_socket]: [open_raw_injection_socket] returned a socket.  [env_send]:
    the result of the k-th send.  [env_worker]: [dup] (the opening of the
    send-only handle) succeeds.  [env_stop] and [env_wsend]: what the worker
    meets at its i-th segment. *)
Record Env := MkEnv {
  env_socket : bool;
  env_send : nat → bool;
  env_worker : bool;
  env_stop : nat → bool;
  env_wsend : nat → bool }.

Record Em := MkEm { em_calls : nat; em_trace : list Event }.
Definition emit (e : Event) (s : Em) : Em := MkEm s.(em_calls) (s.(em_trace) ++ [e]).

(** A system call that sends [bytes]. *)
Definition os_send (env : Env) (bytes : list Z) (s : Em) : bool * Em :=
  let ok := env.(env_send) s.(em_calls) in
  (ok, MkEm (S s.(em_calls)) (s.(em_trace) ++ [if ok then Injected bytes else Rejected bytes])).

(** The delayed worker of a disordered packet: [for (i, seg) in
    remaining.iter().enumerate()].  It sends while it is not stopped and no
    send fails. *)
Fixpoint delayed_segments (env : Env) (delay : Z) (i : nat) (remaining : list (list Z))
    : list Event :=
  match remaining with
  | [] => []
  | seg :: rest =>
      Slept (delay * Z.of_nat (i + 1)) ::
      if env.(env_stop) i then [] else
      if env.(env_wsend) i then Injected seg :: delayed_segments env delay (S i) rest
      else [Rejected seg]
  end.

(** What reaches the network, in order. *)
Definition sent_event (e : Event) : list (list Z) :=
  match e with
  | Injected b => [b]
  | Decided NfqAccept data => [data]
  | _ => []
  end.
Definition wire_event (env : Env) (e : Event) : list (list Z) :=
  match e with
  | Spawned delay remaining => flat_map sent_event (delayed_segments env delay 0 remaining)
  | _ => sent_event e
  end.
Definition wire (env : Env) (trace : list Event) : list (list Z) := flat_map (wire_event env) trace.

(** ** NFQUEUE *)
Definition send_raw_packet (env : Env) (bytes : list Z) (s : Em) : bool * Em :=
  if (length bytes <? 20) then (false, s) else os_send env bytes s.

(** [for p in l { if let Err(e) = send_raw_packet(..) { .. break; } }];
    whether no send failed. *)
Fixpoint send_all (env : Env) (l : list (list Z)) (s : Em) : bool * Em :=
  match l with
  | [] => (true, s)
  | p :: rest =>
      let '(ok, s) := send_raw_packet env p s in
      if ok then send_all env rest s else (false, s)
  end.

(** The verdict set on the message and its payload at that time. *)
Definition Outcome : Type := NfqVerdict * list Z * Em.

Section nfq.
Context `{Etherparse} (env : Env) (orig : list Z) (layout : PacketLayout).

Definition nfq_decoy (view : PacketView) (s : Em) : exec Em :=
  match view.(pv_decoy) with
  | None => Done s
  | Some decoy =>
      let! r := nfq_build_modified orig layout (decoy_view view decoy) in
      match r with
      | Some decoy_bytes =>
          if env.(env_socket) then
            let '(_, s) := send_all env (replicate (decoy.(dp_repeats) `max` 1) decoy_bytes) s in
            Done (if (0 <? decoy.(dp_delay_ms))%Z then emit (Slept decoy.(dp_delay_ms)) s else s)
          else Done s
      | None => Done s
      end
  end.

Definition nfq_fragments (new_bytes : list Z) (frag_size : nat) (s : Em) : exec Outcome :=
  let! fragments := fragment_ipv4_packet new_bytes frag_size in
  if env.(env_socket) && (1 <? length fragments) then
    let '(injected, s) := send_all env fragments s in
    Done (if injected then (NfqDrop, orig, s) else (NfqAccept, new_bytes, s))
  else Done (NfqAccept, new_bytes, s).

Definition nfq_disorder (new_bytes : list Z) (spec : DisorderSpec) (s : Em) : exec Outcome :=
  let! segments := split_tcp_payload new_bytes spec in
  if env.(env_socket) && (1 <? length segments) then
    let! first := idx segments 0 in
    let '(ok, s) := send_raw_packet env first s in
    if ok then
      let! remaining := slice segments 1 (length segments) in
      let s :=
        if (0 <? spec.(ds_delay_ms))%Z then
          if env.(env_worker) then emit (Spawned spec.(ds_delay_ms) remaining) s
          else snd (send_all env remaining s)
        else snd (send_all env remaining s) in
      Done (NfqDrop, orig, s)
    else Done (NfqAccept, new_bytes, s)
  else Done (NfqAccept, new_bytes, s).

Definition nfq_dual (new_bytes : list Z) (s : Em) : Outcome :=
  if env.(env_socket) then
    let '(ok, s) := send_raw_packet env new_bytes s in
    (NfqAccept, if ok then orig else new_bytes, s)
  else (NfqAccept, new_bytes, s).

(** The branch of [Verdict::AcceptModified]. *)
Definition nfq_modified (view : PacketView) (s : Em) : exec Outcome :=
  let! s := nfq_decoy view s in
  let! r := nfq_build_modified orig layout view in
  match r with
  | None => Done (NfqAccept, orig, s)
  | Some new_bytes =>
      match view.(pv_ip_frag_payload_size), view.(pv_disorder_spec) with
      | Some frag_size, _ => nfq_fragments new_bytes frag_size s
      | None, Some spec => nfq_disorder new_bytes spec s
      | None, None =>
          if view.(pv_emit_original_after) then Done (nfq_dual new_bytes s)
          else Done (NfqAccept, new_bytes, s)
      end
  end.
End nfq.

(** ** WinDivert *)

(** [WinDivertPacket::recalculate_checksums]: the data after the call. *)
Class WinDivert := recalculate_checksums : list Z → list Z.

(** [for p in l { if let Err(e) = self.divert.send(..) { debug!(..); } }] *)
Fixpoint send_each (env : Env) (l : list (list Z)) (s : Em) : Em :=
  match l with
  | [] => s
  | p :: rest => send_each env rest (snd (os_send env p s))
  end.

(** The same loop with a [break] at the first failure. *)
Fixpoint divert_all (env : Env) (l : list (list Z)) (s : Em) : Em :=
  match l with
  | [] => s
  | p :: rest =>
      let '(ok, s) := os_send env p s in
      if ok then divert_all env rest s else s
  end.

Section divert.
Context `{Etherparse} `{WinDivert} (env : Env) (orig : list Z) (layout : PacketLayout).

(** [parse_view] of [windows.rs] is the function of [linux.rs]. *)
Definition divert_parse_view (direction : Direction) (buf : list Z)
    : exec (option (PacketView * PacketLayout)) := parse_view direction buf.

Definition divert_decoy (view : PacketView) (s : Em) : exec Em :=
  match view.(pv_decoy) with
  | None => Done s
  | Some decoy =>
      let! r := divert_build_modified orig layout (decoy_view view decoy) in
      match r with
      | Some decoy_bytes =>
          let s := divert_all env (replicate (decoy.(dp_repeats) `max` 1) decoy_bytes) s in
          Done (if (0 <? decoy.(dp_delay_ms))%Z then emit (Slept decoy.(dp_delay_ms)) s else s)
      | None => Done s
      end
  end.

Definition divert_fragments (new_bytes : list Z) (frag_size : nat) (s : Em) : exec Em :=
  let! fragments := fragment_ipv4_packet new_bytes frag_size in
  Done (send_each env fragments s).

Definition divert_disorder (new_bytes : list Z) (spec : DisorderSpec) (s : Em) : exec Em :=
  let! segments := split_tcp_payload new_bytes spec in
  if (1 <? length segments) then
    let! first := idx segments 0 in
    let '(ok, s) := os_send env first s in
    if ok then
      let! remaining := slice segments 1 (length segments) in
      Done (if (0 <? spec.(ds_delay_ms))%Z
            then (if env.(env_worker) then emit (Spawned spec.(ds_delay_ms) remaining) s else s)
            else divert_all env remaining s)
    else Done (snd (os_send env orig s))
  else Done (snd (os_send env (recalculate_checksums new_bytes) s)).

Definition divert_plain (view : PacketView) (new_bytes : list Z) (s : Em) : exec Em :=
  let data := recalculate_checksums new_bytes in
  let! data := match view.(pv_corrupt_tcp_checksum_delta) with
               | Some delta =>
                   let! r := corrupt_tcp_checksum data layout delta in
                   Done (default data r)
               | None => Done data
               end in
  let s := snd (os_send env data s) in
  Done (if view.(pv_emit_original_after) then snd (os_send env orig s) else s).

Definition divert_modified (view : PacketView) (s : Em) : exec Em :=
  let! s := divert_decoy view s in
  let! r := divert_build_modified orig layout view in
  match r with
  | None => Done (snd (os_send env orig s))
  | Some new_bytes =>
      match view.(pv_ip_frag_payload_size), view.(pv_disorder_spec) with
      | Some frag_size, _ => divert_fragments new_bytes frag_size s
      | None, Some spec => divert_disorder new_bytes spec s
      | None, None => divert_plain view new_bytes s
      end
  end.
End divert.

(** ** The capture loops *)
Definition HOOK_LOCAL_IN : Z := 1.
Definition HOOK_LOCAL_OUT : Z := 3.

(** What [self.queue.recv()] (or [self.divert.recv]) returns; [RecvStale] is
    the [NotFound] of [is_stale_nfq_recv_error]. *)
Inductive Recv :=
  | RecvMsg (hook : Z) (payload : list Z)
  | RecvInterrupted | RecvWouldBlock | RecvStale | RecvFailed.

(** One iteration: the shutdown flag each time it is looked at, what is
    received, and the environment of the emission. *)
Record Round := MkRound {
  rd_shutdown : bool; rd_recv : Recv; rd_shutdown_after : bool; rd_env : Env }.

Inductive LoopEnd := LoopOk | LoopErr | LoopRunning.

Section loops.
Context `{Etherparse} `{WinDivert}.
Context {St : Type} (on_packet : St → PacketView → exec (St * PacketView * Verdict)).

Definition nfq_message (env : Env) (hook : Z) (payload : list Z) (h : St) (s : Em)
    : exec (St * Em) :=
  let accept := emit (Decided NfqAccept payload) s in
  match (if (hook =? HOOK_LOCAL_OUT)%Z then Some Outbound
         else if (hook =? HOOK_LOCAL_IN)%Z then Some Inbound else None) with
  | None => Done (h, accept)
  | Some direction =>
      let! parsed := parse_view direction payload in
      match parsed with
      | None => Done (h, accept)
      | Some (view, layout) =>
          let! (h, view, verdict) := on_packet h view in
          match verdict with
          | Accept => Done (h, accept)
          | Drop_ => Done (h, emit (Decided NfqDrop payload) s)
          | AcceptModified =>
              let! (v, data, s) := nfq_modified env payload layout view s in
              Done (h, emit (Decided v data) s)
          end
      end
  end.

Fixpoint nfq_loop (rounds : list Round) (h : St) (s : Em) : exec (St * Em * LoopEnd) :=
  match rounds with
  | [] => Done (h, s, LoopRunning)
  | r :: rounds' =>
      if r.(rd_shutdown) then Done (h, s, LoopOk) else
      match r.(rd_recv) with
      | RecvMsg hook payload =>
          let! (h, s) := nfq_message r.(rd_env) hook payload h s in
          nfq_loop rounds' h s
      | RecvInterrupted => nfq_loop rounds' h s
      | RecvWouldBlock => nfq_loop rounds' h (emit (Slept 50) s)
      | RecvStale =>
          if r.(rd_shutdown_after) then Done (h, s, LoopOk) else nfq_loop rounds' h s
      | RecvFailed => Done (h, s, LoopErr)
      end
  end.

(** [run_until] behind the loop: the workers are joined, and the removal of
    the firewall rules decides the result of a loop that ended well. *)
Definition nfq_finish (result : LoopEnd) (cleanup : bool) : LoopEnd :=
  match result with
  | LoopOk => if cleanup then LoopOk else LoopErr
  | r => r
  end.

(** On WinDivert [hook] is 3 for an outbound address and 1 for an inbound
    one, and every receive error is [RecvFailed]. *)
Definition divert_message (env : Env) (outbound : bool) (data : list Z) (h : St) (s : Em)
    : exec (St * Em) :=
  let pass := snd (os_send env data s) in
  let! parsed := divert_parse_view (if outbound then Outbound else Inbound) data in
  match parsed with
  | None => Done (h, pass)
  | Some (view, layout) =>
      let! (h, view, verdict) := on_packet h view in
      match verdict with
      | Accept => Done (h, pass)
      | Drop_ => Done (h, s)
      | AcceptModified =>
          let! s := divert_modified env data layout view s in
          Done (h, s)
      end
  end.

Fixpoint divert_loop (rounds : list Round) (h : St) (s : Em) : exec (St * Em * LoopEnd) :=
  match rounds with
  | [] => Done (h, s, LoopRunning)
  | r :: rounds' =>
      match r.(rd_recv) with
      | RecvMsg hook data =>
          if r.(rd_shutdown_after) then
            divert_loop rounds' h (snd (os_send r.(rd_env) data s))
          else
            let! (h, s) := divert_message r.(rd_env) (hook =? HOOK_LOCAL_OUT)%Z data h s in
            divert_loop rounds' h s
      | _ => Done (h, s, if r.(rd_shutdown_after) then LoopOk else LoopErr)
      end
  end.
End loops.

(** ** The delayed workers of an interceptor *)

(** [Vec::swap_remove] *)
Definition swap_remove {W} (l : list W) (i : nat) : list W :=
  match last l with
  | Some x => take (length l - 1) (<[i := x]> l)
  | None => l
  end.

(** The [while] loop of [EmissionWorkers::push]; the number of workers is
    enough fuel ([reap_spec]). *)
Fixpoint reap {W} (finished : W → bool) (fuel index : nat) (workers : list W) : list W :=
  match fuel with
  | O => workers
  | S fuel' =>
      match workers !! index with
      | Some w =>
          if finished w then reap finished fuel' index (swap_remove workers index)
          else reap finished fuel' (S index) workers
      | None => workers
      end
  end.
Definition push_worker {W} (finished : W → bool) (workers : list W) (w : W) : list W :=
  reap finished (length workers) 0 workers ++ [w].

(** ** What a sequence of sends puts on the wire *)

(** From [s] to [s'] the wire grew by [out]. *)
Definition sends (env : Env) (s s' : Em) (out : list (list Z)) : Prop :=
  wire env s'.(em_trace) = wire env s.(em_trace) ++ out.

Lemma sends_refl env s : sends env s s [].
Proof. unfold sends. by rewrite app_nil_r. Qed.

Lemma sends_trans env s1 s2 s3 o1 o2 :
  sends env s1 s2 o1 → sends env s2 s3 o2 → sends env s1 s3 (o1 ++ o2).
Proof. unfold sends. intros E1 E2. by rewrite E2, E1, app_assoc. Qed.

Lemma emit_sends env e s : sends env s (emit e s) (wire_event env e).
Proof. unfold sends, wire. simpl. rewrite flat_map_app. simpl. by rewrite app_nil_r. Qed.

Lemma os_send_sends env b s :
  sends env s (snd (os_send env b s)) (if fst (os_send env b s) then [b] else []).
Proof.
  unfold os_send, sends, wire. simpl. rewrite flat_map_app. simpl.
  by destruct (env_send env _).
Qed.

(** Everything works: the socket is there, no send fails, no worker is cut. *)
Record env_good (env : Env) : Prop := {
  eg_socket : env.(env_socket) = true;
  eg_send : ∀ k, env.(env_send) k = true;
  eg_worker : env.(env_worker) = true;
  eg_stop : ∀ i, env.(env_stop) i = false;
  eg_wsend : ∀ i, env.(env_wsend) i = true }.

(** A loop that stops at the first failure sends a prefix, and all of it
    when it reports no failure. *)
Lemma send_all_sends env l s :
  let r := send_all env l s in
  ∃ k, k ≤ length l ∧ sends env s r.2 (take k l) ∧
    (r.1 = true → k = length l) ∧ (r.1 = false → k < length l) ∧
    (env_good env → Forall (λ p, 20 ≤ length p) l → r.1 = true).
Proof.
  revert s. induction l as [|p l IH]; intros s; cbn [send_all].
  - exists 0. cbn. split_and!; auto using sends_refl; done.
  - unfold send_raw_packet. destruct (Nat.ltb_spec (length p) 20) as [Hs|Hs].
    { exists 0. cbn. split_and!; auto using sends_refl; try lia; try done.
      intros _ Hf. apply Forall_cons in Hf as [? _]. lia. }
    pose proof (os_send_sends env p s) as H1.
    destruct (os_send env p s) as [ok s1] eqn:E. cbn in H1.
    destruct ok.
    + destruct (IH s1) as (k & Hk & Hse & Ht & Hf & Hg). exists (S k). cbn [take length].
      split_and!; [lia| |intros ?%Ht; lia|intros ?%Hf; lia|].
      * exact (sends_trans env s s1 _ [p] (take k l) H1 Hse).
      * intros He [_ Ha]%Forall_cons. by apply Hg.
    + exists 0. cbn. split_and!; auto; try lia; try done.
      intros He _. unfold os_send in E. rewrite (eg_send _ He) in E. congruence.
Qed.

Lemma delayed_prefix env delay i l :
  ∃ k, k ≤ length l ∧ flat_map sent_event (delayed_segments env delay i l) = take k l ∧
    (env_good env → k = length l).
Proof.
  revert i. induction l as [|p l IH]; intros i; cbn [delayed_segments].
  - exists 0. done.
  - destruct (env_stop env i) eqn:Es.
    { exists 0. split_and!; [lia|done|]. intros He. by rewrite (eg_stop _ He) in Es. }
    destruct (env_wsend env i) eqn:Ew.
    + destruct (IH (S i)) as (k & Hk & E & Hg). exists (S k). cbn. rewrite E.
      split_and!; [lia|done|]. intros ?%Hg. lia.
    + exists 0. split_and!; [lia|done|]. intros He. by rewrite (eg_wsend _ He) in Ew.
Qed.

(** ** The receiver's view *)

(** What is on the wire delivers the packet [new]: it is there as it is, or
    in fragments that reassemble to it, or in segments that carry its stream. *)
Inductive delivered (new : list Z) (out : list (list Z)) : Prop :=
  | delivered_whole : new ∈ out → delivered new out
  | delivered_fragments :
      Forall (λ f, ipv4_header_checksum (take (frag_ihl f) f) = 0%Z) out →
      holds (ip_reassemble out) (drop (frag_ihl new) new) → delivered new out
  | delivered_segments :
      holds (tcp_receive (tcp_seq new) out) (tcp_body new) → delivered new out.

(** What the verdict [AcceptModified] puts on the wire behind the decoys.
    Only a disordered packet can be cut short, once its first segment is out. *)
Inductive emission (view : PacketView) (orig new : list Z) : list (list Z) → Prop :=
  | emission_whole : emission view orig new [new]
  | emission_dual :
      view.(pv_emit_original_after) = true → view.(pv_ip_frag_payload_size) = None →
      view.(pv_disorder_spec) = None → emission view orig new [new; orig]
  | emission_fragments n frags :
      view.(pv_ip_frag_payload_size) = Some n → fragment_ipv4_packet new n = Done frags →
      splits new n = true → emission view orig new frags
  | emission_refragmented n frags k :
      view.(pv_ip_frag_payload_size) = Some n → fragment_ipv4_packet new n = Done frags →
      splits new n = true → k < length frags → emission view orig new (take k frags ++ [new])
  | emission_segments spec segs k :
      view.(pv_ip_frag_payload_size) = None → view.(pv_disorder_spec) = Some spec →
      split_tcp_payload new spec = Done segs → splits_tcp new spec = true →
      0 < k ≤ length segs → emission view orig new (take k segs).

(** The first segment went out and a later one did not. *)
Definition cut_short (view : PacketView) (new : list Z) (out : list (list Z)) : Prop :=
  ∃ spec segs k, view.(pv_ip_frag_payload_size) = None ∧ view.(pv_disorder_spec) = Some spec ∧
    split_tcp_payload new spec = Done segs ∧ out = take k segs ∧ 0 < k < length segs.

Definition spec_ok (view : PacketView) : Prop :=
  from_option pattern_bytes True view.(pv_disorder_spec).

Lemma emission_delivers view orig new out :
  is_bytes new → (Z.of_nat (length new) ≤ 65535)%Z → spec_ok view →
  emission view orig new out → delivered new out ∨ cut_short view new out.
Proof.
  intros Hb Hl Hp [|? ? ?|n frags Hn Hf Hs|n frags k Hn Hf Hs Hk|spec segs k Hf Hd Hs Hsp Hk].
  - left. apply delivered_whole. by left.
  - left. apply delivered_whole. by left.
  - left. destruct (fragments_lossless new n Hb Hl Hs) as (fs & E & _ & Hok & _ & Hh).
    rewrite Hf in E. injection E as <-. apply delivered_fragments; [|done].
    eapply Forall_impl; [exact Hok|]. by intros f [].
  - left. apply delivered_whole. apply elem_of_app. right. by left.
  - unfold spec_ok in Hp. rewrite Hd in Hp. cbn in Hp.
    destruct (decide (k = length segs)) as [->|].
    + left. apply delivered_segments. rewrite take_ge by done.
      destruct (split_received new spec Hb Hl Hp Hsp) as (ss & E & _ & _ & _ & Hh).
      rewrite Hs in E. by injection E as <-.
    + right. exists spec, segs, k. split_and!; try done; lia.
Qed.

Lemma fragments_long new n frags :
  is_bytes new → (Z.of_nat (length new) ≤ 65535)%Z → splits new n = true →
  fragment_ipv4_packet new n = Done frags →
  1 < length frags ∧ Forall (λ p, 20 ≤ length p) frags.
Proof.
  intros Hb Hl Hs Hf. destruct (fragments_lossless new n Hb Hl Hs) as (fs & E & H2 & Hok & _).
  rewrite Hf in E. injection E as <-. split; [lia|].
  assert (20 ≤ frag_ihl new) as Hi by (unfold splits in Hs; destruct new; [done|]; bool_to_prop; lia).
  eapply Forall_impl; [exact Hok|]. intros f [Hif _ _ _ Hbd]. rewrite <- Hif in Hi.
  unfold frag_body in Hbd. rewrite length_drop in Hbd. lia.
Qed.

Lemma segments_long new spec segs :
  is_bytes new → (Z.of_nat (length new) ≤ 65535)%Z → pattern_bytes spec →
  splits_tcp new spec = true → split_tcp_payload new spec = Done segs →
  1 < length segs ∧ Forall (λ p, 20 ≤ length p) segs.
Proof.
  intros Hb Hl Hp Hs Hf. destruct (split_received new spec Hb Hl Hp Hs) as (ss & E & Hn & H2 & _).
  rewrite Hf in E. injection E as <-. split; [lia|].
  pose proof (split_segments_ok new spec segs Hb Hl Hp Hs Hf) as Hok.
  assert (20 ≤ frag_ihl new ∧ 20 ≤ tcp_hdr new ∧ tcp_off new ≤ length new) as (Hi & Ht & Ho)
    by (unfold splits_tcp in Hs; destruct new; [done|]; bool_to_prop; lia).
  apply Forall_lookup. intros i f Hif. specialize (Hok i f Hif) as [_ _ _ _ _ Hu _ _ _].
  assert (f !! 19 = new !! 19) as E.
  { apply Hu; [unfold untouched; lia|]. unfold tcp_off. lia. }
  destruct (lookup_lt_is_Some_2 new 19) as [x Hx]; [unfold tcp_off in Ho; lia|].
  rewrite Hx in E. apply lookup_lt_Some in E. lia.
Qed.

Lemma splits_single new n frags :
  splits new n = false → fragment_ipv4_packet new n = Done frags → frags = [new].
Proof. intros Hs. rewrite fragment_ipv4_packet_eq, Hs. congruence. Qed.

Definition decoy_ok (view : PacketView) : Prop :=
  from_option (λ d, is_u32 d.(dp_seq) ∧ is_bytes d.(dp_payload)) True view.(pv_decoy).

(** The burst of decoys of a view. *)
Definition decoys (view : PacketView) (ip : Ipv4Header) (t : TcpHeader) (payload : list Z)
    : list (list Z) :=
  match view.(pv_decoy) with
  | Some d =>
      if rebuildable (decoy_view view d) ip t payload
      then replicate (d.(dp_repeats) `max` 1) (modified None (decoy_view view d) ip t payload)
      else []
  | None => []
  end.

Lemma decoy_staged_ok view d :
  decoy_ok view → view.(pv_decoy) = Some d → staged_ok (decoy_view view d).
Proof.
  intros Hd E. unfold decoy_ok in Hd. rewrite E in Hd. destruct Hd. constructor; try done.
  apply Forall_nil_2.
Qed.

Section nfq_spec.
Context `{EtherparseLaws} (env : Env).
Context (ip : Ipv4Header) (t : TcpHeader) (payload : list Z) (Hk : packet_wf ip t payload).
Let orig := packet ip t payload.
Let layout := layout_of ip t payload.

Lemma modified_long v corrupt :
  staged_ok v → rebuildable v ip t payload = true → 20 ≤ length (modified corrupt v ip t payload).
Proof.
  intros Hv Hr. pose proof (modified_bytes _ _ _ Hk v Hv Hr corrupt) as (_ & -> & _).
  unfold new_size, ipv4_header_len. lia.
Qed.

Lemma sleep_sends (b : bool) ms s s' out :
  sends env s s' out → sends env s (if b then emit (Slept ms) s' else s') out.
Proof.
  intros Hs. destruct b; [|done]. rewrite <- (app_nil_r out).
  eapply sends_trans; [exact Hs|]. apply (emit_sends env (Slept ms)).
Qed.

Lemma nfq_decoy_spec view s :
  decoy_ok view →
  ∃ s' k, nfq_decoy env orig layout view s = Done s' ∧
    sends env s s' (take k (decoys view ip t payload)) ∧
    (env_good env → sends env s s' (decoys view ip t payload)).
Proof.
  intros Hd. unfold nfq_decoy, decoys. destruct (pv_decoy view) as [d|] eqn:Ed.
  2:{ exists s, 0. split_and!; auto using sends_refl. }
  pose proof (decoy_staged_ok view d Hd Ed) as Hv.
  unfold nfq_build_modified, orig, layout. rewrite rebuild_packet by done. cbn [exec_bind].
  destruct (rebuildable (decoy_view view d) ip t payload) eqn:Hr.
  2:{ exists s, 0. split_and!; auto using sends_refl. }
  change (pv_corrupt_tcp_checksum_delta (decoy_view view d)) with (@None Z).
  set (l := replicate _ (modified None (decoy_view view d) ip t payload)).
  destruct (env_socket env) eqn:Hso.
  2:{ exists s, 0. split_and!; [done|apply sends_refl|]. intros He.
      by rewrite (eg_socket _ He) in Hso. }
  destruct (send_all_sends env l s) as (k & Hkl & Hs & Ht & _ & Hg).
  destruct (send_all env l s) as [ok s'] eqn:E. cbn in Hs, Ht, Hg.
  eexists _, k. split; [done|]. split; [by apply sleep_sends|].
  intros He. apply sleep_sends. rewrite take_ge in Hs; [done|].
  rewrite <- Ht; [done|]. apply Hg; [done|]. apply Forall_replicate. by apply modified_long.
Qed.

(** The outcome of a message whose verdict is set. *)
Definition settles (s : Em) (o : Outcome) (out : list (list Z)) : Prop :=
  sends env s (emit (Decided (fst (fst o)) (snd (fst o))) (snd o)) out.

Lemma settles_accept s s' data out :
  sends env s s' out → settles s (NfqAccept, data, s') (out ++ [data]).
Proof. intros Hs. eapply sends_trans; [exact Hs|]. apply (emit_sends env (Decided NfqAccept data)). Qed.
Lemma settles_drop s s' data out : sends env s s' out → settles s (NfqDrop, data, s') out.
Proof.
  intros Hs. rewrite <- (app_nil_r out). eapply sends_trans; [exact Hs|].
  apply (emit_sends env (Decided NfqDrop data)).
Qed.
Lemma settles_plain s data : settles s (NfqAccept, data, s) [data].
Proof. apply (settles_accept s s data []). apply sends_refl. Qed.

(** What is on the wire when everything works. *)
Definition planned (view : PacketView) (new : list Z) : exec (list (list Z)) :=
  match view.(pv_ip_frag_payload_size), view.(pv_disorder_spec) with
  | Some n, _ => fragment_ipv4_packet new n
  | None, Some spec => split_tcp_payload new spec
  | None, None => Done (if view.(pv_emit_original_after) then [new; orig] else [new])
  end.

(** The outcome [o] emits [out], which is all of it when everything works. *)
Definition emits (view : PacketView) (new : list Z) (s : Em) (o : Outcome) : Prop :=
  ∃ out, settles s o out ∧ emission view orig new out ∧
    (env_good env → planned view new = Done out).

Context (view : PacketView) (new : list Z).
Context (Hb : is_bytes new) (Hl : (Z.of_nat (length new) ≤ 65535)%Z) (H20 : 20 ≤ length new).

Lemma nfq_fragments_spec n s :
  view.(pv_ip_frag_payload_size) = Some n →
  ∃ o, nfq_fragments env orig new n s = Done o ∧ emits view new s o.
Proof.
  intros Hn. unfold nfq_fragments, emits, planned. rewrite Hn.
  destruct (splits new n) eqn:Hs.
  - destruct (fragments_lossless new n Hb Hl Hs) as (frags & E & _).
    pose proof (fragments_long new n frags Hb Hl Hs E) as [H1 Hlong].
    rewrite E. cbn [exec_bind]. apply Nat.ltb_lt in H1 as ->.
    destruct (env_socket env) eqn:Hso; cbn [andb].
    + destruct (send_all_sends env frags s) as (k & Hkl & Hse & Ht & Hf & Hg).
      destruct (send_all env frags s) as [[] s'] eqn:Ea; cbn in *; eexists; (split; [done|]).
      * exists frags. rewrite Ht, firstn_all in Hse by done.
        split_and!; [by apply settles_drop|by eapply emission_fragments|done].
      * exists (take k frags ++ [new]). split_and!; [by apply settles_accept| |].
        -- eapply emission_refragmented; eauto.
        -- intros He. by specialize (Hg He Hlong).
    + eexists. split; [done|]. exists [new]. split_and!; [apply settles_plain|constructor|].
      intros He. by rewrite (eg_socket _ He) in Hso.
  - rewrite fragment_ipv4_packet_eq, Hs. cbn [exec_bind length]. rewrite andb_false_r.
    eexists. split; [done|]. exists [new]. split_and!; [apply settles_plain|constructor|done].
Qed.

Lemma nfq_disorder_spec spec s :
  view.(pv_ip_frag_payload_size) = None → view.(pv_disorder_spec) = Some spec →
  pattern_bytes spec →
  ∃ o, nfq_disorder env orig new spec s = Done o ∧ emits view new s o.
Proof.
  intros Hn Hd Hp. unfold nfq_disorder, emits, planned. rewrite Hn, Hd.
  destruct (splits_tcp new spec) eqn:Hs.
  2:{ rewrite split_tcp_payload_unchanged by done. cbn [exec_bind length]. rewrite andb_false_r.
      eexists. split; [done|]. exists [new]. split_and!; [apply settles_plain|constructor|done]. }
  destruct (split_received new spec Hb Hl Hp Hs) as (segs & E & _).
  pose proof (segments_long new spec segs Hb Hl Hp Hs E) as [H1 Hlong].
  rewrite E. cbn [exec_bind]. apply Nat.ltb_lt in H1 as H1'. rewrite H1'.
  destruct (env_socket env) eqn:Hso; cbn [andb].
  2:{ eexists. split; [done|]. exists [new]. split_and!; [apply settles_plain|constructor|].
      intros He. by rewrite (eg_socket _ He) in Hso. }
  destruct segs as [|first remaining]; [cbn in H1; lia|].
  rewrite (idx_lookup (first :: remaining) 0 first) by done. cbn [exec_bind].
  apply Forall_cons in Hlong as [Hf1 Hfr].
  unfold send_raw_packet. destruct (Nat.ltb_spec (length first) 20) as [|_]; [lia|].
  pose proof (os_send_sends env first s) as Hse.
  destruct (os_send env first s) as [ok s1] eqn:Eo. cbn in Hse. destruct ok.
  2:{ eexists. split; [done|]. exists [new]. split_and!; [|constructor|].
      - by apply (settles_accept s s1 new []).
      - intros He. unfold os_send in Eo. rewrite (eg_send _ He) in Eo. congruence. }
  rewrite (slice_mid [first] remaining []) by (rewrite ?app_nil_r; done || (cbn; lia)).
  cbn [exec_bind]. set (s2 := if (0 <? ds_delay_ms spec)%Z then _ else _).
  assert (∃ k, k ≤ length remaining ∧ sends env s1 s2 (take k remaining) ∧
    (env_good env → k = length remaining)) as (k & Hkl & Hs2 & Hg).
  { assert (∃ k, k ≤ length remaining ∧
      sends env s1 (snd (send_all env remaining s1)) (take k remaining) ∧
      (env_good env → k = length remaining)) as Hall.
    { destruct (send_all_sends env remaining s1) as (k & ? & ? & Ht & _ & Hg). exists k.
      split_and!; try done. intros He. by apply Ht, Hg. }
    unfold s2. destruct (0 <? ds_delay_ms spec)%Z, (env_worker env); try exact Hall.
    destruct (delayed_prefix env (ds_delay_ms spec) 0 remaining) as (k & ? & Ek & ?).
    exists k. split_and!; try done. rewrite <- Ek. apply (emit_sends env (Spawned _ _)). }
  eexists. split; [done|]. exists (take (S k) (first :: remaining)). split_and!.
  - apply settles_drop. exact (sends_trans env s s1 s2 [first] _ Hse Hs2).
  - eapply emission_segments; eauto. cbn. lia.
  - intros ->%Hg. cbn [take]. by rewrite firstn_all.
Qed.

Lemma nfq_dual_spec s :
  view.(pv_emit_original_after) = true → view.(pv_ip_frag_payload_size) = None →
  view.(pv_disorder_spec) = None → emits view new s (nfq_dual env orig new s).
Proof.
  intros He Hn Hd. unfold nfq_dual, emits, planned. rewrite Hn, Hd, He.
  destruct (env_socket env) eqn:Hso.
  - unfold send_raw_packet. destruct (Nat.ltb_spec (length new) 20) as [|_]; [lia|].
    pose proof (os_send_sends env new s) as Hse.
    destruct (os_send env new s) as [[] s1] eqn:Eo; cbn in Hse.
    + exists [new; orig]. split_and!; [by apply (settles_accept s s1 orig [new])|by constructor|done].
    + exists [new]. split_and!; [by apply (settles_accept s s1 new [])|constructor|].
      intros Hg. unfold os_send in Eo. rewrite (eg_send _ Hg) in Eo. congruence.
  - exists [new]. split_and!; [apply settles_plain|constructor|].
    intros Hg. by rewrite (eg_socket _ Hg) in Hso.
Qed.
End nfq_spec.

(** What the methods stage on a view that is to be emitted modified. *)
Record view_ok (view : PacketView) : Prop := {
  vo_staged : staged_ok view; vo_decoy : decoy_ok view; vo_spec : spec_ok view }.

Lemma nfq_modified_spec `{EtherparseLaws} env ip t payload view s :
  packet_wf ip t payload → view_ok view →
  let orig := packet ip t payload in
  let new := modified view.(pv_corrupt_tcp_checksum_delta) view ip t payload in
  ∃ o k rest, nfq_modified env orig (layout_of ip t payload) view s = Done o ∧
    settles env s o (take k (decoys view ip t payload) ++ rest) ∧
    (if rebuildable view ip t payload then emission view orig new rest else rest = [orig]) ∧
    (env_good env →
      settles env s o (decoys view ip t payload ++ rest) ∧
      if rebuildable view ip t payload then planned ip t payload view new = Done rest
      else True).
Proof.
  intros Hk [Hv Hd Hp]. cbv zeta. set (new := modified _ _ _ _ _). unfold nfq_modified.
  destruct (nfq_decoy_spec env ip t payload Hk view s Hd) as (s1 & k & -> & Hs1 & Hg1).
  cbn [exec_bind]. unfold nfq_build_modified. rewrite rebuild_packet by done. cbn [exec_bind].
  destruct (rebuildable view ip t payload) eqn:Hr.
  2:{ eexists _, k, [packet ip t payload]. split; [done|]. split; [by apply settles_accept|]. split; [done|].
      intros He. split; [|done]. apply settles_accept; auto. }
  fold new. pose proof (modified_bytes _ _ _ Hk view Hv Hr (pv_corrupt_tcp_checksum_delta view))
    as (Hb & Hlen & Hmax). fold new in Hb, Hlen. rewrite <- Hlen in Hmax.
  assert (20 ≤ length new) as H20 by (by apply modified_long).
  assert (∃ o, (match pv_ip_frag_payload_size view, pv_disorder_spec view with
    | Some frag_size, _ => nfq_fragments env (packet ip t payload) new frag_size s1
    | None, Some spec => nfq_disorder env (packet ip t payload) new spec s1
    | None, None => if pv_emit_original_after view then Done (nfq_dual env (packet ip t payload) new s1)
                    else Done (NfqAccept, new, s1)
    end) = Done o ∧ emits env ip t payload view new s1 o) as (o & -> & out & Hse & Hem & Hpl).
  { destruct (pv_ip_frag_payload_size view) as [n|] eqn:Hn; [by apply nfq_fragments_spec|].
    destruct (pv_disorder_spec view) as [spec|] eqn:Hs.
    - apply nfq_disorder_spec; try done. unfold spec_ok in Hp. by rewrite Hs in Hp.
    - destruct (pv_emit_original_after view) eqn:He; eexists; (split; [done|]).
      + by apply nfq_dual_spec.
      + exists [new]. split_and!; [apply settles_plain|constructor|].
        intros _. unfold planned. by rewrite Hn, Hs, He. }
  exists o, k, out. split; [done|]. split; [by eapply sends_trans|]. split; [done|].
  intros Hg. split; [eapply sends_trans; [by apply Hg1|done]|by apply Hpl].
Qed.

(** ** WinDivert *)

(** Recalculating the checksums of a packet that has the right ones leaves
    it as it is. *)
Class WinDivertLaws `{WinDivert} : Prop :=
  recalculate_valid ip t payload :
    packet_wf ip t payload →
    ip.(ih_header_checksum) = ipv4_header_checksum (ipv4_wire (set_ip_checksum 0 ip)) →
    t.(th_checksum) = checksum_of ip t payload →
    recalculate_checksums (packet ip t payload) = packet ip t payload.

Lemma send_each_good env l s : env_good env → sends env s (send_each env l s) l.
Proof.
  intros He. revert s. induction l as [|p l IH]; intros s; [apply sends_refl|].
  cbn [send_each]. eapply (sends_trans env _ _ _ [p] l); [|apply IH].
  pose proof (os_send_sends env p s) as Hs. unfold os_send in *. cbn in *.
  by rewrite (eg_send _ He) in *.
Qed.

Lemma divert_all_good env l s : env_good env → sends env s (divert_all env l s) l.
Proof.
  intros He. revert s. induction l as [|p l IH]; intros s; [apply sends_refl|].
  cbn [divert_all]. pose proof (os_send_sends env p s) as Hs.
  unfold os_send in *. cbn in *. rewrite (eg_send _ He) in *.
  eapply (sends_trans env _ _ _ [p] l); [exact Hs|apply IH].
Qed.

Lemma os_send_good env b s : env_good env → sends env s (snd (os_send env b s)) [b].
Proof. intros He. apply (send_each_good env [b] s He). Qed.

Section divert_spec.
Context `{EtherparseLaws} `{WinDivertLaws} (env : Env) (He : env_good env).
Context (ip : Ipv4Header) (t : TcpHeader) (payload : list Z) (Hk : packet_wf ip t payload).
Let orig := packet ip t payload.
Let layout := layout_of ip t payload.

Lemma recalculate_modified view :
  staged_ok view → rebuildable view ip t payload = true →
  recalculate_checksums (modified None view ip t payload) = modified None view ip t payload.
Proof.
  intros Hv Hr. pose proof (modified_packet _ _ _ Hk view Hv Hr None) as (c & Hc & Ec & E).
  rewrite E. apply recalculate_valid; [by eapply modified_wf|done|exact Ec].
Qed.

Lemma divert_decoy_spec view s :
  decoy_ok view →
  ∃ s', divert_decoy env orig layout view s = Done s' ∧
    sends env s s' (decoys view ip t payload).
Proof.
  intros Hd. unfold divert_decoy, decoys. destruct (pv_decoy view) as [d|] eqn:Ed.
  2:{ exists s. auto using sends_refl. }
  pose proof (decoy_staged_ok view d Hd Ed) as Hv.
  unfold divert_build_modified, orig, layout. rewrite rebuild_packet by done. cbn [exec_bind].
  destruct (rebuildable (decoy_view view d) ip t payload); [|eauto using sends_refl].
  eexists. split; [done|]. by apply sleep_sends, divert_all_good.
Qed.

(** Corruption goes with the plain emission only. *)
Definition corrupts_plain (view : PacketView) : Prop :=
  view.(pv_corrupt_tcp_checksum_delta) = None ∨
  (view.(pv_ip_frag_payload_size) = None ∧ view.(pv_disorder_spec) = None).

Lemma divert_modified_spec view s :
  view_ok view → corrupts_plain view →
  let new := modified view.(pv_corrupt_tcp_checksum_delta) view ip t payload in
  ∃ s' rest, divert_modified env orig layout view s = Done s' ∧
    sends env s s' (decoys view ip t payload ++ rest) ∧
    if rebuildable view ip t payload then planned ip t payload view new = Done rest
    else rest = [orig].
Proof.
  intros [Hv Hd Hp] Hc new. unfold divert_modified.
  destruct (divert_decoy_spec view s Hd) as (s1 & -> & Hs1). cbn [exec_bind].
  unfold divert_build_modified, orig, layout. rewrite rebuild_packet by done. cbn [exec_bind].
  destruct (rebuildable view ip t payload) eqn:Hr.
  2:{ eexists _, [orig]. split; [done|]. split; [|done].
      eapply sends_trans; [done|by apply os_send_good]. }
  pose proof (recalculate_modified view Hv Hr) as Hrec.
  pose proof (modified_bytes _ _ _ Hk view Hv Hr None) as (Hb & Hlen & Hmax).
  rewrite <- Hlen in Hmax. unfold planned.
  destruct (pv_ip_frag_payload_size view) as [n|] eqn:Hn.
  - assert (new = modified None view ip t payload) as ->
      by (destruct Hc as [Hc|[? _]]; [unfold new; by rewrite Hc|congruence]).
    unfold divert_fragments. rewrite fragment_ipv4_packet_eq.
    destruct (splits _ n); (eexists _, _; split; [done|]; split; [|done]);
      (eapply sends_trans; [done|by apply send_each_good]).
  - destruct (pv_disorder_spec view) as [spec|] eqn:Hs.
    + assert (new = modified None view ip t payload) as ->
        by (destruct Hc as [Hc|[_ ?]]; [unfold new; by rewrite Hc|congruence]).
      unfold spec_ok in Hp. rewrite Hs in Hp. cbn in Hp.
      unfold divert_disorder. set (new' := modified None view ip t payload) in *.
      destruct (splits_tcp new' spec) eqn:Hsp.
      * destruct (split_received new' spec Hb Hmax Hp Hsp) as (segs & E & _).
        pose proof (segments_long new' spec segs Hb Hmax Hp Hsp E) as [Hn1 _].
        rewrite E. cbn [exec_bind]. apply Nat.ltb_lt in Hn1 as Hn1'. rewrite Hn1'.
        destruct segs as [|first remaining]; [cbn in Hn1; lia|].
        rewrite (idx_lookup (first :: remaining) 0 first) by done. cbn [exec_bind].
        pose proof (os_send_good env first s1 He) as Hf.
        unfold os_send in *. rewrite (eg_send _ He) in *. cbn [snd] in Hf.
        rewrite (slice_mid [first] remaining []) by (rewrite ?app_nil_r; done || (cbn; lia)).
        cbn [exec_bind]. rewrite (eg_worker _ He).
        eexists _, _. split; [done|]. split; [|done].
        eapply sends_trans; [done|]. eapply (sends_trans env _ _ _ [first] remaining); [done|].
        destruct (0 <? ds_delay_ms spec)%Z; [|by apply divert_all_good].
        destruct (delayed_prefix env (ds_delay_ms spec) 0 remaining) as (k & _ & Ek & Hg).
        rewrite (Hg He), firstn_all in Ek. rewrite <- Ek at 2. apply (emit_sends env (Spawned _ _)).
      * rewrite split_tcp_payload_unchanged by done. cbn [exec_bind length Nat.ltb Nat.leb].
        rewrite Hrec. eexists _, _. split; [done|]. split; [|done].
        eapply sends_trans; [done|by apply os_send_good].
    + unfold divert_plain. rewrite Hrec.
      assert (match pv_corrupt_tcp_checksum_delta view with
        | Some delta => let! r := corrupt_tcp_checksum (modified None view ip t payload)
                                    (layout_of ip t payload) delta in
                        Done (default (modified None view ip t payload) r)
        | None => Done (modified None view ip t payload)
        end = Done new) as ->.
      { unfold new. destruct (pv_corrupt_tcp_checksum_delta view); [|done].
        by rewrite (corrupt_modified _ _ _ Hk view Hv Hr). }
      cbn [exec_bind]. eexists _, _. split; [done|]. split; [|done].
      eapply sends_trans; [done|].
      destruct (pv_emit_original_after view); [|by apply os_send_good].
      eapply (sends_trans env _ _ _ [new]); by apply os_send_good.
Qed.
End divert_spec.

(** ** The capture loop *)
Definition is_verdict (e : Event) : bool := match e with Decided _ _ => true | _ => false end.
Definition verdicts (s : Em) : nat := length (filter (λ e, is_verdict e = true) s.(em_trace)).

Lemma verdicts_emit e s : verdicts (emit e s) = verdicts s + (if is_verdict e then 1 else 0).
Proof.
  unfold verdicts, emit. simpl. rewrite filter_app, length_app. f_equal.
  rewrite filter_cons. by destruct (is_verdict e).
Qed.

Lemma verdicts_os_send env b s : verdicts (snd (os_send env b s)) = verdicts s.
Proof.
  unfold os_send, verdicts. simpl. rewrite filter_app, length_app.
  destruct (env_send env _); rewrite filter_cons; simpl; lia.
Qed.

Lemma verdicts_send_all env l s : verdicts (snd (send_all env l s)) = verdicts s.
Proof.
  revert s. induction l as [|p l IH]; intros s; cbn [send_all]; [done|].
  unfold send_raw_packet. destruct (_ <? _); [done|].
  pose proof (verdicts_os_send env p s). destruct (os_send env p s) as [[] s1]; cbn in *; [|done].
  by rewrite IH.
Qed.

Lemma nfq_modified_verdicts `{Etherparse} env orig layout view s v data s' :
  nfq_modified env orig layout view s = Done (v, data, s') → verdicts s' = verdicts s.
Proof.
  unfold nfq_modified, nfq_decoy. intros E.
  apply exec_bind_done in E as (s1 & E1 & E).
  assert (verdicts s1 = verdicts s) as <-.
  { destruct (pv_decoy view) as [d|]; [|by injection E1 as <-].
    apply exec_bind_done in E1 as ([b|] & _ & E1); [|by injection E1 as <-].
    destruct (env_socket env); [|by injection E1 as <-].
    pose proof (verdicts_send_all env (replicate (dp_repeats d `max` 1) b) s) as Hs.
    destruct (send_all _ _ _) as [ok s2]. cbn in Hs. injection E1 as <-.
    destruct (0 <? _)%Z; [|done]. rewrite verdicts_emit. simpl. lia. }
  clear E1. apply exec_bind_done in E as ([new|] & _ & E); [|by injection E as _ _ <-].
  destruct (pv_ip_frag_payload_size view) as [n|]; [|destruct (pv_disorder_spec view) as [spec|]].
  - unfold nfq_fragments in E. apply exec_bind_done in E as (frags & _ & E).
    pose proof (verdicts_send_all env frags s1) as Hs.
    destruct (_ && _); [|by injection E as _ _ <-].
    destruct (send_all _ _ _) as [[] s2]; by injection E as _ _ <-.
  - unfold nfq_disorder in E. apply exec_bind_done in E as (segs & _ & E).
    destruct (_ && _); [|by injection E as _ _ <-].
    apply exec_bind_done in E as (first & _ & E). unfold send_raw_packet in E.
    destruct (_ <? _); [by injection E as _ _ <-|].
    pose proof (verdicts_os_send env first s1) as Hf.
    destruct (os_send env first s1) as [[] s2]; cbn in Hf; [|by injection E as _ _ <-].
    apply exec_bind_done in E as (rem & _ & E). injection E as _ _ <-.
    destruct (0 <? _)%Z, (env_worker env); rewrite ?verdicts_emit, ?verdicts_send_all; simpl; lia.
  - destruct (pv_emit_original_after view); [|by injection E as _ _ <-].
    unfold nfq_dual, send_raw_packet in E. destruct (env_socket env); [|by injection E as _ _ <-].
    destruct (_ <? _); [by injection E as _ _ <-|].
    pose proof (verdicts_os_send env new s1). destruct (os_send env new s1) as [[] s2];
      by injection E as _ _ <-.
Qed.

(** Every queued message gets exactly one verdict. *)
Lemma nfq_message_verdict `{Etherparse} {St} (on_packet : St → PacketView → exec (St * PacketView * Verdict))
    env hook payload h s h' s' :
  nfq_message on_packet env hook payload h s = Done (h', s') → verdicts s' = S (verdicts s).
Proof.
  unfold nfq_message. intros E.
  destruct (if (hook =? HOOK_LOCAL_OUT)%Z then _ else _) as [d|].
  2:{ injection E as _ <-. rewrite verdicts_emit. simpl. lia. }
  apply exec_bind_done in E as ([[view layout]|] & _ & E).
  2:{ injection E as _ <-. rewrite verdicts_emit. simpl. lia. }
  apply exec_bind_done in E as ([[h1 view'] verdict] & _ & E).
  destruct verdict; [injection E as _ <-; rewrite verdicts_emit; simpl; lia| |
    injection E as _ <-; rewrite verdicts_emit; simpl; lia].
  apply exec_bind_done in E as ([[v data] s1] & Em & E). injection E as _ <-.
  rewrite verdicts_emit. rewrite (nfq_modified_verdicts _ _ _ _ _ _ _ _ Em). simpl. lia.
Qed.

(** ** The workers of an interceptor *)
Lemma swap_remove_perm {W} (l : list W) i w :
  l !! i = Some w → l ≡ₚ w :: swap_remove l i ∧ take i (swap_remove l i) = take i l ∧
    length (swap_remove l i) = length l - 1.
Proof.
  intros Hi. pose proof (lookup_lt_Some _ _ _ Hi) as Hlt. unfold swap_remove.
  destruct l as [|x l _] using rev_ind; [done|]. rewrite last_snoc.
  rewrite length_app in *. cbn [length] in *. replace (length l + 1 - 1) with (length l) by lia.
  destruct (decide (i = length l)) as [->|].
  - rewrite lookup_app_r, Nat.sub_diag in Hi by lia. injection Hi as <-.
    rewrite insert_app_r_alt, Nat.sub_diag by lia. cbn. rewrite take_app_length.
    split_and!; [by rewrite Permutation_app_comm| |done].
    by rewrite take_ge.
  - rewrite lookup_app_l in Hi by lia. rewrite insert_app_l by lia.
    rewrite take_app_length' by (by rewrite length_insert). split_and!.
    + rewrite insert_take_drop by lia. rewrite <- (take_drop_middle l i w Hi) at 1.
      rewrite <- app_assoc. cbn [app]. rewrite (Permutation_app_comm (drop (S i) l)). cbn [app].
      rewrite !Permutation_middle. by rewrite (Permutation_swap x).
    + rewrite take_insert_ge by lia. by rewrite take_app_le by lia.
    + by rewrite length_insert.
Qed.

Lemma filter_id {W} (P : W → Prop) `{∀ x, Decision (P x)} l : Forall P l → filter P l = l.
Proof. induction 1; [done|]. rewrite filter_cons_True by done. by f_equal. Qed.

(** The loop joins the finished workers and keeps the others. *)
Lemma reap_spec {W} (finished : W → bool) fuel index ws :
  length ws - index ≤ fuel → Forall (λ w, finished w = false) (take index ws) →
  reap finished fuel index ws ≡ₚ filter (λ w, finished w = false) ws.
Proof.
  revert index ws. induction fuel as [|fuel IH]; intros index ws Hf Hu; cbn [reap].
  - rewrite take_ge in Hu by lia. by rewrite filter_id.
  - destruct (ws !! index) as [w|] eqn:Hi.
    2:{ apply lookup_ge_None in Hi. rewrite take_ge in Hu by lia. by rewrite filter_id. }
    destruct (finished w) eqn:Ew.
    + destruct (swap_remove_perm ws index w Hi) as (Hp & Ht & Hl).
      rewrite IH by (rewrite ?Ht; done || lia).
      rewrite Hp at 2. by rewrite filter_cons_False by congruence.
    + apply IH; [lia|]. rewrite (take_S_r _ _ w) by done. apply Forall_app. by auto.
Qed.

Lemma push_worker_spec {W} (finished : W → bool) ws w :
  push_worker finished ws w ≡ₚ filter (λ w, finished w = false) ws ++ [w].
Proof. unfold push_worker. by rewrite reap_spec by (done || lia). Qed.

(** ** The theorems *)

(** (C29) Emission by the NFQUEUE backend.  For every captured packet, every
    staged view and every behaviour of the operating system, the branch of
    [AcceptModified] does not panic.  On the wire are decoys (some first part
    of the burst) and then: the original if nothing could be rebuilt;
    otherwise the rebuilt packet, alone or in front of the original where that
    was asked for, its fragments, a part of its fragments and then the packet
    itself, or its segments.  The receiver gets the rebuilt packet from it,
    the only exception being segments cut off behind the first one; when the
    socket works and the worker is not stopped there is no exception and the
    burst of decoys is complete. *)
Theorem nfq_emission `{EtherparseLaws} env ip t payload view s :
  packet_wf ip t payload → view_ok view →
  let orig := packet ip t payload in
  let new := modified view.(pv_corrupt_tcp_checksum_delta) view ip t payload in
  ∃ verdict data s', nfq_modified env orig (layout_of ip t payload) view s =
    Done (verdict, data, s') ∧
  ∃ k rest,
    wire env (s'.(em_trace) ++ [Decided verdict data]) =
      wire env s.(em_trace) ++ take k (decoys view ip t payload) ++ rest ∧
    (env_good env → take k (decoys view ip t payload) = decoys view ip t payload) ∧
    if rebuildable view ip t payload then
      emission view orig new rest ∧
      (delivered new rest ∨ cut_short view new rest ∧ ¬ env_good env)
    else rest = [orig].
Proof.
  intros Hk Hok orig new.
  destruct (nfq_modified_spec env ip t payload view s Hk Hok)
    as ([[verdict data] s'] & k & rest & E & Hse & Hre & Hg).
  exists verdict, data, s'. split; [exact E|]. exists k, rest. split; [exact Hse|].
  fold orig new in Hre, Hg. split.
  { intros He. destruct (Hg He) as [Hse' _]. unfold settles, sends in Hse, Hse'.
    rewrite Hse in Hse'. apply app_inv_head in Hse'. by apply app_inv_tail in Hse'. }
  destruct (rebuildable view ip t payload) eqn:Hr; [|done]. split; [done|].
  destruct Hok as [Hv Hd Hp].
  pose proof (modified_bytes _ _ _ Hk view Hv Hr (pv_corrupt_tcp_checksum_delta view))
    as (Hb & Hlen & Hmax). fold new in Hb, Hlen. rewrite <- Hlen in Hmax.
  destruct (emission_delivers view orig new rest Hb Hmax Hp Hre) as [|Hc]; [by left|].
  right. split; [done|]. intros He. destruct (Hg He) as [_ Hpl].
  destruct Hc as (spec & segs & j & Hn & Hs & Hsp & -> & Hj).
  unfold planned in Hpl. rewrite Hn, Hs, Hsp in Hpl. injection Hpl as Hpl.
  apply (f_equal length) in Hpl. rewrite length_take in Hpl. lia.
Qed.


(** ** At work *)
Definition good_env : Env := MkEnv true (λ _, true) true (λ _, false) (λ _, true).
(** The second send fails. *)
Definition flaky_env : Env := MkEnv true (λ k, negb (k =? 1)) true (λ _, false) (λ _, true).

Lemma good_env_good : env_good good_env.
Proof. by constructor. Qed.

(** A decoy in front of the first data packet, which is sent in two segments
    in reverse order. *)
Definition shaped_view : PacketView :=
  set_decoy (Some (MkDecoyPacket 400 [1; 2; 3]%Z (MkTcpFlags false true true false false false)
                     true 2 0))
    (set_disorder_spec (Some (MkDisorderSpec 2 true 5 None))
      (fresh_view Outbound sample_ip sample_tcp_header sample_payload
        sample_tcp_header.(th_options) 8)).

Lemma shaped_view_ok : view_ok shaped_view.
Proof.
  constructor; [constructor; try done; by apply Forall_nil_2| |done].
  split; [simpl; unfold is_u32; lia|]. by apply is_bytesb_spec.
Qed.

(** A WinDivert that recomputes the checksums of what it can decode. *)
Definition wire_divert : WinDivert := λ l,
  match decode_ipv4 l with
  | Some ip =>
      match decode_tcp (drop (ipv4_header_len ip) l) with
      | Some t =>
          let payload := drop (ipv4_header_len ip + tcp_header_len t) l in
          let ip := set_ip_checksum (ipv4_header_checksum (ipv4_wire (set_ip_checksum 0 ip))) ip in
          packet ip (set_tcp_checksum (checksum_of ip t payload) t) payload
      | None => l
      end
  | None => l
  end.

Lemma wire_divert_laws : @WinDivertLaws wire_divert.
Proof.
  intros ip t payload Hk Hi Ht. unfold recalculate_checksums, wire_divert.
  assert (decode_ipv4 (packet ip t payload) = Some ip) as ->
    by (apply decode_ipv4_wire, (kw_ip _ _ _ Hk)).
  rewrite packet_drop_ip, decode_tcp_wire by apply (kw_tcp _ _ _ Hk).
  assert (drop (ipv4_header_len ip + tcp_header_len t) (packet ip t payload) = payload) as ->.
  { rewrite <- drop_drop, packet_drop_ip, <- length_tcp_wire. apply drop_app_length. }
  rewrite <- Hi.
  assert (set_ip_checksum (ih_header_checksum ip) ip = ip) as -> by (by destruct ip).
  rewrite <- Ht. by destruct t.
Qed.

Lemma nfq_emission_witness :
  ∃ verdict data s',
    @nfq_modified wire_codec flaky_env (packet sample_ip sample_tcp_header sample_payload)
      (layout_of sample_ip sample_tcp_header sample_payload) shaped_view (MkEm 0 []) =
      Done (verdict, data, s') ∧
    ∃ k rest,
      wire flaky_env (s'.(em_trace) ++ [Decided verdict data]) =
        take k (decoys shaped_view sample_ip sample_tcp_header sample_payload) ++ rest ∧
      emission shaped_view (packet sample_ip sample_tcp_header sample_payload)
        (modified None shaped_view sample_ip sample_tcp_header sample_payload) rest.
Proof.
  destruct (@nfq_emission wire_codec wire_codec_laws flaky_env sample_ip sample_tcp_header
    sample_payload shaped_view (MkEm 0 []) sample_packet_wf shaped_view_ok)
    as (verdict & data & s' & E & k & rest & Hw & _ & Hr).
  exists verdict, data, s'. split; [exact E|]. exists k, rest. split; [exact Hw|].
  assert (rebuildable shaped_view sample_ip sample_tcp_header sample_payload = true) as Ht
    by (vm_compute; reflexivity).
  rewrite Ht in Hr. exact (proj1 Hr).
Defined.


(** Where they part: if the first segment cannot be sent, NFQUEUE lets the
    rebuilt packet through, WinDivert the captured one, without what was
    staged on it. *)
Lemma disorder_fallback_differs :
  let view := set_new_payload (Some [9; 9; 9; 9]%Z) (set_decoy None shaped_view) in
  let env := MkEnv true (λ k, negb (k =? 0)) true (λ _, false) (λ _, true) in
  let orig := packet sample_ip sample_tcp_header sample_payload in
  let layout := layout_of sample_ip sample_tcp_header sample_payload in
  (∃ v data s, @nfq_modified wire_codec env orig layout view (MkEm 0 []) = Done (v, data, s) ∧
    wire env (s.(em_trace) ++ [Decided v data]) =
      [modified None view sample_ip sample_tcp_header sample_payload]) ∧
  (∃ s, @divert_modified wire_codec wire_divert env orig layout view (MkEm 0 []) = Done s ∧
    wire env s.(em_trace) = [orig]).
Proof. vm_compute. eauto 10. Qed.
