(* ===== verification/Flow.v ===== *)
(** * Flow tracking

    Model of [crates/zerodpi-core/src/flow.rs]: flow keys, the per-flow state,
    the shared flow record with its two notifiers, and the flow controller
    trait with its local implementation.  A shared record ([Arc<FlowEntry>]) is
    a location of a heap, so that the handle the proxy task keeps stays valid
    after the table has dropped the flow.  A notifier is the number of
    [notify_waiters] calls made on it. *)
From stdpp Require Import base list numbers gmap.
From Stdlib Require Import ZArith Lia.
From S2P Require Import Prelude.

(** ** Keys *)
Record FlowKey := MkFlowKey { fk_src_ip : Z; fk_src_port : Z; fk_dst_ip : Z; fk_dst_port : Z }.
#[export] Instance FlowKey_eq_dec : EqDecision FlowKey.
Proof. solve_decision. Defined.
#[export] Instance FlowKey_countable : Countable FlowKey.
Proof.
  refine (inj_countable' (λ k, (fk_src_ip k, fk_src_port k, fk_dst_ip k, fk_dst_port k))
    (λ '(a, b, c, d), MkFlowKey a b c d) _). by intros [].
Defined.

Definition reversed (k : FlowKey) : FlowKey :=
  MkFlowKey k.(fk_dst_ip) k.(fk_dst_port) k.(fk_src_ip) k.(fk_src_port).

(** ** Flow state *)
Inductive BypassOutcome := FakeDataAcked | UnexpectedClose.
#[export] Instance BypassOutcome_eq_dec : EqDecision BypassOutcome.
Proof. solve_decision. Defined.

Record FlowState := MkFlowState {
  monitor : bool;
  syn_seq : option Z;
  syn_ack_seq : option Z;
  fake_sent : bool;
  waiting_for_data : bool;
  first_data_modified : bool;
  waiting_for_first_data_ack : bool;
  fragment_all_data : bool;
  outcome : option BypassOutcome;
  fake_data : list Z;
  low_ttl_override : option Z;
}.

Definition set_monitor (v : bool) (s : FlowState) : FlowState :=
  MkFlowState
    v s.(syn_seq) s.(syn_ack_seq) s.(fake_sent) s.(waiting_for_data) s.(first_data_modified)
    s.(waiting_for_first_data_ack) s.(fragment_all_data) s.(outcome) s.(fake_data)
    s.(low_ttl_override).
Definition set_syn_seq (v : option Z) (s : FlowState) : FlowState :=
  MkFlowState
    s.(monitor) v s.(syn_ack_seq) s.(fake_sent) s.(waiting_for_data) s.(first_data_modified)
    s.(waiting_for_first_data_ack) s.(fragment_all_data) s.(outcome) s.(fake_data)
    s.(low_ttl_override).
Definition set_syn_ack_seq (v : option Z) (s : FlowState) : FlowState :=
  MkFlowState
    s.(monitor) s.(syn_seq) v s.(fake_sent) s.(waiting_for_data) s.(first_data_modified)
    s.(waiting_for_first_data_ack) s.(fragment_all_data) s.(outcome) s.(fake_data)
    s.(low_ttl_override).
Definition set_fake_sent (v : bool) (s : FlowState) : FlowState :=
  MkFlowState
    s.(monitor) s.(syn_seq) s.(syn_ack_seq) v s.(waiting_for_data) s.(first_data_modified)
    s.(waiting_for_first_data_ack) s.(fragment_all_data) s.(outcome) s.(fake_data)
    s.(low_ttl_override).
Definition set_waiting_for_data (v : bool) (s : FlowState) : FlowState :=
  MkFlowState
    s.(monitor) s.(syn_seq) s.(syn_ack_seq) s.(fake_sent) v s.(first_data_modified)
    s.(waiting_for_first_data_ack) s.(fragment_all_data) s.(outcome) s.(fake_data)
    s.(low_ttl_override).
Definition set_first_data_modified (v : bool) (s : FlowState) : FlowState :=
  MkFlowState
    s.(monitor) s.(syn_seq) s.(syn_ack_seq) s.(fake_sent) s.(waiting_for_data) v
    s.(waiting_for_first_data_ack) s.(fragment_all_data) s.(outcome) s.(fake_data)
    s.(low_ttl_override).
Definition set_waiting_for_first_data_ack (v : bool) (s : FlowState) : FlowState :=
  MkFlowState
    s.(monitor) s.(syn_seq) s.(syn_ack_seq) s.(fake_sent) s.(waiting_for_data)
    s.(first_data_modified) v s.(fragment_all_data) s.(outcome) s.(fake_data)
    s.(low_ttl_override).
Definition set_fragment_all_data (v : bool) (s : FlowState) : FlowState :=
  MkFlowState
    s.(monitor) s.(syn_seq) s.(syn_ack_seq) s.(fake_sent) s.(waiting_for_data)
    s.(first_data_modified) s.(waiting_for_first_data_ack) v s.(outcome) s.(fake_data)
    s.(low_ttl_override).
Definition set_outcome (v : option BypassOutcome) (s : FlowState) : FlowState :=
  MkFlowState
    s.(monitor) s.(syn_seq) s.(syn_ack_seq) s.(fake_sent) s.(waiting_for_data)
    s.(first_data_modified) s.(waiting_for_first_data_ack) s.(fragment_all_data) v s.(fake_data)
    s.(low_ttl_override).

Definition FlowState_new (data : list Z) (ttl : option Z) : FlowState :=
  MkFlowState true None None false false false false false None data ttl.

Record FlowEntry := MkFlowEntry {
  fe_state : FlowState;
  fe_ready_for_data : nat;
  fe_notify : nat }.

Definition FlowEntry_new (data : list Z) (ttl : option Z) : FlowEntry :=
  MkFlowEntry (FlowState_new data ttl) 0 0.

Definition with_state (s : FlowState) (e : FlowEntry) : FlowEntry :=
  MkFlowEntry s e.(fe_ready_for_data) e.(fe_notify).
Definition notify_waiters (e : FlowEntry) : FlowEntry :=
  MkFlowEntry e.(fe_state) e.(fe_ready_for_data) (S e.(fe_notify)).
Definition notify_ready (e : FlowEntry) : FlowEntry :=
  MkFlowEntry e.(fe_state) (S e.(fe_ready_for_data)) e.(fe_notify).

Definition is_none {A} (o : option A) : bool := match o with None => true | Some _ => false end.

Definition finish (o : BypassOutcome) (e : FlowEntry) : FlowEntry :=
  let s := e.(fe_state) in
  if is_none s.(outcome) then
    notify_waiters (with_state (set_monitor false (set_outcome (Some o) s)) e)
  else e.

Definition signal_outcome (o : BypassOutcome) (e : FlowEntry) : FlowEntry :=
  let s := e.(fe_state) in
  if is_none s.(outcome) then notify_waiters (with_state (set_outcome (Some o) s) e)
  else e.

(** ** The controller trait

    [register_flow] returns the new world and the shared handle, or [None]
    for the [Err] of a rejected registration.  [tracked] is the table as the
    contract sees it, [entry_at] what a holder of a handle reads. *)
Class FlowController (W : Type) := {
  tracked : FlowKey → W → option nat;
  entry_at : nat → W → option FlowEntry;
  register_flow : FlowKey → list Z → option Z → W → option (W * nat);
  flow_exists : FlowKey → W → bool;
  remove_flow : FlowKey → W → W;
  reset : W → W;
}.

(** What the trait's documentation promises. *)
Class FlowControllerLaws (W : Type) `{FlowController W} (wf : W → Prop) := {
  flow_exists_tracked k w : wf w → flow_exists k w = negb (is_none (tracked k w));
  tracked_entry k h w : wf w → tracked k w = Some h → is_Some (entry_at h w);
  tracked_inj k1 k2 h w : wf w → tracked k1 w = Some h → tracked k2 w = Some h → k1 = k2;
  register_flow_ok k data ttl w : wf w → tracked k w = None →
    ∃ w' h, register_flow k data ttl w = Some (w', h) ∧ wf w' ∧
      entry_at h w = None ∧ entry_at h w' = Some (FlowEntry_new data ttl) ∧
      (∀ h', h' ≠ h → entry_at h' w' = entry_at h' w) ∧
      (∀ k', tracked k' w' = if decide (k' = k) then Some h else tracked k' w);
  register_flow_dup k data ttl h w : wf w → tracked k w = Some h →
    register_flow k data ttl w = None;
  remove_flow_spec k w : wf w → wf (remove_flow k w) ∧
    (∀ h, entry_at h (remove_flow k w) = entry_at h w) ∧
    (∀ k', tracked k' (remove_flow k w) = if decide (k' = k) then None else tracked k' w);
  reset_spec w : wf w → wf (reset w) ∧
    (∀ k, tracked k (reset w) = None) ∧
    (∀ k h e, tracked k w = Some h → entry_at h w = Some e →
      entry_at h (reset w) = Some (finish UnexpectedClose e)) ∧
    (∀ h, (∀ k, tracked k w ≠ Some h) → entry_at h (reset w) = entry_at h w);
}.

(** ** The local controller *)
Record LocalFlows := MkLocalFlows {
  lf_flows : gmap FlowKey nat;
  lf_heap : gmap nat FlowEntry;
  lf_next : nat }.

Definition new_flow_table : LocalFlows := MkLocalFlows ∅ ∅ 0.

Definition local_register (k : FlowKey) (data : list Z) (ttl : option Z) (w : LocalFlows)
    : option (LocalFlows * nat) :=
  match w.(lf_flows) !! k with
  | None =>
      let h := w.(lf_next) in
      Some (MkLocalFlows (<[k := h]> w.(lf_flows)) (<[h := FlowEntry_new data ttl]> w.(lf_heap))
              (S h), h)
  | Some _ => None
  end.

Definition local_exists (k : FlowKey) (w : LocalFlows) : bool :=
  match w.(lf_flows) !! k with Some _ => true | None => false end.

Definition local_remove (k : FlowKey) (w : LocalFlows) : LocalFlows :=
  MkLocalFlows (delete k w.(lf_flows)) w.(lf_heap) w.(lf_next).

(** The loop of [reset]: every entry of the table is finished. *)
Definition finish_all (l : list (FlowKey * nat)) (heap : gmap nat FlowEntry) : gmap nat FlowEntry :=
  foldl (λ heap '(_, h), alter (finish UnexpectedClose) h heap) heap l.

Definition local_reset (w : LocalFlows) : LocalFlows :=
  MkLocalFlows ∅ (finish_all (map_to_list w.(lf_flows)) w.(lf_heap)) w.(lf_next).

#[export] Instance LocalFlowController : FlowController LocalFlows := {
  tracked k w := w.(lf_flows) !! k;
  entry_at h w := w.(lf_heap) !! h;
  register_flow := local_register;
  flow_exists := local_exists;
  remove_flow := local_remove;
  reset := local_reset;
}.

(** ** Lemmas *)
Lemma reversed_involutive k : reversed (reversed k) = k.
Proof. by destruct k. Qed.

Lemma finish_idempotent o o' e : finish o (finish o' e) = finish o' e.
Proof. unfold finish. destruct (is_none (outcome (fe_state e))) eqn:E; simpl; by rewrite ?E. Qed.

Lemma lookup_finish_all l heap h :
  finish_all l heap !! h =
    if decide (h ∈ l.*2) then finish UnexpectedClose <$> heap !! h else heap !! h.
Proof.
  revert heap; induction l as [|[k h'] l IH]; intros heap; simpl; [done|].
  rewrite IH. destruct (decide (h = h')) as [->|Hne].
  - rewrite lookup_alter_eq.
    rewrite (decide_True _ _ (list_elem_of_here h' _)).
    case_decide; [|done]. destruct (heap !! h'); simpl; [|done]. by rewrite finish_idempotent.
  - rewrite lookup_alter_ne by done.
    repeat case_decide; set_solver.
Qed.

(** The well-formedness of the local table. *)
Record local_wf (w : LocalFlows) : Prop := {
  lw_entry : ∀ k h, w.(lf_flows) !! k = Some h → is_Some (w.(lf_heap) !! h);
  lw_fresh : ∀ h, w.(lf_next) ≤ h → w.(lf_heap) !! h = None;
  lw_inj : ∀ k1 k2 h, w.(lf_flows) !! k1 = Some h → w.(lf_flows) !! k2 = Some h → k1 = k2;
}.

Lemma local_wf_new : local_wf new_flow_table.
Proof. constructor; simpl; intros *; rewrite ?lookup_empty; naive_solver. Qed.

Lemma local_register_ok k data ttl w : local_wf w → w.(lf_flows) !! k = None →
  ∃ w' h, local_register k data ttl w = Some (w', h) ∧ local_wf w' ∧
    w.(lf_heap) !! h = None ∧ w'.(lf_heap) !! h = Some (FlowEntry_new data ttl) ∧
    (∀ h', h' ≠ h → w'.(lf_heap) !! h' = w.(lf_heap) !! h') ∧
    (∀ k', w'.(lf_flows) !! k' = if decide (k' = k) then Some h else w.(lf_flows) !! k').
Proof.
  intros [We Wf Wi] Hk. unfold local_register. rewrite Hk. do 2 eexists; split; [done|]. simpl.
  assert (∀ k' h, lf_flows w !! k' = Some h → h ≠ lf_next w) as Hlt.
  { intros k' h Hh ->. apply We in Hh as [? Hh]. by rewrite Wf in Hh. }
  split; [constructor; simpl|split; [by apply Wf|split; [by rewrite lookup_insert_eq|split]]].
  - intros k' h. rewrite lookup_insert. case_decide; subst.
    + intros [= <-]. rewrite lookup_insert_eq. eauto.
    + intros Hh. rewrite lookup_insert_ne by (symmetry; eauto). eauto.
  - intros h Hh. rewrite lookup_insert_ne by lia. apply Wf. lia.
  - intros k1 k2 h. rewrite !lookup_insert. repeat case_decide; subst; try done.
    + intros [= <-] H2. by apply Hlt in H2.
    + intros H1 [= <-]. by apply Hlt in H1.
    + eauto.
  - intros h' Hne. by rewrite lookup_insert_ne.
  - intros k'. rewrite lookup_insert. repeat case_decide; congruence.
Qed.

(** The local controller keeps the trait's contract. *)
#[export] Instance LocalFlowControllerLaws : FlowControllerLaws LocalFlows local_wf.
Proof.
  constructor; simpl.
  - intros k w _. unfold local_exists. by destruct (_ !! k).
  - intros k h w W. apply W.
  - intros k1 k2 h w W. apply W.
  - apply local_register_ok.
  - intros k data ttl h w _ Hk. unfold local_register. by rewrite Hk.
  - intros k w [We Wf Wi]. split; [constructor; simpl|split; [done|]].
    + intros k' h [_ ?]%lookup_delete_Some. eauto.
    + done.
    + intros k1 k2 h [_ ?]%lookup_delete_Some [_ ?]%lookup_delete_Some. eauto.
    + intros k'. rewrite lookup_delete. repeat case_decide; congruence.
  - intros w [We Wf Wi]. split; [constructor; simpl|split; [|split]].
    + intros *. by rewrite lookup_empty.
    + intros h Hh. rewrite lookup_finish_all, Wf by done. by case_decide.
    + intros *. by rewrite lookup_empty.
    + intros k. apply lookup_empty.
    + intros k h e Hk He. rewrite lookup_finish_all, He, decide_True; [done|].
      apply list_elem_of_fmap. exists (k, h). split; [done|]. by apply elem_of_map_to_list.
    + intros h Hh. rewrite lookup_finish_all, decide_False; [done|].
      intros ([k h'] & -> & Hk)%list_elem_of_fmap. apply elem_of_map_to_list in Hk. by eapply Hh.
Qed.
