(* ===== verification/Sni.v ===== *)
(** * The SNI locator

    Model of [crates/zerodpi-core/src/methods/sni.rs]: [find_sni_boundary],
    which walks a TLS ClientHello down to its [server_name] extension.  The
    theorems: the name it returns lies inside the payload; it finds the name
    of every well-formed ClientHello; and the exact inputs on which its
    unchecked indexing panics. *)
From stdpp Require Import base list numbers.
From Stdlib Require Import ZArith Lia.
From S2P Require Import Prelude.

(** ** Definitions *)
Record SniBoundary := MkSniBoundary {
  sb_ext_len_field_end : nat;
  sb_name_start : nat;
  sb_name_len : nat }.

(** [u16::from_be_bytes([l[i], l[i+1]]) as usize] *)
Definition be16_at (l : list Z) (i : nat) : exec nat :=
  let! a := idx l i in
  let! b := idx l (S i) in
  Done (Z.to_nat (from_be16 a b)).

(** The [server_name] branch of the extension loop. *)
Definition sni_entry (ext_data : list Z) (p e : nat) : exec (option SniBoundary) :=
  let? list_pair := get_range ext_data 0 2 in
  let! list_len := be16_at list_pair 0 in
  let? lst := get_range ext_data 2 (2 + list_len) in
  if bool_decide (head lst = Some 0%Z) then
    let? name_pair := get_range lst 1 3 in
    let! name_len := be16_at name_pair 0 in
    if name_len =? 0 then Done None
    else
      let? _ := get_range lst 3 (3 + name_len) in
      let ext_header_start := 9 + p + e in
      Done (Some (MkSniBoundary (ext_header_start + 4) (ext_header_start + 4 + 2 + 1 + 2) name_len))
  else Done None.

(** The extension loop from offset [e]; [length extensions] iterations are
    enough, each moving by at least four bytes ([sni_walk_fuel]). *)
Fixpoint sni_walk (fuel : nat) (extensions : list Z) (p e : nat) : exec (option SniBoundary) :=
  match fuel with
  | O => Done None
  | S fuel' =>
      if e + 4 <=? length extensions then
        let! ext_len := be16_at extensions (e + 2) in
        let? ext_data := get_range extensions (e + 4) (e + 4 + ext_len) in
        let! ext_type := be16_at extensions e in
        if ext_type =? 0 then sni_entry ext_data p e
        else sni_walk fuel' extensions p (e + (4 + ext_len))
      else Done None
  end.

(** The part of [find_sni_boundary] that works on the handshake body. *)
Definition sni_in_body (body : list Z) : exec (option SniBoundary) :=
  let off := 2 + 32 + 1 in
  let? sid := body !! (off - 1) in
  let off := off + Z.to_nat sid in
  let? cs_pair := get_range body off (off + 2) in
  let! cs_len := be16_at cs_pair 0 in
  let off := off + (2 + cs_len) in
  let? cm := body !! off in
  let off := off + (1 + Z.to_nat cm) in
  let? ext_pair := get_range body off (off + 2) in
  let! ext_total := be16_at ext_pair 0 in
  let p := off + 2 in
  let? extensions := get_range body p (p + ext_total) in
  sni_walk (S (length extensions)) extensions p 0.

Definition find_sni_boundary (data : list Z) : exec (option SniBoundary) :=
  let? record_header := get_range data 0 5 in
  let! content_type := idx record_header 0 in
  if (content_type =? 0x16)%Z then
    let! record_len := be16_at record_header 3 in
    let? record_body := get_range data 5 (5 + record_len) in
    if bool_decide (head record_body = Some 1%Z) then
      let! b1 := idx record_body 1 in
      let! b2 := idx record_body 2 in
      let! b3 := idx record_body 3 in
      let hs_len := Z.to_nat (Z.lor (Z.lor (Z.shiftl b1 16) (Z.shiftl b2 8)) b3) in
      let? body := get_range record_body 4 (4 + hs_len) in
      sni_in_body body
    else Done None
  else Done None.

Definition find_sni_range (data : list Z) : exec (option (nat * nat)) :=
  exec_map (option_map (λ b, (b.(sb_name_start), b.(sb_name_len)))) (find_sni_boundary data).

(** ** Panics *)
Lemma be16_at_done l i : S i < length l → ∃ v, be16_at l i = Done v.
Proof.
  intros H. unfold be16_at.
  destruct (idx_done l i ltac:(lia)) as (a & -> & _).
  destruct (idx_done l (S i) ltac:(lia)) as (b & -> & _). simpl. eauto.
Qed.

Lemma be16_at_range {l a b s} i :
  get_range l a b = Some s → S i < b - a → ∃ v, be16_at s i = Done v.
Proof. intros (_ & _ & _ & Hl)%get_range_inv Hi. apply be16_at_done. lia. Qed.

(** Steps through one [?], one indexing or one test. *)
Ltac sni_step :=
  match goal with
  | |- context [try_opt ?o _] => destruct o eqn:?; cbn [try_opt]; [|by eexists]
  | |- context [exec_bind (be16_at ?s ?i) _] =>
      let v := fresh "v" in let E := fresh "E" in
      assert (∃ v, be16_at s i = Done v) as [v E];
        [first [by eapply be16_at_range; [eassumption|lia] | apply be16_at_done; lia]|
         rewrite E; cbn [exec_bind]]
  | |- context [if ?b then _ else _] => destruct b eqn:?; [|by eexists]
  end.

Lemma sni_entry_total ext_data p e : ∃ r, sni_entry ext_data p e = Done r.
Proof.
  unfold sni_entry. repeat sni_step. destruct (_ =? 0); repeat sni_step; by eexists.
Qed.

Lemma sni_walk_total fuel extensions p e : ∃ r, sni_walk fuel extensions p e = Done r.
Proof.
  revert e; induction fuel as [|fuel IH]; intros e; simpl; [by eexists|].
  destruct (e + 4 <=? length extensions) eqn:E; [|by eexists]. bool_to_prop.
  sni_step. sni_step. sni_step. destruct (_ =? 0); [apply sni_entry_total|apply IH].
Qed.

(** More fuel than the extensions have bytes left changes nothing. *)
Lemma sni_walk_fuel f1 f2 extensions p e :
  length extensions < f1 + e → length extensions < f2 + e →
  sni_walk f1 extensions p e = sni_walk f2 extensions p e.
Proof.
  revert f2 e; induction f1 as [|f1 IH]; intros [|f2] e H1 H2; simpl; try done.
  - destruct (Nat.leb_spec (e + 4) (length extensions)); [lia|done].
  - destruct (Nat.leb_spec (e + 4) (length extensions)); [lia|done].
  - destruct (e + 4 <=? length extensions); [|done].
    destruct (be16_at extensions (e + 2)) as [n|]; [|done]. cbn [exec_bind].
    destruct (get_range _ _ _); [|done]. cbn [try_opt].
    destruct (be16_at extensions e) as [ty|]; [|done]. cbn [exec_bind].
    destruct (ty =? 0); [done|]. apply IH; lia.
Qed.

Lemma sni_in_body_total body : ∃ r, sni_in_body body = Done r.
Proof.
  unfold sni_in_body. sni_step. sni_step. sni_step. sni_step. sni_step. sni_step. sni_step.
  apply sni_walk_total.
Qed.

(** The record body that [find_sni_boundary] indexes. *)
Definition sni_record_body (data : list Z) : option (list Z) :=
  if (length data <? 5) || negb (data !!! 0%nat =? 0x16)%Z then None
  else get_range data 5 (5 + Z.to_nat (from_be16 (data !!! 3) (data !!! 4))).

Lemma head_lookup_total (l : list Z) x : head l = Some x → l !!! 0 = x.
Proof. destruct l; simpl; congruence. Qed.

Lemma be16_at_total l i : S i < length l → be16_at l i = Done (Z.to_nat (from_be16 (l !!! i) (l !!! (S i)))).
Proof.
  intros H. unfold be16_at.
  rewrite (idx_lookup l i (l !!! i)), (idx_lookup l (S i) (l !!! S i))
    by (apply list_lookup_lookup_total_lt; lia). done.
Qed.

Lemma sni_panic_shape data :
  find_sni_boundary data = Panic ↔
  ∃ body, sni_record_body data = Some body ∧ head body = Some 1%Z ∧ length body < 4.
Proof.
  unfold find_sni_boundary, sni_record_body.
  destruct (get_range data 0 5) as [hdr|] eqn:Eh; cbn [try_opt].
  2:{ apply get_range_none in Eh; [|lia]. rewrite (proj2 (Nat.ltb_lt _ _)) by lia. simpl.
      split; [done|]. naive_solver. }
  pose proof (get_range_inv _ _ _ _ Eh) as (_ & Hl & _ & Hlh).
  rewrite (proj2 (Nat.ltb_ge _ _)) by lia. cbn [orb].
  assert (∀ i, i < 5 → hdr !!! i = data !!! i) as Hi.
  { intros i Hi. rewrite !list_lookup_total_alt. f_equal.
    rewrite (lookup_get_range _ _ _ _ i Eh) by lia. done. }
  rewrite (idx_lookup hdr 0 (data !!! 0))
    by (rewrite <- Hi by lia; apply list_lookup_lookup_total_lt; lia). cbn [exec_bind].
  destruct (data !!! 0%nat =? 22)%Z; cbn [negb]; [|naive_solver].
  rewrite be16_at_total by lia. cbn [exec_bind]. rewrite !Hi by lia.
  destruct (get_range data 5 _) as [body|] eqn:Eb; cbn [try_opt]; [|naive_solver].
  destruct (bool_decide (head body = Some 1%Z)) eqn:E1.
  2:{ apply bool_decide_eq_false in E1. split; [done|]. naive_solver. }
  apply bool_decide_eq_true in E1.
  destruct (decide (length body < 4)) as [Hlt|Hge].
  - split; [intros _; eauto|intros _].
    destruct (decide (length body ≤ 1)); [by rewrite (idx_panic body 1)|].
    destruct (idx_done body 1 ltac:(lia)) as (b1 & -> & _). cbn [exec_bind].
    destruct (decide (length body ≤ 2)); [by rewrite (idx_panic body 2)|].
    destruct (idx_done body 2 ltac:(lia)) as (b2 & -> & _). cbn [exec_bind].
    by rewrite (idx_panic body 3) by lia.
  - split; [|naive_solver lia].
    destruct (idx_done body 1 ltac:(lia)) as (b1 & -> & _).
    destruct (idx_done body 2 ltac:(lia)) as (b2 & -> & _).
    destruct (idx_done body 3 ltac:(lia)) as (b3 & -> & _). cbn [exec_bind].
    destruct (get_range body 4 _) as [bd|]; cbn [try_opt]; [|done].
    destruct (sni_in_body_total bd) as [r ->]. done.
Qed.

(** A record that announces four body bytes or more is safe to look at. *)
Lemma sni_panic_short data : find_sni_boundary data = Panic →
  (Z.to_nat (from_be16 (data !!! 3) (data !!! 4)) < 4)%nat.
Proof.
  intros (body & Hb & _ & Hl)%sni_panic_shape. unfold sni_record_body in Hb.
  case_match; [done|]. apply get_range_inv in Hb as (_ & _ & _ & Hb). lia.
Qed.

(** (C3) Exactly when the SNI locator panics: [find_sni_boundary] indexes
    three bytes of the handshake header behind a check that only the first one
    exists, so it panics on a complete handshake record of one, two or three
    body bytes that starts with the ClientHello type, and on no other input. *)
Theorem find_sni_boundary_panics_iff data :
  find_sni_boundary data = Panic ↔
  ∃ body, sni_record_body data = Some body ∧ head body = Some 1%Z ∧ length body < 4.
Proof. apply sni_panic_shape. Qed.

Example find_sni_boundary_panics : find_sni_boundary [0x16; 3; 1; 0; 1; 1]%Z = Panic.
Proof. reflexivity. Qed.

(** ** Soundness: the name is inside the payload *)
Lemma sni_entry_bounds ext_data p e b :
  sni_entry ext_data p e = Done (Some b) →
  b.(sb_ext_len_field_end) = 9 + p + e + 4 ∧
  b.(sb_name_start) = b.(sb_ext_len_field_end) + 5 ∧
  0 < b.(sb_name_len) ∧ 5 + b.(sb_name_len) ≤ length ext_data.
Proof.
  unfold sni_entry.
  destruct (get_range ext_data 0 2) as [lp|] eqn:E1; cbn [try_opt]; [|done].
  destruct (be16_at lp 0) as [ll|]; cbn [exec_bind]; [|done].
  destruct (get_range ext_data 2 (2 + ll)) as [l|] eqn:E2; cbn [try_opt]; [|done].
  destruct (bool_decide _); [|done].
  destruct (get_range l 1 3) as [np|] eqn:E3; cbn [try_opt]; [|done].
  destruct (be16_at np 0) as [nl|]; cbn [exec_bind]; [|done].
  destruct (nl =? 0) eqn:E4; [done|].
  destruct (get_range l 3 (3 + nl)) eqn:E5; cbn [try_opt]; [|done].
  intros [= <-]. cbn [sb_ext_len_field_end sb_name_start sb_name_len]. bool_to_prop.
  apply get_range_inv in E2 as (_ & H2 & _ & Hl2). apply get_range_inv in E5 as (_ & H5 & _ & _).
  lia.
Qed.

Lemma sni_walk_bounds fuel extensions p e b :
  sni_walk fuel extensions p e = Done (Some b) →
  b.(sb_name_start) = b.(sb_ext_len_field_end) + 5 ∧ 9 + p + 4 ≤ b.(sb_ext_len_field_end) ∧
  0 < b.(sb_name_len) ∧ b.(sb_name_start) + b.(sb_name_len) ≤ 9 + p + length extensions.
Proof.
  revert e; induction fuel as [|fuel IH]; intros e; simpl; [done|].
  destruct (e + 4 <=? length extensions); [|done].
  destruct (be16_at extensions (e + 2)) as [el|]; cbn [exec_bind]; [|done].
  destruct (get_range extensions (e + 4) _) as [ed|] eqn:E; cbn [try_opt]; [|done].
  destruct (be16_at extensions e) as [et|]; cbn [exec_bind]; [|done].
  destruct (et =? 0); [|apply IH].
  intros (H1 & H2 & H3 & H4)%sni_entry_bounds.
  apply get_range_inv in E as (_ & Hb & _ & Hl). lia.
Qed.

Lemma sni_in_body_bounds body b :
  sni_in_body body = Done (Some b) →
  b.(sb_name_start) = b.(sb_ext_len_field_end) + 5 ∧ 50 < b.(sb_ext_len_field_end) ∧
  0 < b.(sb_name_len) ∧ b.(sb_name_start) + b.(sb_name_len) ≤ 9 + length body.
Proof.
  unfold sni_in_body.
  destruct (body !! _) as [sid|]; cbn [try_opt]; [|done].
  destruct (get_range body _ _) as [cs|]; cbn [try_opt]; [|done].
  destruct (be16_at cs 0) as [cl|]; cbn [exec_bind]; [|done].
  destruct (body !! _) as [cm|]; cbn [try_opt]; [|done].
  destruct (get_range body _ _) as [ep|]; cbn [try_opt]; [|done].
  destruct (be16_at ep 0) as [et|]; cbn [exec_bind]; [|done].
  destruct (get_range body _ _) as [ex|] eqn:E; cbn [try_opt]; [|done].
  intros (H1 & H2 & H3 & H4)%sni_walk_bounds.
  apply get_range_inv in E as (_ & Hb & _ & Hl). lia.
Qed.

Lemma find_sni_boundary_bounds data b :
  find_sni_boundary data = Done (Some b) →
  b.(sb_name_start) = b.(sb_ext_len_field_end) + 5 ∧ 50 < b.(sb_ext_len_field_end) ∧
  0 < b.(sb_name_len) ∧ b.(sb_name_start) + b.(sb_name_len) ≤ length data.
Proof.
  unfold find_sni_boundary.
  destruct (get_range data 0 5) as [hdr|]; cbn [try_opt]; [|done].
  destruct (idx hdr 0) as [ct|]; cbn [exec_bind]; [|done]. destruct (ct =? 22)%Z; [|done].
  destruct (be16_at hdr 3) as [rl|]; cbn [exec_bind]; [|done].
  destruct (get_range data 5 _) as [rb|] eqn:Er; cbn [try_opt]; [|done].
  destruct (bool_decide _); [|done].
  destruct (idx rb 1) as [b1|]; cbn [exec_bind]; [|done].
  destruct (idx rb 2) as [b2|]; cbn [exec_bind]; [|done].
  destruct (idx rb 3) as [b3|]; cbn [exec_bind]; [|done].
  destruct (get_range rb 4 _) as [bd|] eqn:Eb; cbn [try_opt]; [|done].
  intros (H1 & H2 & H3 & H4)%sni_in_body_bounds.
  apply get_range_inv in Er as (_ & Hr & _ & Hlr). apply get_range_inv in Eb as (_ & Hb & _ & Hlb).
  lia.
Qed.

Lemma find_sni_range_bounds data st len :
  find_sni_range data = Done (Some (st, len)) → 0 < len ∧ st + len ≤ length data.
Proof.
  unfold find_sni_range. destruct (find_sni_boundary data) as [[b|]|] eqn:E; try done.
  intros [= <- <-]. apply find_sni_boundary_bounds in E. lia.
Qed.

(** Where a name is found, at least four body bytes are announced. *)
Lemma sni_found_word data b : find_sni_boundary data = Done (Some b) →
  (4 ≤ Z.to_nat (from_be16 (data !!! 3) (data !!! 4)))%nat.
Proof.
  intros Hf. destruct (decide (Z.to_nat (from_be16 (data !!! 3) (data !!! 4)) < 4)%nat) as [Hlt|];
    [|lia].
  assert (find_sni_boundary data = Panic); [|congruence]. apply sni_panic_shape.
  unfold sni_record_body. revert Hf. unfold find_sni_boundary.
  destruct (get_range data 0 5) as [hdr|] eqn:Eh; cbn [try_opt]; [|done].
  pose proof (get_range_inv _ _ _ _ Eh) as (_ & Hl & _ & Hlh).
  rewrite (proj2 (Nat.ltb_ge _ _)) by lia. cbn [orb].
  assert (∀ i, i < 5 → hdr !!! i = data !!! i) as Hi.
  { intros i Hi. rewrite !list_lookup_total_alt. f_equal.
    rewrite (lookup_get_range _ _ _ _ i Eh) by lia. done. }
  rewrite (idx_lookup hdr 0 (data !!! 0))
    by (rewrite <- Hi by lia; apply list_lookup_lookup_total_lt; lia). cbn [exec_bind].
  destruct (data !!! 0%nat =? 22)%Z; cbn [negb]; [|done].
  rewrite be16_at_total by lia. cbn [exec_bind]. rewrite !Hi by lia.
  destruct (get_range data 5 _) as [body|] eqn:Eb; cbn [try_opt]; [|done].
  apply get_range_inv in Eb as (_ & _ & _ & Hbl).
  destruct (bool_decide (head body = Some 1%Z)) eqn:E1; [|done].
  apply bool_decide_eq_true in E1. intros _. exists body. split_and!; [done..|lia].
Qed.

(** The SNI locator is sound: the name it reports is not empty and lies
    inside the payload, five bytes behind the end of the extension's length
    field, and never in the first fifty bytes. *)
Theorem find_sni_boundary_in_bounds data b :
  find_sni_boundary data = Done (Some b) →
  b.(sb_name_start) = b.(sb_ext_len_field_end) + 5 ∧ 50 < b.(sb_ext_len_field_end) ∧
  0 < b.(sb_name_len) ∧ b.(sb_name_start) + b.(sb_name_len) ≤ length data.
Proof. apply find_sni_boundary_bounds. Qed.

(** ** Completeness: every well-formed ClientHello *)

(** A ClientHello as data, with its [server_name] extension singled out. *)
Record ClientHello := MkClientHello {
  ch_version : list Z;
  ch_random : list Z;
  ch_sid : list Z;
  ch_suites : list Z;
  ch_comp : list Z;
  ch_before : list (Z * list Z);
  ch_name : list Z;
  ch_after : list (Z * list Z) }.

Definition zlen (l : list Z) : Z := Z.of_nat (length l).

Definition ser_ext (x : Z * list Z) : list Z := to_be16 x.1 ++ to_be16 (zlen x.2) ++ x.2.
Definition ser_exts (xs : list (Z * list Z)) : list Z := concat (map ser_ext xs).
Definition sni_data (name : list Z) : list Z :=
  to_be16 (zlen name + 3) ++ [0%Z] ++ to_be16 (zlen name) ++ name.
Definition ch_exts (c : ClientHello) : list Z :=
  ser_exts (ch_before c) ++ ser_ext (0%Z, sni_data (ch_name c)) ++ ser_exts (ch_after c).

(** The parts of the handshake body, in order. *)
Definition ch_head (c : ClientHello) : list Z := ch_version c ++ ch_random c.
Definition ch_upto_suites (c : ClientHello) : list Z := ch_head c ++ zlen (ch_sid c) :: ch_sid c.
Definition ch_upto_comp (c : ClientHello) : list Z :=
  ch_upto_suites c ++ to_be16 (zlen (ch_suites c)) ++ ch_suites c.
Definition ch_upto_exts (c : ClientHello) : list Z :=
  ch_upto_comp c ++ zlen (ch_comp c) :: ch_comp c.
Definition ch_body (c : ClientHello) : list Z :=
  ch_upto_exts c ++ to_be16 (zlen (ch_exts c)) ++ ch_exts c.
Definition ch_handshake (c : ClientHello) : list Z :=
  [1; (zlen (ch_body c) / 65536) mod 256; (zlen (ch_body c) / 256) mod 256;
   zlen (ch_body c) mod 256]%Z ++ ch_body c.
Definition ch_record (c : ClientHello) : list Z :=
  [0x16; 3; 1]%Z ++ to_be16 (zlen (ch_handshake c)) ++ ch_handshake c.

Definition ch_ext_start (c : ClientHello) : nat :=
  9 + (length (ch_upto_exts c) + 2) + length (ser_exts (ch_before c)).

Record ch_wf (c : ClientHello) : Prop := {
  wf_version : length (ch_version c) = 2;
  wf_random : length (ch_random c) = 32;
  wf_sid : (zlen (ch_sid c) < 256)%Z;
  wf_comp : (zlen (ch_comp c) < 256)%Z;
  wf_before : Forall (λ x, (0 < x.1 < 65536)%Z) (ch_before c);
  wf_name : ch_name c ≠ [];
  wf_size : (zlen (ch_handshake c) < 65536)%Z }.

Lemma be16_at_app l1 z l2 i :
  is_u16 z → i = length l1 → be16_at (l1 ++ to_be16 z ++ l2) i = Done (Z.to_nat z).
Proof.
  intros Hz ->. unfold be16_at.
  rewrite (idx_lookup _ (length l1) ((z / 256) mod 256)%Z)
    by (rewrite lookup_app_r, Nat.sub_diag by lia; done).
  rewrite (idx_lookup _ (S (length l1)) (z mod 256)%Z)
    by (rewrite lookup_app_r, Nat.sub_succ_l, Nat.sub_diag by lia; done).
  cbn [exec_bind]. by rewrite be16_roundtrip.
Qed.

Lemma be16_at_word z : is_u16 z → be16_at (to_be16 z) 0 = Done (Z.to_nat z).
Proof.
  intros Hz. rewrite <- (app_nil_r (to_be16 z)). by apply (be16_at_app [] z [] 0).
Qed.

Lemma zlen_to_nat l : Z.to_nat (zlen l) = length l.
Proof. unfold zlen. apply Nat2Z.id. Qed.

Lemma zlen_u16 l : (zlen l < 65536)%Z → is_u16 (zlen l).
Proof. unfold is_u16, zlen. lia. Qed.

Lemma ser_exts_app xs ys : ser_exts (xs ++ ys) = ser_exts xs ++ ser_exts ys.
Proof. unfold ser_exts. by rewrite map_app, concat_app. Qed.

Lemma length_ser_ext x : length (ser_ext x) = 4 + length x.2.
Proof. done. Qed.

Lemma length_sni_data name : length (sni_data name) = 5 + length name.
Proof. done. Qed.

(** The name is found in its own extension. *)
Lemma sni_entry_found name p e :
  name ≠ [] → (zlen name < 65533)%Z →
  sni_entry (sni_data name) p e =
  Done (Some (MkSniBoundary (9 + p + e + 4) (9 + p + e + 4 + 2 + 1 + 2) (length name))).
Proof.
  intros Hne Hlen. pose proof (zlen_u16 name ltac:(lia)) as Hu.
  assert (0 < length name) by (destruct name; [done|simpl; lia]).
  unfold sni_entry.
  erewrite (get_range_mid [] (to_be16 (zlen name + 3))); [|reflexivity|done|done].
  cbn [try_opt]. rewrite be16_at_word by (unfold is_u16, zlen in *; lia). cbn [exec_bind].
  set (lst := 0%Z :: to_be16 (zlen name) ++ name).
  rewrite (get_range_mid (to_be16 (zlen name + 3)) lst []);
    [|by rewrite app_nil_r|done|unfold lst, zlen; simpl; lia].
  cbn [try_opt]. rewrite bool_decide_eq_true_2 by done.
  rewrite (get_range_mid [0%Z] (to_be16 (zlen name)) name) by done.
  cbn [try_opt]. rewrite be16_at_word by done. cbn [exec_bind].
  rewrite zlen_to_nat, (proj2 (Nat.eqb_neq _ _)) by lia.
  by rewrite (get_range_mid (0%Z :: to_be16 (zlen name)) name [])
    by (by rewrite ?app_nil_r).
Qed.

(** One iteration of the extension loop on a serialized extension. *)
Lemma sni_walk_ext fuel pre t d rest p :
  is_u16 t → (zlen d < 65536)%Z →
  sni_walk (S fuel) (pre ++ ser_ext (t, d) ++ rest) p (length pre) =
  if (t =? 0)%Z then sni_entry d p (length pre)
  else sni_walk fuel (pre ++ ser_ext (t, d) ++ rest) p (length (pre ++ ser_ext (t, d))).
Proof.
  intros Ht Hd. cbn [sni_walk].
  rewrite !length_app, length_ser_ext. cbn [snd].
  rewrite (proj2 (Nat.leb_le _ _)) by lia.
  assert (be16_at (pre ++ ser_ext (t, d) ++ rest) (length pre + 2) = Done (length d)) as ->.
  { rewrite <- (zlen_to_nat d).
    rewrite <- (be16_at_app (pre ++ to_be16 t) (zlen d) (d ++ rest) (length pre + 2))
      by (by apply zlen_u16 || by rewrite length_app).
    unfold ser_ext. cbn [fst snd]. by rewrite <- !app_assoc. }
  cbn [exec_bind].
  rewrite (get_range_mid (pre ++ to_be16 t ++ to_be16 (zlen d)) d rest);
    [|unfold ser_ext; cbn [fst snd]; by rewrite <- !app_assoc|by rewrite length_app|lia].
  cbn [try_opt].
  assert (be16_at (pre ++ ser_ext (t, d) ++ rest) (length pre) = Done (Z.to_nat t)) as ->.
  { unfold ser_ext. cbn [fst snd]. rewrite <- !app_assoc. by rewrite be16_at_app by done. }
  cbn [exec_bind]. unfold is_u16 in Ht.
  destruct (Z.eqb_spec t 0) as [->|Hne]; [done|].
  by rewrite (proj2 (Nat.eqb_neq _ _)) by lia.
Qed.

Lemma sni_walk_found fuel pre before name rest p :
  Forall (λ x, (0 < x.1 < 65536)%Z ∧ (zlen x.2 < 65536)%Z) before → name ≠ [] →
  (zlen name < 65533 - 5)%Z → length before < fuel →
  let e := length (pre ++ ser_exts before) in
  sni_walk fuel (pre ++ ser_exts before ++ ser_ext (0%Z, sni_data name) ++ rest) p (length pre) =
  Done (Some (MkSniBoundary (9 + p + e + 4) (9 + p + e + 4 + 2 + 1 + 2) (length name))).
Proof.
  revert fuel pre; induction before as [|[t d] before IH]; intros [|fuel] pre Hb Hne Hlen Hf e;
    try (simpl in Hf; lia).
  - subst e. cbn [ser_exts map concat app].
    rewrite sni_walk_ext; [|done|unfold zlen in *; rewrite length_sni_data; lia].
    rewrite app_nil_r. apply sni_entry_found; [done|lia].
  - apply Forall_cons_1 in Hb as [[Ht Hd] Hb]. cbn [fst snd] in Ht, Hd. subst e.
    change (ser_exts ((t, d) :: before)) with (ser_ext (t, d) ++ ser_exts before).
    rewrite <- (app_assoc (ser_ext (t, d))).
    rewrite (sni_walk_ext fuel pre t d) by (unfold is_u16; lia).
    rewrite (proj2 (Z.eqb_neq t 0) ltac:(lia)).
    rewrite !(app_assoc pre (ser_ext (t, d))). apply IH; try done. simpl in Hf. lia.
Qed.

Section clienthello.
Context (c : ClientHello) (Hwf : ch_wf c).

Lemma ch_sizes :
  (zlen (ch_sid c) < 256)%Z ∧ (zlen (ch_comp c) < 256)%Z ∧ (zlen (ch_suites c) < 65536)%Z ∧
  (zlen (ch_exts c) < 65536)%Z ∧ (zlen (ch_body c) < 65532)%Z ∧
  (zlen (ch_name c) < 65533 - 5)%Z ∧
  Forall (λ x, (0 < x.1 < 65536)%Z ∧ (zlen x.2 < 65536)%Z) (ch_before c) ∧
  length (ch_before c) ≤ length (ch_exts c).
Proof.
  destruct Hwf as [_ _ Hs Hc Hb _ Hz].
  unfold ch_handshake, ch_body, ch_upto_exts, ch_upto_comp, zlen in Hz.
  rewrite !length_app in Hz. simpl in Hz.
  assert (∀ xs x, x ∈ xs → length x.2 ≤ length (ser_exts xs)) as Hin.
  { induction xs as [|y xs IH]; intros x Hx; [by apply elem_of_nil in Hx|].
    change (ser_exts (y :: xs)) with (ser_ext y ++ ser_exts xs).
    rewrite length_app, length_ser_ext.
    apply elem_of_cons in Hx as [->|Hx]; [lia|]. specialize (IH _ Hx). lia. }
  assert (∀ xs, length xs ≤ length (ser_exts xs)) as Hle.
  { induction xs as [|y xs IH]; [done|].
    change (ser_exts (y :: xs)) with (ser_ext y ++ ser_exts xs).
    rewrite length_app, length_ser_ext. simpl. lia. }
  assert (length (ch_exts c) = length (ser_exts (ch_before c)) + (4 + (5 + length (ch_name c))) +
    length (ser_exts (ch_after c))) as Hx.
  { unfold ch_exts. rewrite !length_app, length_ser_ext. cbn [snd]. rewrite length_sni_data. lia. }
  repeat split; try done; try (unfold zlen; lia).
  - unfold zlen, ch_body, ch_upto_exts, ch_upto_comp. rewrite !length_app. simpl. lia.
  - apply Forall_forall. intros x Hx'. rewrite Forall_forall in Hb. split; [by apply Hb|].
    apply list_elem_of_In, Hin in Hx'. unfold zlen. lia.
  - specialize (Hle (ch_before c)). lia.
Qed.

Lemma ch_ext_list : ∃ rest,
  ch_exts c = ser_exts (ch_before c) ++ ser_ext (0%Z, sni_data (ch_name c)) ++ rest.
Proof. by eexists. Qed.

Lemma sni_in_body_found :
  sni_in_body (ch_body c) =
  Done (Some (MkSniBoundary (ch_ext_start c + 4) (ch_ext_start c + 4 + 2 + 1 + 2)
    (length (ch_name c)))).
Proof.
  destruct ch_sizes as (Hsid & Hcomp & Hsu & Hex & Hbd & Hnm & Hbf & Hcnt).
  destruct Hwf as [Hv Hr _ _ _ Hne _]. unfold sni_in_body.
  assert (length (ch_head c) = 34) as Hh by (unfold ch_head; rewrite length_app; lia).
  assert (length (ch_upto_suites c) = 2 + 32 + 1 + length (ch_sid c)) as Hus
    by (unfold ch_upto_suites; rewrite length_app, Hh; simpl; lia).
  assert (length (ch_upto_comp c) = length (ch_upto_suites c) + (2 + length (ch_suites c))) as Huc
    by (unfold ch_upto_comp; rewrite !length_app; simpl; lia).
  assert (length (ch_upto_exts c) = length (ch_upto_comp c) + (1 + length (ch_comp c))) as Hue
    by (unfold ch_upto_exts; rewrite !length_app; simpl; lia).
  assert (ch_body c !! (2 + 32 + 1 - 1) = Some (zlen (ch_sid c))) as ->.
  { unfold ch_body, ch_upto_exts, ch_upto_comp, ch_upto_suites. rewrite <- !app_assoc.
    by rewrite lookup_app_r, Hh by lia. }
  cbn [try_opt]. rewrite zlen_to_nat, <- Hus.
  rewrite (get_range_mid (ch_upto_suites c) (to_be16 (zlen (ch_suites c)))
    (ch_suites c ++ zlen (ch_comp c) :: ch_comp c ++ to_be16 (zlen (ch_exts c)) ++ ch_exts c));
    [|unfold ch_body, ch_upto_exts, ch_upto_comp; by rewrite <- !app_assoc|done|done].
  cbn [try_opt]. rewrite be16_at_word by (by apply zlen_u16). cbn [exec_bind].
  rewrite zlen_to_nat, <- Huc.
  assert (ch_body c !! length (ch_upto_comp c) = Some (zlen (ch_comp c))) as ->.
  { unfold ch_body, ch_upto_exts. rewrite <- !app_assoc.
    by rewrite lookup_app_r, Nat.sub_diag by lia. }
  cbn [try_opt]. rewrite zlen_to_nat, <- Hue.
  rewrite (get_range_mid (ch_upto_exts c) (to_be16 (zlen (ch_exts c))) (ch_exts c)) by done.
  cbn [try_opt]. rewrite be16_at_word by (by apply zlen_u16). cbn [exec_bind].
  rewrite zlen_to_nat.
  rewrite (get_range_mid (ch_upto_exts c ++ to_be16 (zlen (ch_exts c))) (ch_exts c) []);
    [|unfold ch_body; by rewrite app_nil_r, <- app_assoc|by rewrite length_app|done].
  cbn [try_opt].
  destruct ch_ext_list as [rest Hrest].
  assert (length (ch_before c) < S (length (ch_exts c))) as Hfuel by lia.
  set (fuel := S (length (ch_exts c))) in *. rewrite Hrest.
  pose proof (sni_walk_found fuel [] (ch_before c) (ch_name c) rest
    (length (ch_upto_exts c) + 2) Hbf Hne Hnm Hfuel) as Hw.
  cbv zeta in Hw. cbn [app length] in Hw. rewrite Hw. done.
Qed.

(** The range of the name in the record. *)
Definition ch_boundary : SniBoundary :=
  MkSniBoundary (ch_ext_start c + 4) (ch_ext_start c + 4 + 2 + 1 + 2) (length (ch_name c)).

Lemma find_sni_boundary_at trailing :
  find_sni_boundary (ch_record c ++ trailing) = Done (Some ch_boundary).
Proof.
  destruct ch_sizes as (Hsid & Hcomp & Hsu & Hex & Hbd & Hnm & Hbf & Hcnt).
  unfold find_sni_boundary.
    rewrite (get_range_mid [] ([22; 3; 1]%Z ++ to_be16 (zlen (ch_handshake c)))
      (ch_handshake c ++ trailing)) by done.
    cbn [try_opt]. change (idx ([22; 3; 1]%Z ++ to_be16 (zlen (ch_handshake c))) 0)
      with (Done 22%Z). cbn [exec_bind]. change (22 =? 22)%Z with true. cbn iota.
    rewrite <- (app_nil_r (to_be16 (zlen (ch_handshake c)))).
    rewrite be16_at_app by (apply zlen_u16, Hwf || done). cbn [exec_bind].
    rewrite zlen_to_nat.
    rewrite (get_range_mid ([22; 3; 1]%Z ++ to_be16 (zlen (ch_handshake c))) (ch_handshake c)
      trailing) by done.
    cbn [try_opt]. rewrite bool_decide_eq_true_2 by done.
    set (n := zlen (ch_body c)) in *. unfold ch_handshake. fold n.
    cbn [app]. unfold idx. cbn [lookup list_lookup exec_bind].
    assert (0 ≤ n)%Z by (unfold n, zlen; lia).
    rewrite (Z.div_small n 65536), (Z.mod_small 0) by lia.
    assert (Z.lor (Z.lor (Z.shiftl 0 16) (Z.shiftl ((n / 256) mod 256) 8)) (n mod 256) = n) as ->.
    { change (Z.lor (Z.shiftl 0 16) ?x) with x.
      rewrite lor_shiftl by (pose proof (Z.mod_pos_bound n 256); lia).
      apply be16_roundtrip. unfold is_u16. lia. }
    assert (Z.to_nat n = length (ch_body c)) as -> by apply zlen_to_nat.
    rewrite (get_range_mid [1%Z; 0%Z; ((n / 256) mod 256)%Z; (n mod 256)%Z] (ch_body c) [])
      by (by rewrite ?app_nil_r).
    cbn [try_opt]. apply sni_in_body_found.
Qed.

(** What the record holds around the name. *)
Lemma ch_record_name :
  ∃ pre post, ch_record c = pre ++ ch_name c ++ post ∧ length pre = sb_name_start ch_boundary.
Proof.
    set (pre := [22; 3; 1]%Z ++ to_be16 (zlen (ch_handshake c)) ++
      [1; (zlen (ch_body c) / 65536) mod 256; (zlen (ch_body c) / 256) mod 256;
       zlen (ch_body c) mod 256]%Z ++ ch_upto_exts c ++ to_be16 (zlen (ch_exts c)) ++
      ser_exts (ch_before c) ++ to_be16 0 ++ to_be16 (zlen (sni_data (ch_name c))) ++
      to_be16 (zlen (ch_name c) + 3) ++ [0%Z] ++ to_be16 (zlen (ch_name c))).
    exists pre, (ser_exts (ch_after c)). split.
    - unfold pre, ch_record, ch_handshake, ch_body, ch_exts, ser_ext, sni_data. cbn [fst snd].
      by rewrite <- !app_assoc.
    - unfold pre, ch_boundary, ch_ext_start. cbn [sb_name_start]. rewrite !length_app. simpl. lia.
Qed.

Lemma find_sni_boundary_found trailing :
  ∃ b, find_sni_boundary (ch_record c ++ trailing) = Done (Some b) ∧
    take b.(sb_name_len) (drop b.(sb_name_start) (ch_record c ++ trailing)) = ch_name c.
Proof.
  exists ch_boundary. split; [apply find_sni_boundary_at|].
  destruct ch_record_name as (pre & post & -> & <-). cbn [ch_boundary sb_name_len].
  rewrite <- !app_assoc. by rewrite drop_app_length, take_app_length.
Qed.
End clienthello.

(** (C5) The SNI locator is complete: in every well-formed ClientHello record
    (any version, session id, cipher suites and compression methods, any
    extensions around the [server_name] one), followed by any bytes, it finds
    the host name: the range it returns holds exactly the name. *)
Theorem find_sni_boundary_complete c trailing :
  ch_wf c →
  ∃ b, find_sni_boundary (ch_record c ++ trailing) = Done (Some b) ∧
    take b.(sb_name_len) (drop b.(sb_name_start) (ch_record c ++ trailing)) = ch_name c.
Proof. intros Hwf. by apply find_sni_boundary_found. Qed.

(** ** A concrete ClientHello *)
Definition sample_hello : ClientHello :=
  MkClientHello [3; 3]%Z (replicate 32 7%Z) [9; 9]%Z [0x13; 1]%Z [0]%Z
    [(0x2a2a, [])%Z; (10, [0; 2; 0; 29])%Z] [97; 46; 98]%Z [(43, [2; 3; 4])%Z].

Lemma sample_hello_wf : ch_wf sample_hello.
Proof. by constructor; repeat constructor. Qed.

Lemma find_sni_boundary_in_bounds_witness :
  ∃ b, find_sni_boundary (ch_record sample_hello) = Done (Some b) ∧
    0 < sb_name_len b ∧ sb_name_start b + sb_name_len b ≤ length (ch_record sample_hello).
Proof.
  eexists. split; [vm_compute; reflexivity|].
  eapply (find_sni_boundary_in_bounds (ch_record sample_hello)). vm_compute. reflexivity.
Defined.

Lemma find_sni_boundary_complete_witness :
  ∃ b, find_sni_boundary (ch_record sample_hello ++ [1; 2]%Z) = Done (Some b) ∧
    take (sb_name_len b) (drop (sb_name_start b) (ch_record sample_hello ++ [1; 2]%Z))
      = [97; 46; 98]%Z.
Proof. exact (find_sni_boundary_complete sample_hello [1; 2]%Z sample_hello_wf). Defined.
