(* ===== verification/Text.v ===== *)
(** * Strings of the standard library

    What the program uses of Rust's [str], integer parsing and [std::net]
    parsing.  A string is its UTF-8 bytes ([String.string]). *)
From stdpp Require Import base list numbers strings.
From Stdlib Require Import ZArith Lia Ascii.
From S2P Require Import Prelude.
Local Open Scope string_scope.

(** [s.as_bytes()] *)
Definition byte_of (c : ascii) : Z := Z.of_N (N_of_ascii c).
Definition as_bytes (s : string) : list Z := map byte_of (String.list_ascii_of_string s).

Definition str_len (s : string) : nat := String.length s.

(** ** Trimming

    [char::is_whitespace] on the UTF-8 encoding: the one-byte characters, and
    U+0085, U+00A0, U+1680, U+2000 to U+200A, U+2028, U+2029, U+202F, U+205F
    and U+3000. *)
Definition ws1 (a : Z) : bool := ((9 <=? a) && (a <=? 13))%Z || (a =? 32)%Z.
Definition ws2 (a b : Z) : bool := (a =? 0xC2)%Z && ((b =? 0x85) || (b =? 0xA0))%Z.
Definition ws3 (a b c : Z) : bool :=
  ((a =? 0xE1) && (b =? 0x9A) && (c =? 0x80) ||
   (a =? 0xE2) && (b =? 0x80) &&
     ((0x80 <=? c) && (c <=? 0x8A) || (c =? 0xA8) || (c =? 0xA9) || (c =? 0xAF)) ||
   (a =? 0xE2) && (b =? 0x81) && (c =? 0x9F) ||
   (a =? 0xE3) && (b =? 0x80) && (c =? 0x80))%Z.

Fixpoint trim_start (s : string) : string :=
  match s with
  | String a s1 =>
      if ws1 (byte_of a) then trim_start s1 else
      match s1 with
      | String b s2 =>
          if ws2 (byte_of a) (byte_of b) then trim_start s2 else
          match s2 with
          | String c s3 =>
              if ws3 (byte_of a) (byte_of b) (byte_of c) then trim_start s3 else s
          | EmptyString => s
          end
      | EmptyString => s
      end
  | EmptyString => EmptyString
  end.

(** The same on the reversed string. *)
Fixpoint trim_start_rev (s : string) : string :=
  match s with
  | String a s1 =>
      if ws1 (byte_of a) then trim_start_rev s1 else
      match s1 with
      | String b s2 =>
          if ws2 (byte_of b) (byte_of a) then trim_start_rev s2 else
          match s2 with
          | String c s3 =>
              if ws3 (byte_of c) (byte_of b) (byte_of a) then trim_start_rev s3 else s
          | EmptyString => s
          end
      | EmptyString => s
      end
  | EmptyString => EmptyString
  end.

Fixpoint rev_append (s acc : string) : string :=
  match s with EmptyString => acc | String a s' => rev_append s' (String a acc) end.
Definition str_rev (s : string) : string := rev_append s EmptyString.
Definition trim (s : string) : string := str_rev (trim_start_rev (str_rev (trim_start s))).

(** ** Case, prefixes, splitting *)
Definition ascii_lower (a : ascii) : ascii :=
  let n := N_of_ascii a in
  if (65 <=? n)%N && (n <=? 90)%N then ascii_of_N (n + 32) else a.
Fixpoint to_ascii_lowercase (s : string) : string :=
  match s with EmptyString => EmptyString | String a s' => String (ascii_lower a) (to_ascii_lowercase s') end.
Definition eq_ignore_ascii_case (s t : string) : bool :=
  String.eqb (to_ascii_lowercase s) (to_ascii_lowercase t).

Fixpoint strip_prefix (p s : string) : option string :=
  match p, s with
  | EmptyString, _ => Some s
  | String a p', String b s' => if Ascii.eqb a b then strip_prefix p' s' else None
  | _, EmptyString => None
  end.

Fixpoint contains_char (c : ascii) (s : string) : bool :=
  match s with EmptyString => false | String a s' => Ascii.eqb a c || contains_char c s' end.

(** [s.split_once(c)] *)
Fixpoint split_once (c : ascii) (s : string) : option (string * string) :=
  match s with
  | EmptyString => None
  | String a s' =>
      if Ascii.eqb a c then Some (EmptyString, s')
      else option_map (λ '(l, r), (String a l, r)) (split_once c s')
  end.

(** [s.split(c)] *)
Fixpoint split_char (c : ascii) (s : string) : list string :=
  match s with
  | EmptyString => [EmptyString]
  | String a s' =>
      if Ascii.eqb a c then EmptyString :: split_char c s'
      else match split_char c s' with
           | w :: ws => String a w :: ws
           | [] => [String a EmptyString]
           end
  end.

Fixpoint str_join (sep : string) (l : list string) : string :=
  match l with
  | [] => ""
  | [w] => w
  | w :: ws => w ++ sep ++ str_join sep ws
  end.

(** ** Integers *)
Definition digit10 (a : ascii) : option Z :=
  let b := byte_of a in if ((48 <=? b) && (b <=? 57))%Z then Some (b - 48)%Z else None.

Fixpoint parse_digits (acc : Z) (s : string) : option Z :=
  match s with
  | EmptyString => Some acc
  | String a s' => match digit10 a with Some d => parse_digits (acc * 10 + d) s' | None => None end
  end.

(** At least one digit. *)
Definition parse_nat10 (s : string) : option Z :=
  match s with EmptyString => None | _ => parse_digits 0 s end.

(** [s.parse::<uN>()] and [s.parse::<iN>()]: an optional sign, digits, and the
    bounds of the type. *)
Definition parse_unsigned (hi : Z) (s : string) : option Z :=
  let body := match strip_prefix "+" s with Some r => r | None => s end in
  match parse_nat10 body with
  | Some v => if (v <=? hi)%Z then Some v else None
  | None => None
  end.

Definition parse_signed (lo hi : Z) (s : string) : option Z :=
  match strip_prefix "-" s with
  | Some r =>
      match parse_nat10 r with
      | Some v => if (lo <=? - v)%Z then Some (- v)%Z else None
      | None => None
      end
  | None => parse_unsigned hi s
  end.

Definition i32_min : Z := -2147483648.
Definition i32_max : Z := 2147483647.
Definition u32_max : Z := 4294967295.
Definition usize_max : Z := 18446744073709551615.

(** Decimal printing of a natural number. *)
Definition digit_char (d : Z) : ascii := ascii_of_N (Z.to_N (d + 48)).
Fixpoint show_digits (fuel : nat) (n : Z) (acc : string) : string :=
  match fuel with
  | O => acc
  | S fuel' =>
      let acc := String (digit_char (n mod 10)) acc in
      if (n <? 10)%Z then acc else show_digits fuel' (n / 10) acc
  end.
Definition show_nat (n : Z) : string := show_digits (S (Z.to_nat (Z.log2 (Z.max 1 n)))) n EmptyString.
Definition show_int (z : Z) : string :=
  if (z <? 0)%Z then String "-" (show_nat (- z)) else show_nat z.

(** [Ipv4Addr::to_string] *)
Definition show_ipv4 (a : Z) : string :=
  show_nat (a / 2 ^ 24) ++ "." ++ show_nat ((a / 2 ^ 16) mod 256) ++ "." ++
  show_nat ((a / 2 ^ 8) mod 256) ++ "." ++ show_nat (a mod 256).

(** ** Lemmas *)
Lemma byte_of_range a : (0 ≤ byte_of a < 256)%Z.
Proof. unfold byte_of. pose proof (N_ascii_bounded a). lia. Qed.

Lemma as_bytes_bytes s : is_bytes (as_bytes s).
Proof.
  unfold as_bytes, is_bytes. apply Forall_fmap, Forall_true. intros a. apply byte_of_range.
Qed.

Lemma length_as_bytes s : length (as_bytes s) = str_len s.
Proof.
  unfold as_bytes, str_len. rewrite length_fmap. induction s; simpl; congruence.
Qed.

Lemma digit10_char d : (0 ≤ d < 10)%Z → digit10 (digit_char d) = Some d.
Proof.
  intros Hd. unfold digit10, digit_char, byte_of.
  rewrite N_ascii_embedding by lia. rewrite Z2N.id by lia.
  assert ((48 <=? d + 48)%Z && (d + 48 <=? 57)%Z = true) as -> by lia. f_equal. lia.
Qed.

Lemma parse_show_digits fuel n acc :
  (0 ≤ n < 2 ^ Z.of_nat fuel)%Z →
  parse_digits 0 (show_digits fuel n acc) = parse_digits n acc.
Proof.
  revert n acc; induction fuel as [|fuel IH]; intros n acc Hn.
  - simpl in *. assert (n = 0)%Z as -> by lia. done.
  - cbn [show_digits]. pose proof (Z.mod_pos_bound n 10).
    destruct (Z.ltb_spec n 10) as [Hlt|Hge].
    + cbn [parse_digits]. rewrite digit10_char by lia. rewrite Z.mod_small by lia. f_equal.
    + rewrite IH.
      * cbn [parse_digits]. rewrite digit10_char by lia. f_equal.
        pose proof (Z.div_mod n 10). lia.
      * split; [apply Z.div_pos; lia|]. apply Z.div_lt_upper_bound; [lia|].
        rewrite Nat2Z.inj_succ, Z.pow_succ_r in Hn by lia. lia.
Qed.

Lemma show_digits_not_empty fuel n acc : acc ≠ EmptyString → show_digits fuel n acc ≠ EmptyString.
Proof.
  revert n acc; induction fuel as [|fuel IH]; intros n acc Hacc; simpl; [done|].
  destruct (n <? 10)%Z; [done|]. by apply IH.
Qed.

(** Decimal printing and parsing are inverse. *)
Lemma parse_show_nat n : (0 ≤ n)%Z → parse_nat10 (show_nat n) = Some n.
Proof.
  intros Hn.
  assert (0 ≤ n < 2 ^ Z.of_nat (S (Z.to_nat (Z.log2 (Z.max 1 n)))))%Z as Hb.
  { split; [done|]. pose proof (Z.log2_spec (Z.max 1 n) ltac:(lia)) as [_ Hl].
    pose proof (Z.log2_nonneg (Z.max 1 n)).
    rewrite Nat2Z.inj_succ, Z2Nat.id by lia. lia. }
  assert (show_nat n ≠ EmptyString) as Hne.
  { unfold show_nat. cbn [show_digits]. destruct (n <? 10)%Z; [done|].
    by apply show_digits_not_empty. }
  pose proof (parse_show_digits _ n EmptyString Hb) as Hp. fold (show_nat n) in Hp.
  unfold parse_nat10. destruct (show_nat n); [done|exact Hp].
Qed.

(** *** Reversal *)
Lemma str_app_cons a s t : String a s ++ t = String a (s ++ t).
Proof. done. Qed.

Lemma rev_append_rev s acc acc' :
  rev_append (rev_append s acc) acc' = rev_append acc (s ++ acc').
Proof. revert acc acc'; induction s as [|a s IH]; intros; simpl; [done|]. by rewrite IH. Qed.

Lemma str_app_nil s : s ++ "" = s.
Proof. induction s as [|a s IH]; [done|]. by rewrite str_app_cons, IH. Qed.

Lemma str_rev_involutive s : str_rev (str_rev s) = s.
Proof. unfold str_rev. rewrite rev_append_rev. simpl. apply str_app_nil. Qed.
