(* ===== verification/Firewall.v ===== *)
(** * Firewall rules

    Model of the rule management of [crates/zerodpi-platform/src/linux.rs]:
    the iptables rules and nftables commands that send a connection's packets
    to the queue, their installation with roll-back, their removal, and the
    recovery of rules that a dead helper left behind.

    The commands [iptables] and [nft] are outside: each may fail, and one that
    succeeds does to the kernel's rules what its documentation says ([kernel]
    holds the rules of both chains, or the tables).  What a rule matches is
    defined here too ([ipt_matches], [nft_matches]), by the documented meaning
    of the arguments the code uses. *)
From stdpp Require Import base list numbers strings.
From Stdlib Require Import ZArith Lia Ascii.
From S2P Require Import Prelude Interceptor Text.
Local Open Scope string_scope.

(** ** Strings *)

(** [u8::is_ascii_whitespace] *)
Definition is_ascii_whitespace (c : ascii) : bool :=
  existsb (Ascii.eqb c) [" "; "009"; "010"; "012"; "013"]%char.

(** [s.split_ascii_whitespace()]: the first piece and the ones behind it. *)
Fixpoint ws_pieces (s : string) : string * list string :=
  match s with
  | EmptyString => (EmptyString, [])
  | String c s' =>
      let '(t, l) := ws_pieces s' in
      if is_ascii_whitespace c then
        (EmptyString, match t with EmptyString => l | _ => t :: l end)
      else (String c t, l)
  end.
Definition split_ascii_whitespace (s : string) : list string :=
  let '(t, l) := ws_pieces s in match t with EmptyString => l | _ => t :: l end.

(** [trim_matches] with the two quote characters. *)
Definition is_quote (c : ascii) : bool := Ascii.eqb c "'" || Ascii.eqb c "034".
Fixpoint trim_quotes_start (s : string) : string :=
  match s with
  | String c s' => if is_quote c then trim_quotes_start s' else s
  | EmptyString => s
  end.
Definition trim_quotes (s : string) : string :=
  str_rev (trim_quotes_start (str_rev (trim_quotes_start s))).

(** [byte.is_ascii_digit()] on every byte. *)
Fixpoint all_digits (s : string) : bool :=
  match s with
  | EmptyString => true
  | String c s' => negb (bool_decide (digit10 c = None)) && all_digits s'
  end.

(** ** iptables *)
Definition valid_firewall_owner (owner : string) : bool :=
  match strip_prefix "zerodpi-" owner with
  | Some pid => negb (String.eqb pid EmptyString) && all_digits pid
  | None => false
  end.

(** [rule.iter().position(|a| a == x)] *)
Fixpoint position (x : string) (l : list string) : option nat :=
  match l with
  | [] => None
  | y :: l' => if String.eqb y x then Some 0 else option_map S (position x l')
  end.

(** The [splice] of the owner's comment in front of the jump. *)
Definition tag_rule (owner : string) (rule : list string) : exec (list string) :=
  let! jump := expect (position "-j" rule) in
  Done (take jump rule ++ ["-m"; "comment"; "--comment"; owner] ++ drop jump rule)%list.

Fixpoint exec_mapM {A B} (f : A → exec B) (l : list A) : exec (list B) :=
  match l with
  | [] => Done []
  | x :: l' => let! y := f x in let! ys := exec_mapM f l' in Done (y :: ys)
  end.

Definition iptables_rules (filter : FilterSpec) : exec (list (list string)) :=
  let iface := show_ipv4 filter.(fs_interface_ip) in
  let port := show_nat filter.(fs_remote_port) in
  let q := show_nat filter.(fs_queue_num) in
  let rules :=
    match filter.(fs_remote_ip) with
    | Some remote_ip =>
        let remote := show_ipv4 remote_ip in
        [["OUTPUT"; "-p"; "tcp"; "-s"; iface; "-d"; remote; "--dport"; port;
          "-j"; "NFQUEUE"; "--queue-num"; q; "--queue-bypass"];
         ["INPUT"; "-p"; "tcp"; "-s"; remote; "-d"; iface; "--sport"; port;
          "-j"; "NFQUEUE"; "--queue-num"; q; "--queue-bypass"]]
    | None =>
        [["OUTPUT"; "-p"; "tcp"; "-s"; iface; "--dport"; port;
          "-j"; "NFQUEUE"; "--queue-num"; q; "--queue-bypass"];
         ["INPUT"; "-p"; "tcp"; "-d"; iface; "--sport"; port;
          "-j"; "NFQUEUE"; "--queue-num"; q; "--queue-bypass"]]
    end in
  match filter.(fs_firewall_owner) with
  | Some owner => rassert (valid_firewall_owner owner) (exec_mapM (tag_rule owner) rules)
  | None => Done rules
  end.

(** [tokens.windows(2).any(|pair| pair == [a, b])] *)
Fixpoint has_pair (a b : string) (l : list string) : bool :=
  match l with
  | x :: (y :: _) as l' => (String.eqb x a && String.eqb y b) || has_pair a b l'
  | _ => false
  end.
(** [tokens.windows(2).find(|pair| pair[0] == a)], its second element. *)
Fixpoint pair_after (a : string) (l : list string) : option string :=
  match l with
  | x :: ((y :: _) as l') => if String.eqb x a then Some y else pair_after a l'
  | _ => None
  end.

Definition parse_owned_iptables_rule (line : string) : option (Z * list string) :=
  let tokens := split_ascii_whitespace line in
  if (List.length tokens <? 8)%nat ||
     negb (bool_decide (tokens !! 0 = Some "-A")) ||
     negb (bool_decide (tokens !! 1 = Some "INPUT" ∨ tokens !! 1 = Some "OUTPUT")) ||
     negb (has_pair "-j" "NFQUEUE" tokens)
  then None
  else
    match pair_after "--comment" tokens with
    | None => None
    | Some comment =>
        match strip_prefix "zerodpi-" (trim_quotes comment) with
        | None => None
        | Some pid =>
            match parse_unsigned u32_max pid with
            | None => None
            | Some owner_pid =>
                Some (owner_pid, take 1 (drop 1 tokens) ++ (trim_quotes <$> drop 2 tokens))%list
            end
        end
    end.

(** ** nftables *)
Definition NFT_TABLE_FAMILY : string := "inet".
Definition NFT_OUTPUT_CHAIN : string := "output".
Definition NFT_INPUT_CHAIN : string := "input".

(** [next_nft_table_name] with the counter's value [id]. *)
Definition next_nft_table_name (pid id : Z) : string :=
  "zerodpi_" ++ show_nat pid ++ "_" ++ show_nat id.

Definition nft_add_chain_args (table_name chain hook : string) : list string :=
  ["add"; "chain"; NFT_TABLE_FAMILY; table_name; chain; "{"; "type"; "filter"; "hook"; hook;
   "priority"; "0"; ";"; "policy"; "accept"; ";"; "}"].

Definition nft_add_rule_args (table_name : string) (direction : Direction) (filter : FilterSpec)
    : list string :=
  let iface := show_ipv4 filter.(fs_interface_ip) in
  let port := show_nat filter.(fs_remote_port) in
  let q := show_nat filter.(fs_queue_num) in
  (["add"; "rule"; NFT_TABLE_FAMILY; table_name] ++
  match direction with
  | Outbound =>
      [NFT_OUTPUT_CHAIN; "ip"; "saddr"; iface] ++
      match filter.(fs_remote_ip) with
      | Some remote_ip => ["ip"; "daddr"; show_ipv4 remote_ip]
      | None => []
      end ++ ["tcp"; "dport"; port; "queue"; "num"; q; "bypass"]
  | Inbound =>
      [NFT_INPUT_CHAIN] ++
      match filter.(fs_remote_ip) with
      | Some remote_ip => ["ip"; "saddr"; show_ipv4 remote_ip]
      | None => []
      end ++ ["ip"; "daddr"; iface; "tcp"; "sport"; port; "queue"; "num"; q; "bypass"]
  end)%list.

Definition nft_install_commands (table_name : string) (filter : FilterSpec)
    : list (list string) :=
  [["add"; "table"; NFT_TABLE_FAMILY; table_name];
   nft_add_chain_args table_name NFT_OUTPUT_CHAIN "output";
   nft_add_chain_args table_name NFT_INPUT_CHAIN "input";
   nft_add_rule_args table_name Outbound filter;
   nft_add_rule_args table_name Inbound filter].

Definition parse_owned_nftables_table (line : string) : option (Z * string) :=
  match split_ascii_whitespace line with
  | [t; family; table_name] =>
      if String.eqb t "table" && String.eqb family NFT_TABLE_FAMILY then
        match strip_prefix "zerodpi_" table_name with
        | None => None
        | Some remainder =>
            match split_once "_" remainder with
            | None => None
            | Some (pid, counter) =>
                if String.eqb counter EmptyString || negb (all_digits counter) then None
                else option_map (λ n, (n, table_name)) (parse_unsigned u32_max pid)
            end
        end
      else None
  | _ => None
  end.

(** ** The rules in the kernel *)

(** The kernel's rules (newest first), the number of commands run so far,
    and the commands. *)
Record Kernel := MkKernel {
  k_calls : nat;
  k_rules : list (list string);
  k_log : list (string * list string) }.

Fixpoint remove_rule (rule : list string) (l : list (list string)) : list (list string) :=
  match l with
  | [] => []
  | r :: l' => if bool_decide (r = rule) then l' else r :: remove_rule rule l'
  end.

Section commands.
(** Whether the k-th command can be run. *)
Context (works : nat → bool).

(** [-I] puts the rule in front, [-D] deletes the first equal rule and fails
    if there is none. *)
Definition run_iptables (action : string) (rule : list string) (k : Kernel) : bool * Kernel :=
  let insert := String.eqb action "-I" in
  let ok := works k.(k_calls) && (insert || bool_decide (rule ∈ k.(k_rules))) in
  let rules := if negb ok then k.(k_rules)
               else if insert then rule :: k.(k_rules) else remove_rule rule k.(k_rules) in
  (ok, MkKernel (S k.(k_calls)) rules (k.(k_log) ++ [(action, rule)])%list).

(** [IptablesGuard::install]: [installed] are the rules inserted so far. *)
Fixpoint install_loop (rules installed : list (list string)) (k : Kernel)
    : option (list (list string)) * Kernel :=
  match rules with
  | [] => (Some installed, k)
  | rule :: rest =>
      let '(ok, k) := run_iptables "-I" rule k in
      if ok then install_loop rest (installed ++ [rule])%list k
      else (None, foldl (λ k r, snd (run_iptables "-D" r k)) k (reverse installed))
  end.
Definition iptables_install (filter : FilterSpec) (k : Kernel)
    : exec (option (list (list string)) * Kernel) :=
  let! rules := iptables_rules filter in Done (install_loop rules [] k).

(** [remove_owned_rules]: whether every deletion worked, and the rules kept. *)
Fixpoint remove_owned_rules (rules : list (list string)) (k : Kernel)
    : bool * list (list string) * Kernel :=
  match rules with
  | [] => (true, [], k)
  | rule :: rest =>
      let '(ok, k) := run_iptables "-D" rule k in
      let '(all, failed, k) := remove_owned_rules rest k in
      (ok && all, if ok then failed else rule :: failed, k)
  end.

(** [helper_owner_is_live]: [exists] whether [/proc/pid] is there, [cmdline]
    what reading its command line gives. *)
Fixpoint contains_str (p s : string) : bool :=
  negb (bool_decide (strip_prefix p s = None)) ||
  match s with String _ s' => contains_str p s' | EmptyString => false end.
Definition helper_owner_is_live (own : Z) (proc_exists : Z → bool) (cmdline : Z → option string)
    (pid : Z) : bool :=
  if (pid =? own)%Z then false else
  if negb (proc_exists pid) then false else
  match cmdline pid with
  | Some c => contains_str "zerodpi-root-helper" c || contains_str "zerodpi_root_helper_exec" c
  | None => true
  end.

(** The loop of [recover_stale_iptables_rules] over the lines of a listing;
    [None] where it bails out. *)
Fixpoint recover_lines (live : Z → bool) (lines : list string) (removed : nat) (k : Kernel)
    : option nat * Kernel :=
  match lines with
  | [] => (Some removed, k)
  | line :: rest =>
      match parse_owned_iptables_rule line with
      | None => recover_lines live rest removed k
      | Some (owner_pid, rule) =>
          if live owner_pid then (None, k) else
          let '(ok, k) := run_iptables "-D" rule k in
          if ok then recover_lines live rest (S removed) k else (None, k)
      end
  end.

(** [listing] is the output of [iptables -S chain], [None] if it fails. *)
Definition recover_stale_iptables_rules (live : Z → bool) (listing : string → option (list string))
    (k : Kernel) : option nat * Kernel :=
  match listing "OUTPUT" with
  | None => (None, k)
  | Some out =>
      match recover_lines live out 0 k with
      | (None, k) => (None, k)
      | (Some n, k) =>
          match listing "INPUT" with
          | None => (None, k)
          | Some inp => recover_lines live inp n k
          end
      end
  end.

(** *** nftables: [t_tables] maps a table's name to the commands run on it *)
Record NftKernel := MkNftKernel { t_calls : nat; t_tables : list (string * list (list string)) }.

Definition has_table (name : string) (l : list (string * list (list string))) : bool :=
  existsb (λ t, String.eqb t.1 name) l.

(** Whether the command can do its work, and the tables after it. *)
Definition nft_effect (args : list string) (l : list (string * list (list string)))
    : option (list (string * list (list string))) :=
  match args with
  | ["add"; "table"; _; name] => Some (if has_table name l then l else (name, []) :: l)
  | ["delete"; "table"; _; name] =>
      if has_table name l then Some (base.filter (λ t, t.1 ≠ name) l) else None
  | "add" :: _ :: _ :: name :: rest =>
      if has_table name l
      then Some (map (λ t, if String.eqb t.1 name then (t.1, t.2 ++ [rest])%list else t) l)
      else None
  | _ => None
  end.
Definition run_nft (args : list string) (k : NftKernel) : bool * NftKernel :=
  match (if works k.(t_calls) then nft_effect args k.(t_tables) else None) with
  | Some l => (true, MkNftKernel (S k.(t_calls)) l)
  | None => (false, MkNftKernel (S k.(t_calls)) k.(t_tables))
  end.

Definition delete_nft_table (table_name : string) (k : NftKernel) : bool * NftKernel :=
  run_nft ["delete"; "table"; NFT_TABLE_FAMILY; table_name] k.

(** The loop of [recover_stale_nftables_tables] over the listing's lines. *)
Fixpoint recover_tables (live : Z → bool) (lines : list string) (removed : nat) (k : NftKernel)
    : option nat * NftKernel :=
  match lines with
  | [] => (Some removed, k)
  | line :: rest =>
      match parse_owned_nftables_table line with
      | None => recover_tables live rest removed k
      | Some (owner_pid, table_name) =>
          if live owner_pid then (None, k) else
          let '(ok, k) := delete_nft_table table_name k in
          if ok then recover_tables live rest (S removed) k else (None, k)
      end
  end.

(** [NftablesGuard::install] *)
Fixpoint nft_install_loop (table_name : string) (commands : list (list string)) (k : NftKernel)
    : option string * NftKernel :=
  match commands with
  | [] => (Some table_name, k)
  | args :: rest =>
      let '(ok, k) := run_nft args k in
      if ok then nft_install_loop table_name rest k
      else (None, snd (delete_nft_table table_name k))
  end.
Definition nft_install (pid id : Z) (filter : FilterSpec) (k : NftKernel)
    : option string * NftKernel :=
  let table_name := next_nft_table_name pid id in
  nft_install_loop table_name (nft_install_commands table_name filter) k.

(** [remove_owned_table] *)
Definition remove_owned_table (table : option string) (k : NftKernel)
    : bool * option string * NftKernel :=
  match table with
  | Some name =>
      let '(ok, k) := delete_nft_table name k in
      if ok then (true, None, k) else (false, table, k)
  | None => (true, None, k)
  end.
End commands.

(** ** What the rules match *)
Record Pkt := MkPkt { k_src : Z; k_dst : Z; k_sport : Z; k_dport : Z }.

(** The packets of a filter in one direction. *)
Definition selected (direction : Direction) (filter : FilterSpec) (p : Pkt) : bool :=
  match direction with
  | Outbound =>
      (p.(k_src) =? filter.(fs_interface_ip))%Z && (p.(k_dport) =? filter.(fs_remote_port))%Z &&
      from_option (λ r, (p.(k_dst) =? r)%Z) true filter.(fs_remote_ip)
  | Inbound =>
      (p.(k_dst) =? filter.(fs_interface_ip))%Z && (p.(k_sport) =? filter.(fs_remote_port))%Z &&
      from_option (λ r, (p.(k_src) =? r)%Z) true filter.(fs_remote_ip)
  end.

(** The queue a TCP packet that matches goes to, with the queue bypassed when
    nobody listens; [None] if the rule does not match it. *)
Fixpoint ipt_matches (args : list string) (p : Pkt) : option string :=
  match args with
  | "-p" :: "tcp" :: r => ipt_matches r p
  | "-s" :: a :: r => if String.eqb (show_ipv4 p.(k_src)) a then ipt_matches r p else None
  | "-d" :: a :: r => if String.eqb (show_ipv4 p.(k_dst)) a then ipt_matches r p else None
  | "--sport" :: n :: r => if String.eqb (show_nat p.(k_sport)) n then ipt_matches r p else None
  | "--dport" :: n :: r => if String.eqb (show_nat p.(k_dport)) n then ipt_matches r p else None
  | "-m" :: "comment" :: "--comment" :: _ :: r => ipt_matches r p
  | ["-j"; "NFQUEUE"; "--queue-num"; q; "--queue-bypass"] => Some q
  | _ => None
  end.
Fixpoint nft_matches (args : list string) (p : Pkt) : option string :=
  match args with
  | "ip" :: "saddr" :: a :: r => if String.eqb (show_ipv4 p.(k_src)) a then nft_matches r p else None
  | "ip" :: "daddr" :: a :: r => if String.eqb (show_ipv4 p.(k_dst)) a then nft_matches r p else None
  | "tcp" :: "sport" :: n :: r => if String.eqb (show_nat p.(k_sport)) n then nft_matches r p else None
  | "tcp" :: "dport" :: n :: r => if String.eqb (show_nat p.(k_dport)) n then nft_matches r p else None
  | ["queue"; "num"; q; "bypass"] => Some q
  | _ => None
  end.

(** *** Printing is injective *)
Lemma show_nat_inj a b : (0 ≤ a)%Z → (0 ≤ b)%Z → show_nat a = show_nat b → a = b.
Proof. intros Ha Hb E. apply parse_show_nat in Ha, Hb. congruence. Qed.

Lemma digit_char_digit d : (0 ≤ d < 10)%Z → digit10 (digit_char d) ≠ None.
Proof. intros. by rewrite digit10_char. Qed.

Lemma show_digits_digits fuel n acc :
  (0 ≤ n)%Z → all_digits acc = true → all_digits (show_digits fuel n acc) = true.
Proof.
  revert n acc. induction fuel as [|fuel IH]; intros n acc Hn Ha; cbn [show_digits]; [done|].
  assert (all_digits (String (digit_char (n mod 10)) acc) = true) as Hd.
  { cbn [all_digits]. rewrite bool_decide_eq_false_2; [done|].
    apply digit_char_digit, Z.mod_pos_bound. lia. }
  destruct (n <? 10)%Z; [done|]. apply IH; [|done]. apply Z.div_pos; lia.
Qed.

Lemma show_nat_all_digits n : (0 ≤ n)%Z → all_digits (show_nat n) = true.
Proof. intros. by apply show_digits_digits. Qed.

Lemma show_nat_nonempty n : show_nat n ≠ EmptyString.
Proof.
  unfold show_nat. cbn [show_digits]. destruct (n <? 10)%Z; [done|].
  by apply show_digits_not_empty.
Qed.

(** Digit strings end where a character that is no digit stands. *)
Lemma digits_split a b c a' b' :
  all_digits a = true → all_digits a' = true → digit10 c = None →
  a ++ String c b = a' ++ String c b' → a = a' ∧ b = b'.
Proof.
  intros Ha Ha' Hc. revert a' Ha'.
  induction a as [|x a IH]; intros [|y a'] Ha'; simpl in *.
  - by intros [= ->].
  - intros [= <- _]. rewrite bool_decide_eq_true_2 in Ha' by done. done.
  - intros [= -> _]. rewrite bool_decide_eq_true_2 in Ha by done. done.
  - intros [= -> E]. apply andb_prop in Ha as [_ Ha], Ha' as [_ Ha'].
    destruct (IH Ha a' Ha' E) as [-> ->]. done.
Qed.

Lemma show_ipv4_inj a b : is_u32 a → is_u32 b → show_ipv4 a = show_ipv4 b → a = b.
Proof.
  unfold is_u32, show_ipv4. intros Ha Hb E.
  assert (∀ n, (0 ≤ n mod 256)%Z) as Hm by (intros; apply Z.mod_pos_bound; lia).
  assert (0 ≤ a / 2 ^ 24)%Z by (apply Z.div_pos; lia).
  assert (0 ≤ b / 2 ^ 24)%Z by (apply Z.div_pos; lia).
  assert (digit10 "." = None) as Hdot by reflexivity.
  apply digits_split in E as [E1 E]; [|by apply show_nat_all_digits..|done].
  apply digits_split in E as [E2 E]; [|by apply show_nat_all_digits..|done].
  apply digits_split in E as [E3 E4]; [|by apply show_nat_all_digits..|done].
  apply show_nat_inj in E1, E2, E3, E4; try done; try apply Hm.
  pose proof (Z.div_mod a 256). pose proof (Z.div_mod b 256).
  pose proof (Z.div_mod (a / 2 ^ 8) 256). pose proof (Z.div_mod (b / 2 ^ 8) 256).
  pose proof (Z.div_mod (a / 2 ^ 16) 256). pose proof (Z.div_mod (b / 2 ^ 16) 256).
  rewrite !Z.div_div in * by lia. change (2 ^ 8 * 256)%Z with (2 ^ 16)%Z in *.
  change (2 ^ 16 * 256)%Z with (2 ^ 24)%Z in *. change (2 ^ 8)%Z with 256%Z in *. lia.
Qed.

Lemma show_ipv4_eqb a b :
  is_u32 a → is_u32 b → String.eqb (show_ipv4 a) (show_ipv4 b) = (a =? b)%Z.
Proof.
  intros Ha Hb. destruct (Z.eqb_spec a b) as [->|Hn]; [apply String.eqb_refl|].
  apply String.eqb_neq. intros E. by apply Hn, show_ipv4_inj.
Qed.
Lemma show_nat_eqb a b :
  (0 ≤ a)%Z → (0 ≤ b)%Z → String.eqb (show_nat a) (show_nat b) = (a =? b)%Z.
Proof.
  intros Ha Hb. destruct (Z.eqb_spec a b) as [->|Hn]; [apply String.eqb_refl|].
  apply String.eqb_neq. intros E. by apply Hn, show_nat_inj.
Qed.

Record filter_ok (filter : FilterSpec) : Prop := {
  fo_iface : is_u32 filter.(fs_interface_ip);
  fo_remote : from_option is_u32 True filter.(fs_remote_ip);
  fo_port : is_u16 filter.(fs_remote_port);
  fo_queue : is_u16 filter.(fs_queue_num);
  fo_owner : from_option (λ o, ∃ pid, is_u32 pid ∧ o = "zerodpi-" ++ show_nat pid) True
               filter.(fs_firewall_owner) }.
Record pkt_ok (p : Pkt) : Prop := {
  ko_src : is_u32 p.(k_src); ko_dst : is_u32 p.(k_dst);
  ko_sport : is_u16 p.(k_sport); ko_dport : is_u16 p.(k_dport) }.

(** *** The rules select the packets of the filter *)
Lemma strip_prefix_app p s : strip_prefix p (p ++ s) = Some s.
Proof. induction p as [|c p IH]; simpl; [by destruct s|]. by rewrite Ascii.eqb_refl. Qed.

Lemma show_nat_head n c s : (0 ≤ n)%Z → show_nat n = String c s → digit10 c ≠ None.
Proof.
  intros Hn E. pose proof (show_nat_all_digits n Hn) as Hd. rewrite E in Hd. cbn [all_digits] in Hd.
  apply andb_prop in Hd as [Hd _]. by apply negb_true_iff, bool_decide_eq_false in Hd.
Qed.

Lemma show_nat_dash n s : (0 ≤ n)%Z → String.eqb (show_nat n) (String "-" s) = false.
Proof.
  intros Hn. apply String.eqb_neq. intros E. by apply (show_nat_head n _ _ Hn E).
Qed.
Lemma show_ipv4_dash a s : (0 ≤ a)%Z → String.eqb (show_ipv4 a) (String "-" s) = false.
Proof.
  intros Ha. apply String.eqb_neq. unfold show_ipv4. intros E.
  assert (0 ≤ a / 2 ^ 24)%Z as Hd by (apply Z.div_pos; lia).
  destruct (show_nat (a / 2 ^ 24)) as [|c r] eqn:Es; [by apply (show_nat_nonempty (a / 2 ^ 24))|].
  injection E as -> _. by apply (show_nat_head _ _ _ Hd Es).
Qed.

Lemma owner_valid pid : (0 ≤ pid)%Z → valid_firewall_owner ("zerodpi-" ++ show_nat pid) = true.
Proof.
  intros Hp. unfold valid_firewall_owner. rewrite strip_prefix_app, show_nat_all_digits by done.
  pose proof (show_nat_nonempty pid). by destruct (show_nat pid).
Qed.

Local Open Scope list_scope.
Section rules.
Context (filter : FilterSpec) (Hf : filter_ok filter).
Let iface := show_ipv4 filter.(fs_interface_ip).
Let port := show_nat filter.(fs_remote_port).
Let q := show_nat filter.(fs_queue_num).

(** The arguments of the two rules behind the chain. *)
Definition rule_args (direction : Direction) (tag : list string) : list string :=
  ["-p"; "tcp"] ++
  match direction with
  | Outbound => ["-s"; iface] ++ from_option (λ r, ["-d"; show_ipv4 r]) [] filter.(fs_remote_ip) ++
                ["--dport"; port]
  | Inbound => from_option (λ r, ["-s"; show_ipv4 r]) [] filter.(fs_remote_ip) ++
               ["-d"; iface; "--sport"; port]
  end ++ tag ++ ["-j"; "NFQUEUE"; "--queue-num"; q; "--queue-bypass"].
Definition owner_tag : list string :=
  from_option (λ o, ["-m"; "comment"; "--comment"; o]) [] filter.(fs_firewall_owner).

Lemma iptables_rules_done :
  iptables_rules filter =
  Done ["OUTPUT" :: rule_args Outbound owner_tag; "INPUT" :: rule_args Inbound owner_tag].
Proof.
  destruct Hf as [Hi Hr [Hp _] [Hq _] Ho]. destruct Hi as [Hi _].
  unfold iptables_rules, owner_tag, rule_args. fold iface port q.
  assert (∀ s, String.eqb iface (String "-" s) = false) as Ei by (intros; by apply show_ipv4_dash).
  assert (∀ s, String.eqb port (String "-" s) = false) as Ep by (intros; by apply show_nat_dash).
  destruct (fs_firewall_owner filter) as [o|]; cbn [from_option] in *.
  - destruct Ho as (pid & [Hpid _] & ->). rewrite owner_valid by done. cbn [rassert].
    destruct (fs_remote_ip filter) as [r|]; cbn [from_option] in *.
    + destruct Hr as [Hr _].
      assert (∀ s, String.eqb (show_ipv4 r) (String "-" s) = false) as Er
        by (intros; by apply show_ipv4_dash).
      unfold exec_mapM, tag_rule, position. cbn [String.eqb Ascii.eqb Bool.eqb].
      rewrite Ei, Ep, Er. done.
    + unfold exec_mapM, tag_rule, position. cbn [String.eqb Ascii.eqb Bool.eqb].
      rewrite Ei, Ep. done.
  - by destruct (fs_remote_ip filter).
Qed.

Lemma ipt_matches_selected direction p :
  pkt_ok p →
  ipt_matches (rule_args direction owner_tag) p =
  if selected direction filter p then Some q else None.
Proof.
  intros [Ks Kd [Ksp _] [Kdp _]]. destruct Hf as [Hi Hr [Hp _] _ _].
  assert (∀ x, ipt_matches (owner_tag ++ ["-j"; "NFQUEUE"; "--queue-num"; q; "--queue-bypass"]) x
    = Some q) as Ht by (intros; unfold owner_tag; by destruct (fs_firewall_owner filter)).
  unfold rule_args, selected, iface, port.
  destruct direction, (fs_remote_ip filter) as [r|]; cbn [from_option app ipt_matches] in *;
    rewrite ?show_ipv4_eqb, ?show_nat_eqb, ?Ht by done;
    repeat match goal with |- context [(?a =? ?b)%Z] => destruct (a =? b)%Z end; done.
Qed.

Lemma nft_matches_selected table direction p :
  pkt_ok p →
  nft_matches (drop 5 (nft_add_rule_args table direction filter)) p =
  if selected direction filter p then Some q else None.
Proof.
  intros [Ks Kd [Ksp _] [Kdp _]]. destruct Hf as [Hi Hr [Hp _] _ _].
  unfold nft_add_rule_args, selected. fold q.
  destruct direction, (fs_remote_ip filter) as [r|]; cbn [from_option app drop nft_matches] in *;
    rewrite ?show_ipv4_eqb, ?show_nat_eqb by done;
    repeat match goal with |- context [(?a =? ?b)%Z] => destruct (a =? b)%Z end; done.
Qed.
End rules.

(** ** Recognising owned rules *)

(** Neither white space nor quotes. *)
Definition plain_char (c : ascii) : bool := negb (is_ascii_whitespace c) && negb (is_quote c).
Fixpoint plain (s : string) : bool :=
  match s with EmptyString => true | String c s' => plain_char c && plain s' end.
Definition no_space (s : string) : bool :=
  forallb (λ c, negb (is_ascii_whitespace c)) (String.list_ascii_of_string s).

Lemma plain_app s t : plain (s ++ t)%string = plain s && plain t.
Proof. induction s as [|c s IH]; simpl; [done|]. by rewrite IH, andb_assoc. Qed.
Lemma plain_no_space s : plain s = true → no_space s = true.
Proof.
  unfold no_space. induction s as [|c s IH]; simpl; [done|]. unfold plain_char.
  intros [[-> _]%andb_prop Hs]%andb_prop. by apply IH.
Qed.
Lemma digit_plain_char c : digit10 c ≠ None → plain_char c = true.
Proof. destruct c as [[] [] [] [] [] [] [] []]; vm_compute; intros H; done. Qed.
Lemma digits_plain s : all_digits s = true → plain s = true.
Proof.
  induction s as [|c s IH]; simpl; [done|]. intros [Hc Hs]%andb_prop.
  rewrite digit_plain_char, IH; [done..|]. by apply negb_true_iff, bool_decide_eq_false in Hc.
Qed.
Lemma show_nat_plain n : (0 ≤ n)%Z → plain (show_nat n) = true.
Proof. intros. by apply digits_plain, show_nat_all_digits. Qed.
Lemma show_ipv4_plain a : (0 ≤ a)%Z → plain (show_ipv4 a) = true.
Proof.
  intros Ha. unfold show_ipv4. rewrite !plain_app.
  assert (∀ n, (0 ≤ n mod 256)%Z) as Hm by (intros; apply Z.mod_pos_bound; lia).
  rewrite !show_nat_plain; [done|apply Hm..|]. apply Z.div_pos; lia.
Qed.

(** *** Tokens *)
Definition token_ok (s : string) : Prop := s ≠ EmptyString ∧ no_space s = true.

Lemma ws_pieces_app t s :
  no_space t = true → ws_pieces (t ++ s)%string = ((t ++ (ws_pieces s).1)%string, (ws_pieces s).2).
Proof.
  unfold no_space. induction t as [|c t IH]; [intros _; apply surjective_pairing|].
  cbn [String.list_ascii_of_string forallb]. rewrite str_app_cons. cbn [ws_pieces].
  intros [Hc Ht]%andb_prop. rewrite IH by done. apply negb_true_iff in Hc. by rewrite Hc.
Qed.

Lemma split_ws_join ts :
  Forall token_ok ts → split_ascii_whitespace (str_join " " ts) = ts.
Proof.
  unfold split_ascii_whitespace.
  induction ts as [|t ts IH]; intros Hts; [done|].
  apply Forall_cons in Hts as [[Hne Hns] Hts]. specialize (IH Hts).
  destruct ts as [|t' ts].
  - simpl. rewrite <- (str_app_nil t), ws_pieces_app by done. simpl.
    rewrite str_app_nil. by destruct t.
  - change (str_join " " (t :: t' :: ts)) with (t ++ String " " (str_join " " (t' :: ts)))%string.
    rewrite ws_pieces_app by done.
    cbn [ws_pieces is_ascii_whitespace existsb Ascii.eqb Bool.eqb orb].
    destruct (ws_pieces (str_join " " (t' :: ts))) as [u l]. cbn [fst snd].
    rewrite str_app_nil. destruct t as [|c t]; [done|]. f_equal. exact IH.
Qed.

(** *** Quotes *)
Lemma rev_append_list s acc :
  String.list_ascii_of_string (rev_append s acc) =
  rev (String.list_ascii_of_string s) ++ String.list_ascii_of_string acc.
Proof.
  revert acc. induction s as [|c s IH]; intros acc; simpl; [done|].
  rewrite IH. simpl. by rewrite <- app_assoc.
Qed.
Lemma string_list_inj s t :
  String.list_ascii_of_string s = String.list_ascii_of_string t → s = t.
Proof.
  intros E. rewrite <- (String.string_of_list_ascii_of_string s), E.
  apply String.string_of_list_ascii_of_string.
Qed.
Lemma plain_list s : plain s = forallb plain_char (String.list_ascii_of_string s).
Proof. induction s as [|c s IH]; simpl; [done|]. by rewrite IH. Qed.
Lemma plain_rev s : plain (str_rev s) = plain s.
Proof.
  rewrite !plain_list. unfold str_rev. rewrite rev_append_list, app_nil_r. simpl.
  induction (String.list_ascii_of_string s) as [|c l IH]; simpl; [done|].
  rewrite forallb_app, IH. simpl. rewrite andb_true_r. apply andb_comm.
Qed.
Lemma trim_quotes_start_plain s : plain s = true → trim_quotes_start s = s.
Proof.
  destruct s as [|c s]; simpl; [done|]. unfold plain_char.
  intros [[_ Hc]%andb_prop _]%andb_prop. apply negb_true_iff in Hc. by rewrite Hc.
Qed.

Definition quoted (s : string) : string := String "034" (s ++ String "034" EmptyString)%string.

Lemma trim_quotes_plain s : plain s = true → trim_quotes s = s.
Proof.
  intros Hs. unfold trim_quotes. rewrite (trim_quotes_start_plain s) by done.
  rewrite trim_quotes_start_plain by (by rewrite plain_rev). apply str_rev_involutive.
Qed.
Lemma trim_quoted s : plain s = true → s ≠ EmptyString → trim_quotes (quoted s) = s.
Proof.
  intros Hs Hne. unfold trim_quotes, quoted. cbn [trim_quotes_start is_quote Ascii.eqb Bool.eqb orb].
  assert (trim_quotes_start (s ++ String "034" EmptyString)%string =
    (s ++ String "034" EmptyString)%string) as ->.
  { destruct s as [|c s]; [done|]. cbn [plain] in Hs. unfold plain_char in Hs.
    rewrite str_app_cons. cbn [trim_quotes_start].
    apply andb_prop in Hs as [[_ Hc]%andb_prop _]. apply negb_true_iff in Hc. by rewrite Hc. }
  assert (str_rev (s ++ String "034" EmptyString)%string = String "034" (str_rev s)) as ->.
  { apply string_list_inj. unfold str_rev. rewrite rev_append_list.
    cbn [String.list_ascii_of_string]. rewrite rev_append_list, !app_nil_r.
    clear Hs Hne. induction s as [|c s IH]; simpl; [done|]. by rewrite IH. }
  cbn [trim_quotes_start is_quote Ascii.eqb Bool.eqb orb].
  rewrite trim_quotes_start_plain by (by rewrite plain_rev). apply str_rev_involutive.
Qed.

Lemma parse_unsigned_show n hi : (0 ≤ n ≤ hi)%Z → parse_unsigned hi (show_nat n) = Some n.
Proof.
  intros Hn. unfold parse_unsigned.
  destruct (show_nat n) as [|c s] eqn:E; [by apply show_nat_nonempty in E|].
  assert (Ascii.eqb "+" c = false) as Hc.
  { apply Ascii.eqb_neq. intros <-. by apply (show_nat_head n _ _ (proj1 Hn) E). }
  cbn [strip_prefix]. rewrite Hc, <- E, parse_show_nat by lia.
  destruct Hn as [_ Hn]. by apply Z.leb_le in Hn as ->.
Qed.

Section owned.
Context (filter : FilterSpec) (Hf : filter_ok filter).
Context (pid : Z) (Hpid : is_u32 pid).
Let owner := ("zerodpi-" ++ show_nat pid)%string.

Lemma owner_plain : plain owner = true.
Proof. unfold owner. rewrite plain_app, show_nat_plain by apply Hpid. done. Qed.

(** A rule of ours with the comment [comment]. *)
Let args direction comment := rule_args filter direction ["-m"; "comment"; "--comment"; comment].

Lemma rule_args_plain direction : Forall (λ t, t ≠ EmptyString ∧ plain t = true) (args direction owner).
Proof.
  destruct Hf as [[Hi _] Hr [Hp _] [Hq _] _].
  assert (∀ a, show_ipv4 a ≠ EmptyString) as Hne.
  { intros a. unfold show_ipv4. pose proof (show_nat_nonempty (a / 2 ^ 24)).
    by destruct (show_nat (a / 2 ^ 24)). }
  assert (owner ≠ EmptyString ∧ plain owner = true) as Ho by (split; [done|apply owner_plain]).
  assert (∀ a, (0 ≤ a)%Z → show_ipv4 a ≠ EmptyString ∧ plain (show_ipv4 a) = true) as Ha
    by (intros; split; [done|by apply show_ipv4_plain]).
  assert (∀ a, (0 ≤ a)%Z → show_nat a ≠ EmptyString ∧ plain (show_nat a) = true) as Hn
    by (intros; split; [apply show_nat_nonempty|by apply show_nat_plain]).
  unfold args, rule_args.
  destruct direction, (fs_remote_ip filter) as [r|]; cbn [from_option app] in *;
    repeat (apply Forall_cons; split); try apply Forall_nil_2; try (split; done);
    try (by apply Ha); try (by apply Hn); try done;
    apply Ha; by destruct Hr.
Qed.

Lemma parse_rule direction chain comment :
  chain = "INPUT" ∨ chain = "OUTPUT" → comment = owner ∨ comment = quoted owner →
  parse_owned_iptables_rule (str_join " " ("-A" :: chain :: args direction comment)) =
  Some (pid, chain :: args direction owner).
Proof.
  intros Hch Hco. pose proof (rule_args_plain direction) as Hpl.
  assert (trim_quotes comment = owner) as Htr.
  { destruct Hco as [->| ->]; [apply trim_quotes_plain, owner_plain|].
    apply trim_quoted; [apply owner_plain|done]. }
  assert (token_ok comment) as Htc.
  { destruct Hco as [->| ->]; split; try done; [apply plain_no_space, owner_plain|].
    unfold no_space, quoted. cbn [String.list_ascii_of_string forallb].
    pose proof (plain_no_space _ owner_plain) as Hns. unfold no_space in Hns.
    clear -Hns. induction owner as [|c s IH]; [done|]. rewrite str_app_cons.
    cbn [String.list_ascii_of_string forallb] in *. apply andb_prop in Hns as [-> Hns].
    by apply IH. }
  assert (Forall token_ok (args direction comment) ∧
    trim_quotes <$> args direction comment = args direction owner) as [Hok Htrim].
  { revert Hpl. unfold args, rule_args. rewrite !Forall_app, !fmap_app. cbn [fmap list_fmap].
    rewrite Htr. intros (H1 & H2 & H3 & H4).
    assert (∀ l, Forall (λ t, t ≠ EmptyString ∧ plain t = true) l →
      Forall token_ok l ∧ trim_quotes <$> l = l) as Hall.
    { induction 1 as [|t l [? ?] _ [IH1 IH2]]; [done|]. split.
      - constructor; [|done]. split; [done|by apply plain_no_space].
      - cbn [fmap list_fmap]. rewrite trim_quotes_plain by done. by f_equal. }
    destruct (Hall _ H2) as [H2a H2b], (Hall _ H4) as [H4a H4b].
    split; [split_and!; try done|].
    - by repeat constructor.
    - repeat (apply Forall_cons; split); try apply Forall_nil_2; try done.
    - rewrite H2b. cbn [fmap list_fmap] in H4b. by rewrite H4b. }
  unfold parse_owned_iptables_rule. rewrite split_ws_join.
  2:{ constructor; [done|]. constructor; [by destruct Hch as [->| ->]|done]. }
  destruct Hf as [[Hi _] Hr [Hp _] [Hq _] _].
  assert (∀ s, String.eqb (show_ipv4 (fs_interface_ip filter)) (String "-" s) = false) as Ei
    by (intros; by apply show_ipv4_dash).
  assert (∀ s, String.eqb (show_nat (fs_remote_port filter)) (String "-" s) = false) as Ep
    by (intros; by apply show_nat_dash).
  assert (has_pair "-j" "NFQUEUE" ("-A" :: chain :: args direction comment) = true ∧
    pair_after "--comment" ("-A" :: chain :: args direction comment) = Some comment ∧
    (List.length ("-A" :: chain :: args direction comment) <? 8)%nat = false) as (Hj & Hcm & Hlen).
  { unfold args, rule_args.
    assert (String.eqb chain "-j" = false ∧ String.eqb chain "--comment" = false ∧
      String.eqb comment "-j" = false) as (Ec1 & Ec2 & Ec3).
    { split_and!; [by destruct Hch as [->| ->]..|]. by destruct Hco as [->| ->]. }
    destruct direction, (fs_remote_ip filter) as [r|]; cbn [from_option app] in *;
      try (assert (∀ s, String.eqb (show_ipv4 r) (String "-" s) = false) as Er
        by (intros; apply show_ipv4_dash, Hr));
      cbn [has_pair pair_after]; rewrite ?Ei, ?Ep, ?Ec1, ?Ec2, ?Ec3, ?Er; done. }
  rewrite Hj, Hcm, Hlen, Htr. cbn [lookup list_lookup orb negb].
  rewrite bool_decide_eq_true_2 by done.
  rewrite bool_decide_eq_true_2 by (destruct Hch as [->| ->]; auto). cbn [orb negb].
  unfold owner. rewrite strip_prefix_app, parse_unsigned_show by (unfold u32_max, is_u32 in *; lia).
  cbn [drop take app]. rewrite take_0, drop_0, Htrim. done.
Qed.
End owned.

Lemma split_once_digits_at a c b :
  all_digits a = true → digit10 c = None → split_once c (a ++ String c b)%string = Some (a, b).
Proof.
  intros Ha Hc. induction a as [|x a IH].
  - change (EmptyString ++ String c b)%string with (String c b). cbn [split_once].
    by rewrite Ascii.eqb_refl.
  - rewrite str_app_cons. cbn [all_digits] in Ha. apply andb_prop in Ha as [Hx Ha].
    apply negb_true_iff, bool_decide_eq_false in Hx. cbn [split_once].
    destruct (Ascii.eqb_spec x c) as [->|]; [done|]. by rewrite IH.
Qed.

Lemma parse_table pid id :
  is_u32 pid → (0 ≤ id)%Z →
  parse_owned_nftables_table (str_join " " ["table"; NFT_TABLE_FAMILY; next_nft_table_name pid id]) =
  Some (pid, next_nft_table_name pid id).
Proof.
  intros Hp Hi. unfold parse_owned_nftables_table.
  assert (plain (next_nft_table_name pid id) = true) as Hpl.
  { unfold next_nft_table_name. rewrite !plain_app, !show_nat_plain by apply Hp || done. done. }
  rewrite split_ws_join.
  2:{ repeat (apply Forall_cons; split); try apply Forall_nil_2; try done.
      split; [done|by apply plain_no_space]. }
  cbn [String.eqb Ascii.eqb Bool.eqb andb NFT_TABLE_FAMILY].
  unfold next_nft_table_name at 1. rewrite strip_prefix_app.
  change ("_" ++ show_nat id)%string with (String "_" (show_nat id)).
  rewrite split_once_digits_at by (try done; apply show_nat_all_digits, Hp).
  rewrite show_nat_all_digits by done.
  pose proof (show_nat_nonempty id). destruct (show_nat id) eqn:E; [done|].
  cbn [String.eqb negb orb]. by rewrite parse_unsigned_show by (unfold u32_max, is_u32 in *; lia).
Qed.

(** ** Life of the rules *)
Local Open Scope nat_scope.
Local Open Scope list_scope.

Lemma remove_rule_perm rule l : rule ∈ l → l ≡ₚ rule :: remove_rule rule l.
Proof.
  induction l as [|r l IH]; intros Hin; [by apply not_elem_of_nil in Hin|]. cbn [remove_rule].
  destruct (bool_decide_reflect (r = rule)) as [->|Hn]; [done|].
  apply elem_of_cons in Hin as [->|Hin]; [done|]. rewrite (IH Hin) at 1. apply Permutation_swap.
Qed.

Section life.
Context (works : nat → bool).

Lemma run_insert rule k :
  run_iptables works "-I" rule k =
  (works k.(k_calls),
   MkKernel (S k.(k_calls)) (if works k.(k_calls) then rule :: k.(k_rules) else k.(k_rules))
     (k.(k_log) ++ [("-I", rule)])).
Proof. unfold run_iptables. simpl. by destruct (works _). Qed.

(** A rule that is there is deleted unless the command cannot be run. *)
Lemma run_delete rule k base :
  k.(k_rules) ≡ₚ rule :: base →
  ∃ k', run_iptables works "-D" rule k = (works k.(k_calls), k') ∧
    k'.(k_calls) = S k.(k_calls) ∧
    k'.(k_rules) ≡ₚ (if works k.(k_calls) then base else rule :: base).
Proof.
  intros Hp. unfold run_iptables. simpl. assert (rule ∈ k_rules k) as Hin by (rewrite Hp; by left).
  rewrite bool_decide_eq_true_2 by done. rewrite andb_true_r. eexists. split; [done|].
  split; [done|]. simpl. destruct (works (k_calls k)); cbn [negb]; [|done].
  apply (Permutation_cons_inv (a:=rule)). rewrite <- Hp. symmetry. by apply remove_rule_perm.
Qed.

Lemma rollback_spec todo k base :
  k.(k_rules) ≡ₚ todo ++ base →
  ∃ left, left ⊆+ todo ∧
    (foldl (λ k r, snd (run_iptables works "-D" r k)) k todo).(k_rules) ≡ₚ left ++ base ∧
    ((∀ j, k.(k_calls) ≤ j → works j = true) → left = []).
Proof.
  revert k base. induction todo as [|r todo IH]; intros k base Hp; [by exists []|].
  destruct (run_delete r k (todo ++ base) Hp) as (k1 & E & Hc & Hp1). cbn [foldl]. rewrite E.
  cbn [snd]. destruct (works (k_calls k)) eqn:Ew.
  - destruct (IH k1 base Hp1) as (left & Hs & Hl & Hw). exists left. split_and!; [|done|].
    + by apply submseteq_cons.
    + intros Ha. apply Hw. intros j Hj. apply Ha. lia.
  - assert (k_rules k1 ≡ₚ todo ++ (r :: base)) as Hp1'
      by (rewrite Hp1; by rewrite Permutation_middle).
    destruct (IH k1 (r :: base) Hp1') as (left & Hs & Hl & Hw). exists (r :: left).
    split_and!; [by apply submseteq_skip| |].
    + rewrite Hl. cbn. by rewrite Permutation_middle.
    + intros Ha. rewrite (Ha (k_calls k)) in Ew by lia. done.
Qed.

(** Once a command has failed, the later ones can be run. *)
Definition fails_once (from : nat) : Prop :=
  ∀ i j, from ≤ i < j → works i = false → works j = true.

Lemma install_loop_spec rules installed k base :
  k.(k_rules) ≡ₚ installed ++ base →
  match install_loop works rules installed k with
  | (Some g, k') => g = installed ++ rules ∧ k'.(k_rules) ≡ₚ g ++ base
  | (None, k') => ∃ left, left ⊆+ installed ++ rules ∧ k'.(k_rules) ≡ₚ left ++ base ∧
                    (fails_once k.(k_calls) → left = [])
  end.
Proof.
  revert installed k. induction rules as [|r rules IH]; intros installed k Hp; cbn [install_loop].
  { by rewrite app_nil_r. }
  rewrite run_insert. destruct (works (k_calls k)) eqn:Ew.
  - set (k1 := MkKernel _ _ _).
    assert (k_rules k1 ≡ₚ (installed ++ [r]) ++ base) as Hp1.
    { cbn. rewrite Hp, <- app_assoc. cbn. by rewrite Permutation_middle. }
    specialize (IH (installed ++ [r]) k1 Hp1). rewrite <- app_assoc in IH. cbn [app] in IH.
    destruct (install_loop works rules (installed ++ [r]) k1) as [[g|] k']; [done|].
    destruct IH as (left & ? & ? & Hf). exists left. split_and!; [done..|].
    intros Ho. apply Hf. intros i j Hij. cbn in Hij. apply Ho. lia.
  - set (k1 := MkKernel _ _ _).
    assert (k_rules k1 ≡ₚ reverse installed ++ base) as Hp1
      by (cbn; by rewrite reverse_Permutation).
    destruct (rollback_spec (reverse installed) k1 base Hp1) as (left & Hs & Hl & Hw).
    exists left. split_and!; [|done|].
    + rewrite Hs, reverse_Permutation. by apply submseteq_inserts_r.
    + intros Ho. apply Hw. intros j Hj. apply (Ho (k_calls k)); [cbn in Hj; lia|done].
Qed.

Lemma remove_owned_rules_spec g k base :
  k.(k_rules) ≡ₚ g ++ base →
  let '(ok, g', k') := remove_owned_rules works g k in
  k'.(k_rules) ≡ₚ g' ++ base ∧ (ok = true ↔ g' = []) ∧ g' `sublist_of` g ∧
  ((∀ j, k.(k_calls) ≤ j → works j = true) → ok = true).
Proof.
  revert k base. induction g as [|r g IH]; intros k base Hp; [done|]. cbn [remove_owned_rules].
  destruct (run_delete r k (g ++ base) Hp) as (k1 & E & Hc & Hp1). rewrite E.
  destruct (works (k_calls k)) eqn:Ew.
  - specialize (IH k1 base Hp1). destruct (remove_owned_rules works g k1) as [[ok g'] k'].
    destruct IH as (? & ? & ? & Hw). cbn [andb]. split_and!; [done|done|by apply sublist_cons|].
    intros Ha. apply Hw. intros j Hj. apply Ha. lia.
  - assert (k_rules k1 ≡ₚ g ++ (r :: base)) as Hp1' by (rewrite Hp1; by rewrite Permutation_middle).
    specialize (IH k1 (r :: base) Hp1'). destruct (remove_owned_rules works g k1) as [[ok g'] k'].
    destruct IH as (Hp' & ? & ? & Hw). cbn [andb]. split_and!; [|done|by apply sublist_skip|].
    + rewrite Hp'. cbn. by rewrite Permutation_middle.
    + intros Ha. rewrite (Ha (k_calls k)) in Ew by lia. done.
Qed.
End life.

Section nft_life.
Context (works : nat → bool) (name : string) (base : list (string * list (list string))).
Context (Hfresh : has_table name base = false).

Lemma fresh_ne t : t ∈ base → t.1 ≠ name.
Proof.
  intros Ht E. unfold has_table in Hfresh.
  assert (existsb (λ t, String.eqb t.1 name) base = true) as Hx; [|congruence].
  apply existsb_exists. exists t. split; [by apply list_elem_of_In|]. by rewrite E, String.eqb_refl.
Qed.

Lemma nft_append content rest :
  map (λ t, if String.eqb t.1 name then (t.1, t.2 ++ [rest]) else t) ((name, content) :: base) =
  (name, content ++ [rest]) :: base.
Proof.
  cbn [map fst snd]. rewrite String.eqb_refl. f_equal.
  rewrite <- (map_id base) at 2. apply map_ext_in. intros t Ht%list_elem_of_In.
  apply fresh_ne in Ht. apply String.eqb_neq in Ht. by rewrite Ht.
Qed.

Lemma nft_drop content : base.filter (λ t, t.1 ≠ name) ((name, content) :: base) = base.
Proof.
  rewrite filter_cons_False by (intros Hn; by apply Hn).
  induction base as [|t l IH]; [done|]. cbn [has_table existsb] in Hfresh.
  apply orb_false_iff in Hfresh as [Ht Hl]. apply String.eqb_neq in Ht.
  rewrite filter_cons_True by done. f_equal. by apply IH.
Qed.

Lemma delete_table_spec content k :
  k.(t_tables) = (name, content) :: base →
  let '(ok, k') := delete_nft_table works name k in
  ok = works k.(t_calls) ∧ k'.(t_calls) = S k.(t_calls) ∧
  k'.(t_tables) = if ok then base else (name, content) :: base.
Proof.
  intros E. unfold delete_nft_table, run_nft.
  destruct (works (t_calls k)); [|done]. unfold nft_effect. rewrite E.
  cbn [has_table existsb fst]. rewrite String.eqb_refl. cbn [orb]. rewrite nft_drop. done.
Qed.

Lemma delete_absent k :
  k.(t_tables) = base → (snd (delete_nft_table works name k)).(t_tables) = base.
Proof.
  intros E. unfold delete_nft_table, run_nft. destruct (works (t_calls k)); [|done].
  unfold nft_effect. by rewrite E, Hfresh.
Qed.

(** A command on our table is appended to it. *)
Lemma run_on_table content kind family rest k :
  kind ≠ "table" → k.(t_tables) = (name, content) :: base →
  let '(ok, k') := run_nft works ("add" :: kind :: family :: name :: rest) k in
  ok = works k.(t_calls) ∧ k'.(t_calls) = S k.(t_calls) ∧
  k'.(t_tables) = (name, if ok then content ++ [rest] else content) :: base.
Proof.
  intros Hk E. unfold run_nft. destruct (works (t_calls k)); [|done].
  assert (nft_effect ("add" :: kind :: family :: name :: rest) (t_tables k) =
    Some ((name, content ++ [rest]) :: base)) as ->; [|done].
  assert (∀ l, nft_effect ("add" :: kind :: family :: name :: rest) l =
    if has_table name l
    then Some (map (λ t, if String.eqb t.1 name then (t.1, t.2 ++ [rest]) else t) l)
    else None) as ->.
  { intros l. unfold nft_effect.
    destruct rest; [|by repeat (destruct kind as [|[[] [] [] [] [] [] [] []] kind]; try done)].
    by repeat (destruct kind as [|[[] [] [] [] [] [] [] []] kind]; try done). }
  rewrite E. cbn [has_table existsb fst]. rewrite String.eqb_refl. cbn [orb].
  by rewrite nft_append.
Qed.

Definition names_table (args : list string) : Prop :=
  ∃ kind family rest, kind ≠ "table" ∧ args = "add" :: kind :: family :: name :: rest.

Lemma nft_commands_loop commands content k :
  Forall names_table commands → k.(t_tables) = (name, content) :: base →
  match nft_install_loop works name commands k with
  | (Some n, k') => n = name ∧ k'.(t_tables) = (name, content ++ map (drop 4) commands) :: base
  | (None, k') => (k'.(t_tables) = base ∨ ∃ c, k'.(t_tables) = (name, c) :: base) ∧
                  (fails_once works k.(t_calls) → k'.(t_tables) = base)
  end.
Proof.
  intros Hc. revert content k. induction Hc as [|args l (kind & family & rest & Hk & ->) _ IH];
    intros content k E; cbn [nft_install_loop]; [by rewrite app_nil_r|].
  pose proof (run_on_table content kind family rest k Hk E) as Hr.
  destruct (run_nft works ("add" :: kind :: family :: name :: rest) k) as [ok k1].
  destruct Hr as (Eo & Ec & Et). destruct ok.
  - specialize (IH _ _ Et). cbn [map drop]. rewrite drop_0.
    destruct (nft_install_loop works name l k1) as [[n|] k'].
    + rewrite <- app_assoc in IH. exact IH.
    + destruct IH as [IH1 IH2]. split; [done|]. intros Hf. apply IH2.
      intros i j Hij. apply Hf. lia.
  - pose proof (delete_table_spec _ _ Et) as Hd.
    destruct (delete_nft_table works name k1) as [ok' k2]. cbn [snd].
    destruct Hd as (Eo' & _ & Et'). split.
    + rewrite Et'. destruct ok'; eauto.
    + intros Hf. rewrite Et', Eo', (Hf (t_calls k)) by (done || lia). done.
Qed.
End nft_life.

Lemma nft_install_spec works pid id filter k :
  let name := next_nft_table_name pid id in
  has_table name k.(t_tables) = false →
  match nft_install works pid id filter k with
  | (Some n, k') => n = name ∧
      k'.(t_tables) =
        (name, map (drop 4) (drop 1 (nft_install_commands name filter))) :: k.(t_tables)
  | (None, k') =>
      (k'.(t_tables) = k.(t_tables) ∨ ∃ c, k'.(t_tables) = (name, c) :: k.(t_tables)) ∧
      (fails_once works k.(t_calls) → k'.(t_tables) = k.(t_tables))
  end.
Proof.
  intros name Hfresh. unfold nft_install. fold name.
  assert (Forall (names_table name) (drop 1 (nft_install_commands name filter))) as Hn.
  { repeat (apply Forall_cons; split); try apply Forall_nil_2;
      [exists "chain"|exists "chain"|exists "rule"|exists "rule"];
      exists NFT_TABLE_FAMILY; eexists; (split; [discriminate|reflexivity]). }
  assert (nft_install_commands name filter =
    ["add"; "table"; NFT_TABLE_FAMILY; name] :: drop 1 (nft_install_commands name filter)) as Ec
    by done.
  remember (drop 1 (nft_install_commands name filter)) as commands eqn:Hcs. rewrite Ec.
  cbn [nft_install_loop]. unfold run_nft at 1.
  destruct (works (t_calls k)) eqn:Ew; cbn [nft_effect].
  2:{ pose proof (delete_absent works name (t_tables k) Hfresh
        (MkNftKernel (S (t_calls k)) (t_tables k)) eq_refl) as Hd.
      split; [by left|done]. }
  rewrite Hfresh. set (k1 := MkNftKernel _ _).
  pose proof (nft_commands_loop works name (t_tables k) Hfresh commands [] k1 Hn eq_refl) as Hl.
  destruct (nft_install_loop works name commands k1) as [[n|] k']; [exact Hl|].
  destruct Hl as [Hl1 Hl2]. split; [done|]. intros Hf. apply Hl2. intros i j Hij.
  cbn in Hij. apply Hf. lia.
Qed.

(** ** Recovery *)

(** What a parsed line tells: the tag and the jump were there. *)
Lemma parse_owned_sound line pid rule :
  parse_owned_iptables_rule line = Some (pid, rule) →
  ∃ chain args comment tag, split_ascii_whitespace line = "-A" :: chain :: args ∧
    (chain = "INPUT" ∨ chain = "OUTPUT") ∧ has_pair "-j" "NFQUEUE" ("-A" :: chain :: args) = true ∧
    pair_after "--comment" ("-A" :: chain :: args) = Some comment ∧
    strip_prefix "zerodpi-" (trim_quotes comment) = Some tag ∧
    parse_unsigned u32_max tag = Some pid ∧ rule = chain :: (trim_quotes <$> args).
Proof.
  unfold parse_owned_iptables_rule. set (tokens := split_ascii_whitespace line).
  destruct (_ || _) eqn:E; [done|].
  apply orb_false_iff in E as [[[_ E1]%orb_false_iff E2]%orb_false_iff E3].
  apply negb_false_iff, bool_decide_eq_true in E1, E2. apply negb_false_iff in E3.
  destruct tokens as [|x [|chain args]]; try done. cbn [lookup list_lookup] in E1, E2.
  injection E1 as ->. destruct (pair_after _ _) as [comment|] eqn:Ec; [|done].
  destruct (strip_prefix _ _) as [tag|] eqn:Es; [|done].
  destruct (parse_unsigned _ _) as [n|] eqn:En; [|done]. intros [= <- <-].
  exists chain, args, comment, tag. split_and!; try done.
  destruct E2 as [[= ->]|[= ->]]; auto.
Qed.

(** The rules of dead owners in a listing. *)
Definition owned (lines : list string) : list (Z * list string) :=
  omap parse_owned_iptables_rule lines.

(** A recovery that returns a count has deleted every owned rule of the
    listing, none of a live owner; one that bails out has deleted some first
    part of them. *)
Lemma recover_lines_spec works live lines n k :
  match recover_lines works live lines n k with
  | (Some m, k') =>
      Forall (λ r, live r.1 = false) (owned lines) ∧ m = (n + List.length (owned lines))%nat ∧
      k'.(k_log) = k.(k_log) ++ map (λ r, ("-D", r.2)) (owned lines)
  | (None, k') =>
      ∃ d, (d ≤ List.length (owned lines))%nat ∧
        Forall (λ r, live r.1 = false) (take d (owned lines)) ∧
        k'.(k_log) = k.(k_log) ++ map (λ r, ("-D", r.2)) (take d (owned lines))
  end.
Proof.
  revert n k. induction lines as [|line lines IH]; intros n k; cbn [recover_lines].
  { unfold owned. simpl. rewrite app_nil_r. split_and!; auto with lia. }
  unfold owned. cbn [omap list_omap]. fold (owned lines).
  destruct (parse_owned_iptables_rule line) as [[pid rule]|]; [|apply IH].
  change (list_omap _ _ parse_owned_iptables_rule lines) with (owned lines) in *.
  destruct (live pid) eqn:El.
  { exists 0. simpl. rewrite app_nil_r. split_and!; auto with lia. }
  assert (k_log (snd (run_iptables works "-D" rule k)) = k_log k ++ [("-D", rule)]) as Hl by done.
  destruct (run_iptables works "-D" rule k) as [ok k1]. cbn [snd] in Hl. destruct ok.
  - specialize (IH (S n) k1). destruct (recover_lines works live lines (S n) k1) as [[m|] k'].
    + destruct IH as (Hf & -> & ->). split_and!; [by constructor|simpl; lia|].
      rewrite Hl, <- app_assoc. done.
    + destruct IH as (d & Hd & Hf & ->). exists (S d). cbn [take map List.length snd fst].
      split_and!; [lia|by constructor|]. rewrite Hl, <- app_assoc. done.
  - exists 1. cbn [take map List.length]. rewrite take_0.
    split_and!; [lia|by repeat constructor|done].
Qed.

(** ** The theorems *)


(** The life of the rules.  Installing never panics.  When it succeeds
    the kernel holds the rules of the guard besides what was there before;
    when it fails, only rules whose deletion failed too are left, none if the
    later commands can be run.  A removal deletes what can be deleted, reports
    success exactly when nothing is left, and keeps exactly the rules that are
    left, so that it can be repeated.  The same holds of the nftables table. *)
Theorem firewall_lifecycle filter :
  filter_ok filter →
  (∀ works k, ∃ r k', iptables_install works filter k = Done (r, k') ∧
    match r with
    | Some guard => iptables_rules filter = Done guard ∧ k'.(k_rules) ≡ₚ guard ++ k.(k_rules)
    | None => ∃ left rules, iptables_rules filter = Done rules ∧ left ⊆+ rules ∧
        k'.(k_rules) ≡ₚ left ++ k.(k_rules) ∧ (fails_once works k.(k_calls) → left = [])
    end) ∧
  (∀ works k guard before, k.(k_rules) ≡ₚ guard ++ before →
    ∃ ok kept k', remove_owned_rules works guard k = (ok, kept, k') ∧
      k'.(k_rules) ≡ₚ kept ++ before ∧ (ok = true ↔ kept = []) ∧ kept `sublist_of` guard ∧
      ((∀ j, k.(k_calls) ≤ j → works j = true) → ok = true)) ∧
  (∀ works pid id k, let name := next_nft_table_name pid id in
    has_table name k.(t_tables) = false →
    ∃ r k', nft_install works pid id filter k = (r, k') ∧
    match r with
    | Some n => n = name ∧ ∃ rules, k'.(t_tables) = (name, rules) :: k.(t_tables) ∧
        ∀ works' k2, k2.(t_tables) = k'.(t_tables) →
          ∃ ok kept k3, remove_owned_table works' r k2 = (ok, kept, k3) ∧
            if ok then kept = None ∧ k3.(t_tables) = k.(t_tables)
            else kept = r ∧ k3.(t_tables) = k2.(t_tables)
    | None => (k'.(t_tables) = k.(t_tables) ∨ ∃ c, k'.(t_tables) = (name, c) :: k.(t_tables)) ∧
        (fails_once works k.(t_calls) → k'.(t_tables) = k.(t_tables))
    end).
Proof.
  intros Hf. split_and!.
  - intros works k. unfold iptables_install. rewrite iptables_rules_done by done. cbn [exec_bind].
    set (rules := [_; _]).
    pose proof (install_loop_spec works rules [] k (k_rules k) ltac:(done)) as Hs.
    destruct (install_loop works rules [] k) as [r k']. exists r, k'. split; [done|].
    destruct r as [g|]; [by destruct Hs as [-> ?]|].
    destruct Hs as (left & ? & ? & ?). exists left, rules. by split_and!.
  - intros works k guard before Hk. pose proof (remove_owned_rules_spec works guard k before Hk).
    destruct (remove_owned_rules works guard k) as [[ok kept] k']. by exists ok, kept, k'.
  - intros works pid id k name Hfresh. pose proof (nft_install_spec works pid id filter k Hfresh) as Hs.
    destruct (nft_install works pid id filter k) as [r k']. exists r, k'. split; [done|].
    destruct r as [n|]; [|exact Hs]. destruct Hs as [-> Ht]. split; [done|]. eexists.
    split; [exact Ht|]. intros works' k2 E2. rewrite Ht in E2. cbn [remove_owned_table].
    pose proof (delete_table_spec works' _ _ Hfresh _ _ E2) as Hd. fold name in Hd |- *.
    destruct (delete_nft_table works' name k2) as [ok k3]. destruct Hd as (_ & _ & Ht').
    destruct ok; eexists _, _, _; (split; [done|]); split; try done. by rewrite Ht', E2.
Qed.

Definition sample_filter : FilterSpec :=
  MkFilterSpec 0x0A000001 (Some 0x01020304%Z) 443 7 Iptables (Some "zerodpi-1234").

Lemma sample_filter_ok : filter_ok sample_filter.
Proof.
  constructor; simpl; unfold is_u32, is_u16; try lia.
  exists 1234%Z. split; [lia|vm_compute; reflexivity].
Qed.


(** The third command cannot be run: the two before it are undone. *)
Lemma firewall_lifecycle_witness :
  ∃ r k', iptables_install (λ j, negb (j =? 1)) sample_filter (MkKernel 0 [["INPUT"]] []) =
    Done (r, k') ∧ r = None ∧ k'.(k_rules) ≡ₚ [["INPUT"]].
Proof.
  destruct (firewall_lifecycle sample_filter sample_filter_ok) as (Hi & _).
  destruct (Hi (λ j, negb (j =? 1)) (MkKernel 0 [["INPUT"]] [])) as (r & k' & E & Hr).
  exists r, k'. split; [exact E|].
  assert (r = None) as -> by (vm_compute in E; congruence). split; [reflexivity|].
  destruct Hr as (left & rules & _ & _ & Hp & Hl). rewrite Hl in Hp; [exact Hp|].
  intros i j Hij Hw. apply negb_false_iff, Nat.eqb_eq in Hw. simpl in Hij.
  apply negb_true_iff, Nat.eqb_neq. lia.
Defined.
