(* ===== verification/NetAddr.v ===== *)
(** * Addresses

    The parsing of [std::net] addresses ([core::net::parser]) that the program
    relies on, and [parse_custom_dns_server] of
    [crates/zerodpi-core/src/dns.rs]. *)
From stdpp Require Import base list numbers strings.
From Stdlib Require Import ZArith Lia.
From S2P Require Import Prelude Text.

(** ** Data *)
Inductive IpAddr :=
  | IpV4 (a : Z)              (* the 32-bit address *)
  | IpV6 (groups : list Z).   (* eight 16-bit groups *)
#[export] Instance IpAddr_eq_dec : EqDecision IpAddr.
Proof. solve_decision. Defined.

Record SocketAddr := MkSocketAddr { sa_ip : IpAddr; sa_port : Z; sa_scope : Z }.
#[export] Instance SocketAddr_eq_dec : EqDecision SocketAddr.
Proof. solve_decision. Defined.

Definition is_ipv6 (a : IpAddr) : bool := match a with IpV4 _ => false | IpV6 _ => true end.

(** ** The parser of the standard library

    A parser takes the remaining bytes and returns a value and the rest; a
    failed alternative gives its input back ([read_atomically]). *)
Definition parser (A : Type) : Type := list Z → option (A * list Z).
Definition p_bind {A B} (p : parser A) (k : A → parser B) : parser B :=
  λ s, match p s with Some (a, s') => k a s' | None => None end.
Definition p_ret {A} (a : A) : parser A := λ s, Some (a, s).

Definition read_char (c : Z) : parser () :=
  λ s, match s with b :: s' => if (b =? c)%Z then Some ((), s') else None | [] => None end.

Definition digit (radix b : Z) : option Z :=
  let d := if ((48 <=? b) && (b <=? 57))%Z then (b - 48)%Z
           else if ((97 <=? b) && (b <=? 122))%Z then (b - 87)%Z
           else if ((65 <=? b) && (b <=? 90))%Z then (b - 55)%Z else 99%Z in
  if (d <? radix)%Z then Some d else None.

(** The digits from the front of [s], at most [max] of them when given. *)
Fixpoint read_digits (radix : Z) (hi : Z) (max : option nat) (acc : Z) (count : nat) (s : list Z)
    : option (Z * nat * list Z) :=
  match s with
  | b :: s' =>
      match digit radix b with
      | Some d =>
          let acc := (acc * radix + d)%Z in
          let count := S count in
          if (hi <? acc)%Z then None
          else if match max with Some m => m <? count | None => false end then None
          else read_digits radix hi max acc count s'
      | None => Some (acc, count, s)
      end
  | [] => Some (acc, count, s)
  end.

Definition read_number (radix : Z) (max : option nat) (allow_zero_prefix : bool) (hi : Z)
    : parser Z :=
  λ s, let zero := bool_decide (head s = Some 48%Z) in
    match read_digits radix hi max 0 0 s with
    | Some (v, count, s') =>
        if count =? 0 then None
        else if negb allow_zero_prefix && zero && (1 <? count) then None
        else Some (v, s')
    | None => None
    end.

Definition read_octet : parser Z := read_number 10 (Some 3) false 255.

Definition read_ipv4 : parser Z :=
  p_bind read_octet (λ a, p_bind (read_char 46) (λ _, p_bind read_octet (λ b,
  p_bind (read_char 46) (λ _, p_bind read_octet (λ c, p_bind (read_char 46) (λ _,
  p_bind read_octet (λ d, p_ret (from_be32 a b c d)))))))).

(** [read_separator(':', index, inner)] *)
Definition read_sep {A} (index : nat) (inner : parser A) : parser A :=
  if index =? 0 then inner else p_bind (read_char 58) (λ _, inner).

(** [read_groups] for the slots from [index] on: the groups read, whether the
    last two came from an IPv4 tail, and the rest. *)
Fixpoint read_groups (n index limit : nat) (s : list Z) : list Z * bool * list Z :=
  match n with
  | O => ([], false, s)
  | S n' =>
      match (if index <? limit - 1 then read_sep index read_ipv4 s else None) with
      | Some (a, s') => ([Z.shiftr a 16; Z.land a 0xFFFF], true, s')
      | None =>
          match read_sep index (read_number 16 (Some 4) true 65535) s with
          | Some (g, s') =>
              let '(gs, v4, rest) := read_groups n' (S index) limit s' in (g :: gs, v4, rest)
          | None => ([], false, s)
          end
      end
  end.

Definition read_ipv6 : parser (list Z) :=
  λ s, let '(head, head_v4, s1) := read_groups 8 0 8 s in
    if length head =? 8 then Some (head, s1)
    else if head_v4 then None
    else match p_bind (read_char 58) (λ _, read_char 58) s1 with
         | Some (_, s2) =>
             let limit := 8 - (length head + 1) in
             let '(tail, _, s3) := read_groups limit 0 limit s2 in
             Some (head ++ replicate (8 - length head - length tail) 0%Z ++ tail, s3)
         | None => None
         end.

Definition p_all {A} (p : parser A) (s : string) : option A :=
  match p (as_bytes s) with Some (a, []) => Some a | _ => None end.

Definition p_or {A} (p q : parser A) : parser A :=
  λ s, match p s with Some r => Some r | None => q s end.

Definition parse_ipv4 (s : string) : option Z := p_all read_ipv4 s.
Definition parse_ip (s : string) : option IpAddr :=
  p_all (p_or (p_bind read_ipv4 (λ a, p_ret (IpV4 a))) (p_bind read_ipv6 (λ g, p_ret (IpV6 g)))) s.

Definition read_port : parser Z := p_bind (read_char 58) (λ _, read_number 10 None true 65535).
Definition read_scope_id : parser Z :=
  p_or (p_bind (read_char 37) (λ _, read_number 10 None true 4294967295)) (p_ret 0%Z).
Definition parse_socket_addr (s : string) : option SocketAddr :=
  p_all (p_or
    (p_bind read_ipv4 (λ a, p_bind read_port (λ p, p_ret (MkSocketAddr (IpV4 a) p 0))))
    (p_bind (read_char 91) (λ _, p_bind read_ipv6 (λ g, p_bind read_scope_id (λ sc,
     p_bind (read_char 93) (λ _, p_bind read_port (λ p, p_ret (MkSocketAddr (IpV6 g) p sc)))))))) s.

(** ** The program's parsers *)
Definition DEFAULT_DNS_PORT : Z := 53.

Definition parse_custom_dns_server (value : string) : option SocketAddr :=
  let value := trim value in
  if String.eqb value "" then None else
  match parse_socket_addr value with
  | Some addr => if (addr.(sa_port) =? 0)%Z then None else Some addr
  | None =>
      match parse_ip value with
      | Some ip => Some (MkSocketAddr ip DEFAULT_DNS_PORT 0)
      | None => None
      end
  end.

(** ** Examples *)
Example parse_ip_v4 : parse_ip "10.0.255.1" = Some (IpV4 (from_be32 10 0 255 1)).
Proof. reflexivity. Qed.
Example parse_ip_zero_prefix : parse_ip "10.0.255.01" = None.
Proof. reflexivity. Qed.
Example parse_ip_v6 :
  parse_ip "2606:4700::ffff:1.2.3.4" = Some (IpV6 [0x2606; 0x4700; 0; 0; 0; 0xffff; 0x102; 0x304]%Z).
Proof. reflexivity. Qed.
Example parse_dns_v6_port :
  parse_custom_dns_server " [2606:4700::1]:5353 " =
  Some (MkSocketAddr (IpV6 [0x2606; 0x4700; 0; 0; 0; 0; 0; 1]%Z) 5353 0).
Proof. reflexivity. Qed.
Example parse_dns_zero_port : parse_custom_dns_server "1.1.1.1:0" = None.
Proof. reflexivity. Qed.

(** ** A configured server always has a port *)
Lemma parse_custom_dns_server_port value addr :
  parse_custom_dns_server value = Some addr → sa_port addr ≠ 0%Z.
Proof.
  unfold parse_custom_dns_server. destruct (String.eqb _ _); [done|].
  destruct (parse_socket_addr _) as [a|].
  - destruct (Z.eqb_spec (sa_port a) 0); [done|]. by intros [= <-].
  - destruct (parse_ip _); [|done]. by intros [= <-].
Qed.
