(* ===== verification/TlsTemplate.v ===== *)
(** * The ClientHello template

    Model of [crates/zerodpi-core/src/tls_template.rs]: the decoding of the
    hex template and [build_client_hello].  The theorem: the fake ClientHello
    is 517 bytes long and is a well-formed ClientHello record for the
    requested SNI, in the sense of [Sni.ch_wf]. *)
From stdpp Require Import base list numbers strings.
From Stdlib Require Import ZArith Lia Ascii.
From S2P Require Import Prelude Sni Text.

(** ** Definitions *)
Definition TLS_CH_TEMPLATE_HEX : string :=
  "1603010200010001fc030341d5b549d9cd1adfa7296c8418d157dc7b624c842824ff493b9375bb48d34f2b20" ++
  "bf018bcc90a7c89a230094815ad0c15b736e38c01209d72d282cb5e2105328150024130213031301c02cc030" ++
  "c02bc02fcca9cca8c024c028c023c027009f009e006b006700ff0100018f0000000b00090000066d63692e69" ++
  "72000b000403000102000a00160014001d0017001e0019001801000101010201030104002300000010000e00" ++
  "0c02683208687474702f312e310016000000170000000d002a0028040305030603080708080809080a080b08" ++
  "0408050806040105010601030303010302040205020602002b00050403040303002d00020101003300260024" ++
  "001d0020435bacc4d05f9d41fef44ab3ad55616c36e0613473e2338770efdaa98693d217001500d500000000" ++
  "0000000000000000000000000000000000000000000000000000000000000000000000000000000000000000" ++
  "0000000000000000000000000000000000000000000000000000000000000000000000000000000000000000" ++
  "0000000000000000000000000000000000000000000000000000000000000000000000000000000000000000" ++
  "0000000000000000000000000000000000000000000000000000000000000000000000000000000000000000" ++
  "000000000000000000000000000000000000000000000000000000000000000000".

Definition CLIENT_HELLO_LEN : nat := 517.
Definition MAX_SNI_LEN : nat := 219.
Definition TEMPLATE_SNI_LEN : nat := 6.

(** [(b as char).to_digit(16)] *)
Definition to_digit16 (b : Z) : option Z :=
  if (48 <=? b)%Z && (b <=? 57)%Z then Some (b - 48)%Z
  else if (97 <=? b)%Z && (b <=? 102)%Z then Some (b - 87)%Z
  else if (65 <=? b)%Z && (b <=? 70)%Z then Some (b - 55)%Z
  else None.

(** The decoding loop, two digits at a time; an odd length would index out of
    bounds. *)
Fixpoint decode_hex (bytes : list Z) : exec (list Z) :=
  match bytes with
  | [] => Done []
  | [_] => Panic
  | a :: b :: rest =>
      let! hi := expect (to_digit16 a) in
      let! lo := expect (to_digit16 b) in
      let! out := decode_hex rest in
      Done (as_u8 (Z.lor (Z.shiftl hi 4) lo) :: out)
  end.

Definition template_bytes : exec (list Z) := decode_hex (as_bytes TLS_CH_TEMPLATE_HEX).

Definition build_client_hello (random session_id target_sni key_share : list Z)
    : exec (list Z) :=
  rassert (length random =? 32) (
  rassert (length session_id =? 32) (
  rassert (length key_share =? 32) (
  rassert (length target_sni <=? MAX_SNI_LEN) (
  let! template := template_bytes in
  let! static1 := slice template 0 11 in
  let static2 := [0x20]%Z in
  let! static3 := slice template 76 120 in
  let! static4 := slice template (127 + TEMPLATE_SNI_LEN) (262 + TEMPLATE_SNI_LEN) in
  let static5 := [0x00; 0x15]%Z in
  let sni_len := length target_sni in
  let server_name_ext :=
    to_be16 (as_u16 (Z.of_nat (sni_len + 5))) ++ to_be16 (as_u16 (Z.of_nat (sni_len + 3))) ++
    [0x00]%Z ++ to_be16 (as_u16 (Z.of_nat sni_len)) ++ target_sni in
  let pad_len := MAX_SNI_LEN - sni_len in
  let padding_ext := resize_vec (to_be16 (as_u16 (Z.of_nat pad_len))) (2 + pad_len) 0%Z in
  let out := static1 ++ random ++ static2 ++ session_id ++ static3 ++ server_name_ext ++
    static4 ++ key_share ++ static5 ++ padding_ext in
  rassert (length out =? CLIENT_HELLO_LEN) (Done out))))).

(** ** The ClientHello it denotes *)

(** The extensions of the template between [server_name] and [key_share]. *)
Fixpoint parse_exts (fuel : nat) (l : list Z) : list (Z * list Z) :=
  match fuel, l with
  | S fuel', t0 :: t1 :: l0 :: l1 :: rest =>
      let n := Z.to_nat (from_be16 l0 l1) in
      (from_be16 t0 t1, take n rest) :: parse_exts fuel' (drop n rest)
  | _, _ => []
  end.

Definition template : list Z := match template_bytes with Done l => l | Panic => [] end.
Definition template_exts : list (Z * list Z) :=
  Eval vm_compute in parse_exts 40 (take 125 (drop 133 template)).

Definition template_hello (random session_id sni key_share : list Z) : ClientHello :=
  MkClientHello [3; 3]%Z random session_id (take 36 (drop 78 template)) [0]%Z [] sni
    (template_exts ++ [(0x33, [0; 0x24; 0; 0x1d; 0; 0x20]%Z ++ key_share);
                       (0x15, replicate (MAX_SNI_LEN - length sni) 0%Z)]%Z).

(** ** Lemmas *)
Lemma template_bytes_done : template_bytes = Done template.
Proof. vm_compute. reflexivity. Qed.

Lemma length_template : length template = CLIENT_HELLO_LEN.
Proof. vm_compute. reflexivity. Qed.

(** The static pieces of the template, as parts of a ClientHello. *)
Lemma static1_eq : take 11 (drop 0 template) =
  [0x16; 3; 1]%Z ++ to_be16 512 ++ [1; 508 / 65536 mod 256; 508 / 256 mod 256; 508 mod 256]%Z ++
  [3; 3]%Z.
Proof. vm_compute. reflexivity. Qed.
Lemma static3_eq : take (120 - 76) (drop 76 template) =
  to_be16 36 ++ take 36 (drop 78 template) ++ [1; 0]%Z ++ to_be16 399 ++ to_be16 0.
Proof. vm_compute. reflexivity. Qed.
Lemma static4_eq : take (262 + 6 - (127 + 6)) (drop (127 + 6) template) =
  ser_exts template_exts ++ to_be16 0x33 ++ to_be16 38 ++ [0; 0x24; 0; 0x1d; 0; 0x20]%Z.
Proof. vm_compute. reflexivity. Qed.
Lemma length_suites : length (take 36 (drop 78 template)) = 36.
Proof. vm_compute. reflexivity. Qed.

Section template.
Context (random sid sni key : list Z).
Context (Hr : length random = 32) (Hs : length sid = 32) (Hk : length key = 32).
Context (Hn : length sni ≤ MAX_SNI_LEN).
Let c := template_hello random sid sni key.

Lemma length_template_exts : length (ch_exts c) = 399.
Proof.
  unfold ch_exts, c, template_hello. cbn [ch_before ch_name ch_after].
  rewrite ser_exts_app. unfold ser_exts at 3. cbn [map concat]. rewrite !length_app, !length_ser_ext.
  cbn [snd]. rewrite length_sni_data, length_app, length_replicate, Hk.
  replace (length (ser_exts template_exts)) with 125 by (vm_compute; reflexivity).
  unfold MAX_SNI_LEN in *. simpl. lia.
Qed.

Lemma length_template_body : length (ch_body c) = 508.
Proof.
  unfold ch_body, ch_upto_exts, ch_upto_comp, ch_upto_suites, ch_head.
  rewrite !length_app, length_template_exts. unfold c, template_hello.
  cbn [ch_version ch_random ch_sid ch_suites ch_comp]. rewrite length_suites.
  simpl length. rewrite Hr, Hs. reflexivity.
Qed.

Lemma template_zlens :
  zlen (ch_exts c) = 399%Z ∧ zlen (ch_body c) = 508%Z ∧ zlen (ch_handshake c) = 512%Z.
Proof.
  unfold zlen, ch_handshake. rewrite length_app, length_template_exts, length_template_body. done.
Qed.

Lemma template_wf : sni ≠ [] → ch_wf c.
Proof.
  intros Hne. destruct template_zlens as (_ & _ & Hz). constructor; try done.
  - unfold zlen, c, template_hello. cbn [ch_sid]. by rewrite Hs.
  - lia.
Qed.

Lemma template_layout :
  ch_record c = take 11 (drop 0 template) ++ random ++ [0x20]%Z ++ sid ++
    take (120 - 76) (drop 76 template) ++ (to_be16 (zlen sni + 5) ++ sni_data sni) ++
    take (262 + 6 - (127 + 6)) (drop (127 + 6) template) ++ key ++
    [0; 0x15]%Z ++ to_be16 (Z.of_nat (MAX_SNI_LEN - length sni)) ++
    replicate (MAX_SNI_LEN - length sni) 0%Z.
Proof.
  destruct template_zlens as (Hx & Hb & Hz).
  unfold ch_record. rewrite Hz. unfold ch_handshake. rewrite Hb.
  unfold ch_body, ch_upto_exts, ch_upto_comp, ch_upto_suites, ch_head. rewrite Hx.
  unfold ch_exts, c, template_hello.
  cbn [ch_version ch_random ch_sid ch_suites ch_comp ch_before ch_name ch_after].
  rewrite ser_exts_app. change (ser_exts []) with (@nil Z).
  change (ser_exts ((0x33%Z, ?x) :: [(0x15%Z, ?y)])) with
    (ser_ext (0x33%Z, x) ++ ser_ext (0x15%Z, y) ++ []).
  rewrite static1_eq, static3_eq, static4_eq.
  unfold ser_ext at 1 2 3. cbn [fst snd].
  assert (zlen sid = 0x20%Z) as -> by (unfold zlen; by rewrite Hs).
  assert (zlen (take 36 (drop 78 template)) = 36%Z) as -> by (unfold zlen; by rewrite length_suites).
  assert (zlen ([0; 36; 0; 29; 0; 32]%Z ++ key) = 38%Z) as ->
    by (unfold zlen; rewrite length_app, Hk; done).
  assert (zlen (sni_data sni) = zlen sni + 5)%Z as ->
    by (unfold zlen; rewrite length_sni_data; lia).
  assert (∀ n, zlen (replicate n 0%Z) = Z.of_nat n) as Hrep
    by (intros; unfold zlen; by rewrite length_replicate).
  rewrite Hrep. change (zlen [0%Z]) with 1%Z. rewrite <- !app_assoc. cbn [app].
  by rewrite app_nil_r.
Qed.
End template.

(** (C6) The fake ClientHello.  For 32-byte random, session id and key share
    and an SNI of at most 219 bytes, [build_client_hello] does not panic: it
    returns exactly 517 bytes, which are the TLS record of a ClientHello with
    these values; when the SNI is not empty that ClientHello is well formed,
    and the SNI locator, used by the DPI-side view of the program, finds the
    requested name in it.  Every other input panics. *)
Theorem build_client_hello_spec random sid sni key :
  let out := ch_record (template_hello random sid sni key) in
  if (length random =? 32) && (length sid =? 32) && (length key =? 32) &&
     (length sni <=? MAX_SNI_LEN)
  then build_client_hello random sid sni key = Done out ∧ length out = CLIENT_HELLO_LEN ∧
       (sni ≠ [] → ch_wf (template_hello random sid sni key) ∧
         ∃ b, find_sni_boundary out = Done (Some b) ∧
              take b.(sb_name_len) (drop b.(sb_name_start) out) = sni)
  else build_client_hello random sid sni key = Panic.
Proof.
  intros out. unfold build_client_hello, rassert.
  destruct (length random =? 32) eqn:Er; [|done].
  destruct (length sid =? 32) eqn:Es; [|done].
  destruct (length key =? 32) eqn:Ek; [|done].
  destruct (length sni <=? MAX_SNI_LEN) eqn:En; [|done]. bool_to_prop. cbn [andb].
  assert (length out = CLIENT_HELLO_LEN) as Hlen.
  { unfold out, ch_record, ch_handshake. rewrite !length_app, length_template_body by done. done. }
  split; [|split; [done|]].
  - rewrite template_bytes_done. cbn [exec_bind].
    rewrite !slice_done by (rewrite ?length_template; unfold CLIENT_HELLO_LEN, TEMPLATE_SNI_LEN; lia).
    cbn [exec_bind]. match goal with |- (if length ?l =? _ then _ else _) = _ => assert (l = out) as -> end;
      [|by rewrite Hlen, Nat.eqb_refl].
    unfold out. rewrite template_layout by done.
    unfold MAX_SNI_LEN, TEMPLATE_SNI_LEN in *.
    rewrite !as_u16_small by (unfold is_u16; lia).
    unfold sni_data, resize_vec. change (length (to_be16 ?z)) with 2.
    replace (Z.of_nat (length sni + 5)) with (zlen sni + 5)%Z by (unfold zlen; lia).
    replace (Z.of_nat (length sni + 3)) with (zlen sni + 3)%Z by (unfold zlen; lia).
    fold (zlen sni).
    assert ((if 2 <? 2 + (219 - length sni)
      then to_be16 (Z.of_nat (219 - length sni)) ++ replicate (2 + (219 - length sni) - 2) 0%Z
      else take (2 + (219 - length sni)) (to_be16 (Z.of_nat (219 - length sni)))) =
      to_be16 (Z.of_nat (219 - length sni)) ++ replicate (219 - length sni) 0%Z) as ->.
    { destruct (2 <? 2 + (219 - length sni)) eqn:E; bool_to_prop.
      - do 2 f_equal. lia.
      - replace (219 - length sni) with 0 by lia. done. }
    by rewrite <- !app_assoc.
  - intros Hne. split; [by apply template_wf|].
    destruct (find_sni_boundary_found (template_hello random sid sni key)
      (template_wf random sid sni key Er Es Ek En Hne) []) as (b & Hb & Ht).
    rewrite app_nil_r in Hb, Ht. eauto.
Qed.

(** The fake ClientHello for the name [a.bc]. *)
Example build_client_hello_sample :
  exec_map (λ l, (length l, find_sni_range l))
    (build_client_hello (replicate 32 1%Z) (replicate 32 2%Z) [97; 46; 98; 99]%Z (replicate 32 3%Z))
  = Done (517, Done (Some (127, 4))).
Proof. vm_compute. reflexivity. Qed.
