(* ===== verification/Config.v ===== *)
(** * Configuration

    Model of [crates/zerodpi-core/src/config.rs]: the parsed value types
    (ranges, packet selectors, split positions, the method list with its combo
    aliases), the [Config] record with the defaults of its fields, and
    [Config::validate].  Integers are [Z] (the TOML deserializer bounds them),
    [f64] is [spec_float].  The TOML and serde machinery is not modelled: a
    [Config] value is what it produces.  The parsers of option values that
    live in other modules ([parse_record_version], [parse_hex_pattern],
    [PaddingPosition::parse]) are here because validation calls them. *)
From stdpp Require Import base list numbers strings.
From Stdlib Require Import ZArith Lia SpecFloat Ascii.
From S2P Require Import Prelude Interceptor Text NetAddr TlsTemplate.
Local Open Scope string_scope.
Local Open Scope nat_scope.

(** ** Results: [anyhow::Result] and [Result<_, String>] *)
Inductive result (A : Type) : Type := Ok (a : A) | Err (msg : string).
Global Arguments Ok {A} _.
Global Arguments Err {A} _.

Definition r_bind {A B} (r : result A) (k : A → result B) : result B :=
  match r with Ok a => k a | Err m => Err m end.
Definition r_map {A B} (f : A → B) (r : result A) : result B :=
  match r with Ok a => Ok (f a) | Err m => Err m end.
Definition bail_if {A} (b : bool) (msg : string) (k : result A) : result A :=
  if b then Err msg else k.
Definition ok_or {A} (o : option A) (msg : string) : result A :=
  match o with Some a => Ok a | None => Err msg end.
Definition is_ok {A} (r : result A) : bool := match r with Ok _ => true | Err _ => false end.

(** ** Ranges *)
Record Int32Range := MkInt32Range { r_min : Z; r_max : Z }.
Definition Int32Range_exact (v : Z) : Int32Range := MkInt32Range v v.

Definition parse_i32 (value : string) : result Z :=
  ok_or (parse_signed i32_min i32_max value) "not a valid Int32 value".

Definition Int32Range_parse (input : string) : result Int32Range :=
  let input := trim input in
  bail_if (String.eqb input "") "range cannot be empty" (
  match split_once "-"%char input with
  | Some (start, stop) =>
      r_bind (parse_i32 (trim start)) (λ mn,
      r_bind (parse_i32 (trim stop)) (λ mx,
      bail_if (mx <? mn)%Z "range has max lower than min" (Ok (MkInt32Range mn mx))))
  | None => r_map Int32Range_exact (parse_i32 input)
  end).

Definition validate_at_least (r : Int32Range) (field : string) (min_value : Z) : result () :=
  bail_if (r.(r_min) <? min_value)%Z (field ++ " is too small") (Ok ()).

(** [Display] *)
Definition Int32Range_show (r : Int32Range) : string :=
  if (r.(r_min) =? r.(r_max))%Z then show_int r.(r_min)
  else show_int r.(r_min) ++ "-" ++ show_int r.(r_max).

(** ** Packet selectors *)
Inductive TlsFragPackets := TlsHello | WriteRange (start stop : Z).

Definition parse_packet_index (value : string) : result Z :=
  r_bind (ok_or (parse_unsigned u32_max (trim value)) "not a valid packet index") (λ parsed,
  bail_if (parsed =? 0)%Z "packet indexes are 1-based and must be >= 1" (Ok parsed)).

Definition TlsFragPackets_parse (input : string) : result TlsFragPackets :=
  let input := trim input in
  if eq_ignore_ascii_case input "tlshello" then Ok TlsHello else
  r_bind
    (match split_once "-"%char input with
     | Some (start, stop) =>
         r_bind (parse_packet_index start) (λ s, r_bind (parse_packet_index stop) (λ e, Ok (s, e)))
     | None => r_map (λ i, (i, i)) (parse_packet_index input)
     end)
    (λ '(start, stop),
       bail_if (stop <? start)%Z "packet range has end lower than start"
         (Ok (WriteRange start stop))).

Definition includes_write (p : TlsFragPackets) (write_index : Z) : bool :=
  match p with
  | TlsHello => false
  | WriteRange start stop => (start <=? write_index)%Z && (write_index <=? stop)%Z
  end.

(** ** Split positions

    [Repr] is the untagged choice of an integer or a text that serde makes;
    the results are those of the [Deserialize] and [Serialize] instances. *)
Inductive Repr := ReprInt (n : Z) | ReprText (s : string).

Inductive SniSplitPosition := SplitMiddle | SplitStart | SplitEnd | SplitIndex (n : Z).

Definition SniSplitPosition_deserialize (r : Repr) : result SniSplitPosition :=
  match r with
  | ReprInt n => Ok (SplitIndex n)
  | ReprText s =>
      let s := to_ascii_lowercase s in
      if String.eqb s "middle" then Ok SplitMiddle
      else if String.eqb s "start" then Ok SplitStart
      else if String.eqb s "end" then Ok SplitEnd
      else Err "not a valid SNI_SPLIT_POSITION"
  end.

Definition SniSplitPosition_serialize (p : SniSplitPosition) : Repr :=
  match p with
  | SplitMiddle => ReprText "middle"
  | SplitStart => ReprText "start"
  | SplitEnd => ReprText "end"
  | SplitIndex n => ReprInt n
  end.

Inductive SniBoundarySplitPoint := ExtensionLength | BoundaryMiddle | BoundaryIndex (n : Z).

Definition SniBoundarySplitPoint_deserialize (r : Repr) : result SniBoundarySplitPoint :=
  match r with
  | ReprInt n => Ok (BoundaryIndex n)
  | ReprText s =>
      let s := to_ascii_lowercase s in
      if String.eqb s "extension_length" then Ok ExtensionLength
      else if String.eqb s "middle" then Ok BoundaryMiddle
      else Err "not a valid SNI split point"
  end.

Definition SniBoundarySplitPoint_serialize (p : SniBoundarySplitPoint) : Repr :=
  match p with
  | ExtensionLength => ReprText "extension_length"
  | BoundaryMiddle => ReprText "middle"
  | BoundaryIndex n => ReprInt n
  end.

(** ** The method list *)
Definition BASE_BYPASS_METHODS : list string :=
  ["wrong_seq"; "wrong_ack"; "wrong_checksum"; "wrong_md5"; "wrong_timestamp"; "low_ttl";
   "tls_record_frag"; "tls_record_split"; "fake_tls"; "ip_frag"; "disorder"; "seqovl";
   "tls_frag"; "ccs_prefix"; "tls_padding"; "mixed_case_sni"; "urg_sni_split";
   "sni_boundary_frag"].
Definition DEFAULT_SEQOVL_SIZE : Z := 32.
Definition MAX_SEQOVL_SIZE : Z := 1024.
Definition EMISSION_SHAPERS : list string := ["ip_frag"; "disorder"; "seqovl"].
Definition MAX_FAKE_TLS_REPEATS : Z := 8.
Definition MAX_FAKE_TLS_CHAIN_DELAY_MS : Z := 100.

Definition expand_method_alias (name : string) : list string :=
  if String.eqb name "wrong_seq_wrong_md5" then ["wrong_seq"; "wrong_md5"]
  else if String.eqb name "wrong_seq_tls_frag" then ["wrong_seq"; "tls_frag"]
  else if String.eqb name "wrong_md5_tls_frag" then ["wrong_md5"; "tls_frag"]
  else if String.eqb name "wrong_seq_tls_record_frag" then ["wrong_seq"; "tls_record_frag"]
  else [name].

Definition str_mem (s : string) (l : list string) : bool := existsb (String.eqb s) l.

Definition BypassMethodList : Type := list string.

Definition from_delimited (input : string) : BypassMethodList :=
  flat_map expand_method_alias
    (List.filter (λ s, negb (String.eqb s "")) (map trim (split_char ","%char input))).

(** [From<&str>], [From<String>] and [From<Vec<String>>], which the
    deserializer also uses. *)
Definition from_name (name : string) : BypassMethodList := expand_method_alias name.
Definition from_names (names : list string) : BypassMethodList :=
  flat_map expand_method_alias names.

Definition list_contains (l : BypassMethodList) (name : string) : bool := str_mem name l.
Definition list_is_empty (l : BypassMethodList) : bool := match l with [] => true | _ => false end.
Definition list_show (l : BypassMethodList) : string := str_join " + " l.

(** The methods that work on the proxy's socket alone. *)
Definition SOCKET_METHODS : list string :=
  ["tls_frag"; "ccs_prefix"; "tls_padding"; "mixed_case_sni"; "sni_boundary_frag";
   "tls_record_split"].

Definition is_socket_only (l : BypassMethodList) : bool :=
  negb (list_is_empty l) && forallb (λ m, str_mem m SOCKET_METHODS) l.
Definition requires_interceptor (l : BypassMethodList) : bool :=
  existsb (λ m, negb (str_mem m SOCKET_METHODS)) l.

(** ** Option values parsed by other modules *)
Inductive SelectionStrategy := Random | RoundRobin | LeastPing | LeastLoad.
#[export] Instance SelectionStrategy_eq_dec : EqDecision SelectionStrategy.
Proof. solve_decision. Defined.

Inductive PaddingPosition := Before | After.
Definition PaddingPosition_parse (input : string) : result PaddingPosition :=
  let s := to_ascii_lowercase (trim input) in
  if String.eqb s "before" then Ok Before
  else if String.eqb s "after" then Ok After
  else Err "not a valid TLS_PADDING_POSITION".

Definition strip_0x (s : string) : string :=
  match strip_prefix "0x" s with
  | Some r => r
  | None => match strip_prefix "0X" s with Some r => r | None => s end
  end.

(** [parse_record_version] of [methods/ccs_prefix.rs]: two hex bytes. *)
Definition parse_record_version (input : string) : result (Z * Z) :=
  let hex := as_bytes (strip_0x (trim input)) in
  match map to_digit16 hex with
  | [Some a; Some b; Some c; Some d] => Ok (a * 16 + b, c * 16 + d)%Z
  | _ => Err "not a valid CCS_PREFIX_RECORD_VERSION"
  end.

(** [hex_digit] and [parse_hex_pattern] of [methods/seqovl.rs]. *)
Definition hex_digit (byte : Z) : result Z := ok_or (to_digit16 byte) "invalid hex digit".

Fixpoint hex_pairs (digits : list Z) : result (list Z) :=
  match digits with
  | a :: b :: rest =>
      r_bind (hex_digit a) (λ hi, r_bind (hex_digit b) (λ lo,
      r_map (cons (Z.lor (as_u8 (Z.shiftl hi 4)) lo)) (hex_pairs rest)))
  | _ => Ok []
  end.

Definition parse_hex_pattern (input : string) : result (list Z) :=
  let digits := List.filter (λ b, negb ((b =? 58) || (b =? 45) || (b =? 95) || (b =? 32))%Z)
                  (as_bytes (strip_0x (trim input))) in
  bail_if (length digits =? 0) "pattern is empty" (
  bail_if (negb (length digits mod 2 =? 0)) "pattern has an odd number of hex digits" (
  hex_pairs digits)).

(** ** Floating point *)
Definition f64 : Type := spec_float.
Definition f64_of_Z (z : Z) : f64 := binary_normalize 53 1024 z 0 false.
Definition f64_half : f64 := binary_normalize 53 1024 1 (-1) false.
Definition f64_zero : f64 := S754_zero false.
Definition is_finite (x : f64) : bool :=
  match x with S754_zero _ | S754_finite _ _ _ => true | S754_infinity _ | S754_nan => false end.

(** ** The configuration record *)
Record Config := MkConfig {
  scan_config_path : string;
  CLOUDFLARE_ONLY : bool;
  LISTEN_HOST : string;
  LISTEN_PORT : Z;
  TCP_NODELAY : bool;
  SNI_LIST : string;
  CUSTOM_DNS_ENABLED : bool;
  CUSTOM_DNS_SERVERS : list string;
  SCAN_TIMEOUT_SECS : Z;
  DEDUPLICATE_SCAN_LISTS : bool;
  AUTO_SELECT : bool;
  LOAD_BALANCE_ENABLED : bool;
  LOAD_BALANCE_TARGET_COUNT : Z;
  LOAD_BALANCE_STRATEGY : SelectionStrategy;
  LOAD_BALANCE_PING_INTERVAL_SECS : Z;
  RESCAN_INTERVAL_SECS : Z;
  SNI_SWITCH_MIN_SCORE : Z;
  SELECTED_SNI : option string;
  BYPASS_METHOD : BypassMethodList;
  NFQUEUE_NUM : Z;
  LINUX_FIREWALL_BACKEND : string;
  WRONG_SEQ_EXTRA_OFFSET : Z;
  WRONG_SEQ_SET_PSH : bool;
  WRONG_SEQ_BUMP_IP_IDENT : bool;
  WRONG_CHECKSUM_DELTA : Z;
  WRONG_CHECKSUM_SET_PSH : bool;
  WRONG_CHECKSUM_BUMP_IP_IDENT : bool;
  WRONG_CHECKSUM_COMPLETE_IMMEDIATELY : bool;
  LOW_TTL_VALUE : Z;
  LOW_TTL_SET_PSH : bool;
  LOW_TTL_BUMP_IP_IDENT : bool;
  LOW_TTL_COMPLETE_IMMEDIATELY : bool;
  LOW_TTL_DISCOVER : bool;
  LOW_TTL_DISCOVER_MAX : Z;
  LOW_TTL_DISCOVER_TIMEOUT_MS : Z;
  WRONG_MD5_SET_PSH : bool;
  WRONG_MD5_BUMP_IP_IDENT : bool;
  WRONG_MD5_COMPLETE_IMMEDIATELY : bool;
  WRONG_ACK_OFFSET : Z;
  WRONG_ACK_SET_PSH : bool;
  WRONG_ACK_BUMP_IP_IDENT : bool;
  WRONG_ACK_COMPLETE_IMMEDIATELY : bool;
  WRONG_TIMESTAMP_OFFSET : Z;
  WRONG_TIMESTAMP_SET_PSH : bool;
  WRONG_TIMESTAMP_BUMP_IP_IDENT : bool;
  WRONG_TIMESTAMP_COMPLETE_IMMEDIATELY : bool;
  TLS_RECORD_FRAG_SIZE : Z;
  TLS_RECORD_FRAG_SET_PSH : bool;
  TLS_RECORD_FRAG_BUMP_IP_IDENT : bool;
  TLS_RECORD_SPLIT_POINT : SniBoundarySplitPoint;
  TLS_RECORD_SPLIT_DELAY_MS : Int32Range;
  FAKE_TLS_EXTRA_OFFSET : Z;
  FAKE_TLS_SET_PSH : bool;
  FAKE_TLS_BUMP_IP_IDENT : bool;
  FAKE_TLS_COMPLETE_IMMEDIATELY : bool;
  FAKE_TLS_FORWARD_REAL : bool;
  FAKE_TLS_REPEATS : Z;
  FAKE_TLS_CHAIN_DELAY_MS : Int32Range;
  IP_FRAG_SIZE : Z;
  IP_FRAG_ONLY_FIRST_PACKET : bool;
  DISORDER_SEGMENTS : Z;
  DISORDER_DELAY_MS : Z;
  DISORDER_REVERSE : bool;
  DISORDER_ONLY_FIRST_PACKET : bool;
  SEQOVL_SIZE : option Z;
  SEQOVL_PATTERN : option string;
  SEQOVL_SEGMENTS : Z;
  SEQOVL_REVERSE : bool;
  SEQOVL_DELAY_MS : Z;
  SNI_SPLIT_DUMMY_BYTE : Z;
  SNI_SPLIT_POSITION : SniSplitPosition;
  SNI_BOUNDARY_FRAG_SPLIT_POINT : SniBoundarySplitPoint;
  SNI_BOUNDARY_FRAG_DELAY_MS : Int32Range;
  TLS_FRAG_PACKETS : string;
  TLS_FRAG_LENGTH : option Int32Range;
  TLS_FRAG_INTERVAL_MS : Int32Range;
  TCP_SEG_SIZE : Z;
  TCP_SEG_NODELAY : bool;
  TLS_PADDING_SIZE : Int32Range;
  TLS_PADDING_POSITION : string;
  MIXED_CASE_SNI_FLIP_ALL : bool;
  CCS_PREFIX_RECORD_VERSION : string;
  BYPASS_TIMEOUT_SECS : Z;
  RELAY_MAX_LIFETIME_SECS : Z;
  MODE : string;
  IP_LIST : string;
  SELECTED_IP : option string;
  IP_SCAN_SNI : string;
  IPV6_MAX_HOSTS : Z;
  SCAN_OUTPUT : option string;
  METHOD_SCAN_METHODS : BypassMethodList;
  METHOD_SCAN_SAMPLES : Z;
  METHOD_SCAN_INTERVAL_MS : Z;
  METHOD_SCAN_TIMEOUT_SECS : Z;
  METHOD_SCAN_OUTPUT : option string;
  SNI_MAX_CONCURRENT : Z;
  IP_MAX_P1_CONCURRENT : Z;
  IP_MAX_P2_CONCURRENT : Z;
  SCAN_DOWNLOAD_CAP : Z;
  SCAN_UPLOAD_CAP : Z;
  SCAN_UPLOAD_PATH : string;
  TCP_LATENCY_CAP_MS : f64;
  TLS_LATENCY_CAP_MS : f64;
  TTFB_CAP_MS : f64;
  SPEED_CAP_BPS : f64;
  UPLOAD_SPEED_CAP_BPS : f64;
  PROXY_TEST_MIN_SNI_SCORE : Z;
  PROXY_TEST_TOP_N : Z;
  PROXY_TEST_SOCKS5_HOST : string;
  PROXY_TEST_SOCKS5_PORT : Z;
  PROXY_TEST_URL : string;
  PROXY_TEST_TIMEOUT_SECS : Z;
  PROXY_TEST_SNI_WEIGHT : f64;
  PROXY_TEST_LATENCY_CAP_MS : f64;
  PROXY_TEST_TTFB_CAP_MS : f64;
  PROXY_TEST_SPEED_CAP_BPS : f64;
}.

Definition default_padding_size : Int32Range :=
  match Int32Range_parse "1500-2500" with Ok r => r | Err _ => MkInt32Range 0 0 end.

(** The value deserialized from a file that sets [LISTEN_HOST] and
    [LISTEN_PORT] only: every other field has its serde default. *)
Definition default_config (host : string) (port : Z) : Config := {|
  scan_config_path := "";
  CLOUDFLARE_ONLY := true;
  LISTEN_HOST := host;
  LISTEN_PORT := port;
  TCP_NODELAY := true;
  SNI_LIST := "sni_list.txt";
  CUSTOM_DNS_ENABLED := false;
  CUSTOM_DNS_SERVERS := [];
  SCAN_TIMEOUT_SECS := 5%Z;
  DEDUPLICATE_SCAN_LISTS := true;
  AUTO_SELECT := false;
  LOAD_BALANCE_ENABLED := false;
  LOAD_BALANCE_TARGET_COUNT := 10%Z;
  LOAD_BALANCE_STRATEGY := RoundRobin;
  LOAD_BALANCE_PING_INTERVAL_SECS := 60%Z;
  RESCAN_INTERVAL_SECS := 0%Z;
  SNI_SWITCH_MIN_SCORE := 1%Z;
  SELECTED_SNI := None;
  BYPASS_METHOD := (from_delimited "wrong_seq, tls_frag");
  NFQUEUE_NUM := 1%Z;
  LINUX_FIREWALL_BACKEND := (firewall_as_str Iptables);
  WRONG_SEQ_EXTRA_OFFSET := 0%Z;
  WRONG_SEQ_SET_PSH := true;
  WRONG_SEQ_BUMP_IP_IDENT := true;
  WRONG_CHECKSUM_DELTA := 1%Z;
  WRONG_CHECKSUM_SET_PSH := true;
  WRONG_CHECKSUM_BUMP_IP_IDENT := true;
  WRONG_CHECKSUM_COMPLETE_IMMEDIATELY := true;
  LOW_TTL_VALUE := 5%Z;
  LOW_TTL_SET_PSH := true;
  LOW_TTL_BUMP_IP_IDENT := true;
  LOW_TTL_COMPLETE_IMMEDIATELY := true;
  LOW_TTL_DISCOVER := true;
  LOW_TTL_DISCOVER_MAX := 32%Z;
  LOW_TTL_DISCOVER_TIMEOUT_MS := 5000%Z;
  WRONG_MD5_SET_PSH := true;
  WRONG_MD5_BUMP_IP_IDENT := true;
  WRONG_MD5_COMPLETE_IMMEDIATELY := true;
  WRONG_ACK_OFFSET := 1%Z;
  WRONG_ACK_SET_PSH := true;
  WRONG_ACK_BUMP_IP_IDENT := true;
  WRONG_ACK_COMPLETE_IMMEDIATELY := true;
  WRONG_TIMESTAMP_OFFSET := 1%Z;
  WRONG_TIMESTAMP_SET_PSH := true;
  WRONG_TIMESTAMP_BUMP_IP_IDENT := true;
  WRONG_TIMESTAMP_COMPLETE_IMMEDIATELY := true;
  TLS_RECORD_FRAG_SIZE := 1%Z;
  TLS_RECORD_FRAG_SET_PSH := true;
  TLS_RECORD_FRAG_BUMP_IP_IDENT := true;
  TLS_RECORD_SPLIT_POINT := ExtensionLength;
  TLS_RECORD_SPLIT_DELAY_MS := (Int32Range_exact 0);
  FAKE_TLS_EXTRA_OFFSET := 0%Z;
  FAKE_TLS_SET_PSH := true;
  FAKE_TLS_BUMP_IP_IDENT := true;
  FAKE_TLS_COMPLETE_IMMEDIATELY := true;
  FAKE_TLS_FORWARD_REAL := true;
  FAKE_TLS_REPEATS := 1%Z;
  FAKE_TLS_CHAIN_DELAY_MS := (Int32Range_exact 0);
  IP_FRAG_SIZE := 24%Z;
  IP_FRAG_ONLY_FIRST_PACKET := true;
  DISORDER_SEGMENTS := 2%Z;
  DISORDER_DELAY_MS := 0%Z;
  DISORDER_REVERSE := true;
  DISORDER_ONLY_FIRST_PACKET := true;
  SEQOVL_SIZE := None;
  SEQOVL_PATTERN := None;
  SEQOVL_SEGMENTS := 2%Z;
  SEQOVL_REVERSE := false;
  SEQOVL_DELAY_MS := 0%Z;
  SNI_SPLIT_DUMMY_BYTE := 0%Z;
  SNI_SPLIT_POSITION := SplitMiddle;
  SNI_BOUNDARY_FRAG_SPLIT_POINT := ExtensionLength;
  SNI_BOUNDARY_FRAG_DELAY_MS := (MkInt32Range 5 10);
  TLS_FRAG_PACKETS := "1-3";
  TLS_FRAG_LENGTH := (Some (MkInt32Range 100 200));
  TLS_FRAG_INTERVAL_MS := (MkInt32Range 10 20);
  TCP_SEG_SIZE := 1%Z;
  TCP_SEG_NODELAY := true;
  TLS_PADDING_SIZE := (default_padding_size);
  TLS_PADDING_POSITION := "before";
  MIXED_CASE_SNI_FLIP_ALL := false;
  CCS_PREFIX_RECORD_VERSION := "0x0303";
  BYPASS_TIMEOUT_SECS := 20%Z;
  RELAY_MAX_LIFETIME_SECS := 0%Z;
  MODE := "sni_spoof";
  IP_LIST := "ip_list.txt";
  SELECTED_IP := None;
  IP_SCAN_SNI := "cloudflare.com";
  IPV6_MAX_HOSTS := 65536%Z;
  SCAN_OUTPUT := None;
  METHOD_SCAN_METHODS := (from_delimited (str_join "," BASE_BYPASS_METHODS));
  METHOD_SCAN_SAMPLES := 3%Z;
  METHOD_SCAN_INTERVAL_MS := 1000%Z;
  METHOD_SCAN_TIMEOUT_SECS := 10%Z;
  METHOD_SCAN_OUTPUT := None;
  SNI_MAX_CONCURRENT := 64%Z;
  IP_MAX_P1_CONCURRENT := 128%Z;
  IP_MAX_P2_CONCURRENT := 32%Z;
  SCAN_DOWNLOAD_CAP := 10240%Z;
  SCAN_UPLOAD_CAP := 10240%Z;
  SCAN_UPLOAD_PATH := "/";
  TCP_LATENCY_CAP_MS := (f64_of_Z 500);
  TLS_LATENCY_CAP_MS := (f64_of_Z 1000);
  TTFB_CAP_MS := (f64_of_Z 2000);
  SPEED_CAP_BPS := (f64_of_Z 2048000);
  UPLOAD_SPEED_CAP_BPS := (f64_of_Z 2048000);
  PROXY_TEST_MIN_SNI_SCORE := 1%Z;
  PROXY_TEST_TOP_N := 0%Z;
  PROXY_TEST_SOCKS5_HOST := "127.0.0.1";
  PROXY_TEST_SOCKS5_PORT := 10808%Z;
  PROXY_TEST_URL := "https://speed.cloudflare.com/__down?bytes=524288";
  PROXY_TEST_TIMEOUT_SECS := 30%Z;
  PROXY_TEST_SNI_WEIGHT := f64_half;
  PROXY_TEST_LATENCY_CAP_MS := (f64_of_Z 500);
  PROXY_TEST_TTFB_CAP_MS := (f64_of_Z 3000);
  PROXY_TEST_SPEED_CAP_BPS := (f64_of_Z 2048000);
|}.

(** [Config { BYPASS_METHOD: l, ..c }] *)
Definition with_methods (l : BypassMethodList) (c : Config) : Config := {|
  scan_config_path := c.(scan_config_path); CLOUDFLARE_ONLY := c.(CLOUDFLARE_ONLY);
  LISTEN_HOST := c.(LISTEN_HOST); LISTEN_PORT := c.(LISTEN_PORT); TCP_NODELAY := c.(TCP_NODELAY);
  SNI_LIST := c.(SNI_LIST); CUSTOM_DNS_ENABLED := c.(CUSTOM_DNS_ENABLED);
  CUSTOM_DNS_SERVERS := c.(CUSTOM_DNS_SERVERS); SCAN_TIMEOUT_SECS := c.(SCAN_TIMEOUT_SECS);
  DEDUPLICATE_SCAN_LISTS := c.(DEDUPLICATE_SCAN_LISTS); AUTO_SELECT := c.(AUTO_SELECT);
  LOAD_BALANCE_ENABLED := c.(LOAD_BALANCE_ENABLED);
  LOAD_BALANCE_TARGET_COUNT := c.(LOAD_BALANCE_TARGET_COUNT);
  LOAD_BALANCE_STRATEGY := c.(LOAD_BALANCE_STRATEGY);
  LOAD_BALANCE_PING_INTERVAL_SECS := c.(LOAD_BALANCE_PING_INTERVAL_SECS);
  RESCAN_INTERVAL_SECS := c.(RESCAN_INTERVAL_SECS);
  SNI_SWITCH_MIN_SCORE := c.(SNI_SWITCH_MIN_SCORE); SELECTED_SNI := c.(SELECTED_SNI);
  BYPASS_METHOD := l; NFQUEUE_NUM := c.(NFQUEUE_NUM);
  LINUX_FIREWALL_BACKEND := c.(LINUX_FIREWALL_BACKEND);
  WRONG_SEQ_EXTRA_OFFSET := c.(WRONG_SEQ_EXTRA_OFFSET);
  WRONG_SEQ_SET_PSH := c.(WRONG_SEQ_SET_PSH);
  WRONG_SEQ_BUMP_IP_IDENT := c.(WRONG_SEQ_BUMP_IP_IDENT);
  WRONG_CHECKSUM_DELTA := c.(WRONG_CHECKSUM_DELTA);
  WRONG_CHECKSUM_SET_PSH := c.(WRONG_CHECKSUM_SET_PSH);
  WRONG_CHECKSUM_BUMP_IP_IDENT := c.(WRONG_CHECKSUM_BUMP_IP_IDENT);
  WRONG_CHECKSUM_COMPLETE_IMMEDIATELY := c.(WRONG_CHECKSUM_COMPLETE_IMMEDIATELY);
  LOW_TTL_VALUE := c.(LOW_TTL_VALUE); LOW_TTL_SET_PSH := c.(LOW_TTL_SET_PSH);
  LOW_TTL_BUMP_IP_IDENT := c.(LOW_TTL_BUMP_IP_IDENT);
  LOW_TTL_COMPLETE_IMMEDIATELY := c.(LOW_TTL_COMPLETE_IMMEDIATELY);
  LOW_TTL_DISCOVER := c.(LOW_TTL_DISCOVER); LOW_TTL_DISCOVER_MAX := c.(LOW_TTL_DISCOVER_MAX);
  LOW_TTL_DISCOVER_TIMEOUT_MS := c.(LOW_TTL_DISCOVER_TIMEOUT_MS);
  WRONG_MD5_SET_PSH := c.(WRONG_MD5_SET_PSH);
  WRONG_MD5_BUMP_IP_IDENT := c.(WRONG_MD5_BUMP_IP_IDENT);
  WRONG_MD5_COMPLETE_IMMEDIATELY := c.(WRONG_MD5_COMPLETE_IMMEDIATELY);
  WRONG_ACK_OFFSET := c.(WRONG_ACK_OFFSET); WRONG_ACK_SET_PSH := c.(WRONG_ACK_SET_PSH);
  WRONG_ACK_BUMP_IP_IDENT := c.(WRONG_ACK_BUMP_IP_IDENT);
  WRONG_ACK_COMPLETE_IMMEDIATELY := c.(WRONG_ACK_COMPLETE_IMMEDIATELY);
  WRONG_TIMESTAMP_OFFSET := c.(WRONG_TIMESTAMP_OFFSET);
  WRONG_TIMESTAMP_SET_PSH := c.(WRONG_TIMESTAMP_SET_PSH);
  WRONG_TIMESTAMP_BUMP_IP_IDENT := c.(WRONG_TIMESTAMP_BUMP_IP_IDENT);
  WRONG_TIMESTAMP_COMPLETE_IMMEDIATELY := c.(WRONG_TIMESTAMP_COMPLETE_IMMEDIATELY);
  TLS_RECORD_FRAG_SIZE := c.(TLS_RECORD_FRAG_SIZE);
  TLS_RECORD_FRAG_SET_PSH := c.(TLS_RECORD_FRAG_SET_PSH);
  TLS_RECORD_FRAG_BUMP_IP_IDENT := c.(TLS_RECORD_FRAG_BUMP_IP_IDENT);
  TLS_RECORD_SPLIT_POINT := c.(TLS_RECORD_SPLIT_POINT);
  TLS_RECORD_SPLIT_DELAY_MS := c.(TLS_RECORD_SPLIT_DELAY_MS);
  FAKE_TLS_EXTRA_OFFSET := c.(FAKE_TLS_EXTRA_OFFSET); FAKE_TLS_SET_PSH := c.(FAKE_TLS_SET_PSH);
  FAKE_TLS_BUMP_IP_IDENT := c.(FAKE_TLS_BUMP_IP_IDENT);
  FAKE_TLS_COMPLETE_IMMEDIATELY := c.(FAKE_TLS_COMPLETE_IMMEDIATELY);
  FAKE_TLS_FORWARD_REAL := c.(FAKE_TLS_FORWARD_REAL); FAKE_TLS_REPEATS := c.(FAKE_TLS_REPEATS);
  FAKE_TLS_CHAIN_DELAY_MS := c.(FAKE_TLS_CHAIN_DELAY_MS); IP_FRAG_SIZE := c.(IP_FRAG_SIZE);
  IP_FRAG_ONLY_FIRST_PACKET := c.(IP_FRAG_ONLY_FIRST_PACKET);
  DISORDER_SEGMENTS := c.(DISORDER_SEGMENTS); DISORDER_DELAY_MS := c.(DISORDER_DELAY_MS);
  DISORDER_REVERSE := c.(DISORDER_REVERSE);
  DISORDER_ONLY_FIRST_PACKET := c.(DISORDER_ONLY_FIRST_PACKET); SEQOVL_SIZE := c.(SEQOVL_SIZE);
  SEQOVL_PATTERN := c.(SEQOVL_PATTERN); SEQOVL_SEGMENTS := c.(SEQOVL_SEGMENTS);
  SEQOVL_REVERSE := c.(SEQOVL_REVERSE); SEQOVL_DELAY_MS := c.(SEQOVL_DELAY_MS);
  SNI_SPLIT_DUMMY_BYTE := c.(SNI_SPLIT_DUMMY_BYTE); SNI_SPLIT_POSITION := c.(SNI_SPLIT_POSITION);
  SNI_BOUNDARY_FRAG_SPLIT_POINT := c.(SNI_BOUNDARY_FRAG_SPLIT_POINT);
  SNI_BOUNDARY_FRAG_DELAY_MS := c.(SNI_BOUNDARY_FRAG_DELAY_MS);
  TLS_FRAG_PACKETS := c.(TLS_FRAG_PACKETS); TLS_FRAG_LENGTH := c.(TLS_FRAG_LENGTH);
  TLS_FRAG_INTERVAL_MS := c.(TLS_FRAG_INTERVAL_MS); TCP_SEG_SIZE := c.(TCP_SEG_SIZE);
  TCP_SEG_NODELAY := c.(TCP_SEG_NODELAY); TLS_PADDING_SIZE := c.(TLS_PADDING_SIZE);
  TLS_PADDING_POSITION := c.(TLS_PADDING_POSITION);
  MIXED_CASE_SNI_FLIP_ALL := c.(MIXED_CASE_SNI_FLIP_ALL);
  CCS_PREFIX_RECORD_VERSION := c.(CCS_PREFIX_RECORD_VERSION);
  BYPASS_TIMEOUT_SECS := c.(BYPASS_TIMEOUT_SECS);
  RELAY_MAX_LIFETIME_SECS := c.(RELAY_MAX_LIFETIME_SECS); MODE := c.(MODE);
  IP_LIST := c.(IP_LIST); SELECTED_IP := c.(SELECTED_IP); IP_SCAN_SNI := c.(IP_SCAN_SNI);
  IPV6_MAX_HOSTS := c.(IPV6_MAX_HOSTS); SCAN_OUTPUT := c.(SCAN_OUTPUT);
  METHOD_SCAN_METHODS := c.(METHOD_SCAN_METHODS); METHOD_SCAN_SAMPLES := c.(METHOD_SCAN_SAMPLES);
  METHOD_SCAN_INTERVAL_MS := c.(METHOD_SCAN_INTERVAL_MS);
  METHOD_SCAN_TIMEOUT_SECS := c.(METHOD_SCAN_TIMEOUT_SECS);
  METHOD_SCAN_OUTPUT := c.(METHOD_SCAN_OUTPUT); SNI_MAX_CONCURRENT := c.(SNI_MAX_CONCURRENT);
  IP_MAX_P1_CONCURRENT := c.(IP_MAX_P1_CONCURRENT);
  IP_MAX_P2_CONCURRENT := c.(IP_MAX_P2_CONCURRENT); SCAN_DOWNLOAD_CAP := c.(SCAN_DOWNLOAD_CAP);
  SCAN_UPLOAD_CAP := c.(SCAN_UPLOAD_CAP); SCAN_UPLOAD_PATH := c.(SCAN_UPLOAD_PATH);
  TCP_LATENCY_CAP_MS := c.(TCP_LATENCY_CAP_MS); TLS_LATENCY_CAP_MS := c.(TLS_LATENCY_CAP_MS);
  TTFB_CAP_MS := c.(TTFB_CAP_MS); SPEED_CAP_BPS := c.(SPEED_CAP_BPS);
  UPLOAD_SPEED_CAP_BPS := c.(UPLOAD_SPEED_CAP_BPS);
  PROXY_TEST_MIN_SNI_SCORE := c.(PROXY_TEST_MIN_SNI_SCORE);
  PROXY_TEST_TOP_N := c.(PROXY_TEST_TOP_N); PROXY_TEST_SOCKS5_HOST := c.(PROXY_TEST_SOCKS5_HOST);
  PROXY_TEST_SOCKS5_PORT := c.(PROXY_TEST_SOCKS5_PORT); PROXY_TEST_URL := c.(PROXY_TEST_URL);
  PROXY_TEST_TIMEOUT_SECS := c.(PROXY_TEST_TIMEOUT_SECS);
  PROXY_TEST_SNI_WEIGHT := c.(PROXY_TEST_SNI_WEIGHT);
  PROXY_TEST_LATENCY_CAP_MS := c.(PROXY_TEST_LATENCY_CAP_MS);
  PROXY_TEST_TTFB_CAP_MS := c.(PROXY_TEST_TTFB_CAP_MS);
  PROXY_TEST_SPEED_CAP_BPS := c.(PROXY_TEST_SPEED_CAP_BPS)
|}.

(** [Config { FAKE_TLS_COMPLETE_IMMEDIATELY: b, ..c }] *)
Definition with_fake_tls_wait (b : bool) (c : Config) : Config := {|
  scan_config_path := c.(scan_config_path); CLOUDFLARE_ONLY := c.(CLOUDFLARE_ONLY);
  LISTEN_HOST := c.(LISTEN_HOST); LISTEN_PORT := c.(LISTEN_PORT); TCP_NODELAY := c.(TCP_NODELAY);
  SNI_LIST := c.(SNI_LIST); CUSTOM_DNS_ENABLED := c.(CUSTOM_DNS_ENABLED);
  CUSTOM_DNS_SERVERS := c.(CUSTOM_DNS_SERVERS); SCAN_TIMEOUT_SECS := c.(SCAN_TIMEOUT_SECS);
  DEDUPLICATE_SCAN_LISTS := c.(DEDUPLICATE_SCAN_LISTS); AUTO_SELECT := c.(AUTO_SELECT);
  LOAD_BALANCE_ENABLED := c.(LOAD_BALANCE_ENABLED);
  LOAD_BALANCE_TARGET_COUNT := c.(LOAD_BALANCE_TARGET_COUNT);
  LOAD_BALANCE_STRATEGY := c.(LOAD_BALANCE_STRATEGY);
  LOAD_BALANCE_PING_INTERVAL_SECS := c.(LOAD_BALANCE_PING_INTERVAL_SECS);
  RESCAN_INTERVAL_SECS := c.(RESCAN_INTERVAL_SECS);
  SNI_SWITCH_MIN_SCORE := c.(SNI_SWITCH_MIN_SCORE); SELECTED_SNI := c.(SELECTED_SNI);
  BYPASS_METHOD := c.(BYPASS_METHOD); NFQUEUE_NUM := c.(NFQUEUE_NUM);
  LINUX_FIREWALL_BACKEND := c.(LINUX_FIREWALL_BACKEND);
  WRONG_SEQ_EXTRA_OFFSET := c.(WRONG_SEQ_EXTRA_OFFSET);
  WRONG_SEQ_SET_PSH := c.(WRONG_SEQ_SET_PSH);
  WRONG_SEQ_BUMP_IP_IDENT := c.(WRONG_SEQ_BUMP_IP_IDENT);
  WRONG_CHECKSUM_DELTA := c.(WRONG_CHECKSUM_DELTA);
  WRONG_CHECKSUM_SET_PSH := c.(WRONG_CHECKSUM_SET_PSH);
  WRONG_CHECKSUM_BUMP_IP_IDENT := c.(WRONG_CHECKSUM_BUMP_IP_IDENT);
  WRONG_CHECKSUM_COMPLETE_IMMEDIATELY := c.(WRONG_CHECKSUM_COMPLETE_IMMEDIATELY);
  LOW_TTL_VALUE := c.(LOW_TTL_VALUE); LOW_TTL_SET_PSH := c.(LOW_TTL_SET_PSH);
  LOW_TTL_BUMP_IP_IDENT := c.(LOW_TTL_BUMP_IP_IDENT);
  LOW_TTL_COMPLETE_IMMEDIATELY := c.(LOW_TTL_COMPLETE_IMMEDIATELY);
  LOW_TTL_DISCOVER := c.(LOW_TTL_DISCOVER); LOW_TTL_DISCOVER_MAX := c.(LOW_TTL_DISCOVER_MAX);
  LOW_TTL_DISCOVER_TIMEOUT_MS := c.(LOW_TTL_DISCOVER_TIMEOUT_MS);
  WRONG_MD5_SET_PSH := c.(WRONG_MD5_SET_PSH);
  WRONG_MD5_BUMP_IP_IDENT := c.(WRONG_MD5_BUMP_IP_IDENT);
  WRONG_MD5_COMPLETE_IMMEDIATELY := c.(WRONG_MD5_COMPLETE_IMMEDIATELY);
  WRONG_ACK_OFFSET := c.(WRONG_ACK_OFFSET); WRONG_ACK_SET_PSH := c.(WRONG_ACK_SET_PSH);
  WRONG_ACK_BUMP_IP_IDENT := c.(WRONG_ACK_BUMP_IP_IDENT);
  WRONG_ACK_COMPLETE_IMMEDIATELY := c.(WRONG_ACK_COMPLETE_IMMEDIATELY);
  WRONG_TIMESTAMP_OFFSET := c.(WRONG_TIMESTAMP_OFFSET);
  WRONG_TIMESTAMP_SET_PSH := c.(WRONG_TIMESTAMP_SET_PSH);
  WRONG_TIMESTAMP_BUMP_IP_IDENT := c.(WRONG_TIMESTAMP_BUMP_IP_IDENT);
  WRONG_TIMESTAMP_COMPLETE_IMMEDIATELY := c.(WRONG_TIMESTAMP_COMPLETE_IMMEDIATELY);
  TLS_RECORD_FRAG_SIZE := c.(TLS_RECORD_FRAG_SIZE);
  TLS_RECORD_FRAG_SET_PSH := c.(TLS_RECORD_FRAG_SET_PSH);
  TLS_RECORD_FRAG_BUMP_IP_IDENT := c.(TLS_RECORD_FRAG_BUMP_IP_IDENT);
  TLS_RECORD_SPLIT_POINT := c.(TLS_RECORD_SPLIT_POINT);
  TLS_RECORD_SPLIT_DELAY_MS := c.(TLS_RECORD_SPLIT_DELAY_MS);
  FAKE_TLS_EXTRA_OFFSET := c.(FAKE_TLS_EXTRA_OFFSET); FAKE_TLS_SET_PSH := c.(FAKE_TLS_SET_PSH);
  FAKE_TLS_BUMP_IP_IDENT := c.(FAKE_TLS_BUMP_IP_IDENT);
  FAKE_TLS_COMPLETE_IMMEDIATELY := b;
  FAKE_TLS_FORWARD_REAL := c.(FAKE_TLS_FORWARD_REAL); FAKE_TLS_REPEATS := c.(FAKE_TLS_REPEATS);
  FAKE_TLS_CHAIN_DELAY_MS := c.(FAKE_TLS_CHAIN_DELAY_MS); IP_FRAG_SIZE := c.(IP_FRAG_SIZE);
  IP_FRAG_ONLY_FIRST_PACKET := c.(IP_FRAG_ONLY_FIRST_PACKET);
  DISORDER_SEGMENTS := c.(DISORDER_SEGMENTS); DISORDER_DELAY_MS := c.(DISORDER_DELAY_MS);
  DISORDER_REVERSE := c.(DISORDER_REVERSE);
  DISORDER_ONLY_FIRST_PACKET := c.(DISORDER_ONLY_FIRST_PACKET); SEQOVL_SIZE := c.(SEQOVL_SIZE);
  SEQOVL_PATTERN := c.(SEQOVL_PATTERN); SEQOVL_SEGMENTS := c.(SEQOVL_SEGMENTS);
  SEQOVL_REVERSE := c.(SEQOVL_REVERSE); SEQOVL_DELAY_MS := c.(SEQOVL_DELAY_MS);
  SNI_SPLIT_DUMMY_BYTE := c.(SNI_SPLIT_DUMMY_BYTE); SNI_SPLIT_POSITION := c.(SNI_SPLIT_POSITION);
  SNI_BOUNDARY_FRAG_SPLIT_POINT := c.(SNI_BOUNDARY_FRAG_SPLIT_POINT);
  SNI_BOUNDARY_FRAG_DELAY_MS := c.(SNI_BOUNDARY_FRAG_DELAY_MS);
  TLS_FRAG_PACKETS := c.(TLS_FRAG_PACKETS); TLS_FRAG_LENGTH := c.(TLS_FRAG_LENGTH);
  TLS_FRAG_INTERVAL_MS := c.(TLS_FRAG_INTERVAL_MS); TCP_SEG_SIZE := c.(TCP_SEG_SIZE);
  TCP_SEG_NODELAY := c.(TCP_SEG_NODELAY); TLS_PADDING_SIZE := c.(TLS_PADDING_SIZE);
  TLS_PADDING_POSITION := c.(TLS_PADDING_POSITION);
  MIXED_CASE_SNI_FLIP_ALL := c.(MIXED_CASE_SNI_FLIP_ALL);
  CCS_PREFIX_RECORD_VERSION := c.(CCS_PREFIX_RECORD_VERSION);
  BYPASS_TIMEOUT_SECS := c.(BYPASS_TIMEOUT_SECS);
  RELAY_MAX_LIFETIME_SECS := c.(RELAY_MAX_LIFETIME_SECS); MODE := c.(MODE);
  IP_LIST := c.(IP_LIST); SELECTED_IP := c.(SELECTED_IP); IP_SCAN_SNI := c.(IP_SCAN_SNI);
  IPV6_MAX_HOSTS := c.(IPV6_MAX_HOSTS); SCAN_OUTPUT := c.(SCAN_OUTPUT);
  METHOD_SCAN_METHODS := c.(METHOD_SCAN_METHODS); METHOD_SCAN_SAMPLES := c.(METHOD_SCAN_SAMPLES);
  METHOD_SCAN_INTERVAL_MS := c.(METHOD_SCAN_INTERVAL_MS);
  METHOD_SCAN_TIMEOUT_SECS := c.(METHOD_SCAN_TIMEOUT_SECS);
  METHOD_SCAN_OUTPUT := c.(METHOD_SCAN_OUTPUT); SNI_MAX_CONCURRENT := c.(SNI_MAX_CONCURRENT);
  IP_MAX_P1_CONCURRENT := c.(IP_MAX_P1_CONCURRENT);
  IP_MAX_P2_CONCURRENT := c.(IP_MAX_P2_CONCURRENT); SCAN_DOWNLOAD_CAP := c.(SCAN_DOWNLOAD_CAP);
  SCAN_UPLOAD_CAP := c.(SCAN_UPLOAD_CAP); SCAN_UPLOAD_PATH := c.(SCAN_UPLOAD_PATH);
  TCP_LATENCY_CAP_MS := c.(TCP_LATENCY_CAP_MS); TLS_LATENCY_CAP_MS := c.(TLS_LATENCY_CAP_MS);
  TTFB_CAP_MS := c.(TTFB_CAP_MS); SPEED_CAP_BPS := c.(SPEED_CAP_BPS);
  UPLOAD_SPEED_CAP_BPS := c.(UPLOAD_SPEED_CAP_BPS);
  PROXY_TEST_MIN_SNI_SCORE := c.(PROXY_TEST_MIN_SNI_SCORE);
  PROXY_TEST_TOP_N := c.(PROXY_TEST_TOP_N); PROXY_TEST_SOCKS5_HOST := c.(PROXY_TEST_SOCKS5_HOST);
  PROXY_TEST_SOCKS5_PORT := c.(PROXY_TEST_SOCKS5_PORT); PROXY_TEST_URL := c.(PROXY_TEST_URL);
  PROXY_TEST_TIMEOUT_SECS := c.(PROXY_TEST_TIMEOUT_SECS);
  PROXY_TEST_SNI_WEIGHT := c.(PROXY_TEST_SNI_WEIGHT);
  PROXY_TEST_LATENCY_CAP_MS := c.(PROXY_TEST_LATENCY_CAP_MS);
  PROXY_TEST_TTFB_CAP_MS := c.(PROXY_TEST_TTFB_CAP_MS);
  PROXY_TEST_SPEED_CAP_BPS := c.(PROXY_TEST_SPEED_CAP_BPS)
|}.

(** ** Validation

    [Config::validate], in the source's order, a failed check returning its
    error.  [max_permits] is tokio's [Semaphore::MAX_PERMITS]. *)
Section validate.
Context (max_permits : Z).
Implicit Types cfg : Config.

Fixpoint r_all {A} (f : A → result ()) (l : list A) : result () :=
  match l with [] => Ok () | x :: l' => r_bind (f x) (λ _, r_all f l') end.
Fixpoint r_mapM {A B} (f : A → result B) (l : list A) : result (list B) :=
  match l with
  | [] => Ok []
  | x :: l' => r_bind (f x) (λ y, r_map (cons y) (r_mapM f l'))
  end.

Definition custom_dns_servers cfg : result (list SocketAddr) :=
  if negb cfg.(CUSTOM_DNS_ENABLED) then Ok [] else
  bail_if (list_is_empty cfg.(CUSTOM_DNS_SERVERS)) "CUSTOM_DNS_SERVERS must not be empty" (
  r_mapM (λ s, ok_or (parse_custom_dns_server s) "CUSTOM_DNS_SERVERS") cfg.(CUSTOM_DNS_SERVERS)).

Definition check_concurrency (fv : string * Z) : result () :=
  bail_if ((fv.2 =? 0)%Z || (max_permits <? fv.2)%Z) (fv.1 ++ " is out of range") (Ok ()).

Definition check_positive_float (fv : string * f64) : result () :=
  bail_if (negb (is_finite fv.2) || SFleb fv.2 f64_zero) (fv.1 ++ " must be a finite value > 0")
    (Ok ()).

(** Every entry a base method, none twice ([seen] holds the earlier ones). *)
Fixpoint check_method_names (field : string) (seen l : list string) : result () :=
  match l with
  | [] => Ok ()
  | m :: l' =>
      bail_if (negb (str_mem m BASE_BYPASS_METHODS)) ("Unknown " ++ field) (
      bail_if (str_mem m seen) ("Duplicate " ++ field) (
      check_method_names field (m :: seen) l'))
  end.

Definition validate_scan cfg : result () :=
  bail_if (cfg.(LOAD_BALANCE_TARGET_COUNT) =? 0)%Z "LOAD_BALANCE_TARGET_COUNT must be > 0" (
  bail_if (cfg.(LOAD_BALANCE_PING_INTERVAL_SECS) =? 0)%Z
    "LOAD_BALANCE_PING_INTERVAL_SECS must be > 0" (
  r_bind (r_all check_concurrency
    [("SNI_MAX_CONCURRENT", cfg.(SNI_MAX_CONCURRENT));
     ("IP_MAX_P1_CONCURRENT", cfg.(IP_MAX_P1_CONCURRENT));
     ("IP_MAX_P2_CONCURRENT", cfg.(IP_MAX_P2_CONCURRENT))]) (λ _,
  r_bind (r_all check_positive_float
    [("TCP_LATENCY_CAP_MS", cfg.(TCP_LATENCY_CAP_MS));
     ("TLS_LATENCY_CAP_MS", cfg.(TLS_LATENCY_CAP_MS));
     ("TTFB_CAP_MS", cfg.(TTFB_CAP_MS));
     ("PROXY_TEST_LATENCY_CAP_MS", cfg.(PROXY_TEST_LATENCY_CAP_MS));
     ("PROXY_TEST_TTFB_CAP_MS", cfg.(PROXY_TEST_TTFB_CAP_MS))]) (λ _,
  r_bind (custom_dns_servers cfg) (λ _,
  bail_if (cfg.(SCAN_TIMEOUT_SECS) =? 0)%Z "SCAN_TIMEOUT_SECS must be > 0" (
  bail_if (cfg.(METHOD_SCAN_SAMPLES) =? 0)%Z "METHOD_SCAN_SAMPLES must be >= 1" (
  bail_if (cfg.(METHOD_SCAN_TIMEOUT_SECS) =? 0)%Z "METHOD_SCAN_TIMEOUT_SECS must be > 0" (
  bail_if (list_is_empty cfg.(METHOD_SCAN_METHODS)) "METHOD_SCAN_METHODS must not be empty" (
  r_bind (check_method_names "METHOD_SCAN_METHODS" [] cfg.(METHOD_SCAN_METHODS)) (λ _,
  bail_if (cfg.(BYPASS_TIMEOUT_SECS) =? 0)%Z "BYPASS_TIMEOUT_SECS must be > 0" (
  bail_if (100 <? cfg.(SNI_SWITCH_MIN_SCORE))%Z "SNI_SWITCH_MIN_SCORE must be <= 100" (
  bail_if (cfg.(SCAN_DOWNLOAD_CAP) =? 0)%Z "SCAN_DOWNLOAD_CAP must be > 0" (
  bail_if (cfg.(SCAN_UPLOAD_CAP) =? 0)%Z "SCAN_UPLOAD_CAP must be > 0" (
  bail_if (String.eqb cfg.(SCAN_UPLOAD_PATH) "" ||
           negb (bool_decide (is_Some (strip_prefix "/" cfg.(SCAN_UPLOAD_PATH)))) ||
           contains_char "013"%char cfg.(SCAN_UPLOAD_PATH) ||
           contains_char "010"%char cfg.(SCAN_UPLOAD_PATH)) "SCAN_UPLOAD_PATH" (
  r_bind (check_positive_float ("SPEED_CAP_BPS", cfg.(SPEED_CAP_BPS))) (λ _,
  r_bind (check_positive_float ("UPLOAD_SPEED_CAP_BPS", cfg.(UPLOAD_SPEED_CAP_BPS))) (λ _,
  bail_if (match cfg.(SELECTED_SNI) with
           | Some sni => MAX_SNI_LEN <? str_len sni | None => false end)
    "SELECTED_SNI is too long" (Ok ())))))))))))))))))).

(** The [sni_boundary_frag] companions. *)
Definition BOUNDARY_COMPANIONS : list string :=
  ["tls_frag"; "tls_padding"; "mixed_case_sni"; "wrong_seq"; "wrong_ack"; "wrong_checksum";
   "wrong_md5"; "wrong_timestamp"; "low_ttl"; "fake_tls"; "ip_frag"; "ccs_prefix"].

Definition validate_bypass_method cfg : result () :=
  let l := cfg.(BYPASS_METHOD) in
  bail_if (list_is_empty l) "BYPASS_METHOD must not be empty" (
  r_bind (check_method_names "BYPASS_METHOD" [] l) (λ _,
  bail_if (list_contains l "tls_record_split" && list_contains l "sni_boundary_frag")
    "tls_record_split cannot be combined with sni_boundary_frag" (
  bail_if (list_contains l "urg_sni_split" && (1 <? length l) &&
           negb (forallb (λ m, String.eqb m "urg_sni_split" || String.eqb m "tls_frag") l))
    "urg_sni_split can only be combined with tls_frag" (
  bail_if (list_contains l "sni_boundary_frag" && (1 <? length l) &&
           negb (forallb (λ m, String.eqb m "sni_boundary_frag" || str_mem m BOUNDARY_COMPANIONS) l))
    "sni_boundary_frag cannot be combined" (
  let shapers := List.filter (list_contains l) EMISSION_SHAPERS in
  bail_if (1 <? length shapers) "at most one of ip_frag, disorder, seqovl" (
  bail_if (list_contains l "urg_sni_split" &&
           (list_contains l "tls_record_frag" || negb (length shapers =? 0)))
    "urg_sni_split cannot be chained" (
  let chained := list_contains l "fake_tls" &&
                 (list_contains l "tls_record_frag" || negb (length shapers =? 0)) in
  bail_if (chained && negb cfg.(FAKE_TLS_FORWARD_REAL))
    "chained fake_tls requires FAKE_TLS_FORWARD_REAL" (Ok ())))))))).

Definition validate_injection cfg : result () :=
  bail_if ((cfg.(FAKE_TLS_REPEATS) =? 0)%Z || (MAX_FAKE_TLS_REPEATS <? cfg.(FAKE_TLS_REPEATS))%Z)
    "FAKE_TLS_REPEATS is out of range" (
  r_bind (validate_at_least cfg.(FAKE_TLS_CHAIN_DELAY_MS) "FAKE_TLS_CHAIN_DELAY_MS" 0) (λ _,
  bail_if (MAX_FAKE_TLS_CHAIN_DELAY_MS <? cfg.(FAKE_TLS_CHAIN_DELAY_MS).(r_max))%Z
    "FAKE_TLS_CHAIN_DELAY_MS is too large" (
  bail_if (cfg.(WRONG_CHECKSUM_DELTA) =? 0)%Z "WRONG_CHECKSUM_DELTA must be >= 1" (
  bail_if (cfg.(WRONG_ACK_OFFSET) =? 0)%Z "WRONG_ACK_OFFSET must be >= 1" (
  bail_if (cfg.(WRONG_TIMESTAMP_OFFSET) =? 0)%Z "WRONG_TIMESTAMP_OFFSET must be >= 1" (
  bail_if (cfg.(LOW_TTL_VALUE) =? 0)%Z "LOW_TTL_VALUE must be >= 1" (
  bail_if (64 <? cfg.(LOW_TTL_VALUE))%Z "LOW_TTL_VALUE must be <= 64" (
  bail_if (cfg.(LOW_TTL_DISCOVER_MAX) =? 0)%Z "LOW_TTL_DISCOVER_MAX must be >= 1" (
  bail_if (64 <? cfg.(LOW_TTL_DISCOVER_MAX))%Z "LOW_TTL_DISCOVER_MAX must be <= 64" (
  bail_if (cfg.(LOW_TTL_DISCOVER_TIMEOUT_MS) <? 100)%Z
    "LOW_TTL_DISCOVER_TIMEOUT_MS must be >= 100" (Ok ()))))))))))).

(** The checks on a fixed [SEQOVL_PATTERN]. *)
Definition validate_pattern cfg : result () :=
  match cfg.(SEQOVL_PATTERN) with
  | None => Ok ()
  | Some pattern =>
      r_bind (parse_hex_pattern pattern) (λ bytes,
      bail_if (MAX_SEQOVL_SIZE <? Z.of_nat (length bytes))%Z "SEQOVL_PATTERN is too long" (
      bail_if (match cfg.(SEQOVL_SIZE) with
               | Some size => negb (size =? Z.of_nat (length bytes))%Z | None => false end)
        "SEQOVL_PATTERN and SEQOVL_SIZE must match" (Ok ())))
  end.

Definition tls_frag_packets cfg : result TlsFragPackets :=
  TlsFragPackets_parse cfg.(TLS_FRAG_PACKETS).

Definition tls_frag_length_range cfg : result Int32Range :=
  match cfg.(TLS_FRAG_LENGTH) with
  | Some range => Ok range
  | None =>
      bail_if (i32_max <? cfg.(TCP_SEG_SIZE))%Z "TCP_SEG_SIZE must be <= i32::MAX"
        (Ok (Int32Range_exact cfg.(TCP_SEG_SIZE)))
  end.

Definition validate_shaping cfg : result () :=
  bail_if (cfg.(TLS_RECORD_FRAG_SIZE) =? 0)%Z "TLS_RECORD_FRAG_SIZE must be >= 1" (
  bail_if (cfg.(IP_FRAG_SIZE) <? 8)%Z "IP_FRAG_SIZE must be >= 8" (
  bail_if (negb (cfg.(IP_FRAG_SIZE) mod 8 =? 0)%Z) "IP_FRAG_SIZE must be a multiple of 8" (
  bail_if ((cfg.(DISORDER_SEGMENTS) <? 2)%Z || (3 <? cfg.(DISORDER_SEGMENTS))%Z)
    "DISORDER_SEGMENTS must be 2 or 3" (
  bail_if (1000 <? cfg.(DISORDER_DELAY_MS))%Z "DISORDER_DELAY_MS must be <= 1000" (
  bail_if (match cfg.(SEQOVL_SIZE) with
           | Some size => (MAX_SEQOVL_SIZE <? size)%Z | None => false end)
    "SEQOVL_SIZE is too large" (
  bail_if ((cfg.(SEQOVL_SEGMENTS) <? 2)%Z || (3 <? cfg.(SEQOVL_SEGMENTS))%Z)
    "SEQOVL_SEGMENTS must be 2 or 3" (
  bail_if (1000 <? cfg.(SEQOVL_DELAY_MS))%Z "SEQOVL_DELAY_MS must be <= 1000" (
  r_bind (validate_pattern cfg) (λ _,
  bail_if (cfg.(TCP_SEG_SIZE) =? 0)%Z "TCP_SEG_SIZE must be >= 1" (
  bail_if (i32_max <? cfg.(TCP_SEG_SIZE))%Z "TCP_SEG_SIZE must be <= i32::MAX" (
  r_bind (validate_at_least cfg.(TLS_PADDING_SIZE) "TLS_PADDING_SIZE" 1) (λ _,
  bail_if (16000 <? cfg.(TLS_PADDING_SIZE).(r_max))%Z "TLS_PADDING_SIZE must be <= 16000" (
  r_bind (PaddingPosition_parse cfg.(TLS_PADDING_POSITION)) (λ _,
  r_bind (parse_record_version cfg.(CCS_PREFIX_RECORD_VERSION)) (λ _,
  r_bind (tls_frag_packets cfg) (λ _,
  r_bind (tls_frag_length_range cfg) (λ range,
  r_bind (validate_at_least range "TLS_FRAG_LENGTH" 1) (λ _,
  r_bind (validate_at_least cfg.(TLS_FRAG_INTERVAL_MS) "TLS_FRAG_INTERVAL_MS" 0) (λ _,
  r_bind (validate_at_least cfg.(SNI_BOUNDARY_FRAG_DELAY_MS) "SNI_BOUNDARY_FRAG_DELAY_MS" 0) (λ _,
  validate_at_least cfg.(TLS_RECORD_SPLIT_DELAY_MS) "TLS_RECORD_SPLIT_DELAY_MS" 0)))))))))))))))))))).

Definition MODES : list string :=
  ["sni_spoof"; "ip_bypass"; "ip_bypass_plus"; "sni_scan"; "ip_scan"; "proxy_scan";
   "sni_method_scan"; "ip_method_scan"].
(** The methods that keep the real SNI. *)
Definition REAL_SNI_METHODS : list string :=
  ["tls_record_frag"; "tls_frag"; "tls_padding"; "mixed_case_sni"; "sni_boundary_frag";
   "ccs_prefix"; "ip_frag"; "disorder"; "seqovl"; "tls_record_split"].

Definition validate_mode cfg : result () :=
  bail_if (negb (bool_decide (is_Some (firewall_parse cfg.(LINUX_FIREWALL_BACKEND)))))
    "Unknown LINUX_FIREWALL_BACKEND" (
  bail_if (negb (str_mem cfg.(MODE) MODES)) "Unknown MODE" (
  bail_if (String.eqb cfg.(MODE) "ip_bypass_plus" &&
           negb (forallb (λ m, str_mem m REAL_SNI_METHODS) cfg.(BYPASS_METHOD)))
    "ip_bypass_plus supports only real-SNI-preserving methods" (
  bail_if (negb (SFleb f64_zero cfg.(PROXY_TEST_SNI_WEIGHT) &&
                 SFleb cfg.(PROXY_TEST_SNI_WEIGHT) (f64_of_Z 1)))
    "PROXY_TEST_SNI_WEIGHT must be in [0.0, 1.0]" (
  bail_if (cfg.(PROXY_TEST_TIMEOUT_SECS) =? 0)%Z "PROXY_TEST_TIMEOUT_SECS must be > 0" (
  match cfg.(SELECTED_IP) with
  | None => Ok ()
  | Some ip =>
      r_bind (ok_or (parse_ip ip) "SELECTED_IP is not a valid IP address") (λ parsed,
      bail_if (String.eqb cfg.(MODE) "ip_bypass_plus" && is_ipv6 parsed)
        "ip_bypass_plus is IPv4-only" (Ok ()))
  end))))).

Definition validate cfg : result () :=
  r_bind (validate_scan cfg) (λ _,
  r_bind (validate_bypass_method cfg) (λ _,
  r_bind (validate_injection cfg) (λ _,
  r_bind (validate_shaping cfg) (λ _,
  validate_mode cfg)))).
End validate.

Definition linux_firewall_backend (cfg : Config) : LinuxFirewallBackend :=
  default Iptables (firewall_parse cfg.(LINUX_FIREWALL_BACKEND)).

(** ** Lemmas *)
Lemma bail_if_ok {A} b msg (k : result A) a : bail_if b msg k = Ok a ↔ b = false ∧ k = Ok a.
Proof. destruct b; simpl; naive_solver. Qed.
Lemma r_bind_ok {A B} (r : result A) (k : A → result B) b :
  r_bind r k = Ok b ↔ ∃ a, r = Ok a ∧ k a = Ok b.
Proof. destruct r; simpl; naive_solver. Qed.
Lemma r_map_ok {A B} (f : A → B) r b : r_map f r = Ok b ↔ ∃ a, r = Ok a ∧ b = f a.
Proof. destruct r; simpl; naive_solver. Qed.
Lemma ok_or_ok {A} (o : option A) msg a : ok_or o msg = Ok a ↔ o = Some a.
Proof. destruct o; simpl; naive_solver. Qed.

(** Split a hypothesis [.. = Ok _] into the checks that passed. *)
Ltac inv_ok :=
  repeat match goal with
  | H : bail_if _ _ _ = Ok _ |- _ => apply bail_if_ok in H as [? H]
  | H : r_bind _ _ = Ok _ |- _ => apply r_bind_ok in H as (? & ? & H)
  | H : r_map _ _ = Ok _ |- _ => apply r_map_ok in H as (? & ? & H)
  | H : ok_or _ _ = Ok _ |- _ => apply ok_or_ok in H
  | H : Ok _ = Ok _ |- _ => injection H as H
  | H : Err _ = Ok _ |- _ => discriminate H
  end.

(** *** Strings of plain characters are not trimmed *)
Definition plain (a : ascii) : Prop := (33 ≤ byte_of a < 128)%Z.
Fixpoint str_all (P : ascii → Prop) (s : string) : Prop :=
  match s with EmptyString => True | String a s' => P a ∧ str_all P s' end.

Lemma str_all_rev_append P s acc : str_all P s → str_all P acc → str_all P (rev_append s acc).
Proof. revert acc; induction s; simpl; naive_solver. Qed.

Lemma plain_ws a : plain a → ws1 (byte_of a) = false.
Proof. unfold plain, ws1. intros. lia. Qed.
Lemma plain_ws2 a b : plain a → ws2 (byte_of a) (byte_of b) = false.
Proof. unfold plain, ws2. intros. lia. Qed.
Lemma plain_ws2' a b : plain b → ws2 (byte_of a) (byte_of b) = false.
Proof. unfold plain, ws2. intros. lia. Qed.
Lemma plain_ws3 a b c : plain a → ws3 (byte_of a) (byte_of b) (byte_of c) = false.
Proof. unfold plain, ws3. intros. lia. Qed.
Lemma plain_ws3' a b c : plain c → ws3 (byte_of a) (byte_of b) (byte_of c) = false.
Proof. unfold plain, ws3. intros. lia. Qed.

Lemma trim_start_plain s : str_all plain s → trim_start s = s.
Proof.
  destruct s as [|a [|b [|c s]]]; simpl; [done|..]; intros [Ha _];
    by rewrite (plain_ws a Ha), ?(plain_ws2 a _ Ha), ?(plain_ws3 a _ _ Ha).
Qed.
Lemma trim_start_rev_plain s : str_all plain s → trim_start_rev s = s.
Proof.
  destruct s as [|a [|b [|c s]]]; simpl; [done|..]; intros [Ha _];
    by rewrite (plain_ws a Ha), ?(plain_ws2' _ a Ha), ?(plain_ws3' _ _ a Ha).
Qed.

Lemma trim_plain s : str_all plain s → trim s = s.
Proof.
  intros Hs. unfold trim. rewrite (trim_start_plain s Hs).
  rewrite trim_start_rev_plain by (by apply str_all_rev_append).
  apply str_rev_involutive.
Qed.

(** *** Decimal digits *)
Definition is_digit (a : ascii) : Prop := (48 ≤ byte_of a ≤ 57)%Z.

Lemma digit_char_is_digit d : (0 ≤ d < 10)%Z → is_digit (digit_char d).
Proof.
  intros Hd. unfold is_digit, digit_char, byte_of. rewrite N_ascii_embedding by lia. lia.
Qed.

Lemma show_digits_all fuel n acc :
  str_all is_digit acc → str_all is_digit (show_digits fuel n acc).
Proof.
  revert n acc; induction fuel as [|fuel IH]; intros n acc Hacc; simpl; [done|].
  pose proof (Z.mod_pos_bound n 10). assert (is_digit (digit_char (n mod 10)))
    by (apply digit_char_is_digit; lia).
  destruct (n <? 10)%Z; [done|]. by apply IH.
Qed.
Lemma show_nat_digits n : str_all is_digit (show_nat n).
Proof. by apply show_digits_all. Qed.

Lemma str_all_impl (P Q : ascii → Prop) s : (∀ a, P a → Q a) → str_all P s → str_all Q s.
Proof. intros HPQ. induction s; simpl; naive_solver. Qed.
Lemma digit_plain a : is_digit a → plain a.
Proof. unfold is_digit, plain. lia. Qed.

Lemma str_all_app P s t : str_all P s → str_all P t → str_all P (s ++ t).
Proof. induction s as [|a s IH]; [done|]. rewrite str_app_cons. simpl. naive_solver. Qed.

Lemma not_dash a : is_digit a → Ascii.eqb a "-"%char = false.
Proof.
  intros H. destruct (Ascii.eqb_spec a "-"%char) as [->|]; [|done].
  unfold is_digit in H. vm_compute in H. destruct H as [H _]. by destruct H.
Qed.

Lemma split_once_digits s t :
  str_all is_digit s → split_once "-"%char (s ++ String "-" t) = Some (s, t).
Proof.
  induction s as [|a s IH]; [done|]. rewrite str_app_cons. simpl.
  intros [Ha Hs]. by rewrite not_dash, IH.
Qed.
Lemma split_once_none s : str_all is_digit s → split_once "-"%char s = None.
Proof. induction s as [|a s IH]; simpl; [done|]. intros [Ha Hs]. by rewrite not_dash, IH. Qed.

Lemma parse_i32_digits n : (0 ≤ n ≤ i32_max)%Z → parse_i32 (show_nat n) = Ok n.
Proof.
  intros Hn. unfold parse_i32. apply ok_or_ok. unfold parse_signed.
  pose proof (show_nat_digits n) as Hd. pose proof (parse_show_nat n ltac:(lia)) as Hp.
  assert (∀ p, (p = "-" ∨ p = "+")%string → strip_prefix p (show_nat n) = None) as Hs.
  { intros p Hp'. destruct (show_nat n) as [|a s]; [by destruct Hp' as [-> | ->]|].
    destruct Hd as [Ha _]. unfold is_digit in Ha.
    destruct Hp' as [-> | ->]; cbn [strip_prefix].
    - destruct (Ascii.eqb_spec "-"%char a) as [<-|]; [|done]. vm_compute in Ha. by destruct Ha as [[] _].
    - destruct (Ascii.eqb_spec "+"%char a) as [<-|]; [|done]. vm_compute in Ha. by destruct Ha as [[] _]. }
  rewrite (Hs "-") by auto. unfold parse_unsigned. rewrite (Hs "+") by auto.
  rewrite Hp, (proj2 (Z.leb_le _ _)) by lia. done.
Qed.

Lemma show_nat_not_empty n : (0 ≤ n)%Z → show_nat n ≠ "".
Proof. intros Hn Heq. pose proof (parse_show_nat n Hn) as Hp. by rewrite Heq in Hp. Qed.

Lemma parse_digits_nonneg acc s v : (0 ≤ acc)%Z → parse_digits acc s = Some v → (0 ≤ v)%Z.
Proof.
  revert acc; induction s as [|a s IH]; intros acc Ha; simpl; [intros [= <-]; done|].
  unfold digit10. destruct (_ && _) eqn:E; [|done]. apply IH. lia.
Qed.

Lemma parse_nat10_nonneg s v : parse_nat10 s = Some v → (0 ≤ v)%Z.
Proof. unfold parse_nat10. destruct s; [done|]. by apply parse_digits_nonneg. Qed.

Lemma parse_i32_range s v : parse_i32 s = Ok v → (i32_min ≤ v ≤ i32_max)%Z.
Proof.
  unfold parse_i32. intros H. inv_ok. unfold parse_signed, parse_unsigned in H.
  destruct (strip_prefix "-" s).
  - destruct (parse_nat10 _) as [n|] eqn:E; [|done]. apply parse_nat10_nonneg in E.
    destruct (Z.leb_spec i32_min (- n)); [|done]. injection H as <-. unfold i32_max. lia.
  - destruct (parse_nat10 _) as [n|] eqn:E; [|done]. apply parse_nat10_nonneg in E.
    destruct (Z.leb_spec n i32_max); [|done]. injection H as <-. unfold i32_min. lia.
Qed.

(** A range as the deserializer produces it. *)
Definition range_wf (r : Int32Range) : Prop :=
  (i32_min ≤ r.(r_min) ∧ r.(r_min) ≤ r.(r_max) ∧ r.(r_max) ≤ i32_max)%Z.

Lemma Int32Range_parse_range s r : Int32Range_parse s = Ok r → range_wf r.
Proof.
  unfold Int32Range_parse, range_wf. intros H. inv_ok.
  destruct (split_once _ _) as [[a b]|]; inv_ok.
  - repeat match goal with E : parse_i32 _ = Ok _ |- _ => apply parse_i32_range in E end.
    subst r. simpl. bool_to_prop. lia.
  - match goal with E : parse_i32 _ = Ok _ |- _ => apply parse_i32_range in E end.
    subst r. simpl. lia.
Qed.

(** Ranges parse soundly and round-trip: whatever [Int32Range::parse]
    accepts is an ordered range of [i32] values, and the [Display] text of
    every range with nonnegative bounds parses back to that range. *)
Theorem Int32Range_roundtrip :
  (∀ s r, Int32Range_parse s = Ok r → range_wf r) ∧
  (∀ mn mx, (0 ≤ mn ≤ mx)%Z → (mx ≤ i32_max)%Z →
    Int32Range_parse (Int32Range_show (MkInt32Range mn mx)) = Ok (MkInt32Range mn mx)).
Proof.
  split; [apply Int32Range_parse_range|]. intros mn mx Hmn Hmx.
  assert (∀ n, (0 ≤ n)%Z → show_int n = show_nat n) as Hsi.
  { intros n Hn. unfold show_int. by rewrite (proj2 (Z.ltb_ge _ _)) by lia. }
  assert (∀ n, trim (show_nat n) = show_nat n) as Htr.
  { intros n. apply trim_plain. eapply str_all_impl, show_nat_digits. apply digit_plain. }
  assert (str_all plain "-") as Hdash by (split; [vm_compute; split; [discriminate|reflexivity]|done]).
  unfold Int32Range_show, Int32Range_parse. simpl r_min. simpl r_max. rewrite !Hsi by lia.
  destruct (Z.eqb_spec mn mx) as [->|Hne].
  - rewrite Htr. destruct (String.eqb_spec (show_nat mx) "") as [E|_];
      [by apply show_nat_not_empty in E; [|lia]|].
    simpl. rewrite split_once_none by apply show_nat_digits.
    by rewrite parse_i32_digits by lia.
  - rewrite trim_plain.
    2:{ repeat apply str_all_app; try done;
        eapply str_all_impl, show_nat_digits; apply digit_plain. }
    destruct (String.eqb_spec (show_nat mn ++ "-" ++ show_nat mx) "") as [E|_];
      [by destruct (show_nat mn)|]. cbn [bail_if].
    change ("-" ++ show_nat mx) with (String "-" (show_nat mx)).
    rewrite split_once_digits by apply show_nat_digits.
    rewrite !Htr, !parse_i32_digits by lia. simpl.
    by rewrite (proj2 (Z.ltb_ge _ _)) by lia.
Qed.

Lemma Int32Range_roundtrip_witness :
  range_wf (MkInt32Range 5 10) ∧
  Int32Range_parse (Int32Range_show (MkInt32Range 7 7)) = Ok (MkInt32Range 7 7).
Proof.
  destruct Int32Range_roundtrip as [H1 H2]. split.
  - apply (H1 " 5 - 10 "). vm_compute. reflexivity.
  - apply (H2 7%Z 7%Z); unfold i32_max; lia.
Defined.

(** *** Packet selectors *)
Lemma parse_packet_index_range s n : parse_packet_index s = Ok n → (1 ≤ n ≤ u32_max)%Z.
Proof.
  unfold parse_packet_index. intros H. inv_ok. subst.
  match goal with E : parse_unsigned _ _ = Some _ |- _ => rename E into Hp end.
  unfold parse_unsigned in Hp. destruct (parse_nat10 _) as [v|] eqn:E; [|done].
  apply parse_nat10_nonneg in E. destruct (Z.leb_spec v u32_max); [|done].
  injection Hp as <-. bool_to_prop. lia.
Qed.

Lemma TlsFragPackets_parse_range s start stop :
  TlsFragPackets_parse s = Ok (WriteRange start stop) → (1 ≤ start ≤ stop ∧ stop ≤ u32_max)%Z.
Proof.
  unfold TlsFragPackets_parse. destruct (eq_ignore_ascii_case _ _); [done|]. intros H.
  apply r_bind_ok in H as ([a b] & Hab & H). apply bail_if_ok in H as [Hle H].
  injection H as -> ->. bool_to_prop.
  destruct (split_once _ _) as [[x y]|]; inv_ok;
    repeat match goal with E : parse_packet_index _ = Ok _ |- _ => apply parse_packet_index_range in E end.
  - simplify_eq. lia.
  - simplify_eq. lia.
Qed.

(** *** Aliases *)
Lemma expand_base m : str_mem m BASE_BYPASS_METHODS = true → expand_method_alias m = [m].
Proof.
  unfold str_mem, BASE_BYPASS_METHODS. cbn [existsb]. intros H.
  repeat (apply orb_true_iff in H as [H|H]; [apply String.eqb_eq in H as ->; reflexivity|]).
  done.
Qed.

Lemma expand_expanded name : flat_map expand_method_alias (expand_method_alias name) =
  expand_method_alias name.
Proof.
  destruct (String.eqb_spec name "wrong_seq_wrong_md5") as [->|N1]; [reflexivity|].
  destruct (String.eqb_spec name "wrong_seq_tls_frag") as [->|N2]; [reflexivity|].
  destruct (String.eqb_spec name "wrong_md5_tls_frag") as [->|N3]; [reflexivity|].
  destruct (String.eqb_spec name "wrong_seq_tls_record_frag") as [->|N4]; [reflexivity|].
  assert (expand_method_alias name = [name]) as E.
  { unfold expand_method_alias. by rewrite !(proj2 (String.eqb_neq name _)). }
  rewrite E. cbn [flat_map]. by rewrite E.
Qed.

Lemma from_names_idempotent l : from_names (from_names l) = from_names l.
Proof.
  unfold from_names. induction l as [|n l IH]; [done|]. cbn [flat_map].
  by rewrite flat_map_app, IH, expand_expanded.
Qed.

Lemma str_mem_spec s l : str_mem s l = true ↔ s ∈ l.
Proof.
  unfold str_mem. rewrite existsb_exists. setoid_rewrite String.eqb_eq.
  rewrite list_elem_of_In. naive_solver.
Qed.
Lemma str_mem_false s l : str_mem s l = false ↔ s ∉ l.
Proof. rewrite <- str_mem_spec. destruct (str_mem s l); naive_solver. Qed.

Lemma socket_only_iff l : is_socket_only l = negb (list_is_empty l) && negb (requires_interceptor l).
Proof.
  unfold is_socket_only, requires_interceptor. f_equal.
  induction l as [|m l IH]; [done|]. cbn [forallb existsb]. rewrite IH.
  by destruct (str_mem m SOCKET_METHODS).
Qed.

(** The method list is normalized by parsing.  Expanding the combo
    aliases is idempotent, so a parsed list holds no alias; an entry that is a
    base method stays itself; a nonempty list either needs the interceptor or
    is socket-only, never both; and the built-in default is
    [wrong_seq, tls_frag]. *)
Theorem method_list_normal :
  (∀ l, from_names (from_names l) = from_names l) ∧
  (∀ s, from_names (from_delimited s) = from_delimited s) ∧
  (∀ m, m ∈ BASE_BYPASS_METHODS → from_name m = [m]) ∧
  (∀ l, l ≠ [] → is_socket_only l = negb (requires_interceptor l)) ∧
  BYPASS_METHOD (default_config "127.0.0.1" 40443) = ["wrong_seq"; "tls_frag"].
Proof.
  split; [apply from_names_idempotent|]. split; [intros s; apply from_names_idempotent|].
  split; [intros m Hm; by apply expand_base, str_mem_spec|].
  split; [|reflexivity]. intros l Hl. rewrite socket_only_iff. by destruct l.
Qed.

Lemma method_list_normal_witness :
  from_name "wrong_md5" = ["wrong_md5"] ∧
  is_socket_only ["tls_frag"; "ccs_prefix"] =
    negb (requires_interceptor ["tls_frag"; "ccs_prefix"]).
Proof.
  destruct method_list_normal as (_ & _ & H1 & H2 & _). split.
  - apply H1, str_mem_spec. vm_compute. reflexivity.
  - apply H2. discriminate.
Defined.

(** *** Validation *)
Lemma check_method_names_ok field seen l :
  check_method_names field seen l = Ok () ↔
  (∀ m, m ∈ l → m ∈ BASE_BYPASS_METHODS) ∧ NoDup l ∧ (∀ m, m ∈ l → m ∉ seen).
Proof.
  revert seen; induction l as [|m l IH]; intros seen; cbn [check_method_names].
  - split; [intros _|done]. split; [|split]; [|constructor|]; intros m Hm; by apply elem_of_nil in Hm.
  - rewrite !bail_if_ok, IH, negb_false_iff, str_mem_spec, str_mem_false, NoDup_cons.
    setoid_rewrite elem_of_cons. split.
    + intros (Hb & Hs & Hl & Hn & Hd). repeat split.
      * intros x [->|Hx]; [done|by apply Hl].
      * intros Hin. by apply (Hd m Hin), or_introl.
      * done.
      * intros x [->|Hx]; [done|]. intros Hin. by apply (Hd x Hx), or_intror.
    + intros (Hb & [Hm Hn] & Hd). repeat split; try by auto.
      intros x Hx [->|Hin]; [done|]. by eapply (Hd x); [right|].
Qed.

(** What validation guarantees of the method list. *)
Record methods_ok (cfg : Config) : Prop := {
  mo_nonempty : cfg.(BYPASS_METHOD) ≠ [];
  mo_base : ∀ m, m ∈ cfg.(BYPASS_METHOD) → m ∈ BASE_BYPASS_METHODS;
  mo_nodup : NoDup cfg.(BYPASS_METHOD);
  mo_one_shaper : ∀ a b, a ∈ EMISSION_SHAPERS → b ∈ EMISSION_SHAPERS →
    a ∈ cfg.(BYPASS_METHOD) → b ∈ cfg.(BYPASS_METHOD) → a = b;
  mo_urg : "urg_sni_split" ∈ cfg.(BYPASS_METHOD) →
    ∀ m, m ∈ cfg.(BYPASS_METHOD) → m = "urg_sni_split" ∨ m = "tls_frag";
  mo_split : ¬ ("tls_record_split" ∈ cfg.(BYPASS_METHOD) ∧
                "sni_boundary_frag" ∈ cfg.(BYPASS_METHOD));
  mo_chained : "fake_tls" ∈ cfg.(BYPASS_METHOD) →
    (∃ m, m ∈ "tls_record_frag" :: EMISSION_SHAPERS ∧ m ∈ cfg.(BYPASS_METHOD)) →
    cfg.(FAKE_TLS_FORWARD_REAL) = true }.

Lemma list_contains_spec l m : list_contains l m = true ↔ m ∈ l.
Proof. apply str_mem_spec. Qed.
Lemma list_contains_false l m : list_contains l m = false ↔ m ∉ l.
Proof. apply str_mem_false. Qed.

Lemma shapers_le1 (P : string → bool) :
  (1 <? length (List.filter P EMISSION_SHAPERS)) = false →
  ∀ a b, a ∈ EMISSION_SHAPERS → b ∈ EMISSION_SHAPERS → P a = true → P b = true → a = b.
Proof.
  unfold EMISSION_SHAPERS. intros H a b Ha Hb Pa Pb.
  rewrite !elem_of_cons in Ha, Hb. cbn [List.filter] in H.
  destruct Ha as [->|[->|[->|Ha]]]; [..|by apply elem_of_nil in Ha];
    destruct Hb as [->|[->|[->|Hb]]]; try done; try (by apply elem_of_nil in Hb);
    rewrite Pa, Pb in H; destruct (P _) in H; done.
Qed.

Lemma validate_bypass_method_ok cfg : validate_bypass_method cfg = Ok () → methods_ok cfg.
Proof.
  unfold validate_bypass_method. set (l := BYPASS_METHOD cfg). intros H.
  apply bail_if_ok in H as [He H]. apply r_bind_ok in H as ([] & Hn & H).
  apply check_method_names_ok in Hn as (Hb & Hd & _).
  apply bail_if_ok in H as [Hsp H]. apply bail_if_ok in H as [Hurg H].
  apply bail_if_ok in H as [_ H]. cbv zeta in H.
  apply bail_if_ok in H as [Hsh H]. apply bail_if_ok in H as [_ H].
  apply bail_if_ok in H as [Hch _].
  constructor; fold l; try done.
  - intros E. rewrite E in He. done.
  - intros a b Ha Hb' Hal Hbl. apply (shapers_le1 _ Hsh); try done; by apply list_contains_spec.
  - intros Hu m Hm. apply list_contains_spec in Hu. rewrite Hu in Hurg. cbn [andb] in Hurg.
    destruct (1 <? length l) eqn:E1.
    + cbn [andb] in Hurg. apply negb_false_iff in Hurg. rewrite forallb_forall in Hurg.
      specialize (Hurg m ltac:(by apply list_elem_of_In)).
      apply orb_true_iff in Hurg as [Hm'|Hm']; apply String.eqb_eq in Hm'; auto.
    + left. apply list_contains_spec in Hu. bool_to_prop.
      destruct l as [|x [|y l']]; simpl in E1; [by apply elem_of_nil in Hm| |lia].
      apply list_elem_of_singleton in Hm as ->. by apply list_elem_of_singleton in Hu as ->.
  - intros [H1 H2]. apply list_contains_spec in H1, H2. by rewrite H1, H2 in Hsp.
  - intros Hf (m & Hm & Hml). apply list_contains_spec in Hf, Hml. rewrite Hf in Hch.
    cbn [andb] in Hch.
    assert (list_contains l "tls_record_frag" ||
      negb (length (List.filter (list_contains l) EMISSION_SHAPERS) =? 0) = true) as Hc.
    { apply elem_of_cons in Hm as [->|Hm]; [by rewrite Hml|]. apply orb_true_iff. right.
      apply negb_true_iff, Nat.eqb_neq. intros E. apply length_zero_iff_nil in E.
      assert (m ∈ List.filter (list_contains l) EMISSION_SHAPERS) as Hin
        by (apply list_elem_of_In, filter_In; split; [by apply list_elem_of_In|done]).
      rewrite E in Hin. by apply elem_of_nil in Hin. }
    rewrite Hc in Hch. cbn [andb] in Hch. by apply negb_false_iff.
Qed.

(** What validation guarantees of the method parameters. *)
Record params_ok (cfg : Config) : Prop := {
  po_sni : ∀ sni, cfg.(SELECTED_SNI) = Some sni → str_len sni ≤ MAX_SNI_LEN;
  po_repeats : cfg.(FAKE_TLS_REPEATS) ≠ 0%Z ∧ (cfg.(FAKE_TLS_REPEATS) ≤ 8)%Z;
  po_chain_delay : (0 ≤ cfg.(FAKE_TLS_CHAIN_DELAY_MS).(r_min) ∧
                    cfg.(FAKE_TLS_CHAIN_DELAY_MS).(r_max) ≤ 100)%Z;
  po_nonzero : cfg.(WRONG_CHECKSUM_DELTA) ≠ 0%Z ∧ cfg.(WRONG_ACK_OFFSET) ≠ 0%Z ∧
               cfg.(WRONG_TIMESTAMP_OFFSET) ≠ 0%Z;
  po_low_ttl : cfg.(LOW_TTL_VALUE) ≠ 0%Z ∧ (cfg.(LOW_TTL_VALUE) ≤ 64)%Z ∧
               cfg.(LOW_TTL_DISCOVER_MAX) ≠ 0%Z ∧ (cfg.(LOW_TTL_DISCOVER_MAX) ≤ 64)%Z ∧
               (100 ≤ cfg.(LOW_TTL_DISCOVER_TIMEOUT_MS))%Z;
  po_record_frag : cfg.(TLS_RECORD_FRAG_SIZE) ≠ 0%Z;
  po_ip_frag : (8 ≤ cfg.(IP_FRAG_SIZE) ∧ cfg.(IP_FRAG_SIZE) mod 8 = 0)%Z;
  po_segments : (2 ≤ cfg.(DISORDER_SEGMENTS) ≤ 3 ∧ 2 ≤ cfg.(SEQOVL_SEGMENTS) ≤ 3)%Z;
  po_seqovl : ∀ n, cfg.(SEQOVL_SIZE) = Some n → (n ≤ MAX_SEQOVL_SIZE)%Z;
  po_pattern : ∀ p, cfg.(SEQOVL_PATTERN) = Some p →
    ∃ bytes, parse_hex_pattern p = Ok bytes ∧ (Z.of_nat (length bytes) ≤ MAX_SEQOVL_SIZE)%Z ∧
      (∀ n, cfg.(SEQOVL_SIZE) = Some n → n = Z.of_nat (length bytes));
  po_padding : (1 ≤ cfg.(TLS_PADDING_SIZE).(r_min) ∧ cfg.(TLS_PADDING_SIZE).(r_max) ≤ 16000)%Z ∧
    ∃ p, PaddingPosition_parse cfg.(TLS_PADDING_POSITION) = Ok p;
  po_record_version : ∃ v, parse_record_version cfg.(CCS_PREFIX_RECORD_VERSION) = Ok v;
  po_tls_frag : (∃ p, tls_frag_packets cfg = Ok p) ∧
    (∃ r, tls_frag_length_range cfg = Ok r ∧ 1 ≤ r.(r_min))%Z;
  po_delays : (0 ≤ cfg.(TLS_FRAG_INTERVAL_MS).(r_min) ∧
               0 ≤ cfg.(SNI_BOUNDARY_FRAG_DELAY_MS).(r_min) ∧
               0 ≤ cfg.(TLS_RECORD_SPLIT_DELAY_MS).(r_min))%Z }.

(** Run a hypothesis [.. = Ok ()] down to the facts of its checks. *)
Ltac peel_ok H :=
  repeat match type of H with
  | bail_if _ _ _ = Ok _ =>
      let E := fresh "E" in apply bail_if_ok in H as [E H]; bool_to_prop
  | r_bind _ _ = Ok _ =>
      let E := fresh "E" in let x := fresh "x" in apply r_bind_ok in H as (x & E & H)
  end.

Lemma validate_at_least_ok r field m a : validate_at_least r field m = Ok a → (m ≤ r.(r_min))%Z.
Proof. unfold validate_at_least. intros H. apply bail_if_ok in H as [H _]. by bool_to_prop. Qed.

Lemma validate_pattern_ok cfg : validate_pattern cfg = Ok () →
  ∀ p, cfg.(SEQOVL_PATTERN) = Some p →
    ∃ bytes, parse_hex_pattern p = Ok bytes ∧ (Z.of_nat (length bytes) ≤ MAX_SEQOVL_SIZE)%Z ∧
      (∀ n, cfg.(SEQOVL_SIZE) = Some n → n = Z.of_nat (length bytes)).
Proof.
  unfold validate_pattern. intros H p Hp. rewrite Hp in H.
  apply r_bind_ok in H as (bytes & Hb & H). apply bail_if_ok in H as [Hl H].
  apply bail_if_ok in H as [Hs _]. exists bytes. bool_to_prop. split; [done|]. split; [done|].
  intros n Hn. rewrite Hn in Hs. by bool_to_prop.
Qed.

Lemma validate_params_ok mp cfg :
  validate_scan mp cfg = Ok () → validate_injection cfg = Ok () → validate_shaping cfg = Ok () →
  params_ok cfg.
Proof.
  intros Hscan Hinj Hsh. unfold validate_scan in Hscan. peel_ok Hscan.
  match goal with E : (match SELECTED_SNI cfg with _ => _ end) = false |- _ => rename E into Hsni end.
  clear - Hsni Hinj Hsh. unfold validate_injection, MAX_FAKE_TLS_REPEATS,
    MAX_FAKE_TLS_CHAIN_DELAY_MS in Hinj. peel_ok Hinj.
  unfold validate_shaping in Hsh. peel_ok Hsh.
  repeat match goal with
  | E : validate_at_least _ _ _ = Ok _ |- _ => apply validate_at_least_ok in E
  | x : () |- _ => destruct x
  end.
  constructor; eauto with lia.
  - intros sni Es. rewrite Es in Hsni. by bool_to_prop.
  - intros n En. rewrite En in *. bool_to_prop. done.
  - by apply validate_pattern_ok.
Qed.

Lemma validate_parts mp cfg : validate mp cfg = Ok () → methods_ok cfg ∧ params_ok cfg.
Proof.
  intros H. unfold validate in H.
  apply r_bind_ok in H as ([] & Hscan & H). apply r_bind_ok in H as ([] & Hm & H).
  apply r_bind_ok in H as ([] & Hinj & H). apply r_bind_ok in H as ([] & Hsh & _).
  split; [by apply validate_bypass_method_ok|by eapply validate_params_ok].
Qed.


