(* ===== verification/ScanList.v ===== *)
(** * The lists a scan starts from

    Model of [crates/zerodpi-core/src/scan_list.rs] (reading a list and removing
    its duplicates), [cloudflare.rs] (the range filter), the loading of IP
    lists in [ip_scanner.rs] and of host names in [scan_sni_list].  The file
    system answers as its arguments say; a range of the ipnet crate is of an
    abstract type, with what the code asks of it as parameters. *)
From stdpp Require Import base list numbers strings gmap sets.
From Stdlib Require Import ZArith Lia Ascii.
From S2P Require Import Prelude Text NetAddr Config.
Local Open Scope string_scope.
Local Open Scope nat_scope.
Local Open Scope list_scope.

(** ** Lines *)
Definition newline : ascii := ascii_of_nat 10.
Definition carriage_return : ascii := ascii_of_nat 13.

(** [split_inclusive('\n')] *)
Fixpoint split_inclusive (s : string) : list string :=
  match s with
  | EmptyString => []
  | String a s' =>
      if Ascii.eqb a newline then String a EmptyString :: split_inclusive s'
      else match split_inclusive s' with
           | [] => [String a EmptyString]
           | l :: ls => String a l :: ls
           end
  end.

(** [strip_suffix] of one character. *)
Fixpoint strip_suffix (c : ascii) (s : string) : option string :=
  match s with
  | EmptyString => None
  | String a EmptyString => if Ascii.eqb a c then Some EmptyString else None
  | String a s' => String a <$> strip_suffix c s'
  end.

(** [lines()] *)
Definition line_of (l : string) : string :=
  match strip_suffix newline l with
  | None => l
  | Some l => default l (strip_suffix carriage_return l)
  end.
Definition lines (s : string) : list string := line_of <$> split_inclusive s.

(** A trimmed line that is neither blank nor a comment. *)
Definition starts_with_hash (s : string) : bool :=
  match s with String a _ => Ascii.eqb a "#"%char | EmptyString => false end.
Definition is_entry (entry : string) : bool :=
  negb (bool_decide (entry = EmptyString)) && negb (starts_with_hash entry).
Definition entries (text : string) : list string :=
  filter (λ l, is_entry l = true) (trim <$> lines text).

(** ** Duplicates *)
Section dedup.
Context (entry_key : string → option string).

Definition line_key (line : string) : option string :=
  let entry := trim line in if is_entry entry then entry_key entry else None.

(** The loop of [read_scan_list]: the lines kept and the number removed. *)
Fixpoint clean_lines (seen : gset string) (ls : list string) : list string * nat :=
  match ls with
  | [] => ([], 0)
  | line :: ls =>
      match line_key line with
      | Some key =>
          if decide (key ∈ seen) then
            let '(kept, removed) := clean_lines seen ls in (kept, S removed)
          else
            let '(kept, removed) := clean_lines ({[key]} ∪ seen) ls in (line :: kept, removed)
      | None => let '(kept, removed) := clean_lines seen ls in (line :: kept, removed)
      end
  end.

Definition clean (content : string) : string * nat :=
  let '(kept, removed) := clean_lines ∅ (split_inclusive content) in
  (foldr String.append EmptyString kept, removed).

(** The file ([None]: it cannot be read) and whether it can be replaced; the
    text returned and the file afterwards. *)
Definition read_scan_list (file : option string) (deduplicate replaced : bool)
    : result string * option string :=
  match file with
  | None => (Err "cannot read scan list", None)
  | Some content =>
      if negb deduplicate then (Ok content, file) else
      let '(cleaned, removed) := clean content in
      if 0 <? removed then
        if replaced then (Ok cleaned, Some cleaned) else (Err "cannot replace scan list", file)
      else (Ok cleaned, file)
  end.
End dedup.

(** ** Addresses as text *)
Definition hex_char (d : Z) : ascii := ascii_of_N (Z.to_N (if (d <? 10)%Z then d + 48 else d + 87)).
Fixpoint show_hex_digits (fuel : nat) (n : Z) (acc : string) : string :=
  match fuel with
  | O => acc
  | S fuel =>
      let acc := String (hex_char (n mod 16)) acc in
      if (n <? 16)%Z then acc else show_hex_digits fuel (n / 16) acc
  end.
Definition show_hex16 (g : Z) : string := show_hex_digits 4 g EmptyString.

(** The first longest run of zero groups: its start and length. *)
Fixpoint zero_runs (i : nat) (current : nat * nat) (longest : nat * nat) (gs : list Z) : nat * nat :=
  match gs with
  | [] => longest
  | g :: gs =>
      if (g =? 0)%Z then
        let current := if current.2 =? 0 then (i, 1) else (current.1, S current.2) in
        zero_runs (S i) current (if longest.2 <? current.2 then current else longest) gs
      else zero_runs (S i) (0, 0) longest gs
  end.

Definition show_groups (gs : list Z) : string := str_join ":" (show_hex16 <$> gs).
Definition show_ipv6 (gs : list Z) : string :=
  match gs with
  | [g0; g1; g2; g3; g4; 65535%Z; g6; g7] =>
      if forallb (Z.eqb 0) [g0; g1; g2; g3; g4] then
        String.append "::ffff:" (show_ipv4 (g6 * 65536 + g7))
      else show_groups gs
  | _ =>
      let '(start, len) := zero_runs 0 (0, 0) (0, 0) gs in
      if 1 <? len then
        String.append (show_groups (take start gs))
          (String.append "::" (show_groups (drop (start + len) gs)))
      else show_groups gs
  end.
Definition show_ip (ip : IpAddr) : string :=
  match ip with IpV4 a => show_ipv4 a | IpV6 gs => show_ipv6 gs end.

(** ** Ranges *)

(** What the code asks of the ipnet crate: parsing, the text of a range
    without its host bits, membership, the hosts in order. *)
Class Ranges (Net : Type) := {
  parse_net : string → option Net;
  trunc_to_string : Net → string;
  contains : Net → IpAddr → bool;
  net_is_v6 : Net → bool;
  hosts : Net → list IpAddr }.

Section ranges.
Context `{Ranges Net}.

(** [ScanFilter] *)
Record ScanFilter := MkScanFilter { ranges : option (list Net) }.

(** [lines().enumerate()] from line number [index]. *)
Fixpoint parse_ranges (index : Z) (ls : list string) : result (list Net) :=
  match ls with
  | [] => Ok []
  | line :: ls =>
      let line := trim line in
      if negb (is_entry line) then parse_ranges (index + 1) ls else
      match parse_net line with
      | Some range =>
          match parse_ranges (index + 1) ls with
          | Ok ranges => Ok (range :: ranges)
          | Err e => Err e
          end
      | None => Err (String.append "invalid Cloudflare CIDR at line " (show_int (index + 1)))
      end
  end.

(** [ScanFilter::load], the file [cf.txt] given. *)
Definition load (enabled : bool) (file : option string) : result ScanFilter :=
  if negb enabled then Ok (MkScanFilter None) else
  match file with
  | None => Err "reading Cloudflare ranges"
  | Some text =>
      match parse_ranges 0 (lines text) with
      | Err e => Err e
      | Ok [] => Err "Cloudflare file contains no CIDR ranges"
      | Ok ranges => Ok (MkScanFilter (Some ranges))
      end
  end.

Definition allows (f : ScanFilter) (ip : IpAddr) : bool :=
  match ranges f with Some ranges => existsb (λ range, contains range ip) ranges | None => true end.
Definition retain (f : ScanFilter) (ips : list IpAddr) : list IpAddr :=
  filter (λ ip, allows f ip = true) ips.

(** ** Candidates *)
Definition ip_key (entry : string) : option string :=
  match parse_ip entry with
  | Some ip => Some (show_ip ip)
  | None => trunc_to_string <$> parse_net entry
  end.

(** One entry; an IPv6 range gives at most [ipv6_max_hosts] addresses. *)
Definition expand (ipv6_max_hosts : Z) (entry : string) : list IpAddr :=
  match parse_ip entry with
  | Some ip => [ip]
  | None =>
      match parse_net entry with
      | Some net =>
          if net_is_v6 net then take (Z.to_nat ipv6_max_hosts) (hosts net) else hosts net
      | None => []
      end
  end.

Definition load_ip_list_with_options (file : option string) (replaced : bool) (ipv6_max_hosts : Z)
    (deduplicate : bool) : result (list IpAddr) * option string :=
  let '(text, file) := read_scan_list ip_key file deduplicate replaced in
  (match text with Ok text => Ok (concat (expand ipv6_max_hosts <$> entries text)) | Err e => Err e end,
   file).
Definition load_ip_list (file : option string) (replaced : bool) (ipv6_max_hosts : Z) :=
  load_ip_list_with_options file replaced ipv6_max_hosts true.

(** [load_ip_scan_input] of [crates/zerodpi/src/main.rs]. *)
Definition load_ip_scan_input (cfg : Config) (cf_file list_file : option string) (replaced : bool)
    : result (list IpAddr * ScanFilter) :=
  match load (CLOUDFLARE_ONLY cfg) cf_file with
  | Err e => Err e
  | Ok f =>
      match (load_ip_list_with_options list_file replaced (IPV6_MAX_HOSTS cfg)
               (DEDUPLICATE_SCAN_LISTS cfg)).1 with
      | Err e => Err e
      | Ok ips =>
          let ips := retain f ips in
          if negb (CLOUDFLARE_ONLY cfg) || negb (bool_decide (ips = [])) then Ok (ips, f)
          else Err "no IP candidates match the Cloudflare ranges in cf.txt"
      end
  end.
End ranges.
Arguments ScanFilter : clear implicits.

Definition sni_key (entry : string) : option string := Some (to_ascii_lowercase entry).
(** The host names of [scan_sni_list]. *)
Definition scan_hostnames (file : option string) (replaced deduplicate : bool) : result (list string) :=
  match (read_scan_list sni_key file deduplicate replaced).1 with
  | Err e => Err e
  | Ok text =>
      match entries text with
      | [] => Err "sni_list is empty"
      | names => Ok names
      end
  end.

(** ** Lines and what they are made of *)
Definition no_newline (s : string) : Prop := newline ∉ String.list_ascii_of_string s.
Definition terminated (l : string) : Prop := ∃ body, no_newline body ∧ l = String.append body (String newline EmptyString).
Definition unterminated (l : string) : Prop := l ≠ EmptyString ∧ no_newline l.

(** The pieces of a text: only the last may lack its newline. *)
Fixpoint pieces (ls : list string) : Prop :=
  match ls with
  | [] => True
  | [l] => terminated l ∨ unterminated l
  | l :: ls => terminated l ∧ pieces ls
  end.
Definition joined (ls : list string) : string := foldr String.append EmptyString ls.

Lemma str_app_assoc a b c : String.append (String.append a b) c = String.append a (String.append b c).
Proof. induction a as [|x a IH]; [done|]. by rewrite !str_app_cons, IH. Qed.

Lemma no_newline_cons a s : no_newline (String a s) ↔ a ≠ newline ∧ no_newline s.
Proof. unfold no_newline. cbn. rewrite not_elem_of_cons. naive_solver. Qed.

Lemma split_terminated body s : no_newline body →
  split_inclusive (String.append (String.append body (String newline EmptyString)) s) =
  String.append body (String newline EmptyString) :: split_inclusive s.
Proof.
  induction body as [|a body IH]; intros Hb; [done|].
  apply no_newline_cons in Hb as [Ha Hb]. rewrite !str_app_cons. cbn [split_inclusive]. rewrite IH by done.
  destruct (Ascii.eqb_spec a newline); done.
Qed.

Lemma split_unterminated l : unterminated l → split_inclusive l = [l].
Proof.
  intros [Hne Hn]. induction l as [|a l IH]; [done|]. apply no_newline_cons in Hn as [Ha Hn].
  cbn [split_inclusive]. destruct (Ascii.eqb_spec a newline); [done|].
  destruct l as [|b l]; [done|]. by rewrite IH.
Qed.

Lemma split_joined ls : pieces ls → split_inclusive (joined ls) = ls.
Proof.
  induction ls as [|l [|l' ls] IH]; intros Hp; [done|..].
  - cbn. rewrite str_app_nil. destruct Hp as [(body & Hb & ->)|Hu].
    + pose proof (split_terminated body EmptyString Hb) as Hs. by rewrite str_app_nil in Hs.
    + by apply split_unterminated.
  - destruct Hp as [(body & Hb & ->) Hp]. change (joined (?l :: ?ls)) with (String.append l (joined ls)).
    rewrite split_terminated by done. f_equal. by apply IH.
Qed.

Lemma pieces_cons l ls : pieces ls → terminated l → pieces (l :: ls).
Proof. intros Hp Hl. destruct ls; [by left|by split]. Qed.

Lemma split_pieces s : pieces (split_inclusive s) ∧ joined (split_inclusive s) = s.
Proof.
  induction s as [|a s [IHp IHj]]; [done|]. cbn [split_inclusive].
  destruct (Ascii.eqb_spec a newline) as [->|Ha].
  - split; [|cbn; by f_equal]. apply pieces_cons; [done|]. exists EmptyString. split; [|done].
    intros Hin. by apply elem_of_nil in Hin.
  - destruct (split_inclusive s) as [|l ls].
    + cbn in *. subst s. split; [|done]. right. split; [done|]. apply no_newline_cons. split; [done|].
      intros Hin. by apply elem_of_nil in Hin.
    + split; [|change (String a (joined (l :: ls)) = String a s); by f_equal].
      assert (∀ l, terminated l → terminated (String a l)) as Ht.
      { intros l1 (body & Hb & ->). exists (String a body). split; [by apply no_newline_cons|done]. }
      destruct ls as [|l' ls]; cbn in IHp |- *.
      * destruct IHp as [|[? ?]]; [left; by apply Ht|right]. split; [done|]. by apply no_newline_cons.
      * destruct IHp. split; [by apply Ht|done].
Qed.

Lemma pieces_sublist ls ls' : sublist ls' ls → pieces ls → pieces ls'.
Proof.
  induction 1 as [|l ls' ls Hs IH|l ls' ls Hs IH]; [done|..]; intros Hp.
  - destruct ls as [|l2 ls]; [by apply sublist_nil_r in Hs as ->|]. destruct Hp as [Ht Hp].
    apply pieces_cons; [by apply IH|done].
  - destruct ls as [|l2 ls]; [by apply sublist_nil_r in Hs as ->|]. destruct Hp as [Ht Hp]. by apply IH.
Qed.

(** *** Trimming a line ending *)
Lemma ws_not_ascii a b c : ws1 a = true → ws2 b a = false ∧ ws3 b c a = false.
Proof.
  intros Ha. assert (9 ≤ a ≤ 32)%Z as Hr by (unfold ws1 in Ha; bool_to_prop; lia).
  split; [unfold ws2|unfold ws3]; repeat (rewrite (proj2 (Z.eqb_neq a _)) by lia);
    rewrite ?(proj2 (Z.leb_gt _ a)) by lia; rewrite ?andb_false_r; done.
Qed.

Lemma trim_start_snoc n s a : str_len s ≤ n → ws1 (byte_of a) = true →
  trim_start (String.append s (String a EmptyString)) =
    if decide (trim_start s = EmptyString) then EmptyString
    else String.append (trim_start s) (String a EmptyString).
Proof.
  intros Hn Ha. revert s Hn. induction n as [|n IH]; intros s Hn.
  { destruct s; [|cbn in Hn; lia]. change (String.append EmptyString ?t) with t. cbn [trim_start]. by rewrite Ha. }
  destruct s as [|x s1]; [change (String.append EmptyString ?t) with t; cbn [trim_start]; by rewrite Ha|].
  rewrite str_app_cons. cbn [trim_start].
  destruct (ws1 (byte_of x)); [apply IH; unfold str_len in *; cbn in Hn; lia|].
  destruct s1 as [|y s2].
  { change (String.append EmptyString ?t) with t. cbn [trim_start].
    by rewrite (proj1 (ws_not_ascii (byte_of a) (byte_of x) 0 Ha)). }
  rewrite str_app_cons. destruct (ws2 (byte_of x) (byte_of y)); [apply IH; unfold str_len in *; cbn in Hn; lia|].
  destruct s2 as [|z s3].
  { change (String.append EmptyString ?t) with t. cbn [trim_start].
    by rewrite (proj2 (ws_not_ascii (byte_of a) (byte_of x) (byte_of y) Ha)). }
  rewrite str_app_cons. destruct (ws3 (byte_of x) (byte_of y) (byte_of z)); [apply IH; unfold str_len in *; cbn in Hn; lia|done].
Qed.

Lemma rev_append_snoc s a acc :
  rev_append (String.append s (String a EmptyString)) acc = String a (rev_append s acc).
Proof. revert acc. induction s as [|x s IH]; intros acc; [done|]. rewrite str_app_cons. cbn. apply IH. Qed.

Lemma trim_snoc s a : ws1 (byte_of a) = true → trim (String.append s (String a EmptyString)) = trim s.
Proof.
  intros Ha. unfold trim. rewrite (trim_start_snoc (str_len s)) by done.
  case_decide as Hd; [by rewrite Hd|]. unfold str_rev at 2. rewrite rev_append_snoc. cbn [trim_start_rev].
  by rewrite Ha.
Qed.

Lemma strip_suffix_some c s t : strip_suffix c s = Some t → s = String.append t (String c EmptyString).
Proof.
  revert t. induction s as [|a [|b s] IH]; intros t; [done|..].
  - cbn. destruct (Ascii.eqb_spec a c) as [->|]; [|done]. by intros [= <-].
  - change (strip_suffix c (String a (String b s))) with (String a <$> strip_suffix c (String b s)).
    destruct (strip_suffix c (String b s)) as [u|]; [|done]. intros [= <-]. rewrite str_app_cons. f_equal. by apply IH.
Qed.

Lemma trim_line_of l : trim (line_of l) = trim l.
Proof.
  unfold line_of. destruct (strip_suffix newline l) as [u|] eqn:E; [|done].
  apply strip_suffix_some in E as ->. rewrite trim_snoc by done.
  destruct (strip_suffix carriage_return u) as [v|] eqn:E; [|done]. apply strip_suffix_some in E as ->.
  cbn [default]. by rewrite trim_snoc.
Qed.

Lemma entries_pieces text : entries text = filter (λ l, is_entry l = true) (trim <$> split_inclusive text).
Proof.
  unfold entries, lines. rewrite <-list_fmap_compose. f_equal. apply list_fmap_ext. intros i l _.
  apply trim_line_of.
Qed.

(** ** What cleaning keeps *)
Lemma sublist_full {A} (l1 l2 : list A) : sublist l1 l2 → length l2 ≤ length l1 → l1 = l2.
Proof.
  induction 1 as [|x l1 l2 Hs IH|x l1 l2 Hs IH]; cbn; [done|intros; f_equal; apply IH; lia|].
  apply sublist_length in Hs. lia.
Qed.

Section cleaned.
Context (entry_key : string → option string).

(** No line before has the same key. *)
Definition first_with_key (before : list string) (l : string) : bool :=
  match line_key entry_key l with
  | Some k => bool_decide (k ∉ omap (line_key entry_key) before)
  | None => true
  end.
Fixpoint firsts (before ls : list string) : list string :=
  match ls with
  | [] => []
  | l :: ls => (if first_with_key before l then [l] else []) ++ firsts (before ++ [l]) ls
  end.

Lemma clean_lines_firsts seen before ls : (∀ k, k ∈ seen ↔ k ∈ omap (line_key entry_key) before) →
  let '(kept, removed) := clean_lines entry_key seen ls in
  kept = firsts before ls ∧ length kept + removed = length ls.
Proof.
  revert seen before. induction ls as [|l ls IH]; intros seen before Hs; [done|].
  cbn [clean_lines firsts]. unfold first_with_key. destruct (line_key entry_key l) as [k|] eqn:Ek.
  - case_decide as Hk.
    + rewrite bool_decide_eq_false_2 by (rewrite <-Hs; naive_solver). specialize (IH seen (before ++ [l])).
      destruct (clean_lines entry_key seen ls) as [kept removed]. destruct IH as [-> Hl]; [|cbn in *; split; [done|lia]].
      intros k'. rewrite omap_app, elem_of_app, <-Hs. cbn. rewrite Ek. set_solver.
    + rewrite bool_decide_eq_true_2 by (by rewrite <-Hs). specialize (IH ({[k]} ∪ seen) (before ++ [l])).
      destruct (clean_lines entry_key _ ls) as [kept removed]. destruct IH as [-> Hl]; [|cbn in *; split; [done|lia]].
      intros k'. rewrite omap_app, elem_of_app, <-Hs. cbn. rewrite Ek. set_solver.
  - specialize (IH seen (before ++ [l])). destruct (clean_lines entry_key seen ls) as [kept removed].
    destruct IH as [-> Hl]; [|cbn in *; split; [done|lia]].
    intros k'. rewrite omap_app, elem_of_app, <-Hs. cbn. rewrite Ek. set_solver.
Qed.

Lemma firsts_sublist before ls : sublist (firsts before ls) ls.
Proof.
  revert before. induction ls as [|l ls IH]; intros before; [constructor|]. cbn.
  destruct (first_with_key before l); cbn; by constructor.
Qed.

Lemma firsts_keys before ls :
  NoDup (omap (line_key entry_key) (firsts before ls)) ∧
  ∀ k, k ∈ omap (line_key entry_key) (firsts before ls) ↔
    k ∈ omap (line_key entry_key) ls ∧ k ∉ omap (line_key entry_key) before.
Proof.
  revert before. induction ls as [|l ls IH]; intros before; [cbn; split; [constructor|set_solver]|].
  destruct (IH (before ++ [l])) as [Hn Hk]. cbn [firsts omap list_omap]. rewrite omap_app in Hk.
  unfold first_with_key. destruct (line_key entry_key l) as [k|] eqn:Ek; cbn [omap list_omap] in Hk; rewrite Ek in Hk.
  - case_bool_decide as Hd; cbn [app omap list_omap]; rewrite ?Ek; cbn in Hk.
    + split.
      * constructor; [|done]. rewrite Hk. set_solver.
      * intros k'. rewrite elem_of_cons, Hk. destruct (decide (k' = k)) as [->|]; set_solver.
    + split; [done|]. intros k'. rewrite Hk, !elem_of_cons. split; [set_solver|].
      intros [[-> |?] ?]; [done|set_solver].
  - cbn [app omap list_omap]. rewrite Ek. split; [done|]. intros k'. rewrite Hk. set_solver.
Qed.

Lemma firsts_id before ls : NoDup (omap (line_key entry_key) ls) →
  (∀ k, k ∈ omap (line_key entry_key) ls → k ∉ omap (line_key entry_key) before) → firsts before ls = ls.
Proof.
  revert before. induction ls as [|l ls IH]; intros before Hn Hd; [done|]. cbn. unfold first_with_key.
  cbn in Hn, Hd. destruct (line_key entry_key l) as [k|] eqn:Ek.
  - apply NoDup_cons in Hn as [Hk Hn]. rewrite bool_decide_eq_true_2 by (apply Hd; set_solver). cbn. f_equal.
    apply IH; [done|]. intros k' Hk'. rewrite omap_app. cbn. rewrite Ek. specialize (Hd k'). set_solver.
  - cbn. f_equal. apply IH; [done|]. intros k' Hk'. rewrite omap_app. cbn. rewrite Ek, app_nil_r. auto.
Qed.

Lemma line_key_entry l k : line_key entry_key l = Some k ↔ is_entry (trim l) = true ∧ entry_key (trim l) = Some k.
Proof. unfold line_key. destruct (is_entry (trim l)); naive_solver. Qed.

(** Removing duplicates from a list.  The text that is left consists of
    exactly the lines whose entry has no key in common with an entry before
    it (lines without an entry or key all stay), in order, byte for byte;
    nothing else is dropped: every entry still has a representative with its
    key, once.  Nothing was removed exactly when the text is the old one, and
    cleaning the result again changes nothing. *)
Theorem scan_list_cleaned content :
  let '(cleaned, removed) := clean entry_key content in
  split_inclusive cleaned = firsts [] (split_inclusive content) ∧
  NoDup (omap entry_key (entries cleaned)) ∧
  (∀ e, e ∈ entries cleaned → e ∈ entries content) ∧
  (∀ e, e ∈ entries content → entry_key e = None ∨
    ∃ e', e' ∈ entries cleaned ∧ entry_key e' = entry_key e) ∧
  (removed = 0 ↔ cleaned = content) ∧ clean entry_key cleaned = (cleaned, 0).
Proof.
  assert (∀ ls : list string, omap entry_key (filter (λ l, is_entry l = true) (trim <$> ls)) = omap (line_key entry_key) ls) as Hkeys.
  { induction ls as [|l ls IH]; [done|]. cbn. unfold line_key at 1. rewrite <-IH.
    destruct (is_entry (trim l)) eqn:E; cbn; [done|]. done. }
  unfold clean. pose proof (clean_lines_firsts ∅ [] (split_inclusive content)) as Hc.
  destruct (clean_lines entry_key ∅ (split_inclusive content)) as [kept removed].
  destruct Hc as [-> Hl]; [set_solver|]. set (ls := split_inclusive content) in *.
  assert (split_inclusive (joined (firsts [] ls)) = firsts [] ls) as Hsplit.
  { apply split_joined, (pieces_sublist ls); [apply firsts_sublist|]. apply split_pieces. }
  change (foldr String.append EmptyString ?l) with (joined l). rewrite !entries_pieces, Hsplit.
  fold ls. rewrite Hkeys. destruct (firsts_keys [] ls) as [Hn Hk].
  assert (firsts [] (firsts [] ls) = firsts [] ls) as Hid by (apply firsts_id; [done|set_solver]).
  split; [done|]. split; [done|]. split; [|split; [|split]].
  - intros e. rewrite !list_elem_of_filter, !list_elem_of_fmap. intros [He (l & -> & Hl')]. split; [done|].
    exists l. split; [done|]. eapply elem_of_sublist; [done|]. apply firsts_sublist.
  - intros e. rewrite list_elem_of_filter, list_elem_of_fmap. intros [He (l & -> & Hl')].
    destruct (entry_key (trim l)) as [k|] eqn:Ek; [right|by left].
    assert (k ∈ omap (line_key entry_key) (firsts [] ls)) as Hin.
    { apply Hk. split; [|set_solver]. apply list_elem_of_omap. exists l. split; [done|]. by apply line_key_entry. }
    apply list_elem_of_omap in Hin as (l' & Hl1 & [Hi Hk']%line_key_entry). exists (trim l').
    split; [|congruence]. apply list_elem_of_filter. split; [done|]. by apply list_elem_of_fmap_2.
  - destruct (split_pieces content) as [_ Hj]. fold ls in Hj. rewrite <-Hj. split.
    + intros ->. f_equal. apply sublist_full; [apply firsts_sublist|lia].
    + intros Hj'. assert (firsts [] ls = ls) as Hf.
      { rewrite <-Hsplit, Hj'. apply split_joined. apply split_pieces. }
      rewrite Hf in Hl. lia.
  - pose proof (clean_lines_firsts ∅ [] (firsts [] ls)) as Hc.
    destruct (clean_lines entry_key ∅ (firsts [] ls)) as [kept' removed'].
    destruct Hc as [-> Hl']; [set_solver|]. rewrite Hid in *. by replace removed' with 0 by lia.
Qed.
End cleaned.

Definition line (s : string) : string := String.append s (String newline EmptyString).
Example duplicates_removed :
  clean sni_key (joined [line "# whitelist"; line "a.example"; line "b.example"; line " A.EXAMPLE "; "c.example"%string])
  = (joined [line "# whitelist"; line "a.example"; line "b.example"; "c.example"%string], 1).
Proof. vm_compute. reflexivity. Qed.

Example ip_text :
  (show_ip <$> [IpV6 [8193; 3512; 0; 0; 1; 0; 0; 1]; IpV6 [0; 0; 0; 0; 0; 0; 0; 1]; IpV6 [0; 0; 0; 0; 0; 65535; 258; 772];
    IpV6 [1; 0; 2; 3; 4; 5; 6; 7]; IpV4 16909060]%Z)
  = ["2001:db8::1:0:0:1"; "::1"; "::ffff:1.2.3.4"; "1:0:2:3:4:5:6:7"; "1.2.3.4"]%string.
Proof. vm_compute. reflexivity. Qed.
