(* ===== verification/ScannerHttp.v ===== *)
(** * The HTTP samples of the scanners

    Model of [crates/zerodpi-core/src/scanner_http.rs]: [parse_http_status],
    the download sample and the upload sample.  The stream is what the peer
    sends, the sizes of the reads are chosen by a schedule ([reads]); when the
    schedule ends, the timeout has struck.  Times are left to [f64] arguments. *)
From stdpp Require Import base list numbers strings.
From Stdlib Require Import ZArith Lia Ascii SpecFloat.
From S2P Require Import Prelude Text Config ScanList.
Local Open Scope nat_scope.
Local Open Scope list_scope.

(** ** Text of bytes *)
Definition of_bytes (l : list Z) : string :=
  String.string_of_list_ascii (map (λ b, ascii_of_N (Z.to_N b)) l).

Definition continuation (b : Z) : bool := ((0x80 <=? b) && (b <=? 0xBF))%Z.

(** [std::str::from_utf8] accepts the bytes. *)
Fixpoint valid_utf8 (l : list Z) : bool :=
  match l with
  | [] => true
  | a :: l1 =>
      if (a <? 0x80)%Z then valid_utf8 l1 else
      match l1 with
      | [] => false
      | b :: l2 =>
          if ((0xC2 <=? a) && (a <=? 0xDF))%Z then continuation b && valid_utf8 l2 else
          match l2 with
          | [] => false
          | c :: l3 =>
              let second3 := (if (a =? 0xE0) then (0xA0 <=? b) && (b <=? 0xBF)
                else if (a =? 0xED) then (0x80 <=? b) && (b <=? 0x9F)
                else continuation b)%Z in
              if ((0xE0 <=? a) && (a <=? 0xEF))%Z then second3 && continuation c && valid_utf8 l3 else
              match l3 with
              | [] => false
              | d :: l4 =>
                  let second4 := (if (a =? 0xF0) then (0x90 <=? b) && (b <=? 0xBF)
                    else if (a =? 0xF4) then (0x80 <=? b) && (b <=? 0x8F)
                    else continuation b)%Z in
                  ((0xF0 <=? a) && (a <=? 0xF4))%Z && second4 && continuation c && continuation d &&
                  valid_utf8 l4
              end
          end
      end
  end.

(** ** The status line *)
Definition parse_http_status (text : string) : option Z :=
  match lines text with
  | [] => None
  | line :: _ =>
      match split_char " " line with
      | version :: rest =>
          match strip_prefix "HTTP/" version with
          | None => None
          | Some _ => match rest with part :: _ => parse_unsigned 65535 part | [] => None end
          end
      | [] => None
      end
  end.
Definition status_of (line : list Z) : option Z :=
  if valid_utf8 line then parse_http_status (of_bytes line) else None.

(** [position(|b| *b == b'\n')] *)
Fixpoint newline_at (l : list Z) : option nat :=
  match l with
  | [] => None
  | b :: l => if (b =? 10)%Z then Some 0 else S <$> newline_at l
  end.

(** ** The download sample *)
Definition STATUS_LINE_MAX : nat := 1024.
Definition BUFFER : nat := 8 * 1024.

Record Sample := MkSample {
  total_read : nat;
  ttfb_seen : bool;
  status_line : list Z;
  status_line_complete : bool;
  status : option Z }.
Definition sample_start : Sample := MkSample 0 false [] false None.

(** One successful read. *)
Definition on_read (bytes : list Z) (s : Sample) : Sample :=
  let total := total_read s + length bytes in
  if status_line_complete s then MkSample total true (status_line s) true (status s) else
  let end_ := newline_at bytes in
  let taken := default (length bytes) end_ `min` (STATUS_LINE_MAX - length (status_line s)) in
  let line := status_line s ++ take taken bytes in
  let ended := match end_ with Some _ => true | None => false end in
  let complete := ended || (length line =? STATUS_LINE_MAX) in
  MkSample total true line complete (if complete && ended then status_of line else status s).

(** The bytes a read of at most [r] (at least 1) gives. *)
Definition read_size (cap r : nat) (stream : list Z) (s : Sample) : nat :=
  (1 `max` r) `min` ((cap `min` BUFFER) `min` (cap - total_read s)) `min` length stream.

Fixpoint download (cap : nat) (reads : list nat) (stream : list Z) (s : Sample) : Sample :=
  match reads with
  | [] => s
  | r :: reads =>
      if total_read s <? cap then
        let n := read_size cap r stream s in
        if n =? 0 then s else download cap reads (drop n stream) (on_read (take n stream) s)
      else s
  end.

(** Bytes per second; [elapsed] in seconds. *)
Definition speed_of (bytes : nat) (elapsed : f64) : option f64 :=
  if SFltb f64_zero elapsed then Some (SFdiv 53 1024 (f64_of_Z (Z.of_nat bytes)) elapsed) else None.

Definition measure_download (cap : nat) (reads : list nat) (stream : list Z) (ttfb_ms : Z) (elapsed : f64)
    : option Z * option f64 * option Z :=
  let s := download cap reads stream sample_start in
  (if ttfb_seen s then Some ttfb_ms else None,
   if 0 <? total_read s then speed_of (total_read s) elapsed else None,
   status s).

(** ** The upload sample *)

(** The response is read until it holds a newline or 1024 bytes. *)
Fixpoint read_response (reads : list nat) (stream response : list Z) : option (list Z) :=
  match reads with
  | [] => None   (* the timeout *)
  | r :: reads =>
      let n := (1 `max` r) `min` (STATUS_LINE_MAX - length response) `min` length stream in
      let response' := response ++ take n stream in
      if (n =? 0) || bool_decide (is_Some (newline_at response')) || (length response' =? STATUS_LINE_MAX)
      then Some response' else read_response reads (drop n stream) response'
  end.

Definition response_status (response : list Z) : option Z :=
  let line := take (default (length response) (newline_at response)) response in
  let line := match last line with
    | Some 13%Z => take (length line - 1) line
    | _ => line
    end in
  status_of line.

(** [request_sent], [body_sent]: the writes succeed in time. *)
Definition measure_upload (request_sent body_sent : bool) (upload_bytes : nat) (reads : list nat)
    (stream : list Z) (elapsed : f64) : option f64 :=
  if negb request_sent || negb body_sent then None else
  match read_response reads stream [] with
  | None | Some [] => None
  | Some response =>
      match response_status response with
      | None => None
      | Some _ => speed_of upload_bytes elapsed
      end
  end.

(** ** The download sample *)
Lemma newline_at_app l1 l2 :
  newline_at (l1 ++ l2) =
    match newline_at l1 with Some p => Some p | None => (Nat.add (length l1)) <$> newline_at l2 end.
Proof.
  induction l1 as [|b l1 IH]; cbn; [by destruct (newline_at l2)|].
  destruct (b =? 10)%Z; [done|]. rewrite IH. destruct (newline_at l1); [done|]. by destruct (newline_at l2).
Qed.

Lemma newline_at_lt l p : newline_at l = Some p → p < length l.
Proof.
  revert p. induction l as [|b l IH]; intros p; cbn; [done|]. destruct (b =? 10)%Z; [intros [= <-]; lia|].
  destruct (newline_at l); [|done]. intros [= <-]. specialize (IH _ eq_refl). lia.
Qed.

(** What the sample knows after having read [got]. *)
Record sampled (got : list Z) (s : Sample) : Prop := {
  sm_total : total_read s = length got;
  sm_ttfb : ttfb_seen s = negb (length got =? 0);
  sm_bound : length (status_line s) ≤ STATUS_LINE_MAX;
  sm_line : (status_line_complete s = false → status_line s = got ∧ newline_at got = None ∧
    length got < STATUS_LINE_MAX ∧ status s = None);
  sm_none : newline_at got = None → status s = None;
  sm_full : status_line_complete s = true → newline_at got = None → STATUS_LINE_MAX ≤ length got;
  sm_status : ∀ p, newline_at got = Some p → p < STATUS_LINE_MAX → status_line_complete s = true ∧
    status s = status_of (take p got) }.

Lemma sampled_start : sampled [] sample_start.
Proof. constructor; cbn; try done. lia. intros _. split_and!; try done. unfold STATUS_LINE_MAX. lia. Qed.

Lemma sampled_read got bytes s : sampled got s → bytes ≠ [] → sampled (got ++ bytes) (on_read bytes s).
Proof.
  intros Hs Hne. assert (0 < length bytes) as Hpos by (destruct bytes; [done|cbn; lia]).
  assert (true = negb (length (got ++ bytes) =? 0)) as Htt
    by (rewrite (proj2 (Nat.eqb_neq _ _)); [done|rewrite length_app; lia]).
  assert (total_read s + length bytes = length (got ++ bytes)) as Htot
    by (rewrite length_app; by rewrite (sm_total _ _ Hs)).
  unfold on_read. destruct (status_line_complete s) eqn:Ec.
  - constructor; cbn [total_read ttfb_seen status_line status_line_complete status]; rewrite ?newline_at_app;
      [done..|apply Hs|done| | |].
    + destruct (newline_at got) eqn:En; [done|]. intros _. by apply (sm_none _ _ Hs).
    + intros _. destruct (newline_at got) eqn:En; [done|]. intros _.
      pose proof (sm_full _ _ Hs Ec En). rewrite length_app. lia.
    + intros p. destruct (newline_at got) as [q|] eqn:En.
      * intros [= <-] Hp. pose proof (newline_at_lt _ _ En). destruct (sm_status _ _ Hs q En Hp) as [_ ->].
        split; [done|]. by rewrite take_app_le by lia.
      * destruct (newline_at bytes) as [q|]; [|done]. intros [= <-] Hp. pose proof (sm_full _ _ Hs Ec En). lia.
  - destruct (sm_line _ _ Hs Ec) as (Hl & Hn & Hlt & Hst). rewrite Hl, Hst.
    destruct (newline_at bytes) as [q|] eqn:Eq; cbn [default].
    + pose proof (newline_at_lt _ _ Eq) as Hq. cbn [orb andb].
      constructor; cbn [total_read ttfb_seen status_line status_line_complete status]; rewrite ?newline_at_app, ?Hn, ?Eq;
        [done..| |done|done|done|].
      * rewrite length_app, length_take. lia.
      * intros p [= <-] Hp. split; [done|]. rewrite take_app_ge by lia.
        unfold id. rewrite Nat.min_l by lia. by replace (length got + q - length got) with q by lia.
    + rewrite andb_false_r. rewrite orb_false_l.
      constructor; cbn [total_read ttfb_seen status_line status_line_complete status]; rewrite ?newline_at_app, ?Hn, ?Eq;
        [done..| | |done| |done].
      * rewrite length_app, length_take. lia.
      * intros Hc%Nat.eqb_neq. rewrite length_app, length_take in Hc.
        rewrite take_ge by lia. split_and!; [done..| |done]. rewrite length_app. lia.
      * intros Hc%Nat.eqb_eq _. rewrite length_app, length_take in Hc. rewrite length_app. lia.
Qed.

Lemma download_sampled cap reads stream got s : sampled got s → length got ≤ cap →
  ∃ more, sampled (got ++ take more stream) (download cap reads stream s) ∧ more ≤ length stream ∧
    length got + more ≤ cap.
Proof.
  revert stream got s. induction reads as [|r reads IH]; intros stream got s Hs Hcap.
  { exists 0. cbn. rewrite app_nil_r. split_and!; try done; lia. }
  cbn [download]. destruct (Nat.ltb_spec (total_read s) cap) as [Hlt|Hge].
  2: { exists 0. rewrite take_0, app_nil_r. split_and!; try done; lia. }
  rewrite (sm_total _ _ Hs) in Hlt. set (n := read_size cap r stream s).
  assert (n ≤ length stream ∧ n ≤ cap - length got) as [Hn1 Hn2].
  { unfold n, read_size. rewrite (sm_total _ _ Hs). lia. }
  destruct (Nat.eqb_spec n 0) as [|Hn0]; [exists 0; rewrite take_0, app_nil_r; split_and!; try done; lia|].
  destruct (IH (drop n stream) (got ++ take n stream) (on_read (take n stream) s)) as (more & Hm & Hml & Hmc).
  - apply sampled_read; [done|]. intros E%(f_equal length). rewrite length_take in E. cbn in E. lia.
  - rewrite length_app, length_take. lia.
  - rewrite length_drop in Hml. rewrite length_app, length_take in Hmc. exists (n + more).
    split; [|lia]. by rewrite <-app_assoc, take_take_drop in Hm.
Qed.

Lemma download_enough cap reads stream s : cap - total_read s ≤ length reads → total_read s ≤ cap →
  total_read (download cap reads stream s) = cap `min` (total_read s + length stream).
Proof.
  assert (0 < BUFFER) as Hbuf by (unfold BUFFER; lia). generalize dependent s. revert stream.
  induction reads as [|r reads IH]; intros stream s Hr Hc; cbn [download]; [cbn in Hr; lia|].
  destruct (Nat.ltb_spec (total_read s) cap); [|lia].
  assert (0 < length stream → 0 < read_size cap r stream s) as Hpos by (unfold read_size; lia).
  assert (read_size cap r stream s ≤ length stream ∧ read_size cap r stream s ≤ cap - total_read s) as [Hle Hle']
    by (unfold read_size; lia).
  set (n := read_size cap r stream s) in *. destruct (Nat.eqb_spec n 0) as [|Hn]; [lia|].
  assert (total_read (on_read (take n stream) s) = total_read s + n) as Ht.
  { unfold on_read. rewrite length_take, Nat.min_l by done. by destruct (status_line_complete s). }
  cbn in Hr. rewrite IH; rewrite Ht, ?length_drop; lia.
Qed.

Lemma newline_at_take l n p : newline_at l = Some p →
  newline_at (take n l) = if p <? n then Some p else None.
Proof.
  revert n p. induction l as [|b l IH]; intros [|n] p; cbn; [done|done| |].
  - by intros _.
  - destruct (b =? 10)%Z; [by intros [= <-]|]. destruct (newline_at l) as [q|]; [|done]. intros [= <-].
    rewrite (IH n q eq_refl). change (q <? n) with (S q <=? n). by destruct (S q <=? n).
Qed.

Lemma newline_at_take_none l n : newline_at l = None → newline_at (take n l) = None.
Proof.
  intros Hl. rewrite <-(take_drop n l), newline_at_app in Hl. by destruct (newline_at (take n l)).
Qed.

(** The download sample, however the stream is cut into reads.  It reads no
    more than its cap, and given time up to the cap or the end; a time to first
    byte is taken exactly when something was read; no more than 1024 bytes of
    status line are kept.  A status line of less than 1024 bytes gives the same
    status however it arrives, as soon as its end has been read. *)
Theorem download_sample cap reads stream :
  let s := download cap reads stream sample_start in
  total_read s ≤ cap ∧ total_read s ≤ length stream ∧
  (cap ≤ length reads → total_read s = cap `min` length stream) ∧
  ttfb_seen s = negb (total_read s =? 0) ∧ length (status_line s) ≤ STATUS_LINE_MAX ∧
  (newline_at stream = None → status s = None) ∧
  (∀ p, newline_at stream = Some p → p < STATUS_LINE_MAX →
    status s = if p <? total_read s then status_of (take p stream) else None).
Proof.
  intros s. destruct (download_sampled cap reads stream [] sample_start sampled_start) as (more & Hs & Hm & Hc); [cbn; lia|].
  change ([] ++ take more stream) with (take more stream) in Hs. fold s in Hs. cbn in Hc.
  pose proof (sm_total _ _ Hs) as Ht. rewrite length_take, Nat.min_l in Ht by done. rewrite Ht.
  split; [done|]. split; [done|]. split.
  { intros Hr. rewrite <-Ht. unfold s. rewrite download_enough; cbn; lia. }
  split; [rewrite (sm_ttfb _ _ Hs), length_take, Nat.min_l by done; done|]. split; [apply Hs|]. split.
  - intros Hn. apply (sm_none _ _ Hs). by apply newline_at_take_none.
  - intros p Hp Hlt. pose proof (newline_at_take stream more p Hp) as Hn. destruct (Nat.ltb_spec p more).
    + destruct (sm_status _ _ Hs p Hn Hlt) as [_ ->]. rewrite take_take. do 2 f_equal. lia.
    + by apply (sm_none _ _ Hs).
Qed.

(** *** Examples *)
Definition http (s : string) : list Z := as_bytes s ++ [13; 10]%Z.
Example split_status_line :
  status (download 1024 [7; 3; 100] (http "HTTP/1.1 204 No Content" ++ [255; 254]%Z) sample_start) = Some 204%Z.
Proof. vm_compute. reflexivity. Qed.

(** The carriage return stays on a line without a reason phrase; the upload
    sample strips it. *)
Example no_reason_phrase : let response := http "HTTP/1.1 200" in
  status (download 1024 [100] response sample_start) = None ∧ response_status response = Some 200%Z.
Proof. vm_compute. done. Qed.

(** A line of more than 1024 bytes has a status or not, as its end arrives in
    the same read or in another. *)
Definition long_line : list Z := as_bytes "HTTP/1.1 200 " ++ replicate 1100 120%Z ++ [10%Z].
Example long_status_line :
  status (download 4096 [4096] long_line sample_start) = Some 200%Z ∧
  status (download 4096 [1024; 4096] long_line sample_start) = None.
Proof. vm_compute. done. Qed.
