(* ===== verification/Scanner.v ===== *)
(** * The scanners

    Model of [crates/zerodpi-core/src/ip_scanner.rs] and [sni_scanner.rs]: what
    one probe finds and its score, the ranking, and the IP scan with its two
    bounded phases ([scan_ip_list]).  The fields an [IpProbeEntry] and an
    [SniProbeEntry] share are [Measures], and their common formula is one
    [compute_score].  What the network answers a probe is a [ProbeChance]; the
    order in which tasks end is a list of [Join]s. *)
From stdpp Require Import base list numbers strings.
From Stdlib Require Import ZArith Lia SpecFloat Sorted.
From S2P Require Import Prelude Text NetAddr Config ScanList ScannerHttp.
Local Open Scope nat_scope.
Local Open Scope list_scope.

(** ** Entries *)
Record Measures := MkMeasures {
  tcp_latency_ms : option Z;
  tls_ok : bool;
  tls_latency_ms : option Z;
  cert_valid : bool;
  ttfb_ms : option Z;
  download_bps : option f64;
  upload_bps : option f64;
  http_status : option Z }.

Record SniProbeEntry := MkSniProbe {
  sp_sni : string; sp_ip : Z; sp_measures : Measures; sp_score : Z }.
Record IpProbeEntry := MkIpProbe {
  ipp_ip : IpAddr; ipp_measures : Measures; ipp_score : Z }.
Definition sp_tcp_latency_ms (e : SniProbeEntry) : option Z := tcp_latency_ms (sp_measures e).
Definition ipp_tcp_latency_ms (e : IpProbeEntry) : option Z := tcp_latency_ms (ipp_measures e).

(** ** The score, in 64-bit floating point *)
Definition f64_add : f64 → f64 → f64 := SFadd 53 1024.
Definition f64_sub : f64 → f64 → f64 := SFsub 53 1024.
Definition f64_mul : f64 → f64 → f64 := SFmul 53 1024.
Definition f64_div : f64 → f64 → f64 := SFdiv 53 1024.
Definition f64_min (a b : f64) : f64 :=
  match a, b with
  | S754_nan, _ => b
  | _, S754_nan => a
  | _, _ => if SFltb b a then b else a
  end.

(** [x.round() as u8]: half away from zero, saturating. *)
Definition round_to_u8 (x : f64) : Z :=
  match x with
  | S754_finite false m e =>
      Z.min 255 (if (0 <=? e)%Z then Z.pos m * 2 ^ e
                 else (Z.pos m + 2 ^ (- e - 1)) / 2 ^ (- e))
  | S754_infinity false => 255
  | _ => 0
  end.

Definition f64_15_halves : f64 := binary_normalize 53 1024 15 (-1) false.   (* 7.5 *)
(** [points * (1.0 - (ms as f64 / cap).min(1.0))] *)
Definition latency_points (points : Z) (cap : f64) (ms : option Z) : f64 :=
  match ms with
  | None => f64_zero
  | Some ms => f64_mul (f64_of_Z points)
      (f64_sub (f64_of_Z 1) (f64_min (f64_div (f64_of_Z ms) cap) (f64_of_Z 1)))
  end.
(** [7.5 * (bps / cap).min(1.0)] *)
Definition speed_points (cap : f64) (bps : option f64) : f64 :=
  match bps with
  | None => f64_zero
  | Some bps => f64_mul f64_15_halves (f64_min (f64_div bps cap) (f64_of_Z 1))
  end.
Definition flat_points (points : Z) (b : bool) : f64 := if b then f64_of_Z points else f64_zero.
Definition is_some {A} (o : option A) : bool := match o with Some _ => true | None => false end.

Definition compute_score (config : Config) (e : Measures) : Z :=
  let all_present := is_some (tcp_latency_ms e) && tls_ok e && cert_valid e && is_some (ttfb_ms e) &&
    is_some (download_bps e) && is_some (upload_bps e) in
  round_to_u8 (foldl f64_add (latency_points 25 (TCP_LATENCY_CAP_MS config) (tcp_latency_ms e))
    [ flat_points 10 (tls_ok e);
      latency_points 15 (TLS_LATENCY_CAP_MS config) (tls_latency_ms e);
      flat_points 5 (cert_valid e);
      latency_points 20 (TTFB_CAP_MS config) (ttfb_ms e);
      speed_points (SPEED_CAP_BPS config) (download_bps e);
      speed_points (UPLOAD_SPEED_CAP_BPS config) (upload_bps e);
      flat_points 10 all_present ]).

(** ** One probe *)

(** The upload connection: connecting, its handshake, the writes, the response. *)
Record UploadChance := MkUpload {
  up_connected : bool; up_tls : bool; up_request_sent : bool; up_body_sent : bool;
  up_reads : list nat; up_stream : list Z; up_elapsed : f64 }.
(** What a probe meets behind a first TCP connection: connecting again (only
    the IP scanner does), the handshake with its latency, the request, the
    download and the upload. *)
Record ProbeChance := MkProbe {
  pb_connected : bool;
  pb_tls_ms : option Z;
  pb_request_sent : bool;
  pb_reads : list nat; pb_stream : list Z; pb_ttfb_ms : Z; pb_elapsed : f64;
  pb_upload : UploadChance }.

Definition blank : Measures := MkMeasures None false None false None None None None.
Definition with_tcp (ms : option Z) : Measures := MkMeasures ms false None false None None None None.

Section probe.
Context (valid_name : string → bool) (config : Config).

(** [probe_ip_upload] and [probe_sni_upload]. *)
Definition probe_upload (sni : string) (u : UploadChance) : option f64 :=
  if up_connected u && valid_name sni && up_tls u then
    measure_upload (up_request_sent u) (up_body_sent u) (Z.to_nat (SCAN_UPLOAD_CAP config))
      (up_reads u) (up_stream u) (up_elapsed u)
  else None.

(** The phases behind the handshake. *)
Definition http_phase (sni : string) (tcp_ms tls_ms : Z) (c : ProbeChance) : Measures :=
  let '(ttfb_ms, download_bps, http_status) :=
    if pb_request_sent c then
      measure_download (Z.to_nat (SCAN_DOWNLOAD_CAP config)) (pb_reads c) (pb_stream c) (pb_ttfb_ms c)
        (pb_elapsed c)
    else (None, None, None) in
  let upload_bps := match ttfb_ms with Some _ => probe_upload sni (pb_upload c) | None => None end in
  MkMeasures (Some tcp_ms) true (Some tls_ms) true ttfb_ms download_bps upload_bps http_status.

Definition scored_ip (ip : IpAddr) (e : Measures) : IpProbeEntry := MkIpProbe ip e (compute_score config e).
Definition scored_sni (sni : string) (ip : Z) (e : Measures) : SniProbeEntry :=
  MkSniProbe sni ip e (compute_score config e).

Definition tcp_only_entry (ip : IpAddr) (tcp_latency_ms : option Z) : IpProbeEntry :=
  scored_ip ip (with_tcp tcp_latency_ms).

Definition probe_tls_ttfb (ip : IpAddr) (tcp_latency_ms : Z) (sni : string) (c : ProbeChance)
    : IpProbeEntry :=
  if negb (pb_connected c) || negb (valid_name sni) then tcp_only_entry ip (Some tcp_latency_ms) else
  match pb_tls_ms c with
  | None => scored_ip ip (with_tcp (Some tcp_latency_ms))
  | Some tls_ms => scored_ip ip (http_phase sni tcp_latency_ms tls_ms c)
  end.

(** [tcp]: the latency of the first connection, [None] when it failed. *)
Definition probe_ip_candidate (ip : IpAddr) (scan_sni : string) (tcp : option Z) (c : ProbeChance)
    : IpProbeEntry :=
  match tcp with
  | Some tcp_ms => probe_tls_ttfb ip tcp_ms scan_sni c
  | None => tcp_only_entry ip None
  end.

(** [probe_sni_ip] and [probe_sni_candidate]. *)
Definition probe_sni_ip (sni : string) (ip : Z) (tcp : option Z) (c : ProbeChance) : SniProbeEntry :=
  match tcp with
  | None => scored_sni sni ip blank
  | Some tcp_ms =>
      if negb (valid_name sni) then scored_sni sni ip (with_tcp (Some tcp_ms)) else
      match pb_tls_ms c with
      | None => scored_sni sni ip (with_tcp (Some tcp_ms))
      | Some tls_ms => scored_sni sni ip (http_phase sni tcp_ms tls_ms c)
      end
  end.
End probe.

(** ** Ranking: [sort_by], which is stable *)
Section sort.
Context {A : Type} (le : A → A → bool).
Fixpoint sorted_insert (x : A) (l : list A) : list A :=
  match l with
  | [] => [x]
  | y :: l' => if le x y then x :: l else y :: sorted_insert x l'
  end.
Definition sort_by (l : list A) : list A := foldr sorted_insert [] l.
End sort.

Definition u64_max : Z := 2 ^ 64 - 1.
(** Not behind: a higher score, or the same and no greater TCP latency. *)
Definition ranked (score : Z) (latency : option Z) (score' : Z) (latency' : option Z) : bool :=
  (score' <? score)%Z || (score' =? score)%Z && (default u64_max latency <=? default u64_max latency')%Z.
Definition ip_ranked (a b : IpProbeEntry) : bool :=
  ranked (ipp_score a) (ipp_tcp_latency_ms a) (ipp_score b) (ipp_tcp_latency_ms b).
Definition sni_ranked (a b : SniProbeEntry) : bool :=
  ranked (sp_score a) (sp_tcp_latency_ms a) (sp_score b) (sp_tcp_latency_ms b).

(** ** The IP scan *)
Inductive IpScanEvent := TcpDone (tcp_tested : nat) | ProbeComplete (e : IpProbeEntry).

Record Scan := MkScan {
  sc_ips : list IpAddr;              (* not started *)
  sc_p1 : list IpAddr;               (* TCP tasks *)
  sc_pending : list (IpAddr * Z);
  sc_p2 : list (IpAddr * Z);         (* TLS tasks *)
  sc_all : list IpProbeEntry;
  sc_tcp_tested : nat;
  sc_events : list IpScanEvent }.

(** The task that ends next, with what it has found; [None]: it panicked. *)
Inductive Join :=
  | JoinTcp (i : nat) (r : option (option Z))
  | JoinTls (i : nat) (c : option ProbeChance).

Section scan.
Context (valid_name : string → bool) (config : Config) (scan_sni : string).

Definition p1_limit : nat := Z.to_nat (IP_MAX_P1_CONCURRENT config `max` 1).
Definition p2_limit : nat := Z.to_nat (IP_MAX_P2_CONCURRENT config `max` 1).

Fixpoint start_p2 (pending p2 : list (IpAddr * Z)) : list (IpAddr * Z) * list (IpAddr * Z) :=
  match pending with
  | x :: pending' => if length p2 <? p2_limit then start_p2 pending' (p2 ++ [x]) else (pending, p2)
  | [] => ([], p2)
  end.
Fixpoint start_p1 (pending : nat) (ips p1 : list IpAddr) : list IpAddr * list IpAddr :=
  match ips with
  | ip :: ips' =>
      if (length p1 <? p1_limit) && (pending <? p2_limit) then start_p1 pending ips' (p1 ++ [ip])
      else (ips, p1)
  | [] => ([], p1)
  end.

(** The two loops at the head of an iteration. *)
Definition fill (s : Scan) : Scan :=
  let '(pending, p2) := start_p2 (sc_pending s) (sc_p2 s) in
  let '(ips, p1) := start_p1 (length pending) (sc_ips s) (sc_p1 s) in
  MkScan ips p1 pending p2 (sc_all s) (sc_tcp_tested s) (sc_events s).

Definition scan_finished (s : Scan) : bool :=
  match sc_p1 s, sc_p2 s, sc_pending s, sc_ips s with [], [], [], [] => true | _, _, _, _ => false end.

(** The branches of [select!]. *)
Definition join (j : Join) (s : Scan) : option Scan :=
  match j with
  | JoinTcp i r =>
      ip ← sc_p1 s !! i;
      let p1 := delete i (sc_p1 s) in
      Some match r with
      | None => MkScan (sc_ips s) p1 (sc_pending s) (sc_p2 s) (sc_all s) (sc_tcp_tested s) (sc_events s)
      | Some tcp_ms =>
          let tested := S (sc_tcp_tested s) in
          let events := sc_events s ++ [TcpDone tested] in
          match tcp_ms with
          | Some ms => MkScan (sc_ips s) p1 (sc_pending s ++ [(ip, ms)]) (sc_p2 s) (sc_all s) tested events
          | None => MkScan (sc_ips s) p1 (sc_pending s) (sc_p2 s)
              (sc_all s ++ [tcp_only_entry config ip None]) tested events
          end
      end
  | JoinTls i c =>
      '(ip, ms) ← sc_p2 s !! i;
      let p2 := delete i (sc_p2 s) in
      Some match c with
      | None => MkScan (sc_ips s) (sc_p1 s) (sc_pending s) p2 (sc_all s) (sc_tcp_tested s) (sc_events s)
      | Some c =>
          let entry := probe_tls_ttfb valid_name config ip ms scan_sni c in
          MkScan (sc_ips s) (sc_p1 s) (sc_pending s) p2 (sc_all s ++ [entry]) (sc_tcp_tested s)
            (sc_events s ++ [ProbeComplete entry])
      end
  end.

Inductive ScanResult :=
  | Finished (entries : list IpProbeEntry) (events : list IpScanEvent)
  | Waiting (s : Scan)        (* [select!] waits for a task *)
  | NoSuchTask.

Fixpoint scan_loop (joins : list Join) (s : Scan) : ScanResult :=
  let s := fill s in
  if scan_finished s then Finished (sort_by ip_ranked (sc_all s)) (sc_events s) else
  match joins with
  | [] => Waiting s
  | j :: joins => match join j s with Some s => scan_loop joins s | None => NoSuchTask end
  end.

Definition scan_start (ips : list IpAddr) : Scan := MkScan ips [] [] [] [] 0 [].
Definition scan_ip_list `{Ranges Net} (filter : ScanFilter Net) (ips : list IpAddr) (joins : list Join)
    : ScanResult :=
  match retain filter ips with
  | [] => Finished [] []
  | ips => scan_loop joins (scan_start ips)
  end.
End scan.

(** ** Sorting *)
Section sorting.
Context {A : Type} (le : A → A → bool).
Hypothesis le_total : ∀ x y, le x y = false → le y x = true.
Hypothesis le_trans : ∀ x y z, le x y = true → le y z = true → le x z = true.

Lemma sorted_insert_perm x l : sorted_insert le x l ≡ₚ x :: l.
Proof.
  induction l as [|y l IH]; [done|]. cbn. destruct (le x y); [done|]. rewrite IH. apply Permutation_swap.
Qed.

Lemma sort_by_perm l : sort_by le l ≡ₚ l.
Proof. induction l as [|x l IH]; [done|]. cbn. by rewrite sorted_insert_perm, IH. Qed.

Lemma sorted_insert_sorted x l :
  StronglySorted (λ a b, le a b = true) l → StronglySorted (λ a b, le a b = true) (sorted_insert le x l).
Proof.
  induction 1 as [|y l Hl IH Hy]; cbn; [by repeat constructor|]. destruct (le x y) eqn:Hxy.
  - constructor; [by constructor|]. constructor; [done|]. eapply Forall_impl; [done|]. cbn. eauto.
  - constructor; [done|]. rewrite sorted_insert_perm. constructor; [by apply le_total|done].
Qed.

Lemma sort_by_sorted l : StronglySorted (λ a b, le a b = true) (sort_by le l).
Proof. induction l as [|x l IH]; cbn; [constructor|by apply sorted_insert_sorted]. Qed.

(** Entries that tie keep their order. *)
Definition ties (x y : A) : Prop := le x y = true ∧ le y x = true.
#[global] Instance ties_dec x y : Decision (ties x y) := _.

Lemma sorted_insert_filter x y l : StronglySorted (λ a b, le a b = true) l →
  filter (ties x) (sorted_insert le y l) = filter (ties x) (y :: l).
Proof.
  induction 1 as [|z l Hl IH Hz]; cbn [sorted_insert]; [done|]. destruct (le y z) eqn:Hyz; [done|].
  rewrite filter_cons, IH. clear IH. rewrite !filter_cons. destruct (decide (ties x y)) as [[? ?]|].
  - destruct (decide (ties x z)) as [[Hxz Hzx]|]; [|done]. assert (le y z = true) by eauto. congruence.
  - done.
Qed.

Lemma sort_by_stable x l : filter (ties x) (sort_by le l) = filter (ties x) l.
Proof.
  induction l as [|y l IH]; [done|]. cbn [sort_by foldr].
  rewrite sorted_insert_filter by apply sort_by_sorted. rewrite !filter_cons. fold (sort_by le l).
  by rewrite IH.
Qed.
End sorting.

Definition latency_or_max (l : option Z) : Z := default u64_max l.
Lemma ranked_spec s l s' l' :
  ranked s l s' l' = true ↔ (s' < s ∨ s' = s ∧ latency_or_max l ≤ latency_or_max l')%Z.
Proof. unfold ranked, latency_or_max. cbn. lia. Qed.

Lemma ranked_total s l s' l' : ranked s l s' l' = false → ranked s' l' s l = true.
Proof.
  intros Hf. apply ranked_spec. destruct (decide (ranked s l s' l' = true)) as [?|Hn]; [congruence|].
  rewrite ranked_spec in Hn. lia.
Qed.

Lemma ranked_trans s l s' l' s'' l'' :
  ranked s l s' l' = true → ranked s' l' s'' l'' = true → ranked s l s'' l'' = true.
Proof. rewrite !ranked_spec. lia. Qed.

Lemma ip_ranked_sorted l : StronglySorted (λ a b, ip_ranked a b = true) (sort_by ip_ranked l).
Proof. apply sort_by_sorted; unfold ip_ranked; eauto using ranked_total, ranked_trans. Qed.
Lemma sni_ranked_sorted l : StronglySorted (λ a b, sni_ranked a b = true) (sort_by sni_ranked l).
Proof. apply sort_by_sorted; unfold sni_ranked; eauto using ranked_total, ranked_trans. Qed.
Lemma ip_ranked_stable x l :
  filter (ties ip_ranked x) (sort_by ip_ranked l) = filter (ties ip_ranked x) l.
Proof. apply sort_by_stable; unfold ip_ranked; eauto using ranked_total, ranked_trans. Qed.

(** ** What the IP scan keeps *)
Lemma compute_score_blank config ms : compute_score config (with_tcp None) = 0%Z ∧
  compute_score config (with_tcp ms) = round_to_u8 (foldl f64_add
    (latency_points 25 (TCP_LATENCY_CAP_MS config) ms) (replicate 7 f64_zero)).
Proof. split; [by vm_compute|]. unfold compute_score. cbn. by rewrite !andb_false_r. Qed.

Section scan_invariant.
Context (valid_name : string → bool) (config : Config) (scan_sni : string).
Implicit Types (s : Scan) (j : Join).
#[local] Notation p1_limit := (p1_limit config).
#[local] Notation p2_limit := (p2_limit config).
#[local] Notation fill := (fill config).
#[local] Notation join := (join valid_name config scan_sni).

(** Every address the scan was given, wherever it is now. *)
Definition held s : list IpAddr :=
  sc_ips s ++ sc_p1 s ++ (sc_pending s).*1 ++ (sc_p2 s).*1 ++ (ipp_ip <$> sc_all s).
(** What is left to do, in joins. *)
Definition work s : nat :=
  2 * length (sc_ips s) + 2 * length (sc_p1 s) + length (sc_pending s) + length (sc_p2 s).
Definition entry_scored (e : IpProbeEntry) : Prop := ipp_score e = compute_score config (ipp_measures e).
(** The events so far: the TCP results numbered from one, and the entries of
    the TLS tasks. *)
Definition tcp_numbers (es : list IpScanEvent) : list nat :=
  omap (λ e, match e with TcpDone n => Some n | ProbeComplete _ => None end) es.
Definition probe_entries (es : list IpScanEvent) : list IpProbeEntry :=
  omap (λ e, match e with TcpDone _ => None | ProbeComplete e => Some e end) es.
Definition reached (e : IpProbeEntry) : Prop := is_Some (ipp_tcp_latency_ms e).
#[global] Instance reached_dec e : Decision (reached e) := _.

Record scan_ok s : Prop := {
  ok_p1 : length (sc_p1 s) ≤ p1_limit;
  ok_p2 : length (sc_p2 s) ≤ p2_limit;
  ok_backlog : length (sc_p1 s) + length (sc_pending s) < p1_limit + p2_limit;
  ok_scored : Forall entry_scored (sc_all s);
  ok_numbers : tcp_numbers (sc_events s) = seq 1 (sc_tcp_tested s);
  ok_events : probe_entries (sc_events s) = filter reached (sc_all s) }.

Lemma limits_positive : 0 < p1_limit ∧ 0 < p2_limit.
Proof. unfold Scanner.p1_limit, Scanner.p2_limit. lia. Qed.

Lemma start_p2_spec pending p2 pending' p2' : start_p2 config pending p2 = (pending', p2') →
  p2' ++ pending' = p2 ++ pending ∧ (length p2 ≤ p2_limit → length p2' ≤ p2_limit) ∧
  length pending' ≤ length pending ∧ (p2' = [] → pending' = []).
Proof.
  revert p2. induction pending as [|x pending IH]; cbn [start_p2]; intros p2 Hs.
  - injection Hs as <- <-. by rewrite app_nil_r.
  - destruct (_ <? _) eqn:Hlt; bool_to_prop.
    + apply IH in Hs as (Ho & Hl & Hn & He). rewrite length_app in Hl. cbn in Hl.
      rewrite <- app_assoc in Ho. repeat split; [done|lia|cbn; lia|done].
    + injection Hs as <- <-. split; [done|]. repeat split; [lia|lia|]. intros ->. cbn in *.
      pose proof limits_positive. lia.
Qed.

Lemma start_p1_spec pending ips p1 ips' p1' : start_p1 config pending ips p1 = (ips', p1') →
  p1' ++ ips' = p1 ++ ips ∧ (length p1 ≤ p1_limit → length p1' ≤ p1_limit) ∧
  (length p1 + pending < p1_limit + p2_limit → length p1' + pending < p1_limit + p2_limit) ∧
  (p1' = [] → pending < p2_limit → ips' = []).
Proof.
  revert p1. induction ips as [|x ips IH]; cbn [start_p1]; intros p1 Hs.
  - injection Hs as <- <-. by rewrite app_nil_r.
  - destruct (_ && _) eqn:Hlt; bool_to_prop.
    + apply IH in Hs as (Ho & Hl & Hb & He). rewrite length_app in Hl, Hb. cbn in Hl, Hb.
      rewrite <- app_assoc in Ho. repeat split; [done|lia|lia|done].
    + injection Hs as <- <-. split; [done|]. repeat split; [lia|lia|]. intros -> ?.
      cbn [length] in Hlt. pose proof limits_positive. destruct Hlt; bool_to_prop; lia.
Qed.

Lemma fill_ok s : scan_ok s →
  scan_ok (fill s) ∧ held (fill s) ≡ₚ held s ∧ work (fill s) = work s ∧
  sc_all (fill s) = sc_all s ∧
  (scan_finished (fill s) = false → sc_p1 (fill s) ≠ [] ∨ sc_p2 (fill s) ≠ []).
Proof.
  intros [H1 H2 Hb Hs Hn He]. unfold Scanner.fill, held, work.
  destruct (start_p2 _ _ _) as [pending p2] eqn:E2. apply start_p2_spec in E2 as (O2 & L2 & N2 & P2).
  destruct (start_p1 _ _ _ _) as [ips p1] eqn:E1. apply start_p1_spec in E1 as (O1 & L1 & B1 & P1).
  cbn [sc_ips sc_p1 sc_pending sc_p2 sc_all].
  pose proof (f_equal length O2) as N2'. pose proof (f_equal length O1) as N1'.
  rewrite !length_app in N2', N1'.
  split_and!; [constructor; cbn; auto; lia| |lia|done|].
  - assert (ips ++ p1 ≡ₚ sc_ips s ++ sc_p1 s) as Hp1 by (by rewrite (Permutation_app_comm ips), O1, Permutation_app_comm).
    assert (pending.*1 ++ p2.*1 ≡ₚ (sc_pending s).*1 ++ (sc_p2 s).*1) as Hp2.
    { by rewrite <- !fmap_app, (Permutation_app_comm pending), O2, Permutation_app_comm. }
    by rewrite (app_assoc ips), Hp1, (app_assoc (pending.*1)), Hp2, <- !app_assoc.
  - unfold scan_finished. cbn. destruct p1 as [|], p2 as [|]; auto. rewrite P2 by done. intros Hf.
    rewrite P1 in Hf; [done..|]. rewrite P2 by done. apply limits_positive.
Qed.

Definition panicked j : Prop := match j with JoinTcp _ None | JoinTls _ None => True | _ => False end.

Lemma probe_tls_ttfb_entry ip ms sni c :
  let e := probe_tls_ttfb valid_name config ip ms sni c in
  ipp_ip e = ip ∧ entry_scored e ∧ reached e.
Proof.
  cbn. unfold probe_tls_ttfb. destruct (_ || _); [by repeat eexists|].
  destruct (pb_tls_ms c); [|by repeat eexists]. unfold http_phase, reached, ipp_tcp_latency_ms.
  destruct (if pb_request_sent c then _ else _) as [[??]?]. by repeat eexists.
Qed.

Lemma events_snoc es e :
  tcp_numbers (es ++ [e]) = tcp_numbers es ++ (if e is TcpDone n then [n] else []) ∧
  probe_entries (es ++ [e]) = probe_entries es ++ (if e is ProbeComplete e then [e] else []).
Proof. unfold tcp_numbers, probe_entries. rewrite !omap_app. by destruct e. Qed.

Lemma reached_snoc es e :
  filter reached (es ++ [e]) = filter reached es ++ (match decide (reached e) with left _ => [e] | right _ => [] end).
Proof. rewrite filter_app, filter_cons, filter_nil. by destruct (decide (reached e)). Qed.

(** Where the address of an ended task goes. *)
Lemma regroup_pending ip (a b c d : list IpAddr) : a ++ b ++ (c ++ [ip]) ++ d ≡ₚ a ++ (ip :: b) ++ c ++ d.
Proof. rewrite <- ?app_assoc. cbn. by rewrite <- ?Permutation_middle. Qed.
Lemma regroup_failed ip (a b c d e : list IpAddr) :
  a ++ b ++ c ++ d ++ e ++ [ip] ≡ₚ a ++ (ip :: b) ++ c ++ d ++ e.
Proof. cbn. by rewrite <- ?Permutation_middle, ?app_nil_r. Qed.
Lemma regroup_probed ip (a b c d e : list IpAddr) :
  a ++ b ++ c ++ d ++ e ++ [ip] ≡ₚ a ++ b ++ c ++ (ip :: d) ++ e.
Proof. cbn. by rewrite <- ?Permutation_middle, ?app_nil_r. Qed.

Lemma removed ip (a b b' c : list IpAddr) : b ≡ₚ ip :: b' → a ++ b' ++ c ⊆+ a ++ b ++ c.
Proof. intros ->. apply submseteq_app; [done|]. apply submseteq_app; [|done]. by apply submseteq_cons. Qed.

(** A TCP task and a TLS task that end. *)
Lemma join_tcp_ok i r s s' : join (JoinTcp i r) s = Some s' → scan_ok s →
  scan_ok s' ∧ work s' < work s ∧ held s' ⊆+ held s ∧ (is_Some r → held s' ≡ₚ held s).
Proof.
  cbn. intros Hj [H1 H2 Hb Hs Hn He]. destruct (sc_p1 s !! i) as [ip|] eqn:Hi; [|done]. injection Hj as <-.
  pose proof (delete_Permutation _ _ _ Hi) as Hp. pose proof (Permutation_length Hp) as Hlen. cbn in Hlen.
  generalize dependent (delete i (sc_p1 s)). intros p1 Hp Hlen.
  destruct (events_snoc (sc_events s) (TcpDone (S (sc_tcp_tested s)))) as [En Ep].
  rewrite app_nil_r in Ep. unfold work, held.
  assert (∀ l l' : list IpAddr, l ≡ₚ l' → l ⊆+ l') as Hsub by (intros ?? ->; done).
  destruct r as [[ms|]|]; (split_and!;
    [constructor; cbn [sc_ips sc_p1 sc_pending sc_p2 sc_all sc_events sc_tcp_tested]| | |intros Hr]);
    cbn [sc_ips sc_p1 sc_pending sc_p2 sc_all]; rewrite ?En, ?Ep, ?length_app, ?fmap_app, ?reached_snoc;
    cbn [length]; auto; try lia.
  - by rewrite Hn, (seq_S _ 1).
  - apply Hsub. rewrite Hp. apply (regroup_pending ip).
  - rewrite Hp. apply (regroup_pending ip).
  - apply Forall_app_2; [done|]. by repeat constructor.
  - by rewrite Hn, (seq_S _ 1).
  - by rewrite He, decide_False, app_nil_r by (by intros [? ?]).
  - apply Hsub. rewrite Hp. apply (regroup_failed ip).
  - rewrite Hp. apply (regroup_failed ip).
  - by apply (removed ip).
  - by destruct Hr.
Qed.

Lemma join_tls_ok i c s s' : join (JoinTls i c) s = Some s' → scan_ok s →
  scan_ok s' ∧ work s' < work s ∧ held s' ⊆+ held s ∧ (is_Some c → held s' ≡ₚ held s).
Proof.
  cbn. intros Hj [H1 H2 Hb Hs Hn He]. destruct (sc_p2 s !! i) as [[ip ms]|] eqn:Hi; [|done]. cbn in Hj.
  injection Hj as <-.
  pose proof (delete_Permutation _ _ _ Hi) as Hp. pose proof (Permutation_length Hp) as Hlen. cbn in Hlen.
  generalize dependent (delete i (sc_p2 s)). intros p2 Hp Hlen.
  assert ((sc_p2 s).*1 ≡ₚ ip :: p2.*1) as Hp' by (by rewrite Hp).
  unfold work, held. destruct c as [c|]; cbn [sc_ips sc_p1 sc_pending sc_p2 sc_all].
  - destruct (probe_tls_ttfb_entry ip ms scan_sni c) as (Eip & Hsc & Hre). set (e := probe_tls_ttfb _ _ _ _ _ _) in *.
    destruct (events_snoc (sc_events s) (ProbeComplete e)) as [En Ep]. rewrite app_nil_r in En.
    assert (sc_ips s ++ sc_p1 s ++ (sc_pending s).*1 ++ p2.*1 ++ (ipp_ip <$> (sc_all s ++ [e])) ≡ₚ
      sc_ips s ++ sc_p1 s ++ (sc_pending s).*1 ++ (sc_p2 s).*1 ++ (ipp_ip <$> sc_all s)) as Hm.
    { rewrite Hp', fmap_app. cbn. rewrite Eip. apply (regroup_probed ip). }
    split_and!; [constructor; cbn [sc_ips sc_p1 sc_pending sc_p2 sc_all sc_events sc_tcp_tested]| | |];
      rewrite ?En, ?Ep, ?reached_snoc, ?He, ?decide_True by done; auto; try lia.
    + apply Forall_app_2; [done|]. by repeat constructor.
    + by rewrite Hm.
  - split_and!; [constructor; cbn; auto; lia|lia| |by intros []].
    rewrite !(app_assoc (sc_p1 s)), !(app_assoc (sc_ips s)). by apply (removed ip).
Qed.

Lemma join_ok j s s' : join j s = Some s' → scan_ok s →
  scan_ok s' ∧ work s' < work s ∧ held s' ⊆+ held s ∧ (¬ panicked j → held s' ≡ₚ held s).
Proof.
  intros Hj Hok. destruct j as [i r|i c].
  - destruct (join_tcp_ok _ _ _ _ Hj Hok) as (? & ? & ? & Hp). split_and!; [done..|]. intros Hn. apply Hp.
    destruct r; [done|by destruct Hn].
  - destruct (join_tls_ok _ _ _ _ Hj Hok) as (? & ? & ? & Hp). split_and!; [done..|]. intros Hn. apply Hp.
    destruct c; [done|by destruct Hn].
Qed.

(** Nothing is invented, and only a task that panics loses its address. *)
Definition kept (joins : list Join) (now before : list IpAddr) : Prop :=
  now ⊆+ before ∧ (Forall (λ j, ¬ panicked j) joins → now ≡ₚ before).

#[global] Instance kept_proper joins : Proper ((≡ₚ) ==> (≡ₚ) ==> iff) (kept joins).
Proof. intros l1 l2 Hl l1' l2' Hl'. unfold kept. by rewrite Hl, Hl'. Qed.

Lemma kept_step j joins a b c : kept joins a b → b ⊆+ c → (¬ panicked j → b ≡ₚ c) → kept (j :: joins) a c.
Proof.
  intros [Hs Hp] Hbc Hj. split; [by etrans|]. intros [Hn Hf]%Forall_cons. by rewrite Hp, Hj.
Qed.

(** A task that may end next. *)
Lemma some_task s : sc_p1 s ≠ [] ∨ sc_p2 s ≠ [] → ∃ j, is_Some (join j s).
Proof.
  intros [Hn|Hn].
  - destruct (sc_p1 s) as [|ip p1] eqn:E; [done|]. exists (JoinTcp 0 None). cbn. rewrite E. by eexists.
  - destruct (sc_p2 s) as [|[ip ms] p2] eqn:E; [done|]. exists (JoinTls 0 None). cbn. rewrite E. by eexists.
Qed.

#[local] Notation scan_loop := (scan_loop valid_name config scan_sni).

Lemma scan_loop_ok joins s : scan_ok s →
  match scan_loop joins s with
  | Finished entries events => ∃ all n,
      entries = sort_by ip_ranked all ∧ kept joins (ipp_ip <$> all) (held s) ∧ Forall entry_scored all ∧
      tcp_numbers events = seq 1 n ∧ probe_entries events = filter reached all
  | Waiting s' =>
      scan_ok s' ∧ length joins + work s' ≤ work s ∧ kept joins (held s') (held s) ∧
      (∃ j, is_Some (join j s'))
  | NoSuchTask => ∃ before j after s', joins = before ++ j :: after ∧
      scan_loop before s = Waiting s' ∧ join j s' = None
  end.
Proof.
  revert s. induction joins as [|j joins IH]; intros s Hok;
    destruct (fill_ok s Hok) as (Hok' & Hh & Hw & Hall & Hrun); cbn [Scanner.scan_loop];
    destruct (scan_finished _) eqn:Hf.
  1,3: exists (sc_all (fill s)), (sc_tcp_tested (fill s)); destruct Hok'; split_and!; auto;
    rewrite <- Hh; unfold held, scan_finished in *;
    destruct (sc_p1 _), (sc_p2 _), (sc_pending _), (sc_ips _); done.
  - split_and!; [done|cbn [length]; lia|by rewrite Hh|]. by apply some_task, Hrun.
  - destruct (join j (fill s)) as [s'|] eqn:Hj.
    + destruct (join_ok _ _ _ Hj Hok') as (Hs & Hlt & Hsub & Hkeep). specialize (IH s' Hs).
      rewrite Hh in Hsub, Hkeep. destruct (scan_loop joins s') as [es ev|s''|].
      * destruct IH as (all & n & He & Hk & ?). exists all, n. split; [done|]. split; [|done].
        by eapply kept_step.
      * destruct IH as (? & Hl & Hk & ?). cbn [length]. split_and!; [done|lia| |done]. by eapply kept_step.
      * destruct IH as (before & j' & after & s2 & -> & Hw2 & Hj'). exists (j :: before), j', after, s2.
        split_and!; [done| |done]. cbn [Scanner.scan_loop]. by rewrite Hf, Hj.
    + exists [], j, joins, (fill s). split_and!; [done| |done]. cbn [Scanner.scan_loop]. by rewrite Hf.
Qed.
End scan_invariant.

(** (C13) A scan of a list of addresses, whatever its tasks find and in
    whatever order they end.  While it runs it has at most
    [IP_MAX_P1_CONCURRENT] TCP tasks and [IP_MAX_P2_CONCURRENT] TLS tasks, and
    its backlog is bounded; it never waits without a task that can end; and it
    is over after at most two tasks per address.  When it is over its entries
    are ranked, best score first and then lowest latency, each with the score
    of its measures, and they are the candidates the filter allows, each as
    often as it was listed: only a task that panics loses its address.  The
    events number the TCP results from one on and carry the entry of every
    reached address; entries that tie are ranked in the order of their events. *)
Theorem ip_scan_complete `{Ranges Net} valid_name config scan_sni (cf : ScanFilter Net) ips joins :
  match scan_ip_list valid_name config scan_sni cf ips joins with
  | Finished entries events =>
      StronglySorted (λ a b, ip_ranked a b = true) entries ∧
      Forall (λ e, ipp_score e = compute_score config (ipp_measures e)) entries ∧
      kept joins (ipp_ip <$> entries) (retain cf ips) ∧
      (∃ n, tcp_numbers events = seq 1 n) ∧
      (∀ x, filter reached (filter (ties ip_ranked x) entries) = filter (ties ip_ranked x) (probe_entries events))
  | Waiting s =>
      length (sc_p1 s) ≤ p1_limit config ∧ length (sc_p2 s) ≤ p2_limit config ∧
      length (sc_p1 s) + length (sc_pending s) < p1_limit config + p2_limit config ∧
      kept joins (held s) (retain cf ips) ∧
      (∃ j, is_Some (join valid_name config scan_sni j s)) ∧
      length joins < 2 * length (retain cf ips)
  | NoSuchTask => ∃ before j after s, joins = before ++ j :: after ∧
      scan_ip_list valid_name config scan_sni cf ips before = Waiting s ∧
      join valid_name config scan_sni j s = None
  end.
Proof.
  unfold scan_ip_list. destruct (retain cf ips) as [|ip l].
  { split_and!; [constructor|constructor|by split|by exists 0|done]. }
  set (s0 := scan_start (ip :: l)).
  assert (scan_ok config s0) as Hok.
  { pose proof (limits_positive config). constructor; cbn; auto; lia. }
  assert (held s0 = ip :: l) as Hh by (unfold held; cbn; by rewrite app_nil_r).
  pose proof (scan_loop_ok valid_name config scan_sni joins s0 Hok) as Hl. rewrite Hh in Hl.
  destruct (scan_loop valid_name config scan_sni joins s0) as [es ev|s|]; [| |done].
  - destruct Hl as (all & n & -> & Hk & Hs & Hn & He). split_and!.
    + apply ip_ranked_sorted.
    + by rewrite sort_by_perm.
    + by rewrite sort_by_perm.
    + by exists n.
    + intros x. rewrite ip_ranked_stable, He. rewrite !list_filter_filter. apply list_filter_iff. naive_solver.
  - destruct Hl as ([] & Hw & Hk & Hj). split_and!; try done.
    assert (work s0 = 2 * length (ip :: l)) as Hw0 by (unfold work; cbn; lia).
    destruct Hj as (j & s' & Hj). destruct (join_ok valid_name config scan_sni j s s') as (_ & Hlt & _); [done|by constructor|].
    lia.
Qed.

Definition perfect : Measures :=
  MkMeasures (Some 0%Z) true (Some 0%Z) true (Some 0%Z) (Some (f64_of_Z (2 ^ 40))) (Some (f64_of_Z (2 ^ 40))) None.
Example perfect_scores_100 : compute_score (default_config "127.0.0.1" 443) perfect = 100%Z.
Proof. by vm_compute. Qed.
(** A connection at once and nothing behind it scores 25; none at all scores 0,
    and is an entry all the same. *)
Example tcp_only_scores :
  (λ ms, ipp_score (tcp_only_entry (default_config "127.0.0.1" 443) (IpV4 1) ms)) <$> [Some 0%Z; Some 250%Z; None]
  = [25; 13; 0]%Z.
Proof. by vm_compute. Qed.
