(* ===== verification/SniScan.v ===== *)
(** * The SNI scan

    Model of [scan_sni_list] and [probe_sni] of
    [crates/zerodpi-core/src/sni_scanner.rs] and of the resolver of [dns.rs]
    they ask.  A worker task per host name resolves it and spawns a probe task
    per allowed address; the probes of all workers share one semaphore.  The
    scheduler is a list of [Action]s: [act] is the state after one of them, and
    [None] when the program is not in a position to take it. *)
From stdpp Require Import base list numbers strings.
From Stdlib Require Import ZArith Lia Sorted.
From S2P Require Import Prelude Text NetAddr Config ScanList ScannerHttp Scanner.
Local Open Scope nat_scope.
Local Open Scope list_scope.

(** ** The resolver *)

(** What one lookup ends with. *)
Inductive Answer := Addresses (ips : list IpAddr) | Failed (error : string) | TimedOut.

(** The reasons [lookup_ipv4] collects. *)
Inductive Reason := NoIpv4Addresses | ResolverError (error : string) | TimedOutAfter.
Inductive LookupError :=
  | SystemLookup
  | AllCustomServersFailed (failures : list (SocketAddr * Reason)).
Inductive Lookup := Found (addresses : list Z) | NotFound (e : LookupError).

Definition v4_of (ip : IpAddr) : option Z := match ip with IpV4 a => Some a | IpV6 _ => None end.

(** [DnsResolver::from_config], the servers. *)
Definition from_config (cfg : Config) : result (list SocketAddr) := custom_dns_servers cfg.

Section resolver.
(** What the system resolver and each custom server answer. *)
Context (system : Answer) (ask : SocketAddr → Answer).

(** With the servers asked, in order. *)
Fixpoint ask_custom (servers : list SocketAddr) (failures : list (SocketAddr * Reason))
    : Lookup * list SocketAddr :=
  match servers with
  | [] => (NotFound (AllCustomServersFailed failures), [])
  | server :: servers =>
      let go_on reason :=
        let '(r, asked) := ask_custom servers (failures ++ [(server, reason)]) in (r, server :: asked) in
      match ask server with
      | Addresses ips =>
          match omap v4_of ips with
          | [] => go_on NoIpv4Addresses
          | addresses => (Found addresses, [server])
          end
      | Failed e => go_on (ResolverError e)
      | TimedOut => go_on TimedOutAfter
      end
  end.

Definition lookup_ipv4 (custom_servers : list SocketAddr) : Lookup * list SocketAddr :=
  match custom_servers with
  | [] =>
      (match system with
       | Addresses ips => Found (omap v4_of ips)
       | _ => NotFound SystemLookup
       end, [])
  | _ => ask_custom custom_servers []
  end.
End resolver.

(** ** The scan *)

(** Where a worker is: in its lookup, in its loop over the addresses, or in
    [join_next] because it has [SNI_MAX_CONCURRENT] probe tasks. *)
Inductive Phase := Resolving (answer : Lookup) | Spawning (addrs : list Z) | Full (addrs : list Z).
Record Worker := MkWorker {
  wk_sni : string;
  wk_phase : Phase;
  wk_running : list Z;                       (* probes that hold a permit *)
  wk_ended : list (option SniProbeEntry);    (* ended and not joined; [None]: panicked *)
  wk_out : list SniProbeEntry }.

Record SniScan := MkSniScan {
  ss_hostnames : list (string * Lookup);     (* with what its lookup is going to find *)
  ss_workers : list Worker;
  ss_permits : nat;
  ss_results : list SniProbeEntry;
  ss_sent : list SniProbeEntry }.            (* to [progress_tx] *)

Inductive Action :=
  | StartWorker
  | LookedUp (w : nat)
  | Proceed (w : nat)
  | ProbeEnds (w k : nat) (found : option (option Z * ProbeChance))
  | JoinProbe (w k : nat)
  | JoinWorker (w : nat).

Section scan.
Context `{Ranges Net} (valid_name : string → bool) (config : Config) (cf : ScanFilter Net).

Definition limit : nat := Z.to_nat (SNI_MAX_CONCURRENT config `max` 1).

Definition with_worker (w : nat) (k : Worker) (s : SniScan) : SniScan :=
  MkSniScan (ss_hostnames s) (<[w := k]> (ss_workers s)) (ss_permits s) (ss_results s) (ss_sent s).
Definition with_permits (n : nat) (s : SniScan) : SniScan :=
  MkSniScan (ss_hostnames s) (ss_workers s) n (ss_results s) (ss_sent s).
Definition sent (e : SniProbeEntry) (s : SniScan) : SniScan :=
  MkSniScan (ss_hostnames s) (ss_workers s) (ss_permits s) (ss_results s) (ss_sent s ++ [e]).

(** The next address of a worker: skipped, or probed once there is a permit. *)
Definition proceed (w : nat) (k : Worker) (s : SniScan) : option SniScan :=
  match wk_phase k with
  | Spawning (ip :: addrs) =>
      if negb (allows cf (IpV4 ip)) then
        Some (with_worker w (MkWorker (wk_sni k) (Spawning addrs) (wk_running k) (wk_ended k) (wk_out k)) s)
      else
        match ss_permits s with
        | 0 => None
        | S n =>
            let running := wk_running k ++ [ip] in
            let phase := if limit <=? length running + length (wk_ended k) then Full addrs else Spawning addrs in
            Some (with_permits n (with_worker w (MkWorker (wk_sni k) phase running (wk_ended k) (wk_out k)) s))
        end
  | _ => None
  end.

(** [join_next] of a worker, in its loop or behind it. *)
Definition join_probe (w i : nat) (k : Worker) (s : SniScan) : option SniScan :=
  r ← wk_ended k !! i;
  let out := wk_out k ++ option_list r in
  let next phase := MkWorker (wk_sni k) phase (wk_running k) (delete i (wk_ended k)) out in
  match wk_phase k with
  | Full addrs => Some (with_worker w (next (Spawning addrs)) s)
  | Spawning [] => Some (with_worker w (next (Spawning [])) s)
  | _ => None
  end.

Definition worker_done (k : Worker) : bool :=
  match wk_phase k, wk_running k, wk_ended k with Spawning [], [], [] => true | _, _, _ => false end.

Definition act (a : Action) (s : SniScan) : option SniScan :=
  match a with
  | StartWorker =>
      match ss_hostnames s with
      | (sni, answer) :: hostnames =>
          if length (ss_workers s) <? limit then
            Some (MkSniScan hostnames (ss_workers s ++ [MkWorker sni (Resolving answer) [] [] []])
              (ss_permits s) (ss_results s) (ss_sent s))
          else None
      | [] => None
      end
  | LookedUp w =>
      k ← ss_workers s !! w;
      match wk_phase k with
      | Resolving answer =>
          let addrs := match answer with Found addrs => addrs | NotFound _ => [] end in
          Some (with_worker w (MkWorker (wk_sni k) (Spawning addrs) (wk_running k) (wk_ended k) (wk_out k)) s)
      | _ => None
      end
  | Proceed w => k ← ss_workers s !! w; proceed w k s
  | ProbeEnds w i found =>
      k ← ss_workers s !! w;
      ip ← wk_running k !! i;
      let ended r :=
        with_permits (S (ss_permits s)) (with_worker w (MkWorker (wk_sni k) (wk_phase k)
          (delete i (wk_running k)) (wk_ended k ++ [r]) (wk_out k)) s) in
      match found with
      | Some (tcp, c) =>
          let entry := probe_sni_ip valid_name config (wk_sni k) ip tcp c in
          Some (sent entry (ended (Some entry)))
      | None => Some (ended None)
      end
  | JoinProbe w i => k ← ss_workers s !! w; join_probe w i k s
  | JoinWorker w =>
      k ← ss_workers s !! w;
      if worker_done k && (is_nil (ss_hostnames s) || (limit <=? length (ss_workers s))) then
        Some (MkSniScan (ss_hostnames s) (delete w (ss_workers s)) (ss_permits s)
          (ss_results s ++ wk_out k) (ss_sent s))
      else None
  end.

Definition act_all (actions : list Action) (s : SniScan) : option SniScan :=
  foldl (λ s a, s ≫= act a) (Some s) actions.

Definition sni_start (hostnames : list (string * Lookup)) : SniScan := MkSniScan hostnames [] limit [] [].
(** [None => break]: no task is left and no name to start one for. *)
Definition sni_finished (s : SniScan) : bool := is_nil (ss_hostnames s) && is_nil (ss_workers s).
Definition sni_results (s : SniScan) : list SniProbeEntry := sort_by sni_ranked (ss_results s).

(** [scan_sni_list], [dns] the answers and [actions] the schedule. *)
Definition scan_sni_list (file : option string) (replaced : bool) (dns : nat → string → Lookup)
    (actions : list Action) : result (option SniScan) :=
  match scan_hostnames file replaced (DEDUPLICATE_SCAN_LISTS config) with
  | Err e => Err e
  | Ok hostnames =>
      match from_config config with
      | Err e => Err e
      | Ok _ => Ok (act_all actions (sni_start (imap (λ i h, (h, dns i h)) hostnames)))
      end
  end.
End scan.

(** ** What the resolver returns *)
Section resolver_facts.
Context (system : Answer) (ask : SocketAddr → Answer).

Definition v4_answer (a : Answer) : list Z := match a with Addresses ips => omap v4_of ips | _ => [] end.
Definition reason_of (a : Answer) : Reason :=
  match a with Addresses _ => NoIpv4Addresses | Failed e => ResolverError e | TimedOut => TimedOutAfter end.

Lemma ask_custom_spec servers failures :
  (∃ pre server post, servers = pre ++ server :: post ∧
     Forall (λ s, v4_answer (ask s) = []) pre ∧ v4_answer (ask server) ≠ [] ∧
     ask_custom ask servers failures = (Found (v4_answer (ask server)), pre ++ [server])) ∨
  (Forall (λ s, v4_answer (ask s) = []) servers ∧
   ask_custom ask servers failures =
     (NotFound (AllCustomServersFailed (failures ++ ((λ s, (s, reason_of (ask s))) <$> servers))), servers)).
Proof.
  revert failures. induction servers as [|s servers IH]; intros failures; [right; by rewrite app_nil_r|].
  assert (∀ f, v4_answer (ask s) = [] → f = reason_of (ask s) →
    ask_custom ask (s :: servers) failures =
      (let '(r, asked) := ask_custom ask servers (failures ++ [(s, f)]) in (r, s :: asked))) as Hgo.
  { intros f Hv ->. cbn. destruct (ask s) as [ips| |]; cbn in *; [by rewrite Hv|done..]. }
  destruct (decide (v4_answer (ask s) = [])) as [Hv|Hv].
  - rewrite (Hgo _ Hv eq_refl). destruct (IH (failures ++ [(s, reason_of (ask s))])) as [(pre & s' & post & -> & Hp & Hn & ->)|[Hf ->]].
    + left. exists (s :: pre), s', post. by repeat constructor.
    + right. split; [by constructor|]. cbn. by rewrite <- app_assoc.
  - left. exists [], s, servers. split_and!; [done|done|done|]. cbn.
    destruct (ask s) as [ips| |]; cbn in *; [|done..]. by destruct (omap v4_of ips).
Qed.
End resolver_facts.

(** ** Permits, work and addresses *)
Lemma sum_list_with_cons {A} (f : A → nat) x l : sum_list_with f (x :: l) = f x + sum_list_with f l.
Proof. done. Qed.

Section sni_invariant.
Context `{Ranges Net} (valid_name : string → bool) (config : Config) (cf : ScanFilter Net).
Implicit Types (s : SniScan) (k : Worker) (a : Action).
#[local] Notation limit := (limit config).
#[local] Notation act := (act valid_name config cf).

Definition addrs_left k : list Z :=
  match wk_phase k with
  | Resolving (Found addrs) => addrs
  | Resolving (NotFound _) => []
  | Spawning addrs | Full addrs => addrs
  end.
Definition tasks k : nat := length (wk_running k) + length (wk_ended k).
Definition entries_of k : list SniProbeEntry := omap id (wk_ended k) ++ wk_out k.
Definition allowed (addrs : list Z) : list Z := filter (λ ip, allows cf (IpV4 ip) = true) addrs.
Definition sni_pair (e : SniProbeEntry) : string * Z := (sp_sni e, sp_ip e).
Definition entry_ranked (e : SniProbeEntry) : Prop := sp_score e = compute_score config (sp_measures e).

(** The pairs a worker answers for, and the actions it has before it. *)
Definition pairs_of k : list (string * Z) :=
  (pair (wk_sni k) <$> allowed (addrs_left k) ++ wk_running k) ++ (sni_pair <$> entries_of k).
Definition worker_work k : nat :=
  1 + (if wk_phase k is Resolving _ then 1 else 0) +
  3 * length (addrs_left k) + 2 * length (wk_running k) + length (wk_ended k).
Definition name_pairs (h : string * Lookup) : list (string * Z) :=
  match h.2 with Found addrs => pair h.1 <$> allowed addrs | NotFound _ => [] end.
Definition name_work (h : string * Lookup) : nat :=
  3 + match h.2 with Found addrs => 3 * length addrs | NotFound _ => 0 end.

Definition due s : list (string * Z) :=
  (ss_hostnames s ≫= name_pairs) ++ (ss_workers s ≫= pairs_of) ++ (sni_pair <$> ss_results s).
Definition sni_work s : nat :=
  sum_list_with name_work (ss_hostnames s) + sum_list_with worker_work (ss_workers s).
Definition running s : nat := sum_list_with (λ k, length (wk_running k)) (ss_workers s).

Definition worker_ok k : Prop :=
  match wk_phase k with
  | Resolving _ => wk_running k = [] ∧ wk_ended k = [] ∧ wk_out k = []
  | Spawning _ => tasks k < limit
  | Full _ => tasks k = limit
  end.

Record sni_ok s : Prop := {
  so_permits : ss_permits s + running s = limit;
  so_workers : length (ss_workers s) ≤ limit;
  so_worker : Forall worker_ok (ss_workers s);
  so_sent : ss_sent s ≡ₚ ss_results s ++ (ss_workers s ≫= entries_of);
  so_ranked : Forall entry_ranked (ss_sent s) }.

Lemma limit_positive : 0 < limit.
Proof. unfold SniScan.limit. lia. Qed.

Definition panics a : Prop := match a with ProbeEnds _ _ None => True | _ => False end.

(** One action: the invariant, progress, and what becomes of the pairs. *)
Definition advances a s s' : Prop :=
  sni_ok s' ∧ sni_work s' < sni_work s ∧ due s' ⊆+ due s ∧ (¬ panics a → due s' ≡ₚ due s).

(** An action of the worker at [w]. *)
Lemma worker_advances a s w k k' permits news :
  ss_workers s !! w = Some k → sni_ok s → worker_ok k' →
  permits + length (wk_running k') = ss_permits s + length (wk_running k) →
  worker_work k' < worker_work k →
  pairs_of k' ⊆+ pairs_of k → (¬ panics a → pairs_of k' ≡ₚ pairs_of k) →
  entries_of k' ≡ₚ entries_of k ++ news → Forall entry_ranked news →
  advances a s (MkSniScan (ss_hostnames s) (<[w := k']> (ss_workers s)) permits (ss_results s) (ss_sent s ++ news)).
Proof.
  intros Hk [H1 H2 H3 H4 H5] Hok Hperm Hwork Hsub Hp He Hr.
  destruct (list_elem_of_split_length _ _ _ Hk) as (l1 & l2 & Hl & Hw).
  subst w. rewrite Hl, (insert_app_r_alt _ _ _ k'), Nat.sub_diag by done. unfold running in *. cbn [insert list_insert].
  rewrite Hl in *. rewrite !length_app in *. rewrite sum_list_with_app in H1. cbn in H1, H2.
  apply Forall_app in H3 as [H3 [H3' H3'']%Forall_cons].
  split_and!; [constructor|..]; cbn [ss_hostnames ss_workers ss_permits ss_results ss_sent].
  - unfold running. cbn. rewrite sum_list_with_app. cbn. lia.
  - rewrite length_app. cbn. lia.
  - by apply Forall_app_2; [|apply Forall_cons].
  - rewrite H4, !bind_app, !bind_cons, He, <- !app_assoc. do 3 f_equiv. apply Permutation_app_comm.
  - by apply Forall_app_2.
  - unfold sni_work. cbn [ss_hostnames ss_workers]. rewrite Hl, !sum_list_with_app, !sum_list_with_cons. lia.
  - unfold due. cbn [ss_hostnames ss_workers ss_results]. rewrite Hl, !bind_app, !bind_cons.
    apply submseteq_app, submseteq_app; [done| |done]. apply submseteq_app, submseteq_app; done.
  - intros Hn. unfold due. cbn [ss_hostnames ss_workers ss_results]. by rewrite Hl, !bind_app, !bind_cons, (Hp Hn).
Qed.

(** ... that loses no pair and ends no probe. *)
Lemma worker_moves a s w k k' permits :
  ss_workers s !! w = Some k → sni_ok s → worker_ok k' →
  permits + length (wk_running k') = ss_permits s + length (wk_running k) →
  worker_work k' < worker_work k → wk_sni k' = wk_sni k → entries_of k' ≡ₚ entries_of k →
  allowed (addrs_left k') ++ wk_running k' ≡ₚ allowed (addrs_left k) ++ wk_running k →
  advances a s (MkSniScan (ss_hostnames s) (<[w := k']> (ss_workers s)) permits (ss_results s) (ss_sent s)).
Proof.
  intros Hk Hok Hw Hp Hl Hs He Hm. rewrite <- (app_nil_r (ss_sent s)).
  assert (pairs_of k' ≡ₚ pairs_of k) as Hpairs by (unfold pairs_of; by rewrite Hs, Hm, He).
  eapply worker_advances; [done..|by rewrite Hpairs|done|by rewrite app_nil_r|done].
Qed.

Lemma worker_ok_at s w k : sni_ok s → ss_workers s !! w = Some k → worker_ok k.
Proof. intros Hok. apply Forall_lookup_1, so_worker, Hok. Qed.

Lemma looked_up_advances w s s' : act (LookedUp w) s = Some s' → sni_ok s → advances (LookedUp w) s s'.
Proof.
  cbn. intros Ha Hok. destruct (ss_workers s !! w) as [k|] eqn:Hk; [|done]. cbn in Ha.
  pose proof (worker_ok_at _ _ _ Hok Hk) as Hw. unfold worker_ok in Hw.
  destruct (wk_phase k) as [answer| |] eqn:Hph; [|done..]. injection Ha as <-. destruct Hw as (Er & Ee & Eo).
  eapply worker_moves; [done|done| |done| |done|done|].
  - unfold worker_ok, tasks. cbn. rewrite Er, Ee. apply limit_positive.
  - unfold worker_work, addrs_left. cbn. rewrite Hph. destruct answer; lia.
  - unfold addrs_left. cbn. rewrite Hph. by destruct answer.
Qed.

Lemma proceed_advances w s s' : act (Proceed w) s = Some s' → sni_ok s → advances (Proceed w) s s'.
Proof.
  cbn. intros Ha Hok. destruct (ss_workers s !! w) as [k|] eqn:Hk; [|done]. cbn in Ha.
  pose proof (worker_ok_at _ _ _ Hok Hk) as Hw. unfold worker_ok, tasks in Hw.
  unfold proceed in Ha. destruct (wk_phase k) as [|[|ip addrs]|] eqn:Hph; [done..| |done].
  assert (addrs_left k = ip :: addrs) as Hleft by (unfold addrs_left; by rewrite Hph).
  destruct (allows cf (IpV4 ip)) eqn:Hal; cbn in Ha.
  - destruct (ss_permits s) as [|n] eqn:Hn; [done|]. injection Ha as <-.
    unfold with_permits, with_worker. cbn.
    eapply worker_moves; [done|done| | | |done|done|].
    + unfold worker_ok, tasks. cbn. rewrite length_app. cbn. destruct (limit <=? _) eqn:Hl; bool_to_prop; lia.
    + rewrite Hn. cbn. rewrite length_app. cbn. lia.
    + unfold worker_work. rewrite Hleft, Hph. unfold addrs_left. cbn. rewrite length_app.
      destruct (limit <=? _); cbn; lia.
    + rewrite Hleft. unfold addrs_left, allowed. cbn [wk_phase wk_running]. rewrite filter_cons_True by done.
      destruct (limit <=? _); cbn; by rewrite app_assoc, (Permutation_app_comm _ [ip]).
  - injection Ha as <-. unfold with_worker. eapply worker_moves; [done|done|done|done| |done|done|].
    + unfold worker_work. rewrite Hleft, Hph. unfold addrs_left. cbn. lia.
    + rewrite Hleft. unfold addrs_left, allowed. cbn [wk_phase wk_running].
      rewrite filter_cons_False by (by rewrite Hal). done.
Qed.

Lemma join_probe_advances w i s s' : act (JoinProbe w i) s = Some s' → sni_ok s → advances (JoinProbe w i) s s'.
Proof.
  cbn. intros Ha Hok. destruct (ss_workers s !! w) as [k|] eqn:Hk; [|done]. cbn in Ha.
  pose proof (worker_ok_at _ _ _ Hok Hk) as Hw. unfold worker_ok, tasks in Hw. unfold join_probe in Ha.
  destruct (wk_ended k !! i) as [r|] eqn:Hi; [|done]. cbn in Ha.
  pose proof (delete_Permutation _ _ _ Hi) as Hp. pose proof (Permutation_length Hp) as Hlen. cbn in Hlen.
  generalize dependent (delete i (wk_ended k)). intros ended Ha Hp Hlen.
  assert (omap id ended ++ wk_out k ++ option_list r ≡ₚ entries_of k) as He.
  { unfold entries_of. rewrite Hp. destruct r as [e|]; cbn; [|by rewrite app_nil_r].
    by rewrite app_assoc, (Permutation_app_comm _ [e]). }
  assert (∀ addrs, addrs_left k = addrs →
    (wk_phase k = Full addrs ∨ wk_phase k = Spawning addrs) →
    advances (JoinProbe w i) s (with_worker w (MkWorker (wk_sni k) (Spawning addrs) (wk_running k) ended (wk_out k ++ option_list r)) s)) as Hgo.
  { intros addrs Hl Hph. eapply worker_moves; [done|done| |done| |done|done|].
    - unfold worker_ok, tasks. cbn. destruct Hph as [Hph|Hph]; rewrite Hph in Hw; lia.
    - unfold worker_work. rewrite Hl. unfold addrs_left. cbn. destruct Hph as [Hph|Hph]; rewrite Hph; lia.
    - by rewrite Hl. }
  unfold addrs_left in Hgo.
  destruct (wk_phase k) as [|[|]|] eqn:Hph; try done; injection Ha as <-; apply Hgo; auto.
Qed.

Lemma probe_sni_ip_entry sni ip tcp c :
  let e := probe_sni_ip valid_name config sni ip tcp c in sni_pair e = (sni, ip) ∧ entry_ranked e.
Proof.
  cbn. unfold probe_sni_ip. destruct tcp; [|done]. destruct (negb _); [done|]. by destruct (pb_tls_ms c).
Qed.

Lemma probe_ends_advances w i found s s' :
  act (ProbeEnds w i found) s = Some s' → sni_ok s → advances (ProbeEnds w i found) s s'.
Proof.
  cbn. intros Ha Hok. destruct (ss_workers s !! w) as [k|] eqn:Hk; [|done]. cbn in Ha.
  destruct (wk_running k !! i) as [ip|] eqn:Hi; [|done]. cbn in Ha.
  pose proof (worker_ok_at _ _ _ Hok Hk) as Hw. unfold worker_ok, tasks in Hw.
  pose proof (delete_Permutation _ _ _ Hi) as Hp. pose proof (Permutation_length Hp) as Hlen. cbn in Hlen.
  generalize dependent (delete i (wk_running k)). intros run Ha Hp Hlen.
  assert (∀ r, let k' := MkWorker (wk_sni k) (wk_phase k) run (wk_ended k ++ [r]) (wk_out k) in
    worker_ok k' ∧ worker_work k' < worker_work k ∧ entries_of k' ≡ₚ entries_of k ++ option_list r ∧
    (wk_sni k, ip) :: pairs_of k' ≡ₚ pairs_of k ++ (sni_pair <$> option_list r)) as Hk'.
  { intros r. cbn zeta. set (k' := MkWorker _ _ _ _ _).
    assert (entries_of k' ≡ₚ entries_of k ++ option_list r) as He.
    { unfold entries_of, k'. cbn [wk_ended wk_out]. rewrite omap_app.
      destruct r; cbn; [|by rewrite !app_nil_r]. by rewrite <- !app_assoc, (Permutation_app_comm (wk_out k)). }
    split_and!; [| |done|].
    - unfold worker_ok, tasks, k'. cbn. rewrite length_app. cbn.
      destruct (wk_phase k); [|lia..]. destruct Hw as [Hw _]. rewrite Hw in Hlen. done.
    - unfold worker_work, addrs_left, k'. cbn. rewrite length_app. cbn. lia.
    - unfold pairs_of. rewrite He, Hp. change (addrs_left k') with (addrs_left k). cbn [wk_sni wk_running k'].
      rewrite !fmap_app. cbn. rewrite <- !Permutation_middle. cbn. by rewrite <- !app_assoc. }
  destruct found as [[tcp c]|]; injection Ha as <-.
  - destruct (probe_sni_ip_entry (wk_sni k) ip tcp c) as [Hpair Hr].
    set (e := probe_sni_ip _ _ _ _ _ _) in *. destruct (Hk' (Some e)) as (Hok' & Hwork & He & Hpairs).
    assert (pairs_of (MkWorker (wk_sni k) (wk_phase k) run (wk_ended k ++ [Some e]) (wk_out k)) ≡ₚ pairs_of k) as Heq.
    { apply (Permutation_cons_inv (a := (wk_sni k, ip))). rewrite Hpairs. cbn. rewrite Hpair.
      apply Permutation_app_comm. }
    unfold sent, with_permits, with_worker. cbn [ss_hostnames ss_workers ss_permits ss_results ss_sent].
    eapply worker_advances; [done|done|done| |done|by rewrite Heq|done|done|by repeat constructor].
    cbn. lia.
  - destruct (Hk' None) as (Hok' & Hwork & He & Hpairs). cbn in Hpairs. rewrite app_nil_r in Hpairs.
    unfold with_permits, with_worker. cbn. rewrite <- (app_nil_r (ss_sent s)).
    eapply worker_advances; [done|done|done| |done| |by intros []|done|done]; [cbn; lia|].
    rewrite <- Hpairs. by apply submseteq_cons.
Qed.

Lemma start_worker_advances s s' : act StartWorker s = Some s' → sni_ok s → advances StartWorker s s'.
Proof.
  cbn [SniScan.act]. intros Ha [H1 H2 H3 H4 H5]. destruct (ss_hostnames s) as [|[sni answer] names] eqn:Hn; [done|].
  destruct (_ <? _) eqn:Hl; [|done]. bool_to_prop. injection Ha as <-.
  set (k := MkWorker sni (Resolving answer) [] [] []).
  assert (pairs_of k = name_pairs (sni, answer)) as Hk.
  { unfold pairs_of, name_pairs, k, addrs_left. cbn. rewrite !app_nil_r. by destruct answer. }
  assert (due (MkSniScan names (ss_workers s ++ [k]) (ss_permits s) (ss_results s) (ss_sent s)) ≡ₚ due s) as Hd.
  { unfold due. rewrite Hn. cbn [ss_hostnames ss_workers ss_results]. rewrite bind_app, !bind_cons, Hk.
    cbn [mbind list_bind]. rewrite app_nil_r, (Permutation_app_comm (ss_workers s ≫= _)), <- app_assoc, !app_assoc.
    do 2 f_equiv. apply Permutation_app_comm. }
  split_and!; [constructor; cbn [ss_hostnames ss_workers ss_permits ss_results ss_sent]|..].
  - unfold running in *. cbn. rewrite sum_list_with_app. cbn. lia.
  - rewrite length_app. cbn. lia.
  - apply Forall_app_2; [done|]. by repeat constructor.
  - rewrite bind_app. cbn. by rewrite H4, app_nil_r.
  - done.
  - unfold sni_work. rewrite Hn. cbn [ss_hostnames ss_workers]. rewrite sum_list_with_app, !sum_list_with_cons.
    unfold worker_work, name_work. cbn. destruct answer; cbn; lia.
  - by rewrite Hd.
  - done.
Qed.

Lemma join_worker_advances w s s' : act (JoinWorker w) s = Some s' → sni_ok s → advances (JoinWorker w) s s'.
Proof.
  cbn [SniScan.act]. intros Ha [H1 H2 H3 H4 H5]. destruct (ss_workers s !! w) as [k|] eqn:Hk; [|done]. cbn in Ha.
  destruct (worker_done k) eqn:Hd; [|done]. cbn in Ha. destruct (_ || _); [|done]. injection Ha as <-.
  pose proof (delete_Permutation _ _ _ Hk) as Hp. generalize dependent (delete w (ss_workers s)). intros ws Hp.
  unfold worker_done in Hd. destruct (wk_phase k) as [|[|]|] eqn:Hph; [done| |done..].
  destruct (wk_running k) eqn:Er; [|done]. destruct (wk_ended k) eqn:Ee; [|done]. clear Hd.
  assert (pairs_of k = sni_pair <$> wk_out k) as Hpairs.
  { unfold pairs_of, addrs_left, entries_of. by rewrite Hph, Er, Ee. }
  assert (entries_of k = wk_out k) as He by (unfold entries_of; by rewrite Ee).
  assert (∀ l, due (MkSniScan (ss_hostnames s) ws (ss_permits s) (ss_results s ++ wk_out k) l) ≡ₚ due s) as Hdue.
  { intros l. unfold due. cbn [ss_hostnames ss_workers ss_results]. rewrite Hp, bind_cons, Hpairs, fmap_app.
    f_equiv. rewrite <- (app_assoc (sni_pair <$> wk_out k)), (Permutation_app_comm (sni_pair <$> wk_out k)).
    by rewrite <- app_assoc. }
  split_and!; [constructor; cbn [ss_hostnames ss_workers ss_permits ss_results ss_sent]|..].
  - unfold running in *. cbn. rewrite Hp, sum_list_with_cons, Er in H1. done.
  - rewrite Hp in H2. cbn in H2. lia.
  - rewrite Hp in H3. by apply Forall_cons in H3 as [_ ?].
  - by rewrite H4, Hp, bind_cons, He, app_assoc.
  - done.
  - unfold sni_work. cbn [ss_hostnames ss_workers]. rewrite Hp, sum_list_with_cons. unfold worker_work. lia.
  - by rewrite Hdue.
  - done.
Qed.

Lemma act_advances a s s' : act a s = Some s' → sni_ok s → advances a s s'.
Proof.
  destruct a; eauto using start_worker_advances, looked_up_advances, proceed_advances, probe_ends_advances,
    join_probe_advances, join_worker_advances.
Qed.

(** A permit that is taken is held by a probe that runs. *)
Lemma running_somewhere ws : 0 < sum_list_with (λ k, length (wk_running k)) ws →
  ∃ w k ip, ws !! w = Some k ∧ wk_running k !! 0 = Some ip.
Proof.
  induction ws as [|k ws IH]; [cbn; lia|]. rewrite sum_list_with_cons. intros Hs.
  destruct (wk_running k) as [|ip l] eqn:E; [|exists 0, k, ip; by rewrite E].
  destruct IH as (w & k' & ip & ? & ?); [done|]. by exists (S w), k', ip.
Qed.

Definition refused : option Z * ProbeChance :=
  (None, MkProbe false None false [] [] 0 f64_zero (MkUpload false false false false [] [] f64_zero)).

Lemma probe_may_end s w k ip : ss_workers s !! w = Some k → wk_running k !! 0 = Some ip →
  ∃ a, ¬ panics a ∧ is_Some (act a s).
Proof. intros Hk Hr. exists (ProbeEnds w 0 (Some refused)). split; [by intros []|]. cbn. rewrite Hk. cbn. rewrite Hr. by eexists. Qed.

(** No schedule is stuck: the permits a worker waits for are all held by
    probes that can end. *)
Lemma never_stuck s : sni_ok s → sni_finished s = false → ∃ a, ¬ panics a ∧ is_Some (act a s).
Proof.
  intros Hok Hf. pose proof limit_positive as Hlim.
  destruct (ss_workers s) as [|k ws] eqn:Hws.
  { exists StartWorker. split; [by intros []|]. unfold sni_finished in Hf. rewrite Hws, andb_true_r in Hf. cbn [SniScan.act].
    destruct (ss_hostnames s) as [|[sni answer] names]; [done|]. rewrite Hws. cbn [length].
    rewrite (proj2 (Nat.ltb_lt _ _)) by done. by eexists. }
  assert (ss_workers s !! 0 = Some k) as Hk by (by rewrite Hws).
  pose proof (worker_ok_at _ _ _ Hok Hk) as Hw. unfold worker_ok, tasks in Hw.
  destruct (wk_running k) as [|ip run] eqn:Hr; [|eapply (probe_may_end s 0 k ip); [done|by rewrite Hr]].
  destruct (wk_phase k) as [answer|[|ip addrs]|addrs] eqn:Hph.
  - exists (LookedUp 0). split; [by intros []|]. cbn. rewrite Hk. cbn. rewrite Hph. by eexists.
  - destruct (wk_ended k) as [|r ended] eqn:He.
    + destruct (is_nil (ss_hostnames s) || (limit <=? length (ss_workers s))) eqn:Hg.
      * exists (JoinWorker 0). split; [by intros []|]. cbn [SniScan.act]. rewrite Hk. cbn [mbind option_bind].
        unfold worker_done. rewrite Hph, Hr, He, Hg. by eexists.
      * exists StartWorker. split; [by intros []|]. bool_to_prop. cbn [SniScan.act].
        destruct (ss_hostnames s) as [|[sni answer] names]; [done|].
        rewrite (proj2 (Nat.ltb_lt _ _)) by done. by eexists.
    + exists (JoinProbe 0 0). split; [by intros []|]. cbn. rewrite Hk. cbn. unfold join_probe.
      rewrite He. cbn. rewrite Hph. by eexists.
  - destruct (ss_permits s) as [|n] eqn:Hn.
    + pose proof (so_permits s Hok) as Hp. rewrite Hn in Hp. unfold running in Hp.
      destruct (running_somewhere (ss_workers s)) as (w & k' & ip' & ? & ?); [lia|]. by eapply probe_may_end.
    + exists (Proceed 0). split; [by intros []|]. cbn. rewrite Hk. cbn. unfold proceed. rewrite Hph, Hn.
      destruct (negb _); by eexists.
  - exists (JoinProbe 0 0). split; [by intros []|]. cbn. rewrite Hk. cbn. unfold join_probe.
    destruct (wk_ended k) as [|r ended]; [cbn in Hw; lia|]. cbn. rewrite Hph. by eexists.
Qed.

Lemma act_all_advances actions s s' : act_all valid_name config cf actions s = Some s' → sni_ok s →
  sni_ok s' ∧ length actions + sni_work s' ≤ sni_work s ∧ due s' ⊆+ due s ∧
  (Forall (λ a, ¬ panics a) actions → due s' ≡ₚ due s).
Proof.
  unfold act_all. revert s. induction actions as [|a actions IH]; cbn; intros s Hs Hok.
  { injection Hs as ->. by split_and!. }
  destruct (act a s) as [s1|] eqn:Ha.
  - destruct (act_advances _ _ _ Ha Hok) as (Hok1 & Hlt & Hsub & Hp).
    destruct (IH s1 Hs Hok1) as (? & ? & ? & Hp'). split_and!; [done|lia|by etrans|].
    intros [Hn Hf]%Forall_cons. by rewrite Hp', Hp.
  - exfalso. clear -Hs. induction actions; [done|]. by apply IHactions.
Qed.

Lemma sni_start_ok names : sni_ok (sni_start config names).
Proof. constructor; cbn; try done; lia. Qed.
End sni_invariant.

(** A custom lookup asks the configured servers in order and returns the
    IPv4 addresses of the first that has any, asking none behind it; when none
    has any, it fails with the reason of each, and the system resolver, which
    is for a configuration without custom servers, is not asked. *)
Theorem custom_dns_in_order (system : Answer) (ask : SocketAddr → Answer) servers :
  match lookup_ipv4 system ask servers with
  | (Found addresses, asked) =>
      servers = [] ∧ asked = [] ∧ addresses = v4_answer system ∨
      (∃ pre server post, servers = pre ++ server :: post ∧ asked = pre ++ [server] ∧
        Forall (λ s, v4_answer (ask s) = []) pre ∧ addresses = v4_answer (ask server) ∧ addresses ≠ [])
  | (NotFound (AllCustomServersFailed failures), asked) =>
      servers ≠ [] ∧ asked = servers ∧ Forall (λ s, v4_answer (ask s) = []) servers ∧
      failures = (λ s, (s, reason_of (ask s))) <$> servers
  | (NotFound SystemLookup, asked) => servers = [] ∧ asked = []
  end.
Proof.
  unfold lookup_ipv4. destruct servers as [|s servers]; [by destruct system; auto|].
  destruct (ask_custom_spec ask (s :: servers) []) as [(pre & server & post & E & Hp & Hn & ->)|[Hf ->]]; [|done].
  right. by exists pre, server, post.
Qed.

Definition names_of (dns : nat → string → Lookup) (hostnames : list string) : list (string * Lookup) :=
  imap (λ i h, (h, dns i h)) hostnames.

(** (C12) A scan of an SNI list under any schedule: at most
    [SNI_MAX_CONCURRENT] workers and, over all of them, as many probes run,
    each with a permit of the one semaphore; as long as the scan is not over
    some task can proceed, so the workers that wait for permits never block
    each other for good; and it is over after at most three steps per name and
    three per address.  The results are then ranked, they are what was sent as
    progress, each with the score of its measures, and they are the pairs of a
    name and one of its allowed addresses, each once: only a probe that panics
    is missing. *)
Theorem sni_scan_complete `{Ranges Net} valid_name config (cf : ScanFilter Net) file replaced dns hostnames
    actions s
    (Hnames : scan_hostnames file replaced (DEDUPLICATE_SCAN_LISTS config) = Ok hostnames)
    (Hrun : scan_sni_list valid_name config cf file replaced dns actions = Ok (Some s)) :
  let names := names_of dns hostnames in
  length (ss_workers s) ≤ limit config ∧ ss_permits s + running s = limit config ∧
  (sni_finished s = false → ∃ a, ¬ panics a ∧ is_Some (act valid_name config cf a s)) ∧
  length actions ≤ sum_list_with name_work names ∧
  (sni_finished s = true →
    StronglySorted (λ a b, sni_ranked a b = true) (sni_results s) ∧
    Forall (λ e, sp_score e = compute_score config (sp_measures e)) (sni_results s) ∧
    sni_results s ≡ₚ ss_sent s ∧
    (sni_pair <$> sni_results s) ⊆+ (names ≫= name_pairs cf) ∧
    (Forall (λ a, ¬ panics a) actions → (sni_pair <$> sni_results s) ≡ₚ (names ≫= name_pairs cf))).
Proof.
  intros names. unfold scan_sni_list in Hrun. rewrite Hnames in Hrun.
  destruct (from_config config); [|done]. injection Hrun as Hrun. fold (names_of dns hostnames) in Hrun. fold names in Hrun.
  destruct (act_all_advances _ _ _ _ _ _ Hrun (sni_start_ok config names)) as (Hok & Hw & Hsub & Hp).
  assert (due cf (sni_start config names) = names ≫= name_pairs cf) as Hdue by (unfold due; cbn; by rewrite app_nil_r).
  unfold sni_work in Hw. cbn in Hw. rewrite Hdue in *.
  split_and!; [apply Hok|apply Hok|by apply never_stuck|lia|].
  intros [Hn%is_nil_true Hws%is_nil_true]%andb_true_iff. unfold due in *. rewrite Hn, Hws in *. cbn in Hsub, Hp.
  assert (sni_results s ≡ₚ ss_results s) as Hperm by apply sort_by_perm.
  pose proof (so_sent _ _ Hok) as Hsent. rewrite Hws in Hsent. cbn in Hsent. rewrite app_nil_r in Hsent.
  split_and!; [apply sni_ranked_sorted| | |by rewrite Hperm|intros; rewrite Hperm; auto].
  - rewrite Hperm, <- Hsent. apply (so_ranked _ _ Hok).
  - by rewrite Hperm, Hsent.
Qed.

(** Two names with one address each, the second outside the ranges; and the
    ranges of the example: an address is its own range. *)
Definition one_address_ranges : Ranges Z := {|
  parse_net := λ s, if String.eqb s "one" then Some 1%Z else None;
  trunc_to_string := λ _, "one";
  contains := λ n ip, match ip with IpV4 a => Z.eqb a n | IpV6 _ => false end;
  net_is_v6 := λ _, false;
  hosts := λ n, [IpV4 n] |}.
Definition two_names : string := "a.example" +:+ String newline "b.example".
Definition two_lookups (i : nat) (name : string) : Lookup := Found [Z.of_nat (S i)].
Definition two_names_schedule : list Action :=
  [StartWorker; StartWorker; LookedUp 1; LookedUp 0; Proceed 0; Proceed 1; ProbeEnds 0 0 (Some refused);
   JoinProbe 0 0; JoinWorker 1; JoinWorker 0].

Lemma sni_scan_complete_witness : ∃ s,
  scan_sni_list (H := one_address_ranges) (λ _, true) (default_config "127.0.0.1" 40443)
    (MkScanFilter (Some [1%Z])) (Some two_names) true two_lookups two_names_schedule = Ok (Some s) ∧
  sni_finished s = true ∧ length two_names_schedule = 10 ∧
  (sni_pair <$> sni_results s) ≡ₚ [("a.example", 1%Z)].
Proof.
  eexists. split; [vm_compute; reflexivity|]. split; [reflexivity|]. split; [reflexivity|].
  eapply (sni_scan_complete (H := one_address_ranges) (λ _, true) (default_config "127.0.0.1" 40443)
    (MkScanFilter (Some [1%Z])) (Some two_names) true two_lookups ["a.example"; "b.example"] two_names_schedule);
    [reflexivity|vm_compute; reflexivity|reflexivity|].
  repeat constructor; intros [].
Defined.
