(* ===== verification/Methods.v ===== *)
(** * The bypass-method interface

    Model of the trait part of [crates/zerodpi-core/src/methods/mod.rs]
    ([MethodAction], [BypassMethod]) and of the range sampler of
    [methods/tcp_segmentation.rs].  A boxed method is a record of its
    operations.  What a method reads outside the flow and the packet at
    emission time (the shared TTL cell of [low_ttl], the seed a fresh sampler
    takes from the clock) is an explicit [MethodEnv]. *)
From stdpp Require Import base list numbers strings.
From Stdlib Require Import ZArith Lia.
From S2P Require Import Prelude Interceptor Flow Text Config.

(** ** The trait *)
Inductive MethodAction :=
  | EmitFakeAndAccept (complete_immediately continue_with_data : bool)
  | CompleteAndAccept
  | PassThrough
  | AbortAndAccept.
#[export] Instance MethodAction_eq_dec : EqDecision MethodAction.
Proof. solve_decision. Defined.

Definition emit_and_wait_for_ack : MethodAction := EmitFakeAndAccept false false.
Definition emit_and_complete : MethodAction := EmitFakeAndAccept true false.
Definition emit_and_wait_for_data : MethodAction := EmitFakeAndAccept false true.
Definition complete_and_accept : MethodAction := CompleteAndAccept.
Definition abort_and_accept : MethodAction := AbortAndAccept.

Record MethodEnv := MkMethodEnv {
  env_live_ttl : Z;   (* the [AtomicU8] behind [low_ttl_handle] *)
  env_seed : Z        (* the state of a [FragmentRng::new()] *) }.

Definition Hook : Type := MethodEnv → FlowState → PacketView → exec (PacketView * MethodAction).

Record BypassMethod := MkBypassMethod {
  bm_name : string;
  bm_low_ttl_handle : bool;   (* whether a handle is offered *)
  bm_on_handshake_complete_ack : Hook;
  bm_on_first_data_packet : Hook }.

(** The trait's default data hook, and the handshake hook of the methods that
    work at the data stage. *)
Definition pass_through : Hook := λ _ _ pkt, Done (pkt, PassThrough).

(** ** Sampling *)
Definition as_i32 (z : Z) : Z := ((z + 2 ^ 31) mod 2 ^ 32 - 2 ^ 31)%Z.

(** [sample_i32]: the new generator state and the sample.  The [i32] addition
    wraps, as in a release build. *)
Definition sample_i32 (range : Int32Range) (state : Z) : Z * Z :=
  if (range.(r_min) =? range.(r_max))%Z then (state, range.(r_min)) else
  let width := as_u64 (range.(r_max) - range.(r_min) + 1) in
  let '(state, z) := splitmix64 state in
  (state, as_i32 (range.(r_min) + as_i32 (z mod width))).

Lemma as_i32_small z : (i32_min ≤ z ≤ i32_max)%Z → as_i32 z = z.
Proof.
  unfold as_i32, i32_min, i32_max. intros Hz. rewrite Z.mod_small by lia. lia.
Qed.

Lemma as_i32_add a b : as_i32 (a + as_i32 b) = as_i32 (a + b).
Proof.
  unfold as_i32. f_equal.
  replace (a + ((b + 2 ^ 31) mod 2 ^ 32 - 2 ^ 31) + 2 ^ 31)%Z
    with (a + (b + 2 ^ 31) mod 2 ^ 32)%Z by lia.
  rewrite Zplus_mod_idemp_r. f_equal. lia.
Qed.

Lemma splitmix64_range s : is_u64 (fst (splitmix64 s)) ∧ (0 ≤ snd (splitmix64 s))%Z.
Proof.
  unfold splitmix64. simpl. split; [apply wadd64_range|].
  apply Z.lxor_nonneg. split; intros _.
  - apply Z.shiftr_nonneg. apply (wmul64_range _ _).
  - apply (wmul64_range _ _).
Qed.

(** A sample lies in its range, whatever the state of the generator. *)
Lemma sample_i32_range r s : range_wf r →
  (r.(r_min) ≤ snd (sample_i32 r s) ≤ r.(r_max))%Z.
Proof.
  unfold range_wf, sample_i32. intros (H1 & H2 & H3).
  pose proof (splitmix64_range s) as [_ Hz].
  destruct (splitmix64 s) as [s' z]. cbn [snd] in Hz.
  destruct (Z.eqb_spec (r_min r) (r_max r)); cbn [snd]; [lia|].
  unfold i32_min, i32_max in *.
  unfold as_u64. rewrite (Z.mod_small (r_max r - r_min r + 1)) by lia.
  pose proof (Z.mod_pos_bound z (r_max r - r_min r + 1) ltac:(lia)).
  rewrite as_i32_add, as_i32_small by (unfold i32_min, i32_max; lia). lia.
Qed.

(** ** What a method promises

    [captured p p']: the captured fields are the same, only staged fields may
    differ.  [StageSafe hook pre] says that the hook, where [pre] holds of the
    flow and the packet, does not panic and writes staged fields only. *)
Definition captured (p p' : PacketView) : Prop :=
  pv_direction p' = pv_direction p ∧ pv_src_ip p' = pv_src_ip p ∧ pv_dst_ip p' = pv_dst_ip p ∧
  pv_src_port p' = pv_src_port p ∧ pv_dst_port p' = pv_dst_port p ∧ pv_seq p' = pv_seq p ∧
  pv_ack p' = pv_ack p ∧ pv_flags p' = pv_flags p ∧ pv_payload_len p' = pv_payload_len p ∧
  pv_payload p' = pv_payload p ∧ pv_tcp_options p' = pv_tcp_options p.

#[export] Instance captured_refl : Reflexive captured.
Proof. intros p. unfold captured. tauto. Qed.
#[export] Instance captured_trans : Transitive captured.
Proof. intros p q r. unfold captured. intuition congruence. Qed.

Definition stage_safe (pre : FlowState → Prop) (hook : Hook) : Prop :=
  ∀ env s p, pre s → ∃ p' a, hook env s p = Done (p', a) ∧ captured p p'.

(** The handler calls the first hook with both sequence numbers known, the
    second one with the SYN's known. *)
Definition handshake_pre (s : FlowState) : Prop := is_Some (syn_seq s) ∧ is_Some (syn_ack_seq s).
Definition data_pre (s : FlowState) : Prop := is_Some (syn_seq s).

Class HandshakeSafe (m : BypassMethod) : Prop :=
  handshake_safe : stage_safe handshake_pre (bm_on_handshake_complete_ack m).
Class DataSafe (m : BypassMethod) : Prop :=
  data_safe : stage_safe data_pre (bm_on_first_data_packet m).

Lemma pass_through_safe pre : stage_safe pre pass_through.
Proof. intros env s p _. by do 2 eexists. Qed.
#[export] Hint Resolve pass_through_safe : zdpi.

(** The name of every setter of a staged field is [set_*]; they keep the
    captured fields by computation. *)
Ltac solve_captured := unfold captured; repeat split; reflexivity.
