(* ===== verification/HandshakeMethods.v ===== *)
(** * Handshake-stage methods

    Models of [wrong_seq], [wrong_ack], [wrong_checksum], [wrong_md5],
    [wrong_timestamp] and [low_ttl] ([crates/zerodpi-core/src/methods/*.rs]):
    each stages the fake ClientHello on the first bare ACK with one field that
    makes the server drop it. *)
From stdpp Require Import base list numbers strings.
From Stdlib Require Import ZArith Lia.
From S2P Require Import Prelude Interceptor Flow Text Config Methods.

(** [let mut flags = pkt.flags; flags.psh = psh] *)
Definition with_psh (psh : bool) (f : TcpFlags) : TcpFlags :=
  MkTcpFlags f.(f_syn) f.(f_ack) psh f.(f_rst) f.(f_fin) f.(f_urg).
Definition with_urg (f : TcpFlags) : TcpFlags :=
  MkTcpFlags f.(f_syn) f.(f_ack) f.(f_psh) f.(f_rst) f.(f_fin) true.

Definition complete_or_wait (complete_immediately : bool) : MethodAction :=
  if complete_immediately then emit_and_complete else emit_and_wait_for_ack.

(** ** wrong_seq *)
Module WrongSeq.
Record t := Mk { extra_offset : Z; set_psh : bool; bump_ip_ident : bool }.
Definition new (cfg : Config) : t :=
  Mk cfg.(WRONG_SEQ_EXTRA_OFFSET) cfg.(WRONG_SEQ_SET_PSH) cfg.(WRONG_SEQ_BUMP_IP_IDENT).

Definition on_handshake_complete_ack (m : t) : Hook := λ _ flow pkt,
  let! syn_seq := expect flow.(syn_seq) in
  let payload := flow.(fake_data) in
  let payload_len := as_u32 (Z.of_nat (length payload)) in
  let new_seq := wsub32 (wsub32 (wadd32 syn_seq 1) payload_len) m.(extra_offset) in
  let flags := with_psh m.(set_psh) pkt.(pv_flags) in
  let pkt := set_new_seq (Some new_seq) pkt in
  let pkt := set_new_flags (Some flags) pkt in
  let pkt := set_new_payload (Some payload) pkt in
  let pkt := set_bump_ipv4_ident m.(bump_ip_ident) pkt in
  Done (pkt, emit_and_wait_for_ack).

Definition method (m : t) : BypassMethod :=
  MkBypassMethod "wrong_seq" false (on_handshake_complete_ack m) pass_through.
End WrongSeq.

(** ** wrong_ack *)
Module WrongAck.
Record t := Mk { offset : Z; set_psh : bool; bump_ip_ident : bool; complete_immediately : bool }.
Definition new (cfg : Config) : t :=
  Mk cfg.(WRONG_ACK_OFFSET) cfg.(WRONG_ACK_SET_PSH) cfg.(WRONG_ACK_BUMP_IP_IDENT)
     cfg.(WRONG_ACK_COMPLETE_IMMEDIATELY).

Definition on_handshake_complete_ack (m : t) : Hook := λ _ flow pkt,
  let! syn_ack_seq := expect flow.(syn_ack_seq) in
  let payload := flow.(fake_data) in
  let new_ack := wsub32 (wadd32 syn_ack_seq 1) m.(offset) in
  let flags := with_psh m.(set_psh) pkt.(pv_flags) in
  let pkt := set_new_ack (Some new_ack) pkt in
  let pkt := set_new_flags (Some flags) pkt in
  let pkt := set_new_payload (Some payload) pkt in
  let pkt := set_bump_ipv4_ident m.(bump_ip_ident) pkt in
  Done (pkt, complete_or_wait m.(complete_immediately)).

Definition method (m : t) : BypassMethod :=
  MkBypassMethod "wrong_ack" false (on_handshake_complete_ack m) pass_through.
End WrongAck.

(** ** wrong_checksum *)
Module WrongChecksum.
Record t := Mk {
  checksum_delta : Z; set_psh : bool; bump_ip_ident : bool; complete_immediately : bool }.
Definition new (cfg : Config) : t :=
  Mk cfg.(WRONG_CHECKSUM_DELTA) cfg.(WRONG_CHECKSUM_SET_PSH) cfg.(WRONG_CHECKSUM_BUMP_IP_IDENT)
     cfg.(WRONG_CHECKSUM_COMPLETE_IMMEDIATELY).

Definition on_handshake_complete_ack (m : t) : Hook := λ _ flow pkt,
  let payload := flow.(fake_data) in
  let flags := with_psh m.(set_psh) pkt.(pv_flags) in
  let pkt := set_new_flags (Some flags) pkt in
  let pkt := set_new_payload (Some payload) pkt in
  let pkt := set_bump_ipv4_ident m.(bump_ip_ident) pkt in
  let pkt := set_corrupt_tcp_checksum_delta (Some m.(checksum_delta)) pkt in
  Done (pkt, complete_or_wait m.(complete_immediately)).

Definition method (m : t) : BypassMethod :=
  MkBypassMethod "wrong_checksum" false (on_handshake_complete_ack m) pass_through.
End WrongChecksum.

(** ** wrong_md5 *)
Module WrongMd5.
Definition TCP_MD5_SIGNATURE_OPTION_KIND : Z := 19.
Definition TCP_MD5_SIGNATURE_OPTION_LEN : Z := 18.
Definition TCP_MD5_SIGNATURE_LEN : nat := 16.

Definition tcp_md5_signature_option : list Z :=
  TCP_MD5_SIGNATURE_OPTION_KIND :: TCP_MD5_SIGNATURE_OPTION_LEN ::
  replicate TCP_MD5_SIGNATURE_LEN 0%Z.

Record t := Mk { set_psh : bool; bump_ip_ident : bool; complete_immediately : bool }.
Definition new (cfg : Config) : t :=
  Mk cfg.(WRONG_MD5_SET_PSH) cfg.(WRONG_MD5_BUMP_IP_IDENT) cfg.(WRONG_MD5_COMPLETE_IMMEDIATELY).

Definition on_handshake_complete_ack (m : t) : Hook := λ _ flow pkt,
  let payload := flow.(fake_data) in
  let flags := with_psh m.(set_psh) pkt.(pv_flags) in
  let pkt := set_new_flags (Some flags) pkt in
  let pkt := set_new_payload (Some payload) pkt in
  let pkt := set_append_tcp_options tcp_md5_signature_option pkt in
  let pkt := set_bump_ipv4_ident m.(bump_ip_ident) pkt in
  Done (pkt, complete_or_wait m.(complete_immediately)).

Definition method (m : t) : BypassMethod :=
  MkBypassMethod "wrong_md5" false (on_handshake_complete_ack m) pass_through.
End WrongMd5.

(** ** wrong_timestamp *)
Module WrongTimestamp.
Definition TCP_TIMESTAMP_OPTION_KIND : Z := 8.
Definition TCP_TIMESTAMP_OPTION_LEN : nat := 10.
Definition TCP_OPTION_EOL : Z := 0.
Definition TCP_OPTION_NOP : Z := 1.
Definition TCP_TIMESTAMP_TSVAL_OFFSET : nat := 2.

(** The option walk from [cursor]; every iteration moves the cursor, so
    [length options] iterations are enough ([backdate_from_fuel]). *)
Fixpoint backdate_from (fuel : nat) (options : list Z) (offset : Z) (cursor : nat)
    : exec (option (list Z)) :=
  match fuel with
  | O => Done None
  | S fuel' =>
      if negb (cursor <? length options) then Done None else
      let! kind := idx options cursor in
      if (kind =? TCP_OPTION_EOL)%Z then Done None
      else if (kind =? TCP_OPTION_NOP)%Z then backdate_from fuel' options offset (cursor + 1)
      else
        let? len_byte := options !! (cursor + 1) in
        let opt_len := Z.to_nat len_byte in
        if opt_len <? 2 then Done None else
        let stop := cursor + opt_len in
        if length options <? stop then Done None else
        if (kind =? TCP_TIMESTAMP_OPTION_KIND)%Z then
          if negb (opt_len =? TCP_TIMESTAMP_OPTION_LEN) then Done None else
          let tsval_pos := cursor + TCP_TIMESTAMP_TSVAL_OFFSET in
          let! b0 := idx options tsval_pos in
          let! b1 := idx options (tsval_pos + 1) in
          let! b2 := idx options (tsval_pos + 2) in
          let! b3 := idx options (tsval_pos + 3) in
          let tsval := from_be32 b0 b1 b2 b3 in
          let new_tsval := wsub32 tsval offset in
          let! out := blit options tsval_pos (tsval_pos + 4) (to_be32 new_tsval) in
          Done (Some out)
        else backdate_from fuel' options offset stop
  end.

Definition backdate_tcp_timestamp (options : list Z) (offset : Z) : exec (option (list Z)) :=
  backdate_from (S (length options)) options offset 0.

Record t := Mk { offset : Z; set_psh : bool; bump_ip_ident : bool; complete_immediately : bool }.
Definition new (cfg : Config) : t :=
  Mk cfg.(WRONG_TIMESTAMP_OFFSET) cfg.(WRONG_TIMESTAMP_SET_PSH)
     cfg.(WRONG_TIMESTAMP_BUMP_IP_IDENT) cfg.(WRONG_TIMESTAMP_COMPLETE_IMMEDIATELY).

Definition on_handshake_complete_ack (m : t) : Hook := λ _ flow pkt,
  let! r := backdate_tcp_timestamp pkt.(pv_tcp_options) m.(offset) in
  match r with
  | None => Done (pkt, abort_and_accept)
  | Some options =>
      let payload := flow.(fake_data) in
      let flags := with_psh m.(set_psh) pkt.(pv_flags) in
      let pkt := set_new_flags (Some flags) pkt in
      let pkt := set_new_payload (Some payload) pkt in
      let pkt := set_replace_tcp_options (Some options) pkt in
      let pkt := set_bump_ipv4_ident m.(bump_ip_ident) pkt in
      Done (pkt, complete_or_wait m.(complete_immediately))
  end.

Definition method (m : t) : BypassMethod :=
  MkBypassMethod "wrong_timestamp" false (on_handshake_complete_ack m) pass_through.
End WrongTimestamp.

(** ** low_ttl *)
Module LowTtl.
Record t := Mk { set_psh : bool; bump_ip_ident : bool; complete_immediately : bool }.
Definition new (cfg : Config) : t :=
  Mk cfg.(LOW_TTL_SET_PSH) cfg.(LOW_TTL_BUMP_IP_IDENT) cfg.(LOW_TTL_COMPLETE_IMMEDIATELY).
(** The initial value of the shared TTL cell. *)
Definition initial_ttl (cfg : Config) : Z := cfg.(LOW_TTL_VALUE).

Definition on_handshake_complete_ack (m : t) : Hook := λ env flow pkt,
  let payload := flow.(fake_data) in
  let ttl := match flow.(low_ttl_override) with Some v => v | None => env.(env_live_ttl) end in
  let flags := with_psh m.(set_psh) pkt.(pv_flags) in
  let pkt := set_new_flags (Some flags) pkt in
  let pkt := set_new_payload (Some payload) pkt in
  let pkt := set_bump_ipv4_ident m.(bump_ip_ident) pkt in
  let pkt := set_new_ipv4_ttl (Some ttl) pkt in
  Done (pkt, complete_or_wait m.(complete_immediately)).

Definition method (m : t) : BypassMethod :=
  MkBypassMethod "low_ttl" true (on_handshake_complete_ack m) pass_through.
End LowTtl.

(** ** Every method is safe at its stage *)
Ltac stage_tac :=
  unfold HandshakeSafe, stage_safe; intros env s p;
  unfold handshake_pre; intros [[? Hsyn] [? Hack]]; simpl;
  unfold WrongSeq.on_handshake_complete_ack, WrongAck.on_handshake_complete_ack;
  rewrite ?Hsyn, ?Hack; do 2 eexists; split; [reflexivity|solve_captured].

#[export] Instance wrong_seq_safe m : HandshakeSafe (WrongSeq.method m).
Proof. stage_tac. Qed.
#[export] Instance wrong_ack_safe m : HandshakeSafe (WrongAck.method m).
Proof. stage_tac. Qed.
#[export] Instance wrong_checksum_safe m : HandshakeSafe (WrongChecksum.method m).
Proof. stage_tac. Qed.
#[export] Instance wrong_md5_safe m : HandshakeSafe (WrongMd5.method m).
Proof. stage_tac. Qed.
#[export] Instance low_ttl_safe m : HandshakeSafe (LowTtl.method m).
Proof. stage_tac. Qed.

(** ** The timestamp option walk *)
Section timestamp.
Import WrongTimestamp.
Context (options : list Z) (offset : Z).

(** Where the walk stops: the position of the first timestamp option that is
    reached through well-formed options, if it is complete. *)
Lemma backdate_from_total fuel cursor :
  ∃ r, backdate_from fuel options offset cursor = Done r ∧
    ∀ out, r = Some out → ∃ pos b0 b1 b2 b3,
      pos + 10 ≤ length options ∧
      options !! pos = Some TCP_TIMESTAMP_OPTION_KIND ∧ options !! (pos + 1) = Some 10%Z ∧
      options !! (pos + 2) = Some b0 ∧ options !! (pos + 3) = Some b1 ∧
      options !! (pos + 4) = Some b2 ∧ options !! (pos + 5) = Some b3 ∧
      out = take (pos + 2) options ++ to_be32 (wsub32 (from_be32 b0 b1 b2 b3) offset) ++
            drop (pos + 6) options.
Proof.
  revert cursor; induction fuel as [|fuel IH]; intros cursor; cbn [backdate_from].
  { eexists; split; [reflexivity|done]. }
  destruct (cursor <? length options) eqn:Ec; cbn [negb];
    [|eexists; split; [reflexivity|done]]. bool_to_prop.
  destruct (idx_done options cursor Ec) as (kind & -> & Hk). cbn [exec_bind].
  destruct (kind =? TCP_OPTION_EOL)%Z; [eexists; split; [reflexivity|done]|].
  destruct (kind =? TCP_OPTION_NOP)%Z; [apply IH|].
  destruct (options !! (cursor + 1)) as [lb|] eqn:Hl; cbn [try_opt];
    [|eexists; split; [reflexivity|done]].
  destruct (Z.to_nat lb <? 2) eqn:E2; [eexists; split; [reflexivity|done]|].
  destruct (length options <? cursor + Z.to_nat lb) eqn:E3; [eexists; split; [reflexivity|done]|].
  destruct (Z.eqb_spec kind TCP_TIMESTAMP_OPTION_KIND) as [->|]; [|apply IH].
  destruct (Z.to_nat lb =? TCP_TIMESTAMP_OPTION_LEN) eqn:E4; cbn [negb];
    [|eexists; split; [reflexivity|done]].
  unfold TCP_TIMESTAMP_OPTION_LEN, TCP_TIMESTAMP_TSVAL_OFFSET in *. bool_to_prop.
  replace (cursor + 2 + 1) with (cursor + 3) by lia.
  replace (cursor + 2 + 2) with (cursor + 4) by lia.
  replace (cursor + 2 + 3) with (cursor + 5) by lia.
  destruct (idx_done options (cursor + 2) ltac:(lia)) as (b0 & -> & H0).
  destruct (idx_done options (cursor + 3) ltac:(lia)) as (b1 & -> & H1).
  destruct (idx_done options (cursor + 4) ltac:(lia)) as (b2 & -> & H2).
  destruct (idx_done options (cursor + 5) ltac:(lia)) as (b3 & -> & H3). cbn [exec_bind].
  rewrite blit_done by (rewrite ?length_app; simpl; lia). cbn [exec_bind].
  eexists; split; [reflexivity|]. intros out [= <-].
  exists cursor, b0, b1, b2, b3. replace (cursor + 6) with (cursor + 2 + 4) by lia.
  repeat split; try done; [lia|]. rewrite Hl. f_equal. lia.
Qed.

(** The fuel: more of it than remaining bytes does not change the result. *)
Lemma backdate_from_fuel f1 f2 cursor :
  length options - cursor < f1 → length options - cursor < f2 →
  backdate_from f1 options offset cursor = backdate_from f2 options offset cursor.
Proof.
  revert f2 cursor; induction f1 as [|f1 IH]; intros [|f2] cursor H1 H2; try lia.
  cbn [backdate_from]. destruct (cursor <? length options) eqn:Ec; cbn [negb]; [|done].
  bool_to_prop. destruct (idx options cursor) as [kind|]; [|done]. cbn [exec_bind].
  destruct (kind =? TCP_OPTION_EOL)%Z; [done|].
  destruct (kind =? TCP_OPTION_NOP)%Z; [apply IH; lia|].
  destruct (options !! (cursor + 1)) as [lb|]; [|done]. cbn [try_opt].
  destruct (Z.to_nat lb <? 2) eqn:E; [done|]. bool_to_prop.
  destruct (length options <? _); [done|].
  destruct (kind =? TCP_TIMESTAMP_OPTION_KIND)%Z; [done|]. apply IH; lia.
Qed.
End timestamp.

Lemma backdate_tcp_timestamp_total options offset :
  ∃ r, WrongTimestamp.backdate_tcp_timestamp options offset = Done r.
Proof.
  destruct (backdate_from_total options offset (S (length options)) 0) as (r & Hr & _). by exists r.
Qed.

#[export] Instance wrong_timestamp_safe m : HandshakeSafe (WrongTimestamp.method m).
Proof.
  intros env s p _. simpl. unfold WrongTimestamp.on_handshake_complete_ack.
  destruct (backdate_from_total (pv_tcp_options p) (WrongTimestamp.offset m)
    (S (length (pv_tcp_options p))) 0) as (r & Hr & _).
  unfold WrongTimestamp.backdate_tcp_timestamp. rewrite Hr. cbn [exec_bind].
  destruct r; do 2 eexists; (split; [reflexivity|solve_captured]).
Qed.

(** Backdating a timestamp.  [backdate_tcp_timestamp] never panics; when
    it returns new options, they are the captured ones, of the same length,
    with the TSval of a complete ten-byte timestamp option moved back by
    [offset] (mod 2^32) and every other byte, TSecr included, unchanged. *)
Theorem backdate_tcp_timestamp_spec options offset :
  ∃ r, WrongTimestamp.backdate_tcp_timestamp options offset = Done r ∧
    ∀ out, r = Some out →
      length out = length options ∧
      ∃ pos v, options !! pos = Some WrongTimestamp.TCP_TIMESTAMP_OPTION_KIND ∧
        options !! (pos + 1) = Some 10%Z ∧ pos + 10 ≤ length options ∧
        (get_range options (pos + 2) (pos + 6) = Some (to_be32 v) ∨ ¬ is_bytes options) ∧
        get_range out (pos + 2) (pos + 6) = Some (to_be32 (wsub32 v offset)) ∧
        ∀ i, ¬ (pos + 2 ≤ i < pos + 6) → out !! i = options !! i.
Proof.
  destruct (backdate_from_total options offset (S (length options)) 0) as (r & Hr & Hspec).
  exists r. split; [exact Hr|]. intros out Hout.
  destruct (Hspec out Hout) as (pos & b0 & b1 & b2 & b3 & Hp & Hk & Hl & H0 & H1 & H2 & H3 & ->).
  set (w := to_be32 (wsub32 (from_be32 b0 b1 b2 b3) offset)).
  assert (length w = 4) as Hw by done.
  assert (length (take (pos + 2) options) = pos + 2) as Ht by (rewrite length_take; lia).
  split; [rewrite !length_app, Ht, Hw, length_drop; lia|].
  exists pos, (from_be32 b0 b1 b2 b3). split; [done|]. split; [done|]. split; [done|].
  split; [|split].
  - destruct (decide (is_bytes options)) as [Hb|]; [left|by right].
    rewrite get_range_some by lia. f_equal.
    rewrite (drop_S _ b0), (drop_S _ b1), (drop_S _ b2), (drop_S _ b3)
      by (rewrite <- ?H1, <- ?H2, <- ?H3; first [done|f_equal; lia]).
    replace (pos + 6 - (pos + 2)) with 4 by lia. simpl.
    symmetry. apply be32_bytes_roundtrip; by eapply is_bytes_lookup.
  - apply (get_range_mid (take (pos + 2) options) w (drop (pos + 6) options));
      [done|done|rewrite Hw; lia].
  - intros i Hi. destruct (decide (i < pos + 2)).
    + rewrite lookup_app_l by lia. by apply lookup_take_lt.
    + rewrite lookup_app_r by (rewrite Ht; lia). rewrite Ht, lookup_app_r by (rewrite Hw; lia).
      rewrite lookup_drop, Hw. f_equal. lia.
Qed.

(** A NOP, then a timestamp option. *)
Lemma backdate_tcp_timestamp_spec_witness :
  ∃ out, WrongTimestamp.backdate_tcp_timestamp [1; 8; 10; 0; 0; 1; 0; 9; 9; 9; 9]%Z 1
         = Done (Some out) ∧ length out = 11 ∧ out !! 5 = Some 0%Z ∧ out !! 6 = Some 255%Z.
Proof.
  destruct (backdate_tcp_timestamp_spec [1; 8; 10; 0; 0; 1; 0; 9; 9; 9; 9]%Z 1) as (r & Hr & Hs).
  vm_compute in Hr. injection Hr as <-.
  eexists. split; [vm_compute; reflexivity|]. destruct (Hs _ eq_refl) as [Hl _].
  split; [exact Hl|]. split; vm_compute; reflexivity.
Defined.

(** Where the injected segment lands.  Each injector stages the flow's
    fake ClientHello as the payload and exactly the field that makes the
    server drop it.  [wrong_seq]: the sequence number is [payload_len +
    extra_offset] behind the next byte the server expects, so no payload byte
    is new to the server; [wrong_ack]: the acknowledgment is [offset] behind
    what the server has to see; [wrong_checksum]: the delta is added to the
    checksum; [wrong_md5]: an 18-byte option of kind 19 is appended;
    [low_ttl]: the TTL is the probe flow's own value if it has one and else
    the shared cell's. *)
Theorem injection_targets env s p syn ack :
  is_u32 syn → is_u32 ack → syn_seq s = Some syn → syn_ack_seq s = Some ack →
  (Z.of_nat (length (fake_data s)) < 2 ^ 31)%Z →
  (∀ m, (0 ≤ WrongSeq.extra_offset m < 2 ^ 31)%Z → ∃ p' seq,
    WrongSeq.on_handshake_complete_ack m env s p = Done (p', emit_and_wait_for_ack) ∧
    pv_new_payload p' = Some (fake_data s) ∧ pv_new_seq p' = Some seq ∧ is_u32 seq ∧
    wsub32 (wadd32 syn 1) seq = (Z.of_nat (length (fake_data s)) + WrongSeq.extra_offset m)%Z) ∧
  (∀ m, (0 ≤ WrongAck.offset m < 2 ^ 32)%Z → ∃ p' a,
    WrongAck.on_handshake_complete_ack m env s p =
      Done (p', complete_or_wait (WrongAck.complete_immediately m)) ∧
    pv_new_payload p' = Some (fake_data s) ∧ pv_new_seq p' = pv_new_seq p ∧
    pv_new_ack p' = Some a ∧ wsub32 (wadd32 ack 1) a = WrongAck.offset m) ∧
  (∀ m, ∃ p', WrongChecksum.on_handshake_complete_ack m env s p =
      Done (p', complete_or_wait (WrongChecksum.complete_immediately m)) ∧
    pv_new_payload p' = Some (fake_data s) ∧
    pv_corrupt_tcp_checksum_delta p' = Some (WrongChecksum.checksum_delta m)) ∧
  (∀ m, ∃ p', WrongMd5.on_handshake_complete_ack m env s p =
      Done (p', complete_or_wait (WrongMd5.complete_immediately m)) ∧
    pv_new_payload p' = Some (fake_data s) ∧ length (pv_append_tcp_options p') = 18 ∧
    head (pv_append_tcp_options p') = Some 19%Z) ∧
  (∀ m, ∃ p', LowTtl.on_handshake_complete_ack m env s p =
      Done (p', complete_or_wait (LowTtl.complete_immediately m)) ∧
    pv_new_payload p' = Some (fake_data s) ∧
    pv_new_ipv4_ttl p' = Some (default (env_live_ttl env) (low_ttl_override s))).
Proof.
  intros Hsyn Hack Es Ea Hlen. unfold is_u32 in *.
  split; [|split; [|split; [|split]]].
  - intros m Hm. unfold WrongSeq.on_handshake_complete_ack. rewrite Es. cbn [expect exec_bind].
    do 2 eexists. split; [reflexivity|]. cbn. split; [done|]. split; [reflexivity|].
    split; [apply wsub32_range|]. rewrite wsub32_wsub32, as_u32_small by (unfold is_u32; lia).
    apply wsub32_back. unfold is_u32. lia.
  - intros m Hm. unfold WrongAck.on_handshake_complete_ack. rewrite Ea. cbn [expect exec_bind].
    do 2 eexists. split; [reflexivity|]. cbn. split; [done|]. split; [done|].
    split; [reflexivity|]. by apply wsub32_back.
  - intros m. eexists. by repeat split.
  - intros m. eexists. by repeat split.
  - intros m. eexists. split; [reflexivity|]. cbn. split; [done|]. by destruct (low_ttl_override s).
Qed.

(** A flow in which both sequence numbers are known. *)
Definition sample_flow : FlowState :=
  MkFlowState true (Some 4294967290%Z) (Some 77%Z) false false false false false None
    [22; 3; 1; 0; 0]%Z None.
Definition sample_ack : PacketView :=
  MkPacketView Outbound 1 2 40000 443 4294967291 78 (MkTcpFlags false true false false false false)
    0 [] [] None None None None None None [] false None false None None None None.

Lemma injection_targets_witness :
  ∃ p' seq, WrongSeq.on_handshake_complete_ack (WrongSeq.Mk 3 true true) (MkMethodEnv 5 0)
    sample_flow sample_ack = Done (p', emit_and_wait_for_ack) ∧ pv_new_seq p' = Some seq ∧
    wsub32 (wadd32 4294967290 1) seq = 8%Z.
Proof.
  destruct (injection_targets (MkMethodEnv 5 0) sample_flow sample_ack 4294967290 77)
    as (H & _); try reflexivity; try (split; [discriminate|reflexivity]).
  destruct (H (WrongSeq.Mk 3 true true)) as (p' & seq & H1 & _ & H2 & _ & H3);
    [split; [discriminate|reflexivity]|].
  exists p', seq. split; [exact H1|]. split; [exact H2|exact H3].
Defined.
