(* ===== verification/DataMethods.v ===== *)
(** * Data-stage methods

    Models of [tls_record_frag], [fake_tls], [ip_frag], [disorder], [seqovl]
    and [urg_sni_split] ([crates/zerodpi-core/src/methods/*.rs]), which act on
    the first outbound data packet.  The main theorem here is that TLS record
    fragmentation only re-frames: the records of the output carry the bodies
    of the input's records, in order, in pieces of bounded size. *)
From stdpp Require Import base list numbers strings.
From Stdlib Require Import ZArith Lia.
From S2P Require Import Prelude Interceptor Flow Text Sni Config Methods HandshakeMethods.

(** ** tls_record_frag *)
Module TlsRecordFrag.
Definition TLS_RECORD_HEADER_LEN : nat := 5.

Record t := Mk { frag_size : Z; set_psh : bool; bump_ip_ident : bool }.
Definition new (cfg : Config) : t :=
  Mk cfg.(TLS_RECORD_FRAG_SIZE) cfg.(TLS_RECORD_FRAG_SET_PSH) cfg.(TLS_RECORD_FRAG_BUMP_IP_IDENT).

(** The inner loop: one record per chunk of the body. *)
Definition emit_chunks (header3 : list Z) (cs : list (list Z)) (out : list Z) : list Z :=
  foldl (λ out c,
    let len := as_u16 (Z.of_nat (length c)) in
    out ++ header3 ++ [as_u8 (Z.shiftr len 8); as_u8 len] ++ c) out cs.

(** The loop over the records, from [offset]; every iteration consumes a
    header, so [length data] iterations are enough ([fragment_loop_spec] has no
    fuel condition beyond that). *)
Fixpoint fragment_loop (fuel : nat) (data : list Z) (frag_size offset : nat) (out : list Z)
    : exec (option (list Z)) :=
  if negb (offset <? length data) then Done (Some out) else
  match fuel with
  | O => Panic
  | S fuel' =>
      if length data - offset <? TLS_RECORD_HEADER_LEN then Done None else
      let! header := slice data offset (offset + TLS_RECORD_HEADER_LEN) in
      let! body_len := be16_at header 3 in
      let body_start := offset + TLS_RECORD_HEADER_LEN in
      let body_end := body_start + body_len in
      if length data <? body_end then Done None else
      let! body := slice data body_start body_end in
      let! header3 := slice header 0 3 in
      let out := match body with
                 | [] => out ++ header
                 | _ => emit_chunks header3 (chunks frag_size body) out
                 end in
      fragment_loop fuel' data frag_size body_end out
  end.

Definition fragment_payload (data : list Z) (frag_size : nat) : exec (option (list Z)) :=
  rassert (0 <? frag_size) (
  match data with
  | [] => Done (Some [])
  | _ => fragment_loop (length data) data frag_size 0 []
  end).

Definition on_first_data_packet (m : t) : Hook := λ _ _ pkt,
  let! r := fragment_payload pkt.(pv_payload) (Z.to_nat m.(frag_size)) in
  match r with
  | None => Done (pkt, complete_and_accept)
  | Some fragmented =>
      let flags := with_psh m.(set_psh) pkt.(pv_flags) in
      let pkt := set_new_flags (Some flags) pkt in
      let pkt := set_new_payload (Some fragmented) pkt in
      let pkt := set_bump_ipv4_ident m.(bump_ip_ident) pkt in
      Done (pkt, emit_and_complete)
  end.

Definition method (m : t) : BypassMethod :=
  MkBypassMethod "tls_record_frag" false pass_through (on_first_data_packet m).
End TlsRecordFrag.

(** ** fake_tls *)
Module FakeTls.
Record t := Mk {
  extra_offset : Z; set_psh : bool; bump_ip_ident : bool; complete_immediately : bool;
  forward_real : bool; is_chained : bool; repeats : nat; chain_delay_ms : Int32Range }.
Definition new (cfg : Config) : t :=
  Mk cfg.(FAKE_TLS_EXTRA_OFFSET) cfg.(FAKE_TLS_SET_PSH) cfg.(FAKE_TLS_BUMP_IP_IDENT)
     cfg.(FAKE_TLS_COMPLETE_IMMEDIATELY) cfg.(FAKE_TLS_FORWARD_REAL) false
     (Z.to_nat cfg.(FAKE_TLS_REPEATS)) cfg.(FAKE_TLS_CHAIN_DELAY_MS).
Definition chained (b : bool) (m : t) : t :=
  Mk m.(extra_offset) m.(set_psh) m.(bump_ip_ident) m.(complete_immediately) m.(forward_real) b
     m.(repeats) m.(chain_delay_ms).

Definition on_first_data_packet (m : t) : Hook := λ env flow pkt,
  if m.(is_chained) && flow.(first_data_modified) then Done (pkt, CompleteAndAccept) else
  let! syn_seq := expect flow.(syn_seq) in
  let payload := flow.(fake_data) in
  let payload_len := as_u32 (Z.of_nat (length payload)) in
  let new_seq := wsub32 (wsub32 (wadd32 syn_seq 1) payload_len) m.(extra_offset) in
  let flags := with_psh m.(set_psh) pkt.(pv_flags) in
  if m.(is_chained) then
    let delay_ms := Z.max (snd (sample_i32 m.(chain_delay_ms) env.(env_seed))) 0 in
    let pkt := set_decoy (Some (MkDecoyPacket new_seq payload flags m.(bump_ip_ident)
                                  m.(repeats) delay_ms)) pkt in
    Done (pkt, EmitFakeAndAccept m.(complete_immediately) false)
  else
    let pkt := set_new_seq (Some new_seq) pkt in
    let pkt := set_new_flags (Some flags) pkt in
    let pkt := set_new_payload (Some payload) pkt in
    let pkt := set_bump_ipv4_ident m.(bump_ip_ident) pkt in
    let pkt := set_emit_original_after m.(forward_real) pkt in
    Done (pkt, EmitFakeAndAccept m.(complete_immediately) false).

Definition method (m : t) : BypassMethod :=
  MkBypassMethod "fake_tls" false pass_through (on_first_data_packet m).
End FakeTls.

(** ** ip_frag *)
Module IpFrag.
Record t := Mk { frag_size : nat; only_first_packet : bool }.
Definition new (cfg : Config) : t :=
  Mk (Z.to_nat cfg.(IP_FRAG_SIZE)) cfg.(IP_FRAG_ONLY_FIRST_PACKET).

Definition on_first_data_packet (m : t) : Hook := λ _ _ pkt,
  let tcp_hdr_len := 20 + length pkt.(pv_tcp_options) in
  let pkt := if m.(frag_size) <? tcp_hdr_len + pkt.(pv_payload_len)
             then set_ip_frag_payload_size (Some m.(frag_size)) pkt else pkt in
  if m.(only_first_packet) then Done (pkt, emit_and_complete)
  else Done (pkt, EmitFakeAndAccept false true).

Definition method (m : t) : BypassMethod :=
  MkBypassMethod "ip_frag" false pass_through (on_first_data_packet m).
End IpFrag.

(** ** seqovl and disorder

    [seed] is the value of [fresh_seed()], taken when the method is built. *)
Definition overlap_from_config (cfg : Config) (default_when_unset : Z) (seed : Z)
    : option OverlapFake :=
  let pattern := match cfg.(SEQOVL_PATTERN) with
                 | Some raw => match parse_hex_pattern raw with Ok p => Some p | Err _ => None end
                 | None => None
                 end in
  match cfg.(SEQOVL_SIZE) with
  | Some 0%Z => None
  | size =>
      let bytes := match size with
                   | Some n => n
                   | None => match pattern with
                             | Some p => Z.of_nat (length p) | None => default_when_unset end
                   end in
      if (bytes =? 0)%Z then None
      else Some (MkOverlapFake (Z.to_nat bytes) pattern seed)
  end.

Module Seqovl.
Record t := Mk { segments : nat; is_reverse : bool; delay_ms : Z; overlap : option OverlapFake }.
Definition new (cfg : Config) (seed : Z) : t :=
  Mk (Z.to_nat cfg.(SEQOVL_SEGMENTS)) cfg.(SEQOVL_REVERSE) cfg.(SEQOVL_DELAY_MS)
     (overlap_from_config cfg DEFAULT_SEQOVL_SIZE seed).

Definition on_first_data_packet (m : t) : Hook := λ _ _ pkt,
  let pkt := if m.(segments) <=? pkt.(pv_payload_len)
    then set_disorder_spec
           (Some (MkDisorderSpec m.(segments) m.(is_reverse) m.(delay_ms) m.(overlap))) pkt
    else pkt in
  Done (pkt, emit_and_complete).

Definition method (m : t) : BypassMethod :=
  MkBypassMethod "seqovl" false pass_through (on_first_data_packet m).
End Seqovl.

Module Disorder.
Record t := Mk {
  segments : nat; is_reverse : bool; delay_ms : Z; only_first_packet : bool;
  overlap : option OverlapFake }.
Definition new (cfg : Config) (seed : Z) : t :=
  Mk (Z.to_nat cfg.(DISORDER_SEGMENTS)) cfg.(DISORDER_REVERSE) cfg.(DISORDER_DELAY_MS)
     cfg.(DISORDER_ONLY_FIRST_PACKET) (overlap_from_config cfg 0 seed).

Definition on_first_data_packet (m : t) : Hook := λ _ _ pkt,
  let pkt := if m.(segments) <=? pkt.(pv_payload_len)
    then set_disorder_spec
           (Some (MkDisorderSpec m.(segments) m.(is_reverse) m.(delay_ms) m.(overlap))) pkt
    else pkt in
  if m.(only_first_packet) then Done (pkt, emit_and_complete)
  else Done (pkt, EmitFakeAndAccept false true).

Definition method (m : t) : BypassMethod :=
  MkBypassMethod "disorder" false pass_through (on_first_data_packet m).
End Disorder.

(** ** urg_sni_split *)
Module UrgSniSplit.
Record t := Mk { dummy_byte : Z; position : SniSplitPosition }.
Definition new (cfg : Config) : t := Mk cfg.(SNI_SPLIT_DUMMY_BYTE) cfg.(SNI_SPLIT_POSITION).

Definition resolve_insert_position (name_len : nat) (pos : SniSplitPosition) : nat :=
  if name_len =? 0 then 0 else
  let i := match pos with
           | SplitMiddle => name_len / 2
           | SplitStart => 0
           | SplitEnd => name_len - 1
           | SplitIndex n => Z.to_nat n
           end in
  Nat.min i (name_len - 1).

Definition insert_dummy (payload : list Z) (at_ : nat) (byte : Z) : exec (list Z) :=
  let! before := slice payload 0 at_ in
  let! after := slice payload at_ (length payload) in
  Done (before ++ [byte] ++ after).

Definition on_first_data_packet (m : t) : Hook := λ _ _ pkt,
  let! r := find_sni_range pkt.(pv_payload) in
  match r with
  | None => Done (pkt, PassThrough)
  | Some (name_start, name_len) =>
      let insert_at := name_start + resolve_insert_position name_len m.(position) in
      let! new_payload := insert_dummy pkt.(pv_payload) insert_at m.(dummy_byte) in
      let flags := with_urg pkt.(pv_flags) in
      let urgent_pointer := Z.min (Z.of_nat (insert_at + 1)) 65535 in
      let pkt := set_new_payload (Some new_payload) pkt in
      let pkt := set_new_flags (Some flags) pkt in
      let pkt := set_new_urgent_pointer (Some urgent_pointer) pkt in
      Done (pkt, emit_and_complete)
  end.

Definition method (m : t) : BypassMethod :=
  MkBypassMethod "urg_sni_split" false pass_through (on_first_data_packet m).
End UrgSniSplit.

(** ** TLS records *)

(** A record: content type and version bytes, and body. *)
Definition TlsRecord : Type := list Z * list Z.
Definition ser_record (r : TlsRecord) : list Z := r.1 ++ to_be16 (zlen r.2) ++ r.2.
Definition ser_records (rs : list TlsRecord) : list Z := concat (map ser_record rs).

(** The records of a byte string, [None] if the last one is incomplete. *)
Fixpoint parse_records (fuel : nat) (l : list Z) : option (list TlsRecord) :=
  match fuel, l with
  | _, [] => Some []
  | O, _ => None
  | S fuel', _ =>
      let n := Z.to_nat (from_be16 (l !!! 3) (l !!! 4)) in
      if (length l <? 5) || (length l <? 5 + n) then None
      else option_map (cons (take 3 l, take n (drop 5 l))) (parse_records fuel' (drop (5 + n) l))
  end.
Definition records (l : list Z) : option (list TlsRecord) := parse_records (length l) l.

(** The pieces a record is cut into. *)
Definition split_record (n : nat) (r : TlsRecord) : list TlsRecord :=
  match r.2 with [] => [r] | _ => map (pair r.1) (chunks n r.2) end.

Definition record_wf (r : TlsRecord) : Prop := length r.1 = 3 ∧ (zlen r.2 < 65536)%Z.

Lemma length_ser_record r : length r.1 = 3 → length (ser_record r) = 5 + length r.2.
Proof. intros H. unfold ser_record. rewrite !length_app, H. done. Qed.

(** Serialized records parse back. *)
Lemma parse_ser_records fuel rs :
  Forall record_wf rs → length (ser_records rs) ≤ fuel →
  parse_records fuel (ser_records rs) = Some rs.
Proof.
  revert fuel; induction rs as [|[h b] rs IH]; intros fuel Hw Hf; [by destruct fuel|].
  apply Forall_cons_1 in Hw as [[Hh Hb] Hw]. cbn [fst snd] in Hh, Hb.
  destruct h as [|h0 [|h1 [|h2 [|]]]]; try done. clear Hh.
  change (ser_records (([h0; h1; h2], b) :: rs)) with
    ([h0; h1; h2] ++ to_be16 (zlen b) ++ b ++ ser_records rs) in *.
  destruct fuel as [|fuel]; [simpl in Hf; lia|].
  assert (is_u16 (zlen b)) as Hu by (apply zlen_u16; done).
  set (l := [h0; h1; h2] ++ to_be16 (zlen b) ++ b ++ ser_records rs) in *.
  assert (length l = 5 + length b + length (ser_records rs)) as Hl
    by (unfold l; rewrite !length_app; simpl; lia).
  assert (Z.to_nat (from_be16 (l !!! 3) (l !!! 4)) = length b) as En.
  { unfold l. simpl. rewrite be16_roundtrip by done. apply zlen_to_nat. }
  assert (parse_records (S fuel) l =
    let n := Z.to_nat (from_be16 (l !!! 3) (l !!! 4)) in
    if (length l <? 5) || (length l <? 5 + n) then None
    else option_map (cons (take 3 l, take n (drop 5 l))) (parse_records fuel (drop (5 + n) l))) as ->
    by reflexivity.
  cbv zeta. rewrite En, Hl, !(proj2 (Nat.ltb_ge _ _)) by lia. cbn [orb].
  assert (drop 5 l = b ++ ser_records rs) as Hd by done.
  rewrite <- drop_drop, Hd, take_app_length, drop_app_length.
  rewrite IH; [done|done|lia].
Qed.

Lemma records_ser rs : Forall record_wf rs → records (ser_records rs) = Some rs.
Proof. intros. by apply parse_ser_records. Qed.

Import TlsRecordFrag.

Lemma emit_chunks_spec h cs out :
  Forall (λ c, (zlen c < 65536)%Z) cs →
  emit_chunks h cs out = out ++ ser_records (map (pair h) cs).
Proof.
  unfold emit_chunks. revert out; induction cs as [|c cs IH]; intros out Hc; simpl.
  - by rewrite app_nil_r.
  - apply Forall_cons_1 in Hc as [Hc Hcs]. rewrite IH by done. unfold ser_records. simpl.
    unfold ser_record at 2. cbn [fst snd]. rewrite <- !app_assoc. do 2 f_equal.
    fold (zlen c). rewrite as_u16_small by (apply zlen_u16; done).
    unfold to_be16, as_u8. rewrite Z.shiftr_div_pow2 by lia. done.
Qed.

Lemma ser_records_app xs ys : ser_records (xs ++ ys) = ser_records xs ++ ser_records ys.
Proof. unfold ser_records. by rewrite map_app, concat_app. Qed.

(** One record: what the loop body emits is the record's pieces. *)
Lemma emit_record n (l : list Z) k :
  0 < n → is_bytes l → 5 + k ≤ length l →
  k = Z.to_nat (from_be16 (l !!! 3) (l !!! 4)) →
  ∀ out, match take k (drop 5 l) with
  | [] => out ++ take 5 l
  | _ => emit_chunks (take 3 l) (chunks n (take k (drop 5 l))) out
  end = out ++ ser_records (split_record n (take 3 l, take k (drop 5 l))).
Proof.
  intros Hn Hb Hk Ek out. unfold split_record. cbn [fst snd].
  assert (length (take k (drop 5 l)) = k) as Hlb by (rewrite length_take, length_drop; lia).
  assert (is_u8 (l !!! 3) ∧ is_u8 (l !!! 4)) as [H3 H4].
  { split; eapply is_bytes_lookup; try exact Hb; apply list_lookup_lookup_total_lt; lia. }
  assert (Z.of_nat k < 65536)%Z as Hku.
  { pose proof (from_be16_range _ _ H3 H4). unfold is_u16 in *. lia. }
  destruct (take k (drop 5 l)) as [|b0 body] eqn:E.
  - simpl in Hlb. subst k. unfold ser_records. cbn [map concat]. unfold ser_record. cbn [fst snd].
    rewrite !app_nil_r. f_equal.
    assert (l !!! 3%nat = 0 ∧ l !!! 4%nat = 0)%Z as [E3 E4].
    { unfold is_u8, from_be16 in *. lia. }
    destruct l as [|x0 [|x1 [|x2 [|x3 [|x4 l']]]]]; try (simpl in Hk; lia).
    cbn in E3, E4. by subst.
  - rewrite <- E. apply emit_chunks_spec. apply Forall_forall. intros c Hc.
    pose proof (chunks_sizes n Hn (take k (drop 5 l))) as Hs.
    assert (length c ≤ length (take k (drop 5 l))) as Hcl.
    { apply list_elem_of_lookup in Hc as [i Hc]. apply lookup_chunks in Hc as [_ ->]; [|done].
      rewrite length_take, length_drop. lia. }
    unfold zlen. rewrite length_take, length_drop in Hcl. lia.
Qed.

Lemma fragment_loop_spec fuel data n off out :
  0 < n → is_bytes data → off ≤ length data → length data - off ≤ fuel →
  fragment_loop fuel data n off out =
  Done (option_map (λ rs, out ++ ser_records (flat_map (split_record n) rs))
          (parse_records fuel (drop off data))).
Proof.
  revert off out; induction fuel as [|fuel IH]; intros off out Hn Hb Ho Hf.
  - cbn [fragment_loop]. rewrite (proj2 (Nat.ltb_ge _ _)) by lia. cbn [negb].
    rewrite drop_ge by lia. cbn. by rewrite app_nil_r.
  - cbn [fragment_loop]. destruct (off <? length data) eqn:E; cbn [negb]; bool_to_prop.
    2:{ rewrite drop_ge by lia. cbn. by rewrite app_nil_r. }
    set (l := drop off data). assert (length l = length data - off) as Hl by apply length_drop.
    assert (is_bytes l) as Hbl by (by apply is_bytes_drop).
    assert (parse_records (S fuel) l =
      let k := Z.to_nat (from_be16 (l !!! 3) (l !!! 4)) in
      if (length l <? 5) || (length l <? 5 + k) then None
      else option_map (cons (take 3 l, take k (drop 5 l))) (parse_records fuel (drop (5 + k) l)))
      as -> by (destruct l; [simpl in Hl; lia|reflexivity]).
    cbv zeta. unfold TLS_RECORD_HEADER_LEN. rewrite <- Hl.
    destruct (length l <? 5) eqn:E5; [done|]. bool_to_prop. cbn [orb].
    rewrite slice_done by lia. fold l. cbn [exec_bind].
    replace (off + 5 - off) with 5 by lia.
    rewrite be16_at_total by (rewrite length_take; lia). cbn [exec_bind].
    assert (∀ i, i < 5 → take 5 l !!! i = l !!! i) as Ht.
    { intros i Hi. rewrite !list_lookup_total_alt. by rewrite lookup_take_lt. }
    rewrite !Ht by lia. set (k := Z.to_nat (from_be16 (l !!! 3) (l !!! 4))).
    replace (length data <? off + 5 + k) with (length l <? 5 + k)
      by (destruct (Nat.ltb_spec (length l) (5 + k)), (Nat.ltb_spec (length data) (off + 5 + k)); lia).
    destruct (length l <? 5 + k) eqn:Ek; [done|]. bool_to_prop.
    rewrite slice_done by lia. cbn [exec_bind].
    replace (off + 5 + k - (off + 5)) with k by lia. rewrite <- drop_drop. fold l.
    rewrite slice_done by (rewrite ?length_take; lia). cbn [exec_bind].
    rewrite drop_0, Nat.sub_0_r, take_take, Nat.min_l by lia.
    rewrite (emit_record n l k) by (done || lia).
    rewrite IH by (done || lia).
    replace (off + 5 + k) with (off + (5 + k)) by lia. rewrite <- drop_drop. fold l.
    f_equal. destruct (parse_records fuel (drop (5 + k) l)); cbn [option_map]; [|done].
    f_equal. cbn [flat_map]. by rewrite ser_records_app, <- app_assoc.
Qed.

Lemma parse_records_wf fuel l rs :
  is_bytes l → parse_records fuel l = Some rs → Forall record_wf rs ∧ ser_records rs = l.
Proof.
  revert l rs; induction fuel as [|fuel IH]; intros l rs Hb Hp.
  - destruct l; [|done]. by injection Hp as <-.
  - destruct l as [|x l']; [by injection Hp as <-|]. set (l := x :: l') in *.
    assert (parse_records (S fuel) l =
      let k := Z.to_nat (from_be16 (l !!! 3) (l !!! 4)) in
      if (length l <? 5) || (length l <? 5 + k) then None
      else option_map (cons (take 3 l, take k (drop 5 l))) (parse_records fuel (drop (5 + k) l)))
      as E by reflexivity.
    rewrite E in Hp. clear E. cbv zeta in Hp.
    set (k := Z.to_nat _) in Hp. destruct (_ || _) eqn:E; [done|]. bool_to_prop.
    destruct (parse_records fuel (drop (5 + k) l)) as [rs'|] eqn:Er; [|done].
    apply (inj Some) in Hp. subst rs. apply IH in Er as [Hw Hs]; [|by apply is_bytes_drop].
    assert (is_u8 (l !!! 3) ∧ is_u8 (l !!! 4)) as [H3 H4].
    { split; eapply is_bytes_lookup; try exact Hb; apply list_lookup_lookup_total_lt; lia. }
    pose proof (from_be16_range _ _ H3 H4) as Hu. unfold is_u16 in Hu.
    assert (zlen (take k (drop 5 l)) = from_be16 (l !!! 3) (l !!! 4)) as Hz
      by (unfold zlen; rewrite length_take, length_drop; lia).
    split.
    + constructor; [|done]. split; cbn [fst snd]; [rewrite length_take; lia|].
      rewrite Hz. change 65536%Z with (2 ^ 16)%Z. lia.
    + change (ser_records ((take 3 l, take k (drop 5 l)) :: rs'))
        with (ser_record (take 3 l, take k (drop 5 l)) ++ ser_records rs').
      rewrite Hs. unfold ser_record. cbn [fst snd]. rewrite Hz, be16_bytes_roundtrip by done.
      clearbody l. clear - H H0 k.
      destruct l as [|x0 [|x1 [|x2 [|x3 [|x4 l'']]]]]; try (simpl in H; lia).
      clearbody k. cbn. do 5 f_equal. apply take_drop.
Qed.

(** (C14) TLS record fragmentation re-frames and nothing else.  With a
    positive size [fragment_payload] never panics.  It gives up ([None])
    exactly when the payload is not a sequence of complete TLS records;
    otherwise its output is again a sequence of complete records: each input
    record becomes records of the same type and version whose bodies are the
    consecutive pieces of its body, nonempty and of at most [frag_size] bytes
    (an empty record is kept), so the concatenated bodies, which the server's
    TLS stack reads, are unchanged. *)
Theorem fragment_payload_reframes data n :
  0 < n → is_bytes data →
  match records data with
  | None => fragment_payload data n = Done None
  | Some rs => ∃ out, fragment_payload data n = Done (Some out) ∧
      records out = Some (flat_map (split_record n) rs) ∧
      concat (map snd (flat_map (split_record n) rs)) = concat (map snd rs) ∧
      Forall (λ r, length r.2 ≤ n) (flat_map (split_record n) rs)
  end.
Proof.
  intros Hn Hb.
  assert (fragment_payload data n =
    Done (option_map (λ rs, ser_records (flat_map (split_record n) rs)) (records data))) as ->.
  { unfold fragment_payload, rassert. rewrite (proj2 (Nat.ltb_lt _ _)) by done.
    pose proof (fragment_loop_spec (length data) data n 0 [] Hn Hb) as Hl.
    rewrite drop_0 in Hl. destruct data; [done|]. apply Hl; lia. }
  destruct (records data) as [rs|] eqn:Hr; [|done]. unfold records in Hr.
  apply parse_records_wf in Hr as [Hw _]; [|done]. cbn [option_map].
  eexists. split; [reflexivity|].
  assert (∀ r, r ∈ rs → record_wf r) as Hwr.
  { intros r Hr'. rewrite Forall_forall in Hw. by apply Hw. }
  assert (Forall record_wf (flat_map (split_record n) rs) ∧
          Forall (λ r, length r.2 ≤ n) (flat_map (split_record n) rs)) as [Hws Hsz].
  { clear Hw. induction rs as [|r rs IH]; [by split|]. cbn [flat_map].
    destruct IH as [I1 I2]; [intros r' Hr'; apply Hwr; by right|].
    assert (record_wf r) as [Hh Hz] by (apply Hwr; by left).
    destruct r as [h b]. cbn [fst snd] in Hh, Hz. unfold split_record. cbn [fst snd].
    destruct b as [|b0 b]; [split; (constructor; [|done]); [by split|simpl; lia]|].
    split; apply Forall_app; (split; [|done]); apply Forall_fmap;
      (eapply Forall_impl; [exact (chunks_sizes_le n Hn (b0 :: b))|]); intros c [H1 H2]; cbn.
    - split; [done|]. unfold zlen in *. simpl in *. lia.
    - done. }
  split; [by apply records_ser|]. split; [|done].
  clear - Hn. induction rs as [|[h b] rs IH]; [done|]. cbn [flat_map map concat].
  rewrite map_app, concat_app. apply (f_equal2 app); [|exact IH]. unfold split_record. cbn [fst snd].
  destruct b as [|b0 b]; [done|]. rewrite map_map. cbn [snd]. rewrite map_id.
  by apply concat_chunks.
Qed.

Lemma fragment_payload_reframes_witness :
  records [22; 3; 1; 0; 3; 1; 2; 3; 20; 3; 3; 0; 0]%Z ≠ None ∧
  fragment_payload [22; 3; 1; 0; 3; 1; 2; 3; 20; 3; 3; 0; 0]%Z 2 =
    Done (Some [22; 3; 1; 0; 2; 1; 2; 22; 3; 1; 0; 1; 3; 20; 3; 3; 0; 0]%Z) ∧
  fragment_payload [22; 3; 1; 0; 3; 1; 2]%Z 2 = Done None.
Proof.
  split; [vm_compute; discriminate|]. split.
  - destruct (fragment_payload_reframes [22; 3; 1; 0; 3; 1; 2; 3; 20; 3; 3; 0; 0]%Z 2)
      as (out & H & _); [lia|by apply is_bytesb_spec|].
    rewrite H. vm_compute in H. by rewrite <- H.
  - refine (fragment_payload_reframes [22; 3; 1; 0; 3; 1; 2]%Z 2 _ _);
      [lia|by apply is_bytesb_spec].
Defined.

(** ** Every method is safe at its stage *)

(** The loop never indexes out of bounds and never runs out of fuel, whatever
    the payload. *)
Lemma fragment_loop_total fuel data n off out :
  length data - off ≤ fuel → ∃ r, fragment_loop fuel data n off out = Done r.
Proof.
  revert off out; induction fuel as [|fuel IH]; intros off out Hf; cbn [fragment_loop];
    (destruct (Nat.ltb_spec off (length data)); cbn [negb]; [|by eexists]); [lia|].
  destruct (_ <? TLS_RECORD_HEADER_LEN) eqn:E; [by eexists|]. bool_to_prop.
  unfold TLS_RECORD_HEADER_LEN in *.
  rewrite slice_done by lia. cbn [exec_bind].
  rewrite be16_at_total by (rewrite length_take, length_drop; lia). cbn [exec_bind].
  destruct (_ <? _) eqn:E2; [by eexists|]. bool_to_prop.
  rewrite slice_done by lia. cbn [exec_bind].
  rewrite slice_done by (rewrite ?length_take, ?length_drop; lia). cbn [exec_bind].
  apply IH. lia.
Qed.

Lemma fragment_payload_total data n : 0 < n → ∃ r, fragment_payload data n = Done r.
Proof.
  intros Hn. unfold fragment_payload, rassert. rewrite (proj2 (Nat.ltb_lt _ _) Hn).
  destruct data; [by eexists|]. apply fragment_loop_total. lia.
Qed.

Lemma tls_record_frag_safe m : (0 < frag_size m)%Z → DataSafe (TlsRecordFrag.method m).
Proof.
  intros Hn env s p _. simpl. unfold TlsRecordFrag.on_first_data_packet.
  destruct (fragment_payload_total (pv_payload p) (Z.to_nat (frag_size m)) ltac:(lia)) as [r ->].
  cbn [exec_bind]. destruct r; do 2 eexists; (split; [reflexivity|solve_captured]).
Qed.

#[export] Instance fake_tls_safe m : DataSafe (FakeTls.method m).
Proof.
  intros env s p [syn Hs]. simpl. unfold FakeTls.on_first_data_packet. rewrite Hs.
  cbn [expect exec_bind]. destruct (FakeTls.is_chained m && _), (FakeTls.is_chained m);
    do 2 eexists; (split; [reflexivity|solve_captured]).
Qed.

#[export] Instance ip_frag_safe m : DataSafe (IpFrag.method m).
Proof.
  intros env s p _. simpl. unfold IpFrag.on_first_data_packet.
  destruct (_ <? _), (IpFrag.only_first_packet m);
    do 2 eexists; (split; [reflexivity|solve_captured]).
Qed.

#[export] Instance seqovl_safe m : DataSafe (Seqovl.method m).
Proof.
  intros env s p _. simpl. unfold Seqovl.on_first_data_packet.
  destruct (_ <=? _); do 2 eexists; (split; [reflexivity|solve_captured]).
Qed.

#[export] Instance disorder_safe m : DataSafe (Disorder.method m).
Proof.
  intros env s p _. simpl. unfold Disorder.on_first_data_packet.
  destruct (_ <=? _), (Disorder.only_first_packet m);
    do 2 eexists; (split; [reflexivity|solve_captured]).
Qed.

#[export] Instance urg_sni_split_safe m : HandshakeSafe (UrgSniSplit.method m).
Proof. intros env s p _. by apply (pass_through_safe (λ _, True)). Qed.

(** ** urg_sni_split *)
Lemma resolve_insert_position_lt n pos :
  0 < n → UrgSniSplit.resolve_insert_position n pos < n.
Proof. intros. unfold UrgSniSplit.resolve_insert_position. destruct n; simpl; lia. Qed.

Lemma insert_dummy_done l i b :
  i ≤ length l → UrgSniSplit.insert_dummy l i b = Done (take i l ++ b :: drop i l).
Proof.
  intros Hi. unfold UrgSniSplit.insert_dummy. rewrite !slice_done by lia. cbn [exec_bind].
  rewrite drop_0, Nat.sub_0_r, (take_ge (drop i l)) by (rewrite length_drop; lia). done.
Qed.

Lemma delete_spliced {A} (l : list A) i b :
  i ≤ length l → delete i (take i l ++ b :: drop i l) = l.
Proof.
  intros Hi. rewrite <- (length_take_le l i) at 1 by done.
  rewrite delete_middle. apply take_drop.
Qed.

(** What [urg_sni_split] stages.  When the payload holds an SNI, the
    staged payload has one more byte, the dummy, at the position the urgent
    pointer marks (one past it), strictly inside the host name and flagged
    URG; a TCP stack that takes the urgent byte out of the stream reads the
    original payload.  No other flag changes.  Without an SNI the packet is
    passed through unchanged. *)
Theorem urg_dummy_removed m env s p :
  (zlen (pv_payload p) < 65536)%Z →
  (find_sni_range (pv_payload p) = Done None →
   UrgSniSplit.on_first_data_packet m env s p = Done (p, PassThrough)) ∧
  (∀ st len, find_sni_range (pv_payload p) = Done (Some (st, len)) →
   ∃ p' up np, UrgSniSplit.on_first_data_packet m env s p = Done (p', emit_and_complete) ∧
     pv_new_urgent_pointer p' = Some (Z.of_nat (S up)) ∧ (Z.of_nat (S up) ≤ 65535)%Z ∧
     pv_new_payload p' = Some np ∧ st ≤ up < st + len ∧
     np !! up = Some (UrgSniSplit.dummy_byte m) ∧ delete up np = pv_payload p ∧
     pv_new_flags p' = Some (with_urg (pv_flags p))).
Proof.
  intros Hl. unfold UrgSniSplit.on_first_data_packet. split; [by intros ->|].
  intros st len Hr. rewrite Hr. cbn [exec_bind].
  apply find_sni_range_bounds in Hr as [Hpos Hb].
  pose proof (resolve_insert_position_lt len (UrgSniSplit.position m) Hpos) as Hi.
  set (i := UrgSniSplit.resolve_insert_position _ _) in *. unfold zlen in Hl.
  rewrite insert_dummy_done by lia. cbn [exec_bind].
  eexists _, (st + i), _. split; [reflexivity|]. cbn.
  split; [f_equal; lia|]. split; [lia|]. split; [done|]. split; [lia|].
  split; [|split; [apply delete_spliced; lia|done]].
  rewrite lookup_app_r, length_take_le by (rewrite ?length_take; lia).
  by rewrite Nat.sub_diag.
Qed.

(** A data packet with payload [l]. *)
Definition data_packet (l : list Z) : PacketView :=
  MkPacketView Outbound 1 2 40000 443 4294967291 78 (MkTcpFlags false true true false false false)
    (length l) l [] None None None None None None [] false None false None None None None.

Lemma urg_dummy_removed_witness :
  ∃ p' up np, UrgSniSplit.on_first_data_packet (UrgSniSplit.Mk 120 SplitMiddle) (MkMethodEnv 5 0)
      sample_flow (data_packet (ch_record sample_hello)) = Done (p', emit_and_complete) ∧
    pv_new_urgent_pointer p' = Some (Z.of_nat (S up)) ∧ pv_new_payload p' = Some np ∧
    delete up np = ch_record sample_hello.
Proof.
  destruct (urg_dummy_removed (UrgSniSplit.Mk 120 SplitMiddle) (MkMethodEnv 5 0) sample_flow
    (data_packet (ch_record sample_hello)) ltac:(done)) as [_ H].
  destruct (find_sni_range (ch_record sample_hello)) as [[[st len]|]|] eqn:E;
    [|vm_compute in E; discriminate|vm_compute in E; discriminate].
  destruct (H st len E) as (p' & up & np & H1 & H2 & _ & H3 & _ & _ & H4 & _).
  exists p', up, np. split; [exact H1|]. split; [exact H2|]. split; [exact H3|exact H4].
Defined.

(** ** Where the decoy lands *)

(** The decoy of [fake_tls] lies behind the server's window.  Chained or
    not, the hook stages the fake ClientHello at a sequence number that is
    [payload_len + extra_offset] behind the next byte the server expects, so
    the segment ends at or before that byte and none of it is new data.
    Unchained it replaces the packet (the original following it exactly when
    [FAKE_TLS_FORWARD_REAL] is set); chained it is a separate packet, the
    primary one keeping every staged field; and a chained instance stages it
    only on the first data packet. *)
Theorem fake_tls_behind_window m env s p syn :
  syn_seq s = Some syn → is_u32 syn → (0 ≤ FakeTls.extra_offset m < 2 ^ 31)%Z →
  (Z.of_nat (length (fake_data s)) < 2 ^ 31)%Z →
  let behind seq := is_u32 seq ∧
    wsub32 (wadd32 syn 1) seq =
      (Z.of_nat (length (fake_data s)) + FakeTls.extra_offset m)%Z in
  (FakeTls.is_chained m = false → ∃ p' seq,
    FakeTls.on_first_data_packet m env s p =
      Done (p', EmitFakeAndAccept (FakeTls.complete_immediately m) false) ∧
    pv_new_payload p' = Some (fake_data s) ∧ pv_new_seq p' = Some seq ∧ behind seq ∧
    pv_emit_original_after p' = FakeTls.forward_real m ∧ pv_decoy p' = pv_decoy p) ∧
  (FakeTls.is_chained m = true → first_data_modified s = false → ∃ d,
    FakeTls.on_first_data_packet m env s p =
      Done (set_decoy (Some d) p, EmitFakeAndAccept (FakeTls.complete_immediately m) false) ∧
    dp_payload d = fake_data s ∧ behind (dp_seq d) ∧ dp_repeats d = FakeTls.repeats m) ∧
  (FakeTls.is_chained m = true → first_data_modified s = true →
    FakeTls.on_first_data_packet m env s p = Done (p, CompleteAndAccept)).
Proof.
  intros Hs Hu He Hl behind. unfold is_u32 in *.
  assert (behind (wsub32 (wsub32 (wadd32 syn 1) (as_u32 (Z.of_nat (length (fake_data s)))))
            (FakeTls.extra_offset m))) as Hb.
  { split; [apply wsub32_range|]. rewrite wsub32_wsub32, as_u32_small by (unfold is_u32; lia).
    apply wsub32_back. unfold is_u32. lia. }
  clearbody behind. unfold FakeTls.on_first_data_packet. rewrite Hs. cbn [expect exec_bind].
  split; [|split].
  - intros ->. cbn [andb]. do 2 eexists. split; [reflexivity|]. by repeat split.
  - intros -> ->. cbn [andb]. eexists. split; [reflexivity|]. by repeat split.
  - by intros -> ->.
Qed.

Lemma fake_tls_behind_window_witness :
  ∃ p' seq, FakeTls.on_first_data_packet (FakeTls.Mk 2 true true true true false 1
      (MkInt32Range 0 0)) (MkMethodEnv 5 0) sample_flow (data_packet [1; 2; 3]%Z) =
      Done (p', emit_and_complete) ∧ pv_new_seq p' = Some seq ∧
    wsub32 (wadd32 4294967290 1) seq = 7%Z.
Proof.
  destruct (fake_tls_behind_window (FakeTls.Mk 2 true true true true false 1 (MkInt32Range 0 0))
    (MkMethodEnv 5 0) sample_flow (data_packet [1; 2; 3]%Z) 4294967290) as (H & _);
    [reflexivity|split; [discriminate|reflexivity]|split; [discriminate|reflexivity]|reflexivity|].
  destruct (H eq_refl) as (p' & seq & H1 & _ & H2 & [_ H3] & _).
  exists p', seq. split; [exact H1|]. split; [exact H2|exact H3].
Defined.
