(* ===== verification/Composite.v ===== *)
(** * Method composition

    Model of [CompositeMethod] ([crates/zerodpi-core/src/methods/composite.rs])
    and of [build_method] ([methods/mod.rs]): the configured list becomes one
    composite whose handshake members stage onto the same fake packet and
    whose data members are chained on the first data packet.  The theorems
    give the composite's packet in closed form, its safety from its members'
    (through the interface of [Methods]), and what [build_method] returns for
    a validated configuration. *)
From stdpp Require Import base list numbers strings.
From Stdlib Require Import ZArith Lia.
From S2P Require Import Prelude Interceptor Flow Text Config Methods HandshakeMethods DataMethods.

Open Scope string_scope.
Open Scope list_scope.
Open Scope nat_scope.

(** ** The composite *)
Record CompositeMethod := MkCompositeMethod {
  handshake_methods : list BypassMethod;
  data_methods : list BypassMethod;
  segments_first_client_hello : bool;
  pads_first_client_hello : bool;
  mixed_case_sni_first_hello : bool;
  splits_first_client_hello : bool;
  ccs_prefix_first_hello : bool;
  record_splits_first_client_hello : bool }.

Definition composite_name (c : CompositeMethod) : string :=
  let push (b : bool) (s : string) := if b then [s] else [] in
  str_join " + " (map bm_name c.(handshake_methods) ++ map bm_name c.(data_methods) ++
    push c.(segments_first_client_hello) "tls_frag" ++
    push c.(pads_first_client_hello) "tls_padding" ++
    push c.(mixed_case_sni_first_hello) "mixed_case_sni" ++
    push c.(splits_first_client_hello) "sni_boundary_frag" ++
    push c.(ccs_prefix_first_hello) "ccs_prefix" ++
    push c.(record_splits_first_client_hello) "tls_record_split").

(** [find_map(|m| m.low_ttl_handle())] finds a handle. *)
Definition composite_low_ttl_handle (c : CompositeMethod) : bool :=
  existsb bm_low_ttl_handle c.(handshake_methods).

Definition is_emit (a : MethodAction) : bool :=
  match a with EmitFakeAndAccept _ _ => true | _ => false end.

(** The variables of the handshake loop. *)
Record HsLoop := MkHsLoop {
  hl_pkt : PacketView;
  hl_staged_any : bool;
  hl_first_flags : option TcpFlags;
  hl_first_bump_ident : bool;
  hl_last_action : option MethodAction }.

Definition handshake_step (env : MethodEnv) (flow : FlowState) (st : HsLoop) (m : BypassMethod)
    : exec HsLoop :=
  let flags_before := st.(hl_pkt).(pv_new_flags) in
  let bump_before := st.(hl_pkt).(pv_bump_ipv4_ident) in
  let! r := bm_on_handshake_complete_ack m env flow st.(hl_pkt) in
  let '(pkt, action) := r in
  Done (MkHsLoop pkt
    (if is_emit action then true else st.(hl_staged_any))
    (if is_none flags_before && negb (is_none pkt.(pv_new_flags)) then pkt.(pv_new_flags)
     else st.(hl_first_flags))
    (if negb bump_before && pkt.(pv_bump_ipv4_ident) then true else st.(hl_first_bump_ident))
    (Some action)).

Definition waits_for_data (c : CompositeMethod) : bool :=
  match c.(data_methods) with [] => false | _ => true end ||
  c.(segments_first_client_hello) || c.(pads_first_client_hello) ||
  c.(splits_first_client_hello) || c.(ccs_prefix_first_hello) ||
  c.(record_splits_first_client_hello).

Definition last_to_action (staged_any : bool) (last : option MethodAction) : MethodAction :=
  match last with
  | Some (EmitFakeAndAccept true _) => emit_and_complete
  | Some (EmitFakeAndAccept false _) => emit_and_wait_for_ack
  | Some AbortAndAccept => if negb staged_any then abort_and_accept else complete_and_accept
  | Some CompleteAndAccept => complete_and_accept
  | Some PassThrough | None => complete_and_accept
  end.

Definition composite_on_handshake_complete_ack (c : CompositeMethod) : Hook := λ env flow pkt,
  let! st := exec_fold (handshake_step env flow) c.(handshake_methods)
               (MkHsLoop pkt false None false None) in
  let pkt := set_new_flags st.(hl_first_flags) st.(hl_pkt) in
  let pkt := set_bump_ipv4_ident st.(hl_first_bump_ident) pkt in
  if waits_for_data c then Done (pkt, emit_and_wait_for_data)
  else Done (pkt, last_to_action st.(hl_staged_any) st.(hl_last_action)).

(** The data loop; the first [AbortAndAccept] returns. *)
Fixpoint data_loop (env : MethodEnv) (flow : FlowState) (ms : list BypassMethod)
    (pkt : PacketView) (saw_emit complete_immediately continue_with_data : bool)
    : exec (PacketView * MethodAction) :=
  match ms with
  | [] => Done (pkt, if saw_emit then EmitFakeAndAccept complete_immediately continue_with_data
                     else complete_and_accept)
  | m :: ms' =>
      let! r := bm_on_first_data_packet m env flow pkt in
      let '(pkt, action) := r in
      match action with
      | EmitFakeAndAccept immediate more =>
          data_loop env flow ms' pkt true (complete_immediately && immediate)
            (continue_with_data || more)
      | AbortAndAccept => Done (pkt, abort_and_accept)
      | CompleteAndAccept | PassThrough =>
          data_loop env flow ms' pkt saw_emit complete_immediately continue_with_data
      end
  end.

Definition composite_on_first_data_packet (c : CompositeMethod) : Hook := λ env flow pkt,
  match c.(data_methods) with
  | [] => Done (pkt, complete_and_accept)
  | ms => data_loop env flow ms pkt false true false
  end.

(** The composite as a [BypassMethod]. *)
Definition composite (c : CompositeMethod) : BypassMethod :=
  MkBypassMethod (composite_name c) (composite_low_ttl_handle c)
    (composite_on_handshake_complete_ack c) (composite_on_first_data_packet c).

(** ** build_method

    [seed] is the [fresh_seed()] of the overlap descriptor a [disorder] or
    [seqovl] member takes when it is built. *)
Definition chained_fake_tls (cfg : Config) : bool :=
  let l := cfg.(BYPASS_METHOD) in
  list_contains l "fake_tls" &&
  (list_contains l "tls_record_frag" || existsb (list_contains l) EMISSION_SHAPERS).

(** The members of one name: [inl] for the handshake list, [inr] for the data
    list. *)
Definition build_member (cfg : Config) (seed : Z) (name : string)
    : option (option (BypassMethod + BypassMethod)) :=
  if str_mem name SOCKET_METHODS then Some None
  else if String.eqb name "tls_record_frag"
    then Some (Some (inr (TlsRecordFrag.method (TlsRecordFrag.new cfg))))
  else if String.eqb name "fake_tls"
    then Some (Some (inr (FakeTls.method
           (FakeTls.chained (chained_fake_tls cfg) (FakeTls.new cfg)))))
  else if String.eqb name "ip_frag" then Some (Some (inr (IpFrag.method (IpFrag.new cfg))))
  else if String.eqb name "disorder"
    then Some (Some (inr (Disorder.method (Disorder.new cfg seed))))
  else if String.eqb name "seqovl" then Some (Some (inr (Seqovl.method (Seqovl.new cfg seed))))
  else if String.eqb name "wrong_seq" then Some (Some (inl (WrongSeq.method (WrongSeq.new cfg))))
  else if String.eqb name "wrong_ack" then Some (Some (inl (WrongAck.method (WrongAck.new cfg))))
  else if String.eqb name "wrong_checksum"
    then Some (Some (inl (WrongChecksum.method (WrongChecksum.new cfg))))
  else if String.eqb name "wrong_md5" then Some (Some (inl (WrongMd5.method (WrongMd5.new cfg))))
  else if String.eqb name "wrong_timestamp"
    then Some (Some (inl (WrongTimestamp.method (WrongTimestamp.new cfg))))
  else if String.eqb name "low_ttl" then Some (Some (inl (LowTtl.method (LowTtl.new cfg))))
  else if String.eqb name "urg_sni_split"
    then Some (Some (inl (UrgSniSplit.method (UrgSniSplit.new cfg))))
  else None.

(** The loop over the names, the two lists growing at their ends. *)
Fixpoint build_members (cfg : Config) (seed : Z) (names : list string)
    (handshake data : list BypassMethod) : option (list BypassMethod * list BypassMethod) :=
  match names with
  | [] => Some (handshake, data)
  | name :: names' =>
      match build_member cfg seed name with
      | None => None
      | Some None => build_members cfg seed names' handshake data
      | Some (Some (inl m)) => build_members cfg seed names' (handshake ++ [m]) data
      | Some (Some (inr m)) => build_members cfg seed names' handshake (data ++ [m])
      end
  end.

Definition build_composite (cfg : Config) (seed : Z) : option CompositeMethod :=
  let l := cfg.(BYPASS_METHOD) in
  if list_is_empty l || is_socket_only l then None else
  match build_members cfg seed l [] [] with
  | None => None
  | Some (handshake, data) =>
      Some (MkCompositeMethod handshake data (list_contains l "tls_frag")
        (list_contains l "tls_padding") (list_contains l "mixed_case_sni")
        (list_contains l "sni_boundary_frag") (list_contains l "ccs_prefix")
        (list_contains l "tls_record_split"))
  end.

Definition build_method (cfg : Config) (seed : Z) : option BypassMethod :=
  option_map composite (build_composite cfg seed).

(** ** Safety from the members *)
Lemma handshake_fold_safe env s (ms : list BypassMethod) st :
  Forall HandshakeSafe ms → handshake_pre s →
  ∃ st', exec_fold (handshake_step env s) ms st = Done st' ∧ captured (hl_pkt st) (hl_pkt st').
Proof.
  intros Hms Hs. revert st; induction Hms as [|m ms Hm _ IH]; intros st; cbn [exec_fold].
  { by exists st. }
  unfold handshake_step at 1. destruct (Hm env s (hl_pkt st) Hs) as (p' & a & -> & Hc).
  cbn [exec_bind].
  edestruct IH as (st' & -> & Hc').
  exists st'. split; [done|]. cbn [hl_pkt] in Hc'. by etransitivity.
Qed.

(** The interface's promise is inherited by the composite. *)
Lemma composite_handshake_safe c :
  Forall HandshakeSafe c.(handshake_methods) → HandshakeSafe (composite c).
Proof.
  intros Hms env s p Hs. simpl. unfold composite_on_handshake_complete_ack.
  destruct (handshake_fold_safe env s _ (MkHsLoop p false None false None) Hms Hs)
    as (st & -> & Hc). cbn [exec_bind hl_pkt] in *.
  destruct (waits_for_data c); do 2 eexists; (split; [reflexivity|]);
    (etransitivity; [exact Hc|solve_captured]).
Qed.

Lemma data_loop_safe env s ms p b1 b2 b3 :
  Forall DataSafe ms → data_pre s →
  ∃ p' a, data_loop env s ms p b1 b2 b3 = Done (p', a) ∧ captured p p'.
Proof.
  intros Hms Hs. revert p b1 b2 b3; induction Hms as [|m ms Hm _ IH]; intros p b1 b2 b3;
    cbn [data_loop].
  { by do 2 eexists. }
  destruct (Hm env s p Hs) as (p1 & a1 & -> & H1). cbn [exec_bind].
  destruct a1 as [x y| | |].
  4:{ by do 2 eexists. }
  all: edestruct (IH p1) as (p' & a & -> & Hc);
       do 2 eexists; (split; [reflexivity|]); by etransitivity.
Qed.

Lemma composite_data_safe c : Forall DataSafe c.(data_methods) → DataSafe (composite c).
Proof.
  intros Hms env s p Hs. simpl. unfold composite_on_first_data_packet.
  destruct (data_methods c) eqn:E; [by do 2 eexists|]. rewrite <- E in *. by apply data_loop_safe.
Qed.

(** ** What the configured names are built into *)
Definition HANDSHAKE_SIDE : list string :=
  ["wrong_seq"; "wrong_ack"; "wrong_checksum"; "wrong_md5"; "wrong_timestamp"; "low_ttl";
   "urg_sni_split"].
Definition DATA_SIDE : list string :=
  ["tls_record_frag"; "fake_tls"; "ip_frag"; "disorder"; "seqovl"].

Definition handshake_names (l : list string) : list string :=
  List.filter (λ n, str_mem n HANDSHAKE_SIDE) l.
Definition data_names (l : list string) : list string :=
  List.filter (λ n, str_mem n DATA_SIDE) l.

(** The member a name is built into. *)
Definition handshake_member (cfg : Config) (seed : Z) (name : string) : BypassMethod :=
  match build_member cfg seed name with
  | Some (Some (inl m)) => m | _ => UrgSniSplit.method (UrgSniSplit.new cfg) end.
Definition data_member (cfg : Config) (seed : Z) (name : string) : BypassMethod :=
  match build_member cfg seed name with
  | Some (Some (inr m)) => m | _ => IpFrag.method (IpFrag.new cfg) end.

Ltac base_cases H :=
  apply list_elem_of_In in H; cbn [In BASE_BYPASS_METHODS] in H;
  repeat match type of H with _ ∨ _ => destruct H as [<-|H] end; [..|done].

Lemma build_member_base cfg seed name : name ∈ BASE_BYPASS_METHODS →
  build_member cfg seed name =
    Some (if str_mem name HANDSHAKE_SIDE then Some (inl (handshake_member cfg seed name))
          else if str_mem name DATA_SIDE then Some (inr (data_member cfg seed name)) else None).
Proof. intros H. base_cases H; reflexivity. Qed.

Lemma build_members_base cfg seed l h d :
  (∀ n, n ∈ l → n ∈ BASE_BYPASS_METHODS) →
  build_members cfg seed l h d =
    Some (h ++ map (handshake_member cfg seed) (handshake_names l),
          d ++ map (data_member cfg seed) (data_names l)).
Proof.
  unfold handshake_names, data_names.
  revert h d; induction l as [|n l IH]; intros h d Hl; cbn [build_members].
  { cbn. by rewrite !app_nil_r. }
  assert (n ∈ BASE_BYPASS_METHODS) as Hn by (apply Hl; by left).
  rewrite (build_member_base cfg seed n Hn).
  assert (∀ m, m ∈ l → m ∈ BASE_BYPASS_METHODS) as Hl' by (intros; apply Hl; by right).
  cbn [List.filter]. base_cases Hn; cbn -[handshake_member data_member];
    rewrite IH by done; cbn [map]; by rewrite <- ?app_assoc.
Qed.

(** The socket-side names, in the order of the composite's name. *)
Definition socket_names (l : list string) : list string :=
  List.filter (list_contains l)
    ["tls_frag"; "tls_padding"; "mixed_case_sni"; "sni_boundary_frag"; "ccs_prefix";
     "tls_record_split"].

Lemma handshake_member_name cfg seed n :
  str_mem n HANDSHAKE_SIDE = true → bm_name (handshake_member cfg seed n) = n.
Proof.
  intros H%str_mem_spec. apply list_elem_of_In in H. cbn [In HANDSHAKE_SIDE] in H.
  repeat destruct H as [<-|H]; try reflexivity. done.
Qed.
Lemma data_member_name cfg seed n :
  str_mem n DATA_SIDE = true → bm_name (data_member cfg seed n) = n.
Proof.
  intros H%str_mem_spec. apply list_elem_of_In in H. cbn [In DATA_SIDE] in H.
  repeat destruct H as [<-|H]; try reflexivity. done.
Qed.

Lemma map_names {A} (f : string → A) (g : A → string) (P : string → bool) l :
  (∀ n, P n = true → g (f n) = n) → map g (map f (List.filter P l)) = List.filter P l.
Proof.
  intros H. induction l as [|n l IH]; [done|]. cbn [List.filter].
  destruct (P n) eqn:E; [|done]. cbn [map]. by rewrite IH, H.
Qed.

Lemma handshake_member_safe cfg seed n :
  str_mem n HANDSHAKE_SIDE = true → HandshakeSafe (handshake_member cfg seed n).
Proof.
  intros H%str_mem_spec. apply list_elem_of_In in H. cbn [In HANDSHAKE_SIDE] in H.
  repeat destruct H as [<-|H]; try done; cbn; apply _.
Qed.
Lemma data_member_safe cfg seed n :
  (0 < cfg.(TLS_RECORD_FRAG_SIZE))%Z →
  str_mem n DATA_SIDE = true → DataSafe (data_member cfg seed n).
Proof.
  intros Hf H%str_mem_spec. apply list_elem_of_In in H. cbn [In DATA_SIDE] in H.
  repeat destruct H as [<-|H]; try done; cbn; try apply _. by apply tls_record_frag_safe.
Qed.

Lemma Forall_map_filter {A} (Q : A → Prop) (f : string → A) (P : string → bool) l :
  (∀ n, P n = true → Q (f n)) → Forall Q (map f (List.filter P l)).
Proof.
  intros H. induction l as [|n l IH]; [constructor|]. cbn [List.filter].
  destruct (P n) eqn:E; [|done]. constructor; auto.
Qed.

(** The composite built for a list of base methods. *)
Definition composite_of (cfg : Config) (seed : Z) : CompositeMethod :=
  let l := cfg.(BYPASS_METHOD) in
  MkCompositeMethod (map (handshake_member cfg seed) (handshake_names l))
    (map (data_member cfg seed) (data_names l)) (list_contains l "tls_frag")
    (list_contains l "tls_padding") (list_contains l "mixed_case_sni")
    (list_contains l "sni_boundary_frag") (list_contains l "ccs_prefix")
    (list_contains l "tls_record_split").

Lemma build_composite_ok cfg seed : methods_ok cfg →
  build_composite cfg seed =
    if requires_interceptor cfg.(BYPASS_METHOD) then Some (composite_of cfg seed) else None.
Proof.
  intros [Hne Hb _ _ _ _ _]. unfold build_composite. cbv zeta. rewrite socket_only_iff.
  destruct (BYPASS_METHOD cfg) as [|n0 l0] eqn:E; [done|]. rewrite <- E in *.
  replace (list_is_empty (BYPASS_METHOD cfg)) with false by (by rewrite E). cbn [orb negb andb].
  destruct (requires_interceptor _); cbn [negb]; [|done].
  by rewrite build_members_base.
Qed.

Lemma composite_of_safe cfg seed : (0 < cfg.(TLS_RECORD_FRAG_SIZE))%Z →
  HandshakeSafe (composite (composite_of cfg seed)) ∧ DataSafe (composite (composite_of cfg seed)).
Proof.
  intros Hf. split.
  - apply composite_handshake_safe, Forall_map_filter, handshake_member_safe.
  - apply composite_data_safe, Forall_map_filter. intros n. by apply data_member_safe.
Qed.

Lemma socket_names_push l :
  let push (b : bool) (s : string) := if b then [s] else [] in
  push (list_contains l "tls_frag") "tls_frag" ++
  push (list_contains l "tls_padding") "tls_padding" ++
  push (list_contains l "mixed_case_sni") "mixed_case_sni" ++
  push (list_contains l "sni_boundary_frag") "sni_boundary_frag" ++
  push (list_contains l "ccs_prefix") "ccs_prefix" ++
  push (list_contains l "tls_record_split") "tls_record_split" = socket_names l.
Proof.
  cbv zeta. unfold socket_names. cbn [List.filter]. generalize (list_contains l). intros b.
  by repeat (destruct (b _); cbn [app]).
Qed.

Lemma composite_of_name cfg seed :
  bm_name (composite (composite_of cfg seed)) =
    str_join " + " (handshake_names cfg.(BYPASS_METHOD) ++ data_names cfg.(BYPASS_METHOD) ++
                    socket_names cfg.(BYPASS_METHOD)).
Proof.
  cbn [bm_name composite]. unfold composite_name, composite_of. cbv zeta.
  cbn [handshake_methods data_methods segments_first_client_hello pads_first_client_hello
       mixed_case_sni_first_hello splits_first_client_hello ccs_prefix_first_hello
       record_splits_first_client_hello].
  unfold handshake_names at 1, data_names at 1.
  rewrite (map_names _ _ _ _ (handshake_member_name cfg seed)).
  rewrite (map_names _ _ _ _ (data_member_name cfg seed)).
  fold (handshake_names (BYPASS_METHOD cfg)) (data_names (BYPASS_METHOD cfg)).
  by rewrite socket_names_push.
Qed.

Lemma composite_of_ttl cfg seed :
  bm_low_ttl_handle (composite (composite_of cfg seed)) =
    list_contains cfg.(BYPASS_METHOD) "low_ttl".
Proof.
  cbn [bm_low_ttl_handle composite].
  unfold composite_low_ttl_handle, composite_of, list_contains, str_mem, handshake_names.
  cbn [handshake_methods].
  induction (BYPASS_METHOD cfg) as [|n l IH]; [done|]. cbn [List.filter existsb].
  rewrite <- IH. clear IH. destruct (str_mem n HANDSHAKE_SIDE) eqn:E.
  - cbn [map existsb]. f_equal.
    apply str_mem_spec, list_elem_of_In in E. cbn [In HANDSHAKE_SIDE] in E.
    repeat destruct E as [<-|E]; try reflexivity. done.
  - destruct (String.eqb_spec "low_ttl" n) as [<-|]; [|done]. by vm_compute in E.
Qed.

(** (C19) What [build_method] returns for a validated configuration.  It
    builds a method exactly when the list needs the packet interceptor;
    socket-only lists get [None].  The method's name lists the handshake
    members, then the data members, each in configured order, then the
    socket-side ones; the method offers a TTL handle exactly when [low_ttl] is
    listed; and neither of its hooks can panic or change a captured field of
    the packet. *)
Theorem build_method_validated mp cfg seed :
  validate mp cfg = Ok () → (0 ≤ cfg.(TLS_RECORD_FRAG_SIZE))%Z →
  match build_method cfg seed with
  | None => requires_interceptor cfg.(BYPASS_METHOD) = false
  | Some m => requires_interceptor cfg.(BYPASS_METHOD) = true ∧
      bm_name m = str_join " + " (handshake_names cfg.(BYPASS_METHOD) ++
        data_names cfg.(BYPASS_METHOD) ++ socket_names cfg.(BYPASS_METHOD)) ∧
      bm_low_ttl_handle m = list_contains cfg.(BYPASS_METHOD) "low_ttl" ∧
      HandshakeSafe m ∧ DataSafe m
  end.
Proof.
  intros Hv Hf. apply validate_parts in Hv as [Hm Hp].
  unfold build_method. rewrite build_composite_ok by done.
  destruct (requires_interceptor _) eqn:E; cbn [option_map]; [|done].
  split; [done|]. split; [apply composite_of_name|].
  split; [|apply composite_of_safe; pose proof (po_record_frag _ Hp); lia].
  apply composite_of_ttl.
Qed.

(** A list with members of all three kinds. *)
Definition mixed_config : Config := with_methods ["low_ttl"; "ip_frag"; "wrong_seq"; "fake_tls";
  "tls_padding"] (default_config "127.0.0.1" 44444).

Lemma build_method_validated_witness :
  ∃ m, build_method mixed_config 0 = Some m ∧
    bm_name m = "low_ttl + wrong_seq + ip_frag + fake_tls + tls_padding" ∧
    bm_low_ttl_handle m = true ∧ HandshakeSafe m ∧ DataSafe m.
Proof.
  assert (validate 1024 mixed_config = Ok ()) as Hv by (vm_compute; reflexivity).
  assert (0 ≤ TLS_RECORD_FRAG_SIZE mixed_config)%Z as Hf by (vm_compute; discriminate).
  pose proof (build_method_validated 1024 mixed_config 0 Hv Hf) as H.
  destruct (build_method mixed_config 0) as [m|]; [|vm_compute in H; discriminate].
  destruct H as (_ & Hn & Hl & Hs).
  exists m. split; [reflexivity|]. split; [rewrite Hn; vm_compute; reflexivity|].
  split; [rewrite Hl; vm_compute; reflexivity|exact Hs].
Defined.

(** ** The handshake stage in closed form

    Which handshake members of a list [L] of names stage a packet, and what
    each contributes. *)
Section staging.
Context (cfg : Config) (seed : Z) (env : MethodEnv) (s : FlowState) (p : PacketView).
Context (syn syn_ack : Z).

(** The backdated option block of [wrong_timestamp], if it finds one. *)
Definition backdated : option (list Z) :=
  match WrongTimestamp.backdate_tcp_timestamp (pv_tcp_options p) cfg.(WRONG_TIMESTAMP_OFFSET) with
  | Done r => r | Panic => None end.

Definition emits (n : string) : bool :=
  str_mem n ["wrong_seq"; "wrong_ack"; "wrong_checksum"; "wrong_md5"; "low_ttl"] ||
  (String.eqb n "wrong_timestamp" && negb (is_none backdated)).

Definition psh_of (n : string) : bool :=
  if String.eqb n "wrong_seq" then cfg.(WRONG_SEQ_SET_PSH)
  else if String.eqb n "wrong_ack" then cfg.(WRONG_ACK_SET_PSH)
  else if String.eqb n "wrong_checksum" then cfg.(WRONG_CHECKSUM_SET_PSH)
  else if String.eqb n "wrong_md5" then cfg.(WRONG_MD5_SET_PSH)
  else if String.eqb n "wrong_timestamp" then cfg.(WRONG_TIMESTAMP_SET_PSH)
  else cfg.(LOW_TTL_SET_PSH).
Definition bump_of (n : string) : bool :=
  if String.eqb n "wrong_seq" then cfg.(WRONG_SEQ_BUMP_IP_IDENT)
  else if String.eqb n "wrong_ack" then cfg.(WRONG_ACK_BUMP_IP_IDENT)
  else if String.eqb n "wrong_checksum" then cfg.(WRONG_CHECKSUM_BUMP_IP_IDENT)
  else if String.eqb n "wrong_md5" then cfg.(WRONG_MD5_BUMP_IP_IDENT)
  else if String.eqb n "wrong_timestamp" then cfg.(WRONG_TIMESTAMP_BUMP_IP_IDENT)
  else cfg.(LOW_TTL_BUMP_IP_IDENT).
Definition action_of (n : string) : MethodAction :=
  if String.eqb n "wrong_seq" then emit_and_wait_for_ack
  else if String.eqb n "wrong_ack" then complete_or_wait cfg.(WRONG_ACK_COMPLETE_IMMEDIATELY)
  else if String.eqb n "wrong_checksum"
    then complete_or_wait cfg.(WRONG_CHECKSUM_COMPLETE_IMMEDIATELY)
  else if String.eqb n "wrong_md5" then complete_or_wait cfg.(WRONG_MD5_COMPLETE_IMMEDIATELY)
  else if String.eqb n "wrong_timestamp" then
    if is_none backdated then abort_and_accept
    else complete_or_wait cfg.(WRONG_TIMESTAMP_COMPLETE_IMMEDIATELY)
  else if String.eqb n "low_ttl" then complete_or_wait cfg.(LOW_TTL_COMPLETE_IMMEDIATELY)
  else PassThrough.

(** The packet that the members [L] stage together. *)
Definition staged (L : list string) (flags : option TcpFlags) (bump : bool) : PacketView :=
  let len := as_u32 (Z.of_nat (length s.(fake_data))) in
  MkPacketView
    p.(pv_direction) p.(pv_src_ip) p.(pv_dst_ip) p.(pv_src_port) p.(pv_dst_port) p.(pv_seq)
    p.(pv_ack) p.(pv_flags) p.(pv_payload_len) p.(pv_payload) p.(pv_tcp_options)
    (if list_contains L "wrong_seq"
     then Some (wsub32 (wsub32 (wadd32 syn 1) len) cfg.(WRONG_SEQ_EXTRA_OFFSET))
     else p.(pv_new_seq))
    (if list_contains L "wrong_ack" then Some (wsub32 (wadd32 syn_ack 1) cfg.(WRONG_ACK_OFFSET))
     else p.(pv_new_ack))
    flags p.(pv_new_urgent_pointer)
    (if existsb emits L then Some s.(fake_data) else p.(pv_new_payload))
    (if list_contains L "wrong_timestamp" && negb (is_none backdated) then backdated
     else p.(pv_replace_tcp_options))
    (if list_contains L "wrong_md5" then WrongMd5.tcp_md5_signature_option
     else p.(pv_append_tcp_options))
    bump
    (if list_contains L "wrong_checksum" then Some cfg.(WRONG_CHECKSUM_DELTA)
     else p.(pv_corrupt_tcp_checksum_delta))
    p.(pv_emit_original_after) p.(pv_decoy) p.(pv_ip_frag_payload_size) p.(pv_disorder_spec)
    (if list_contains L "low_ttl" then Some (default env.(env_live_ttl) s.(low_ttl_override))
     else p.(pv_new_ipv4_ttl)).

Definition staged_flags (n : option string) : option TcpFlags :=
  option_map (λ n, with_psh (psh_of n) p.(pv_flags)) n.
Definition any_bump (L : list string) : bool := existsb (λ n, emits n && bump_of n) L.
Definition last_emit (L : list string) : option string := find emits (rev L).

Definition loop_state (L : list string) : HsLoop :=
  MkHsLoop (staged L (staged_flags (last_emit L)) (default false (bump_of <$> last_emit L)))
    (existsb emits L) (staged_flags (find emits L)) (any_bump L)
    (action_of <$> head (rev L)).

Lemma find_snoc {A} (f : A → bool) l x :
  find f (l ++ [x]) = match find f l with Some y => Some y | None => if f x then Some x else None end.
Proof. induction l as [|y l IH]; [done|]. cbn. by destruct (f y). Qed.

Lemma last_emit_snoc L x : last_emit (L ++ [x]) = if emits x then Some x else last_emit L.
Proof. unfold last_emit. rewrite rev_app_distr. reflexivity. Qed.

Lemma find_is_none {A} (f : A → bool) l : is_none (find f l) = negb (existsb f l).
Proof. induction l as [|y l IH]; [done|]. cbn. by destruct (f y). Qed.

Lemma existsb_rev {A} (f : A → bool) l : existsb f (rev l) = existsb f l.
Proof.
  induction l as [|y l IH]; [done|]. cbn. rewrite existsb_app, IH. cbn.
  rewrite orb_false_r. apply orb_comm.
Qed.

Lemma staged_flags_none n : is_none (staged_flags n) = is_none n.
Proof. by destruct n. Qed.

Lemma last_emit_none L : is_none (last_emit L) = negb (existsb emits L).
Proof. unfold last_emit. by rewrite find_is_none, existsb_rev. Qed.

Lemma last_emit_bump L : default false (bump_of <$> last_emit L) = true → any_bump L = true.
Proof.
  unfold last_emit, any_bump. destruct (find emits (rev L)) as [n|] eqn:E; [|done]. cbn. intros Hb.
  apply find_some in E as [Hin He]. apply existsb_exists. exists n. rewrite <- in_rev in Hin.
  by rewrite He, Hb.
Qed.

Lemma contains_snoc L x n : list_contains (L ++ [x]) n = list_contains L n || String.eqb n x.
Proof. unfold list_contains, str_mem. rewrite existsb_app. cbn. by rewrite orb_false_r. Qed.
Lemma existsb_snoc {A} (f : A → bool) L x : existsb f (L ++ [x]) = existsb f L || f x.
Proof. rewrite existsb_app. cbn. by rewrite orb_false_r. Qed.

Hypothesis Hsyn : syn_seq s = Some syn.
Hypothesis Hack : syn_ack_seq s = Some syn_ack.
Hypothesis Hflags : pv_new_flags p = None.
Hypothesis Hbump : pv_bump_ipv4_ident p = false.

(** What one member does to the packet staged by [L]. *)
Lemma member_hook L fl b x : x ∈ HANDSHAKE_SIDE →
  bm_on_handshake_complete_ack (handshake_member cfg seed x) env s (staged L fl b) =
    Done (if emits x then staged (L ++ [x]) (staged_flags (Some x)) (bump_of x)
          else staged (L ++ [x]) fl b, action_of x).
Proof.
  intros Hx. apply list_elem_of_In in Hx. cbn [In HANDSHAKE_SIDE] in Hx.
  assert (WrongTimestamp.backdate_tcp_timestamp (pv_tcp_options p)
            cfg.(WRONG_TIMESTAMP_OFFSET) = Done backdated) as Hts.
  { unfold backdated. destruct (backdate_tcp_timestamp_total (pv_tcp_options p)
      cfg.(WRONG_TIMESTAMP_OFFSET)) as [r ->]. done. }
  unfold staged. rewrite !contains_snoc, existsb_snoc.
  repeat destruct Hx as [<-|Hx]; [..|done];
    cbn -[WrongTimestamp.backdate_tcp_timestamp as_u32 wsub32 wadd32];
    unfold WrongSeq.on_handshake_complete_ack, WrongAck.on_handshake_complete_ack,
      WrongTimestamp.on_handshake_complete_ack; 
    cbn -[WrongTimestamp.backdate_tcp_timestamp as_u32 wsub32 wadd32];
    rewrite ?Hsyn, ?Hack, ?Hts, ?orb_false_r, ?orb_true_r.
  all: first [reflexivity | by destruct (low_ttl_override s) |
    by destruct backdated; cbn [is_none negb];
       rewrite ?andb_true_r, ?andb_false_r, ?orb_false_r, ?orb_true_r].
Qed.

Lemma loop_state_step L x : x ∈ HANDSHAKE_SIDE →
  handshake_step env s (loop_state L) (handshake_member cfg seed x) = Done (loop_state (L ++ [x])).
Proof.
  intros Hx. unfold handshake_step, loop_state.
  cbn [hl_pkt hl_staged_any hl_first_flags hl_first_bump_ident hl_last_action].
  rewrite (member_hook _ _ _ _ Hx). cbn [exec_bind].
  assert (is_emit (action_of x) = emits x) as ->.
  { clear - Hx. apply list_elem_of_In in Hx. cbn [In HANDSHAKE_SIDE] in Hx.
    repeat destruct Hx as [<-|Hx]; try done; unfold action_of, emits, complete_or_wait;
      cbn -[backdated]; try (by case_match). destruct backdated; cbn; [by case_match|done]. }
  cbn [staged pv_new_flags pv_bump_ipv4_ident].
  rewrite staged_flags_none, last_emit_none.
  rewrite last_emit_snoc, find_snoc, existsb_snoc, rev_app_distr. cbn [rev app head].
  unfold any_bump at 2. rewrite existsb_snoc. fold (any_bump L).
  destruct (emits x) eqn:Ex; cbn [staged pv_new_flags pv_bump_ipv4_ident andb].
  - do 2 f_equal.
    + by rewrite orb_true_r.
    + pose proof (find_is_none emits L) as Hf.
      by destruct (existsb emits L), (find emits L).
    + pose proof (last_emit_bump L) as Hb. destruct (default false _); cbn [negb andb].
      * by rewrite Hb.
      * by destruct (bump_of x); rewrite ?orb_true_r, ?orb_false_r.
  - do 2 f_equal.
    + by rewrite orb_false_r.
    + pose proof (find_is_none emits L) as Hf. pose proof (last_emit_none L) as Hl.
      by destruct (existsb emits L), (find emits L), (last_emit L).
    + rewrite orb_false_r. by destruct (default false _).
Qed.

Lemma handshake_fold L2 L1 :
  (∀ n, n ∈ L2 → n ∈ HANDSHAKE_SIDE) →
  exec_fold (handshake_step env s) (map (handshake_member cfg seed) L2) (loop_state L1) =
    Done (loop_state (L1 ++ L2)).
Proof.
  revert L1; induction L2 as [|x L2 IH]; intros L1 Hx; cbn [map exec_fold].
  { by rewrite app_nil_r. }
  rewrite loop_state_step by (apply Hx; by left). cbn [exec_bind].
  rewrite IH by (intros; apply Hx; by right). by rewrite <- app_assoc.
Qed.

Lemma staged_nil : staged [] None false = p.
Proof.
  transitivity (staged [] (pv_new_flags p) (pv_bump_ipv4_ident p)); [by rewrite Hflags, Hbump|].
  clear. unfold staged. cbn. by destruct p.
Qed.

Lemma staging c L :
  (∀ n, n ∈ L → n ∈ HANDSHAKE_SIDE) → handshake_methods c = map (handshake_member cfg seed) L →
  composite_on_handshake_complete_ack c env s p =
    Done (staged L (staged_flags (find emits L)) (any_bump L),
          if waits_for_data c then emit_and_wait_for_data
          else last_to_action (existsb emits L) (action_of <$> head (rev L))).
Proof.
  intros HL Hc. unfold composite_on_handshake_complete_ack. rewrite Hc.
  replace (MkHsLoop p false None false None) with (loop_state [])
    by (unfold loop_state; cbn -[staged]; by rewrite staged_nil).
  rewrite handshake_fold by done. cbn [exec_bind]. by destruct (waits_for_data c).
Qed.
End staging.

Lemma handshake_names_side l n : n ∈ handshake_names l → n ∈ HANDSHAKE_SIDE.
Proof.
  intros [_ H]%list_elem_of_In%filter_In. by apply str_mem_spec.
Qed.

Lemma built_staging cfg seed env s p syn syn_ack :
  methods_ok cfg → syn_seq s = Some syn → syn_ack_seq s = Some syn_ack →
  pv_new_flags p = None → pv_bump_ipv4_ident p = false →
  let L := handshake_names cfg.(BYPASS_METHOD) in
  ∀ c, build_composite cfg seed = Some c →
  bm_on_handshake_complete_ack (composite c) env s p =
    Done (staged cfg env s p syn syn_ack L (staged_flags cfg p (find (emits cfg p) L))
            (any_bump cfg p L),
          if waits_for_data c then emit_and_wait_for_data
          else last_to_action (existsb (emits cfg p) L) (action_of cfg p <$> head (rev L))).
Proof.
  intros Hm Hsyn Hack Hf Hb L c Hc. rewrite build_composite_ok in Hc by done.
  destruct (requires_interceptor _); [|done]. injection Hc as <-.
  apply (staging cfg seed); try done. intros n. apply handshake_names_side.
Qed.

(** The handshake stage in closed form.  For every validated list, on a
    packet that carries no staged flags yet, the composite stages the fake
    ClientHello once and every handshake member's own field ([staged]):
    sequence number, acknowledgment, checksum delta, MD5 option, backdated
    timestamps and TTL, none of which another member overwrites, whatever the
    configured order.  The TCP flags are those of the first member that stages
    something; the IP-ident bump, though, is set as soon as any member that
    stages something asks for it.  The action is to wait for the data stage
    when a data-stage or segmenting method is listed, and otherwise follows
    the last member, an abort of which is honoured only if nobody staged. *)
Theorem composite_staging cfg seed env s p syn syn_ack :
  methods_ok cfg → syn_seq s = Some syn → syn_ack_seq s = Some syn_ack →
  pv_new_flags p = None → pv_bump_ipv4_ident p = false →
  let L := handshake_names cfg.(BYPASS_METHOD) in
  ∀ c, build_composite cfg seed = Some c →
  bm_on_handshake_complete_ack (composite c) env s p =
    Done (staged cfg env s p syn syn_ack L (staged_flags cfg p (find (emits cfg p) L))
            (any_bump cfg p L),
          if waits_for_data c then emit_and_wait_for_data
          else last_to_action (existsb (emits cfg p) L) (action_of cfg p <$> head (rev L))).
Proof. intros Hm Hsyn Hack Hf Hb L c. by apply built_staging. Qed.

(** Three injectors. *)
Definition three_injectors : Config := with_methods ["wrong_seq"; "wrong_md5"; "low_ttl"]
  (default_config "127.0.0.1" 44444).

Lemma composite_staging_witness :
  ∃ c p', build_composite three_injectors 0 = Some c ∧
    bm_on_handshake_complete_ack (composite c) (MkMethodEnv 6 0) sample_flow sample_ack =
      Done (p', emit_and_complete) ∧
    pv_new_payload p' = Some [22; 3; 1; 0; 0]%Z ∧ pv_new_ipv4_ttl p' = Some 6%Z ∧
    pv_append_tcp_options p' = WrongMd5.tcp_md5_signature_option ∧
    pv_new_seq p' = Some 4294967286%Z.
Proof.
  assert (methods_ok three_injectors) as Hm by (apply (validate_parts 1024); vm_compute; reflexivity).
  exists (composite_of three_injectors 0). eexists.
  assert (build_composite three_injectors 0 = Some (composite_of three_injectors 0)) as Hc
    by (rewrite (build_composite_ok _ _ Hm); reflexivity).
  split; [exact Hc|]. split.
  - rewrite (composite_staging three_injectors 0 (MkMethodEnv 6 0) sample_flow sample_ack
      4294967290 77 Hm eq_refl eq_refl eq_refl eq_refl _ Hc). reflexivity.
  - vm_compute. repeat split; reflexivity.
Defined.

(** ** The data stage in closed form

    The data members of a list [L] of names on one outbound data packet, with
    [fake_tls] chained. *)
Section data_staging.
Context (cfg : Config) (seed : Z) (env : MethodEnv) (s : FlowState) (p : PacketView) (syn : Z).

(** The re-framed payload of [tls_record_frag], if the payload is a sequence
    of records. *)
Definition reframed : option (list Z) :=
  match TlsRecordFrag.fragment_payload (pv_payload p) (Z.to_nat cfg.(TLS_RECORD_FRAG_SIZE)) with
  | Done r => r | Panic => None end.

Definition data_emits (n : string) : bool :=
  if String.eqb n "fake_tls" then negb s.(first_data_modified)
  else if String.eqb n "tls_record_frag" then negb (is_none reframed)
  else true.
Definition data_immediate (n : string) : bool :=
  if String.eqb n "fake_tls" then cfg.(FAKE_TLS_COMPLETE_IMMEDIATELY)
  else if String.eqb n "ip_frag" then cfg.(IP_FRAG_ONLY_FIRST_PACKET)
  else if String.eqb n "disorder" then cfg.(DISORDER_ONLY_FIRST_PACKET)
  else true.
Definition data_more (n : string) : bool :=
  if String.eqb n "ip_frag" then negb cfg.(IP_FRAG_ONLY_FIRST_PACKET)
  else if String.eqb n "disorder" then negb cfg.(DISORDER_ONLY_FIRST_PACKET)
  else false.

(** The decoy: the fake ClientHello behind the server's window. *)
Definition chained_decoy : DecoyPacket :=
  let len := as_u32 (Z.of_nat (length s.(fake_data))) in
  MkDecoyPacket (wsub32 (wsub32 (wadd32 syn 1) len) cfg.(FAKE_TLS_EXTRA_OFFSET)) s.(fake_data)
    (with_psh cfg.(FAKE_TLS_SET_PSH) p.(pv_flags)) cfg.(FAKE_TLS_BUMP_IP_IDENT)
    (Z.to_nat cfg.(FAKE_TLS_REPEATS))
    (Z.max (snd (sample_i32 cfg.(FAKE_TLS_CHAIN_DELAY_MS) env.(env_seed))) 0).

Definition shaper_spec (n : string) : option DisorderSpec :=
  if String.eqb n "disorder" then
    if Z.to_nat cfg.(DISORDER_SEGMENTS) <=? p.(pv_payload_len) then
      Some (MkDisorderSpec (Z.to_nat cfg.(DISORDER_SEGMENTS)) cfg.(DISORDER_REVERSE)
              cfg.(DISORDER_DELAY_MS) (overlap_from_config cfg 0 seed))
    else None
  else
    if Z.to_nat cfg.(SEQOVL_SEGMENTS) <=? p.(pv_payload_len) then
      Some (MkDisorderSpec (Z.to_nat cfg.(SEQOVL_SEGMENTS)) cfg.(SEQOVL_REVERSE)
              cfg.(SEQOVL_DELAY_MS) (overlap_from_config cfg DEFAULT_SEQOVL_SIZE seed))
    else None.

Definition or_else {A} (o1 o2 : option A) : option A := match o1 with Some _ => o1 | None => o2 end.

Definition data_staged (L : list string) : PacketView :=
  let reframes := list_contains L "tls_record_frag" && negb (is_none reframed) in
  MkPacketView
    p.(pv_direction) p.(pv_src_ip) p.(pv_dst_ip) p.(pv_src_port) p.(pv_dst_port) p.(pv_seq)
    p.(pv_ack) p.(pv_flags) p.(pv_payload_len) p.(pv_payload) p.(pv_tcp_options)
    p.(pv_new_seq) p.(pv_new_ack)
    (if reframes then Some (with_psh cfg.(TLS_RECORD_FRAG_SET_PSH) p.(pv_flags))
     else p.(pv_new_flags))
    p.(pv_new_urgent_pointer)
    (if reframes then reframed else p.(pv_new_payload))
    p.(pv_replace_tcp_options) p.(pv_append_tcp_options)
    (if reframes then cfg.(TLS_RECORD_FRAG_BUMP_IP_IDENT) else p.(pv_bump_ipv4_ident))
    p.(pv_corrupt_tcp_checksum_delta) p.(pv_emit_original_after)
    (if list_contains L "fake_tls" && negb s.(first_data_modified) then Some chained_decoy
     else p.(pv_decoy))
    (if list_contains L "ip_frag" &&
        (Z.to_nat cfg.(IP_FRAG_SIZE) <? 20 + length p.(pv_tcp_options) + p.(pv_payload_len))
     then Some (Z.to_nat cfg.(IP_FRAG_SIZE)) else p.(pv_ip_frag_payload_size))
    (if list_contains L "disorder" then or_else (shaper_spec "disorder") p.(pv_disorder_spec)
     else if list_contains L "seqovl" then or_else (shaper_spec "seqovl") p.(pv_disorder_spec)
     else p.(pv_disorder_spec))
    p.(pv_new_ipv4_ttl).

Definition data_action (L : list string) : MethodAction :=
  if existsb data_emits L then
    EmitFakeAndAccept (forallb (λ n, negb (data_emits n) || data_immediate n) L)
      (existsb (λ n, data_emits n && data_more n) L)
  else complete_and_accept.

Hypothesis Hsyn : syn_seq s = Some syn.
Hypothesis Hfrag : (0 < cfg.(TLS_RECORD_FRAG_SIZE))%Z.
Hypothesis Hchained : chained_fake_tls cfg = true.

Lemma data_member_hook L x : x ∈ DATA_SIDE →
  ¬ (x = "seqovl" ∧ list_contains L "disorder" = true) →
  ¬ (x = "disorder" ∧ list_contains L "seqovl" = true) →
  list_contains L x = false →
  bm_on_first_data_packet (data_member cfg seed x) env s (data_staged L) =
    Done (data_staged (L ++ [x]),
          if data_emits x then EmitFakeAndAccept (data_immediate x) (data_more x)
          else complete_and_accept).
Proof.
  intros Hx Hd1 Hd2 Hn. apply list_elem_of_In in Hx. cbn [In DATA_SIDE] in Hx.
  assert (TlsRecordFrag.fragment_payload (pv_payload p) (Z.to_nat cfg.(TLS_RECORD_FRAG_SIZE))
            = Done reframed) as Hr.
  { unfold reframed. by destruct (fragment_payload_total (pv_payload p)
      (Z.to_nat cfg.(TLS_RECORD_FRAG_SIZE)) ltac:(lia)) as [r ->]. }
  unfold data_staged, data_member. rewrite !contains_snoc.
  repeat destruct Hx as [<-|Hx]; [..|done];
    cbn -[TlsRecordFrag.fragment_payload sample_i32 as_u32 wsub32 wadd32 chained_fake_tls
          overlap_from_config Z.to_nat Nat.leb Nat.ltb Nat.add];
    unfold TlsRecordFrag.on_first_data_packet, FakeTls.on_first_data_packet,
      IpFrag.on_first_data_packet, Disorder.on_first_data_packet, Seqovl.on_first_data_packet;
    cbn -[TlsRecordFrag.fragment_payload sample_i32 as_u32 wsub32 wadd32 chained_fake_tls
          overlap_from_config Z.to_nat Nat.leb Nat.ltb Nat.add];
    rewrite ?Hsyn, ?Hchained, ?Hr, ?Hn, ?orb_false_r, ?orb_true_r; cbn [exec_bind expect andb orb].
  - destruct reframed; cbn [is_none negb andb]; rewrite ?andb_false_r; reflexivity.
  - destruct (first_data_modified s); cbn [negb andb]; rewrite ?andb_false_r; reflexivity.
  - destruct (_ <? _), (IP_FRAG_ONLY_FIRST_PACKET cfg); cbn [andb]; rewrite ?andb_false_r;
      reflexivity.
  - destruct (list_contains L "seqovl"); [by destruct Hd2|].
    destruct (_ <=? _), (DISORDER_ONLY_FIRST_PACKET cfg); reflexivity.
  - destruct (list_contains L "disorder"); [by destruct Hd1|].
    destruct (_ <=? _); reflexivity.
Qed.

Lemma data_fold L2 L1 b1 b2 b3 :
  (∀ n, n ∈ L2 → n ∈ DATA_SIDE) → NoDup (L1 ++ L2) →
  ¬ ("disorder" ∈ L1 ++ L2 ∧ "seqovl" ∈ L1 ++ L2) →
  data_loop env s (map (data_member cfg seed) L2) (data_staged L1) b1 b2 b3 =
    Done (data_staged (L1 ++ L2),
      if b1 || existsb data_emits L2 then
        EmitFakeAndAccept (b2 && forallb (λ n, negb (data_emits n) || data_immediate n) L2)
          (b3 || existsb (λ n, data_emits n && data_more n) L2)
      else complete_and_accept).
Proof.
  revert L1 b1 b2 b3; induction L2 as [|x L2 IH]; intros L1 b1 b2 b3 Hx Hnd Hds.
  { cbn. by rewrite app_nil_r, !orb_false_r, andb_true_r. }
  assert (x ∈ DATA_SIDE) as Hxs by (apply Hx; by left).
  assert (x ∉ L1) as Hn.
  { apply NoDup_app in Hnd as (_ & Hnd & _). intros Hin. by apply (Hnd x Hin), elem_of_cons; left. }
  cbn [map data_loop]. rewrite data_member_hook; try done.
  2:{ intros [-> H%list_contains_spec]. apply Hds. rewrite !elem_of_app, !elem_of_cons. tauto. }
  2:{ intros [-> H%list_contains_spec]. apply Hds. rewrite !elem_of_app, !elem_of_cons. tauto. }
  2:{ by apply list_contains_false. }
  replace (L1 ++ x :: L2) with ((L1 ++ [x]) ++ L2) in * by (by rewrite <- app_assoc).
  cbn [exec_bind existsb forallb].
  destruct (data_emits x); cbn [negb orb andb];
    rewrite IH; try done; try (intros; apply Hx; by right).
  do 2 f_equal. by rewrite !andb_assoc, !orb_assoc, orb_true_r.
Qed.

Lemma data_staged_nil : data_staged [] = p.
Proof. clear. unfold data_staged. cbn. by destruct p. Qed.

Lemma data_staging c L :
  (∀ n, n ∈ L → n ∈ DATA_SIDE) → NoDup L → ¬ ("disorder" ∈ L ∧ "seqovl" ∈ L) →
  data_methods c = map (data_member cfg seed) L →
  composite_on_first_data_packet c env s p = Done (data_staged L, data_action L).
Proof.
  intros HL Hnd Hds Hc. unfold composite_on_first_data_packet. rewrite Hc.
  pose proof (data_fold L [] false true false HL Hnd Hds) as Hf. rewrite data_staged_nil in Hf.
  destruct L; [cbn; by rewrite data_staged_nil|exact Hf].
Qed.

Lemma contains_perm L L' n : L ≡ₚ L' → list_contains L n = list_contains L' n.
Proof.
  intros HP. apply eq_bool_prop_intro. rewrite !Is_true_true, !list_contains_spec. by rewrite HP.
Qed.
Lemma existsb_perm {A} (f : A → bool) L L' : L ≡ₚ L' → existsb f L = existsb f L'.
Proof.
  induction 1 as [|x l l' _ IH|x y l|l l1 l2 _ IH1 _ IH2]; cbn; [done|by rewrite IH| |congruence].
  rewrite !orb_assoc. f_equal. apply orb_comm.
Qed.
Lemma forallb_perm {A} (f : A → bool) L L' : L ≡ₚ L' → forallb f L = forallb f L'.
Proof.
  induction 1 as [|x l l' _ IH|x y l|l l1 l2 _ IH1 _ IH2]; cbn; [done|by rewrite IH| |congruence].
  rewrite !andb_assoc. f_equal. apply andb_comm.
Qed.

(** The closed form does not see the order. *)
Lemma data_staged_perm L L' : L ≡ₚ L' → data_staged L = data_staged L'.
Proof. intros HP. unfold data_staged. by rewrite !(contains_perm L L' _ HP). Qed.
Lemma data_action_perm L L' : L ≡ₚ L' → data_action L = data_action L'.
Proof.
  intros HP. unfold data_action.
  by rewrite !(existsb_perm _ L L' HP), (forallb_perm _ L L' HP).
Qed.
End data_staging.

Lemma data_names_side l n : n ∈ data_names l → n ∈ DATA_SIDE ∧ n ∈ l.
Proof.
  intros [Hin H]%list_elem_of_In%filter_In. split; [by apply str_mem_spec|by apply list_elem_of_In].
Qed.

Lemma NoDup_filter_list {A} (f : A → bool) (l : list A) : NoDup l → NoDup (List.filter f l).
Proof. rewrite !NoDup_ListNoDup. apply List.NoDup_filter. Qed.

Lemma data_names_ok cfg : methods_ok cfg →
  let L := data_names cfg.(BYPASS_METHOD) in
  (∀ n, n ∈ L → n ∈ DATA_SIDE) ∧ NoDup L ∧ ¬ ("disorder" ∈ L ∧ "seqovl" ∈ L).
Proof.
  intros Hm L. split; [intros n Hn; exact (proj1 (data_names_side _ _ Hn))|].
  split; [apply NoDup_filter_list, (mo_nodup _ Hm)|].
  intros [[_ H1]%data_names_side [_ H2]%data_names_side].
  assert ("disorder" = "seqovl") by
    (apply (mo_one_shaper _ Hm); try done; apply str_mem_spec; reflexivity).
  done.
Qed.

(** The data stage of a chain.  When [fake_tls] is chained with other
    data-stage methods, the composite stages on the first data packet the
    decoy, in front, and the re-framing, fragmentation and disorder of the
    real payload, side by side ([data_staged]: none of the members writes a
    field of another); it completes at once only if every member that emitted
    wants to, and keeps re-staging data packets as soon as one wants to.  On
    later packets the decoy is not repeated.  The configured order is
    irrelevant: any permutation of the members gives the same packet and
    action. *)
Theorem chained_data_stage cfg seed env s p syn L' c :
  methods_ok cfg → (0 < cfg.(TLS_RECORD_FRAG_SIZE))%Z → chained_fake_tls cfg = true →
  syn_seq s = Some syn →
  data_names cfg.(BYPASS_METHOD) ≡ₚ L' → data_methods c = map (data_member cfg seed) L' →
  let L := data_names cfg.(BYPASS_METHOD) in
  bm_on_first_data_packet (composite (composite_of cfg seed)) env s p =
    Done (data_staged cfg seed env s p syn L, data_action cfg s p L) ∧
  bm_on_first_data_packet (composite c) env s p =
    bm_on_first_data_packet (composite (composite_of cfg seed)) env s p.
Proof.
  intros Hm Hf Hch Hs HP Hc L. destruct (data_names_ok cfg Hm) as (H1 & H2 & H3).
  cbn [bm_on_first_data_packet composite].
  rewrite (data_staging cfg seed env s p syn Hs Hf Hch _ L) by done.
  split; [done|]. fold L in HP.
  rewrite (data_staging cfg seed env s p syn Hs Hf Hch _ L'); try done.
  - by rewrite (data_staged_perm _ _ _ _ _ _ L L' HP), (data_action_perm _ _ _ L L' HP).
  - intros n. rewrite <- HP. apply H1.
  - by rewrite <- HP.
  - by rewrite <- HP.
Qed.

Definition chained_config : Config := with_methods ["disorder"; "fake_tls"]
  (default_config "127.0.0.1" 44444).

Lemma chained_data_stage_witness :
  ∃ p', bm_on_first_data_packet (composite (composite_of chained_config 7)) (MkMethodEnv 5 0)
      sample_flow (data_packet [1; 2; 3]%Z) = Done (p', emit_and_complete) ∧
    option_map dp_seq (pv_decoy p') = Some 4294967286%Z ∧
    pv_disorder_spec p' = Some (MkDisorderSpec 2 true 0 None) ∧ pv_new_payload p' = None.
Proof.
  assert (methods_ok chained_config) as Hm by (apply (validate_parts 1024); vm_compute; reflexivity).
  destruct (chained_data_stage chained_config 7 (MkMethodEnv 5 0) sample_flow
    (data_packet [1; 2; 3]%Z) 4294967290 ["fake_tls"; "disorder"]
    (MkCompositeMethod [] (map (data_member chained_config 7) ["fake_tls"; "disorder"])
       false false false false false false) Hm) as [H _];
    [reflexivity|reflexivity|reflexivity|apply perm_swap|reflexivity|].
  eexists. split; [rewrite H; reflexivity|]. vm_compute. repeat split; reflexivity.
Defined.
