(* ===== verification/Handler.v ===== *)
(** * The packet handler

    Model of [crates/zerodpi-core/src/handler.rs]: [Handler::on_packet] over
    the local flow table of [Flow], for any bypass method that keeps the
    interface of [Methods].  The handler's lock makes each call atomic, so a
    run is a sequence of calls, interleaved with the registrations, removals
    and resets of the proxy side ([step]). *)
From stdpp Require Import base list numbers gmap strings relations.
From Stdlib Require Import ZArith Lia.
From S2P Require Import Prelude Interceptor Flow Config Methods HandshakeMethods.
From S2P Require Import DataMethods Composite.

(** ** The handler *)
Definition flow_key_for (pkt : PacketView) : FlowKey :=
  match pkt.(pv_direction) with
  | Outbound => MkFlowKey pkt.(pv_src_ip) pkt.(pv_src_port) pkt.(pv_dst_ip) pkt.(pv_dst_port)
  | Inbound => MkFlowKey pkt.(pv_dst_ip) pkt.(pv_dst_port) pkt.(pv_src_ip) pkt.(pv_src_port)
  end.

Definition unexpected (e : FlowEntry) : FlowEntry :=
  let s := e.(fe_state) in
  if is_none s.(outcome) then
    notify_waiters (with_state (set_monitor false (set_outcome (Some UnexpectedClose) s)) e)
  else e.

(** What one call does to the flow's record and the packet. *)
Definition Outcome : Type := FlowEntry * PacketView * Verdict.

Definition on_state (f : FlowState → FlowState) (e : FlowEntry) : FlowEntry :=
  with_state (f e.(fe_state)) e.

Definition outbound_syn (e : FlowEntry) (pkt : PacketView) : Outcome :=
  let s := e.(fe_state) in
  if negb (pkt.(pv_ack) =? 0)%Z then (unexpected e, pkt, Accept)
  else if match s.(syn_seq) with Some prev => negb (prev =? pkt.(pv_seq))%Z | None => false end
  then (unexpected e, pkt, Accept)
  else (on_state (set_syn_seq (Some pkt.(pv_seq))) e, pkt, Accept).

(** The dispatch on the handshake hook's action. *)
Definition after_handshake (e : FlowEntry) (pkt : PacketView) (action : MethodAction) : Outcome :=
  match action with
  | EmitFakeAndAccept complete_immediately continue_with_data =>
      let e := on_state (set_fake_sent true) e in
      let e := if continue_with_data then notify_ready (on_state (set_waiting_for_data true) e)
               else if complete_immediately then finish FakeDataAcked e
               else e in
      (e, pkt, AcceptModified)
  | PassThrough => (notify_ready (on_state (set_waiting_for_data true) e), pkt, Accept)
  | CompleteAndAccept => (finish FakeDataAcked e, pkt, Accept)
  | AbortAndAccept => (finish UnexpectedClose e, pkt, Accept)
  end.

Definition outbound_ack (m : BypassMethod) (env : MethodEnv) (e : FlowEntry) (pkt : PacketView)
    : exec Outcome :=
  let s := e.(fe_state) in
  if s.(fragment_all_data) then Done (e, pkt, Accept)
  else if s.(fake_sent) || s.(waiting_for_data) then Done (unexpected e, pkt, Accept)
  else match s.(syn_seq) with
  | None => Done (unexpected e, pkt, Accept)
  | Some syn =>
      if negb (pkt.(pv_seq) =? wadd32 syn 1)%Z then Done (unexpected e, pkt, Accept)
      else match s.(syn_ack_seq) with
      | None => Done (unexpected e, pkt, Accept)
      | Some syn_ack =>
          if negb (pkt.(pv_ack) =? wadd32 syn_ack 1)%Z then Done (unexpected e, pkt, Accept)
          else
            let! r := bm_on_handshake_complete_ack m env s pkt in
            let '(pkt, action) := r in
            Done (after_handshake e pkt action)
      end
  end.

(** The dispatch on the data hook's action. *)
Definition after_data (e : FlowEntry) (pkt : PacketView) (action : MethodAction) : Outcome :=
  let modified := on_state (λ s, set_waiting_for_data false (set_first_data_modified true s)) e in
  match action with
  | EmitFakeAndAccept complete_immediately continue_with_data =>
      let e :=
        if continue_with_data then
          signal_outcome FakeDataAcked (on_state (set_fragment_all_data true) modified)
        else if complete_immediately then finish FakeDataAcked modified
        else on_state (set_waiting_for_first_data_ack true) modified in
      (e, pkt, AcceptModified)
  | CompleteAndAccept =>
      (if negb modified.(fe_state).(fragment_all_data) then finish FakeDataAcked modified
       else modified, pkt, Accept)
  | PassThrough => (e, pkt, Accept)
  | AbortAndAccept =>
      (if modified.(fe_state).(fragment_all_data)
       then on_state (λ s, set_monitor false (set_fragment_all_data false s)) modified
       else finish UnexpectedClose modified, pkt, Accept)
  end.

(** An outbound packet that is neither a bare SYN nor a bare ACK. *)
Definition outbound_other (m : BypassMethod) (env : MethodEnv) (e : FlowEntry) (pkt : PacketView)
    : exec Outcome :=
  let s := e.(fe_state) in
  if (0 <? pkt.(pv_payload_len)) &&
     ((s.(waiting_for_data) && negb s.(first_data_modified)) || s.(fragment_all_data)) then
    let! r := bm_on_first_data_packet m env s pkt in
    let '(pkt, action) := r in
    Done (after_data e pkt action)
  else if s.(waiting_for_first_data_ack) then Done (e, pkt, Accept)
  else if s.(fragment_all_data) then
    if pkt.(pv_flags).(f_fin) || pkt.(pv_flags).(f_rst)
    then Done (on_state (set_monitor false) e, pkt, Accept)
    else Done (e, pkt, Accept)
  else Done (unexpected e, pkt, Accept).

Definition inbound_syn_ack (e : FlowEntry) (pkt : PacketView) : exec Outcome :=
  let s := e.(fe_state) in
  let! syn := expect s.(syn_seq) in
  if negb (pkt.(pv_ack) =? wadd32 syn 1)%Z then Done (unexpected e, pkt, Accept)
  else if match s.(syn_ack_seq) with Some prev => negb (prev =? pkt.(pv_seq))%Z | None => false end
  then Done (unexpected e, pkt, Accept)
  else Done (on_state (set_syn_ack_seq (Some pkt.(pv_seq))) e, pkt, Accept).

Definition inbound_fake_ack (e : FlowEntry) (pkt : PacketView) : exec Outcome :=
  let s := e.(fe_state) in
  let! syn_ack := expect s.(syn_ack_seq) in
  if negb (pkt.(pv_seq) =? wadd32 syn_ack 1)%Z then Done (unexpected e, pkt, Accept) else
  let! syn := expect s.(syn_seq) in
  if negb (pkt.(pv_ack) =? wadd32 syn 1)%Z then Done (unexpected e, pkt, Accept)
  else if s.(waiting_for_data) then Done (e, pkt, Accept)
  else Done (finish FakeDataAcked e, pkt, Accept).

Definition inbound_data_ack (e : FlowEntry) (pkt : PacketView) : exec Outcome :=
  let s := e.(fe_state) in
  let! syn_ack := expect s.(syn_ack_seq) in
  if negb (pkt.(pv_seq) =? wadd32 syn_ack 1)%Z then Done (unexpected e, pkt, Accept) else
  let! syn := expect s.(syn_seq) in
  if (0 <? wsub32 pkt.(pv_ack) (wadd32 syn 1))%Z
  then Done (finish FakeDataAcked (on_state (set_waiting_for_first_data_ack false) e), pkt, Accept)
  else Done (e, pkt, Accept).

Definition inbound (e : FlowEntry) (pkt : PacketView) : exec Outcome :=
  let s := e.(fe_state) in
  if is_none s.(syn_seq) then Done (unexpected e, pkt, Accept)
  else if s.(fragment_all_data) then Done (e, pkt, Accept)
  else if is_syn_ack pkt then inbound_syn_ack e pkt
  else if is_bare_ack pkt && s.(fake_sent) then inbound_fake_ack e pkt
  else if s.(waiting_for_first_data_ack) && is_bare_ack pkt then inbound_data_ack e pkt
  else Done (unexpected e, pkt, Accept).

(** The part of [on_packet] that holds the flow's lock. *)
Definition on_entry (m : BypassMethod) (env : MethodEnv) (e : FlowEntry) (pkt : PacketView)
    : exec Outcome :=
  if negb e.(fe_state).(monitor) then Done (e, pkt, Accept) else
  match pkt.(pv_direction) with
  | Outbound =>
      if is_bare_syn pkt then Done (outbound_syn e pkt)
      else if is_bare_ack pkt then outbound_ack m env e pkt
      else outbound_other m env e pkt
  | Inbound => inbound e pkt
  end.

Definition on_packet (m : BypassMethod) (env : MethodEnv) (w : LocalFlows) (pkt : PacketView)
    : exec (LocalFlows * PacketView * Verdict) :=
  match w.(lf_flows) !! flow_key_for pkt with
  | None => Done (w, pkt, Accept)
  | Some h =>
      match w.(lf_heap) !! h with
      | None => Done (w, pkt, Accept)   (* no such state: [local_wf] *)
      | Some e =>
          let! r := on_entry m env e pkt in
          let '(e, pkt, v) := r in
          Done (MkLocalFlows w.(lf_flows) (<[h := e]> w.(lf_heap)) w.(lf_next), pkt, v)
      end
  end.

(** ** The interleaving with the proxy side *)
Inductive step (m : BypassMethod) : LocalFlows → LocalFlows → Prop :=
  | step_register k data ttl w w' h :
      local_register k data ttl w = Some (w', h) → step m w w'
  | step_remove k w : step m w (local_remove k w)
  | step_reset w : step m w (local_reset w)
  | step_packet env pkt pkt' v w w' :
      on_packet m env w pkt = Done (w', pkt', v) → step m w w'.

Definition reachable (m : BypassMethod) : LocalFlows → Prop := rtc (step m) new_flow_table.

(** ** The flow invariant *)
Definition seqs_known (s : FlowState) : Prop := is_Some (syn_seq s) ∧ is_Some (syn_ack_seq s).

(** The stages that are entered only behind a checked handshake. *)
Definition past_handshake (s : FlowState) : bool :=
  s.(fake_sent) || s.(waiting_for_data) || s.(waiting_for_first_data_ack) ||
  s.(fragment_all_data).

(** A flow without an outcome is monitored; with one, it is monitored only in
    fragment-all mode, which belongs to a successful bypass. *)
Definition outcome_shape (s : FlowState) : bool :=
  match s.(outcome) with
  | None => s.(monitor) && negb s.(fragment_all_data)
  | Some FakeDataAcked => negb s.(monitor) || s.(fragment_all_data)
  | Some UnexpectedClose => negb s.(monitor) && negb s.(fragment_all_data)
  end.

Record entry_ok (e : FlowEntry) : Prop := {
  eo_seqs : past_handshake (fe_state e) = true → seqs_known (fe_state e);
  eo_shape : outcome_shape (fe_state e) = true;
  eo_notify : fe_notify e = if is_none (outcome (fe_state e)) then 0 else 1 }.

(** Handles that the table or a holder may use. *)
Definition world_ok (w : LocalFlows) : Prop :=
  local_wf w ∧ ∀ h e, w.(lf_heap) !! h = Some e → entry_ok e.

(** What never changes back: an outcome, once set, and the fake payload. *)
Definition entry_le (e e' : FlowEntry) : Prop :=
  (∀ o, outcome (fe_state e) = Some o → outcome (fe_state e') = Some o) ∧
  fake_data (fe_state e') = fake_data (fe_state e) ∧
  low_ttl_override (fe_state e') = low_ttl_override (fe_state e) ∧
  fe_notify e ≤ fe_notify e' ∧ fe_ready_for_data e ≤ fe_ready_for_data e'.
#[export] Instance entry_le_refl : Reflexive entry_le.
Proof. intros e. by repeat split. Qed.
#[export] Instance entry_le_trans : Transitive entry_le.
Proof.
  intros e1 e2 e3 (A & B & C & D & E) (A' & B' & C' & D' & E'). repeat split; auto;
    [congruence|congruence|lia|lia].
Qed.

(** ** Every branch keeps the invariant *)

(** Case analysis of the flags that decide, then computation. *)
Ltac flags_tac :=
  repeat match goal with
  | H : entry_ok ?e |- _ => destruct H as [?Hq ?Hs ?Hn]
  | e : FlowEntry |- _ => destruct e as [[mon sq sa fs wd fm wa fa oc fd tt] rd nt]
  end;
  unfold unexpected, finish, signal_outcome, notify_waiters, notify_ready, with_state, on_state,
    entry_le, seqs_known, past_handshake, outcome_shape, set_monitor, set_syn_seq,
    set_syn_ack_seq, set_fake_sent, set_waiting_for_data, set_first_data_modified,
    set_waiting_for_first_data_ack, set_fragment_all_data, set_outcome in *;
  cbn in *; subst;
  repeat match goal with
  | oc : option BypassOutcome |- _ => destruct oc as [[]|]
  end; cbn in *; try done;
  repeat match goal with
  | mon : bool, H : context [?b] |- _ => constr_eq mon b; destruct mon; cbn in *; try done
  | mon : bool |- context [?b] => constr_eq mon b; destruct mon; cbn in *; try done
  end.
Ltac entry_tac := flags_tac;
  try (split; [constructor|repeat split]); cbn in *; auto; try done; try lia;
  unfold seqs_known in *; cbn in *; naive_solver.

Lemma unexpected_ok e : entry_ok e → entry_ok (unexpected e) ∧ entry_le e (unexpected e).
Proof. intros H. entry_tac. Qed.

Lemma finish_ok o e : entry_ok e → entry_ok (finish o e) ∧ entry_le e (finish o e).
Proof. intros H. destruct o; entry_tac. Qed.

(** A branch result: the record keeps the invariant and only grows. *)
Definition branch_ok (e : FlowEntry) (p : PacketView) (r : exec Outcome) : Prop :=
  ∃ e' p' v, r = Done (e', p', v) ∧ entry_ok e' ∧ entry_le e e' ∧ captured p p'.

Lemma branch_intro e p p' e' v : captured p p' →
  entry_ok e' ∧ entry_le e e' → branch_ok e p (Done (e', p', v)).
Proof. intros Hc [H1 H2]. do 3 eexists. split; [reflexivity|]. auto. Qed.

Lemma branch_same e p v : entry_ok e → branch_ok e p (Done (e, p, v)).
Proof. intros H. by apply branch_intro. Qed.

Lemma branch_unexpected e p v : entry_ok e → branch_ok e p (Done (unexpected e, p, v)).
Proof. intros H. apply branch_intro; [done|]. by apply unexpected_ok. Qed.
#[export] Hint Resolve branch_same branch_unexpected : zdpi.

Section branches.
Context (m : BypassMethod) `{!HandshakeSafe m, !DataSafe m} (env : MethodEnv).
Implicit Types (e : FlowEntry) (p : PacketView).

Lemma outbound_syn_ok e p : entry_ok e → monitor (fe_state e) = true →
  branch_ok e p (Done (outbound_syn e p)).
Proof.
  intros He Hm. unfold outbound_syn. destruct (negb _); [auto with zdpi|].
  destruct (if syn_seq (fe_state e) is Some prev then _ else false); [auto with zdpi|].
  apply branch_intro; [done|]. entry_tac.
Qed.

(** The dispatches, for a flow behind its handshake. *)
Lemma after_handshake_ok e p p' a : entry_ok e → monitor (fe_state e) = true → captured p p' →
  seqs_known (fe_state e) → branch_ok e p (Done (after_handshake e p' a)).
Proof.
  intros He Hm Hc Hs. destruct a as [ci cd| | |]; cbn [after_handshake].
  - destruct cd, ci; apply branch_intro; try done; entry_tac.
  - apply branch_intro; [done|]. by apply finish_ok.
  - apply branch_intro; [done|]. entry_tac.
  - apply branch_intro; [done|]. by apply finish_ok.
Qed.

Lemma after_data_ok e p p' a : entry_ok e → monitor (fe_state e) = true → captured p p' →
  seqs_known (fe_state e) → branch_ok e p (Done (after_data e p' a)).
Proof.
  intros He Hm Hc Hs. unfold after_data. destruct a as [ci cd| | |].
  - destruct cd, ci; apply branch_intro; try done; entry_tac.
  - apply branch_intro; [done|]. entry_tac.
  - by apply branch_intro.
  - apply branch_intro; [done|]. entry_tac.
Qed.

Lemma outbound_ack_ok e p : entry_ok e → monitor (fe_state e) = true →
  branch_ok e p (outbound_ack m env e p).
Proof.
  intros He Hm. unfold outbound_ack. destruct (fragment_all_data _); [auto with zdpi|].
  destruct (_ || _); [auto with zdpi|].
  destruct (syn_seq (fe_state e)) as [syn|] eqn:Es; [|auto with zdpi].
  destruct (negb _); [auto with zdpi|].
  destruct (syn_ack_seq (fe_state e)) as [syn_ack|] eqn:Ea; [|auto with zdpi].
  destruct (negb _); [auto with zdpi|].
  assert (seqs_known (fe_state e)) as Hk by (unfold seqs_known; rewrite Es, Ea; eauto).
  destruct (handshake_safe env (fe_state e) p Hk) as (p' & a & -> & Hc). cbn [exec_bind].
  by apply after_handshake_ok.
Qed.

Lemma outbound_other_ok e p : entry_ok e → monitor (fe_state e) = true →
  branch_ok e p (outbound_other m env e p).
Proof.
  intros He Hm. unfold outbound_other. destruct (_ && _) eqn:E.
  - assert (seqs_known (fe_state e)) as Hk.
    { apply He. unfold past_handshake. apply andb_true_iff in E as [_ E].
      apply orb_true_iff in E as [E| ->]; [|by rewrite orb_true_r].
      apply andb_true_iff in E as [-> _]. by rewrite orb_true_r. }
    destruct (data_safe env (fe_state e) p (proj1 Hk)) as (p' & a & -> & Hc). cbn [exec_bind].
    by apply after_data_ok.
  - destruct (waiting_for_first_data_ack _); [auto with zdpi|].
    destruct (fragment_all_data _) eqn:Ef; [|auto with zdpi].
    destruct (f_fin _ || f_rst _); [|auto with zdpi]. apply branch_intro; [done|]. entry_tac.
Qed.

Lemma inbound_ok e p : entry_ok e → monitor (fe_state e) = true → branch_ok e p (inbound e p).
Proof.
  intros He Hm. unfold inbound. destruct (is_none (syn_seq (fe_state e))) eqn:Es; [auto with zdpi|].
  destruct (fragment_all_data _); [auto with zdpi|].
  destruct (syn_seq (fe_state e)) as [syn|] eqn:Eq; [|done]. clear Es.
  destruct (is_syn_ack p).
  { unfold inbound_syn_ack. rewrite Eq. cbn [expect exec_bind]. destruct (negb _); [auto with zdpi|].
    destruct (if syn_ack_seq (fe_state e) is Some prev then _ else false); [auto with zdpi|].
    apply branch_intro; [done|]. entry_tac. }
  destruct (is_bare_ack p && fake_sent (fe_state e)) eqn:Ef.
  { assert (is_Some (syn_ack_seq (fe_state e))) as [syn_ack Ea].
    { apply He. unfold past_handshake. apply andb_true_iff in Ef as [_ ->]. done. }
    unfold inbound_fake_ack. rewrite Ea, Eq. cbn [expect exec_bind].
    destruct (negb _); [auto with zdpi|]. destruct (negb _); [auto with zdpi|].
    destruct (waiting_for_data _); [auto with zdpi|].
    apply branch_intro; [done|]. by apply finish_ok. }
  destruct (waiting_for_first_data_ack (fe_state e) && is_bare_ack p) eqn:Ew; [|auto with zdpi].
  apply andb_true_iff in Ew as [Ew _].
  assert (is_Some (syn_ack_seq (fe_state e))) as [syn_ack Ea].
  { apply He. unfold past_handshake. by rewrite Ew, !orb_true_r. }
  unfold inbound_data_ack. rewrite Ea, Eq. cbn [expect exec_bind].
  destruct (negb _); [auto with zdpi|]. destruct (_ <? _)%Z; [|auto with zdpi].
  apply branch_intro; [done|]. entry_tac.
Qed.

(** One call on a flow: no panic, the invariant, and growth. *)
Lemma on_entry_ok e p : entry_ok e → branch_ok e p (on_entry m env e p).
Proof.
  intros He. unfold on_entry. destruct (monitor (fe_state e)) eqn:Hm; cbn [negb];
    [|auto with zdpi].
  destruct (pv_direction p); [|by apply inbound_ok].
  destruct (is_bare_syn p); [by apply outbound_syn_ok|].
  destruct (is_bare_ack p); [by apply outbound_ack_ok|by apply outbound_other_ok].
Qed.
End branches.

(** ** Worlds *)
Definition world_le (w w' : LocalFlows) : Prop :=
  ∀ h e, w.(lf_heap) !! h = Some e → ∃ e', w'.(lf_heap) !! h = Some e' ∧ entry_le e e'.
#[export] Instance world_le_refl : Reflexive world_le.
Proof. intros w h e He. by exists e. Qed.
#[export] Instance world_le_trans : Transitive world_le.
Proof.
  intros w1 w2 w3 H1 H2 h e He. destruct (H1 h e He) as (e' & He' & L).
  destruct (H2 h e' He') as (e'' & He'' & L'). exists e''. split; [done|]. by etransitivity.
Qed.

Lemma entry_ok_new data ttl : entry_ok (FlowEntry_new data ttl).
Proof. by constructor. Qed.

(** A heap update within the table. *)
Lemma local_wf_update w h e e' : local_wf w → w.(lf_heap) !! h = Some e →
  local_wf (MkLocalFlows w.(lf_flows) (<[h := e']> w.(lf_heap)) w.(lf_next)).
Proof.
  intros [We Wf Wi] Hh. constructor; simpl; [|intros h' Hh'|done].
  - intros k h' Hk. rewrite lookup_insert. case_decide; [by eexists|eauto].
  - rewrite lookup_insert_ne; [by apply Wf|]. intros <-. by rewrite Wf in Hh.
Qed.

(** One call, whatever the packet. *)
Lemma on_packet_ok m `{!HandshakeSafe m, !DataSafe m} env w p : world_ok w →
  ∃ w' p' v, on_packet m env w p = Done (w', p', v) ∧ world_ok w' ∧ world_le w w' ∧ captured p p'.
Proof.
  intros [Wf We]. unfold on_packet.
  destruct (lf_flows w !! flow_key_for p) as [h|]; [|by do 3 eexists].
  destruct (lf_heap w !! h) as [e|] eqn:Eh; [|by do 3 eexists].
  destruct (on_entry_ok m env e p (We _ _ Eh)) as (e' & p' & v & -> & Ho & Hl & Hc).
  cbn [exec_bind]. do 3 eexists. split; [reflexivity|]. split; [split|split; [|done]].
  - by eapply local_wf_update.
  - intros h' e0. simpl. rewrite lookup_insert. case_decide; [by intros [= <-]|apply We].
  - intros h' e0 H0. simpl. rewrite lookup_insert. case_decide as Hd; [|by eexists].
    subst h'. rewrite Eh in H0. injection H0 as <-. by eexists.
Qed.

(** The proxy side's steps, by the controller's contract. *)
Lemma register_world_ok k data ttl w w' h : world_ok w →
  register_flow k data ttl w = Some (w', h) → world_ok w' ∧ world_le w w'.
Proof.
  intros [Wf We] Hr. destruct (tracked k w) as [h0|] eqn:Et.
  { by rewrite (register_flow_dup k data ttl h0 w Wf Et) in Hr. }
  destruct (register_flow_ok k data ttl w Wf Et) as (w1 & h1 & Hr1 & Wf' & Hn & Hh & Ho & _).
  rewrite Hr in Hr1. injection Hr1 as <- <-. simpl in *.
  split; [split; [done|]|]; intros h' e He; (destruct (decide (h' = h)) as [->|Hne]).
  - rewrite Hh in He. injection He as <-. apply entry_ok_new.
  - rewrite Ho in He by done. by eapply We.
  - by rewrite Hn in He.
  - exists e. by rewrite Ho.
Qed.

Lemma reset_entry h e w : world_ok w → w.(lf_heap) !! h = Some e →
  ∃ e', (reset w).(lf_heap) !! h = Some e' ∧ (e' = e ∨ e' = finish UnexpectedClose e).
Proof.
  intros [Wf We] He. simpl. rewrite lookup_finish_all, He.
  case_decide; eexists; (split; [reflexivity|]); auto.
Qed.

Lemma reset_world_ok w : world_ok w → world_ok (reset w) ∧ world_le w (reset w).
Proof.
  intros Hw. pose proof Hw as [Wf We]. destruct (reset_spec w Wf) as (Wf' & _).
  assert (∀ h e e', e' = e ∨ e' = finish UnexpectedClose e → lf_heap w !! h = Some e →
    entry_ok e' ∧ entry_le e e') as Hf.
  { intros h e e' [->| ->] He; [split; [by eapply We|done]|].
    by apply finish_ok; eapply We. }
  split; [split; [done|]|].
  - intros h e' He'. destruct (lf_heap w !! h) as [e|] eqn:He.
    + destruct (reset_entry h e w Hw He) as (e1 & H1 & Hor). rewrite He' in H1. injection H1 as <-.
      by eapply (Hf h e).
    + simpl in He'. rewrite lookup_finish_all, He in He'. by case_decide.
  - intros h e He. destruct (reset_entry h e w Hw He) as (e' & H1 & Hor). exists e'.
    split; [done|]. by eapply Hf.
Qed.

Lemma step_ok m `{!HandshakeSafe m, !DataSafe m} w w' : step m w w' → world_ok w →
  world_ok w' ∧ world_le w w'.
Proof.
  intros [k data ttl w0 w1 h Hr|k w0|w0|env p p' v w0 w1 Hp] Hw.
  - by eapply register_world_ok.
  - pose proof Hw as [Wf We]. destruct (remove_flow_spec k w0 Wf) as (Wf' & Hh & _). simpl in *.
    split; [split; [done|]|]; simpl; [done|]. intros h e He. by exists e.
  - by apply reset_world_ok.
  - destruct (on_packet_ok m env w0 p Hw) as (w2 & p2 & v2 & H2 & Ho & Hl & _).
    rewrite Hp in H2. injection H2 as <- <- <-. done.
Qed.

Lemma steps_ok m `{!HandshakeSafe m, !DataSafe m} w w' : rtc (step m) w w' → world_ok w →
  world_ok w' ∧ world_le w w'.
Proof.
  induction 1 as [w|w1 w2 w3 Hs _ IH]; intros Hw; [done|].
  destruct (step_ok m _ _ Hs Hw) as [Ho Hl]. destruct (IH Ho) as [Ho' Hl'].
  split; [done|]. by etransitivity.
Qed.

Lemma world_ok_new : world_ok new_flow_table.
Proof. split; [apply local_wf_new|]. intros h e. simpl. by rewrite lookup_empty. Qed.

Lemma reachable_ok m `{!HandshakeSafe m, !DataSafe m} w : reachable m w → world_ok w.
Proof. intros Hr. by apply (steps_ok m _ _ Hr), world_ok_new. Qed.

(** The methods of validated configurations. *)
Lemma built_safe mp cfg seed m : validate mp cfg = Ok () → (0 ≤ cfg.(TLS_RECORD_FRAG_SIZE))%Z →
  build_method cfg seed = Some m → HandshakeSafe m ∧ DataSafe m.
Proof.
  intros Hv Hf Hb. apply validate_parts in Hv as [Hm Hp].
  unfold build_method in Hb. rewrite build_composite_ok in Hb by done.
  destruct (requires_interceptor _); [|done]. cbn [option_map] in Hb. injection Hb as <-.
  apply composite_of_safe. pose proof (po_record_frag _ Hp). lia.
Qed.

(** A run of calls; [after] is the world it leads to. *)
Fixpoint deliver (m : BypassMethod) (env : MethodEnv) (w : LocalFlows) (ps : list PacketView)
    : exec LocalFlows :=
  match ps with
  | [] => Done w
  | p :: ps' => let! r := on_packet m env w p in deliver m env r.1.1 ps'
  end.
Definition after m env w ps : LocalFlows :=
  match deliver m env w ps with Done w' => w' | Panic => w end.

Lemma deliver_steps m env w ps w' : deliver m env w ps = Done w' → rtc (step m) w w'.
Proof.
  revert w; induction ps as [|p ps IH]; intros w; cbn [deliver]; [by intros [= <-]|].
  destruct (on_packet m env w p) as [[[w1 q] v]|] eqn:E; cbn [exec_bind]; [|done].
  intros H. eapply rtc_l; [by eapply step_packet|by apply IH].
Qed.

Lemma after_steps m env w ps : rtc (step m) w (after m env w ps).
Proof. unfold after. destruct (deliver m env w ps) eqn:E; [by eapply deliver_steps|done]. Qed.

Lemma after_reachable m env w ps : reachable m w → reachable m (after m env w ps).
Proof. intros Hr. unfold reachable in *. etransitivity; [exact Hr|]. apply after_steps. Qed.

(** Packets with no payload, staged fields or options. *)
Definition control_packet (d : Direction) (seq ack : Z) (syn ackf : bool) : PacketView :=
  let '(si, di, sp, dp) := match d with
    | Outbound => (1, 2, 40000, 443)%Z | Inbound => (2, 1, 443, 40000)%Z end in
  MkPacketView d si di sp dp seq ack (MkTcpFlags syn ackf false false false false)
    0 [] [] None None None None None None [] false None false None None None None.

(** One registered flow, the one of [control_packet]. *)
Definition sample_key : FlowKey := MkFlowKey 1 40000 2 443.
Definition one_flow : LocalFlows :=
  match local_register sample_key [22; 3]%Z None new_flow_table with
  | Some (w, _) => w | None => new_flow_table end.

Lemma one_flow_reachable m : reachable m one_flow.
Proof.
  eapply rtc_once, (step_register m sample_key [22; 3]%Z None _ _ 0). vm_compute. reflexivity.
Qed.

(** (C24) The interceptor never dies.  With the method built from any
    validated configuration, in every state that packets, registrations,
    removals and resets can lead to, in any interleaving, [on_packet] returns
    normally on every packet (none of the [expect]s on the recorded sequence
    numbers can fail, whatever the peer sends), it changes no captured field,
    and every flow record, tracked or not, satisfies the flow invariant: a
    flow without an outcome is monitored, one with an outcome is monitored
    only in the fragment-all mode of a successful bypass, every stage behind
    the handshake knows both sequence numbers, and the waiting task has been
    notified exactly once if there is an outcome and not at all before. *)
Theorem handler_safe mp cfg seed m w env p :
  validate mp cfg = Ok () → (0 ≤ cfg.(TLS_RECORD_FRAG_SIZE))%Z →
  build_method cfg seed = Some m → reachable m w →
  (∃ w' p' v, on_packet m env w p = Done (w', p', v) ∧ captured p p') ∧
  (∀ h e, w.(lf_heap) !! h = Some e → entry_ok e).
Proof.
  intros Hv Hf Hb Hr. destruct (built_safe mp cfg seed m Hv Hf Hb) as [Hs Hd].
  pose proof (reachable_ok m w Hr) as Hw. split; [|apply Hw].
  destruct (on_packet_ok m env w p Hw) as (w' & p' & v & H & _ & _ & Hc). by do 3 eexists.
Qed.

(** The injector of a one-method list, on a flow that has seen its SYN. *)
Definition wrong_md5_config : Config := with_methods ["wrong_md5"%string]
  (default_config "127.0.0.1"%string 44444).
Definition wrong_md5_method : BypassMethod := composite (composite_of wrong_md5_config 0).
Definition sample_env : MethodEnv := MkMethodEnv 5 0.
Definition syn_seen : LocalFlows :=
  after wrong_md5_method sample_env one_flow [control_packet Outbound 1000 0 true false].
Definition shaken_flow : LocalFlows :=
  after wrong_md5_method sample_env syn_seen [control_packet Inbound 5000 1001 true true].
Definition done_flow : LocalFlows :=
  after wrong_md5_method sample_env shaken_flow [control_packet Outbound 1001 5001 false true].

Lemma wrong_md5_valid : validate 1024 wrong_md5_config = Ok ().
Proof. vm_compute. reflexivity. Qed.
Lemma wrong_md5_built : build_method wrong_md5_config 0 = Some wrong_md5_method.
Proof.
  destruct (validate_parts _ _ wrong_md5_valid) as [Hm _].
  unfold build_method. rewrite (build_composite_ok _ _ Hm). reflexivity.
Qed.

Lemma syn_seen_reachable : reachable wrong_md5_method syn_seen.
Proof. apply after_reachable, one_flow_reachable. Qed.
Lemma shaken_flow_reachable : reachable wrong_md5_method shaken_flow.
Proof. apply after_reachable, syn_seen_reachable. Qed.

(** An inbound packet out of the blue. *)
Lemma handler_safe_witness :
  ∃ w' p' v, on_packet wrong_md5_method sample_env syn_seen
    (control_packet Inbound 7 9 false true) = Done (w', p', v).
Proof.
  destruct (handler_safe 1024 wrong_md5_config 0 wrong_md5_method syn_seen sample_env
    (control_packet Inbound 7 9 false true) wrong_md5_valid ltac:(vm_compute; discriminate)
    wrong_md5_built syn_seen_reachable) as [(w' & p' & v & H & _) _].
  exists w', p', v. exact H.
Defined.

(** A bypass ends once.  Along any run from a reachable state, a flow
    record that the proxy task holds stays readable, also after the table has
    dropped the flow; its outcome, once set, never changes; the task is
    notified at most once over the whole run; and the fake payload and TTL
    override it was registered with are never altered. *)
Theorem outcome_write_once mp cfg seed m w w' h e :
  validate mp cfg = Ok () → (0 ≤ cfg.(TLS_RECORD_FRAG_SIZE))%Z →
  build_method cfg seed = Some m → reachable m w → rtc (step m) w w' →
  w.(lf_heap) !! h = Some e →
  ∃ e', w'.(lf_heap) !! h = Some e' ∧
    (∀ o, outcome (fe_state e) = Some o →
      outcome (fe_state e') = Some o ∧ fe_notify e' = fe_notify e) ∧
    fe_notify e' ≤ 1 ∧ fake_data (fe_state e') = fake_data (fe_state e) ∧
    low_ttl_override (fe_state e') = low_ttl_override (fe_state e).
Proof.
  intros Hv Hf Hb Hr Hs He. destruct (built_safe mp cfg seed m Hv Hf Hb) as [HsS HsD].
  pose proof (reachable_ok m w Hr) as Hw. destruct (steps_ok m w w' Hs Hw) as [Hw' Hl].
  destruct (Hl h e He) as (e' & He' & Ho & Hfd & Ht & _).
  exists e'. split; [done|].
  pose proof (eo_notify _ (proj2 Hw h e He)) as Hn. pose proof (eo_notify _ (proj2 Hw' h e' He')) as Hn'.
  split; [|split; [|done]].
  - intros o Hoe. specialize (Ho o Hoe). split; [done|]. by rewrite Hn, Hn', Ho, Hoe.
  - rewrite Hn'. destruct (outcome (fe_state e')); cbn; lia.
Qed.

Lemma outcome_write_once_witness :
  ∃ e', lf_heap done_flow !! 0 = Some e' ∧ fe_notify e' ≤ 1 ∧ fake_data (fe_state e') = [22; 3]%Z.
Proof.
  assert (rtc (step wrong_md5_method) shaken_flow done_flow) as Hs by apply after_steps.
  destruct (lf_heap shaken_flow !! 0) as [e|] eqn:E; [|vm_compute in E; discriminate].
  destruct (outcome_write_once 1024 wrong_md5_config 0 wrong_md5_method shaken_flow done_flow 0 e
    wrong_md5_valid ltac:(vm_compute; discriminate) wrong_md5_built shaken_flow_reachable Hs E)
    as (e' & H1 & _ & H2 & H3 & _).
  exists e'. split; [exact H1|]. split; [exact H2|]. rewrite H3. vm_compute in E.
  injection E as <-. reflexivity.
Defined.

(** ** Which branch modifies *)
Lemma inbound_accepts e p e' q v : inbound e p = Done (e', q, v) → v = Accept.
Proof.
  unfold inbound, inbound_syn_ack, inbound_fake_ack, inbound_data_ack, exec_bind.
  intros H. repeat (case_match; simplify_eq; try done).
Qed.

Lemma after_handshake_sent e p a e' q :
  after_handshake e p a = (e', q, AcceptModified) → fake_sent (fe_state e') = true.
Proof.
  destruct a as [ci cd| | |]; cbn [after_handshake]; try done. intros [= <- <-].
  destruct cd; [done|]. destruct ci; [|done]. unfold finish. by case_match.
Qed.

Lemma after_data_modified e p a e' q :
  after_data e p a = (e', q, AcceptModified) →
  first_data_modified (fe_state e') = true ∧ waiting_for_data (fe_state e') = false.
Proof.
  destruct a as [ci cd| | |]; unfold after_data; try done. intros [= <- <-].
  destruct cd, ci; unfold signal_outcome, finish; try case_match; done.
Qed.

Lemma on_entry_modified m env e p e' q : entry_ok e →
  on_entry m env e p = Done (e', q, AcceptModified) →
  ∃ syn syn_ack, pv_direction p = Outbound ∧ monitor (fe_state e) = true ∧
    syn_seq (fe_state e) = Some syn ∧ syn_ack_seq (fe_state e) = Some syn_ack ∧
    ((is_bare_ack p = true ∧ pv_seq p = wadd32 syn 1 ∧ pv_ack p = wadd32 syn_ack 1 ∧
      fake_sent (fe_state e) = false ∧ waiting_for_data (fe_state e) = false ∧
      fake_sent (fe_state e') = true) ∨
     (0 < pv_payload_len p ∧ first_data_modified (fe_state e') = true ∧
      waiting_for_data (fe_state e') = false ∧
      ((waiting_for_data (fe_state e) = true ∧ first_data_modified (fe_state e) = false) ∨
       fragment_all_data (fe_state e) = true))).
Proof.
  intros He. unfold on_entry. destruct (monitor (fe_state e)); cbn [negb]; [|done].
  destruct (pv_direction p); [|by intros H%inbound_accepts].
  destruct (is_bare_syn p).
  { unfold outbound_syn. intros H. repeat (case_match; simplify_eq). }
  destruct (is_bare_ack p) eqn:Eb.
  - unfold outbound_ack. destruct (fragment_all_data _); [done|].
    destruct (fake_sent (fe_state e)), (waiting_for_data (fe_state e)); cbn [orb]; try done.
    destruct (syn_seq (fe_state e)) as [syn|]; [|done].
    destruct (Z.eqb_spec (pv_seq p) (wadd32 syn 1)); cbn [negb]; [|done].
    destruct (syn_ack_seq (fe_state e)) as [syn_ack|]; [|done].
    destruct (Z.eqb_spec (pv_ack p) (wadd32 syn_ack 1)); cbn [negb]; [|done].
    destruct (bm_on_handshake_complete_ack _ _ _ _) as [[p' a]|]; cbn [exec_bind]; [|done].
    intros H. assert (after_handshake e p' a = (e', q, AcceptModified)) as Ha by congruence.
    apply after_handshake_sent in Ha. exists syn, syn_ack. tauto.
  - unfold outbound_other. destruct (_ && _) eqn:E.
    + apply andb_true_iff in E as [El E]. bool_to_prop.
      assert (seqs_known (fe_state e)) as [[syn ->] [syn_ack ->]].
      { apply He. unfold past_handshake. destruct E as [E| ->]; [|by rewrite orb_true_r].
        apply andb_true_iff in E as [-> _]. by rewrite orb_true_r. }
      destruct (bm_on_first_data_packet _ _ _ _) as [[p' a]|]; cbn [exec_bind]; [|done].
      intros H. assert (after_data e p' a = (e', q, AcceptModified)) as Ha by congruence.
      apply after_data_modified in Ha as [H1 H2]. exists syn, syn_ack.
      do 4 (split; [done|]). right. do 3 (split; [done|]).
      destruct E as [E|E]; [|by right].
      apply andb_true_iff in E as [E1 E2]. apply negb_true_iff in E2. by left.
    + destruct (waiting_for_first_data_ack _); [done|]. destruct (fragment_all_data _); [|done].
      by destruct (f_fin _ || f_rst _).
Qed.

(** ** What the handler touches and modifies *)

(** Isolation.  A packet of an unknown or unmonitored flow is accepted
    and nothing changes.  Any other packet changes the record of its own flow
    only: the table and every other record stay as they are.  The two
    directions of a connection belong to the same flow. *)
Theorem handler_isolated m env w p :
  (∀ w' p' v, on_packet m env w p = Done (w', p', v) →
    w'.(lf_flows) = w.(lf_flows) ∧ w'.(lf_next) = w.(lf_next) ∧
    ∀ h, w.(lf_flows) !! flow_key_for p ≠ Some h → w'.(lf_heap) !! h = w.(lf_heap) !! h) ∧
  ((∀ h e, w.(lf_flows) !! flow_key_for p = Some h → w.(lf_heap) !! h = Some e →
     monitor (fe_state e) = false) → 
   ∃ w', on_packet m env w p = Done (w', p, Accept) ∧
     ∀ h, w'.(lf_heap) !! h = w.(lf_heap) !! h) ∧
  (∀ q, pv_direction q ≠ pv_direction p → pv_src_ip q = pv_dst_ip p → pv_dst_ip q = pv_src_ip p →
     pv_src_port q = pv_dst_port p → pv_dst_port q = pv_src_port p →
     flow_key_for q = flow_key_for p).
Proof.
  split; [|split].
  - intros w' p' v. unfold on_packet. destruct (lf_flows w !! flow_key_for p) as [h|] eqn:Ek.
    2:{ by intros [= <- <- <-]. }
    destruct (lf_heap w !! h) as [e|] eqn:Eh; [|by intros [= <- <- <-]].
    destruct (on_entry m env e p) as [[[e' q] u]|]; cbn [exec_bind]; [|done].
    intros [= <- <- <-]. simpl. split; [done|]. split; [done|]. intros h' Hne.
    rewrite lookup_insert_ne; [done|]. congruence.
  - intros Hm. unfold on_packet. destruct (lf_flows w !! flow_key_for p) as [h|] eqn:Ek.
    2:{ by eexists. }
    destruct (lf_heap w !! h) as [e|] eqn:Eh; [|by eexists].
    unfold on_entry. rewrite (Hm h e) by done. cbn [negb exec_bind]. eexists.
    split; [reflexivity|]. intros h'. simpl. rewrite lookup_insert. case_decide; by subst.
  - intros q Hd H1 H2 H3 H4. unfold flow_key_for.
    destruct (pv_direction q), (pv_direction p); try done; congruence.
Qed.

(** Which packets are modified.  In every reachable state, a packet is
    re-emitted modified only if it is outbound, its flow is monitored and both
    sequence numbers of its handshake are known, and it is either the first
    bare ACK whose numbers complete that handshake, before anything was sent,
    or a data packet of a flow that waits for its first one or is in
    fragment-all mode; the flow then remembers it, so neither kind is modified
    twice outside fragment-all mode. *)
Theorem modified_only_when_due mp cfg seed m w env p w' p' :
  validate mp cfg = Ok () → (0 ≤ cfg.(TLS_RECORD_FRAG_SIZE))%Z →
  build_method cfg seed = Some m → reachable m w →
  on_packet m env w p = Done (w', p', AcceptModified) →
  ∃ h e e' syn syn_ack,
    w.(lf_flows) !! flow_key_for p = Some h ∧ w.(lf_heap) !! h = Some e ∧
    w'.(lf_heap) !! h = Some e' ∧ pv_direction p = Outbound ∧ monitor (fe_state e) = true ∧
    syn_seq (fe_state e) = Some syn ∧ syn_ack_seq (fe_state e) = Some syn_ack ∧
    ((is_bare_ack p = true ∧ pv_seq p = wadd32 syn 1 ∧ pv_ack p = wadd32 syn_ack 1 ∧
      fake_sent (fe_state e) = false ∧ waiting_for_data (fe_state e) = false ∧
      fake_sent (fe_state e') = true) ∨
     (0 < pv_payload_len p ∧ first_data_modified (fe_state e') = true ∧
      waiting_for_data (fe_state e') = false ∧
      ((waiting_for_data (fe_state e) = true ∧ first_data_modified (fe_state e) = false) ∨
       fragment_all_data (fe_state e) = true))).
Proof.
  intros Hv Hf Hb Hr. destruct (built_safe mp cfg seed m Hv Hf Hb) as [HsS HsD].
  pose proof (reachable_ok m w Hr) as [Hwf Hw]. unfold on_packet.
  destruct (lf_flows w !! flow_key_for p) as [h|] eqn:Ek; [|done].
  destruct (lf_heap w !! h) as [e|] eqn:Eh; [|done].
  destruct (on_entry m env e p) as [[[e' q] u]|] eqn:Eo; cbn [exec_bind]; [|done].
  intros [= <- <- ->]. cbn [lf_heap].
  destruct (on_entry_modified m env e p e' q (Hw _ _ Eh) Eo) as (syn & syn_ack & H).
  exists h, e, e', syn, syn_ack. rewrite lookup_insert_eq. split; [done|]. split; [done|].
  split; [done|]. tauto.
Qed.

(** A packet of another connection. *)
Lemma handler_isolated_witness :
  ∃ w', on_packet wrong_md5_method sample_env shaken_flow
      (MkPacketView Outbound 9 9 9 9 1 1 (MkTcpFlags true true true true true true)
         0 [] [] None None None None None None [] false None false None None None None) =
    Done (w', MkPacketView Outbound 9 9 9 9 1 1 (MkTcpFlags true true true true true true)
         0 [] [] None None None None None None [] false None false None None None None, Accept) ∧
    lf_heap w' !! 0 = lf_heap shaken_flow !! 0.
Proof.
  destruct (handler_isolated wrong_md5_method sample_env shaken_flow
    (MkPacketView Outbound 9 9 9 9 1 1 (MkTcpFlags true true true true true true)
       0 [] [] None None None None None None [] false None false None None None None))
    as (_ & H & _).
  destruct H as (w' & H1 & H2); [intros h e Hh; vm_compute in Hh; discriminate|].
  exists w'. split; [exact H1|apply H2].
Defined.

Lemma modified_only_when_due_witness :
  ∃ w' p' h e, on_packet wrong_md5_method sample_env shaken_flow
      (control_packet Outbound 1001 5001 false true) = Done (w', p', AcceptModified) ∧
    lf_heap shaken_flow !! h = Some e ∧ monitor (fe_state e) = true.
Proof.
  destruct (on_packet wrong_md5_method sample_env shaken_flow
    (control_packet Outbound 1001 5001 false true)) as [[[w' p'] v]|] eqn:E;
    [|vm_compute in E; discriminate].
  assert (v = AcceptModified) as -> by (vm_compute in E; by injection E).
  destruct (modified_only_when_due 1024 wrong_md5_config 0 wrong_md5_method shaken_flow sample_env
    _ w' p' wrong_md5_valid ltac:(vm_compute; discriminate) wrong_md5_built shaken_flow_reachable E)
    as (h & e & _ & _ & _ & _ & H1 & _ & _ & H2 & _).
  exists w', p', h, e. split; [reflexivity|]. split; [exact H1|exact H2].
Defined.
