(* ===== verification/Session.v ===== *)
(** * Sessions

    What the handler of [Handler] and the composite of [Composite] do together
    over the packets of one connection: the three-way handshake and its fake
    ClientHello, the data stage, and the cases in which a listed method has no
    effect. *)
From stdpp Require Import base list numbers gmap strings relations.
From Stdlib Require Import ZArith Lia.
From S2P Require Import Prelude Interceptor Flow Text Config Methods HandshakeMethods.
From S2P Require Import DataMethods Composite Handler.

Open Scope string_scope.
Open Scope list_scope.
Open Scope nat_scope.

(** ** Sessions

    The calls of one flow, in order. *)
Fixpoint run (m : BypassMethod) (env : MethodEnv) (e : FlowEntry) (ps : list PacketView)
    : exec (FlowEntry * list (PacketView * Verdict)) :=
  match ps with
  | [] => Done (e, [])
  | p :: ps' =>
      let! r := on_entry m env e p in
      let '(e, q, v) := r in
      let! r := run m env e ps' in
      Done (r.1, (q, v) :: r.2)
  end.

(** A three-way handshake with initial numbers [x] and [y]. *)
Record handshake (p1 p2 p3 : PacketView) (x y : Z) : Prop := {
  hk_syn : pv_direction p1 = Outbound ∧ is_bare_syn p1 = true ∧ pv_ack p1 = 0%Z ∧ pv_seq p1 = x;
  hk_syn_ack : pv_direction p2 = Inbound ∧ is_syn_ack p2 = true ∧ pv_seq p2 = y ∧
    pv_ack p2 = wadd32 x 1;
  hk_ack : pv_direction p3 = Outbound ∧ is_bare_ack p3 = true ∧ pv_seq p3 = wadd32 x 1 ∧
    pv_ack p3 = wadd32 y 1 }.

(** The flow's record behind the SYN-ACK. *)
Definition shaken (data : list Z) (ttl : option Z) (x y : Z) : FlowEntry :=
  MkFlowEntry (MkFlowState true (Some x) (Some y) false false false false false None data ttl) 0 0.

Lemma bare_ack_not_syn p : is_bare_ack p = true → is_bare_syn p = false ∧ is_syn_ack p = false.
Proof.
  unfold is_bare_ack, is_bare_syn, is_syn_ack. destruct (f_syn _), (f_ack _); cbn; done.
Qed.

Lemma run_handshake m env data ttl p1 p2 p3 x y : handshake p1 p2 p3 x y →
  run m env (FlowEntry_new data ttl) [p1; p2; p3] =
    let! r := bm_on_handshake_complete_ack m env (fe_state (shaken data ttl x y)) p3 in
    let '(e, q, v) := after_handshake (shaken data ttl x y) r.1 r.2 in
    Done (e, [(p1, Accept); (p2, Accept); (q, v)]).
Proof.
  intros [(D1 & B1 & A1 & S1) (D2 & B2 & S2 & A2) (D3 & B3 & S3 & A3)].
  destruct (bare_ack_not_syn p3 B3) as [N3 _].
  set (e1 := MkFlowEntry (MkFlowState true (Some x) None false false false false false None data ttl)
               0 0).
  assert (on_entry m env (FlowEntry_new data ttl) p1 = Done (e1, p1, Accept)) as E1.
  { unfold on_entry. rewrite D1, B1. unfold outbound_syn. rewrite A1, S1. reflexivity. }
  assert (on_entry m env e1 p2 = Done (shaken data ttl x y, p2, Accept)) as E2.
  { unfold on_entry. rewrite D2. unfold inbound. rewrite B2. unfold inbound_syn_ack.
    rewrite A2, S2. cbn. by rewrite Z.eqb_refl. }
  assert (on_entry m env (shaken data ttl x y) p3 =
    let! r := bm_on_handshake_complete_ack m env (fe_state (shaken data ttl x y)) p3 in
    Done (after_handshake (shaken data ttl x y) r.1 r.2)) as E3.
  { unfold on_entry. rewrite D3, N3, B3. unfold outbound_ack. rewrite S3, A3.
    cbn -[after_handshake]. rewrite !Z.eqb_refl. cbn -[after_handshake].
    by destruct (bm_on_handshake_complete_ack _ _ _ _) as [[q a]|]. }
  cbn [run]. rewrite E1. cbn [exec_bind]. rewrite E2. cbn [exec_bind]. rewrite E3.
  destruct (bm_on_handshake_complete_ack _ _ _ _) as [r|]; cbn [exec_bind]; [|done].
  by destruct (after_handshake _ r.1 r.2) as [[e' q'] v].
Qed.

(** ** End to end: the handshake stage *)
Section handshake_stage.
Context (cfg : Config) (seed : Z) (c : CompositeMethod) (env : MethodEnv).
Context (Hm : methods_ok cfg) (Hc : build_composite cfg seed = Some c).
Context (Hw : waits_for_data c = false).
Context (data : list Z) (ttl : option Z) (p1 p2 p3 : PacketView) (x y : Z).
Context (Hk : handshake p1 p2 p3 x y).
Context (Hf : pv_new_flags p3 = None) (Hb : pv_bump_ipv4_ident p3 = false).

Let L := handshake_names cfg.(BYPASS_METHOD).
Let e0 := shaken data ttl x y.
Let q3 := staged cfg env (fe_state e0) p3 x y L (staged_flags cfg p3 (find (emits cfg p3) L))
            (any_bump cfg p3 L).

Lemma run_composite :
  run (composite c) env (FlowEntry_new data ttl) [p1; p2; p3] =
    let '(e, q, v) := after_handshake e0 q3
      (last_to_action (existsb (emits cfg p3) L) (action_of cfg p3 <$> head (rev L))) in
    Done (e, [(p1, Accept); (p2, Accept); (q, v)]).
Proof.
  rewrite (run_handshake _ _ _ _ _ _ _ _ _ Hk). fold e0.
  rewrite (built_staging cfg seed env (fe_state e0) p3 x y Hm eq_refl eq_refl Hf Hb c Hc).
  rewrite Hw. reflexivity.
Qed.

(** The list has a handshake member. *)
Lemma last_member : ∃ n, head (rev L) = Some n ∧ n ∈ L.
Proof.
  rewrite build_composite_ok in Hc by done.
  destruct (requires_interceptor _) eqn:Er; [|done]. injection Hc as <-.
  destruct (rev L) as [|n l] eqn:E.
  - exfalso. assert (L = []) as EL by (rewrite <- (rev_involutive L), E; done).
    unfold waits_for_data, composite_of in Hw.
    cbn [data_methods segments_first_client_hello pads_first_client_hello
         splits_first_client_hello ccs_prefix_first_hello record_splits_first_client_hello] in Hw.
    destruct (data_names _) as [|n l] eqn:Ed; [|done].
    unfold requires_interceptor in Er. apply existsb_exists in Er as (n & Hn & Hs).
    assert (n ∈ BASE_BYPASS_METHODS) as Hbase by (apply (mo_base _ Hm), list_elem_of_In, Hn).
    assert (n ∉ handshake_names (BYPASS_METHOD cfg)) as N1 by (fold L; rewrite EL; apply not_elem_of_nil).
    assert (n ∉ data_names (BYPASS_METHOD cfg)) as N2 by (rewrite Ed; apply not_elem_of_nil).
    assert (∀ (P : string → bool), n ∉ List.filter P (BYPASS_METHOD cfg) → P n = false) as HP.
    { intros P Hnf. destruct (P n) eqn:EP; [|done]. exfalso. by apply Hnf, list_elem_of_In, filter_In. }
    apply HP in N1, N2. base_cases Hbase; vm_compute in N1, N2, Hs; done.
  - exists n. split; [done|]. apply list_elem_of_In, in_rev. rewrite E. by left.
Qed.

(** The last member's action, as the composite reports it. *)
Lemma last_action n : head (rev L) = Some n → n ∈ L →
  last_to_action (existsb (emits cfg p3) L) (action_of cfg p3 <$> head (rev L)) =
    if emits cfg p3 n then
      match action_of cfg p3 n with
      | EmitFakeAndAccept true _ => emit_and_complete | _ => emit_and_wait_for_ack end
    else if String.eqb n "wrong_timestamp" && negb (existsb (emits cfg p3) L)
    then abort_and_accept else complete_and_accept.
Proof.
  intros Hh Hn. rewrite Hh. cbn [fmap option_fmap option_map].
  apply handshake_names_side, list_elem_of_In in Hn. cbn [In HANDSHAKE_SIDE] in Hn.
  unfold action_of, emits. generalize (existsb (emits cfg p3) L). intros b.
  repeat destruct Hn as [<-|Hn]; try done; cbn -[backdated];
    unfold complete_or_wait; repeat case_match; try done; by destruct b.
Qed.

Lemma staged_payload : existsb (emits cfg p3) L = true → pv_new_payload q3 = Some data.
Proof. intros H. unfold q3, staged. cbn [pv_new_payload]. by rewrite H. Qed.

(** The server's answer to a fake it ignores. *)
Lemma server_ack m p4 : pv_direction p4 = Inbound → is_bare_ack p4 = true →
  pv_seq p4 = wadd32 y 1 → pv_ack p4 = wadd32 x 1 →
  ∃ e, on_entry m env (on_state (set_fake_sent true) e0) p4 = Done (e, p4, Accept) ∧
    outcome (fe_state e) = Some FakeDataAcked ∧ fe_notify e = 1.
Proof.
  intros D B S A. destruct (bare_ack_not_syn p4 B) as [_ N].
  eexists. unfold on_entry, inbound. rewrite D, N, B. unfold inbound_fake_ack. rewrite S, A. cbn.
  rewrite !Z.eqb_refl. cbn. done.
Qed.

Lemma handshake_session_lemma :
  ∃ n e q v, head (rev L) = Some n ∧
    run (composite c) env (FlowEntry_new data ttl) [p1; p2; p3] =
      Done (e, [(p1, Accept); (p2, Accept); (q, v)]) ∧
    (existsb (emits cfg p3) L = true → pv_new_payload q = Some data) ∧
    if emits cfg p3 n then
      v = AcceptModified ∧ pv_new_payload q = Some data ∧
      if bool_decide (action_of cfg p3 n = emit_and_complete)
      then outcome (fe_state e) = Some FakeDataAcked ∧ fe_notify e = 1
      else outcome (fe_state e) = None ∧
        ∀ p4, pv_direction p4 = Inbound → is_bare_ack p4 = true →
          pv_seq p4 = wadd32 y 1 → pv_ack p4 = wadd32 x 1 →
          ∃ e4, on_entry (composite c) env e p4 = Done (e4, p4, Accept) ∧
            outcome (fe_state e4) = Some FakeDataAcked ∧ fe_notify e4 = 1
    else v = Accept ∧ fe_notify e = 1 ∧
      outcome (fe_state e) = Some (if String.eqb n "wrong_timestamp" &&
        negb (existsb (emits cfg p3) L) then UnexpectedClose else FakeDataAcked).
Proof.
  destruct last_member as (n & Hh & Hn). pose proof run_composite as Hr.
  rewrite (last_action n Hh Hn) in Hr.
  destruct (emits cfg p3 n) eqn:En.
  - assert (existsb (emits cfg p3) L = true) as Hex
      by (apply existsb_exists; exists n; split; [by apply list_elem_of_In|done]).
    destruct (bool_decide (action_of cfg p3 n = emit_and_complete)) eqn:Ea.
    + apply bool_decide_eq_true in Ea. rewrite Ea in Hr. cbn in Hr.
      exists n. do 3 eexists. split; [done|]. split; [exact Hr|].
      split; [by intros; apply staged_payload|]. rewrite En, Ea, bool_decide_true by done.
      split; [done|]. split; [by apply staged_payload|]. done.
    + apply bool_decide_eq_false in Ea.
      assert (match action_of cfg p3 n with
              | EmitFakeAndAccept true _ => emit_and_complete | _ => emit_and_wait_for_ack end
              = emit_and_wait_for_ack) as Hw2.
      { revert Ea. unfold action_of, complete_or_wait. repeat case_match; done. }
      rewrite Hw2 in Hr. cbn in Hr.
      exists n. do 3 eexists. split; [done|]. split; [exact Hr|].
      split; [by intros; apply staged_payload|]. rewrite En, bool_decide_false by done.
      split; [done|]. split; [by apply staged_payload|]. split; [done|]. apply server_ack.
  - destruct (String.eqb n "wrong_timestamp" && negb (existsb (emits cfg p3) L)) eqn:Ex;
      cbn in Hr; exists n; do 3 eexists; (split; [done|]); (split; [exact Hr|]);
      (split; [by intros; apply staged_payload|]); by rewrite En, Ex.
Qed.
End handshake_stage.

(** (C26) The handshake stage, end to end.  For every validated list with no
    data-stage member, over any three-way handshake: the SYN and the SYN-ACK
    pass unchanged; if the last handshake member stages something, the client's
    ACK leaves as the fake ClientHello, and the bypass ends with
    [FakeDataAcked], notified once, at once when that member completes
    immediately and else on the server's answer that acknowledges nothing new.
    If the last member stages nothing, the ACK leaves {e unchanged} and the
    bypass ends right there, as failed only if it is a [wrong_timestamp] that
    found no timestamp and nobody else staged. *)
Theorem handshake_session cfg seed c env data ttl p1 p2 p3 x y :
  methods_ok cfg → build_composite cfg seed = Some c → waits_for_data c = false →
  handshake p1 p2 p3 x y → pv_new_flags p3 = None → pv_bump_ipv4_ident p3 = false →
  let L := handshake_names cfg.(BYPASS_METHOD) in
  ∃ n e q v, head (rev L) = Some n ∧
    run (composite c) env (FlowEntry_new data ttl) [p1; p2; p3] =
      Done (e, [(p1, Accept); (p2, Accept); (q, v)]) ∧
    (existsb (emits cfg p3) L = true → pv_new_payload q = Some data) ∧
    if emits cfg p3 n then
      v = AcceptModified ∧ pv_new_payload q = Some data ∧
      if bool_decide (action_of cfg p3 n = emit_and_complete)
      then outcome (fe_state e) = Some FakeDataAcked ∧ fe_notify e = 1
      else outcome (fe_state e) = None ∧
        ∀ p4, pv_direction p4 = Inbound → is_bare_ack p4 = true →
          pv_seq p4 = wadd32 y 1 → pv_ack p4 = wadd32 x 1 →
          ∃ e4, on_entry (composite c) env e p4 = Done (e4, p4, Accept) ∧
            outcome (fe_state e4) = Some FakeDataAcked ∧ fe_notify e4 = 1
    else v = Accept ∧ fe_notify e = 1 ∧
      outcome (fe_state e) = Some (if String.eqb n "wrong_timestamp" &&
        negb (existsb (emits cfg p3) L) then UnexpectedClose else FakeDataAcked).
Proof. intros Hm Hc Hw Hk Hf Hb L. by apply (handshake_session_lemma cfg seed). Qed.

Lemma control_handshake x y :
  handshake (control_packet Outbound x 0 true false) (control_packet Inbound y (wadd32 x 1) true true)
    (control_packet Outbound (wadd32 x 1) (wadd32 y 1) false true) x y.
Proof. by constructor. Qed.

Definition wrong_seq_config : Config := with_methods ["wrong_seq"] (default_config "127.0.0.1" 44444).

Lemma methods_ok_of cfg : validate 1024 cfg = Ok () → methods_ok cfg.
Proof. apply validate_parts. Qed.

Lemma handshake_session_witness :
  ∃ e q, run (composite (composite_of wrong_seq_config 0)) (MkMethodEnv 5 0)
      (FlowEntry_new [22; 3]%Z None)
      [control_packet Outbound 1000 0 true false; control_packet Inbound 5000 1001 true true;
       control_packet Outbound 1001 5001 false true] =
    Done (e, [(control_packet Outbound 1000 0 true false, Accept);
              (control_packet Inbound 5000 1001 true true, Accept); (q, AcceptModified)]) ∧
    pv_new_payload q = Some [22; 3]%Z ∧ outcome (fe_state e) = None.
Proof.
  assert (methods_ok wrong_seq_config) as Hm by (apply methods_ok_of; vm_compute; reflexivity).
  assert (build_composite wrong_seq_config 0 = Some (composite_of wrong_seq_config 0)) as Hc
    by (rewrite (build_composite_ok _ _ Hm); reflexivity).
  destruct (handshake_session wrong_seq_config 0 _ (MkMethodEnv 5 0) [22; 3]%Z None _ _ _ 1000 5000
    Hm Hc eq_refl (control_handshake 1000 5000) eq_refl eq_refl) as (n & e & q & v & Hn & Hr & _ & H).
  vm_compute in Hn. injection Hn as <-. cbn in H. destruct H as (-> & Hp & Ho & _).
  exists e, q. split; [exact Hr|]. split; [exact Hp|exact Ho].
Defined.

(** A staged fake can be lost.  When the last handshake member is a
    [wrong_timestamp] that finds no timestamp option while an earlier member
    has staged its fake, the composite does not ignore the abort: it reports
    [CompleteAndAccept], so the handler forwards the client's ACK unchanged,
    the staged fake ClientHello is never sent, and the waiting task is told
    that the bypass succeeded. *)
Theorem staged_fake_dropped cfg seed c env data ttl p1 p2 p3 x y :
  methods_ok cfg → build_composite cfg seed = Some c → waits_for_data c = false →
  handshake p1 p2 p3 x y → pv_new_flags p3 = None → pv_bump_ipv4_ident p3 = false →
  let L := handshake_names cfg.(BYPASS_METHOD) in
  head (rev L) = Some "wrong_timestamp" → backdated cfg p3 = None →
  existsb (emits cfg p3) L = true →
  ∃ e q, run (composite c) env (FlowEntry_new data ttl) [p1; p2; p3] =
      Done (e, [(p1, Accept); (p2, Accept); (q, Accept)]) ∧
    pv_new_payload q = Some data ∧ outcome (fe_state e) = Some FakeDataAcked.
Proof.
  intros Hm Hc Hw Hk Hf Hb L Hlast Hts Hex.
  destruct (handshake_session_lemma cfg seed c env Hm Hc Hw data ttl p1 p2 p3 x y Hk Hf Hb)
    as (n & e & q & v & Hn & Hr & Hp & H).
  fold L in Hn, Hp, H. rewrite Hlast in Hn. injection Hn as <-.
  assert (emits cfg p3 "wrong_timestamp" = false) as Ee by (unfold emits; by rewrite Hts).
  rewrite Ee, Hex in H. cbn in H. destruct H as (-> & _ & Ho). exists e, q.
  split; [exact Hr|]. split; [by apply Hp|exact Ho].
Qed.

Definition seq_ts_config : Config := with_methods ["wrong_seq"; "wrong_timestamp"]
  (default_config "127.0.0.1" 44444).

Lemma staged_fake_dropped_witness :
  ∃ e q, run (composite (composite_of seq_ts_config 0)) (MkMethodEnv 5 0)
      (FlowEntry_new [22; 3]%Z None)
      [control_packet Outbound 1000 0 true false; control_packet Inbound 5000 1001 true true;
       control_packet Outbound 1001 5001 false true] =
    Done (e, [(control_packet Outbound 1000 0 true false, Accept);
              (control_packet Inbound 5000 1001 true true, Accept); (q, Accept)]) ∧
    pv_new_payload q = Some [22; 3]%Z ∧ outcome (fe_state e) = Some FakeDataAcked.
Proof.
  assert (methods_ok seq_ts_config) as Hm by (apply methods_ok_of; vm_compute; reflexivity).
  assert (build_composite seq_ts_config 0 = Some (composite_of seq_ts_config 0)) as Hc
    by (rewrite (build_composite_ok _ _ Hm); reflexivity).
  exact (staged_fake_dropped seq_ts_config 0 _ (MkMethodEnv 5 0) [22; 3]%Z None _ _ _ 1000 5000
    Hm Hc eq_refl (control_handshake 1000 5000) eq_refl eq_refl eq_refl eq_refl eq_refl).
Defined.

(** ** urg_sni_split *)
Lemma after_handshake_pkt e p a : ((after_handshake e p a).1).2 = p.
Proof. by destruct a. Qed.
Lemma after_data_pkt e p a : ((after_data e p a).1).2 = p.
Proof. unfold after_data. by destruct a. Qed.

(** A staged field that neither hook writes reaches the backend as it was. *)
Lemma on_entry_field {A} (f : PacketView → A) m env e p e' q v :
  (∀ env s p q a, bm_on_handshake_complete_ack m env s p = Done (q, a) → f q = f p) →
  (∀ env s p q a, bm_on_first_data_packet m env s p = Done (q, a) → f q = f p) →
  on_entry m env e p = Done (e', q, v) → f q = f p.
Proof.
  intros H1 H2. unfold on_entry. destruct (negb _); [by intros [= <- <- <-]|].
  destruct (pv_direction p).
  - destruct (is_bare_syn p).
    { unfold outbound_syn. intros H. repeat (case_match; simplify_eq; try done). }
    destruct (is_bare_ack p).
    + unfold outbound_ack. repeat (case_match; try (by intros; simplify_eq)).
      destruct (bm_on_handshake_complete_ack _ _ _ _) as [[p' a]|] eqn:E; cbn [exec_bind]; [|done].
      intros Hres. pose proof (after_handshake_pkt e p' a) as Hp.
      assert (after_handshake e p' a = (e', q, v)) as Ha by congruence. rewrite Ha in Hp.
      cbn in Hp. subst q. by eapply H1.
    + unfold outbound_other. repeat (case_match; try (by intros; simplify_eq)).
      destruct (bm_on_first_data_packet _ _ _ _) as [[p' a]|] eqn:E; cbn [exec_bind]; [|done].
      intros Hres. pose proof (after_data_pkt e p' a) as Hp.
      assert (after_data e p' a = (e', q, v)) as Ha by congruence. rewrite Ha in Hp.
      cbn in Hp. subst q. by eapply H2.
  - unfold inbound, inbound_syn_ack, inbound_fake_ack, inbound_data_ack, exec_bind.
    intros H. repeat (case_match; simplify_eq; try done).
Qed.

Lemma urg_names cfg : methods_ok cfg → "urg_sni_split" ∈ cfg.(BYPASS_METHOD) →
  handshake_names cfg.(BYPASS_METHOD) = ["urg_sni_split"] ∧ data_names cfg.(BYPASS_METHOD) = [].
Proof.
  intros Hm Hu. pose proof (mo_urg _ Hm Hu) as Hall. pose proof (mo_nodup _ Hm) as Hnd.
  revert Hu Hall Hnd. generalize (BYPASS_METHOD cfg). intros l Hu Hall Hnd.
  assert (l = ["urg_sni_split"] ∨ l = ["urg_sni_split"; "tls_frag"] ∨
          l = ["tls_frag"; "urg_sni_split"]) as [->|[->| ->]]; [|by split..].
  destruct l as [|a l]; [by apply elem_of_nil in Hu|].
  pose proof (Hall a ltac:(by left)) as Ha.
  destruct l as [|b l].
  { apply list_elem_of_singleton in Hu as <-. by left. }
  pose proof (Hall b ltac:(by right; left)) as Hb. apply NoDup_cons in Hnd as [Hna Hnd].
  rewrite elem_of_cons in Hna. destruct l as [|c l].
  { destruct Ha as [-> | ->], Hb as [-> | ->]; auto; exfalso; apply Hna; by left. }
  pose proof (Hall c ltac:(by right; right; left)) as Hc. apply NoDup_cons in Hnd as [Hnb _].
  rewrite elem_of_cons in Hna, Hnb.
  destruct Ha as [-> | ->], Hb as [-> | ->], Hc as [-> | ->]; exfalso; tauto.
Qed.

(** [urg_sni_split] never takes effect.  For every validated list that
    names it, the composite holds it as a handshake member, whose hook is the
    pass-through, and has no data member: whatever packet arrives in whatever
    state, no payload and no urgent pointer is ever staged for it.  Listed
    alone, the client's ACK leaves unchanged and the bypass is reported as
    successful there, before the ClientHello is seen. *)
Theorem urg_sni_split_inert cfg seed c :
  methods_ok cfg → "urg_sni_split" ∈ cfg.(BYPASS_METHOD) → build_composite cfg seed = Some c →
  (∀ env w p w' q v, on_packet (composite c) env w p = Done (w', q, v) →
    pv_new_payload q = pv_new_payload p ∧ pv_new_urgent_pointer q = pv_new_urgent_pointer p) ∧
  (cfg.(BYPASS_METHOD) = ["urg_sni_split"] →
   ∀ env data ttl p1 p2 p3 x y, handshake p1 p2 p3 x y →
     ∃ e q, run (composite c) env (FlowEntry_new data ttl) [p1; p2; p3] =
       Done (e, [(p1, Accept); (p2, Accept); (q, Accept)]) ∧
       outcome (fe_state e) = Some FakeDataAcked).
Proof.
  intros Hm Hu Hc. destruct (urg_names cfg Hm Hu) as [Hh Hd].
  rewrite build_composite_ok in Hc by done. destruct (requires_interceptor _); [|done].
  injection Hc as <-. unfold composite_of. rewrite Hh, Hd. cbv zeta.
  cbn [map]. set (l := BYPASS_METHOD cfg).
  change (handshake_member cfg seed "urg_sni_split") with (UrgSniSplit.method (UrgSniSplit.new cfg)).
  split.
  - intros env w p w' q v. unfold on_packet.
    destruct (lf_flows w !! flow_key_for p) as [h|]; [|by intros [= <- <- <-]].
    destruct (lf_heap w !! h) as [e|]; [|by intros [= <- <- <-]].
    match goal with |- context [on_entry ?m env e p] => set (mm := m) end.
    destruct (on_entry mm env e p) as [[[e' q'] v']|] eqn:E; cbn [exec_bind]; [|done].
    intros [= _ <- _].
    split; (eapply (on_entry_field _ mm); [..|exact E]); clear;
      intros env s p q a; subst mm; cbn; unfold composite_on_handshake_complete_ack; cbn;
      try (case_match; intros [= <- <-]; done); by intros [= <- <-].
  - intros Hl env data ttl p1 p2 p3 x y Hk. rewrite (run_handshake _ _ _ _ _ _ _ _ _ Hk).
    rewrite Hl. do 2 eexists. split; reflexivity.
Qed.

Definition urg_config : Config := with_methods ["urg_sni_split"] (default_config "127.0.0.1" 44444).

Lemma urg_sni_split_inert_witness :
  ∃ e q, run (composite (composite_of urg_config 0)) (MkMethodEnv 5 0)
      (FlowEntry_new [22; 3]%Z None)
      [control_packet Outbound 1000 0 true false; control_packet Inbound 5000 1001 true true;
       control_packet Outbound 1001 5001 false true] =
    Done (e, [(control_packet Outbound 1000 0 true false, Accept);
              (control_packet Inbound 5000 1001 true true, Accept); (q, Accept)]) ∧
    outcome (fe_state e) = Some FakeDataAcked.
Proof.
  assert (methods_ok urg_config) as Hm by (apply methods_ok_of; vm_compute; reflexivity).
  assert (build_composite urg_config 0 = Some (composite_of urg_config 0)) as Hc
    by (rewrite (build_composite_ok _ _ Hm); reflexivity).
  destruct (urg_sni_split_inert urg_config 0 _ Hm ltac:(by left) Hc) as [_ H].
  exact (H eq_refl (MkMethodEnv 5 0) [22; 3]%Z None _ _ _ 1000%Z 5000%Z (control_handshake 1000 5000)).
Defined.

(** ** The data stage's acknowledgment *)

(** The composite never defers: a flow behind the handshake stage has
    [fake_sent]. *)
Definition sent_before_data (e : FlowEntry) : Prop :=
  waiting_for_data (fe_state e) || waiting_for_first_data_ack (fe_state e) ||
  fragment_all_data (fe_state e) = true → fake_sent (fe_state e) = true.

Lemma composite_never_defers c env s p q a :
  bm_on_handshake_complete_ack (composite c) env s p = Done (q, a) → a ≠ PassThrough.
Proof.
  cbn. unfold composite_on_handshake_complete_ack.
  destruct (exec_fold _ _ _) as [st|]; cbn [exec_bind]; [|done].
  destruct (waits_for_data c); intros [= _ <-]; [done|].
  unfold last_to_action. repeat case_match; done.
Qed.

Lemma unexpected_sent e : sent_before_data e → sent_before_data (unexpected e).
Proof. unfold unexpected, sent_before_data. by case_match. Qed.
Lemma finish_sent o e : sent_before_data e → sent_before_data (finish o e).
Proof. unfold finish, sent_before_data. by case_match. Qed.
#[local] Hint Resolve unexpected_sent finish_sent : core.

Lemma on_entry_sent c env e p e' q v :
  sent_before_data e → on_entry (composite c) env e p = Done (e', q, v) → sent_before_data e'.
Proof.
  intros Hs. unfold on_entry. destruct (negb _); [by intros [= <- _ _]|].
  destruct (pv_direction p).
  - destruct (is_bare_syn p).
    { unfold outbound_syn. intros Hr. repeat (case_match; simplify_eq; auto). }
    destruct (is_bare_ack p).
    + unfold outbound_ack.
      destruct (fragment_all_data _); [by intros [= <- _ _]|].
      destruct (_ || _); [intros [= <- _ _]; auto|].
      destruct (syn_seq _) as [syn|]; [|intros [= <- _ _]; auto].
      destruct (negb _); [intros [= <- _ _]; auto|].
      destruct (syn_ack_seq _) as [sa|]; [|intros [= <- _ _]; auto].
      destruct (negb _); [intros [= <- _ _]; auto|].
      destruct (bm_on_handshake_complete_ack _ _ _ _) as [[p' a]|] eqn:Ea; cbn [exec_bind]; [|done].
      apply composite_never_defers in Ea. destruct a as [ci cd| | |]; try done;
        cbn [after_handshake]; intros [= <- _ _]; auto.
      destruct cd, ci; try done; apply finish_sent; by unfold sent_before_data.
    + unfold outbound_other. destruct (_ && _) eqn:E.
      2:{ destruct (waiting_for_first_data_ack _); [by intros [= <- _ _]|].
          destruct (fragment_all_data _); [|intros [= <- _ _]; auto].
          destruct (f_fin _ || f_rst _); by intros [= <- _ _]. }
      destruct (bm_on_first_data_packet _ _ _ _) as [[p' a]|]; cbn [exec_bind]; [|done].
      assert (fake_sent (fe_state e) = true) as Hf.
      { apply Hs. apply andb_true_iff in E as [_ E]. apply orb_true_iff in E as [E| ->];
          [apply andb_true_iff in E as [-> _]; done|by rewrite orb_true_r]. }
      unfold after_data, signal_outcome, finish.
      destruct a as [ci cd| | |]; intros Hr; repeat case_match; simplify_eq; try done;
        unfold sent_before_data; by rewrite ?Hf.
  - unfold inbound, inbound_syn_ack, inbound_fake_ack, inbound_data_ack, exec_bind.
    intros Hr. repeat (case_match; simplify_eq; auto).
    apply finish_sent. intros Hx. cbn in Hx. apply Hs. rewrite orb_false_r in Hx.
    apply orb_true_iff in Hx as [-> | ->]; by rewrite ?orb_true_r.
Qed.

(** An invariant of flow records that a fresh one has, [finish] keeps and every
    packet keeps, holds in every reachable state. *)
Lemma reachable_inv (I : FlowEntry → Prop) m w :
  (∀ data ttl, I (FlowEntry_new data ttl)) → (∀ o e, I e → I (finish o e)) →
  (∀ env e p e' q v, I e → on_entry m env e p = Done (e', q, v) → I e') →
  reachable m w → ∀ h e, w.(lf_heap) !! h = Some e → I e.
Proof.
  intros Hnew Hfin Hpkt Hr.
  assert (∀ w1 w2, rtc (step m) w1 w2 → (∀ h e, w1.(lf_heap) !! h = Some e → I e) →
    ∀ h e, w2.(lf_heap) !! h = Some e → I e) as Hgen.
  { induction 1 as [|w1 w2 w3 Hs _ IH]; intros HI; [done|]. apply IH. clear IH.
    destruct Hs as [k data ttl w0 w' h0 Hreg|k w0|w0|env p p' v w0 w' Hp]; intros h e.
    - unfold local_register in Hreg. case_match; simplify_eq. simpl.
      rewrite lookup_insert. case_decide; [intros [= <-]; apply Hnew|apply HI].
    - apply HI.
    - simpl. rewrite lookup_finish_all. case_decide; [|apply HI].
      destruct (lf_heap w0 !! h) as [e0|] eqn:E0; [|done]. intros [= <-]. by eapply Hfin, HI.
    - unfold on_packet in Hp. destruct (lf_flows w0 !! _) as [h0|]; [|simplify_eq; apply HI].
      destruct (lf_heap w0 !! h0) as [e0|] eqn:E0; [|simplify_eq; apply HI].
      destruct (on_entry m env e0 p) as [[[e1 q1] v1]|] eqn:Ee; cbn [exec_bind] in Hp; [|done].
      simplify_eq. simpl. rewrite lookup_insert. case_decide; [|apply HI].
      intros [= <-]. eapply Hpkt; [by eapply HI|exact Ee]. }
  apply (Hgen _ _ Hr). intros h e. simpl. by rewrite lookup_empty.
Qed.

(** The branch for the server's acknowledgment of the first data packet
    is dead.  A composite always reports its handshake stage as emitted, so in
    every reachable state a flow that waits for that acknowledgment also has
    [fake_sent], whose branch comes first: an inbound bare ACK that acknowledges
    nothing new ends the bypass as successful, and one that acknowledges the
    data closes the flow as unexpected. *)
Theorem data_ack_branch_dead cfg seed c w h e env p syn syn_ack :
  build_composite cfg seed = Some c → reachable (composite c) w →
  w.(lf_heap) !! h = Some e → waiting_for_first_data_ack (fe_state e) = true →
  waiting_for_data (fe_state e) = false → fragment_all_data (fe_state e) = false →
  monitor (fe_state e) = true → syn_seq (fe_state e) = Some syn →
  syn_ack_seq (fe_state e) = Some syn_ack → pv_direction p = Inbound → is_bare_ack p = true →
  pv_seq p = wadd32 syn_ack 1 →
  run (composite c) env e [p] =
    Done (if (pv_ack p =? wadd32 syn 1)%Z then finish FakeDataAcked e else unexpected e,
          [(p, Accept)]).
Proof.
  intros Hc Hr He Hw Hwd Hfr Hm Hsyn Hsa Hd Hb Hseq.
  assert (sent_before_data e) as Hsent.
  { eapply (reachable_inv sent_before_data); [| | |exact Hr|exact He].
    - by intros data ttl.
    - apply finish_sent.
    - intros env' e1 p1 e2 q v. apply on_entry_sent. }
  assert (fake_sent (fe_state e) = true) as Hf by (apply Hsent; by rewrite Hw, orb_true_r).
  destruct (bare_ack_not_syn p Hb) as [_ Hns].
  cbn [run]. unfold on_entry. rewrite Hm. cbn [negb]. rewrite Hd. unfold inbound.
  rewrite Hsyn, Hfr, Hns, Hb, Hf. cbn [is_none andb]. unfold inbound_fake_ack.
  rewrite Hsa. cbn [expect exec_bind]. rewrite Hseq, Z.eqb_refl. cbn [negb].
  rewrite Hsyn, Hwd. cbn [expect exec_bind].
  by destruct (pv_ack p =? wadd32 syn 1)%Z.
Qed.

(** [fake_tls] alone, waiting for the server. *)
Definition fake_tls_config : Config := with_fake_tls_wait false
  (with_methods ["fake_tls"] (default_config "127.0.0.1" 44444)).
Definition fake_tls_method : BypassMethod := composite (composite_of fake_tls_config 0).
Definition after_first_data : LocalFlows :=
  after fake_tls_method (MkMethodEnv 5 0) one_flow
    [control_packet Outbound 1000 0 true false; control_packet Inbound 5000 1001 true true;
     control_packet Outbound 1001 5001 false true; data_packet [1; 2; 3]%Z].

(** The server acknowledges the three bytes: the flow is closed. *)
Lemma data_ack_branch_dead_witness :
  ∃ e e', lf_heap after_first_data !! 0 = Some e ∧
    run fake_tls_method (MkMethodEnv 5 0) e [control_packet Inbound 5001 1004 false true] =
      Done (e', [(control_packet Inbound 5001 1004 false true, Accept)]) ∧
    outcome (fe_state e') = Some UnexpectedClose.
Proof.
  assert (methods_ok fake_tls_config) as Hm by (apply methods_ok_of; vm_compute; reflexivity).
  assert (build_composite fake_tls_config 0 = Some (composite_of fake_tls_config 0)) as Hc
    by (rewrite (build_composite_ok _ _ Hm); reflexivity).
  assert (reachable fake_tls_method after_first_data) as Hr
    by apply after_reachable, one_flow_reachable.
  destruct (lf_heap after_first_data !! 0) as [e|] eqn:E; [|vm_compute in E; discriminate].
  pose proof (data_ack_branch_dead fake_tls_config 0 _ after_first_data 0 e (MkMethodEnv 5 0)
    (control_packet Inbound 5001 1004 false true) 1000 5000 Hc Hr E) as H.
  vm_compute in E. injection E as <-.
  do 2 eexists. split; [reflexivity|]. split; [apply H; vm_compute; reflexivity|].
  vm_compute. reflexivity.
Defined.
