(* ===== verification/SocketMethods.v ===== *)
(** * Socket-side methods: the transforms of the first ClientHello

    Models of [tls_padding], [mixed_case_sni], [sni_boundary_frag],
    [tls_record_split] and [ccs_prefix]
    ([crates/zerodpi-core/src/methods/*.rs]): what each makes of the first
    ClientHello record, without the sockets (those are in [Socket]).  The
    generators that the source seeds from the clock take their seed as an
    argument. *)
From stdpp Require Import base list numbers strings.
From Stdlib Require Import ZArith Lia.
From S2P Require Import Prelude Text Sni Config Methods DataMethods.

(** ** tls_padding *)
Module TlsPadding.
Definition MAX_TLS_RECORD_BODY : nat := Z.to_nat 16383.

Record t := Mk { size : Int32Range; position : PaddingPosition }.
Definition new (cfg : Config) : exec t :=
  match PaddingPosition_parse cfg.(TLS_PADDING_POSITION) with
  | Ok p => Done (Mk cfg.(TLS_PADDING_SIZE) p)
  | Err _ => Panic
  end.

Record ClientHelloLayout := MkLayout { ext_len_off : nat; ext_start : nat; sni_off : option nat }.

(** The scan of the extensions from offset [q]; the last [server_name] wins.
    Every extension takes at least four bytes, so [length body] iterations are
    enough ([scan_extensions_fuel]). *)
Fixpoint scan_extensions (fuel : nat) (body : list Z) (q : nat) (sni : option nat)
    : exec (option (option nat)) :=
  if negb (q <? length body) then Done (Some sni) else
  match fuel with
  | O => Done None
  | S fuel' =>
      if length body <? q + 4 then Done None else
      let! etype := be16_at body q in
      let! elen := be16_at body (q + 2) in
      let q := q + 4 in
      if length body <? q + elen then Done None else
      let sni := if etype =? 0 then Some (q - 4) else sni in
      scan_extensions fuel' body (q + elen) sni
  end.

(** The handshake body: from the version to the end of the extensions. *)
Definition parse_body (body : list Z) : exec (option ClientHelloLayout) :=
  if length body <? 34 then Done None else
  let p := 34 in
  if length body <=? p then Done None else
  let! sid_len := idx body p in
  let p := p + 1 in
  if length body <? p + Z.to_nat sid_len then Done None else
  let p := p + Z.to_nat sid_len in
  if length body <? p + 2 then Done None else
  let! cipher_len := be16_at body p in
  let p := p + 2 in
  if length body <? p + cipher_len then Done None else
  let p := p + cipher_len in
  if length body <=? p then Done None else
  let! comp_len := idx body p in
  let p := p + 1 in
  if length body <? p + Z.to_nat comp_len then Done None else
  let p := p + Z.to_nat comp_len in
  if length body <? p + 2 then Done None else
  let! ext_len := be16_at body p in
  let p := p + 2 in
  if negb (p + ext_len =? length body) then Done None else
  let?! sni := scan_extensions (length body) body p None in
  Done (Some (MkLayout (9 + p - 2) (9 + p) ((λ off, off + 9) <$> sni))).

(** [((b6 as usize) << 16) | ((b7 as usize) << 8) | b8 as usize] *)
Definition hs_length (record : list Z) : exec Z :=
  let! b6 := idx record 6 in
  let! b7 := idx record 7 in
  let! b8 := idx record 8 in
  Done (Z.lor (Z.lor (Z.shiftl b6 16) (Z.shiftl b7 8)) b8).

Definition parse_client_hello (record : list Z) : exec (option ClientHelloLayout) :=
  if length record <? 9 then Done None else
  let! content_type := idx record 0 in
  if negb (content_type =? 0x16)%Z then Done None else
  let! record_len := be16_at record 3 in
  if negb (length record =? 5 + record_len) then Done None else
  let! hs_type := idx record 5 in
  if negb (hs_type =? 1)%Z then Done None else
  let! hs_len := hs_length record in
  if negb (4 + hs_len =? Z.of_nat record_len)%Z then Done None else
  parse_body (drop 9 record).

Definition build_padded (record : list Z) (layout : ClientHelloLayout) (pad_len : nat)
    (position : PaddingPosition) : exec (list Z) :=
  let ext_end := length record in
  let! old_ext_len := be16_at record (ext_len_off layout) in
  let add := 4 + pad_len in
  let new_ext_len := Z.of_nat (old_ext_len + add) in
  let! hs_len := hs_length record in
  let new_hs_len := (hs_len + Z.of_nat add)%Z in
  let insert_at := match position, sni_off layout with
                   | Before, Some off => off
                   | _, _ => ext_end
                   end in
  let! head6 := slice record 0 6 in
  let! mid := slice record 9 (ext_len_off layout) in
  let! exts_before := slice record (ext_start layout) insert_at in
  let! exts_after := slice record insert_at ext_end in
  let out := head6
    ++ [as_u8 (Z.shiftr new_hs_len 16); as_u8 (Z.shiftr new_hs_len 8); as_u8 new_hs_len]
    ++ mid ++ to_be16 (as_u16 new_ext_len) ++ exts_before
    ++ [0x00; 0x15]%Z ++ to_be16 (as_u16 (Z.of_nat pad_len)) in
  let out := resize_vec out (length out + pad_len) 0%Z ++ exts_after in
  let new_record_len := Z.of_nat (length record - 5 + add) in
  blit out 3 5 (to_be16 (as_u16 new_record_len)).

(** [PaddingRng] and [sample_size] are the generator and the sampler of
    [tls_frag]. *)
Definition apply (m : t) (record : list Z) (seed : Z) : exec (option (list Z)) :=
  let?! layout := parse_client_hello record in
  let pad_len := as_u64 (snd (sample_i32 (size m) seed)) in
  let max_pad := MAX_TLS_RECORD_BODY - (length record - 5 + 4) in
  let pad_len := Z.to_nat (Z.min pad_len (Z.of_nat max_pad)) in
  if pad_len =? 0 then Done None else
  let! out := build_padded record layout pad_len (position m) in
  Done (Some out).
End TlsPadding.

(** ** mixed_case_sni *)
Module MixedCaseSni.
Definition is_lower (b : Z) : bool := ((97 <=? b) && (b <=? 122))%Z.
Definition is_upper (b : Z) : bool := ((65 <=? b) && (b <=? 90))%Z.
Definition is_alphabetic (b : Z) : bool := is_lower b || is_upper b.
Definition to_lower (b : Z) : Z := if is_upper b then (b + 32)%Z else b.
Definition to_upper (b : Z) : Z := if is_lower b then (b - 32)%Z else b.
Definition swap_ascii_case (b : Z) : Z := if is_lower b then to_upper b else to_lower b.

Record t := Mk { flip_all : bool }.
Definition new (cfg : Config) : t := Mk cfg.(MIXED_CASE_SNI_FLIP_ALL).

(** The loop of [flip_all]. *)
Definition flip_step (name_start : nat) (out : list Z) (ib : nat * Z) : exec (list Z) :=
  let '(i, b) := ib in
  if is_alphabetic b then upd out (name_start + i) (swap_ascii_case b) else Done out.

(** The loop of the random mode: the record, the letters seen, whether one
    has changed, and the generator. *)
Record loop := MkLoop { lp_out : list Z; letters : list nat; flipped : bool; rng : Z }.
Definition random_step (name_start : nat) (s : loop) (ib : nat * Z) : exec loop :=
  let '(i, b) := ib in
  if negb (is_alphabetic b) then Done s else
  let '(rng, z) := splitmix64 (rng s) in
  let new := if (Z.land z 1 =? 0)%Z then to_lower b else to_upper b in
  let! out := upd (lp_out s) (name_start + i) new in
  Done (MkLoop out (letters s ++ [i]) (flipped s || negb (new =? b)%Z) rng).

Definition apply_with_rng (m : t) (record : list Z) (rng : Z) : exec (option (list Z)) :=
  let! range := find_sni_range record in
  match range with
  | None => Done None
  | Some (name_start, name_len) =>
      let! name := slice record name_start (name_start + name_len) in
      if flip_all m then
        let! out := exec_fold (flip_step name_start) (imap pair name) record in
        Done (Some out)
      else
        let! s := exec_fold (random_step name_start) (imap pair name)
                    (MkLoop record [] false rng) in
        match letters s with
        | [] => Done None
        | _ =>
            if flipped s then Done (Some (lp_out s)) else
            let '(_, z) := splitmix64 (MixedCaseSni.rng s) in
            let pick := Z.to_nat (z mod Z.of_nat (length (letters s))) in
            let! i := idx (letters s) pick in
            let! b := idx (lp_out s) (name_start + i) in
            let! out := upd (lp_out s) (name_start + i) (swap_ascii_case b) in
            Done (Some out)
        end
  end.
End MixedCaseSni.

(** ** Where the SNI-aware splitters cut *)

(** The offset the split point names, shared by [SniBoundaryFrag::split_offset]
    and [TlsRecordSplit::cut_offset]. *)
Definition resolve_split (pt : SniBoundarySplitPoint) (b : SniBoundary) : nat :=
  match pt with
  | ExtensionLength => sb_ext_len_field_end b
  | BoundaryMiddle => sb_name_start b + sb_name_len b / 2
  | BoundaryIndex n => sb_name_start b + min (Z.to_nat n) (sb_name_len b)
  end.

(** ** sni_boundary_frag *)
Module SniBoundaryFrag.
Record t := Mk { split_point : SniBoundarySplitPoint; delay_ms : Int32Range }.
Definition new (cfg : Config) : t :=
  Mk cfg.(SNI_BOUNDARY_FRAG_SPLIT_POINT) cfg.(SNI_BOUNDARY_FRAG_DELAY_MS).
Definition split_offset (m : t) (record : list Z) : exec (option nat) :=
  let?! boundary := find_sni_boundary record in
  let offset := resolve_split (split_point m) boundary in
  Done (if (0 <? offset) && (offset <? length record) then Some offset else None).
End SniBoundaryFrag.

(** ** tls_record_split *)
Module TlsRecordSplit.
Definition TLS_RECORD_HEADER_LEN : nat := 5.

Record t := Mk { split_point : SniBoundarySplitPoint; delay_ms : Int32Range }.
Definition new (cfg : Config) : t :=
  Mk cfg.(TLS_RECORD_SPLIT_POINT) cfg.(TLS_RECORD_SPLIT_DELAY_MS).

Definition cut_offset (m : t) (record : list Z) : exec (option nat) :=
  let?! boundary := find_sni_boundary record in
  Done (Some (resolve_split (split_point m) boundary)).

Definition build_record (record_header body : list Z) : list Z :=
  record_header ++ to_be16 (as_u16 (Z.of_nat (length body))) ++ body.

Definition split (m : t) (data : list Z) : exec (option (list Z * list Z)) :=
  let?! cut := cut_offset m data in
  let? b3 := data !! 3 in
  let? b4 := data !! 4 in
  let record_len := Z.to_nat (from_be16 b3 b4) in
  let body_start := TLS_RECORD_HEADER_LEN in
  let body_end := body_start + record_len in
  if length data <? body_end then Done None else
  if (cut <=? body_start) || (body_end <=? cut) then Done None else
  let! record_header := slice data 0 3 in
  let! first_body := slice data body_start cut in
  let! second_body := slice data cut body_end in
  let! trailing := slice data body_end (length data) in
  Done (Some (build_record record_header first_body,
              build_record record_header second_body ++ trailing)).
End TlsRecordSplit.

(** ** ccs_prefix *)
Module CcsPrefix.
Record t := Mk { record_version : Z * Z }.
Definition new (cfg : Config) : exec t :=
  match parse_record_version cfg.(CCS_PREFIX_RECORD_VERSION) with
  | Ok v => Done (Mk v)
  | Err _ => Panic
  end.
Definition record (m : t) : list Z :=
  [0x14; fst (record_version m); snd (record_version m); 0x00; 0x01; 0x01]%Z.
End CcsPrefix.

(** ** Closed checks *)
Example padding_before :
  TlsPadding.apply (TlsPadding.Mk (Int32Range_exact 3) Before) (ch_record sample_hello) 0 =
  Done (Some (ch_record (MkClientHello (ch_version sample_hello) (ch_random sample_hello)
    (ch_sid sample_hello) (ch_suites sample_hello) (ch_comp sample_hello)
    (ch_before sample_hello ++ [(21, [0; 0; 0])])%Z (ch_name sample_hello)
    (ch_after sample_hello)))).
Proof. vm_compute. reflexivity. Qed.

Example mixed_case_flip_all :
  exec_map (option_map (λ r, take 3 (drop 75 r)))
    (MixedCaseSni.apply_with_rng (MixedCaseSni.Mk true) (ch_record sample_hello) 5) =
  Done (Some [65; 46; 66]%Z).
Proof. vm_compute. reflexivity. Qed.

Example record_split_middle :
  exec_map (option_map (λ p, (length p.1, length p.2)))
    (TlsRecordSplit.split (TlsRecordSplit.Mk BoundaryMiddle (Int32Range_exact 0))
      (ch_record sample_hello ++ [1; 2]%Z)) = Done (Some (76, 16)).
Proof. vm_compute. reflexivity. Qed.

(** ** tls_padding: no panic, and the record it builds *)
Section padding_total.
Import TlsPadding.

(** The offset found lies between [lo], where the scan began, and the end. *)
Definition offset_ok (lo hi : nat) (o : option nat) : Prop := ∀ off, o = Some off → lo ≤ off ≤ hi.

Lemma scan_extensions_total lo fuel body q s : lo ≤ q → offset_ok lo (length body) s →
  ∃ r, scan_extensions fuel body q s = Done r ∧ ∀ o, r = Some o → offset_ok lo (length body) o.
Proof.
  revert q s. induction fuel as [|fuel IH]; intros q s Hq Hs; cbn [scan_extensions].
  - destruct (negb _); eexists; (split; [done|]); naive_solver.
  - destruct (q <? length body) eqn:E0; cbn [negb]; [|eexists; split; [done|naive_solver]].
    destruct (length body <? q + 4) eqn:E1; [eexists; split; [done|naive_solver]|].
    bool_to_prop.
    destruct (be16_at_done body q) as [ty ->]; [lia|]. cbn [exec_bind].
    destruct (be16_at_done body (q + 2)) as [el ->]; [lia|]. cbn [exec_bind].
    destruct (length body <? q + 4 + el) eqn:E2; [eexists; split; [done|naive_solver]|].
    bool_to_prop. apply IH; [lia|]. destruct (ty =? 0); [|done]. intros off [= <-]. lia.
Qed.

Lemma scan_extensions_fuel f1 f2 body q s :
  length body ≤ f1 + q → length body ≤ f2 + q →
  scan_extensions f1 body q s = scan_extensions f2 body q s.
Proof.
  revert f2 q s. induction f1 as [|f1 IH]; intros [|f2] q s H1 H2; cbn [scan_extensions];
    try done; try (destruct (Nat.ltb_spec q (length body)); cbn [negb]; [lia|done]).
  destruct (negb _); [done|]. destruct (_ <? _); [done|].
  destruct (be16_at body q) as [ty|]; [|done]. cbn [exec_bind].
  destruct (be16_at body (q + 2)) as [el|]; [|done]. cbn [exec_bind].
  destruct (_ <? _); [done|]. apply IH; lia.
Qed.

(** A layout whose offsets lie in the record. *)
Definition layout_ok (record : list Z) (l : ClientHelloLayout) : Prop :=
  9 ≤ ext_len_off l ∧ ext_start l = ext_len_off l + 2 ∧ ext_start l ≤ length record ∧
  offset_ok (ext_start l) (length record) (sni_off l).

Ltac pad_step :=
  match goal with
  | |- context [if ?b then _ else _] =>
      destruct b eqn:?; [eexists; split; [reflexivity|by intros]|]
  | |- context [exec_bind (be16_at ?s ?i) _] =>
      let v := fresh "v" in let E := fresh "E" in
      assert (∃ v, be16_at s i = Done v) as [v E];
        [apply be16_at_done; bool_to_prop; lia|rewrite E; cbn [exec_bind]]
  | |- context [exec_bind (idx ?s ?i) _] =>
      let v := fresh "v" in let E := fresh "E" in
      assert (∃ v, idx s i = Done v) as [v E];
        [destruct (idx_done s i) as (v & E & _); [bool_to_prop; lia|by exists v]
        |rewrite E; cbn [exec_bind]]
  end.

Lemma parse_body_total body : ∃ r, parse_body body = Done r ∧
  ∀ l, r = Some l → 9 ≤ ext_len_off l ∧ ext_start l = ext_len_off l + 2 ∧
    ext_start l ≤ 9 + length body ∧ offset_ok (ext_start l) (9 + length body) (sni_off l).
Proof.
  unfold parse_body. do 13 pad_step.
  match goal with |- context [scan_extensions ?f ?b ?q ?s] =>
    destruct (scan_extensions_total q f b q s) as (r & -> & Hoff); [done|by intros ?|] end.
  unfold try_exec. cbn [exec_bind]. destruct r as [o|]; cbn [try_opt];
    [|eexists; split; [done|by intros]].
  eexists. split; [done|]. intros l [= <-]. cbn [ext_len_off ext_start sni_off].
  bool_to_prop.
  split_and!; [lia..|]. intros off (off' & -> & ->)%fmap_Some.
  specialize (Hoff _ eq_refl off' eq_refl). lia.
Qed.

Lemma hs_length_total record : 9 ≤ length record → ∃ n, hs_length record = Done n.
Proof.
  intros H. unfold hs_length.
  destruct (idx_done record 6) as (a & -> & _); [lia|].
  destruct (idx_done record 7) as (b & -> & _); [lia|].
  destruct (idx_done record 8) as (c & -> & _); [lia|]. by eexists.
Qed.

Lemma parse_client_hello_total record : ∃ r, parse_client_hello record = Done r ∧
  ∀ l, r = Some l → 9 ≤ length record ∧ layout_ok record l.
Proof.
  unfold parse_client_hello. do 7 pad_step.
  destruct (hs_length_total record) as [n ->]; [bool_to_prop; lia|]. cbn [exec_bind].
  pad_step. bool_to_prop.
  destruct (parse_body_total (drop 9 record)) as (r & -> & Hl). exists r. split; [done|].
  intros l ->. split; [done|]. rewrite length_drop in Hl.
  destruct (Hl l eq_refl) as (H1 & H2 & H3 & H4). unfold layout_ok.
  split_and!; [done|done|lia|]. intros off Ho. specialize (H4 off Ho). lia.
Qed.

Lemma build_padded_total record l pad pos : 9 ≤ length record → layout_ok record l →
  ∃ out, build_padded record l pad pos = Done out ∧ length out = length record + 4 + pad.
Proof.
  intros Hlen (H1 & H2 & H3 & H4). unfold build_padded.
  destruct (be16_at_done record (ext_len_off l)) as [n ->]; [lia|]. cbn [exec_bind].
  destruct (hs_length_total record Hlen) as [k ->]. cbn [exec_bind].
  set (ins := match pos, sni_off l with Before, Some off => off | _, _ => length record end).
  assert (ext_start l ≤ ins ≤ length record) as Hins.
  { unfold ins. destruct pos, (sni_off l) as [off|]; try lia. by apply H4. }
  clearbody ins. rewrite !slice_done by lia. cbn [exec_bind].
  rewrite blit_done;
    rewrite ?length_app, ?resize_vec_length, ?length_app, ?length_take, ?length_drop;
    [|simpl; lia..].
  eexists. split; [done|].
  rewrite !length_app, length_take, length_drop, !length_app, resize_vec_length.
  rewrite ?length_app, !length_take, !length_drop. cbn [length to_be16]. lia.
Qed.

(** The number of zero bytes [apply] settles on. *)
Definition pad_amount (size : Int32Range) (seed : Z) (len : nat) : nat :=
  Z.to_nat (Z.min (as_u64 (snd (sample_i32 size seed)))
    (Z.of_nat (MAX_TLS_RECORD_BODY - (len - 5 + 4)))).

Lemma apply_total m record seed :
  ∃ r, apply m record seed = Done r ∧
    ∀ out, r = Some out → length out = length record + 4 + pad_amount (size m) seed (length record)
      ∧ 0 < pad_amount (size m) seed (length record) ∧ length out ≤ 5 + MAX_TLS_RECORD_BODY.
Proof.
  unfold apply. destruct (parse_client_hello_total record) as (r & -> & Hl).
  unfold try_exec. cbn [exec_bind].
  destruct r as [l|]; cbn [try_opt]; [|by eexists; split; [done|intros]].
  destruct (Hl l eq_refl) as [H9 Hlay]. fold (pad_amount (size m) seed (length record)).
  destruct (Nat.eqb_spec (pad_amount (size m) seed (length record)) 0);
    [by eexists; split; [done|intros]|].
  destruct (build_padded_total record l (pad_amount (size m) seed (length record)) (position m))
    as (out & -> & Hlen); [done..|]. cbn [exec_bind]. eexists. split; [done|].
  intros o [= <-]. split; [done|]. split; [lia|]. rewrite Hlen.
  unfold pad_amount, MAX_TLS_RECORD_BODY in *. lia.
Qed.
End padding_total.

Section padding_hello.
Import TlsPadding.

(** One iteration of the scan on a serialized extension, and a run of them. *)
Lemma scan_ext fuel pre t d rest s :
  is_u16 t → (zlen d < 65536)%Z →
  scan_extensions (S fuel) (pre ++ ser_ext (t, d) ++ rest) (length pre) s =
  scan_extensions fuel (pre ++ ser_ext (t, d) ++ rest) (length (pre ++ ser_ext (t, d)))
    (if (t =? 0)%Z then Some (length pre) else s).
Proof.
  intros Ht Hd. cbn [scan_extensions].
  rewrite !length_app, length_ser_ext. cbn [snd].
  rewrite (proj2 (Nat.ltb_lt _ _)) by lia. cbn [negb].
  rewrite (proj2 (Nat.ltb_ge _ _)) by lia.
  assert (be16_at (pre ++ ser_ext (t, d) ++ rest) (length pre) = Done (Z.to_nat t)) as ->.
  { unfold ser_ext. cbn [fst snd]. rewrite <- !app_assoc. by rewrite be16_at_app by done. }
  cbn [exec_bind].
  assert (be16_at (pre ++ ser_ext (t, d) ++ rest) (length pre + 2) = Done (length d)) as ->.
  { rewrite <- (zlen_to_nat d).
    rewrite <- (be16_at_app (pre ++ to_be16 t) (zlen d) (d ++ rest) (length pre + 2))
      by (by apply zlen_u16 || by rewrite length_app).
    unfold ser_ext. cbn [fst snd]. by rewrite <- !app_assoc. }
  cbn [exec_bind]. rewrite (proj2 (Nat.ltb_ge _ _)) by lia.
  unfold is_u16 in Ht. f_equal; [lia|].
  destruct (Z.eqb_spec t 0) as [->|Hne].
  - cbn. f_equal. lia.
  - by rewrite (proj2 (Nat.eqb_neq _ _)) by lia.
Qed.

Definition other_ext (x : Z * list Z) : Prop := (0 < x.1 < 65536)%Z ∧ (zlen x.2 < 65536)%Z.

Lemma scan_exts fuel pre xs rest s :
  Forall other_ext xs → length xs ≤ fuel →
  scan_extensions fuel (pre ++ ser_exts xs ++ rest) (length pre) s =
  scan_extensions (fuel - length xs) (pre ++ ser_exts xs ++ rest)
    (length (pre ++ ser_exts xs)) s.
Proof.
  revert fuel pre. induction xs as [|[t d] xs IH]; intros fuel pre Hx Hf.
  - cbn [ser_exts map concat length]. by rewrite app_nil_r, Nat.sub_0_r.
  - apply Forall_cons_1 in Hx as [[Ht Hd] Hx]. destruct fuel as [|fuel]; [simpl in Hf; lia|].
    cbn [fst snd] in Ht, Hd.
    change (ser_exts ((t, d) :: xs)) with (ser_ext (t, d) ++ ser_exts xs).
    rewrite <- (app_assoc (ser_ext (t, d))), scan_ext by (unfold is_u16; lia).
    rewrite (proj2 (Z.eqb_neq t 0) ltac:(lia)).
    rewrite !(app_assoc pre (ser_ext (t, d))). rewrite IH by (done || simpl in Hf; lia). done.
Qed.

Lemma ser_exts_count xs : length xs ≤ length (ser_exts xs).
Proof.
  induction xs as [|x xs IH]; [done|].
  change (ser_exts (x :: xs)) with (ser_ext x ++ ser_exts xs).
  rewrite length_app, length_ser_ext. simpl. lia.
Qed.

Context (c : ClientHello) (Hwf : ch_wf c) (Hafter : Forall other_ext (ch_after c)).

Lemma scan_hello fuel :
  length (ch_body c) ≤ fuel + (length (ch_upto_exts c) + 2) →
  scan_extensions fuel (ch_body c) (length (ch_upto_exts c) + 2) None =
  Done (Some (Some (length (ch_upto_exts c) + 2 + length (ser_exts (ch_before c))))).
Proof.
  intros Hf. destruct (ch_sizes c Hwf) as (_ & _ & _ & _ & _ & Hnm & Hbf & _).
  set (pre := ch_upto_exts c ++ to_be16 (zlen (ch_exts c))).
  assert (length (ch_upto_exts c) + 2 = length pre) as Hp by (unfold pre; by rewrite length_app).
  rewrite Hp in *.
  assert (ch_body c = pre ++ ser_exts (ch_before c) ++
    ser_ext (0%Z, sni_data (ch_name c)) ++ ser_exts (ch_after c)) as Hb
    by (unfold ch_body, pre, ch_exts; by rewrite <- !app_assoc).
  rewrite Hb in *. clear Hb.
  pose proof (ser_exts_count (ch_before c)). pose proof (ser_exts_count (ch_after c)).
  rewrite !length_app, length_ser_ext in Hf. cbn [snd] in Hf.
  rewrite length_sni_data in Hf.
  rewrite scan_exts by (done || lia).
  destruct (fuel - length (ch_before c)) as [|f] eqn:Ef; [lia|].
  rewrite !(app_assoc pre (ser_exts (ch_before c))).
  rewrite scan_ext by (done || unfold zlen in *; rewrite ?length_sni_data; lia).
  cbn [Z.eqb].
  rewrite !(app_assoc (pre ++ ser_exts (ch_before c)) (ser_ext _)).
  rewrite <- (app_nil_r (ser_exts (ch_after c))).
  rewrite scan_exts by (done || lia). rewrite app_nil_r.
  destruct (f - length (ch_after c)); cbn [scan_extensions];
    rewrite Nat.ltb_irrefl; cbn [negb]; by rewrite length_app.
Qed.

Lemma ch_lengths :
  length (ch_upto_suites c) = 35 + length (ch_sid c) ∧
  length (ch_upto_comp c) = length (ch_upto_suites c) + 2 + length (ch_suites c) ∧
  length (ch_upto_exts c) = length (ch_upto_comp c) + 1 + length (ch_comp c) ∧
  length (ch_body c) = length (ch_upto_exts c) + 2 + length (ch_exts c).
Proof.
  destruct Hwf as [Hv Hr _ _ _ _ _].
  unfold ch_body, ch_upto_exts, ch_upto_comp, ch_upto_suites, ch_head.
  rewrite !length_app. cbn [length to_be16]. lia.
Qed.

(** The length bytes inside the handshake body. *)
Lemma ch_length_bytes :
  idx (ch_body c) 34 = Done (zlen (ch_sid c)) ∧
  be16_at (ch_body c) (length (ch_upto_suites c)) = Done (length (ch_suites c)) ∧
  idx (ch_body c) (length (ch_upto_comp c)) = Done (zlen (ch_comp c)) ∧
  be16_at (ch_body c) (length (ch_upto_exts c)) = Done (length (ch_exts c)).
Proof.
  destruct (ch_sizes c Hwf) as (_ & _ & Hsu & Hex & _).
  assert (length (ch_head c) = 34) as Hh
    by (unfold ch_head; rewrite length_app, (wf_version _ Hwf), (wf_random _ Hwf); done).
  split_and!.
  - apply idx_lookup. unfold ch_body, ch_upto_exts, ch_upto_comp, ch_upto_suites.
    rewrite <- !app_assoc. by rewrite lookup_app_r, Hh by lia.
  - rewrite <- (zlen_to_nat (ch_suites c)).
    rewrite <- (be16_at_app (ch_upto_suites c) (zlen (ch_suites c))
      (ch_suites c ++ zlen (ch_comp c) :: ch_comp c ++ to_be16 (zlen (ch_exts c)) ++ ch_exts c)
      (length (ch_upto_suites c))) by (done || by apply zlen_u16).
    f_equal. unfold ch_body, ch_upto_exts, ch_upto_comp. by rewrite <- !app_assoc.
  - apply idx_lookup. unfold ch_body, ch_upto_exts. rewrite <- !app_assoc.
    by rewrite lookup_app_r, Nat.sub_diag by lia.
  - rewrite <- (zlen_to_nat (ch_exts c)). unfold ch_body.
    by apply be16_at_app; [apply zlen_u16|].
Qed.

Lemma parse_body_hello :
  parse_body (ch_body c) =
  Done (Some (MkLayout (9 + length (ch_upto_exts c)) (9 + length (ch_upto_exts c) + 2)
    (Some (ch_ext_start c)))).
Proof.
  destruct ch_lengths as (L1 & L2 & L3 & L4). destruct ch_length_bytes as (B1 & B2 & B3 & B4).
  unfold parse_body. rewrite (proj2 (Nat.ltb_ge _ _)) by lia. cbv zeta.
  rewrite (proj2 (Nat.leb_gt _ _)), B1 by lia. cbn [exec_bind]. rewrite !zlen_to_nat.
  change (34 + 1) with 35. rewrite <- !L1. rewrite !(proj2 (Nat.ltb_ge _ _)) by lia.
  rewrite B2. cbn [exec_bind]. rewrite <- !L2. rewrite !(proj2 (Nat.ltb_ge _ _)) by lia.
  rewrite (proj2 (Nat.leb_gt _ _)), B3 by lia. cbn [exec_bind]. rewrite !zlen_to_nat.
  rewrite <- !L3. rewrite !(proj2 (Nat.ltb_ge _ _)) by lia.
  rewrite B4. cbn [exec_bind]. rewrite <- L4, Nat.eqb_refl. cbn [negb].
  rewrite scan_hello by lia. unfold try_exec. cbn [exec_bind try_opt fmap option_fmap option_map].
  assert (∀ a b x y u v : nat, a = b → x = y → u = v →
    MkLayout a x (Some u) = MkLayout b y (Some v)) as Heq by congruence.
  do 2 f_equal. apply Heq; unfold ch_ext_start; lia.
Qed.

Lemma ch_record_layout :
  ch_record c = [0x16; 3; 1]%Z ++ to_be16 (zlen (ch_handshake c)) ++
    [1; (zlen (ch_body c) / 65536) mod 256; (zlen (ch_body c) / 256) mod 256;
     zlen (ch_body c) mod 256]%Z ++ ch_body c ∧
  length (ch_record c) = 9 + length (ch_body c) ∧
  zlen (ch_handshake c) = (4 + zlen (ch_body c))%Z.
Proof.
  unfold ch_record, ch_handshake, zlen. split; [done|]. split; rewrite ?length_app; simpl; lia.
Qed.

Lemma hs_length_hello : hs_length (ch_record c) = Done (zlen (ch_body c)).
Proof.
  destruct (ch_sizes c Hwf) as (_ & _ & _ & _ & Hbd & _).
  destruct ch_record_layout as (-> & _). set (n := zlen (ch_body c)) in *.
  unfold hs_length, idx. cbn [app to_be16 lookup list_lookup exec_bind].
  assert (0 ≤ n)%Z by (unfold n, zlen; lia).
  rewrite (Z.div_small n 65536), (Z.mod_small 0) by lia.
  change (Z.lor (Z.shiftl 0 16) ?x) with x.
  rewrite lor_shiftl by (pose proof (Z.mod_pos_bound n 256); lia).
  rewrite (Z.mod_small (n / 256)) by (split; [apply Z.div_pos|apply Z.div_lt_upper_bound]; lia).
  f_equal. rewrite (Z.div_mod n 256) at 3 by lia. lia.
Qed.

Lemma parse_hello :
  parse_client_hello (ch_record c) =
  Done (Some (MkLayout (9 + length (ch_upto_exts c)) (9 + length (ch_upto_exts c) + 2)
    (Some (ch_ext_start c)))).
Proof.
  destruct ch_record_layout as (Hr & Hl & Hh). unfold parse_client_hello.
  rewrite (proj2 (Nat.ltb_ge _ _)) by lia.
  assert (be16_at (ch_record c) 3 = Done (length (ch_handshake c))) as Hb.
  { rewrite <- zlen_to_nat, Hr. apply (be16_at_app [0x16; 3; 1]%Z); [|done].
    apply zlen_u16, (wf_size _ Hwf). }
  assert (length (ch_handshake c) = 4 + length (ch_body c)) as Hhl
    by (unfold zlen in Hh; lia).
  assert (idx (ch_record c) 0 = Done 0x16%Z ∧ idx (ch_record c) 5 = Done 1%Z
          ∧ drop 9 (ch_record c) = ch_body c) as (-> & -> & ->) by (rewrite Hr; done).
  cbn [exec_bind Z.eqb Pos.eqb negb]. rewrite Hb. cbn [exec_bind].
  rewrite Hl, Hhl, Nat.eqb_refl. cbn [negb].
  rewrite hs_length_hello. cbn [exec_bind]. unfold zlen at 1.
  rewrite (proj2 (Z.eqb_eq _ _)) by lia. cbn [negb]. apply parse_body_hello.
Qed.

(** The ClientHello with the padding extension of RFC 7685 (type 21). *)
Definition padding_ext (pad : nat) : Z * list Z := (21%Z, replicate pad 0%Z).
Definition padded (pos : PaddingPosition) (pad : nat) (c : ClientHello) : ClientHello :=
  match pos with
  | Before => MkClientHello (ch_version c) (ch_random c) (ch_sid c) (ch_suites c) (ch_comp c)
                (ch_before c ++ [padding_ext pad]) (ch_name c) (ch_after c)
  | After => MkClientHello (ch_version c) (ch_random c) (ch_sid c) (ch_suites c) (ch_comp c)
               (ch_before c) (ch_name c) (ch_after c ++ [padding_ext pad])
  end.

Lemma ser_exts_one x : ser_exts [x] = ser_ext x.
Proof. unfold ser_exts. cbn [map concat]. apply app_nil_r. Qed.

Lemma padded_sizes pos pad :
  length (ch_exts (padded pos pad c)) = length (ch_exts c) + 4 + pad ∧
  length (ch_body (padded pos pad c)) = length (ch_body c) + 4 + pad ∧
  ch_upto_exts (padded pos pad c) = ch_upto_exts c.
Proof.
  assert (length (ch_exts (padded pos pad c)) = length (ch_exts c) + 4 + pad) as He.
  { unfold ch_exts. destruct pos; cbn [padded ch_before ch_name ch_after];
      rewrite !length_app, ser_exts_app, length_app, ser_exts_one, (length_ser_ext (padding_ext _));
      cbn [padding_ext snd]; rewrite length_replicate; lia. }
  split; [done|]. assert (ch_upto_exts (padded pos pad c) = ch_upto_exts c) as Hu by (by destruct pos).
  split; [|done]. unfold ch_body. rewrite Hu, !length_app, He. cbn [length to_be16]. lia.
Qed.

(** Where the padding goes: around it, the two halves of the extensions. *)
Lemma padded_exts pos pad :
  let cut := match pos with Before => length (ser_exts (ch_before c)) | After => length (ch_exts c) end in
  ch_exts (padded pos pad c) =
    take cut (ch_exts c) ++ ([0; 21]%Z ++ to_be16 (Z.of_nat pad) ++ replicate pad 0%Z) ++
    drop cut (ch_exts c).
Proof.
  assert (ser_ext (padding_ext pad) = [0; 21]%Z ++ to_be16 (Z.of_nat pad) ++ replicate pad 0%Z) as Hp.
  { unfold ser_ext, padding_ext, zlen. cbn [fst snd]. by rewrite length_replicate. }
  intros cut. rewrite <- Hp. unfold ch_exts, cut. destruct pos; cbn [padded ch_before ch_name ch_after].
  - rewrite take_app_length, drop_app_length, ser_exts_app, ser_exts_one. by rewrite <- !app_assoc.
  - fold (ch_exts c). rewrite firstn_all, drop_all, app_nil_r, ser_exts_app, ser_exts_one.
    unfold ch_exts. by rewrite <- !app_assoc.
Qed.

Lemma as_u8_shiftr z k m : (0 ≤ k)%Z → m = (2 ^ k)%Z → as_u8 (Z.shiftr z k) = ((z / m) mod 256)%Z.
Proof. intros Hk ->. unfold as_u8. by rewrite Z.shiftr_div_pow2. Qed.

Lemma length_take_exts pos :
  let cut := match pos with Before => length (ser_exts (ch_before c)) | After => length (ch_exts c) end in
  length (take cut (ch_exts c)) = cut.
Proof.
  intros cut. rewrite length_take. unfold cut, ch_exts. destruct pos; rewrite ?length_app; lia.
Qed.

Lemma resize_vec_pad {A} (l : list A) n (x : A) : resize_vec l (length l + n) x = l ++ replicate n x.
Proof.
  unfold resize_vec. destruct (Nat.ltb_spec (length l) (length l + n)).
  - by replace (length l + n - length l) with n by lia.
  - replace n with 0 by lia. by rewrite Nat.add_0_r, firstn_all, app_nil_r.
Qed.

(** The bytes of the padded record, with its three longer length fields. *)
Lemma padded_record pos pad cut :
  cut = match pos with Before => length (ser_exts (ch_before c)) | After => length (ch_exts c) end →
  (Z.of_nat (length (ch_record c)) + 4 + Z.of_nat pad ≤ 5 + 16383)%Z →
  ch_record (padded pos pad c) =
  [0x16; 3; 1]%Z ++
  to_be16 (as_u16 (Z.of_nat (length (ch_record c) - 5 + (4 + pad)))) ++ [1]%Z ++
  [as_u8 (Z.shiftr (zlen (ch_body c) + Z.of_nat (4 + pad)) 16);
   as_u8 (Z.shiftr (zlen (ch_body c) + Z.of_nat (4 + pad)) 8);
   as_u8 (zlen (ch_body c) + Z.of_nat (4 + pad))] ++
  ch_upto_exts c ++ to_be16 (as_u16 (Z.of_nat (length (ch_exts c) + (4 + pad)))) ++
  take cut (ch_exts c) ++ [0; 21]%Z ++ to_be16 (as_u16 (Z.of_nat pad)) ++
  replicate pad 0%Z ++ drop cut (ch_exts c).
Proof.
  intros Hcut Hmax. destruct (padded_sizes pos pad) as (S1 & S2 & S3).
  pose proof (padded_exts pos pad) as Hx. cbv zeta in Hx. rewrite <- Hcut in Hx.
  destruct ch_record_layout as (_ & Hl & _). destruct ch_lengths as (_ & _ & _ & L4).
  rewrite !as_u16_small by (unfold is_u16; lia).
  rewrite (as_u8_shiftr _ 16 65536), (as_u8_shiftr _ 8 256) by done.
  assert (zlen (ch_body c) + Z.of_nat (4 + pad) = zlen (ch_body (padded pos pad c)))%Z as ->
    by (unfold zlen; lia).
  assert (Z.of_nat (length (ch_exts c) + (4 + pad)) = zlen (ch_exts (padded pos pad c))) as ->
    by (unfold zlen; lia).
  unfold ch_record at 1. unfold ch_handshake at 2. unfold ch_body at 4. rewrite S3, Hx.
  assert (Z.of_nat (length (ch_record c) - 5 + (4 + pad)) = zlen (ch_handshake (padded pos pad c)))
    as ->.
  { unfold ch_handshake, zlen. rewrite length_app. cbn [length]. lia. }
  rewrite <- !app_assoc. done.
Qed.

Lemma build_padded_hello pos pad :
  length (ch_record c) + 4 + pad ≤ 5 + MAX_TLS_RECORD_BODY →
  build_padded (ch_record c)
    (MkLayout (9 + length (ch_upto_exts c)) (9 + length (ch_upto_exts c) + 2)
      (Some (ch_ext_start c))) pad pos
  = Done (ch_record (padded pos pad c)).
Proof.
  intros Hmax. unfold MAX_TLS_RECORD_BODY in Hmax.
  destruct (ch_sizes c Hwf) as (_ & _ & _ & Hex & _).
  destruct ch_record_layout as (Hr & Hl & Hh). destruct ch_lengths as (_ & _ & _ & L4).
  destruct ch_length_bytes as (_ & _ & _ & B4). destruct (padded_sizes pos pad) as (S1 & S2 & S3).
  pose proof (padded_exts pos pad) as Hx. pose proof (length_take_exts pos) as Ht. cbv zeta in Hx, Ht.
  set (cut := match pos with Before => length (ser_exts (ch_before c)) | After => length (ch_exts c) end) in *.
  set (hd := [0x16; 3; 1]%Z ++ to_be16 (zlen (ch_handshake c)) ++
    [1; (zlen (ch_body c) / 65536) mod 256; (zlen (ch_body c) / 256) mod 256;
     zlen (ch_body c) mod 256]%Z).
  assert (Hrec : ch_record c = hd ++ ch_upto_exts c ++ to_be16 (zlen (ch_exts c)) ++
    take cut (ch_exts c) ++ drop cut (ch_exts c)).
  { rewrite take_drop. exact Hr. }
  assert (length hd = 9) as Hhd by done.
  unfold build_padded. cbn [ext_len_off ext_start sni_off].
  assert (be16_at (ch_record c) (9 + length (ch_upto_exts c)) = Done (length (ch_exts c))) as ->.
  { rewrite Hrec, <- (zlen_to_nat (ch_exts c)), app_assoc.
    apply be16_at_app; [by apply zlen_u16|by rewrite length_app, Hhd]. }
  cbn [exec_bind]. rewrite hs_length_hello. cbn [exec_bind].
  set (ins := match pos with Before => ch_ext_start c | After => length (ch_record c) end).
  assert (ins = 9 + length (ch_upto_exts c) + 2 + cut) as Hins.
  { unfold ins, cut, ch_ext_start. destruct pos; lia. }
  assert (match pos with Before => ins | After => length (ch_record c) end = ins) as Hi
    by (by destruct pos).
  replace (match pos with Before => ch_ext_start c | After => length (ch_record c) end) with ins by done.
  rewrite (slice_mid [] (take 6 hd) (drop 6 hd ++ ch_upto_exts c ++ to_be16 (zlen (ch_exts c)) ++
    take cut (ch_exts c) ++ drop cut (ch_exts c))) by (done || by rewrite Hrec).
  cbn [exec_bind].
  rewrite (slice_mid hd (ch_upto_exts c) (to_be16 (zlen (ch_exts c)) ++
    take cut (ch_exts c) ++ drop cut (ch_exts c))) by (done || by rewrite Hrec).
  cbn [exec_bind].
  rewrite (slice_mid (hd ++ ch_upto_exts c ++ to_be16 (zlen (ch_exts c))) (take cut (ch_exts c))
    (drop cut (ch_exts c))) by (rewrite ?Hrec, ?length_app, <- ?app_assoc, ?Ht; cbn [length to_be16]; done || lia).
  cbn [exec_bind].
  rewrite (slice_mid (hd ++ ch_upto_exts c ++ to_be16 (zlen (ch_exts c)) ++ take cut (ch_exts c))
    (drop cut (ch_exts c)) []) by (rewrite ?app_nil_r, ?Hrec, ?length_app, <- ?app_assoc, ?Ht; cbn [length to_be16]; done || lia).
  cbn [exec_bind]. cbv zeta.
  rewrite resize_vec_pad.
  assert (take 6 hd = [0x16; 3; 1]%Z ++ to_be16 (zlen (ch_handshake c)) ++ [1]%Z) as -> by done.
  rewrite <- !app_assoc.
  rewrite (blit_mid [0x16; 3; 1]%Z (to_be16 (zlen (ch_handshake c)))) by done.
  f_equal. symmetry. apply padded_record; [done|lia].
Qed.
End padding_hello.

Lemma padded_wf c pos pad : ch_wf c → (zlen (ch_handshake (padded pos pad c)) < 65536)%Z →
  ch_wf (padded pos pad c).
Proof.
  intros [] Hz. destruct pos; split; try done; cbn [padded ch_before].
  apply Forall_app. split; [done|]. by apply Forall_singleton.
Qed.

Lemma apply_hello m c seed : ch_wf c → Forall other_ext (ch_after c) →
  let pad := pad_amount (TlsPadding.size m) seed (length (ch_record c)) in
  TlsPadding.apply m (ch_record c) seed =
  Done (if pad =? 0 then None else Some (ch_record (padded (TlsPadding.position m) pad c))).
Proof.
  intros Hwf Ha pad. unfold TlsPadding.apply. rewrite (parse_hello c Hwf Ha).
  unfold try_exec. cbn [exec_bind try_opt]. fold (pad_amount (TlsPadding.size m) seed (length (ch_record c))).
  fold pad. destruct (Nat.eqb_spec pad 0) as [|Hp]; [done|].
  rewrite (build_padded_hello c Hwf); [done|].
  unfold pad, pad_amount in *. destruct (ch_record_layout c) as (_ & Hl & _). lia.
Qed.

(** TLS padding.  [tls_padding] never panics, on any record and any
    seed; a record it returns is longer by the four bytes of an extension
    header and the sampled amount, and its body stays within the 16383 bytes
    of a TLS record.  The padded form of a well-formed ClientHello is again a
    well-formed ClientHello: the same handshake with one zero-filled padding
    extension (type 21) right before [server_name], or at the end of the
    extensions, and all three enclosing length fields adjusted; the host name
    is found in it. *)
Theorem tls_padding_spec m seed :
  (∀ record, ∃ r, TlsPadding.apply m record seed = Done r ∧
    ∀ out, r = Some out →
      length record + 4 < length out ≤ 5 + TlsPadding.MAX_TLS_RECORD_BODY) ∧
  ∀ c, ch_wf c → Forall other_ext (ch_after c) →
    let pad := pad_amount (TlsPadding.size m) seed (length (ch_record c)) in
    let c' := padded (TlsPadding.position m) pad c in
    TlsPadding.apply m (ch_record c) seed = Done (if pad =? 0 then None else Some (ch_record c')) ∧
    (0 < pad → ch_wf c' ∧
      ∃ b, find_sni_boundary (ch_record c') = Done (Some b) ∧
        take (sb_name_len b) (drop (sb_name_start b) (ch_record c')) = ch_name c).
Proof.
  split.
  - intros record. destruct (apply_total m record seed) as (r & Hr & Ho). exists r.
    split; [done|]. intros out Hout. destruct (Ho out Hout) as (H1 & H2 & H3). lia.
  - intros c Hwf Ha pad c'. pose proof (apply_hello m c seed Hwf Ha) as Happ. cbv zeta in Happ.
    split; [done|]. intros Hp.
    assert (ch_wf c') as Hwf'.
    { apply padded_wf; [done|]. fold c'. destruct (ch_record_layout c) as (_ & Hl & _).
      destruct (ch_record_layout c') as (_ & Hl' & ->).
      destruct (padded_sizes c (TlsPadding.position m) pad) as (_ & Hs & _). fold c' in Hs.
      unfold zlen, pad, pad_amount, TlsPadding.MAX_TLS_RECORD_BODY in *. lia. }
    split; [done|]. destruct (find_sni_boundary_found c' Hwf' []) as (b & Hb & Hn).
    rewrite app_nil_r in Hb, Hn. exists b. split; [done|]. rewrite Hn. unfold c'.
    by destruct (TlsPadding.position m).
Qed.

Lemma tls_padding_spec_witness :
  let m := TlsPadding.Mk (Int32Range_exact 3) Before in
  pad_amount (TlsPadding.size m) 0 (length (ch_record sample_hello)) = 3 ∧
  TlsPadding.apply m (ch_record sample_hello) 0
    = Done (Some (ch_record (padded Before 3 sample_hello))).
Proof.
  intros m. assert (pad_amount (TlsPadding.size m) 0 (length (ch_record sample_hello)) = 3) as Hp
    by (vm_compute; reflexivity).
  split; [exact Hp|].
  destruct (proj2 (tls_padding_spec m 0) sample_hello sample_hello_wf) as [H _].
  - repeat constructor.
  - cbv zeta in H. rewrite Hp in H. exact H.
Defined.

(** ** mixed_case_sni: only the case of the name changes *)

(** A loop over a list with positions, with an invariant that knows how far
    it has come. *)
Lemma exec_fold_imap_inv {A T} (I : nat → T → Prop) (f : T → nat * A → exec T) (l : list A) s :
  I 0 s →
  (∀ i x s, l !! i = Some x → I i s → ∃ s', f s (i, x) = Done s' ∧ I (i + 1) s') →
  ∃ s', exec_fold f (imap pair l) s = Done s' ∧ I (length l) s'.
Proof.
  intros H0 Hf.
  assert (∀ l1 k s, (∀ i x, l1 !! i = Some x → l !! (k + i) = Some x) → I k s →
    ∃ s', exec_fold f (imap (λ i x, (k + i, x)) l1) s = Done s' ∧ I (k + length l1) s') as H.
  { induction l1 as [|x l1 IH]; intros k s1 Hl Hk.
    - exists s1. by rewrite Nat.add_0_r.
    - cbn [imap exec_fold]. rewrite Nat.add_0_r.
      destruct (Hf k x s1) as (s2 & -> & H2);
        [rewrite <- (Nat.add_0_r k); by apply (Hl 0 x)|done|].
      cbn [exec_bind]. rewrite (imap_ext _ (λ i y, ((k + 1) + i, y)))
        by (intros; cbn; f_equal; lia).
      destruct (IH (k + 1) s2) as (s' & -> & Hs'); [|done|].
      + intros i y Hi. replace (k + 1 + i) with (k + S i) by lia. by apply Hl.
      + exists s'. split; [done|]. cbn [length]. by replace (k + S (length l1)) with (k + 1 + length l1) by lia. }
  destruct (H l 0 s) as (s' & Hs' & Hi); [done..|]. exists s'. by split.
Qed.

Section mixed_case.
Import MixedCaseSni.

Lemma case_facts b : is_alphabetic b = true →
  to_lower (swap_ascii_case b) = to_lower b ∧ swap_ascii_case b ≠ b ∧
  to_lower (to_lower b) = to_lower b ∧ to_lower (to_upper b) = to_lower b.
Proof.
  unfold is_alphabetic, swap_ascii_case, to_lower, to_upper, is_lower, is_upper.
  intros H. repeat match goal with
  | |- context [if ?x then _ else _] => destruct x eqn:?
  end; bool_to_prop; try lia; intuition (bool_to_prop; lia).
Qed.

(** [out] is [record] with the case of some bytes in [st, hi) changed. *)
Definition recased (record : list Z) (st hi : nat) (out : list Z) : Prop :=
  to_lower <$> out = to_lower <$> record ∧
  ∀ i, i < st ∨ hi ≤ i → out !! i = record !! i.

Lemma recased_length record st hi out : recased record st hi out → length out = length record.
Proof. intros [H _]. apply (f_equal length) in H. by rewrite !length_fmap in H. Qed.

Lemma recased_weaken record st hi hi' out :
  recased record st hi out → hi ≤ hi' → recased record st hi' out.
Proof. intros [H1 H2] H. split; [done|]. intros i Hi. apply H2. lia. Qed.

Lemma recased_insert record st hi out j b v :
  recased record st hi out → record !! j = Some b → to_lower v = to_lower b →
  st ≤ j < hi → recased record st hi (<[j := v]> out).
Proof.
  intros [H1 H2] Hj Hv Hr. split.
  - rewrite list_fmap_insert, H1. apply list_insert_id. by rewrite list_lookup_fmap, Hj, Hv.
  - intros i Hi. rewrite list_lookup_insert_ne by lia. by apply H2.
Qed.

Context (record : list Z) (st len : nat) (name : list Z).
Hypothesis Hname : name = take len (drop st record).
Hypothesis Hlen : st + len ≤ length record.

Lemma name_lookup i b : name !! i = Some b → record !! (st + i) = Some b ∧ i < len.
Proof.
  rewrite Hname. intros Hi. apply lookup_take_Some in Hi as [Hi ?].
  by rewrite lookup_drop in Hi.
Qed.

Lemma name_length : length name = len.
Proof. rewrite Hname, length_take, length_drop. lia. Qed.

Lemma flip_all_spec :
  ∃ out, exec_fold (flip_step st) (imap pair name) record = Done out ∧
    recased record st (st + len) out ∧
    ∀ i b, name !! i = Some b → is_alphabetic b = true →
      out !! (st + i) = Some (swap_ascii_case b).
Proof.
  destruct (exec_fold_imap_inv (λ k out, recased record st (st + k) out ∧
      ∀ i b, i < k → name !! i = Some b → is_alphabetic b = true →
        out !! (st + i) = Some (swap_ascii_case b)) (flip_step st) name record)
    as (out & Ho & [Hr Hs]).
  - split; [by split|]. intros i b Hi. lia.
  - intros i b out Hb [Hr Hs]. destruct (name_lookup i b Hb) as [Hrb Hi].
    unfold flip_step. destruct (is_alphabetic b) eqn:Ha.
    + rewrite upd_done by (rewrite (recased_length _ _ _ _ Hr); lia).
      eexists. split; [done|]. destruct (case_facts b Ha) as (Hlow & _). split.
      * apply (recased_insert _ _ _ _ _ b); [apply (recased_weaken _ _ (st + i)); [done|lia]|done..|lia].
      * intros j c Hj Hc Hac. destruct (decide (j = i)) as [->|Hne].
        -- rewrite list_lookup_insert_eq by (rewrite (recased_length _ _ _ _ Hr); lia). congruence.
        -- rewrite list_lookup_insert_ne by lia. apply (Hs j c); [lia|done..].
    + eexists. split; [done|]. split; [apply (recased_weaken _ _ (st + i)); [done|lia]|].
      intros j c Hj Hc Hac. apply (Hs j c); [|done..].
      assert (j ≠ i) by (intros ->; congruence). lia.
  - exists out. rewrite name_length in *. split_and!; [done..|].
    intros i b Hb. apply Hs; [|done]. apply lookup_lt_Some in Hb. by rewrite name_length in Hb.
Qed.

(** The invariant of the random loop. *)
Definition random_inv (k : nat) (s : loop) : Prop :=
  recased record st (st + k) (lp_out s) ∧
  (∀ i, i ∈ letters s ↔ i < k ∧ ∃ b, name !! i = Some b ∧ is_alphabetic b = true) ∧
  (flipped s = false → lp_out s = record) ∧
  (flipped s = true → ∃ j, j < k ∧ lp_out s !! (st + j) ≠ record !! (st + j)).

Lemma random_loop_spec rng :
  ∃ s, exec_fold (random_step st) (imap pair name) (MkLoop record [] false rng) = Done s ∧
    random_inv len s.
Proof.
  destruct (exec_fold_imap_inv random_inv (random_step st) name (MkLoop record [] false rng))
    as (s & Hs & Hi).
  - unfold random_inv. cbn. split_and!; [by split| |done|done].
    intros i. split; [by intros ?%elem_of_nil|lia].
  - intros i b s Hb (Hr & Hl & Hf & Ht). destruct (name_lookup i b Hb) as [Hrb Hi].
    unfold random_step. destruct (is_alphabetic b) eqn:Ha; cbn [negb].
    2: { eexists. split; [done|]. split_and!; [apply (recased_weaken _ _ (st + i)); [done|lia]| |done|].
         - intros j. rewrite Hl. split; [intros [? ?]; split; [lia|done]|].
           intros [Hj (c & Hc & Hac)]. split; [|by eauto].
           assert (j ≠ i) by (intros ->; congruence). lia.
         - intros Hfl. destruct (Ht Hfl) as (j & ? & ?). exists j. split; [lia|done]. }
    destruct (splitmix64 (MixedCaseSni.rng s)) as [r z].
    set (v := if (Z.land z 1 =? 0)%Z then to_lower b else to_upper b).
    assert (to_lower v = to_lower b) as Hv by (unfold v; destruct (case_facts b Ha) as (_&_&?&?); by destruct (_ =? 0)%Z).
    pose proof (recased_length _ _ _ _ Hr) as Hol.
    rewrite upd_done by lia. cbn [exec_bind]. eexists. split; [done|].
    unfold random_inv. cbn [lp_out letters flipped]. split_and!.
    + apply (recased_insert _ _ _ _ _ b); [apply (recased_weaken _ _ (st + i)); [done|lia]|done..|lia].
    + intros j. rewrite elem_of_app, list_elem_of_singleton, Hl. split.
      * intros [[? ?]| ->]; (split; [lia|by eauto]).
      * intros [Hj Hx]. destruct (decide (j = i)) as [->|]; [by right|left]. split; [lia|done].
    + intros [Hfl Hvb]%orb_false_iff. rewrite (Hf Hfl). apply negb_false_iff, Z.eqb_eq in Hvb.
      apply list_insert_id. by rewrite Hvb.
    + intros [Hfl|Hvb]%orb_true_iff.
      * destruct (Ht Hfl) as (j & Hj & Hd). exists j. split; [lia|].
        by rewrite list_lookup_insert_ne by lia.
      * apply negb_true_iff, Z.eqb_neq in Hvb. exists i. split; [lia|].
        rewrite list_lookup_insert_eq by lia. rewrite Hrb. congruence.
  - exists s. rewrite name_length in Hi. by split.
Qed.
End mixed_case.

Definition has_letter (name : list Z) : Prop :=
  ∃ i b, name !! i = Some b ∧ MixedCaseSni.is_alphabetic b = true.


Lemma mixed_case_spec m record rng :
  match find_sni_range record with
  | Panic => MixedCaseSni.apply_with_rng m record rng = Panic
  | Done None => MixedCaseSni.apply_with_rng m record rng = Done None
  | Done (Some (st, len)) =>
      let name := take len (drop st record) in
      ∃ r, MixedCaseSni.apply_with_rng m record rng = Done r ∧
        (r = None ↔ MixedCaseSni.flip_all m = false ∧ ¬ has_letter name) ∧
        ∀ out, r = Some out → recased record st (st + len) out ∧
          (MixedCaseSni.flip_all m = false → out ≠ record) ∧
          (MixedCaseSni.flip_all m = true → ∀ i b, name !! i = Some b →
             MixedCaseSni.is_alphabetic b = true →
             out !! (st + i) = Some (MixedCaseSni.swap_ascii_case b))
  end.
Proof.
  destruct (find_sni_range record) as [[[st len]|]|] eqn:Ef;
    unfold MixedCaseSni.apply_with_rng; rewrite Ef; cbn [exec_bind]; [|done..].
  pose proof (find_sni_range_bounds _ _ _ Ef) as [Hpos Hlen].
  rewrite slice_done by lia. cbn [exec_bind]. replace (st + len - st) with len by lia.
  set (name := take len (drop st record)). destruct (MixedCaseSni.flip_all m) eqn:Em.
  - destruct (flip_all_spec record st len name eq_refl Hlen) as (out & -> & Hr & Hs).
    cbn [exec_bind]. eexists. split; [done|]. split; [split; [done|by intros [? _]]|].
    intros o [= <-]. by split_and!.
  - destruct (random_loop_spec record st len name eq_refl Hlen rng) as (s & -> & Hr & Hl & Hf & Ht).
    cbn [exec_bind]. assert (length name = len) as Hnl by (by apply (name_length record st)).
    assert (∀ i, i ∈ MixedCaseSni.letters s ↔
      ∃ b, name !! i = Some b ∧ MixedCaseSni.is_alphabetic b = true) as Hl'.
    { intros i. rewrite Hl. split; [tauto|]. intros (b & Hb & Ha). split; [|by eauto].
      apply lookup_lt_Some in Hb. lia. }
    destruct (MixedCaseSni.letters s) as [|i0 ls] eqn:Els.
    { eexists. split; [done|]. split; [|done]. split; [|done]. intros _. split; [done|].
      intros (i & b & Hib). assert (i ∈ []) as Hx by (apply Hl'; eauto). by apply elem_of_nil in Hx. }
    assert (has_letter name) as Hhas.
    { destruct (proj1 (Hl' i0)) as (b & ? & ?); [left|]. by exists i0, b. }
    destruct (MixedCaseSni.flipped s) eqn:Efl.
    + eexists. split; [done|]. split; [split; [done|tauto]|]. intros o [= <-].
      split_and!; [done| |done]. intros _ E. destruct (Ht eq_refl) as (j & _ & Hj). by rewrite E in Hj.
    + rewrite (Hf eq_refl) in *. destruct (splitmix64 (MixedCaseSni.rng s)) as [r z].
      set (pick := Z.to_nat (z mod Z.of_nat (length (i0 :: ls)))).
      destruct (lookup_lt_is_Some_2 (i0 :: ls) pick) as [i Hi].
      { unfold pick. pose proof (Z.mod_pos_bound z (Z.of_nat (length (i0 :: ls)))) as Hb.
        cbn [length] in *. lia. }
      rewrite (idx_lookup _ _ _ Hi). cbn [exec_bind].
      apply list_elem_of_lookup_2, Hl' in Hi as (b & Hb & Ha).
      destruct (name_lookup record st len name eq_refl i b Hb) as [Hrb Hil].
      rewrite (idx_lookup _ _ _ Hrb). cbn [exec_bind]. rewrite upd_done by lia. cbn [exec_bind].
      destruct (case_facts b Ha) as (Hlow & Hne & _).
      eexists. split; [done|]. split; [split; [done|tauto]|]. intros o [= <-].
      split_and!; [by apply (recased_insert _ _ _ _ _ b); [| | |lia]| |done].
      intros _ E. apply (f_equal (lookup (st + i))) in E.
      rewrite list_lookup_insert_eq, Hrb in E by lia. congruence.
Qed.

(** Case randomization.  [mixed_case_sni] panics exactly where the SNI
    locator does.  It leaves the record alone ([None]) exactly when there is
    no name, or, in the random mode, when the name has no letter.  A record it
    returns differs from the original only inside the name and only in letter
    case; in the random mode at least one byte differs, whatever the
    generator draws, and with [flip_all] every letter is inverted. *)
Theorem mixed_case_only_case m record rng :
  match find_sni_range record with
  | Panic => MixedCaseSni.apply_with_rng m record rng = Panic
  | Done None => MixedCaseSni.apply_with_rng m record rng = Done None
  | Done (Some (st, len)) =>
      let name := take len (drop st record) in
      ∃ r, MixedCaseSni.apply_with_rng m record rng = Done r ∧
        (r = None ↔ MixedCaseSni.flip_all m = false ∧ ¬ has_letter name) ∧
        ∀ out, r = Some out → recased record st (st + len) out ∧
          (MixedCaseSni.flip_all m = false → out ≠ record) ∧
          (MixedCaseSni.flip_all m = true → ∀ i b, name !! i = Some b →
             MixedCaseSni.is_alphabetic b = true →
             out !! (st + i) = Some (MixedCaseSni.swap_ascii_case b))
  end.
Proof. apply mixed_case_spec. Qed.

Lemma mixed_case_only_case_witness :
  find_sni_range (ch_record sample_hello) = Done (Some (75, 3)) ∧
  ∃ r, MixedCaseSni.apply_with_rng (MixedCaseSni.Mk false) (ch_record sample_hello) 5 = Done r ∧
    (r = None ↔ false = false ∧ ¬ has_letter (take 3 (drop 75 (ch_record sample_hello)))).
Proof.
  assert (find_sni_range (ch_record sample_hello) = Done (Some (75, 3))) as E
    by (vm_compute; reflexivity).
  split; [exact E|].
  pose proof (mixed_case_only_case (MixedCaseSni.Mk false) (ch_record sample_hello) 5) as H.
  rewrite E in H. destruct H as (r & H1 & H2 & _). exists r. split; [exact H1|exact H2].
Defined.

(** ** The splitters *)
Section splitters.

Lemma build_record_ser h b : (zlen b < 65536)%Z → TlsRecordSplit.build_record h b = ser_record (h, b).
Proof.
  intros Hb. unfold TlsRecordSplit.build_record, ser_record. cbn [fst snd].
  rewrite as_u16_small; [done|]. unfold is_u16, zlen in *. lia.
Qed.

(** A split of a record with header [h] and body [body], at [cut] of the data. *)
Lemma split_at m h body rest cut :
  length h = 3 → is_bytes h → (zlen body < 65536)%Z →
  TlsRecordSplit.cut_offset m (ser_record (h, body) ++ rest) = Done (Some cut) →
  TlsRecordSplit.split m (ser_record (h, body) ++ rest) =
  Done (if (5 <? cut) && (cut <? 5 + length body)
        then Some (ser_record (h, take (cut - 5) body), ser_record (h, drop (cut - 5) body) ++ rest)
        else None).
Proof.
  intros Hh Hhb Hbody Hcut. unfold TlsRecordSplit.split, try_exec. rewrite Hcut.
  cbn [exec_bind try_opt]. pose proof (zlen_u16 body Hbody) as Hu.
  assert ((ser_record (h, body) ++ rest) !! 3 = Some ((zlen body / 256) mod 256)%Z ∧
          (ser_record (h, body) ++ rest) !! 4 = Some (zlen body mod 256)%Z) as [-> ->].
  { destruct h as [|h0 [|h1 [|h2 [|]]]]; done. }
  cbn [try_opt].
  assert (Z.to_nat (from_be16 ((zlen body / 256) mod 256) (zlen body mod 256)) = length body) as ->.
  { rewrite be16_roundtrip by done. apply zlen_to_nat. }
  assert (length (ser_record (h, body) ++ rest) = 5 + length body + length rest) as Hl
    by (rewrite length_app, length_ser_record by done; done).
  unfold TlsRecordSplit.TLS_RECORD_HEADER_LEN.
  rewrite (proj2 (Nat.ltb_ge _ _)) by lia.
  destruct (Nat.ltb_spec 5 cut); cbn [andb].
  2: { by rewrite (proj2 (Nat.leb_le _ _)) by lia. }
  rewrite (proj2 (Nat.leb_gt cut 5)) by lia. cbn [orb].
  destruct (Nat.ltb_spec cut (5 + length body)).
  2: { by rewrite (proj2 (Nat.leb_le _ _)) by lia. }
  rewrite (proj2 (Nat.leb_gt (5 + length body) cut)) by lia.
  set (b1 := take (cut - 5) body). set (b2 := drop (cut - 5) body).
  assert (body = b1 ++ b2) as Hb by (symmetry; apply take_drop).
  assert (length b1 = cut - 5) as Hb1 by (unfold b1; rewrite length_take; lia).
  assert (length body = length b1 + length b2) as Hb12 by (by rewrite Hb at 1; rewrite length_app).
  assert (ser_record (h, body) ++ rest = h ++ to_be16 (zlen body) ++ b1 ++ b2 ++ rest) as ->.
  { unfold ser_record. cbn [fst snd]. rewrite <- !app_assoc. by rewrite Hb at 2; rewrite <- app_assoc. }
  rewrite (slice_mid [] h (to_be16 (zlen body) ++ b1 ++ b2 ++ rest)) by done. cbn [exec_bind].
  rewrite (slice_mid (h ++ to_be16 (zlen body)) b1 (b2 ++ rest))
    by (rewrite <- ?app_assoc, ?length_app, ?Hh; done || (cbn [length to_be16]; lia)).
  cbn [exec_bind].
  rewrite (slice_mid (h ++ to_be16 (zlen body) ++ b1) b2 rest)
    by (rewrite <- ?app_assoc, ?length_app, ?Hh; done || (cbn [length to_be16]; lia)).
  cbn [exec_bind].
  rewrite (slice_mid (h ++ to_be16 (zlen body) ++ b1 ++ b2) rest [])
    by (rewrite <- ?app_assoc, ?app_nil_r, ?length_app, ?Hh; done || (cbn [length to_be16]; lia)).
  cbn [exec_bind]. rewrite !build_record_ser by (unfold zlen in *; lia). done.
Qed.

(** A payload in which the locator finds a name starts with a complete record
    that holds it. *)
Lemma sni_record_shape data b :
  is_bytes data → find_sni_boundary data = Done (Some b) →
  ∃ h body rest, length h = 3 ∧ is_bytes h ∧ (zlen body < 65536)%Z ∧
    data = ser_record (h, body) ++ rest ∧
    50 < sb_ext_len_field_end b ∧ sb_name_start b = sb_ext_len_field_end b + 5 ∧
    0 < sb_name_len b ∧ sb_name_start b + sb_name_len b ≤ 5 + length body.
Proof.
  intros Hb Hf. pose proof (find_sni_boundary_bounds _ _ Hf) as (B1 & B2 & B3 & _).
  revert Hf. unfold find_sni_boundary.
  destruct (get_range data 0 5) as [hdr|] eqn:Eh; cbn [try_opt]; [|done].
  destruct (idx hdr 0) as [ct|]; cbn [exec_bind]; [|done]. destruct (ct =? 22)%Z; [|done].
  destruct (be16_at hdr 3) as [rl|] eqn:Erl; cbn [exec_bind]; [|done].
  destruct (get_range data 5 _) as [rb|] eqn:Er; cbn [try_opt]; [|done].
  destruct (bool_decide _); [|done].
  destruct (idx rb 1) as [b1|]; cbn [exec_bind]; [|done].
  destruct (idx rb 2) as [b2|]; cbn [exec_bind]; [|done].
  destruct (idx rb 3) as [b3|]; cbn [exec_bind]; [|done].
  destruct (get_range rb 4 _) as [bd|] eqn:Eb; cbn [try_opt]; [|done].
  intros (_ & _ & _ & H4)%sni_in_body_bounds.
  apply get_range_inv in Eb as (_ & Hb' & _ & Hlb).
  apply get_range_inv in Er as (_ & Hr & -> & Hlr).
  apply get_range_inv in Eh as (_ & H5 & -> & _).
  assert (∃ x0 x1 x2 x3 x4 l, data = x0 :: x1 :: x2 :: x3 :: x4 :: l) as (x0 & x1 & x2 & x3 & x4 & l & ->).
  { do 5 (destruct data as [|? data]; [simpl in H5; lia|]). by do 6 eexists. }
  assert (is_bytes [x0; x1; x2] ∧ is_u8 x3 ∧ is_u8 x4) as (Hh & H3 & H4').
  { unfold is_bytes in *. rewrite !Forall_cons in Hb. rewrite !Forall_cons. intuition. }
  change (drop 5 (x0 :: x1 :: x2 :: x3 :: x4 :: l)) with l in *.
  change (be16_at [x0; x1; x2; x3; x4] 3 = Done rl) in Erl. injection Erl as <-.
  pose proof (from_be16_range _ _ H3 H4') as Hu. unfold is_u16 in Hu.
  set (n := Z.to_nat (from_be16 x3 x4)) in *. replace (5 + n - 5) with n in * by lia.
  exists [x0; x1; x2], (take n l), (drop n l).
  assert (zlen (take n l) = from_be16 x3 x4) as Hz
    by (unfold zlen; rewrite length_take; simpl in Hr; unfold n in *; lia).
  split_and!; [done|done|rewrite Hz; lia| |done|done|done|].
  - unfold ser_record. cbn [fst snd]. rewrite Hz, be16_bytes_roundtrip by done.
    cbn. do 5 f_equal. symmetry. apply take_drop.
  - lia.
Qed.
End splitters.

Lemma resolve_split_bounds pt b :
  sb_name_start b = sb_ext_len_field_end b + 5 → 0 < sb_name_len b →
  sb_ext_len_field_end b ≤ resolve_split pt b ≤ sb_name_start b + sb_name_len b ∧
  (match pt with BoundaryIndex _ => False | _ => True end →
   resolve_split pt b < sb_name_start b + sb_name_len b).
Proof.
  intros H1 H2. pose proof (Nat.div_le_upper_bound (sb_name_len b) 2 (sb_name_len b)) as H3.
  pose proof (Nat.div_lt (sb_name_len b) 2).
  destruct pt; cbn [resolve_split]; (split; [lia|]); intros []; lia.
Qed.

(** Cutting at the SNI.  [tls_record_split] and [sni_boundary_frag] fail
    as the locator does.  Where it finds a name, the payload starts with a
    complete record that holds the name; [tls_record_split] replaces that
    record by two of the same type and version whose nonempty bodies are the
    body cut at the split point, bytes behind it unchanged, and
    [sni_boundary_frag] returns the same offset.  Only a split point behind
    the last byte leaves the payload whole, which [extension_length] and
    [middle] never are. *)
Theorem splitters_cut pt d data : is_bytes data →
  match find_sni_boundary data with
  | Panic => TlsRecordSplit.split (TlsRecordSplit.Mk pt d) data = Panic ∧
      SniBoundaryFrag.split_offset (SniBoundaryFrag.Mk pt d) data = Panic
  | Done None => TlsRecordSplit.split (TlsRecordSplit.Mk pt d) data = Done None ∧
      SniBoundaryFrag.split_offset (SniBoundaryFrag.Mk pt d) data = Done None
  | Done (Some b) => ∃ h body rest, let cut := resolve_split pt b in
      data = ser_record (h, body) ++ rest ∧ length h = 3 ∧
      sb_name_start b + sb_name_len b ≤ 5 + length body ∧
      TlsRecordSplit.split (TlsRecordSplit.Mk pt d) data =
        Done (if cut <? 5 + length body
              then Some (ser_record (h, take (cut - 5) body),
                         ser_record (h, drop (cut - 5) body) ++ rest)
              else None) ∧
      SniBoundaryFrag.split_offset (SniBoundaryFrag.Mk pt d) data =
        Done (if cut <? length data then Some cut else None) ∧
      5 < cut ∧ (match pt with BoundaryIndex _ => False | _ => True end → cut < 5 + length body)
  end.
Proof.
  intros Hb. destruct (find_sni_boundary data) as [[b|]|] eqn:Ef.
  - destruct (sni_record_shape data b Hb Ef) as (h & body & rest & Hh & Hhb & Hz & Hd & B1 & B2 & B3 & B4).
    destruct (resolve_split_bounds pt b B2 B3) as [Hr1 Hr2].
    exists h, body, rest. intros cut. fold cut in Hr1, Hr2. split_and!; try done.
    + rewrite Hd, (split_at _ h body rest cut Hh Hhb Hz).
      * by rewrite (proj2 (Nat.ltb_lt 5 cut)) by lia.
      * rewrite <- Hd. unfold TlsRecordSplit.cut_offset, try_exec. by rewrite Ef.
    + unfold SniBoundaryFrag.split_offset, try_exec. rewrite Ef. cbn [exec_bind try_opt].
      cbn [SniBoundaryFrag.split_point]. fold cut. by rewrite (proj2 (Nat.ltb_lt 0 cut)) by lia.
    + lia.
    + intros Hpt. specialize (Hr2 Hpt). lia.
  - unfold TlsRecordSplit.split, TlsRecordSplit.cut_offset, SniBoundaryFrag.split_offset, try_exec.
    by rewrite Ef.
  - unfold TlsRecordSplit.split, TlsRecordSplit.cut_offset, SniBoundaryFrag.split_offset, try_exec.
    by rewrite Ef.
Qed.

Lemma sample_hello_bytes : is_bytes (ch_record sample_hello).
Proof. apply is_bytesb_spec. vm_compute. reflexivity. Qed.

Lemma splitters_cut_witness :
  ∃ b h body rest, find_sni_boundary (ch_record sample_hello) = Done (Some b) ∧
    ch_record sample_hello = ser_record (h, body) ++ rest ∧
    resolve_split BoundaryMiddle b < 5 + length body.
Proof.
  pose proof (splitters_cut BoundaryMiddle (Int32Range_exact 0) _ sample_hello_bytes) as H.
  destruct (find_sni_boundary (ch_record sample_hello)) as [[b|]|] eqn:E.
  - destruct H as (h & body & rest & H1 & _ & _ & _ & _ & _ & H2). exists b, h, body, rest.
    split; [reflexivity|]. split; [exact H1|]. exact (H2 I).
  - exfalso. vm_compute in E. discriminate E.
  - exfalso. vm_compute in E. discriminate E.
Defined.

(** ** Where the transforms panic *)

Lemma build_padded_word record l pad pos out : TlsPadding.build_padded record l pad pos = Done out →
  from_be16 (out !!! 3) (out !!! 4) = as_u16 (Z.of_nat (length record - 5 + (4 + pad))).
Proof.
  unfold TlsPadding.build_padded. cbv zeta.
  destruct (be16_at record _) as [n|]; [|done]. cbn [exec_bind].
  destruct (TlsPadding.hs_length record) as [k|]; [|done]. cbn [exec_bind].
  do 4 (destruct (slice record _ _) as [?|]; [|done]; cbn [exec_bind]).
  match goal with |- blit ?o _ _ _ = _ → _ => generalize o end. intros o.
  unfold blit. destruct (_ && _) eqn:E; [|done]. bool_to_prop. intros [= <-].
  do 3 (destruct o as [|? o]; [simpl in *; lia|]). cbn [take app].
  rewrite take_0. cbn [app]. apply be16_roundtrip, as_u16_range.
Qed.

(** Padding never does, and a padded record is safe to look at. *)
Lemma padded_safe m record seed out :
  TlsPadding.apply m record seed = Done (Some out) → find_sni_boundary out ≠ Panic.
Proof.
  intros H Hp%sni_panic_short. unfold TlsPadding.apply, try_exec in H.
  destruct (TlsPadding.parse_client_hello record) as [[l|]|]; [|done..]. cbn [exec_bind try_opt] in H.
  set (pad := Z.to_nat _) in H. destruct (Nat.eqb_spec pad 0); [done|].
  destruct (TlsPadding.build_padded _ _ _ _) as [o|] eqn:Eb; [|done].
  injection H as ->. rewrite (build_padded_word _ _ _ _ _ Eb) in Hp.
  assert (pad <= TlsPadding.MAX_TLS_RECORD_BODY - (length record - 5 + 4)) as Hmax by lia.
  clearbody pad. unfold TlsPadding.MAX_TLS_RECORD_BODY in Hmax.
  rewrite as_u16_small in Hp; [lia|]. unfold is_u16. lia.
Qed.

Lemma padding_total m record seed : TlsPadding.apply m record seed ≠ Panic.
Proof. destruct (apply_total m record seed) as (r & -> & _). done. Qed.

(** Case randomization panics with the locator, and a recased record is safe. *)
Lemma mixed_panic m record rng :
  MixedCaseSni.apply_with_rng m record rng = Panic → find_sni_boundary record = Panic.
Proof.
  pose proof (mixed_case_spec m record rng) as H. unfold find_sni_range in H.
  destruct (find_sni_boundary record) as [[b|]|]; [|by rewrite H|done].
  destruct H as (r & -> & _). done.
Qed.

Lemma mixed_safe m record rng out :
  MixedCaseSni.apply_with_rng m record rng = Done (Some out) → find_sni_boundary out ≠ Panic.
Proof.
  intros H Hp%sni_panic_short. pose proof (mixed_case_spec m record rng) as Hm.
  unfold find_sni_range in Hm.
  destruct (find_sni_boundary record) as [[b|]|] eqn:Ef; [|rewrite Hm in H; done..].
  destruct Hm as (r & Hr & _ & Ho). rewrite H in Hr. injection Hr as <-.
  destruct (Ho out eq_refl) as ([_ Hs] & _).
  pose proof (find_sni_boundary_bounds _ _ Ef). pose proof (sni_found_word _ _ Ef) as Hw.
  rewrite !list_lookup_total_alt in Hp, Hw. rewrite !Hs in Hp by lia. lia.
Qed.

(** The splitters panic with the locator only. *)
Lemma split_panic m data : TlsRecordSplit.split m data = Panic → find_sni_boundary data = Panic.
Proof.
  unfold TlsRecordSplit.split, TlsRecordSplit.cut_offset, try_exec.
  destruct (find_sni_boundary data) as [[b|]|]; cbn [exec_bind try_opt]; [|done..].
  destruct (data !! 3) as [b3|]; cbn [try_opt]; [|done].
  destruct (data !! 4) as [b4|]; cbn [try_opt]; [|done].
  destruct (Nat.ltb_spec (length data) (TlsRecordSplit.TLS_RECORD_HEADER_LEN + Z.to_nat (from_be16 b3 b4)));
    [done|].
  destruct (_ || _) eqn:Hc; [done|]. unfold TlsRecordSplit.TLS_RECORD_HEADER_LEN in *. bool_to_prop.
  rewrite !slice_done by lia. done.
Qed.

Lemma split_offset_panic m data :
  SniBoundaryFrag.split_offset m data = Panic → find_sni_boundary data = Panic.
Proof.
  unfold SniBoundaryFrag.split_offset, try_exec. by destruct (find_sni_boundary data) as [[b|]|].
Qed.

Lemma split_offset_inside m data k :
  SniBoundaryFrag.split_offset m data = Done (Some k) → 0 < k < length data.
Proof.
  unfold SniBoundaryFrag.split_offset, try_exec.
  destruct (find_sni_boundary data) as [[b|]|]; cbn [exec_bind try_opt]; [|done..].
  destruct (_ && _) eqn:E; [|done]. bool_to_prop. by intros [= <-].
Qed.
