(* ===== verification/Socket.v ===== *)
(** * Sockets: what the socket-side writers send

    Models of the functions that read and write the sockets of one connection:
    [read_one_tls_record], [write_fragmented] and [write_segmented]
    ([crates/zerodpi-core/src/methods/tcp_segmentation.rs]),
    [write_boundary_split] ([sni_boundary_frag.rs]), [write_record_split]
    ([tls_record_split.rs]) and the small writers of
    [crates/zerodpi-core/src/proxy.rs].

    One direction of a connection is a [Sock]: what the reading side will
    still receive, and what has been sent on the writing side.  The operating
    system is seen through it only: reads return the received pieces in order,
    a write succeeds until the connection breaks ([credit]), a sleep is
    recorded.  A write that breaks off may have sent a part of its bytes; the
    record of a broken connection holds the writes that returned.  The seeds
    of the generators, taken from the clock, are an input as well. *)
From stdpp Require Import base list numbers strings.
From Stdlib Require Import ZArith Lia.
From S2P Require Import Prelude Text NetAddr Flow Sni Config Methods DataMethods.
From S2P Require Import SocketMethods.

(** ** Effects *)
Inductive Recv :=
  | Bytes (l : list Z)   (* a nonempty piece of the stream *)
  | RecvErr              (* the read fails *)
  | Stall.               (* nothing more arrives, the stream stays open *)

(** The events the connection handlers report to the dashboard. *)
Inductive RelayEndReason := Completed | MaxLifetime | NetworkError.
Inductive ProxyEvent :=
  | ConnectionAccepted (peer : SocketAddr) (src_port : Z) (target_ip : IpAddr)
      (target_sni : option string)
  | BypassComplete (src_port : Z) (o : BypassOutcome)
  | RelayFinished (src_port c2s_bytes s2c_bytes : Z) (reason : RelayEndReason)
  | ConnectionError (src_port : Z) (error : string).

(** What a connection task does, in order: on the socket, to the dashboard, to
    the flow controller and to its flow entry. *)
Inductive Effect :=
  | Connect (nodelay : bool)
  | Write (l : list Z) | Flush | Sleep (ms : Z) | Shutdown
  | Emit (e : ProxyEvent)
  | RegisterFlow (k : FlowKey) (fake_data : list Z) (low_ttl : option Z)
  | FinishFlow (o : BypassOutcome) | RemoveFlow (k : FlowKey).

Record Sock := MkSock {
  inbox : list Recv;      (* the end of the list is the end of the stream *)
  trace : list Effect;
  credit : option nat;    (* how many more writes succeed, [None]: all *)
  seeds : list Z }.

Inductive ioresult (A : Type) :=
  | Ret (a : A)
  | Fail (e : string)
  | Blocked               (* waits forever *)
  | Panicked.
Global Arguments Ret {A} _.
Global Arguments Fail {A} _.
Global Arguments Blocked {A}.
Global Arguments Panicked {A}.

Definition io (A : Type) : Type := Sock → ioresult A * Sock.
Definition ret {A} (a : A) : io A := λ s, (Ret a, s).
Definition bail {A} (e : string) : io A := λ s, (Fail e, s).
Definition bind {A B} (m : io A) (k : A → io B) : io B := λ s,
  match m s with
  | (Ret a, s') => k a s'
  | (Fail e, s') => (Fail e, s')
  | (Blocked, s') => (Blocked, s')
  | (Panicked, s') => (Panicked, s')
  end.
(** A computation that may panic, and [assert!]. *)
Definition lift {A} (e : exec A) : io A :=
  match e with Done a => ret a | Panic => λ s, (Panicked, s) end.
Definition io_assert (b : bool) : io () := lift (rassert b (Done ())).

Declare Scope io_scope.
Delimit Scope io_scope with io.
Notation "'let*' x := m 'in' k" := (bind m (λ x, k))
  (at level 10, x pattern, m at level 100, k at level 200) : io_scope.
Notation "m ;;; k" := (bind m (λ _, k)) (at level 100, right associativity) : io_scope.
Open Scope io_scope.

Definition push_back (l : list Z) (rest : list Recv) : list Recv :=
  match l with [] => rest | _ => Bytes l :: rest end.

(** [read(&mut buf)] with a buffer of [cap] bytes; no bytes is the end. *)
Fixpoint recv_some (cap : nat) (ib : list Recv) : ioresult (list Z) * list Recv :=
  match ib with
  | [] => (Ret [], [])
  | Bytes [] :: rest => recv_some cap rest
  | Bytes l :: rest => (Ret (take cap l), push_back (drop cap l) rest)
  | RecvErr :: rest => (Fail "read", rest)
  | Stall :: _ => (Blocked, ib)
  end.
Definition read (cap : nat) : io (list Z) := λ s,
  let '(r, ib) := recv_some cap (inbox s) in (r, MkSock ib (trace s) (credit s) (seeds s)).

(** [read_exact] on a buffer of [n] bytes. *)
Fixpoint recv_exact (n : nat) (ib : list Recv) : ioresult (list Z) * list Recv :=
  match n with
  | O => (Ret [], ib)
  | _ =>
      match ib with
      | [] => (Fail "early eof", [])
      | Bytes l :: rest =>
          if n <=? length l then (Ret (take n l), push_back (drop n l) rest)
          else match recv_exact (n - length l) rest with
               | (Ret l', rest') => (Ret (l ++ l'), rest')
               | r => r
               end
      | RecvErr :: rest => (Fail "read", rest)
      | Stall :: _ => (Blocked, ib)
      end
  end.
Definition read_exact (n : nat) : io (list Z) := λ s,
  let '(r, ib) := recv_exact n (inbox s) in (r, MkSock ib (trace s) (credit s) (seeds s)).

(** One write operation. *)
Definition put (e : Effect) : io () := λ s,
  match credit s with
  | None => (Ret (), MkSock (inbox s) (trace s ++ [e]) None (seeds s))
  | Some (S n) => (Ret (), MkSock (inbox s) (trace s ++ [e]) (Some n) (seeds s))
  | Some O => (Fail "write", s)
  end.
Definition write_all (l : list Z) : io () := put (Write l).
Definition flush : io () := put Flush.
(** An effect that cannot fail. *)
Definition perform (e : Effect) : io () := λ s,
  (Ret (), MkSock (inbox s) (trace s ++ [e]) (credit s) (seeds s)).
Definition sleep (ms : Z) : io () := perform (Sleep ms).

(** The seed of a fresh generator. *)
Definition fresh_seed : io Z := λ s,
  match seeds s with
  | [] => (Ret 0%Z, s)
  | z :: zs => (Ret z, MkSock (inbox s) (trace s) (credit s) zs)
  end.

(** ** Errors and timeouts *)

(** [?] with a context, and [if let Err(e) = m { h; return Err(e).context(..) }]. *)
Definition context {A} (msg : string) (m : io A) : io A := λ s,
  match m s with (Fail _, s') => (Fail msg, s') | r => r end.
Definition on_err {A} (h : io ()) (msg : string) (m : io A) : io A := λ s,
  match m s with (Fail _, s') => (h;;; bail msg) s' | r => r end.

(** [tokio::time::timeout] around a read. *)
Definition timeout {A} (m : io A) : io (option A) := λ s,
  match m s with
  | (Ret a, s') => (Ret (Some a), s')
  | (Fail e, s') => (Fail e, s')
  | (Blocked, s') => (Ret None, s')
  | (Panicked, s') => (Panicked, s')
  end.

(** ** Readers *)
Definition MAX_TLS_RECORD_BODY : nat := Z.to_nat 16384.

Definition read_one_tls_record : io (list Z) :=
  let* header := read_exact 5 in
  let* body_len := lift (be16_at header 3) in
  if MAX_TLS_RECORD_BODY <? body_len then bail "TLS record body length exceeds maximum" else
  let* body := read_exact body_len in
  ret (header ++ body).

Definition READ_BUFFER : nat := Z.to_nat (64 * 1024).

Definition read_one_client_write : io (list Z) :=
  let* buf := read READ_BUFFER in
  match buf with
  | [] => bail "client closed before sending data"
  | _ => ret buf
  end.

(** ** Writers *)
(** [sample_usize] and [sample_u64] *)
Definition sample_u (range : Int32Range) (rng : Z) : Z * Z :=
  let '(rng, v) := sample_i32 range rng in (rng, as_u64 v).

(** The loop over the bytes not yet sent.  A chunk of no bytes would repeat
    forever; with a positive length range every chunk takes a byte, so
    [length data] iterations are enough ([fragment_chunks_spec]). *)
Fixpoint fragment_chunks (fuel : nat) (data : list Z) (length_range interval_ms : Int32Range)
    (rng : Z) : io () :=
  match data with
  | [] => ret ()
  | _ =>
      match fuel with
      | O => λ s, (Blocked, s)
      | S fuel' =>
          let '(rng, n) := sample_u length_range rng in
          let chunk_len := Z.to_nat (Z.min n (Z.of_nat (length data))) in
          write_all (take chunk_len data);;;
          flush;;;
          let data := drop chunk_len data in
          match data with
          | [] => ret ()
          | _ =>
              let '(rng, delay_ms) := sample_u interval_ms rng in
              (if (0 <? delay_ms)%Z then sleep delay_ms else ret ());;;
              fragment_chunks fuel' data length_range interval_ms rng
          end
      end
  end.

Definition write_fragmented (data : list Z) (length_range interval_ms : Int32Range) : io () :=
  io_assert (1 <=? r_min length_range)%Z;;;
  io_assert (0 <=? r_min interval_ms)%Z;;;
  let* rng := fresh_seed in
  fragment_chunks (length data) data length_range interval_ms rng.

Definition write_segmented (data : list Z) (seg_size : Z) : io () :=
  io_assert (0 <? seg_size)%Z;;;
  if (i32_max <? seg_size)%Z then bail "seg_size exceeds i32::MAX" else
  write_fragmented data (Int32Range_exact seg_size) (Int32Range_exact 0).

(** The delay between the two parts of a split: [sample_i32(..).max(0)]. *)
Definition split_pause (delay_ms : Int32Range) : io () :=
  let* rng := fresh_seed in
  let ms := Z.max (snd (sample_i32 delay_ms rng)) 0 in
  if (0 <? ms)%Z then sleep ms else ret ().

Definition write_record_split (first second : list Z) (delay_ms : Int32Range) : io () :=
  io_assert (0 <=? r_min delay_ms)%Z;;;
  write_all first;;; flush;;;
  split_pause delay_ms;;;
  write_all second;;; flush.

Definition write_boundary_split (data : list Z) (split : nat) (delay_ms : Int32Range) : io () :=
  io_assert ((0 <? split) && (split <? length data));;;
  io_assert (0 <=? r_min delay_ms)%Z;;;
  write_all (take split data);;; flush;;;
  split_pause delay_ms;;;
  write_all (drop split data);;; flush.

Definition write_and_flush (data : list Z) : io () := write_all data;;; flush.

(** [TcpSegmentation] *)
Record TcpSegmentation := MkTcpSegmentation {
  packets : TlsFragPackets; seg_length : Int32Range; interval_ms : Int32Range; nodelay : bool }.
Definition TcpSegmentation_new (cfg : Config) : exec TcpSegmentation :=
  match tls_frag_packets cfg, tls_frag_length_range cfg with
  | Ok p, Ok l => Done (MkTcpSegmentation p l cfg.(TLS_FRAG_INTERVAL_MS) cfg.(TCP_SEG_NODELAY))
  | _, _ => Panic
  end.
Definition fragments_write (t : TcpSegmentation) (write_index : Z) : bool :=
  includes_write (packets t) write_index.

Definition write_client_data (data : list Z) (t : TcpSegmentation) (write_index : Z) : io () :=
  if fragments_write t write_index then write_fragmented data (seg_length t) (interval_ms t)
  else write_and_flush data.

Definition write_ccs_prefix (ccs : CcsPrefix.t) : io () := write_and_flush (CcsPrefix.record ccs).

(** ** What was sent *)
Definition sent_bytes (evs : list Effect) : list Z :=
  concat (map (λ e, match e with Write l => l | _ => [] end) evs).

(** The bytes still to be received, up to the first failure or stall. *)
Fixpoint received (ib : list Recv) : list Z :=
  match ib with
  | Bytes l :: rest => l ++ received rest
  | _ => []
  end.

Definition sock_of (ib : list Recv) (zs : list Z) : Sock := MkSock ib [] None zs.

Example fragmented_sample :
  trace (snd (write_fragmented [1; 2; 3; 4; 5]%Z (MkInt32Range 1 2) (MkInt32Range 0 3)
    (sock_of [] [7]%Z))) = [Write [1; 2]; Flush; Write [3]; Flush; Sleep 3; Write [4]; Flush; Sleep 1;
    Write [5]; Flush]%Z.
Proof. vm_compute. reflexivity. Qed.

Example record_across_pieces :
  fst (read_one_tls_record (sock_of [Bytes [22; 3]; Bytes [1; 0; 2; 9]; Bytes [8; 7]]%Z []))
  = Ret [22; 3; 1; 0; 2; 9; 8]%Z.
Proof. vm_compute. reflexivity. Qed.

(** ** Writers

    [Writes m data]: [m] reads nothing, never waits for ever or panics, has no
    effect but on the socket, and sends exactly [data]; if the connection
    breaks it fails, having sent a prefix.  Sequencing concatenates, so the writers are proved by composing
    instances. *)
Definition quiet_effect (e : Effect) : Prop :=
  match e with Write _ | Flush | Sleep _ | Shutdown => True | _ => False end.
Definition quiet (evs : list Effect) : Prop := Forall quiet_effect evs.

Lemma quiet_nil : quiet [].
Proof. apply Forall_nil_2. Qed.
Lemma quiet_app e1 e2 : quiet e1 → quiet e2 → quiet (e1 ++ e2).
Proof. apply Forall_app_2. Qed.
#[export] Hint Resolve quiet_nil quiet_app : core.

Class Writes (m : io ()) (data : list Z) : Prop := writes_spec :
  ∀ s, ∃ r s' evs, m s = (r, s') ∧ inbox s' = inbox s ∧ trace s' = trace s ++ evs ∧
    quiet evs ∧ (credit s = None → credit s' = None) ∧
    (r = Ret () ∧ sent_bytes evs = data ∨
     r = Fail "write" ∧ credit s ≠ None ∧ sent_bytes evs `prefix_of` data).

Lemma sent_bytes_app e1 e2 : sent_bytes (e1 ++ e2) = sent_bytes e1 ++ sent_bytes e2.
Proof. unfold sent_bytes. by rewrite map_app, concat_app. Qed.

#[export] Instance ret_writes : Writes (ret ()) [].
Proof. intros s. exists (Ret ()), s, []. rewrite app_nil_r. split_and!; auto. Qed.

Lemma put_spec e s : ∃ r s' evs, put e s = (r, s') ∧ inbox s' = inbox s ∧ trace s' = trace s ++ evs ∧
  (credit s = None → credit s' = None) ∧
  (r = Ret () ∧ evs = [e] ∨ r = Fail "write" ∧ credit s ≠ None ∧ evs = []).
Proof.
  unfold put. destruct (credit s) as [[|n]|] eqn:E.
  - exists (Fail "write"), s, []. rewrite app_nil_r. split_and!; try done. by right.
  - eexists _, _, [e]. split_and!; [done..|by left].
  - eexists _, _, [e]. split_and!; [done..|by left].
Qed.

#[export] Instance write_all_writes l : Writes (write_all l) l.
Proof.
  intros s. destruct (put_spec (Write l) s) as (r & s' & evs & H & Hi & Hs & Hc & Hr).
  exists r, s', evs. split; [done|]. split; [done|]. split; [done|].
  destruct Hr as [[-> ->]|(-> & ? & ->)]; (split; [by repeat constructor|]); (split; [done|]).
  - left. split; [done|apply app_nil_r].
  - right. split_and!; [done..|apply prefix_nil].
Qed.
#[export] Instance flush_writes : Writes flush [].
Proof.
  intros s. destruct (put_spec Flush s) as (r & s' & evs & H & Hi & Hs & Hc & Hr).
  exists r, s', evs. split; [done|]. split; [done|]. split; [done|].
  destruct Hr as [[-> ->]|(-> & ? & ->)]; (split; [by repeat constructor|]); (split; [done|]).
  - by left.
  - right. split_and!; [done..|apply prefix_nil].
Qed.
#[export] Instance sleep_writes ms : Writes (sleep ms) [].
Proof.
  intros s. eexists _, _, [Sleep ms].
  split_and!; [done|done|done|by repeat constructor|done|by left].
Qed.

#[export] Instance seq_writes m1 m2 d1 d2 :
  Writes m1 d1 → Writes m2 d2 → Writes (m1;;; m2) (d1 ++ d2).
Proof.
  intros H1 H2 s. destruct (H1 s) as (r1 & s1 & e1 & E1 & I1 & S1 & Q1 & C1 & R1).
  unfold bind. rewrite E1. destruct R1 as [[-> B1]|(-> & Hc & B1)].
  - destruct (H2 s1) as (r2 & s2 & e2 & E2 & I2 & S2 & Q2 & C2 & R2).
    exists r2, s2, (e1 ++ e2). rewrite E2, I2, S2, S1, app_assoc. split_and!; auto.
    rewrite sent_bytes_app, B1. destruct R2 as [[-> ->]|(-> & Hc2 & B2)]; [by left|right].
    split_and!; [done|auto|by apply prefix_app].
  - exists (Fail "write"), s1, e1. split_and!; auto. right. split_and!; [done..|].
    by apply prefix_app_r.
Qed.

Lemma seed_writes (k : Z → io ()) d : (∀ z, Writes (k z) d) → Writes (bind fresh_seed k) d.
Proof.
  intros Hk s. unfold bind, fresh_seed. destruct (seeds s) as [|z zs].
  - apply Hk.
  - destruct (Hk z (MkSock (inbox s) (trace s) (credit s) zs)) as (r & s' & e & H). by exists r, s', e.
Qed.

Lemma assert_writes b m d : b = true → Writes m d → Writes (io_assert b;;; m) d.
Proof. intros -> Hm s. apply (Hm s). Qed.

Lemma writes_eq m d d' : Writes m d → d = d' → Writes m d'.
Proof. by intros ? <-. Qed.

#[export] Instance split_pause_writes d : Writes (split_pause d) [].
Proof. apply seed_writes. intros z. cbv zeta. case_match; apply _. Qed.

#[export] Instance write_and_flush_writes l : Writes (write_and_flush l) l.
Proof. eapply writes_eq; [apply _|apply app_nil_r]. Qed.

Lemma write_record_split_writes f s d : (0 ≤ r_min d)%Z → Writes (write_record_split f s d) (f ++ s).
Proof.
  intros Hd. apply assert_writes; [by apply Z.leb_le|].
  eapply writes_eq; [apply _|]. cbn [app]. by rewrite ?app_nil_r.
Qed.

Lemma write_boundary_split_writes data k d : (0 ≤ r_min d)%Z → 0 < k < length data →
  Writes (write_boundary_split data k d) data.
Proof.
  intros Hd Hk. apply assert_writes.
  { apply andb_true_iff. split; apply Nat.ltb_lt; lia. }
  apply assert_writes; [by apply Z.leb_le|].
  eapply writes_eq; [apply _|]. cbn [app]. rewrite ?app_nil_r. apply take_drop.
Qed.

(** ** Fragments *)
Section fragments.
Context (lr ir : Int32Range).
Hypothesis Hlr : range_wf lr.
Hypothesis Hir : range_wf ir.
Hypothesis Hlr1 : (1 ≤ r_min lr)%Z.
Hypothesis Hir0 : (0 ≤ r_min ir)%Z.

Lemma sample_u_range r rng : range_wf r → (0 ≤ r_min r)%Z →
  (r_min r ≤ snd (sample_u r rng) ≤ r_max r)%Z.
Proof.
  intros Hr H0. unfold sample_u. pose proof (sample_i32_range r rng Hr) as Hs.
  destruct (sample_i32 r rng) as [g v]. cbn [snd] in *.
  destruct Hr as (_ & _ & Hm). unfold i32_max in Hm.
  unfold as_u64. rewrite Z.mod_small; [done|]. lia.
Qed.

(** The pause between two chunks: nothing, or a sleep within the range. *)
Definition pause_ok (pause : list Effect) : Prop :=
  pause = [] ∧ r_min ir = 0%Z ∨
  ∃ ms, pause = [Sleep ms] ∧ (0 < ms)%Z ∧ (r_min ir ≤ ms ≤ r_max ir)%Z.

(** [data] sent in flushed chunks of sizes in the range, the last one holding
    what is left, with a pause between two chunks and none after the last. *)
Inductive fragments : list Z → list Effect → Prop :=
  | fr_last (l : list Z) : l ≠ [] → (Z.of_nat (length l) ≤ r_max lr)%Z → fragments l [Write l; Flush]
  | fr_more (l1 l2 : list Z) pause evs :
      (r_min lr ≤ Z.of_nat (length l1) ≤ r_max lr)%Z → l2 ≠ [] → pause_ok pause →
      fragments l2 evs → fragments (l1 ++ l2) (Write l1 :: Flush :: pause ++ evs).

Lemma fragments_bytes data evs : fragments data evs → sent_bytes evs = data.
Proof.
  induction 1 as [l _ _|l1 l2 pause evs _ _ Hp _ IH]; [apply app_nil_r|].
  change (Write l1 :: Flush :: pause ++ evs) with ([Write l1] ++ [Flush] ++ pause ++ evs).
  rewrite !sent_bytes_app, IH. cbn. rewrite app_nil_r. f_equal.
  by destruct Hp as [[-> _]|(ms & -> & _)].
Qed.

(** The chunk [fragment_chunks] cuts off. *)
Lemma chunk_facts (data : list Z) rng : data ≠ [] →
  let n := Z.to_nat (Z.min (snd (sample_u lr rng)) (Z.of_nat (length data))) in
  0 < n ≤ length data ∧ (Z.of_nat (length (take n data)) ≤ r_max lr)%Z ∧
  (drop n data ≠ [] → (r_min lr ≤ Z.of_nat (length (take n data)))%Z).
Proof.
  intros Hd n. pose proof (sample_u_range lr rng Hlr ltac:(lia)) as Hs.
  assert (0 < length data) by (destruct data; [done|simpl; lia]).
  rewrite length_take. split; [lia|]. split; [lia|]. intros Hdrop.
  assert (n < length data); [|lia].
  destruct (le_lt_dec (length data) n) as [Hle|]; [|done].
  by rewrite drop_ge in Hdrop by done.
Qed.

Lemma fragment_chunks_writes fuel (data : list Z) rng : length data ≤ fuel →
  Writes (fragment_chunks fuel data lr ir rng) data.
Proof.
  revert data rng. induction fuel as [|fuel IH]; intros data rng Hf.
  - destruct data; [apply _|simpl in Hf; lia].
  - cbn [fragment_chunks]. destruct data as [|x data']; [apply _|].
    set (data := x :: data') in *. pose proof (chunk_facts data rng ltac:(done)) as (Hn & _ & _).
    cbv zeta in Hn. destruct (sample_u lr rng) as [rng1 v]. cbn [snd] in Hn.
    set (n := Z.to_nat (Z.min v (Z.of_nat (length data)))) in *.
    apply (writes_eq _ (take n data ++ [] ++ drop n data)); [|apply take_drop].
    apply seq_writes; [apply _|]. apply seq_writes; [apply _|]. cbv zeta.
    destruct (drop n data) as [|y rest] eqn:Ed; [apply _|].
    destruct (sample_u ir rng1) as [rng2 ms].
    apply (writes_eq _ ([] ++ y :: rest)); [|done]. apply seq_writes; [case_match; apply _|].
    apply IH. rewrite <- Ed, length_drop. lia.
Qed.

Lemma fragment_chunks_shape fuel (data : list Z) rng s : length data ≤ fuel → data ≠ [] → credit s = None →
  ∃ s' evs, fragment_chunks fuel data lr ir rng s = (Ret (), s') ∧ trace s' = trace s ++ evs ∧
    fragments data evs.
Proof.
  revert data rng s. induction fuel as [|fuel IH]; intros data rng s Hf Hne Hc.
  - destruct data; [done|simpl in Hf; lia].
  - cbn [fragment_chunks]. destruct data as [|x data']; [done|].
    set (data := x :: data') in *. pose proof (chunk_facts data rng Hne) as (Hn & Hmax & Hmin).
    cbv zeta in Hn, Hmax, Hmin. destruct (sample_u lr rng) as [rng1 v]. cbn [snd] in *.
    set (n := Z.to_nat (Z.min v (Z.of_nat (length data)))) in *.
    cbv zeta. unfold bind at 1, write_all, put. rewrite Hc. unfold bind at 1, flush, put.
    cbn [credit inbox trace seeds].
    destruct (drop n data) as [|y rest] eqn:Ed.
    + eexists _, [Write (take n data); Flush]. split; [done|]. cbn [trace].
      rewrite <- app_assoc. split; [done|]. rewrite <- (take_drop n data) at 1. rewrite Ed, app_nil_r.
      apply fr_last; [|done]. unfold data. destruct n; [lia|done].
    + pose proof (sample_u_range ir rng1 Hir Hir0) as Hms.
      destruct (sample_u ir rng1) as [rng2 ms]. cbn [snd] in Hms.
      assert (∃ pause, pause_ok pause ∧ ∀ s0, credit s0 = None → ∃ s1,
        (if (0 <? ms)%Z then sleep ms else ret ()) s0 = (Ret (), s1) ∧
        trace s1 = trace s0 ++ pause ∧ credit s1 = None) as (pause & Hp & Hpause).
      { destruct (Z.ltb_spec 0 ms).
        - exists [Sleep ms]. split; [right; by exists ms|]. intros s0 H0.
          eexists. by split_and!.
        - exists []. split; [left; split; [done|lia]|]. intros s0 H0. exists s0.
          by rewrite app_nil_r. }
      unfold bind at 1.
      destruct (Hpause (MkSock (inbox s) ((trace s ++ [Write (take n data)]) ++ [Flush]) None (seeds s)))
        as (s1 & -> & Hs1 & Hc1); [done|].
      destruct (IH (y :: rest) rng2 s1) as (s' & evs & -> & Hs' & Hfr); [|done..|].
      { rewrite <- Ed, length_drop. lia. }
      exists s', (Write (take n data) :: Flush :: pause ++ evs). split; [done|].
      rewrite Hs', Hs1. cbn [trace]. rewrite <- !app_assoc. split; [done|].
      rewrite <- (take_drop n data) at 1. rewrite Ed. apply fr_more; [|done..].
      split; [by apply Hmin|done].
Qed.
End fragments.

Lemma write_fragmented_writes lr ir data : range_wf lr → range_wf ir → (1 ≤ r_min lr)%Z →
  (0 ≤ r_min ir)%Z → Writes (write_fragmented data lr ir) data.
Proof.
  intros H1 H2 H3 H4. apply assert_writes; [by apply Z.leb_le|].
  apply assert_writes; [by apply Z.leb_le|]. apply seed_writes. intros z.
  by apply fragment_chunks_writes.
Qed.

(** Past its assertions the writer is the loop with a fresh seed. *)
Lemma write_fragmented_run lr ir data s : (1 ≤ r_min lr)%Z → (0 ≤ r_min ir)%Z →
  ∃ z s0, write_fragmented data lr ir s = fragment_chunks (length data) data lr ir z s0 ∧
    trace s0 = trace s ∧ credit s0 = credit s.
Proof.
  intros H3 H4. unfold write_fragmented.
  rewrite (proj2 (Z.leb_le _ _) H3), (proj2 (Z.leb_le _ _) H4).
  change (io_assert true) with (ret ()). unfold bind at 1 2, ret at 1 2, bind, fresh_seed.
  destruct (seeds s) as [|z zs]; [by exists 0%Z, s|].
  by exists z, (MkSock (inbox s) (trace s) (credit s) zs).
Qed.

(** Fragmented writes.  With valid ranges [write_fragmented] ends, reads
    nothing and sends exactly the data; if the connection breaks it fails and
    has sent a prefix.  On a connection that holds, the data leaves in flushed
    chunks of sampled sizes, all within the length range but a shorter last
    one, with a sampled pause between two chunks and none after the last. *)
Theorem write_fragmented_chunks lr ir data s :
  range_wf lr → range_wf ir → (1 ≤ r_min lr)%Z → (0 ≤ r_min ir)%Z →
  Writes (write_fragmented data lr ir) data ∧
  (credit s = None → ∃ s' evs,
    write_fragmented data lr ir s = (Ret (), s') ∧ inbox s' = inbox s ∧
    trace s' = trace s ++ evs ∧ sent_bytes evs = data ∧
    (data = [] ∧ evs = [] ∨ fragments lr ir data evs)).
Proof.
  intros H1 H2 H3 H4. pose proof (write_fragmented_writes lr ir data H1 H2 H3 H4) as HW.
  split; [done|]. intros Hc.
  destruct (HW s) as (r & s' & evs & E & Hi & Hs & _ & _ & [[-> Hb]|(_ & Hn & _)]); [|done].
  exists s', evs. split_and!; [done..|].
  destruct (write_fragmented_run lr ir data s H3 H4) as (z & s0 & Hrun & Hs0 & Hc0).
  rewrite Hrun in E. rewrite <- Hs0 in Hs. rewrite <- Hc0 in Hc.
  destruct data as [|x data']; [left|right].
  - injection E as <-. rewrite <- (app_nil_r (trace s0)) in Hs at 1.
    by apply app_inv_head in Hs.
  - destruct (fragment_chunks_shape lr ir H1 H2 H3 H4 (length (x :: data')) (x :: data') z s0)
      as (s1 & e1 & E1 & Hs1 & Hf); [done..|].
    rewrite E1 in E. injection E as <-. rewrite Hs1 in Hs. by apply app_inv_head in Hs as <-.
Qed.

Lemma write_fragmented_chunks_witness :
  ∃ s' evs, write_fragmented [1; 2; 3; 4; 5]%Z (MkInt32Range 1 2) (MkInt32Range 0 3)
      (sock_of [] [7]%Z) = (Ret (), s') ∧
    sent_bytes evs = [1; 2; 3; 4; 5]%Z ∧
    ([1; 2; 3; 4; 5]%Z = [] ∧ evs = [] ∨
     fragments (MkInt32Range 1 2) (MkInt32Range 0 3) [1; 2; 3; 4; 5]%Z evs).
Proof.
  destruct (write_fragmented_chunks (MkInt32Range 1 2) (MkInt32Range 0 3) [1; 2; 3; 4; 5]%Z
    (sock_of [] [7]%Z)) as [_ H]; [by vm_compute..|].
  destruct (H eq_refl) as (s' & evs & H1 & _ & _ & H2 & H3). exists s', evs.
  split; [exact H1|]. split; [exact H2|exact H3].
Defined.
