(* ===== verification/SocketLogic.v ===== *)
(** * Reasoning about socket programs

    A small program logic for the socket monad of [Socket]: [wp m s Φ Ξ] says
    what [m] has done to the socket when it returns ([Φ]) and when it stops
    without returning ([Ξ]), with one rule per construct, the rule for
    [Writes] programs among them. *)
From stdpp Require Import base list numbers strings.
From Stdlib Require Import ZArith Lia.
From S2P Require Import Prelude Text NetAddr Flow Sni Config Methods SocketMethods Socket.

(** ** Reading *)
Lemma received_push_back l rest : received (push_back l rest) = l ++ received rest.
Proof. by destruct l. Qed.

Lemma recv_exact_received n ib r ib' : recv_exact n ib = (r, ib') →
  match r with
  | Ret l => length l = n ∧ received ib = l ++ received ib'
  | Panicked => False
  | _ => True
  end.
Proof.
  revert n r ib'. induction ib as [|[b| |] rest IH]; intros [|n] r ib'; cbn [recv_exact].
  1-3,5-8: by intros [= <- <-].
  case_match eqn:Hn; [apply Nat.leb_le in Hn|apply Nat.leb_gt in Hn].
  - intros [= <- <-]. rewrite received_push_back, length_take. cbn [received].
    split; [lia|]. by rewrite app_assoc, take_drop.
  - destruct (recv_exact (S n - length b) rest) as [r1 ib1] eqn:E. specialize (IH _ _ _ E).
    destruct r1 as [l1| | |]; intros [= <- <-]; [|done..].
    destruct IH as [IH1 IH2]. rewrite length_app. cbn [received]. split; [lia|].
    by rewrite IH2, app_assoc.
Qed.

Lemma READ_BUFFER_pos : 0 < READ_BUFFER.
Proof. unfold READ_BUFFER. lia. Qed.

(** What a read takes is what the stream loses; no bytes is its end. *)
Lemma recv_some_received cap ib l ib' : 0 < cap → recv_some cap ib = (Ret l, ib') →
  received ib = l ++ received ib' ∧ (l = [] → received ib' = []).
Proof.
  intros Hcap. induction ib as [|[[|x b]| |] rest IH]; cbn [recv_some]; try done.
  - by intros [= <- <-].
  - intros [= <- <-]. cbn [received]. split; [|by destruct cap; [lia|]].
    rewrite <- (take_drop cap (x :: b)) at 1. rewrite <- app_assoc. f_equal.
    unfold push_back. by destruct (drop cap (x :: b)).
Qed.

Lemma recv_some_no_panic cap ib : fst (recv_some cap ib) ≠ Panicked.
Proof. by induction ib as [|[[|x b]| |] rest IH]. Qed.

Lemma read_cases s : ∃ r s', read READ_BUFFER s = (r, s') ∧ trace s' = trace s ∧ r ≠ Panicked ∧
  ∀ l, r = Ret l → received (inbox s) = l ++ received (inbox s') ∧ (l = [] → received (inbox s') = []).
Proof.
  unfold read. pose proof (recv_some_no_panic READ_BUFFER (inbox s)).
  destruct (recv_some READ_BUFFER (inbox s)) as [r ib] eqn:E.
  eexists _, _. split_and!; [done..|]. intros l ->. by apply (recv_some_received READ_BUFFER); [apply READ_BUFFER_pos|].
Qed.

(** ** The logic *)
Section wp.
(** What a failing handler does last, whether waiting for ever is allowed, and
    when a panic is. *)
Context (fin : list Effect) (blk panic : Prop).

Definition wp {A} (m : io A) (s : Sock) (Φ : A → Sock → list Effect → Prop)
    (Ξ : list Effect → Prop) : Prop :=
  ∃ r s' evs, m s = (r, s') ∧
    match r with
    | Ret a => trace s' = trace s ++ evs ∧ quiet evs ∧ Φ a s' evs
    | Fail _ => trace s' = trace s ++ evs ++ fin ∧ quiet evs ∧ Ξ evs
    | Blocked => trace s' = trace s ++ evs ∧ quiet evs ∧ blk ∧ Ξ evs
    | Panicked => trace s' = trace s ++ evs ∧ quiet evs ∧ panic ∧ Ξ evs
    end.

Lemma wp_mono {A} (m : io A) s (Φ Φ' : A → Sock → list Effect → Prop) (Ξ Ξ' : list Effect → Prop) :
  wp m s Φ Ξ → (∀ a s' e, Φ a s' e → Φ' a s' e) → (∀ e, Ξ e → Ξ' e) → wp m s Φ' Ξ'.
Proof.
  intros (r & s' & evs & E & H) HΦ HΞ. exists r, s', evs. split; [done|]. destruct r; naive_solver.
Qed.

Lemma wp_ret {A} (a : A) s (Φ : A → Sock → list Effect → Prop) Ξ : Φ a s [] → wp (ret a) s Φ Ξ.
Proof. intros H. exists (Ret a), s, []. by rewrite app_nil_r. Qed.

Lemma wp_bind {A B} (m : io A) (k : A → io B) s (Φ : B → Sock → list Effect → Prop) Ξ :
  wp m s (λ a s1 e1, wp (k a) s1 (λ b s2 e2, Φ b s2 (e1 ++ e2)) (λ e2, Ξ (e1 ++ e2))) Ξ →
  wp (bind m k) s Φ Ξ.
Proof.
  intros (r & s1 & e1 & E & H). unfold wp, bind. rewrite E. destruct r as [a|x| |].
  - destruct H as (T1 & Q1 & r2 & s2 & e2 & E2 & H2).
    exists r2, s2, (e1 ++ e2). split; [done|].
    destruct r2; destruct H2 as (T2 & Q2 & H2); rewrite T2, T1, <- !app_assoc; auto.
  - by exists (Fail x), s1, e1.
  - by exists Blocked, s1, e1.
  - by exists Panicked, s1, e1.
Qed.

Lemma wp_assoc {A B C} (m : io A) (k : A → io B) (h : B → io C) s Φ Ξ :
  wp (let* b := bind m k in h b) s Φ Ξ → wp (let* a := m in let* b := k a in h b) s Φ Ξ.
Proof. unfold wp, bind. by destruct (m s) as [[a|x| |] s1]. Qed.

Lemma wp_lift {A} (x : exec A) s (Φ : A → Sock → list Effect → Prop) (Ξ : list Effect → Prop) :
  (x = Panic → panic ∧ Ξ []) → (∀ a, x = Done a → Φ a s []) → wp (lift x) s Φ Ξ.
Proof.
  intros Hp Hd. destruct x as [a|]; [by apply wp_ret, Hd|]. destruct (Hp eq_refl).
  exists Panicked, s, []. rewrite app_nil_r. split_and!; auto.
Qed.

Lemma wp_fresh_seed s (Φ : Z → Sock → list Effect → Prop) Ξ :
  (∀ z s', inbox s' = inbox s → Φ z s' []) → wp fresh_seed s Φ Ξ.
Proof.
  intros H. unfold wp, fresh_seed. destruct (seeds s) as [|z zs].
  - exists (Ret 0%Z), s, []. rewrite app_nil_r. split_and!; auto.
  - eexists (Ret z), _, []. split; [done|]. rewrite app_nil_r. split_and!; auto.
Qed.

Lemma wp_context {A} msg (m : io A) s Φ Ξ : wp m s Φ Ξ → wp (context msg m) s Φ Ξ.
Proof.
  intros (r & s1 & e1 & E & H). unfold wp, context. rewrite E.
  destruct r as [a|x| |]; [by exists (Ret a), s1, e1|by eexists (Fail msg), s1, e1| |].
  - by exists Blocked, s1, e1.
  - by exists Panicked, s1, e1.
Qed.
End wp.

(** Programs that only write, as long as nothing special is done on failure. *)
Lemma wp_writes blk panic m d s (Φ : () → Sock → list Effect → Prop) (Ξ : list Effect → Prop) :
  Writes m d → (∀ s' e, inbox s' = inbox s → sent_bytes e = d → Φ () s' e) →
  (∀ e, sent_bytes e `prefix_of` d → Ξ e) → wp [] blk panic m s Φ Ξ.
Proof.
  intros Hm HΦ HΞ. destruct (Hm s) as (r & s' & evs & E & Hi & Ht & Hq & _ & H).
  exists r, s', evs. split; [done|].
  destruct H as [[-> H]|(-> & _ & H)]; [auto|]. rewrite app_nil_r. auto.
Qed.

(** The error handler of the interceptor path adds its effects. *)
Lemma wp_on_err {A} fin (h : io ()) blk panic msg (m : io A) s Φ Ξ :
  (∀ s, ∃ s', h s = (Ret (), s') ∧ trace s' = trace s ++ fin) →
  wp [] blk panic m s Φ Ξ → wp fin blk panic (on_err h msg m) s Φ Ξ.
Proof.
  intros Hh (r & s1 & e1 & E & H). unfold wp, on_err. rewrite E. destruct r as [a|x| |].
  - by exists (Ret a), s1, e1.
  - destruct H as (T & Q & X). unfold bind at 1. destruct (Hh s1) as (s2 & -> & T2).
    exists (Fail msg), s2, e1. split; [done|]. by rewrite T2, T, app_nil_r, <- app_assoc.
  - by exists Blocked, s1, e1.
  - by exists Panicked, s1, e1.
Qed.

(** A record from the client: five bytes of header and the body they announce. *)
Definition is_record (record : list Z) : Prop :=
  ∃ b3 b4, record !! 3 = Some b3 ∧ record !! 4 = Some b4 ∧
    length record = 5 + Z.to_nat (from_be16 b3 b4).

Lemma read_exact_cases n s : ∃ r s', read_exact n s = (r, s') ∧ trace s' = trace s ∧ r ≠ Panicked ∧
  ∀ l, r = Ret l → length l = n ∧ received (inbox s) = l ++ received (inbox s').
Proof.
  unfold read_exact. destruct (recv_exact n (inbox s)) as [r ib] eqn:E.
  pose proof (recv_exact_received _ _ _ _ E) as H.
  eexists _, _. split; [done|]. split; [done|]. split; [by intros ->|]. by intros l ->.
Qed.

Lemma wp_read_exact fin panic n s (Φ : list Z → Sock → list Effect → Prop) (Ξ : list Effect → Prop) :
  fin = [] →
  (∀ l s', length l = n → received (inbox s) = l ++ received (inbox s') → Φ l s' []) → Ξ [] →
  wp fin True panic (read_exact n) s Φ Ξ.
Proof.
  intros -> HΦ HΞ. destruct (read_exact_cases n s) as (r & s' & E & T & Hp & Hr).
  exists r, s', []. split; [done|]. rewrite !app_nil_r.
  destruct r as [l| | |]; [|by auto..|done]. destruct (Hr l eq_refl). auto.
Qed.

Lemma wp_bail_nil blk panic {A} msg s (Φ : A → Sock → list Effect → Prop) (Ξ : list Effect → Prop) :
  Ξ [] → wp [] blk panic (bail msg) s Φ Ξ.
Proof. intros H. exists (Fail msg), s, []. rewrite !app_nil_r. auto. Qed.

Lemma wp_read_record panic s (Φ : list Z → Sock → list Effect → Prop) (Ξ : list Effect → Prop) :
  (∀ rec s', is_record rec → received (inbox s) = rec ++ received (inbox s') → Φ rec s' []) →
  Ξ [] → wp [] True panic read_one_tls_record s Φ Ξ.
Proof.
  intros HΦ HΞ. apply wp_bind, wp_read_exact; [done| |done]. intros header s1 Hh H1.
  do 5 (destruct header as [|? header]; [done|]). destruct header; [|done].
  apply wp_bind, wp_lift; [by intros [=]|]. intros n [= <-].
  case_match; [by apply wp_bail_nil|].
  apply wp_bind, wp_read_exact; [done| |done]. intros body s2 Hb H2. apply wp_ret. apply HΦ.
  - eexists _, _. split; [reflexivity|]. split; [reflexivity|]. rewrite length_app, Hb. done.
  - by rewrite H1, H2, app_assoc.
Qed.

Lemma wp_read_client_write panic s (Φ : list Z → Sock → list Effect → Prop) (Ξ : list Effect → Prop) :
  (∀ data s', received (inbox s) = data ++ received (inbox s') → Φ data s' []) →
  Ξ [] → wp [] True panic read_one_client_write s Φ Ξ.
Proof.
  intros HΦ HΞ. apply wp_bind. destruct (read_cases s) as (r & s' & E & T & Hp & Hr).
  exists r, s', []. split; [done|]. rewrite !app_nil_r. destruct r as [l| | |]; [|by auto..|done].
  split_and!; [done|auto|]. destruct (Hr l eq_refl) as [Hrec _].
  destruct l; [by apply wp_bail_nil|]. apply wp_ret. by apply HΦ.
Qed.

Lemma wp_timeout {A} blk panic (m : io A) s (Φ : option A → Sock → list Effect → Prop)
    (Ξ : list Effect → Prop) :
  wp [] True panic m s (λ a, Φ (Some a)) Ξ → (∀ s' e, Ξ e → Φ None s' e) →
  wp [] blk panic (timeout m) s Φ Ξ.
Proof.
  intros (r & s1 & e1 & E & H) Hn. unfold wp, timeout. rewrite E. destruct r as [a|x| |].
  - by exists (Ret (Some a)), s1, e1.
  - by exists (Fail x), s1, e1.
  - exists (Ret None), s1, e1. naive_solver.
  - by exists Panicked, s1, e1.
Qed.

(** Ending in the error handler. *)
Lemma wp_stop {A} fin (h : io ()) blk panic msg s (Φ : A → Sock → list Effect → Prop)
    (Ξ : list Effect → Prop) :
  (∀ s, ∃ s', h s = (Ret (), s') ∧ trace s' = trace s ++ fin) → Ξ [] →
  wp fin blk panic (h;;; bail msg) s Φ Ξ.
Proof.
  intros Hh HΞ. destruct (Hh s) as (s' & E & T). exists (Fail msg), s', []. unfold bind. rewrite E.
  split; [done|]. auto.
Qed.
