(* ===== verification/Relay.v ===== *)
(** * The relay

    Model of [counting_relay_with_client_fragmentation],
    [copy_counting_client_to_server] and [copy_counting] of
    [crates/zerodpi-core/src/proxy.rs]: the two copy loops run interleaved in
    one task.  A schedule chooses which loop makes its next iteration, or that
    the deadline fires; an iteration reads one piece and writes it.  A
    deadline that strikes while an iteration is under way is the one place
    where the granularity is coarser than the code. *)
From stdpp Require Import base list numbers strings.
From Stdlib Require Import ZArith Lia.
From S2P Require Import Prelude Config Methods SocketMethods.
From S2P Require Import Socket SocketLogic.

(** ** One direction *)
Record Dir := MkDir {
  d_sock : Sock;
  d_index : Z;              (* [write_index] *)
  d_total : Z;              (* the counter *)
  d_done : option bool }.   (* ended, and whether on an error *)

Definition dir_start (s : Sock) (frag : option (TcpSegmentation * Z)) : Dir :=
  MkDir s (from_option snd 0%Z frag) 0 None.

Definition shutdown (s : Sock) : Sock := snd (perform Shutdown s).
Definition finish_dir (d : Dir) (s : Sock) (error : bool) : Dir :=
  MkDir (shutdown s) (d_index d) (d_total d) (Some error).

Definition u32_saturating_succ (z : Z) : Z := Z.min (2 ^ 32 - 1) (z + 1).

(** The write of one piece. *)
Definition copy_write (seg : option TcpSegmentation) (buf : list Z) (write_index : Z) : io () :=
  match seg with
  | Some t => write_client_data buf t write_index
  | None => write_all buf
  end.

(** One iteration of a copy loop.  A read that waits leaves everything as it
    is: the loop stays where it is. *)
Definition copy_iteration (seg : option TcpSegmentation) (d : Dir) : exec Dir :=
  match read READ_BUFFER (d_sock d) with
  | (Fail _, s) => Done (finish_dir d s true)
  | (Ret [], s) => Done (finish_dir d s false)
  | (Ret buf, s) =>
      let write_index := u32_saturating_succ (d_index d) in
      match copy_write seg buf write_index s with
      | (Ret _, s) => Done (MkDir s write_index (wadd64 (d_total d) (Z.of_nat (length buf))) None)
      | (Fail _, s) => Done (finish_dir (MkDir s write_index (d_total d) None) s true)
      | (Blocked, s) => Done (MkDir s write_index (d_total d) None)
      | (Panicked, _) => Panic
      end
  | (Blocked, _) => Done d
  | (Panicked, _) => Panic
  end.

(** ** Both directions *)
Record Relay := MkRelay { r_c2s : Dir; r_s2c : Dir; r_reason : option RelayEndReason }.
Inductive RelayStep := StepC2s | StepS2c | DeadlineStep.
#[export] Instance RelayStep_eq_dec : EqDecision RelayStep.
Proof. solve_decision. Defined.

Definition relay_start (c2s s2c : Sock) (frag : option (TcpSegmentation * Z)) : Relay :=
  MkRelay (dir_start c2s frag) (dir_start s2c None) None.

(** Why the relay ends when a loop has ended as [this], the other as [other]. *)
Definition end_reason (this other : option bool) : option RelayEndReason :=
  match this with
  | Some true => Some NetworkError
  | Some false => match other with Some _ => Some Completed | None => None end
  | None => None
  end.

Definition relay_step (seg : option TcpSegmentation) (max_lifetime : bool) (r : Relay)
    (step : RelayStep) : exec Relay :=
  match r_reason r with
  | Some _ => Done r
  | None =>
      match step with
      | DeadlineStep =>
          Done (if max_lifetime then MkRelay (r_c2s r) (r_s2c r) (Some MaxLifetime) else r)
      | StepC2s =>
          match d_done (r_c2s r) with
          | Some _ => Done r
          | None =>
              let! d := copy_iteration seg (r_c2s r) in
              Done (MkRelay d (r_s2c r) (end_reason (d_done d) (d_done (r_s2c r))))
          end
      | StepS2c =>
          match d_done (r_s2c r) with
          | Some _ => Done r
          | None =>
              let! d := copy_iteration None (r_s2c r) in
              Done (MkRelay (r_c2s r) d (end_reason (d_done d) (d_done (r_c2s r))))
          end
      end
  end.

Definition relay_run (frag : option (TcpSegmentation * Z)) (max_lifetime : bool)
    (c2s s2c : Sock) (steps : list RelayStep) : exec Relay :=
  exec_fold (relay_step (fst <$> frag) max_lifetime) steps (relay_start c2s s2c frag).

Example relay_sample :
  exec_map (λ r, (sent_bytes (trace (d_sock (r_c2s r))), sent_bytes (trace (d_sock (r_s2c r))),
                  d_total (r_c2s r), r_reason r))
    (relay_run None false (sock_of [Bytes [1; 2]; Bytes [3]]%Z []) (sock_of [Bytes [9]]%Z [])
      [StepC2s; StepS2c; StepC2s; DeadlineStep; StepC2s; StepC2s; StepS2c])
  = Done ([1; 2; 3], [9], 3, Some Completed)%Z.
Proof. vm_compute. reflexivity. Qed.

(** ** Correctness *)

(** The settings under which fragmentation is safe. *)
Definition seg_ok (t : TcpSegmentation) : Prop :=
  range_wf (seg_length t) ∧ range_wf (interval_ms t) ∧
  (1 ≤ r_min (seg_length t))%Z ∧ (0 ≤ r_min (interval_ms t))%Z.

Lemma write_client_data_writes data t i : seg_ok t → Writes (write_client_data data t i) data.
Proof.
  intros (H1 & H2 & H3 & H4). unfold write_client_data.
  destruct (fragments_write t i); [by apply write_fragmented_writes|apply _].
Qed.

Lemma copy_write_writes seg buf i : (∀ t, seg = Some t → seg_ok t) → Writes (copy_write seg buf i) buf.
Proof.
  intros H. destruct seg as [t|]; [|apply _]. apply write_client_data_writes. by apply H.
Qed.

(** The state of a loop started on a socket [s0]: what it has sent is what it
    has taken from the stream, and the counter says how much; a loop that
    ended without an error has reached the end of the stream. *)
Definition dir_ok (s0 : Sock) (d : Dir) : Prop :=
  ∃ evs, trace (d_sock d) = trace s0 ++ evs ∧ quiet evs ∧
    sent_bytes evs `prefix_of` received (inbox s0) ∧
    match d_done d with
    | Some true => True
    | Some false => sent_bytes evs = received (inbox s0) ∧
        d_total d = as_u64 (Z.of_nat (length (sent_bytes evs)))
    | None => received (inbox s0) = sent_bytes evs ++ received (inbox (d_sock d)) ∧
        d_total d = as_u64 (Z.of_nat (length (sent_bytes evs)))
    end.

Lemma dir_start_ok s frag : dir_ok s (dir_start s frag).
Proof.
  exists []. rewrite app_nil_r. split_and!; [done|auto|apply prefix_nil|]. done.
Qed.

(** What is still to be read, failures or not, and how many iterations a
    loop has left at most. *)
Fixpoint pending (ib : list Recv) : nat :=
  match ib with
  | [] => 0
  | Bytes l :: rest => length l + pending rest
  | _ :: rest => pending rest
  end.
Definition rem (d : Dir) : nat :=
  match d_done d with Some _ => 0 | None => S (pending (inbox (d_sock d))) end.
Definition stall_free (ib : list Recv) : Prop := Stall ∉ ib.

(** [stall_free] is decidable. *)
Lemma not_stalled ib :
  forallb (λ x, match x with Stall => false | _ => true end) ib = true → stall_free ib.
Proof.
  intros H Hin. rewrite forallb_forall in H. apply list_elem_of_In in Hin. by specialize (H _ Hin).
Qed.

Lemma pending_push_back l rest : pending (push_back l rest) = length l + pending rest.
Proof. by destruct l. Qed.

Lemma recv_some_pending cap ib r ib' : 0 < cap → stall_free ib → recv_some cap ib = (r, ib') →
  stall_free ib' ∧ r ≠ Blocked ∧ ∀ l, r = Ret l → l ≠ [] → pending ib' < pending ib.
Proof.
  intros Hcap. unfold stall_free. induction ib as [|[[|x b]| |] rest IH]; cbn [recv_some pending].
  - intros H [= <- <-]. split_and!; try done. intros l [= <-]. done.
  - rewrite not_elem_of_cons. intros [_ H] E. destruct (IH H E) as (? & ? & ?). done.
  - rewrite not_elem_of_cons. intros [_ H] [= <- <-]. split_and!; [|done|].
    + unfold push_back. destruct (drop cap (x :: b)); [done|]. by rewrite not_elem_of_cons.
    + intros l _ _. rewrite pending_push_back, length_drop. simpl. lia.
  - rewrite not_elem_of_cons. intros [_ H] [= <- <-]. done.
  - rewrite not_elem_of_cons. intros [[] _]. done.
Qed.

Section relay.
Context (seg : option TcpSegmentation) (Hseg : ∀ t, seg = Some t → seg_ok t).

Lemma finish_dir_ok s0 d evs (b : bool) s :
  trace s = trace s0 ++ evs → quiet evs → sent_bytes evs `prefix_of` received (inbox s0) →
  (b = false → sent_bytes evs = received (inbox s0) ∧
     d_total d = as_u64 (Z.of_nat (length (sent_bytes evs)))) →
  dir_ok s0 (finish_dir d s b).
Proof.
  intros Ht Hq Hp Hb. exists (evs ++ [Shutdown]). cbn [d_sock finish_dir d_done d_total].
  assert (Hs : sent_bytes (evs ++ [Shutdown]) = sent_bytes evs).
  { rewrite sent_bytes_app. apply app_nil_r. }
  rewrite Hs. unfold shutdown, perform. cbn [snd trace]. rewrite Ht, app_assoc.
  split; [done|]. split; [by apply quiet_app; [|repeat constructor]|]. split; [done|].
  destruct b; [done|by apply Hb].
Qed.

Lemma as_u64_wadd64 a b : wadd64 (as_u64 a) b = as_u64 (a + b).
Proof. unfold wadd64, as_u64. by rewrite Zplus_mod_idemp_l. Qed.

(** One iteration keeps the account of its loop and does not panic. *)
Lemma copy_iteration_ok s0 d : dir_ok s0 d → d_done d = None →
  ∃ d', copy_iteration seg d = Done d' ∧ dir_ok s0 d'.
Proof.
  intros (evs & Ht & Hq & Hp & Hd) Hnone. rewrite Hnone in Hd. destruct Hd as [Hrec Htot].
  unfold copy_iteration. destruct (read_cases (d_sock d)) as (r & s & -> & Hst & Hnp & Hret).
  destruct r as [buf|e| |]; [..|done].
  - destruct (Hret _ eq_refl) as [Hr Hend]. rewrite Hr in Hrec. destruct buf as [|x buf'].
    + eexists. split; [done|]. apply (finish_dir_ok _ _ evs); [by rewrite Hst|done|done|].
      intros _. split; [|done]. by rewrite Hrec, (Hend eq_refl), app_nil_r.
    + set (buf := x :: buf') in *. cbv zeta.
      destruct (copy_write_writes seg buf (u32_saturating_succ (d_index d)) Hseg s)
        as (r & s' & e & E & Hi & Hs' & Hqe & _ & Hcase). rewrite E.
      assert (Htr : trace s' = trace s0 ++ evs ++ e) by by rewrite Hs', Hst, Ht, app_assoc.
      destruct Hcase as [[-> Hb]|(-> & _ & Hb)]; (eexists; split; [done|]).
      * exists (evs ++ e). cbn [d_sock d_done d_total]. rewrite sent_bytes_app, Hb, Hi, <- app_assoc.
        split_and!; [done|auto| |done|].
        -- rewrite Hrec, app_assoc. by apply prefix_app_r.
        -- rewrite Htot, as_u64_wadd64, length_app, Nat2Z.inj_add. done.
      * apply (finish_dir_ok _ _ (evs ++ e)); [done|auto| |done].
        rewrite sent_bytes_app, Hrec. apply prefix_app. by apply prefix_app_r.
  - eexists. split; [done|]. apply (finish_dir_ok _ _ evs); [by rewrite Hst|done..].
  - eexists. split; [done|]. exists evs. rewrite Hnone. done.
Qed.

(** Every iteration of a loop brings it closer to its end. *)
Lemma copy_iteration_progress d d' : stall_free (inbox (d_sock d)) → d_done d = None →
  copy_iteration seg d = Done d' → stall_free (inbox (d_sock d')) ∧ rem d' < rem d.
Proof.
  intros Hsf Hnone. unfold copy_iteration, read, rem. rewrite Hnone.
  destruct (recv_some READ_BUFFER (inbox (d_sock d))) as [r ib] eqn:E.
  destruct (recv_some_pending _ _ _ _ READ_BUFFER_pos Hsf E) as (Hib & Hnb & Hlt).
  destruct r as [buf|e| |]; try done.
  - destruct buf as [|x buf'].
    + intros [= <-]. split; [done|]. simpl. lia.
    + specialize (Hlt _ eq_refl ltac:(done)). set (buf := x :: buf') in *. cbv zeta.
      match goal with |- context [copy_write seg buf ?i ?s] =>
        destruct (copy_write_writes seg buf i Hseg s) as (r & s' & e & -> & Hi & _ & _ & _ & Hcase) end.
      cbn [inbox] in Hi.
      destruct Hcase as [[-> _]|(-> & _ & _)]; intros [= <-]; cbn [d_sock d_done finish_dir shutdown perform snd inbox];
        rewrite Hi; (split; [done|simpl; lia]).
  - intros [= <-]. split; [done|]. simpl. lia.
Qed.
End relay.

(** The relay of two sockets: each loop has its account, and the reason it
    ended for says how the loops ended. *)
Definition relay_ok (max_lifetime : bool) (c2s s2c : Sock) (r : Relay) : Prop :=
  dir_ok c2s (r_c2s r) ∧ dir_ok s2c (r_s2c r) ∧
  match r_reason r with
  | None => d_done (r_c2s r) ≠ Some true ∧ d_done (r_s2c r) ≠ Some true ∧
            (d_done (r_c2s r) = None ∨ d_done (r_s2c r) = None)
  | Some Completed => d_done (r_c2s r) = Some false ∧ d_done (r_s2c r) = Some false
  | Some NetworkError => d_done (r_c2s r) = Some true ∨ d_done (r_s2c r) = Some true
  | Some MaxLifetime => max_lifetime = true
  end.

Section schedules.
Context (frag : option (TcpSegmentation * Z)) (max_lifetime : bool) (c2s s2c : Sock).
Hypothesis Hfrag : ∀ t i, frag = Some (t, i) → seg_ok t.

Lemma frag_seg_ok t : fst <$> frag = Some t → seg_ok t.
Proof. intros ([t' i] & Hf & ->)%fmap_Some. by apply (Hfrag _ i). Qed.
Lemma no_seg_ok t : @None TcpSegmentation = Some t → seg_ok t.
Proof. done. Qed.

Lemma relay_step_ok r step : relay_ok max_lifetime c2s s2c r →
  ∃ r', relay_step (fst <$> frag) max_lifetime r step = Done r' ∧ relay_ok max_lifetime c2s s2c r'.
Proof.
  intros Hok. pose proof Hok as (Hc & Hs & Hr). unfold relay_step.
  destruct (r_reason r) as [e|] eqn:Er; [by exists r|]. destruct Hr as (Hc1 & Hs1 & _).
  destruct step.
  - destruct (d_done (r_c2s r)) as [|] eqn:Ec; [by exists r|].
    destruct (copy_iteration_ok _ frag_seg_ok c2s (r_c2s r)) as (d & -> & Hd); [done..|].
    eexists. split; [done|]. split_and!; [done..|]. cbn [r_reason r_c2s r_s2c].
    destruct (d_done d) as [[]|]; cbn [end_reason]; auto.
    destruct (d_done (r_s2c r)) as [[]|]; naive_solver.
  - destruct (d_done (r_s2c r)) as [|] eqn:Es; [by exists r|].
    destruct (copy_iteration_ok _ no_seg_ok s2c (r_s2c r)) as (d & -> & Hd); [done..|].
    eexists. split; [done|]. split_and!; [done..|]. cbn [r_reason r_c2s r_s2c].
    destruct (d_done d) as [[]|]; cbn [end_reason]; auto.
    destruct (d_done (r_c2s r)) as [[]|]; naive_solver.
  - eexists. split; [done|]. by destruct max_lifetime.
Qed.

Lemma relay_start_ok : relay_ok max_lifetime c2s s2c (relay_start c2s s2c frag).
Proof. split; [apply dir_start_ok|]. split; [apply dir_start_ok|]. cbn. auto. Qed.

(** How often a schedule runs each loop. *)
Definition c2s_steps (steps : list RelayStep) : nat :=
  length (filter (λ x, x = StepC2s) steps).
Definition s2c_steps (steps : list RelayStep) : nat :=
  length (filter (λ x, x = StepS2c) steps).

Lemma relay_run_ok steps :
  ∃ r, relay_run frag max_lifetime c2s s2c steps = Done r ∧ relay_ok max_lifetime c2s s2c r.
Proof.
  apply exec_fold_inv; [apply relay_start_ok|]. intros r x _ Hr. by apply relay_step_ok.
Qed.

Lemma relay_ended steps r e : r_reason r = Some e →
  exec_fold (relay_step (fst <$> frag) max_lifetime) steps r = Done r.
Proof.
  intros He. induction steps as [|x steps IH]; [done|]. cbn [exec_fold].
  unfold relay_step at 1. by rewrite He.
Qed.

(** A schedule that runs each loop often enough ends the relay. *)
Lemma relay_steps_end steps r r' : relay_ok max_lifetime c2s s2c r →
  stall_free (inbox (d_sock (r_c2s r))) → stall_free (inbox (d_sock (r_s2c r))) →
  exec_fold (relay_step (fst <$> frag) max_lifetime) steps r = Done r' →
  r_reason r' = None →
  c2s_steps steps < rem (r_c2s r) ∨ s2c_steps steps < rem (r_s2c r).
Proof.
  revert r. induction steps as [|x steps IH]; intros r Hok Hc Hs; cbn [exec_fold].
  - intros [= <-] Hn. destruct Hok as (_ & _ & Hr). rewrite Hn in Hr.
    unfold rem. cbn. destruct Hr as (_ & _ & [-> | ->]); [left|right]; lia.
  - destruct (relay_step_ok r x Hok) as (r1 & E & Hok1). rewrite E. cbn [exec_bind].
    intros Hrun Hn. specialize (IH r1 Hok1).
    destruct (r_reason r1) as [e|] eqn:Er1.
    { rewrite (relay_ended _ _ e Er1) in Hrun. injection Hrun as <-. congruence. }
    unfold relay_step in E. destruct (r_reason r) as [e|] eqn:Er.
    { injection E as <-. congruence. }
    unfold c2s_steps, s2c_steps in *. rewrite !filter_cons. destruct x.
    + rewrite decide_True, decide_False by done. cbn [length].
      destruct (d_done (r_c2s r)) eqn:Ec.
      * injection E as <-. unfold rem in *. rewrite Ec in *. destruct (IH Hc Hs Hrun Hn); lia.
      * destruct (copy_iteration _ _) as [d|] eqn:Ed; [|done]. injection E as <-.
        destruct (copy_iteration_progress _ frag_seg_ok _ _ Hc Ec Ed) as [Hc' Hlt].
        cbn [r_c2s r_s2c] in IH. destruct (IH Hc' Hs Hrun Hn); lia.
    + rewrite decide_False, decide_True by done. cbn [length].
      destruct (d_done (r_s2c r)) eqn:Es.
      * injection E as <-. unfold rem in *. rewrite Es in *. destruct (IH Hc Hs Hrun Hn); lia.
      * destruct (copy_iteration _ _) as [d|] eqn:Ed; [|done]. injection E as <-.
        destruct (copy_iteration_progress _ no_seg_ok _ _ Hs Es Ed) as [Hs' Hlt].
        cbn [r_c2s r_s2c] in IH. destruct (IH Hc Hs' Hrun Hn); lia.
    + rewrite !decide_False by done. destruct max_lifetime; injection E as <-; [done|].
      by apply IH.
Qed.
End schedules.

(** (C37) The relay.  Under every schedule of its two loops and its deadline,
    with safe fragmentation settings, the relay does not panic.  In each
    direction what has been sent is a prefix of what was received, whatever
    the fragmentation of the client's writes.  A relay that ends as completed
    has forwarded both streams to their end and its counters are their lengths
    (as 64-bit words); it ends with a network error only if a loop failed,
    and for its lifetime only if one is configured.  Once no stream stalls, a
    schedule that runs each loop once per received byte and once more has
    ended the relay. *)
Theorem relay_forwards frag max_lifetime c2s s2c steps :
  (∀ t i, frag = Some (t, i) → seg_ok t) → trace c2s = [] → trace s2c = [] →
  ∃ r, relay_run frag max_lifetime c2s s2c steps = Done r ∧
    sent_bytes (trace (d_sock (r_c2s r))) `prefix_of` received (inbox c2s) ∧
    sent_bytes (trace (d_sock (r_s2c r))) `prefix_of` received (inbox s2c) ∧
    (r_reason r = Some Completed →
      sent_bytes (trace (d_sock (r_c2s r))) = received (inbox c2s) ∧
      sent_bytes (trace (d_sock (r_s2c r))) = received (inbox s2c) ∧
      d_total (r_c2s r) = as_u64 (Z.of_nat (length (received (inbox c2s)))) ∧
      d_total (r_s2c r) = as_u64 (Z.of_nat (length (received (inbox s2c))))) ∧
    (r_reason r = Some NetworkError → d_done (r_c2s r) = Some true ∨ d_done (r_s2c r) = Some true) ∧
    (r_reason r = Some MaxLifetime → max_lifetime = true) ∧
    (stall_free (inbox c2s) → stall_free (inbox s2c) →
     pending (inbox c2s) < c2s_steps steps → pending (inbox s2c) < s2c_steps steps →
     r_reason r ≠ None).
Proof.
  intros Hf Hc0 Hs0. destruct (relay_run_ok frag max_lifetime c2s s2c Hf steps) as (r & Hrun & Hok).
  exists r. split; [done|]. pose proof Hok as ((ec & Htc & _ & Hpc & Hdc) & (es & Hts & _ & Hps & Hds) & Hr).
  rewrite Hc0, app_nil_l in Htc. rewrite Hs0, app_nil_l in Hts. rewrite Htc, Hts.
  split_and!; [done|done|..].
  - intros E. rewrite E in Hr. destruct Hr as [E1 E2]. rewrite E1 in Hdc. rewrite E2 in Hds.
    destruct Hdc as [<- ->], Hds as [<- ->]. done.
  - intros E. by rewrite E in Hr.
  - intros E. by rewrite E in Hr.
  - intros H1 H2 H3 H4 Hn.
    destruct (relay_steps_end frag max_lifetime c2s s2c Hf steps _ r
      (relay_start_ok frag max_lifetime c2s s2c) H1 H2 Hrun Hn) as [H|H];
      unfold rem in H; cbn in H; lia.
Qed.

Lemma relay_forwards_witness :
  ∃ r, relay_run (Some (MkTcpSegmentation (WriteRange 1 3) (MkInt32Range 1 2)
        (MkInt32Range 0 3) true, 1%Z)) true (sock_of [Bytes [1; 2; 3]; Bytes [4]]%Z [5]%Z)
        (sock_of [Bytes [9; 8]]%Z []) (replicate 5 StepC2s ++ replicate 3 StepS2c) = Done r ∧
    sent_bytes (trace (d_sock (r_c2s r))) `prefix_of` [1; 2; 3; 4]%Z ∧ r_reason r ≠ None.
Proof.
  destruct (relay_forwards
    (Some (MkTcpSegmentation (WriteRange 1 3) (MkInt32Range 1 2)
      (MkInt32Range 0 3) true, 1%Z)) true (sock_of [Bytes [1; 2; 3]; Bytes [4]]%Z [5]%Z)
    (sock_of [Bytes [9; 8]]%Z []) (replicate 5 StepC2s ++ replicate 3 StepS2c))
    as (r & Hrun & Hp & _ & _ & _ & _ & Hend); [|done|done|].
  - intros t i [= <- <-]. split_and!; by vm_compute.
  - exists r. split; [exact Hrun|]. split; [exact Hp|].
    apply Hend; [by apply not_stalled|by apply not_stalled|apply Nat.ltb_lt; vm_compute; reflexivity..].
Defined.
