(* ===== verification/Proxy.v ===== *)
(** * The proxy's connection handlers

    Model of [crates/zerodpi-core/src/proxy.rs]: the settings taken from the
    configuration, the transforms of the first record, waiting for the
    interceptor, and the three handlers, [handle_intercept_connection],
    [handle_tcp_seg_connection_with_ip] and [handle_ip_bypass_connection],
    from the accepted connection to the end of its relay.

    What a handler meets from outside is an [Attempt]: how binding,
    registering and connecting turn out, what the task reads of its flow entry
    each time it looks, and the other direction of the relay with its schedule.
    A read under a timeout that stalls ends by the timeout.  Failing
    [set_nodelay] and [local_addr] calls are folded into connecting and
    binding. *)
From stdpp Require Import base list numbers strings.
From Stdlib Require Import ZArith Lia.
From S2P Require Import Prelude Text NetAddr Flow Sni Config Methods DataMethods.
From S2P Require Import SocketMethods Socket SocketLogic Relay.

(** ** Settings *)
Record ConnectionSettings := MkSettings {
  upstream_nodelay : bool;
  bypass_timeout : Z;              (* seconds *)
  max_lifetime : option Z;
  segment_first_client_hello : bool;
  tls_padding : option TlsPadding.t;
  ccs_prefix : option CcsPrefix.t;
  mixed_case_sni : option MixedCaseSni.t;
  sni_boundary_frag : option SniBoundaryFrag.t;
  tls_record_split : option TlsRecordSplit.t;
  tcp_segmentation : TcpSegmentation;
  keep_flow : bool }.              (* [fragment_all_data] *)

Definition configured_relay_max_lifetime (cfg : Config) : option Z :=
  if (0 <? cfg.(RELAY_MAX_LIFETIME_SECS))%Z then Some cfg.(RELAY_MAX_LIFETIME_SECS) else None.

Definition configured_upstream_nodelay (cfg : Config) : bool :=
  let contains := list_contains cfg.(BYPASS_METHOD) in
  cfg.(TCP_NODELAY) || (contains "tls_frag" && cfg.(TCP_SEG_NODELAY)) ||
  contains "sni_boundary_frag" || contains "tls_record_split" || contains "ccs_prefix".

(** [b.then(|| new())] *)
Definition then_exec {A} (b : bool) (new : exec A) : exec (option A) :=
  if b then let! a := new in Done (Some a) else Done None.

Definition from_config (cfg : Config) : exec ConnectionSettings :=
  let contains := list_contains cfg.(BYPASS_METHOD) in
  let! segmentation := TcpSegmentation_new cfg in
  let! padding := then_exec (contains "tls_padding") (TlsPadding.new cfg) in
  let! ccs := then_exec (contains "ccs_prefix") (CcsPrefix.new cfg) in
  let! mixed := then_exec (contains "mixed_case_sni") (Done (MixedCaseSni.new cfg)) in
  let! boundary := then_exec (contains "sni_boundary_frag") (Done (SniBoundaryFrag.new cfg)) in
  let! split := then_exec (contains "tls_record_split") (Done (TlsRecordSplit.new cfg)) in
  Done (MkSettings (configured_upstream_nodelay cfg) cfg.(BYPASS_TIMEOUT_SECS)
    (configured_relay_max_lifetime cfg) (contains "tls_frag") padding ccs mixed boundary split
    segmentation
    ((contains "ip_frag" && negb cfg.(IP_FRAG_ONLY_FIRST_PACKET)) ||
     (contains "disorder" && negb cfg.(DISORDER_ONLY_FIRST_PACKET)))).

(** ** The first record *)

(** [m.apply(&out).unwrap_or(out)] *)
Definition pad_record (m : option TlsPadding.t) (record : list Z) : io (list Z) :=
  match m with
  | Some m =>
      let* seed := fresh_seed in
      let* out := lift (TlsPadding.apply m record seed) in
      ret (default record out)
  | None => ret record
  end.
Definition mix_record (m : option MixedCaseSni.t) (record : list Z) : io (list Z) :=
  match m with
  | Some m =>
      let* seed := fresh_seed in
      let* out := lift (MixedCaseSni.apply_with_rng m record seed) in
      ret (default record out)
  | None => ret record
  end.
Definition apply_socket_transforms (st : ConnectionSettings) (record : list Z) : io (list Z) :=
  let* out := pad_record (tls_padding st) record in
  mix_record (mixed_case_sni st) out.

Definition emit (e : ProxyEvent) : io () := perform (Emit e).

(** The flow is closed and the dashboard told. *)
Definition close_flow (src_port : Z) : io () :=
  perform (FinishFlow UnexpectedClose);;; emit (BypassComplete src_port UnexpectedClose).

Definition read_client_tls_record_with_timeout (src_port : Z) : io (list Z) :=
  let* r := on_err (close_flow src_port) "reading ClientHello from client"
              (timeout read_one_tls_record) in
  match r with
  | Some record => ret record
  | None => close_flow src_port;;; bail "timed out reading ClientHello from client"
  end.

Definition read_client_write_with_timeout (src_port : Z) : io (list Z) :=
  let* r := on_err (close_flow src_port) "reading client data from client"
              (timeout read_one_client_write) in
  match r with
  | Some data => ret data
  | None => close_flow src_port;;; bail "timed out reading client data from client"
  end.

(** ** Waiting for the interceptor *)
Inductive BypassProgress := ReadyForData | Complete (o : BypassOutcome).

Definition current_bypass_progress (entry : FlowEntry) : option BypassProgress :=
  match outcome (fe_state entry) with
  | Some o => Some (Complete o)
  | None => if waiting_for_data (fe_state entry) then Some ReadyForData else None
  end.

(** The waiting loops: [seen] is the flow entry each time the task looks, when
    it starts and at every wake-up until the timeout. *)
Fixpoint wait_for_initial_bypass_progress (seen : list FlowEntry) : option BypassProgress :=
  match seen with
  | [] => None
  | entry :: seen =>
      match current_bypass_progress entry with
      | Some progress => Some progress
      | None => wait_for_initial_bypass_progress seen
      end
  end.
Fixpoint wait_for_bypass_completion (seen : list FlowEntry) : option BypassOutcome :=
  match seen with
  | [] => None
  | entry :: seen =>
      match outcome (fe_state entry) with
      | Some o => Some o
      | None => wait_for_bypass_completion seen
      end
  end.

Definition finish_bypass_or_error (src_port : Z) (outcome : option BypassOutcome)
    (timeout_error : string) : io () :=
  match outcome with
  | Some FakeDataAcked => emit (BypassComplete src_port FakeDataAcked)
  | Some UnexpectedClose =>
      emit (BypassComplete src_port UnexpectedClose);;; bail "interceptor closed the flow"
  | None => close_flow src_port;;; bail timeout_error
  end.

(** ** One connection *)
Inductive ConnectResult := Connected | Refused (error : string) | ConnectTimeout.

Record Attempt := MkAttempt {
  at_bind : option Z;               (* the source port of the bound socket *)
  at_register : bool;
  at_connect : ConnectResult;
  at_initial : list FlowEntry;      (* what the two waits see *)
  at_data : list FlowEntry;
  at_upstream : Sock;               (* server to client *)
  at_schedule : list RelayStep }.

(** What the handlers take from the lease, the binding and the listener. *)
Record InterceptConnectionTarget := MkTarget {
  interface_ip : Z; connect_addr : SocketAddr; fake_client_hello : list Z;
  target_low_ttl : option Z }.

Definition connect_error (r : ConnectResult) : option string :=
  match r with
  | Connected => None
  | Refused error => Some error
  | ConnectTimeout => Some "upstream connect timed out after 10s"
  end.

(** The relay of the rest of the session, then its event. *)
Definition relay_connection (at_ : Attempt) (src_port : Z) (max_lifetime : option Z)
    (frag : option (TcpSegmentation * Z)) : io Relay := λ s,
  match relay_run frag (negb (is_none max_lifetime)) s (at_upstream at_) (at_schedule at_) with
  | Panic => (Panicked, s)
  | Done r =>
      let s := d_sock (r_c2s r) in
      match r_reason r with
      | None => (Blocked, s)
      | Some reason =>
          (emit (RelayFinished src_port (d_total (r_c2s r)) (d_total (r_s2c r)) reason);;; ret r) s
      end
  end.

(** [scopeguard]: [cleanup] runs when [m] returns, fails or unwinds. *)
Definition scopeguard {A} (cleanup : io ()) (m : io A) : io A := λ s,
  match m s with
  | (Blocked, s') => (Blocked, s')
  | (r, s') => (r, snd (cleanup s'))
  end.

Definition frag_after_record (st : ConnectionSettings) : option (TcpSegmentation * Z) :=
  if segment_first_client_hello st then Some (tcp_segmentation st, 1%Z) else None.

(** The branches of [ReadyForData]: what becomes of the first record. *)
Definition send_boundary (st : ConnectionSettings) (boundary : SniBoundaryFrag.t) (src_port : Z)
    : io (option (TcpSegmentation * Z)) :=
  let close := on_err (close_flow src_port) in
  let* client_hello := read_client_tls_record_with_timeout src_port in
  let* client_hello := apply_socket_transforms st client_hello in
  let* split := lift (SniBoundaryFrag.split_offset boundary client_hello) in
  match split with
  | Some split =>
      close "combo sni_boundary_frag: writing boundary-split ClientHello"
        (write_boundary_split client_hello split (SniBoundaryFrag.delay_ms boundary))
  | None =>
      close "combo sni_boundary_frag: writing ClientHello to upstream" (write_all client_hello);;;
      close "combo sni_boundary_frag: flushing ClientHello to upstream" flush
  end;;;
  ret (frag_after_record st).

Definition send_record_split (st : ConnectionSettings) (split : TlsRecordSplit.t) (src_port : Z)
    : io (option (TcpSegmentation * Z)) :=
  let close := on_err (close_flow src_port) in
  let* client_hello := read_client_tls_record_with_timeout src_port in
  let* client_hello := apply_socket_transforms st client_hello in
  let* parts := lift (TlsRecordSplit.split split client_hello) in
  close "tls_record_split: writing the split ClientHello"
    (match parts with
     | Some (first, second) => write_record_split first second (TlsRecordSplit.delay_ms split)
     | None => write_and_flush client_hello
     end);;;
  ret (frag_after_record st).

Definition send_segmented (st : ConnectionSettings) (src_port : Z)
    : io (option (TcpSegmentation * Z)) :=
  let close := on_err (close_flow src_port) in
  let segmentation := tcp_segmentation st in
  match packets segmentation with
  | TlsHello =>
      let* client_hello := read_client_tls_record_with_timeout src_port in
      let* client_hello := apply_socket_transforms st client_hello in
      close "combo tls_frag: writing fragmented ClientHello"
        (write_fragmented client_hello (seg_length segmentation) (interval_ms segmentation));;;
      ret None
  | WriteRange _ _ =>
      let* client_data := read_client_write_with_timeout src_port in
      let* client_data := apply_socket_transforms st client_data in
      close "combo tls_frag: writing first client data"
        (write_client_data client_data segmentation 1);;;
      ret (Some (segmentation, 1%Z))
  end.

Definition send_plain (st : ConnectionSettings) (src_port : Z)
    : io (option (TcpSegmentation * Z)) :=
  let close := on_err (close_flow src_port) in
  let* client_hello := read_client_tls_record_with_timeout src_port in
  let* client_hello := apply_socket_transforms st client_hello in
  close "writing ClientHello to upstream" (write_all client_hello);;;
  close "flushing ClientHello to upstream" flush;;;
  ret None.

Definition send_first_data (st : ConnectionSettings) (src_port : Z)
    : io (option (TcpSegmentation * Z)) :=
  match ccs_prefix st with
  | Some ccs =>
      on_err (close_flow src_port) "ccs_prefix: writing ChangeCipherSpec prefix" (write_ccs_prefix ccs)
  | None => ret ()
  end;;;
  match sni_boundary_frag st, tls_record_split st with
  | Some boundary, _ => send_boundary st boundary src_port
  | None, Some split => send_record_split st split src_port
  | None, None =>
      if segment_first_client_hello st then send_segmented st src_port else send_plain st src_port
  end.

(** The bypass phase: from the connected socket to the start of the relay. *)
Definition bypass_phase (st : ConnectionSettings) (at_ : Attempt) (src_port : Z)
    : io (option (TcpSegmentation * Z)) :=
  match wait_for_initial_bypass_progress (at_initial at_) with
  | Some (Complete outcome) =>
      finish_bypass_or_error src_port (Some outcome) "bypass timed out";;; ret None
  | Some ReadyForData =>
      let* frag := send_first_data st src_port in
      finish_bypass_or_error src_port (wait_for_bypass_completion (at_data at_))
        "first data bypass timed out";;;
      ret frag
  | None => finish_bypass_or_error src_port None "bypass timed out";;; ret None
  end.

Definition connect_upstream (at_ : Attempt) (nodelay : bool) (src_port : Z) (msg : string)
    (on_error : io ()) : io () :=
  match connect_error (at_connect at_) with
  | None => perform (Connect nodelay)
  | Some error => on_error;;; emit (ConnectionError src_port error);;; bail msg
  end.

(** The handler up to the relay. *)
Definition opening_phase (st : ConnectionSettings) (at_ : Attempt) (src_port : Z)
    : io (option (TcpSegmentation * Z)) :=
  connect_upstream at_ (upstream_nodelay st) src_port "connect upstream"
    (perform (FinishFlow UnexpectedClose));;;
  bypass_phase st at_ src_port.

(** The flow is removed when the handler is left.  [drop(cleanup)] does so
    before the relay, unless the interceptor keeps rewriting data packets. *)
Definition guarded_run (st : ConnectionSettings) (key : FlowKey)
    (opening : io (option (TcpSegmentation * Z))) (relay : option (TcpSegmentation * Z) → io Relay)
    : io Relay :=
  let cleanup := perform (RemoveFlow key) in
  if keep_flow st then scopeguard cleanup (bind opening relay)
  else bind (scopeguard cleanup opening) relay.

Definition handle_intercept_connection (target : InterceptConnectionTarget) (at_ : Attempt)
    (peer : SocketAddr) (st : ConnectionSettings) (target_sni : option string) : io Relay :=
  match sa_ip (connect_addr target) with
  | IpV6 _ => bail "intercept targets must be IPv4"
  | IpV4 connect_ip =>
      match at_bind at_ with
      | None => bail "bind"
      | Some src_port =>
          emit (ConnectionAccepted peer src_port (IpV4 connect_ip) target_sni);;;
          let key := MkFlowKey (interface_ip target) src_port connect_ip
                       (sa_port (connect_addr target)) in
          if negb (at_register at_) then bail "register intercepted flow" else
          perform (RegisterFlow key (fake_client_hello target) (target_low_ttl target));;;
          guarded_run st key (opening_phase st at_ src_port)
            (relay_connection at_ src_port (max_lifetime st))
      end
  end.

(** ** The socket-only path *)

(** [transformed_prefix]: the first record, read and transformed when a
    transform is listed. *)
Definition transformed_prefix (cfg : Config) : io (option (list Z)) :=
  let contains := list_contains cfg.(BYPASS_METHOD) in
  if contains "tls_padding" || contains "mixed_case_sni" then
    let* record := context "socket transforms: reading ClientHello from client"
                     read_one_tls_record in
    let* padding := lift (then_exec (contains "tls_padding") (TlsPadding.new cfg)) in
    let* record := pad_record padding record in
    let* record := mix_record
      (if contains "mixed_case_sni" then Some (MixedCaseSni.new cfg) else None) record in
    ret (Some record)
  else ret None.

(** The match that sends the first record and says what the relay segments. *)
Definition send_first_record (cfg : Config) (method : TcpSegmentation)
    (boundary : option SniBoundaryFrag.t) (record_split : option TlsRecordSplit.t)
    (segment_tlshello : bool) (first_record : option (list Z))
    : io (option (TcpSegmentation * Z)) :=
  let tls_frag := list_contains cfg.(BYPASS_METHOD) "tls_frag" in
  let after_record := if tls_frag then Some (method, 1%Z) else None in
  match record_split, first_record with
  | Some split, Some record =>
      let* parts := lift (TlsRecordSplit.split split record) in
      match parts with
      | Some (first, second) =>
          context "tls_record_split: writing the split ClientHello"
            (write_record_split first second (TlsRecordSplit.delay_ms split))
      | None => context "tls_record_split" (write_and_flush record)
      end;;;
      ret after_record
  | _, _ =>
  match boundary, first_record with
  | Some boundary, Some record =>
      let* split := lift (SniBoundaryFrag.split_offset boundary record) in
      match split with
      | Some split =>
          context "sni_boundary_frag: writing boundary-split ClientHello"
            (write_boundary_split record split (SniBoundaryFrag.delay_ms boundary))
      | None =>
          context "sni_boundary_frag: writing ClientHello whole (fail-open)" (write_all record);;;
          context "sni_boundary_frag: flushing ClientHello" flush
      end;;;
      ret after_record
  | None, first_record =>
      match first_record with
      | Some client_hello =>
          if segment_tlshello then
            context "tls_frag: writing fragmented ClientHello"
              (write_fragmented client_hello (seg_length method) (interval_ms method));;;
            ret None
          else
            context "tls_padding: writing padded ClientHello" (write_all client_hello);;;
            context "tls_padding: flushing padded ClientHello" flush;;;
            ret (if tls_frag then Some (method, 0%Z) else None)
      | None => ret (if tls_frag then Some (method, 0%Z) else None)
      end
  | Some _, None => λ s, (Panicked, s)   (* unreachable! *)
  end
  end.

(** From the connected socket to the start of the relay. *)
Definition socket_phase (cfg : Config) (method : TcpSegmentation)
    : io (option (TcpSegmentation * Z)) :=
  let contains := list_contains cfg.(BYPASS_METHOD) in
  (if contains "ccs_prefix" then
     let* ccs := lift (CcsPrefix.new cfg) in
     context "ccs_prefix: writing ChangeCipherSpec prefix" (write_ccs_prefix ccs)
   else ret ());;;
  let* transformed := transformed_prefix cfg in
  let boundary := if contains "sni_boundary_frag" then Some (SniBoundaryFrag.new cfg) else None in
  let record_split := if contains "tls_record_split" then Some (TlsRecordSplit.new cfg) else None in
  let segment_tlshello := contains "tls_frag" &&
    match packets method with TlsHello => true | WriteRange _ _ => false end in
  let needs_first_record :=
    negb (is_none boundary) || negb (is_none record_split) || segment_tlshello in
  let* first_record :=
    if needs_first_record then
      match transformed with
      | Some record => ret (Some record)
      | None =>
          let* record := context "socket path: reading ClientHello from client"
                           read_one_tls_record in
          ret (Some record)
      end
    else ret transformed in
  send_first_record cfg method boundary record_split segment_tlshello first_record.

Definition handle_tcp_seg_connection_with_ip (cfg : Config) (at_ : Attempt)
    (connect_addr peer : SocketAddr) (target_sni : option string) : io Relay :=
  let src_port := sa_port peer in
  emit (ConnectionAccepted peer src_port (sa_ip connect_addr) target_sni);;;
  let* method := lift (TcpSegmentation_new cfg) in
  connect_upstream at_ (configured_upstream_nodelay cfg) src_port "tls_frag: connect upstream"
    (ret ());;;
  let* frag := socket_phase cfg method in
  emit (BypassComplete src_port FakeDataAcked);;;
  relay_connection at_ src_port (configured_relay_max_lifetime cfg) frag.

(** ** The IP-bypass path *)
Definition handle_ip_bypass_connection (at_ : Attempt) (connect_addr peer : SocketAddr)
    (src_port : Z) (relay_max_lifetime : option Z) (nodelay : bool) (target_sni : option string)
    : io Relay :=
  emit (ConnectionAccepted peer src_port (sa_ip connect_addr) target_sni);;;
  connect_upstream at_ nodelay src_port "ip_bypass: connect upstream" (ret ());;;
  emit (BypassComplete src_port FakeDataAcked);;;
  relay_connection at_ src_port relay_max_lifetime None.
