(* ===== verification/Connections.v ===== *)
(** * What connections guarantee

    The proofs about the handlers of [Proxy]: the bytes that reach the server
    on each path, the life of a flow on the interceptor path, and what is
    reported. *)
From stdpp Require Import base list numbers strings.
From Stdlib Require Import ZArith Lia.
From S2P Require Import Prelude Text NetAddr Flow Sni Config Methods DataMethods.
From S2P Require Import SocketMethods Socket SocketLogic Relay Proxy.

(** ** What reaches the server *)

(** The pure content of the transforms, for some seeds. *)
Definition padded (m : option TlsPadding.t) (seed : Z) (record : list Z) : exec (list Z) :=
  match m with
  | Some m => let! out := TlsPadding.apply m record seed in Done (default record out)
  | None => Done record
  end.
Definition mixed (m : option MixedCaseSni.t) (seed : Z) (record : list Z) : exec (list Z) :=
  match m with
  | Some m => let! out := MixedCaseSni.apply_with_rng m record seed in Done (default record out)
  | None => Done record
  end.
Definition transformed (pad : option TlsPadding.t) (mix : option MixedCaseSni.t)
    (record record' : list Z) : Prop :=
  ∃ z1 z2 r, padded pad z1 record = Done r ∧ mixed mix z2 r = Done record'.

(** The record, or the two it is split into. *)
Definition framed (split : option TlsRecordSplit.t) (record : list Z) : list Z :=
  match split with
  | Some m =>
      match TlsRecordSplit.split m record with
      | Done (Some (first, second)) => first ++ second
      | _ => record
      end
  | None => record
  end.

(** What replaces the client's first data [c]. *)
Definition opening (pad : option TlsPadding.t) (mix : option MixedCaseSni.t)
    (split : option TlsRecordSplit.t) (c sent : list Z) : Prop :=
  ∃ c', transformed pad mix c c' ∧ sent = framed split c'.

(** The upstream bytes as long as they go: the prefix record, then the opening
    that replaces the client's first data, then the client's stream. *)
Definition whole (ccs : list Z) (opening : list Z → list Z → Prop) (stream full : list Z) : Prop :=
  ∃ c sent rest, stream = c ++ rest ∧ opening c sent ∧ full = ccs ++ sent ++ rest.
Definition delivered (ccs : list Z) (opening : list Z → list Z → Prop) (stream bytes : list Z)
    : Prop :=
  bytes `prefix_of` ccs ∨ ∃ full, whole ccs opening stream full ∧ bytes `prefix_of` full.

(** The one thing a client can make a handler panic with (see [Sni]). *)
Definition locator_panics (stream : list Z) : Prop :=
  ∃ c, c `prefix_of` stream ∧ find_sni_boundary c = Panic.

Definition ccs_bytes (ccs : option CcsPrefix.t) : list Z := from_option CcsPrefix.record [] ccs.

Definition closing (src_port : Z) : list Effect :=
  [FinishFlow UnexpectedClose; Emit (BypassComplete src_port UnexpectedClose)].

Lemma close_flow_effects p s :
  ∃ s', close_flow p s = (Ret (), s') ∧ trace s' = trace s ++ closing p.
Proof. eexists. split; [done|]. cbn. by rewrite <- app_assoc. Qed.

Lemma padded_done m z record : ∃ r, padded m z record = Done r ∧
  (find_sni_boundary r = Panic → find_sni_boundary record = Panic).
Proof.
  destruct m as [m|]; cbn [padded]; [|by eexists].
  destruct (TlsPadding.apply m record z) as [[out|]|] eqn:E.
  - eexists. split; [done|]. cbn [default]. by intros ?%(padded_safe _ _ _ _ E).
  - by eexists.
  - by apply padding_total in E.
Qed.

Lemma mixed_done m z record : find_sni_boundary record ≠ Panic →
  ∃ r, mixed m z record = Done r ∧ find_sni_boundary r ≠ Panic.
Proof.
  intros Hr. destruct m as [m|]; cbn [mixed]; [|by eexists].
  destruct (MixedCaseSni.apply_with_rng m record z) as [[out|]|] eqn:E.
  - eexists. split; [done|]. by apply (mixed_safe _ _ _ _ E).
  - by eexists.
  - by apply mixed_panic in E.
Qed.

Lemma mixed_safe_rev m z record r : mixed m z record = Done r →
  find_sni_boundary r = Panic → find_sni_boundary record = Panic.
Proof.
  intros Hm Hp. destruct (find_sni_boundary record) eqn:E; [|done].
  destruct (mixed_done m z record) as (r' & Hr & Hn); [by rewrite E|]. congruence.
Qed.

Lemma transformed_panic pad mix record record' : transformed pad mix record record' →
  find_sni_boundary record' = Panic → find_sni_boundary record = Panic.
Proof.
  intros (z1 & z2 & r & H1 & H2) Hp. destruct (padded_done pad z1 record) as (r' & Hr & Hs).
  apply Hs. assert (r' = r) as -> by congruence. by eapply mixed_safe_rev.
Qed.

Lemma wp_transform fin blk panic pad mix record s (Φ : list Z → Sock → list Effect → Prop)
    (Ξ : list Effect → Prop) :
  (find_sni_boundary record = Panic → panic ∧ Ξ []) →
  (∀ record' s', inbox s' = inbox s → transformed pad mix record record' → Φ record' s' []) →
  wp fin blk panic (let* r := pad_record pad record in mix_record mix r) s Φ Ξ.
Proof.
  intros Hp HΦ. apply wp_bind.
  apply (wp_mono _ _ _ _ _ (λ r s1 e, e = [] ∧ inbox s1 = inbox s ∧ ∃ z, padded pad z record = Done r) _
    (λ _, False) Ξ); [| |done].
  { destruct pad as [m|]; cbn [pad_record padded]; [|apply wp_ret; split_and!; [done..|by exists 0%Z]].
    apply wp_bind, wp_fresh_seed. intros z s1 H1. apply wp_bind, wp_lift.
    - by intros ?%padding_total.
    - intros o Ho. apply wp_ret. split_and!; [done..|]. exists z. by rewrite Ho. }
  intros r s1 e (-> & Hi & z1 & Hz1). destruct (padded_done pad z1 record) as (r' & Hr & Hs).
  assert (r' = r) as -> by congruence. clear Hr.
  destruct mix as [m|]; cbn [mix_record].
  - apply wp_bind, wp_fresh_seed. intros z2 s2 H2. apply wp_bind, wp_lift.
    + intros ?%mixed_panic. by apply Hp, Hs.
    + intros o Ho. apply wp_ret. apply HΦ; [by rewrite H2|]. exists z1, z2, r. split; [done|].
      cbn [mixed]. by rewrite Ho.
  - apply wp_ret, HΦ; [done|]. by exists z1, 0%Z, r.
Qed.

Lemma locator_panics_at stream c rest :
  stream = c ++ rest → find_sni_boundary c = Panic → locator_panics stream.
Proof. intros -> H. exists c. split; [by apply prefix_app_r|done]. Qed.

(** What the interceptor path does with the first data: its part of the settings. *)
Record settings_ok (st : ConnectionSettings) : Prop := {
  so_segments : segment_first_client_hello st = true → seg_ok (tcp_segmentation st);
  so_boundary : ∀ m, sni_boundary_frag st = Some m → (0 ≤ r_min (SniBoundaryFrag.delay_ms m))%Z;
  so_split : ∀ m, tls_record_split st = Some m → (0 ≤ r_min (TlsRecordSplit.delay_ms m))%Z }.

Section first_data.
Context (st : ConnectionSettings) (Hst : settings_ok st) (src_port : Z).
Notation wp_close := (wp (closing src_port) False).

Lemma wp_client_record panic s (Φ : list Z → Sock → list Effect → Prop) (Ξ : list Effect → Prop) :
  (∀ c s', received (inbox s) = c ++ received (inbox s') → Φ c s' []) → Ξ [] →
  wp_close panic (read_client_tls_record_with_timeout src_port) s Φ Ξ.
Proof.
  intros HΦ HΞ. apply wp_bind.
  apply (wp_mono _ _ _ _ _ (λ o s1 e, e = [] ∧ ∀ c, o = Some c →
    received (inbox s) = c ++ received (inbox s1)) _ (λ e, e = []) _); [| |by intros ? ->].
  { apply wp_on_err; [apply close_flow_effects|]. apply wp_timeout.
    - apply wp_read_record; [|done]. intros c s' _ Hc. split; [done|]. by intros ? [= <-].
    - by intros s' e ->. }
  intros [c|] s1 e [-> Hc]; [apply wp_ret, HΦ; by apply Hc|]. apply wp_stop; [apply close_flow_effects|done].
Qed.

Lemma wp_client_write panic s (Φ : list Z → Sock → list Effect → Prop) (Ξ : list Effect → Prop) :
  (∀ c s', received (inbox s) = c ++ received (inbox s') → Φ c s' []) → Ξ [] →
  wp_close panic (read_client_write_with_timeout src_port) s Φ Ξ.
Proof.
  intros HΦ HΞ. apply wp_bind.
  apply (wp_mono _ _ _ _ _ (λ o s1 e, e = [] ∧ ∀ c, o = Some c →
    received (inbox s) = c ++ received (inbox s1)) _ (λ e, e = []) _); [| |by intros ? ->].
  { apply wp_on_err; [apply close_flow_effects|]. apply wp_timeout.
    - apply wp_read_client_write; [|done]. intros c s' Hc. split; [done|]. by intros ? [= <-].
    - by intros s' e ->. }
  intros [c|] s1 e [-> Hc]; [apply wp_ret, HΦ; by apply Hc|]. apply wp_stop; [apply close_flow_effects|done].
Qed.

(** A write guarded by the error handler. *)
Lemma wp_close_writes panic msg m d s (Φ : () → Sock → list Effect → Prop) (Ξ : list Effect → Prop) :
  Writes m d → (∀ s' e, inbox s' = inbox s → sent_bytes e = d → Φ () s' e) →
  (∀ e, sent_bytes e `prefix_of` d → Ξ e) →
  wp_close panic (on_err (close_flow src_port) msg m) s Φ Ξ.
Proof. intros Hm HΦ HΞ. apply wp_on_err; [apply close_flow_effects|]. by eapply wp_writes. Qed.

(** How the sending of the opening ends, and how far it gets. *)
Definition sent_opening (split : option TlsRecordSplit.t) (s : Sock)
    (frag : option (TcpSegmentation * Z)) (s' : Sock) (evs : list Effect) : Prop :=
  (∀ t i, frag = Some (t, i) → seg_ok t) ∧
  ∃ c sent, received (inbox s) = c ++ received (inbox s') ∧
    opening (tls_padding st) (mixed_case_sni st) split c sent ∧ sent_bytes evs = sent.
Definition opening_under_way (split : option TlsRecordSplit.t) (s : Sock) (evs : list Effect) : Prop :=
  delivered [] (opening (tls_padding st) (mixed_case_sni st) split) (received (inbox s)) (sent_bytes evs).

Lemma opening_nil split s : opening_under_way split s [].
Proof. left. apply prefix_nil. Qed.

(** From a transformed record on: what is written is the opening. *)
Lemma opening_written split s c c' s1 evs :
  received (inbox s) = c ++ received (inbox s1) →
  transformed (tls_padding st) (mixed_case_sni st) c c' →
  sent_bytes evs `prefix_of` framed split c' → opening_under_way split s evs.
Proof.
  intros Hc Ht Hp. right. eexists. split.
  - exists c, (framed split c'), (received (inbox s1)). split_and!; [done|by exists c'|done].
  - cbn [app]. by apply prefix_app_r.
Qed.

Lemma frag_after_record_ok t i : frag_after_record st = Some (t, i) → seg_ok t.
Proof.
  unfold frag_after_record. destruct (segment_first_client_hello st) eqn:E; [|done].
  intros [= <- _]. by apply so_segments.
Qed.

(** Reading and transforming, then [k]. *)
Lemma wp_read_transform read s (k : list Z → io (option (TcpSegmentation * Z))) split :
  (∀ panic s Φ (Ξ : list Effect → Prop),
    (∀ c s', received (inbox s) = c ++ received (inbox s') → Φ c s' []) → Ξ [] →
    wp_close panic read s Φ Ξ) →
  (∀ c c' s1, received (inbox s) = c ++ received (inbox s1) →
    transformed (tls_padding st) (mixed_case_sni st) c c' →
    wp_close (locator_panics (received (inbox s))) (k c') s1
      (sent_opening split s) (opening_under_way split s)) →
  wp_close (locator_panics (received (inbox s)))
    (let* c := read in let* c' := apply_socket_transforms st c in k c') s
    (sent_opening split s) (opening_under_way split s).
Proof.
  intros Hread Hk. apply wp_bind, Hread; [|apply opening_nil]. intros c s1 Hc.
  apply wp_bind, wp_transform.
  - intros Hp. split; [by eapply locator_panics_at|apply opening_nil].
  - intros c' s2 Hi Ht. apply Hk with c; [|done]. by rewrite Hi.
Qed.

(** The end of a branch: the opening is out. *)
Lemma opening_sent split s c c' s1 frag evs :
  received (inbox s) = c ++ received (inbox s1) →
  transformed (tls_padding st) (mixed_case_sni st) c c' →
  (∀ t i, frag = Some (t, i) → seg_ok t) → sent_bytes evs = framed split c' →
  sent_opening split s frag s1 evs.
Proof. intros Hc Ht Hf Hs. split; [done|]. exists c, (framed split c'). split_and!; [done|by exists c'|done]. Qed.

(** Writing the opening with [m], then leaving. *)
Lemma wp_write_opening split s c c' s1 frag msg m :
  received (inbox s) = c ++ received (inbox s1) →
  transformed (tls_padding st) (mixed_case_sni st) c c' →
  (∀ t i, frag = Some (t, i) → seg_ok t) → Writes m (framed split c') →
  wp_close (locator_panics (received (inbox s)))
    (on_err (close_flow src_port) msg m;;; ret frag) s1
    (sent_opening split s) (opening_under_way split s).
Proof.
  intros Hc Ht Hf Hm. apply wp_bind. eapply wp_close_writes; [exact Hm| |].
  - intros s2 e Hi He. apply wp_ret. rewrite app_nil_r. by apply (opening_sent _ _ c c'); rewrite ?Hi.
  - intros e He. by eapply opening_written.
Qed.

(** The same in two guarded writes. *)
Lemma wp_write_flush_opening s c c' s1 frag msg1 msg2 :
  received (inbox s) = c ++ received (inbox s1) →
  transformed (tls_padding st) (mixed_case_sni st) c c' →
  (∀ t i, frag = Some (t, i) → seg_ok t) →
  wp_close (locator_panics (received (inbox s)))
    ((on_err (close_flow src_port) msg1 (write_all c');;;
      on_err (close_flow src_port) msg2 flush);;; ret frag) s1
    (sent_opening None s) (opening_under_way None s).
Proof.
  intros Hc Ht Hf. apply wp_bind, wp_bind. eapply wp_close_writes; [apply _| |].
  - intros s2 e Hi He. eapply wp_close_writes; [apply _| |].
    + intros s3 e' Hi' He'. apply wp_ret. rewrite app_nil_r.
      apply (opening_sent _ _ c c'); rewrite ?Hi', ?Hi, ?sent_bytes_app, ?He, ?He', ?app_nil_r; done.
    + intros e' He'. apply prefix_nil_inv in He'. eapply opening_written; [done..|].
      by rewrite sent_bytes_app, He, He', app_nil_r.
  - intros e He. by eapply opening_written.
Qed.

Lemma send_boundary_wp b s : sni_boundary_frag st = Some b →
  wp_close (locator_panics (received (inbox s))) (send_boundary st b src_port) s
    (sent_opening None s) (opening_under_way None s).
Proof.
  intros Hb. apply wp_read_transform; [apply wp_client_record|]. intros c c' s1 Hc Ht.
  apply wp_bind, wp_lift.
  - intros Hp%split_offset_panic%(transformed_panic _ _ _ _ Ht).
    split; [by eapply locator_panics_at|apply opening_nil].
  - intros [k|] Hk; cbn [app].
    + eapply wp_write_opening; [done..|apply frag_after_record_ok|].
      apply write_boundary_split_writes; [by eapply so_boundary|by eapply split_offset_inside].
    + eapply wp_write_flush_opening; [done..|apply frag_after_record_ok].
Qed.

Lemma send_record_split_wp m s : tls_record_split st = Some m →
  wp_close (locator_panics (received (inbox s))) (send_record_split st m src_port) s
    (sent_opening (Some m) s) (opening_under_way (Some m) s).
Proof.
  intros Hm. apply wp_read_transform; [apply wp_client_record|]. intros c c' s1 Hc Ht.
  apply wp_bind, wp_lift.
  - intros Hp%split_panic%(transformed_panic _ _ _ _ Ht).
    split; [by eapply locator_panics_at|apply opening_nil].
  - intros parts Hk; cbn [app]. eapply wp_write_opening; [done..|apply frag_after_record_ok|].
    unfold framed. rewrite Hk. destruct parts as [[first second]|]; [|apply _].
    apply write_record_split_writes. by eapply so_split.
Qed.

Lemma send_segmented_wp s : segment_first_client_hello st = true →
  wp_close (locator_panics (received (inbox s))) (send_segmented st src_port) s
    (sent_opening None s) (opening_under_way None s).
Proof.
  intros Hseg. unfold send_segmented. pose proof (so_segments _ Hst Hseg) as Hok.
  destruct (packets (tcp_segmentation st)).
  - apply wp_read_transform; [apply wp_client_record|]. intros c c' s1 Hc Ht.
    eapply wp_write_opening; [done..|]. destruct Hok as (? & ? & ? & ?). by apply write_fragmented_writes.
  - apply wp_read_transform; [apply wp_client_write|]. intros c c' s1 Hc Ht.
    eapply wp_write_opening; [done..|by intros t i [= <- _]|]. by apply write_client_data_writes.
Qed.

Lemma send_plain_wp s :
  wp_close (locator_panics (received (inbox s))) (send_plain st src_port) s
    (sent_opening None s) (opening_under_way None s).
Proof.
  apply wp_read_transform; [apply wp_client_record|]. intros c c' s1 Hc Ht.
  apply wp_assoc. by eapply wp_write_flush_opening.
Qed.

(** The record split that takes part: a boundary split wins. *)
Definition split_used : option TlsRecordSplit.t :=
  match sni_boundary_frag st with Some _ => None | None => tls_record_split st end.

Lemma send_first_data_wp s :
  wp_close (locator_panics (received (inbox s))) (send_first_data st src_port) s
    (λ frag s' evs, (∀ t i, frag = Some (t, i) → seg_ok t) ∧
      ∃ c sent, received (inbox s) = c ++ received (inbox s') ∧
        opening (tls_padding st) (mixed_case_sni st) split_used c sent ∧
        sent_bytes evs = ccs_bytes (ccs_prefix st) ++ sent)
    (λ evs, delivered (ccs_bytes (ccs_prefix st))
      (opening (tls_padding st) (mixed_case_sni st) split_used) (received (inbox s)) (sent_bytes evs)).
Proof.
  apply wp_bind.
  apply (wp_mono _ _ _ _ _ (λ _ s1 e, inbox s1 = inbox s ∧ sent_bytes e = ccs_bytes (ccs_prefix st)) _
    (λ e, sent_bytes e `prefix_of` ccs_bytes (ccs_prefix st))); [| |by left].
  { destruct (ccs_prefix st) as [ccs|]; [|by apply wp_ret].
    eapply wp_close_writes; [apply _|done|done]. }
  intros [] s1 e1 [Hi He1]. rewrite <- Hi.
  apply (wp_mono _ _ _ _ _ (sent_opening split_used s1) _ (opening_under_way split_used s1)).
  - unfold split_used. destruct (sni_boundary_frag st) as [b|] eqn:Eb; [by apply send_boundary_wp|].
    destruct (tls_record_split st) as [m|] eqn:Em; [by apply send_record_split_wp|].
    destruct (segment_first_client_hello st) eqn:Es; [by apply send_segmented_wp|apply send_plain_wp].
  - intros frag s2 e2 (Hf & c & sent & Hc & Ho & Hs). split; [done|]. exists c, sent.
    split_and!; [done..|]. by rewrite sent_bytes_app, He1, Hs.
  - intros e2 [Hp|(full & (c & sent & rest & Hc & Ho & ->) & Hp)].
    + left. apply prefix_nil_inv in Hp. by rewrite sent_bytes_app, He1, Hp, app_nil_r.
    + right. eexists. split; [by exists c, sent, rest|]. rewrite sent_bytes_app, He1. by apply prefix_app.
Qed.
End first_data.

(** ** The interceptor path *)
Section intercept.
Context (st : ConnectionSettings) (Hst : settings_ok st) (at_ : Attempt) (src_port : Z).

(** What the server receives of a client stream, all of it and so far. *)
Definition upstream_whole (stream full : list Z) : Prop :=
  match wait_for_initial_bypass_progress (at_initial at_) with
  | Some ReadyForData => whole (ccs_bytes (ccs_prefix st))
      (opening (tls_padding st) (mixed_case_sni st) (split_used st)) stream full
  | _ => full = stream
  end.
Definition upstream_so_far (stream bytes : list Z) : Prop :=
  match wait_for_initial_bypass_progress (at_initial at_) with
  | Some ReadyForData => delivered (ccs_bytes (ccs_prefix st))
      (opening (tls_padding st) (mixed_case_sni st) (split_used st)) stream bytes
  | _ => bytes `prefix_of` stream
  end.

Lemma upstream_prefix stream full bytes :
  upstream_whole stream full → bytes `prefix_of` full → upstream_so_far stream bytes.
Proof.
  unfold upstream_whole, upstream_so_far.
  destruct (wait_for_initial_bypass_progress _) as [[|o]|]; intros H Hp; [|by subst..].
  right. by exists full.
Qed.

Lemma upstream_nil stream : upstream_so_far stream [].
Proof.
  unfold upstream_so_far. destruct (wait_for_initial_bypass_progress _) as [[|o]|];
    [left; apply prefix_nil|apply prefix_nil..].
Qed.

(** How a failed bypass ends: the flow is finished, unless it was seen
    finished as unexpected, and one report is made. *)
Inductive bypass_end : list Effect → Prop :=
  | be_connect error : connect_error (at_connect at_) = Some error →
      bypass_end [FinishFlow UnexpectedClose; Emit (ConnectionError src_port error)]
  | be_closing : bypass_end (closing src_port)
  | be_observed :
      wait_for_initial_bypass_progress (at_initial at_) = Some (Complete UnexpectedClose) ∨
      wait_for_bypass_completion (at_data at_) = Some UnexpectedClose →
      bypass_end [Emit (BypassComplete src_port UnexpectedClose)].

Lemma finish_bypass_spec o msg s :
  (o = Some UnexpectedClose →
    wait_for_initial_bypass_progress (at_initial at_) = Some (Complete UnexpectedClose) ∨
    wait_for_bypass_completion (at_data at_) = Some UnexpectedClose) →
  ∃ r s', finish_bypass_or_error src_port o msg s = (r, s') ∧ inbox s' = inbox s ∧
    (r = Ret () ∧ o = Some FakeDataAcked ∧
       trace s' = trace s ++ [Emit (BypassComplete src_port FakeDataAcked)] ∨
     ∃ x e, r = Fail x ∧ bypass_end e ∧ trace s' = trace s ++ e).
Proof.
  intros Ho. destruct o as [[]|]; eexists _, _; (split; [reflexivity|]); (split; [reflexivity|]).
  - by left.
  - right. eexists _, _. split; [done|]. split; [apply be_observed; auto|done].
  - right. eexists _, _. split; [done|]. split; [apply be_closing|]. cbn. by rewrite <- app_assoc.
Qed.

(** The phase between connecting and relaying. *)
Definition phase_spec (s : Sock) (r : ioresult (option (TcpSegmentation * Z))) (s' : Sock)
    (q : list Effect) : Prop :=
  let stream := received (inbox s) in
  match r with
  | Ret frag => trace s' = trace s ++ q ++ [Emit (BypassComplete src_port FakeDataAcked)] ∧
      (∀ t i, frag = Some (t, i) → seg_ok t) ∧
      upstream_whole stream (sent_bytes q ++ received (inbox s'))
  | Fail _ => ∃ e, bypass_end e ∧ trace s' = trace s ++ q ++ e ∧ upstream_so_far stream (sent_bytes q)
  | Blocked => False
  | Panicked => trace s' = trace s ++ q ∧ upstream_so_far stream (sent_bytes q) ∧ locator_panics stream
  end.

Lemma bypass_phase_spec s : ∃ r s' q, bypass_phase st at_ src_port s = (r, s') ∧ quiet q ∧
  phase_spec s r s' q.
Proof.
  pose proof upstream_nil as Hnil. unfold bypass_phase, phase_spec, upstream_whole, upstream_so_far in *.
  destruct (wait_for_initial_bypass_progress (at_initial at_)) as [[|o]|] eqn:Ew.
  - destruct (send_first_data_wp st Hst src_port s) as (r & s1 & q & E & H).
    unfold bind at 1. rewrite E. destruct r as [frag|x| |]; destruct H as (T & Q & H).
    + destruct H as (Hf & c & sent & Hc & Ho & Hs).
      destruct (finish_bypass_spec (wait_for_bypass_completion (at_data at_))
        "first data bypass timed out" s1) as (r2 & s2 & E2 & Hi & H2); [auto|].
      unfold bind. rewrite E2. destruct H2 as [(-> & _ & T2)|(x & e & -> & He & T2)].
      * eexists _, _, q. split; [reflexivity|]. split; [done|]. cbn. split_and!; [|done|].
        -- by rewrite T2, T, <- app_assoc.
        -- exists c, sent, (received (inbox s1)). split_and!; [done..|]. by rewrite Hs, Hi, <- app_assoc.
      * eexists _, _, q. split; [reflexivity|]. split; [done|]. exists e. split_and!; [done| |].
        -- by rewrite T2, T, <- app_assoc.
        -- right. eexists. split; [by exists c, sent, (received (inbox s1))|].
           rewrite Hs, app_assoc. by apply prefix_app_r.
    + eexists _, _, q. split; [reflexivity|]. split; [done|]. exists (closing src_port).
      split_and!; [apply be_closing|done..].
    + by destruct H as [[] _].
    + eexists _, _, q. split; [reflexivity|]. split; [done|]. destruct H. by split_and!.
  - destruct (finish_bypass_spec (Some o) "bypass timed out" s) as (r2 & s2 & E2 & Hi & H2).
    { intros [= ->]. auto. }
    unfold bind. rewrite E2. destruct H2 as [(-> & _ & T2)|(x & e & -> & He & T2)];
      eexists _, _, []; (split; [reflexivity|]); (split; [done|]); cbn.
    + split_and!; [done..|]. by rewrite Hi.
    + exists e. split_and!; [done..|apply prefix_nil].
  - destruct (finish_bypass_spec None "bypass timed out" s) as (r2 & s2 & E2 & Hi & H2); [done|].
    unfold bind. rewrite E2. destruct H2 as [(-> & ? & T2)|(x & e & -> & He & T2)]; [done|].
    eexists _, _, []. split; [reflexivity|]. split; [done|]. exists e. split_and!; [done..|apply prefix_nil].
Qed.
End intercept.

(** ** The relay of a connection *)
Definition relay_spec (src_port : Z) (s : Sock) (r : ioresult Relay) (s' : Sock)
    (q : list Effect) : Prop :=
  match r with
  | Ret rel => ∃ reason, r_reason rel = Some reason ∧
      trace s' = trace s ++ q ++
        [Emit (RelayFinished src_port (d_total (r_c2s rel)) (d_total (r_s2c rel)) reason)] ∧
      (reason = Completed → sent_bytes q = received (inbox s) ∧
        d_total (r_c2s rel) = as_u64 (Z.of_nat (length (received (inbox s)))))
  | Blocked => trace s' = trace s ++ q
  | _ => False
  end.

Lemma relay_connection_spec at_ p ml frag s : (∀ t i, frag = Some (t, i) → seg_ok t) →
  ∃ r s' q, relay_connection at_ p ml frag s = (r, s') ∧ quiet q ∧
    sent_bytes q `prefix_of` received (inbox s) ∧ relay_spec p s r s' q.
Proof.
  intros Hf. unfold relay_connection.
  destruct (relay_run_ok frag (negb (is_none ml)) s (at_upstream at_) Hf (at_schedule at_))
    as (rel & -> & (q & T & Q & Hp & Hd) & _ & Hr).
  destruct (r_reason rel) as [reason|] eqn:Er.
  - eexists (Ret rel), _, q. split; [reflexivity|]. split_and!; [done..|]. exists reason.
    split; [done|]. cbn [trace bind emit perform ret snd]. split; [by rewrite T, <- app_assoc|].
    intros ->. destruct Hr as [Hr _]. rewrite Hr in Hd. destruct Hd as [Hs Ht]. by rewrite <- Hs.
  - eexists Blocked, _, q. split; [reflexivity|]. split_and!; done.
Qed.

(** ** The whole interceptor handler *)
Section intercept_connection.
Context (st : ConnectionSettings) (Hst : settings_ok st) (at_ : Attempt) (src_port : Z).

(** Connecting leaves its mark if it succeeds. *)
Definition connected : list Effect :=
  match connect_error (at_connect at_) with None => [Connect (upstream_nodelay st)] | Some _ => [] end.

Definition opening_spec (s : Sock) (r : ioresult (option (TcpSegmentation * Z))) (s' : Sock)
    (q : list Effect) : Prop :=
  let stream := received (inbox s) in
  match r with
  | Ret frag =>
      trace s' = trace s ++ connected ++ q ++ [Emit (BypassComplete src_port FakeDataAcked)] ∧
      (∀ t i, frag = Some (t, i) → seg_ok t) ∧
      upstream_whole st at_ stream (sent_bytes q ++ received (inbox s'))
  | Fail _ => ∃ e, bypass_end at_ src_port e ∧ trace s' = trace s ++ connected ++ q ++ e ∧
      upstream_so_far st at_ stream (sent_bytes q)
  | Blocked => False
  | Panicked => trace s' = trace s ++ connected ++ q ∧
      upstream_so_far st at_ stream (sent_bytes q) ∧ locator_panics stream
  end.

Lemma opening_phase_spec s : ∃ r s' q, opening_phase st at_ src_port s = (r, s') ∧ quiet q ∧ opening_spec s r s' q.
Proof.
  unfold opening_phase, connect_upstream, opening_spec, connected.
  destruct (connect_error (at_connect at_)) as [error|] eqn:Ec.
  - eexists _, _, []. split; [reflexivity|]. split; [done|].
    eexists. split; [by apply be_connect|]. split; [cbn; by rewrite <- app_assoc|apply upstream_nil].
  - set (s1 := MkSock (inbox s) (trace s ++ [Connect (upstream_nodelay st)]) (credit s) (seeds s)).
    destruct (bypass_phase_spec st Hst at_ src_port s1) as (r & s' & q & E & Q & H).
    exists r, s', q. split; [exact E|]. split; [done|]. unfold phase_spec in H. cbn [inbox s1] in H.
    destruct r as [frag|x| |]; [| |done|].
    + destruct H as (T & H). split; [|done]. by rewrite T; cbn [trace s1]; rewrite <- !app_assoc.
    + destruct H as (e & He & T & H). exists e. split; [done|]. split; [|done].
      by rewrite T; cbn [trace s1]; rewrite <- !app_assoc.
    + destruct H as (T & H). split; [|done]. by rewrite T; cbn [trace s1]; rewrite <- !app_assoc.
Qed.

Lemma bypass_end_silent e : bypass_end at_ src_port e → sent_bytes e = [].
Proof. by intros []. Qed.
Lemma connected_silent : sent_bytes connected = [].
Proof. unfold connected. by case_match. Qed.

(** The records of a connection: [opened] before the relay, with the bypass
    [passed], and the relay between or before the end of the guard. *)
Definition guarded (key : FlowKey) (relayed : list Effect) : list Effect :=
  if keep_flow st then relayed ++ [RemoveFlow key] else RemoveFlow key :: relayed.
Definition guard_open (key : FlowKey) (relayed : list Effect) : list Effect :=
  if keep_flow st then relayed else RemoveFlow key :: relayed.

Definition connection_spec (key : FlowKey) (stream : list Z) (start : list Effect)
    (r : ioresult Relay) (s' : Sock) : Prop :=
  upstream_so_far st at_ stream (sent_bytes (trace s')) ∧
  ∃ q, quiet q ∧
  let passed := start ++ connected ++ q ++ [Emit (BypassComplete src_port FakeDataAcked)] in
  match r with
  | Fail _ => ∃ e, bypass_end at_ src_port e ∧
      trace s' = start ++ connected ++ q ++ e ++ [RemoveFlow key]
  | Panicked => trace s' = start ++ connected ++ q ++ [RemoveFlow key] ∧ locator_panics stream
  | Ret rel => ∃ q' reason, quiet q' ∧ r_reason rel = Some reason ∧
      trace s' = passed ++ guarded key (q' ++
        [Emit (RelayFinished src_port (d_total (r_c2s rel)) (d_total (r_s2c rel)) reason)]) ∧
      (reason = Completed → upstream_whole st at_ stream (sent_bytes (trace s')))
  | Blocked => ∃ q', quiet q' ∧ trace s' = passed ++ guard_open key q'
  end.
End intercept_connection.

Lemma sent_guarded st key l : sent_bytes (guarded st key l) = sent_bytes l.
Proof. unfold guarded. destruct (keep_flow st); [|done]. rewrite sent_bytes_app. apply app_nil_r. Qed.
Lemma sent_guard_open st key l : sent_bytes (guard_open st key l) = sent_bytes l.
Proof. unfold guard_open. by destruct (keep_flow st). Qed.

Definition record_effect (s : Sock) (l : list Effect) : Sock :=
  MkSock (inbox s) (trace s ++ l) (credit s) (seeds s).

(** An opening that stops is followed by the clean-up. *)
Lemma guarded_stop st key opening relay s r s1 : opening s = (r, s1) →
  (∀ frag, r ≠ Ret frag) → r ≠ Blocked →
  ∃ r', guarded_run st key opening relay s = (r', record_effect s1 [RemoveFlow key]) ∧
    match r with Fail x => r' = Fail x | _ => r' = Panicked end.
Proof.
  intros E Hr Hb. unfold guarded_run, scopeguard, bind. destruct (keep_flow st); rewrite E;
    (destruct r; [by destruct (Hr a)|by eexists|done|by eexists]).
Qed.

(** An opening that returns is followed by the relay, with the clean-up on
    its side of it. *)
Lemma guarded_relay st at_ port key opening s frag s1 : opening s = (Ret frag, s1) →
  (∀ t i, frag = Some (t, i) → seg_ok t) →
  ∃ r s' q, guarded_run st key opening (relay_connection at_ port (max_lifetime st)) s = (r, s') ∧
    quiet q ∧ sent_bytes q `prefix_of` received (inbox s1) ∧
    match r with
    | Ret rel => ∃ reason, r_reason rel = Some reason ∧
        trace s' = trace s1 ++ guarded st key (q ++
          [Emit (RelayFinished port (d_total (r_c2s rel)) (d_total (r_s2c rel)) reason)]) ∧
        (reason = Completed → sent_bytes q = received (inbox s1))
    | Blocked => trace s' = trace s1 ++ guard_open st key q
    | _ => False
    end.
Proof.
  intros E Hf. unfold guarded_run, scopeguard, bind, guarded, guard_open. destruct (keep_flow st).
  - rewrite E. destruct (relay_connection_spec at_ port (max_lifetime st) frag s1 Hf)
      as (r & s2 & q & E2 & Q & Hp & H). rewrite E2.
    destruct r as [rel| | |]; [|done| |done].
    + destruct H as (reason & Hr & T & Hc). eexists _, _, q. split; [reflexivity|].
      split_and!; [done..|]. exists reason. split_and!; [done| |naive_solver].
      cbn [perform snd trace]. by rewrite T, <- !app_assoc.
    + by eexists _, _, q.
  - rewrite E.
    destruct (relay_connection_spec at_ port (max_lifetime st) frag (record_effect s1 [RemoveFlow key]) Hf)
      as (r & s2 & q & E2 & Q & Hp & H). cbn [snd perform].
    change (MkSock _ _ _ _) with (record_effect s1 [RemoveFlow key]). rewrite E2.
    exists r, s2, q. split_and!; [done..|]. unfold relay_spec in H. cbn [record_effect trace inbox] in H.
    destruct r as [rel| | |]; [|done| |done].
    + destruct H as (reason & Hr & T & Hc). exists reason. split_and!; [done| |naive_solver].
      by rewrite T, <- !app_assoc.
    + by rewrite H, <- app_assoc.
Qed.

Lemma sent_start start st at_ q e : sent_bytes start = [] → sent_bytes e = [] →
  sent_bytes (start ++ connected st at_ ++ q ++ e) = sent_bytes q.
Proof. intros Hs He. by rewrite !sent_bytes_app, Hs, He, connected_silent, app_nil_r. Qed.

Lemma guarded_connection st at_ port key start s : settings_ok st → sent_bytes start = [] →
  trace s = start →
  let '(r, s') := guarded_run st key (opening_phase st at_ port)
                    (relay_connection at_ port (max_lifetime st)) s in
  connection_spec st at_ port key (received (inbox s)) start r s'.
Proof.
  intros Hst Hsil Hs. destruct (opening_phase_spec st Hst at_ port s) as (r & s1 & q & E & Q & H).
  unfold opening_spec in H. rewrite Hs in H. destruct r as [frag|x| |].
  - destruct H as (T & Hf & Hw).
    destruct (guarded_relay st at_ port key _ s frag s1 E Hf) as (r & s' & q' & -> & Q' & Hp & H).
    assert (∀ l, trace s' = trace s1 ++ l → sent_bytes l = sent_bytes q' →
      sent_bytes (trace s') = sent_bytes q ++ sent_bytes q') as Hsent.
    { intros l Hl Hq. rewrite Hl, sent_bytes_app, Hq, T. by rewrite sent_start. }
    destruct r as [rel| | |]; [|done| |done].
    + destruct H as (reason & Hr & T' & Hc). specialize (Hsent _ T').
      rewrite sent_guarded, sent_bytes_app in Hsent. specialize (Hsent (app_nil_r _)).
      split; [rewrite Hsent; eapply upstream_prefix; [done|by apply prefix_app]|].
      exists q. split; [done|]. exists q', reason. rewrite <- T, Hsent.
      split_and!; [done..|]. intros Hcomp. by rewrite (Hc Hcomp).
    + specialize (Hsent _ H (sent_guard_open _ _ _)).
      split; [rewrite Hsent; eapply upstream_prefix; [done|by apply prefix_app]|].
      exists q. split; [done|]. exists q'. by rewrite <- T.
  - destruct H as (e & He & T & Hu).
    destruct (guarded_stop st key _ (relay_connection at_ port (max_lifetime st)) s _ s1 E)
      as (r' & -> & ->); [done..|]. unfold connection_spec. cbn [record_effect trace].
    assert (trace s1 ++ [RemoveFlow key] = start ++ connected st at_ ++ q ++ e ++ [RemoveFlow key]) as HT
      by (by rewrite T, <- !app_assoc).
    split; [|by exists q; split; [done|]; exists e]. rewrite HT, sent_start; [done..|].
    rewrite sent_bytes_app, (bypass_end_silent _ _ _ He). done.
  - done.
  - destruct H as (T & Hu & Hp).
    destruct (guarded_stop st key _ (relay_connection at_ port (max_lifetime st)) s _ s1 E)
      as (r' & -> & ->); [done..|]. unfold connection_spec. cbn [record_effect trace].
    assert (trace s1 ++ [RemoveFlow key] = start ++ connected st at_ ++ q ++ [RemoveFlow key]) as HT
      by (by rewrite T, <- !app_assoc).
    split; [|by exists q]. by rewrite HT, sent_start.
Qed.

(** ** Settings of a validated configuration *)

(** The ranges are values of their type (see [Config.Int32Range_roundtrip]). *)
Definition ranges_typed (cfg : Config) : Prop :=
  range_wf cfg.(TLS_FRAG_INTERVAL_MS) ∧ ∀ r, cfg.(TLS_FRAG_LENGTH) = Some r → range_wf r.

Lemma segmentation_ok cfg : params_ok cfg → ranges_typed cfg →
  ∃ t, TcpSegmentation_new cfg = Done t ∧ seg_ok t.
Proof.
  intros Hp [Hi Hl]. destruct (po_tls_frag _ Hp) as ((p & Ep) & r & Er & Hr).
  destruct (po_delays _ Hp) as (Hd & _). unfold TcpSegmentation_new. rewrite Ep, Er.
  eexists. split; [done|]. split; [|by split_and!]. cbn [seg_length].
  unfold tls_frag_length_range in Er. destruct (TLS_FRAG_LENGTH cfg) as [r'|] eqn:El.
  - injection Er as <-. by apply Hl.
  - apply bail_if_ok in Er as [Hm Er]. injection Er as <-. bool_to_prop.
    unfold range_wf, Int32Range_exact in *. cbn in *. unfold i32_min. lia.
Qed.

Lemma then_exec_done {A} b (x : exec A) a : (b = true → x = Done a) →
  ∃ o, then_exec b x = Done o ∧ ∀ v, o = Some v → b = true ∧ v = a.
Proof.
  intros H. destruct b; cbn [then_exec].
  - rewrite H by done. eexists. split; [done|]. by intros v [= <-].
  - by eexists.
Qed.

Lemma from_config_ok cfg : params_ok cfg → ranges_typed cfg →
  ∃ st, from_config cfg = Done st ∧ settings_ok st.
Proof.
  intros Hp Hr. unfold from_config. destruct (segmentation_ok cfg Hp Hr) as (t & -> & Ht).
  destruct (po_padding _ Hp) as (_ & pp & Epp). destruct (po_record_version _ Hp) as (v & Ev).
  destruct (po_delays _ Hp) as (_ & Hb & Hs). cbn [exec_bind].
  destruct (then_exec_done (list_contains (BYPASS_METHOD cfg) "tls_padding") (TlsPadding.new cfg)
    (TlsPadding.Mk cfg.(TLS_PADDING_SIZE) pp)) as (pad & -> & _).
  { intros _. unfold TlsPadding.new. by rewrite Epp. }
  cbn [exec_bind].
  destruct (then_exec_done (list_contains (BYPASS_METHOD cfg) "ccs_prefix") (CcsPrefix.new cfg)
    (CcsPrefix.Mk v)) as (ccs & -> & _).
  { intros _. unfold CcsPrefix.new. by rewrite Ev. }
  cbn [exec_bind].
  destruct (then_exec_done (list_contains (BYPASS_METHOD cfg) "mixed_case_sni")
    (Done (MixedCaseSni.new cfg)) _ (λ _, eq_refl)) as (mix & -> & _). cbn [exec_bind].
  destruct (then_exec_done (list_contains (BYPASS_METHOD cfg) "sni_boundary_frag")
    (Done (SniBoundaryFrag.new cfg)) _ (λ _, eq_refl)) as (bd & -> & Hbd). cbn [exec_bind].
  destruct (then_exec_done (list_contains (BYPASS_METHOD cfg) "tls_record_split")
    (Done (TlsRecordSplit.new cfg)) _ (λ _, eq_refl)) as (sp & -> & Hsp). cbn [exec_bind].
  eexists. split; [done|]. constructor; cbn.
  - done.
  - by intros m [_ ->]%Hbd.
  - by intros m [_ ->]%Hsp.
Qed.

Lemma intercepted st target at_ peer sni s connect_ip port : settings_ok st →
  trace s = [] → sa_ip (connect_addr target) = IpV4 connect_ip → at_bind at_ = Some port →
  let key := MkFlowKey (interface_ip target) port connect_ip (sa_port (connect_addr target)) in
  let announced := Emit (ConnectionAccepted peer port (IpV4 connect_ip) sni) in
  let registered := RegisterFlow key (fake_client_hello target) (target_low_ttl target) in
  let '(r, s') := handle_intercept_connection target at_ peer st sni s in
  if at_register at_ then connection_spec st at_ port key (received (inbox s)) [announced; registered] r s'
  else r = Fail "register intercepted flow" ∧ trace s' = [announced].
Proof.
  intros Hok Hs Hip Hb key announced registered. unfold handle_intercept_connection. rewrite Hip, Hb.
  unfold bind at 1, emit, perform at 1. destruct (at_register at_); cbn [negb].
  - unfold bind at 1, perform at 1. cbn [inbox trace credit seeds]. rewrite Hs. cbn [app].
    exact (guarded_connection st at_ port key [announced; registered]
      (MkSock (inbox s) [announced; registered] (credit s) (seeds s)) Hok eq_refl eq_refl).
  - cbn. by rewrite Hs.
Qed.

(** (C38) The interceptor's connections.  With the settings of a validated
    configuration, a connection whose registration is refused has no effect
    but its announcement.  A registered flow is registered before the socket
    connects and removed exactly once: when the handler fails or panics, at
    its end in the modes that keep rewriting data, and before the relay
    otherwise.  A handler that fails has finished the flow, or has seen it
    finished as unexpected, and has reported the failure exactly once; one
    that reaches the relay has reported success before.  The bytes sent
    upstream are at all times a prefix of the client's stream with its first
    data replaced by the opening, behind the prefix record if there is one
    ([upstream_so_far]); after a completed relay they are all of it.  Only
    first data on which the SNI locator panics make the handler panic, and it
    waits for ever only in the relay. *)
Theorem intercept_connection mp cfg :
  validate mp cfg = Ok () → ranges_typed cfg →
  ∃ st, from_config cfg = Done st ∧
  ∀ target at_ peer sni s connect_ip port,
    trace s = [] → sa_ip (connect_addr target) = IpV4 connect_ip → at_bind at_ = Some port →
    let key := MkFlowKey (interface_ip target) port connect_ip (sa_port (connect_addr target)) in
    let announced := Emit (ConnectionAccepted peer port (IpV4 connect_ip) sni) in
    let registered := RegisterFlow key (fake_client_hello target) (target_low_ttl target) in
    let '(r, s') := handle_intercept_connection target at_ peer st sni s in
    if at_register at_ then
      connection_spec st at_ port key (received (inbox s)) [announced; registered] r s'
    else r = Fail "register intercepted flow" ∧ trace s' = [announced].
Proof.
  intros Hv Hr. destruct (validate_parts _ _ Hv) as [_ Hp].
  destruct (from_config_ok cfg Hp Hr) as (st & Hst & Hok). exists st. split; [done|].
  intros target at_ peer sni s connect_ip port. by apply intercepted.
Qed.

(** A whole session: the interceptor asks for data, the record is split. *)
Definition split_config : Config :=
  with_methods ["wrong_seq"; "tls_record_split"] (default_config "127.0.0.1" 44444).
Definition ready_entry : FlowEntry :=
  with_state (set_waiting_for_data true (FlowState_new [] None)) (FlowEntry_new [] None).
Definition acked_entry : FlowEntry := finish FakeDataAcked ready_entry.
Definition sample_attempt : Attempt :=
  MkAttempt (Some 50000%Z) true Connected [FlowEntry_new [] None; ready_entry] [acked_entry]
    (sock_of [Bytes [9; 9]]%Z []) (replicate 4 StepC2s ++ replicate 3 StepS2c).
Definition sample_client : Sock :=
  sock_of [Bytes (take 20 (ch_record sample_hello)); Bytes (drop 20 (ch_record sample_hello));
           Bytes [1; 2; 3]]%Z [5; 6]%Z.
Definition sample_target : InterceptConnectionTarget :=
  MkTarget 1 (MkSocketAddr (IpV4 2) 443 0) [22; 3; 1]%Z None.
Definition sample_peer : SocketAddr := MkSocketAddr (IpV4 3) 40000 0.

Lemma intercept_connection_witness :
  ∃ st r s', from_config split_config = Done st ∧
    handle_intercept_connection sample_target sample_attempt sample_peer st None sample_client = (r, s') ∧
    connection_spec st sample_attempt 50000 (MkFlowKey 1 50000 2 443) (received (inbox sample_client))
      [Emit (ConnectionAccepted sample_peer 50000 (IpV4 2) None);
       RegisterFlow (MkFlowKey 1 50000 2 443) [22; 3; 1]%Z None] r s'.
Proof.
  destruct (intercept_connection 1024 split_config) as (st & Hst & H);
    [by vm_compute|split; [by vm_compute|intros r [= <-]; by vm_compute]|].
  specialize (H sample_target sample_attempt sample_peer None sample_client 2%Z 50000%Z
    eq_refl eq_refl eq_refl). cbv zeta in H.
  destruct (handle_intercept_connection sample_target sample_attempt sample_peer st None sample_client)
    as [r s'] eqn:E.
  exists st, r, s'. split; [exact Hst|]. split; [exact E|exact H].
Defined.

(** ** The socket-only path, proved *)
Lemma from_config_fields cfg st : from_config cfg = Done st →
  let contains := list_contains cfg.(BYPASS_METHOD) in
  TcpSegmentation_new cfg = Done (tcp_segmentation st) ∧
  then_exec (contains "tls_padding") (TlsPadding.new cfg) = Done (tls_padding st) ∧
  then_exec (contains "ccs_prefix") (CcsPrefix.new cfg) = Done (ccs_prefix st) ∧
  mixed_case_sni st = (if contains "mixed_case_sni" then Some (MixedCaseSni.new cfg) else None) ∧
  sni_boundary_frag st =
    (if contains "sni_boundary_frag" then Some (SniBoundaryFrag.new cfg) else None) ∧
  tls_record_split st = (if contains "tls_record_split" then Some (TlsRecordSplit.new cfg) else None) ∧
  segment_first_client_hello st = contains "tls_frag".
Proof.
  cbv zeta. unfold from_config. destruct (TcpSegmentation_new cfg) as [t|]; [|done]. cbn [exec_bind].
  destruct (then_exec _ (TlsPadding.new cfg)) as [pad|]; [|done]. cbn [exec_bind].
  destruct (then_exec _ (CcsPrefix.new cfg)) as [ccs|]; [|done]. cbn [exec_bind].
  destruct (list_contains (BYPASS_METHOD cfg) "mixed_case_sni"),
    (list_contains (BYPASS_METHOD cfg) "sni_boundary_frag"),
    (list_contains (BYPASS_METHOD cfg) "tls_record_split"); cbn [then_exec exec_bind];
    intros [= <-]; by split_and!.
Qed.

Lemma then_exec_inv {A} b (x : exec A) o : then_exec b x = Done o →
  match o with Some a => b = true ∧ x = Done a | None => b = false end.
Proof. destruct b; cbn; [|by intros [= <-]]. destruct x; [|done]. by intros [= <-]. Qed.

(** Which lists make this path look at the first record. *)
Definition reads_transform (st : ConnectionSettings) : bool :=
  negb (is_none (tls_padding st)) || negb (is_none (mixed_case_sni st)).
Definition segments_hello (st : ConnectionSettings) : bool :=
  segment_first_client_hello st &&
  match packets (tcp_segmentation st) with TlsHello => true | WriteRange _ _ => false end.
Definition reads_first (st : ConnectionSettings) : bool :=
  reads_transform st || negb (is_none (sni_boundary_frag st)) ||
  negb (is_none (tls_record_split st)) || segments_hello st.

Definition socket_opening (st : ConnectionSettings) (c sent : list Z) : Prop :=
  if reads_first st then opening (tls_padding st) (mixed_case_sni st) (tls_record_split st) c sent
  else c = [] ∧ sent = [].

Section socket_path.
Context (cfg : Config) (st : ConnectionSettings) (Hst : settings_ok st).
Hypothesis Hcfg : from_config cfg = Done st.
Notation wp_sock := (wp [] True).

(** The record the path works on, when it reads one. *)
Definition at_record (s : Sock) (o : option (list Z)) (s1 : Sock) : Prop :=
  match o with
  | Some r => ∃ c, received (inbox s) = c ++ received (inbox s1) ∧
      transformed (tls_padding st) (mixed_case_sni st) c r
  | None => inbox s1 = inbox s
  end.

Lemma transformed_prefix_wp s :
  wp_sock (locator_panics (received (inbox s))) (transformed_prefix cfg) s
    (λ o s1 e, e = [] ∧ at_record s o s1 ∧ is_none o = negb (reads_transform st)) (λ e, e = []).
Proof.
  destruct (from_config_fields cfg st Hcfg) as (_ & Hpad & _ & Hmix & _).
  unfold transformed_prefix, reads_transform. rewrite Hmix.
  apply then_exec_inv in Hpad as Hpad'.
  destruct (list_contains (BYPASS_METHOD cfg) "tls_padding" ||
            list_contains (BYPASS_METHOD cfg) "mixed_case_sni") eqn:Ec.
  - apply wp_bind, wp_context, wp_read_record; [|done]. intros c s1 _ Hc.
    apply wp_bind, wp_lift; [by rewrite Hpad|]. intros pad [= <-]%(eq_trans (eq_sym Hpad)).
    rewrite <- Hmix. apply wp_assoc. apply wp_bind, wp_transform.
    + intros Hp. split; [by eapply locator_panics_at|done].
    + intros r s2 Hi Ht. apply wp_ret. split_and!; [done|exists c; by rewrite Hi|].
      rewrite Hmix. cbn [is_none]. destruct (tls_padding st) as [p|]; [done|].
      rewrite Hpad' in Ec. cbn [orb] in Ec. by rewrite Ec.
  - apply orb_false_iff in Ec as [E1 E2]. apply wp_ret. split_and!; [done..|].
    rewrite E2. destruct (tls_padding st); [|done]. destruct Hpad'. congruence.
Qed.

Definition socket_sent (s : Sock) (frag : option (TcpSegmentation * Z)) (s' : Sock)
    (evs : list Effect) : Prop :=
  (∀ t i, frag = Some (t, i) → seg_ok t) ∧
  ∃ c sent, received (inbox s) = c ++ received (inbox s') ∧ socket_opening st c sent ∧
    sent_bytes evs = sent.
Definition socket_under_way (s : Sock) (evs : list Effect) : Prop :=
  delivered [] (socket_opening st) (received (inbox s)) (sent_bytes evs).

Lemma socket_opening_record s r s1 : at_record s (Some r) s1 → reads_first st = true →
  ∃ c, received (inbox s) = c ++ received (inbox s1) ∧
    socket_opening st c (framed (tls_record_split st) r).
Proof. intros (c & Hc & Ht) Hr. exists c. split; [done|]. unfold socket_opening. rewrite Hr. by exists r. Qed.

Lemma record_written s r s1 evs : at_record s (Some r) s1 → reads_first st = true →
  sent_bytes evs `prefix_of` framed (tls_record_split st) r → socket_under_way s evs.
Proof.
  intros Hr Hrd Hp. destruct (socket_opening_record s r s1 Hr Hrd) as (c & Hc & Ho).
  right. eexists. split; [by exists c, (framed (tls_record_split st) r), (received (inbox s1))|].
  cbn [app]. by apply prefix_app_r.
Qed.

Lemma record_sent s r s1 s2 frag evs : at_record s (Some r) s1 → reads_first st = true →
  inbox s2 = inbox s1 → (∀ t i, frag = Some (t, i) → seg_ok t) →
  sent_bytes evs = framed (tls_record_split st) r → socket_sent s frag s2 evs.
Proof.
  intros Hr Hrd Hi Hf He. destruct (socket_opening_record s r s1 Hr Hrd) as (c & Hc & Ho).
  split; [done|]. exists c, (framed (tls_record_split st) r). by rewrite Hi.
Qed.

(** Writing the record with [m], then leaving. *)
Lemma wp_write_record s r s1 frag msg m : at_record s (Some r) s1 → reads_first st = true →
  (∀ t i, frag = Some (t, i) → seg_ok t) → Writes m (framed (tls_record_split st) r) →
  wp_sock (locator_panics (received (inbox s))) (context msg m;;; ret frag) s1
    (socket_sent s) (socket_under_way s).
Proof.
  intros Hr Hrd Hf Hm. apply wp_bind, wp_context. eapply wp_writes; [exact Hm| |].
  - intros s2 e Hi He. apply wp_ret. rewrite app_nil_r. by eapply record_sent.
  - intros e He. by eapply record_written.
Qed.

Lemma wp_write_flush_record s r s1 frag msg1 msg2 : at_record s (Some r) s1 →
  reads_first st = true → tls_record_split st = None → (∀ t i, frag = Some (t, i) → seg_ok t) →
  wp_sock (locator_panics (received (inbox s)))
    ((context msg1 (write_all r);;; context msg2 flush);;; ret frag) s1
    (socket_sent s) (socket_under_way s).
Proof.
  intros Hr Hrd Hn Hf. apply wp_bind, wp_bind, wp_context. eapply wp_writes; [apply _| |].
  - intros s2 e Hi He. apply wp_context. eapply wp_writes; [apply _| |].
    + intros s3 e' Hi' He'. apply wp_ret. rewrite app_nil_r.
      eapply record_sent; [done..|by rewrite Hi'|done|].
      by rewrite sent_bytes_app, He, He', app_nil_r, Hn.
    + intros e' He'%prefix_nil_inv. eapply record_written; [done..|].
      by rewrite sent_bytes_app, He, He', app_nil_r, Hn.
  - intros e He. eapply record_written; [done..|]. by rewrite Hn.
Qed.

Lemma at_record_panic s r s1 : at_record s (Some r) s1 → find_sni_boundary r = Panic →
  locator_panics (received (inbox s)).
Proof.
  intros (c & Hc & Ht) Hp. eapply locator_panics_at; [done|]. by eapply transformed_panic.
Qed.

Lemma socket_under_way_nil s : socket_under_way s [].
Proof. left. apply prefix_nil. Qed.

Lemma send_first_record_wp method s o s1 : seg_ok method → at_record s o s1 →
  is_none o = negb (reads_first st) →
  wp_sock (locator_panics (received (inbox s)))
    (send_first_record cfg method (sni_boundary_frag st) (tls_record_split st) (segments_hello st) o) s1
    (socket_sent s) (socket_under_way s).
Proof.
  intros Hm Ho Hnone. unfold send_first_record.
  assert (∀ (b : bool) (i : Z) t j, (if b then Some (method, i) else None) = Some (t, j) → seg_ok t) as Hfrag.
  { by intros [] i t j [= <- _]. }
  destruct o as [r|]; cbn [is_none] in Hnone.
  - symmetry in Hnone. apply negb_false_iff in Hnone.
    destruct (tls_record_split st) as [m|] eqn:Em.
    + apply wp_bind, wp_lift.
      { intros Hp%split_panic. split; [by eapply at_record_panic|apply socket_under_way_nil]. }
      intros parts Hk. cbn [app]. destruct parts as [[first second]|].
      * eapply wp_write_record; [done..|apply Hfrag|]. rewrite Em. unfold framed. rewrite Hk.
        apply write_record_split_writes. by eapply so_split.
      * eapply wp_write_record; [done..|apply Hfrag|]. rewrite Em. unfold framed. rewrite Hk. apply _.
    + destruct (sni_boundary_frag st) as [b|] eqn:Eb.
      * apply wp_bind, wp_lift.
        { intros Hp%split_offset_panic. split; [by eapply at_record_panic|apply socket_under_way_nil]. }
        intros [k|] Hk; cbn [app].
        -- eapply wp_write_record; [done..|apply Hfrag|]. rewrite Em.
           apply write_boundary_split_writes; [by eapply so_boundary|by eapply split_offset_inside].
        -- eapply wp_write_flush_record; [done..|apply Hfrag].
      * destruct (segments_hello st).
        -- eapply wp_write_record; [done..|]. rewrite Em. destruct Hm as (? & ? & ? & ?).
           by apply write_fragmented_writes.
        -- apply wp_assoc. eapply wp_write_flush_record; [done..|apply Hfrag].
  - symmetry in Hnone. apply negb_true_iff in Hnone. pose proof Hnone as Hn.
    unfold reads_first in Hn. rewrite !orb_false_iff in Hn. destruct Hn as [[[_ Hb] Hsp] _].
    destruct (tls_record_split st), (sni_boundary_frag st); try done.
    apply wp_ret. split; [apply Hfrag|]. exists [], []. unfold socket_opening. rewrite Hnone.
    by rewrite Ho.
Qed.

Lemma first_record_wp s :
  wp_sock (locator_panics (received (inbox s)))
    (let* transformed := transformed_prefix cfg in
     if negb (is_none (sni_boundary_frag st)) || negb (is_none (tls_record_split st)) ||
        segments_hello st then
       match transformed with
       | Some record => ret (Some record)
       | None =>
           let* record := context "socket path: reading ClientHello from client"
                            read_one_tls_record in
           ret (Some record)
       end
     else ret transformed) s
    (λ o s1 e, e = [] ∧ at_record s o s1 ∧ is_none o = negb (reads_first st)) (λ e, e = []).
Proof.
  apply wp_bind. apply (wp_mono _ _ _ _ _ _ _ _ _ (transformed_prefix_wp s)); [|done].
  intros o s1 e (-> & Ho & Hn). cbn [app]. unfold reads_first.
  destruct (_ || segments_hello st) eqn:Eneed.
  - destruct o as [r|]; cbn [is_none] in Hn.
    + apply wp_ret. split_and!; [done..|]. symmetry in Hn. apply negb_false_iff in Hn. by rewrite Hn.
    + symmetry in Hn. apply negb_true_iff in Hn. unfold reads_transform in Hn.
      apply orb_false_iff in Hn as [E1 E2].
      apply wp_bind, wp_context, wp_read_record; [|done]. intros c s2 _ Hc. apply wp_ret.
      split_and!; [done| |].
      * exists c. split; [by rewrite <- Ho|].
        destruct (tls_padding st); [done|]. destruct (mixed_case_sni st); [done|].
        by exists 0%Z, 0%Z, c.
      * rewrite <- !orb_assoc in *. rewrite Eneed, orb_true_r. done.
  - apply wp_ret. split_and!; [done..|]. rewrite Hn. rewrite <- !orb_assoc in *.
    by rewrite Eneed, orb_false_r.
Qed.

(** The opening of the socket-only path. *)
Lemma socket_phase_wp method s : seg_ok method → TcpSegmentation_new cfg = Done method →
  wp_sock (locator_panics (received (inbox s))) (socket_phase cfg method) s
    (λ frag s' evs, (∀ t i, frag = Some (t, i) → seg_ok t) ∧
      whole (ccs_bytes (ccs_prefix st)) (socket_opening st) (received (inbox s))
        (sent_bytes evs ++ received (inbox s')))
    (λ evs, delivered (ccs_bytes (ccs_prefix st)) (socket_opening st) (received (inbox s))
      (sent_bytes evs)).
Proof.
  intros Hm Hmethod.
  destruct (from_config_fields cfg st Hcfg) as (Hseg & _ & Hccs & _ & Hb & Hsp & Htf).
  assert (method = tcp_segmentation st) as -> by congruence.
  unfold socket_phase. rewrite <- Hb, <- Hsp, <- Htf. fold (segments_hello st).
  apply then_exec_inv in Hccs. apply wp_bind.
  apply (wp_mono _ _ _ _ _ (λ _ s1 e, inbox s1 = inbox s ∧ sent_bytes e = ccs_bytes (ccs_prefix st)) _
    (λ e, sent_bytes e `prefix_of` ccs_bytes (ccs_prefix st))); [| |by left].
  { destruct (ccs_prefix st) as [ccs|].
    - destruct Hccs as [-> Hccs]. apply wp_bind, wp_lift; [by rewrite Hccs|].
      intros a [= <-]%(eq_trans (eq_sym Hccs)). apply wp_context. eapply wp_writes; [apply _|done|done].
    - rewrite Hccs. by apply wp_ret. }
  intros [] s1 e1 [Hi He1]. rewrite <- Hi. apply wp_assoc, wp_bind.
  apply (wp_mono _ _ _ _ _ _ _ _ _ (first_record_wp s1)).
  2: { intros e ->. left. rewrite app_nil_r. by rewrite He1. }
  intros o s2 e (-> & Ho & Hn). cbn [app].
  apply (wp_mono _ _ _ _ _ _ _ _ _ (send_first_record_wp _ s1 o s2 Hm Ho Hn)).
  - intros frag s3 e2 (Hf & c & sent & Hc & Hopen & Hs). split; [done|].
    exists c, sent, (received (inbox s3)). split_and!; [done..|].
    by rewrite sent_bytes_app, He1, Hs, <- app_assoc.
  - intros e2 [Hp|(full & (c & sent & rest & Hc & Hopen & ->) & Hp)].
    + left. apply prefix_nil_inv in Hp. by rewrite sent_bytes_app, He1, Hp, app_nil_r.
    + right. eexists. split; [by exists c, sent, rest|]. rewrite sent_bytes_app, He1. by apply prefix_app.
Qed.
End socket_path.

(** What a connection without the interceptor leaves behind; [all] and
    [so_far] describe the upstream bytes. *)
Definition direct_spec (at_ : Attempt) (src_port : Z) (nodelay : bool) (accepted : Effect)
    (stream : list Z) (all so_far : list Z → Prop) (r : ioresult Relay) (s' : Sock) : Prop :=
  match connect_error (at_connect at_) with
  | Some error => (∃ x, r = Fail x) ∧ trace s' = [accepted; Emit (ConnectionError src_port error)]
  | None =>
      so_far (sent_bytes (trace s')) ∧
      ∃ q, quiet q ∧
      let opened := accepted :: Connect nodelay :: q in
      let passed := opened ++ [Emit (BypassComplete src_port FakeDataAcked)] in
      match r with
      | Fail _ => trace s' = opened
      | Panicked => trace s' = opened ∧ locator_panics stream
      | Blocked => trace s' = opened ∨ ∃ q', quiet q' ∧ trace s' = passed ++ q'
      | Ret rel => ∃ q' reason, quiet q' ∧ r_reason rel = Some reason ∧
          trace s' = passed ++ q' ++
            [Emit (RelayFinished src_port (d_total (r_c2s rel)) (d_total (r_s2c rel)) reason)] ∧
          (reason = Completed → all (sent_bytes (trace s')))
      end
  end.

(** From the opening to the relay, [opening] any phase that sends it. *)
Lemma direct_connection at_ port nodelay ml accepted (opening : io (option (TcpSegmentation * Z)))
    (all so_far : list Z → Prop) (s : Sock) :
  connect_error (at_connect at_) = None → sent_bytes [accepted] = [] →
  trace s = [accepted; Connect nodelay] →
  wp [] True (locator_panics (received (inbox s))) opening s
    (λ frag s' evs, (∀ t i, frag = Some (t, i) → seg_ok t) ∧ all (sent_bytes evs ++ received (inbox s')))
    (λ evs, so_far (sent_bytes evs)) →
  (∀ full bytes, all full → bytes `prefix_of` full → so_far bytes) →
  let '(r, s') := (let* frag := opening in
                   emit (BypassComplete port FakeDataAcked);;; relay_connection at_ port ml frag) s in
  direct_spec at_ port nodelay accepted (received (inbox s)) all so_far r s'.
Proof.
  intros Hc Ha Hs (r & s1 & q & E & H) Hall. unfold direct_spec. rewrite Hc. unfold bind at 1. rewrite E.
  assert (∀ l, trace s1 = [accepted; Connect nodelay] ++ q ++ l → sent_bytes (trace s1) = sent_bytes q ++ sent_bytes l) as Hsent.
  { intros l ->. rewrite !sent_bytes_app.
    change (sent_bytes [accepted; Connect nodelay]) with (sent_bytes [accepted]). by rewrite Ha. }
  rewrite Hs in H. destruct r as [frag|x| |]; destruct H as (T & Q & H).
  2-4: rewrite ?app_nil_r in T; specialize (Hsent []); rewrite !app_nil_r in Hsent; specialize (Hsent T).
  2,3,4: split; [by rewrite Hsent; apply H|]; exists q; split; [done|].
  - destruct H as (Hf & Hw).
    unfold bind, emit, perform. set (s2 := MkSock _ _ _ _).
    destruct (relay_connection_spec at_ port ml frag s2 Hf) as (r & s' & q' & -> & Q' & Hp & H).
    assert (trace s2 = accepted :: Connect nodelay :: q ++ [Emit (BypassComplete port FakeDataAcked)]) as T2
      by (unfold s2; cbn [trace]; by rewrite T, <- app_assoc).
    assert (∀ l, trace s' = trace s2 ++ l → sent_bytes l = sent_bytes q' →
      sent_bytes (trace s') = sent_bytes q ++ sent_bytes q') as Hsent'.
    { intros l Hl Hq. rewrite Hl, sent_bytes_app, Hq, T2.
      change (accepted :: Connect nodelay :: ?x) with ([accepted] ++ [Connect nodelay] ++ x).
      rewrite !sent_bytes_app, Ha. cbn. by rewrite app_nil_r. }
    unfold relay_spec in H. cbn [inbox s2] in H, Hp.
    destruct r as [rel| | |]; [|done| |done].
    + destruct H as (reason & Hr & T' & Hcm). specialize (Hsent' _ T').
      rewrite sent_bytes_app in Hsent'. specialize (Hsent' (app_nil_r _)). rewrite Hsent'.
      split; [eapply Hall; [done|by apply prefix_app]|]. exists q. split; [done|].
      exists q', reason. split_and!; [done..| |].
      * by rewrite T', T2.
      * intros Hcomp. by rewrite (proj1 (Hcm Hcomp)).
    + specialize (Hsent' _ H eq_refl). rewrite Hsent'.
      split; [eapply Hall; [done|by apply prefix_app]|]. exists q. split; [done|].
      right. exists q'. split; [done|]. by rewrite H, T2.
  - by rewrite T.
  - by left; rewrite T.
  - split; [by rewrite T|]. by destruct H.
Qed.

(** Connections without the interceptor.  With a validated
    configuration, the socket-only handler and the IP-bypass handler announce
    the connection, and report it as failed if they cannot connect.  The
    socket-only handler then sends the prefix record and the opening of the
    listed methods and relays the rest: at all times the server has a prefix
    of that, after a completed relay all of it, and the client's unchanged
    stream if no method touches the first record.  It can wait for ever for
    the first record, and a failure on the way to the relay is not reported;
    only first data on which the SNI locator panics make it panic.  The
    IP-bypass handler relays the client's stream unchanged. *)
Theorem direct_connections mp cfg :
  validate mp cfg = Ok () → ranges_typed cfg →
  ∃ st, from_config cfg = Done st ∧
  ∀ at_ connect_addr peer sni s port ml nodelay, trace s = [] →
    let stream := received (inbox s) in
    (let '(r, s') := handle_tcp_seg_connection_with_ip cfg at_ connect_addr peer sni s in
     direct_spec at_ (sa_port peer) (configured_upstream_nodelay cfg)
       (Emit (ConnectionAccepted peer (sa_port peer) (sa_ip connect_addr) sni)) stream
       (whole (ccs_bytes (ccs_prefix st)) (socket_opening st) stream)
       (delivered (ccs_bytes (ccs_prefix st)) (socket_opening st) stream) r s') ∧
    (let '(r, s') := handle_ip_bypass_connection at_ connect_addr peer port ml nodelay sni s in
     direct_spec at_ port nodelay
       (Emit (ConnectionAccepted peer port (sa_ip connect_addr) sni)) stream
       (λ full, full = stream) (λ bytes, bytes `prefix_of` stream) r s').
Proof.
  intros Hv Hr. destruct (validate_parts _ _ Hv) as [_ Hp].
  destruct (from_config_ok cfg Hp Hr) as (st & Hst & Hok). exists st. split; [done|].
  intros at_ connect_addr peer sni s port ml nodelay Hs stream. split.
  - destruct (segmentation_ok cfg Hp Hr) as (t & Ht & Htok).
    set (accepted := Emit (ConnectionAccepted peer (sa_port peer) (sa_ip connect_addr) sni)).
    unfold handle_tcp_seg_connection_with_ip, emit at 1, perform at 1, bind at 1. fold accepted.
    rewrite Ht. unfold lift, ret at 1, bind at 1, connect_upstream.
    destruct (connect_error (at_connect at_)) as [error|] eqn:Ec.
    + cbn. unfold direct_spec. rewrite Ec, Hs. split; [by eexists|done].
    + unfold bind at 1, perform at 1. cbn [inbox trace credit seeds]. rewrite Hs. cbn [app].
      apply direct_connection; [done..| |].
      * by apply (socket_phase_wp cfg st Hok Hst).
      * intros full bytes Hfull Hpre. right. by exists full.
  - set (accepted := Emit (ConnectionAccepted peer port (sa_ip connect_addr) sni)).
    unfold handle_ip_bypass_connection, emit at 1, perform at 1, bind at 1. fold accepted.
    unfold connect_upstream. destruct (connect_error (at_connect at_)) as [error|] eqn:Ec.
    + cbn. unfold direct_spec. rewrite Ec, Hs. split; [by eexists|done].
    + unfold bind at 1, perform at 1. cbn [inbox trace credit seeds]. rewrite Hs. cbn [app].
      apply (direct_connection at_ port nodelay ml accepted (ret None)); [done..| |].
      * apply wp_ret. split; [done|]. by cbn.
      * by intros full bytes -> .
Qed.

(** A padded and segmented list without a server name to split at. *)
Definition pad_frag_config : Config :=
  with_methods ["tls_padding"; "tls_frag"] (default_config "127.0.0.1" 44444).

Lemma direct_connections_witness :
  ∃ st, from_config pad_frag_config = Done st ∧
  let '(r, s') := handle_tcp_seg_connection_with_ip pad_frag_config sample_attempt
    (MkSocketAddr (IpV4 2) 443 0) sample_peer None sample_client in
  direct_spec sample_attempt 40000 true
    (Emit (ConnectionAccepted sample_peer 40000 (IpV4 2) None)) (received (inbox sample_client))
    (whole [] (socket_opening st) (received (inbox sample_client)))
    (delivered [] (socket_opening st) (received (inbox sample_client))) r s'.
Proof.
  destruct (direct_connections 1024 pad_frag_config) as (st & Hst & H);
    [by vm_compute|split; [by vm_compute|intros r [= <-]; by vm_compute]|].
  exists st. split; [exact Hst|].
  destruct (H sample_attempt (MkSocketAddr (IpV4 2) 443 0) sample_peer None sample_client 40000%Z None
    true eq_refl) as [H1 _].
  assert (ccs_bytes (ccs_prefix st) = []) as E.
  { apply from_config_fields in Hst. destruct Hst as (_ & _ & Hc & _).
    assert (then_exec (list_contains (BYPASS_METHOD pad_frag_config) "ccs_prefix")
      (CcsPrefix.new pad_frag_config) = Done None) as E by (vm_compute; reflexivity).
    rewrite E in Hc. injection Hc as Hc. rewrite <- Hc. reflexivity. }
  rewrite E in H1. exact H1.
Defined.

(** With the default range of client writes to segment, the interceptor path
    cuts the padded ClientHello into pieces of at most 200 bytes; the
    socket-only path sends it in one write and does not count it. *)
Definition first_write (evs : list Effect) : nat :=
  match omap (λ e, match e with Write l => Some (length l) | _ => None end) evs with
  | n :: _ => n
  | [] => 0
  end.

Definition whole_client : Sock := sock_of [Bytes (ch_record sample_hello)] [5; 6]%Z.

Example padded_hello_not_segmented :
  let '(_, direct) := handle_tcp_seg_connection_with_ip pad_frag_config sample_attempt
    (MkSocketAddr (IpV4 2) 443 0) sample_peer None whole_client in
  let intercepted := exec_map (λ st, trace (snd (handle_intercept_connection sample_target
    sample_attempt sample_peer st None whole_client)))
    (from_config (with_methods ["wrong_seq"; "tls_padding"; "tls_frag"] pad_frag_config)) in
  first_write (trace direct) = 2327 ∧ exec_map first_write intercepted = Done 147.
Proof. vm_compute. split; reflexivity. Qed.
