(* ===== verification/Waiting.v ===== *)
(** * Waiting for the interceptor

    The waiting loops of [crates/zerodpi-core/src/proxy.rs]
    ([wait_for_initial_bypass_progress], [wait_for_bypass_completion])
    interleaved with everything that can happen to the flow: packets,
    registrations, removals and resets ([Handler.step]).  The loops subscribe
    to the flow's notifiers, look, and wait.  A subscription is the number of
    calls of [notify_waiters] at the time it is made; it ends the wait as soon
    as there has been another call, which is what tokio documents for a
    [Notified] future from its creation on. *)
From stdpp Require Import base list numbers gmap relations.
From Stdlib Require Import ZArith Lia.
From S2P Require Import Prelude Interceptor Flow Text Config Methods Composite Handler Proxy.

(** ** What a packet signals *)

(** An update that makes something visible to a waiting task also notifies it. *)
Definition signals (e e' : FlowEntry) : Prop :=
  (outcome (fe_state e) = None → outcome (fe_state e') ≠ None → fe_notify e < fe_notify e') ∧
  (waiting_for_data (fe_state e) = false → waiting_for_data (fe_state e') = true →
   fe_ready_for_data e < fe_ready_for_data e') ∧
  fe_notify e ≤ fe_notify e' ∧ fe_ready_for_data e ≤ fe_ready_for_data e'.

Ltac signals_tac :=
  repeat match goal with
  | e : FlowEntry |- _ => destruct e as [[? ? ? ? ? ? ? ? [[]|] ? ?] ? ?]
  end;
  unfold signals, unexpected, finish, signal_outcome, notify_waiters, notify_ready, with_state,
    on_state, set_monitor, set_syn_seq, set_syn_ack_seq, set_fake_sent, set_waiting_for_data,
    set_first_data_modified, set_waiting_for_first_data_ack, set_fragment_all_data, set_outcome;
  cbn; repeat (case_match; cbn); split_and!; intros; try done; try lia.

Lemma signals_refl e : signals e e.
Proof. signals_tac; congruence. Qed.
Lemma signals_unexpected e : signals e (unexpected e).
Proof. signals_tac; congruence. Qed.
Lemma signals_finish o e : signals e (finish o e).
Proof. signals_tac; congruence. Qed.

(** A change of a field the waiting tasks do not look at. *)
Lemma signals_on_state f e :
  outcome (f (fe_state e)) = outcome (fe_state e) →
  (waiting_for_data (f (fe_state e)) = true → waiting_for_data (fe_state e) = true) →
  signals e (on_state f e).
Proof. intros H1 H2. unfold signals, on_state, with_state. cbn. rewrite H1. split_and!; [done| |lia..].
  intros Ha Hb%H2. congruence. Qed.

Lemma signals_trans e1 e2 e3 : signals e1 e2 → signals e2 e3 → signals e1 e3.
Proof.
  intros (A & B & C & D) (A' & B' & C' & D'). split_and!; [| |lia..].
  - intros H1 H3. destruct (outcome (fe_state e2)) eqn:E.
    + specialize (A H1 ltac:(done)). lia.
    + specialize (A' eq_refl H3). lia.
  - intros H1 H3. destruct (waiting_for_data (fe_state e2)) eqn:E.
    + specialize (B H1 eq_refl). lia.
    + specialize (B' eq_refl H3). lia.
Qed.

Lemma signals_after_handshake e p a : signals e (fst (fst (after_handshake e p a))).
Proof.
  destruct a as [ci cd| | |]; cbn; [|apply signals_finish|signals_tac; congruence|apply signals_finish].
  destruct cd; [signals_tac; congruence|].
  apply signals_trans with (on_state (set_fake_sent true) e); [by apply signals_on_state|].
  destruct ci; [apply signals_finish|apply signals_refl].
Qed.

Lemma signals_after_data e p a : signals e (fst (fst (after_data e p a))).
Proof.
  set (modified := on_state (λ s, set_waiting_for_data false (set_first_data_modified true s)) e).
  assert (signals e modified) as Hm by by apply signals_on_state.
  unfold after_data. fold modified. destruct a as [ci cd| | |]; cbn [fst].
  - apply (signals_trans _ _ _ Hm). clearbody modified. clear. destruct cd; [signals_tac; congruence|].
    destruct ci; [apply signals_finish|by apply signals_on_state].
  - apply (signals_trans _ _ _ Hm). case_match; [apply signals_finish|apply signals_refl].
  - apply signals_refl.
  - apply (signals_trans _ _ _ Hm). case_match; [by apply signals_on_state|apply signals_finish].
Qed.

Lemma signals_on_entry m env e p e' q v : on_entry m env e p = Done (e', q, v) → signals e e'.
Proof.
  unfold on_entry. destruct (negb _); [intros [= <- _ _]; apply signals_refl|].
  destruct (pv_direction p); [destruct (is_bare_syn p); [|destruct (is_bare_ack p)]|].
  - unfold outbound_syn. intros H. repeat (case_match; simplify_eq);
      (apply signals_unexpected || by apply signals_on_state).
  - unfold outbound_ack. repeat (case_match; try (intros; simplify_eq;
      (apply signals_refl || apply signals_unexpected))).
    destruct (bm_on_handshake_complete_ack _ _ _ _) as [[p' a]|]; cbn [exec_bind]; [|done].
    intros Hres. pose proof (signals_after_handshake e p' a) as Hs.
    assert (after_handshake e p' a = (e', q, v)) as Ha by congruence. by rewrite Ha in Hs.
  - unfold outbound_other. case_match.
    + destruct (bm_on_first_data_packet _ _ _ _) as [[p' a]|]; cbn [exec_bind]; [|done].
      intros Hres. pose proof (signals_after_data e p' a) as Hs.
      assert (after_data e p' a = (e', q, v)) as Ha by congruence. by rewrite Ha in Hs.
    + intros Hres. repeat (case_match; simplify_eq);
        (apply signals_refl || apply signals_unexpected || by apply signals_on_state).
  - unfold inbound, inbound_syn_ack, inbound_fake_ack, inbound_data_ack.
    destruct (syn_seq (fe_state e)) as [sq|], (syn_ack_seq (fe_state e)) as [sa|];
      cbn [is_none exec_bind expect]; intros Hres; repeat (case_match; simplify_eq);
      try simplify_eq;
      first [apply signals_refl | apply signals_unexpected | apply signals_finish
            | by apply signals_on_state
            | by eapply signals_trans; [|apply signals_finish]; apply signals_on_state].
Qed.

Lemma signals_step m w w' h e : step m w w' → world_ok w → lf_heap w !! h = Some e →
  ∃ e', lf_heap w' !! h = Some e' ∧ signals e e'.
Proof.
  intros Hs Hw He. destruct Hs as [k data ttl w0 w1 h0 Hr|k w0|w0|env p p' v w0 w1 Hp].
  - pose proof Hw as [Wf _]. destruct (tracked k w0) as [h1|] eqn:Et.
    { pose proof (register_flow_dup k data ttl h1 w0 Wf Et) as Hd. cbn in Hd. congruence. }
    destruct (register_flow_ok k data ttl w0 Wf Et) as (w2 & h1 & Hr1 & _ & Hn & _ & Ho & _).
    cbn in *. rewrite Hr in Hr1. injection Hr1 as <- <-. exists e.
    rewrite Ho by congruence. split; [done|apply signals_refl].
  - exists e. split; [done|apply signals_refl].
  - destruct (reset_entry h e w0 Hw He) as (e' & He' & [-> | ->]); eexists; (split; [exact He'|]);
      [apply signals_refl|apply signals_finish].
  - unfold on_packet in Hp. destruct (lf_flows w0 !! flow_key_for p) as [h0|].
    2: { injection Hp as <- _ _. exists e. split; [done|apply signals_refl]. }
    destruct (lf_heap w0 !! h0) as [e0|] eqn:E0.
    2: { injection Hp as <- _ _. exists e. split; [done|apply signals_refl]. }
    destruct (on_entry m env e0 p) as [[[e1 q] v1]|] eqn:Eo; [|done]. cbn [exec_bind] in Hp.
    injection Hp as <- _ _. cbn [lf_heap]. destruct (decide (h = h0)) as [->|Hne].
    + rewrite lookup_insert_eq. exists e1. split; [done|].
      assert (e0 = e) as -> by congruence. by eapply signals_on_entry.
    + rewrite lookup_insert_ne by done. exists e. split; [done|apply signals_refl].
Qed.

(** ** The loop *)
Section waiting.
(** What the loop looks for, and whether it also listens to [ready_for_data]. *)
Context {A : Type} (look : FlowEntry → option A) (ready : bool).
(** What a returned value says of the flow from then on. *)
Context (recorded : FlowEntry → A → Prop).
Hypothesis look_recorded : ∀ e a, look e = Some a → recorded e a.
Hypothesis recorded_stays : ∀ e e' a, entry_le e e' → recorded e a → recorded e' a.

Inductive pc :=
  | Looping
  | Subscribed (finished : nat)             (* to [notify] *)
  | SubscribedBoth (finished readied : nat) (* and to [ready_for_data] *)
  | Parked (finished readied : nat)
  | Returned (a : A)
  | TimedOut.

Definition woken (e : FlowEntry) (finished readied : nat) : Prop :=
  finished < fe_notify e ∨ ready = true ∧ readied < fe_ready_for_data e.

(** The task's own steps, with the flow entry [e] as it is. *)
Inductive task_step (e : FlowEntry) : pc → pc → Prop :=
  | t_notified : task_step e Looping (Subscribed (fe_notify e))
  | t_ready f : task_step e (Subscribed f) (SubscribedBoth f (fe_ready_for_data e))
  | t_found f r a : look e = Some a → task_step e (SubscribedBoth f r) (Returned a)
  | t_park f r : look e = None → task_step e (SubscribedBoth f r) (Parked f r)
  | t_wake f r : woken e f r → task_step e (Parked f r) Looping.

Inductive wait_step (m : BypassMethod) (h : nat) : LocalFlows * pc → LocalFlows * pc → Prop :=
  | w_flow w w' p : step m w w' → wait_step m h (w, p) (w', p)
  | w_task w e p p' : lf_heap w !! h = Some e → task_step e p p' → wait_step m h (w, p) (w, p')
  | w_timeout w p : (∀ a, p ≠ Returned a) → wait_step m h (w, p) (w, TimedOut).

Definition ended (p : pc) : Prop := p = TimedOut ∨ ∃ a, p = Returned a.

(** What the loop looks for is signalled. *)
Definition announced : Prop := ∀ e e', signals e e' → look e = None → look e' ≠ None →
  fe_notify e < fe_notify e' ∨ ready = true ∧ fe_ready_for_data e < fe_ready_for_data e'.

(** A parked task that has not been woken has nothing to see. *)
Definition pc_ok (e : FlowEntry) (p : pc) : Prop :=
  match p with
  | Subscribed f => f ≤ fe_notify e
  | SubscribedBoth f r => f ≤ fe_notify e ∧ r ≤ fe_ready_for_data e
  | Parked f r => f ≤ fe_notify e ∧ r ≤ fe_ready_for_data e ∧ (look e = None ∨ woken e f r)
  | Returned a => recorded e a
  | _ => True
  end.

Lemma pc_ok_signals e e' p : announced → signals e e' → entry_le e e' → pc_ok e p → pc_ok e' p.
Proof.
  intros Han Hs Hle. pose proof Hs as (_ & _ & Hn & Hr).
  destruct p as [|f|f r|f r|a|]; cbn; [done|lia|lia| |by apply recorded_stays|done].
  intros (Hf & Hrd & Hor). split; [lia|]. split; [lia|].
    destruct (look e') eqn:E; [|by left]. right. unfold woken in *.
    destruct Hor as [Hl|[Hw|[-> Hw]]]; [|left; lia|right; split; [done|lia]].
    destruct (Han e e' Hs Hl) as [|[-> ]]; [by rewrite E|left; lia|right; split; [done|lia]].
Qed.

Lemma pc_ok_task e p p' : task_step e p p' → pc_ok e p → pc_ok e p'.
Proof. destruct 1; cbn; try lia; try done; [by intros; apply look_recorded|]. intros [? ?]. split_and!; [done..|by left]. Qed.

Lemma wait_inv m h x x' : announced → HandshakeSafe m → DataSafe m →
  rtc (wait_step m h) x x' →
  world_ok (fst x) → (∃ e, lf_heap (fst x) !! h = Some e ∧ pc_ok e (snd x)) →
  world_ok (fst x') ∧ ∃ e, lf_heap (fst x') !! h = Some e ∧ pc_ok e (snd x').
Proof.
  intros Han Hh Hd. induction 1 as [x|x1 x2 x3 Hs _ IH]; [done|]. intros Hw (e & He & Hp).
  apply IH; destruct Hs as [w w' p Hst|w e0 p p' He0 Ht|w p Hnr]; cbn in *; [|done|done| |..].
  - by apply (step_ok m w w' Hst Hw).
  - destruct (signals_step m w w' h e Hst Hw He) as (e' & He' & Hs'). exists e'. split; [done|].
    destruct (step_ok m w w' Hst Hw) as [_ Hle]. destruct (Hle h e He) as (e1 & He1 & Hle1).
    eapply pc_ok_signals; [done..| |done]. congruence.
  - assert (e0 = e) as -> by congruence. exists e. split; [done|]. by eapply pc_ok_task.
  - exists e. by split.
Qed.

(** Left alone with something to see, the task returns it. *)
Lemma task_returns e p a : look e = Some a → pc_ok e p → ¬ ended p → rtc (task_step e) p (Returned a).
Proof.
  intros Hl Hp Hn.
  assert (∀ f r, rtc (task_step e) (SubscribedBoth f r) (Returned a)) as H3.
  { intros f r. apply rtc_once. by apply t_found. }
  assert (∀ f, rtc (task_step e) (Subscribed f) (Returned a)) as H2.
  { intros f. eapply rtc_l; [apply t_ready|apply H3]. }
  assert (rtc (task_step e) Looping (Returned a)) as H1.
  { eapply rtc_l; [apply t_notified|apply H2]. }
  destruct p as [|f|f r|f r|b|]; [done|done|done| |..].
  - destruct Hp as (_ & _ & [H|H]); [congruence|]. eapply rtc_l; [by apply t_wake|done].
  - destruct Hn. right. by exists b.
  - destruct Hn. by left.
Qed.
End waiting.

Lemma progress_announced : announced current_bypass_progress true.
Proof.
  intros e e' (Hf & Hr & _) Hn Hs. unfold current_bypass_progress in *.
  destruct (outcome (fe_state e)) eqn:Eo; [done|]. destruct (waiting_for_data (fe_state e)) eqn:Ew; [done|].
  destruct (outcome (fe_state e')) as [o|]; [left; by apply Hf|].
  destruct (waiting_for_data (fe_state e')); [right; split; [done|by apply Hr]|done].
Qed.

Lemma completion_announced : announced (λ e, outcome (fe_state e)) false.
Proof. intros e e' (Hf & _) Hn Hs. left. by apply Hf. Qed.

(** A value of the first wait holds on. *)
Definition progress_recorded (e : FlowEntry) (a : BypassProgress) : Prop :=
  match a with Complete o => outcome (fe_state e) = Some o | ReadyForData => True end.

Lemma progress_looked e a : current_bypass_progress e = Some a → progress_recorded e a.
Proof.
  unfold current_bypass_progress. destruct (outcome (fe_state e)) eqn:E; [by intros [= <-]|].
  case_match; [|done]. by intros [= <-].
Qed.
Lemma progress_stays e e' a : entry_le e e' → progress_recorded e a → progress_recorded e' a.
Proof. intros (H & _). destruct a; cbn; auto. Qed.

(** (C39) No wake-up is lost.  For the method of a validated configuration,
    start either waiting loop in any reachable state and let packets,
    registrations, removals and resets of any flows happen between its steps.
    Whenever its flow has something for it, a loop that has not ended returns
    it by its own steps alone: it is never parked on a notification that was
    sent before it could hear it.  An outcome it has returned stays the
    outcome of the flow. *)
Theorem no_lost_wakeup mp cfg seed m w h : validate mp cfg = Ok () →
  (0 ≤ cfg.(TLS_RECORD_FRAG_SIZE))%Z → build_method cfg seed = Some m → reachable m w →
  is_Some (lf_heap w !! h) →
  (∀ w' p, rtc (wait_step current_bypass_progress true m h) (w, Looping) (w', p) →
    ∃ e, lf_heap w' !! h = Some e ∧
    (∀ a, current_bypass_progress e = Some a → ¬ ended p →
      rtc (task_step current_bypass_progress true e) p (Returned a)) ∧
    ∀ o, p = Returned (Complete o) → outcome (fe_state e) = Some o) ∧
  (∀ w' p, rtc (wait_step (λ e, outcome (fe_state e)) false m h) (w, Looping) (w', p) →
    ∃ e, lf_heap w' !! h = Some e ∧
    (∀ o, outcome (fe_state e) = Some o → ¬ ended p →
      rtc (task_step (λ e, outcome (fe_state e)) false e) p (Returned o)) ∧
    ∀ o, p = Returned o → outcome (fe_state e) = Some o).
Proof.
  intros Hv Hsz Hb Hr [e0 He0]. destruct (built_safe mp cfg seed m Hv Hsz Hb) as [Hh Hd].
  pose proof (reachable_ok m w Hr) as Hw. split; intros w' p Hrun.
  - destruct (wait_inv _ _ _ progress_looked progress_stays m h _ _ progress_announced Hh Hd Hrun Hw)
      as (_ & e & He & Hp); [by exists e0|].
    exists e. split; [done|]. split; [|by intros o ->].
    intros a Ha Hn. by apply (task_returns _ _ progress_recorded).
  - destruct (wait_inv (λ e, outcome (fe_state e)) false (λ e o, outcome (fe_state e) = Some o)
      (λ e o H, H) (λ e e' o H, proj1 H o) m h _ _ completion_announced Hh Hd Hrun Hw)
      as (_ & e & He & Hp); [by exists e0|].
    exists e. split; [done|]. split; [|by intros o ->].
    intros a Ha Hn. by apply (task_returns _ _ (λ e o, outcome (fe_state e) = Some o)).
Qed.

(** Parked during the handshake; the packet that completes it wakes the task. *)
Lemma no_lost_wakeup_witness :
  ∃ e, lf_heap shaken_flow !! 0 = Some e ∧
    ∀ w' p, rtc (wait_step current_bypass_progress true wrong_md5_method 0) (shaken_flow, Looping) (w', p) →
    ∃ e', lf_heap w' !! 0 = Some e'.
Proof.
  destruct (lf_heap shaken_flow !! 0) as [e|] eqn:E; [|vm_compute in E; discriminate].
  exists e. split; [reflexivity|]. intros w' p Hrun.
  destruct (no_lost_wakeup 1024 wrong_md5_config 0 wrong_md5_method shaken_flow 0 wrong_md5_valid
    ltac:(vm_compute; discriminate) wrong_md5_built shaken_flow_reachable) as [H _]; [by exists e|].
  destruct (H w' p Hrun) as (e' & He' & _). exists e'. exact He'.
Defined.
