(* ===== verification/Protocol.v ===== *)
(** * The privileged-helper protocol

    Model of [crates/zerodpi-helper-protocol/src/lib.rs]: messages and their
    validation, the frames they travel in, and the requests the helper accepts
    in each state.  The JSON encoding of a message is a parameter ([Json]) of
    which the round trip is assumed, which [serde_json] documents for types
    that derive both of its traits. *)
From stdpp Require Import base list numbers strings.
From Stdlib Require Import ZArith Lia.
From S2P Require Import Prelude Flow Text.

(** ** Errors *)
Inductive ProtocolError :=
  | Io
  | InvalidMagic
  | UnsupportedVersion (major minor : Z)
  | UnknownMessageType (z : Z)
  | OversizedFrame (len : Z)
  | MessageTypeMismatch
  | InvalidField (what : string)
  | InvalidPayload.

Inductive presult (A : Type) := POk (a : A) | PErr (e : ProtocolError).
Global Arguments POk {A} _.
Global Arguments PErr {A} _.
Definition p_bind {A B} (r : presult A) (k : A → presult B) : presult B :=
  match r with POk a => k a | PErr e => PErr e end.
Notation "'let??' x := r 'in' k" := (p_bind r (λ x, k))
  (at level 10, x pattern, r at level 100, k at level 200).
Definition p_bail (b : bool) (what : string) (k : presult ()) : presult () :=
  if b then PErr (InvalidField what) else k.

(** ** Constants *)
Definition MAGIC : list Z := [90; 68; 72; 80]%Z.   (* ZDHP *)
Definition PROTOCOL_MAJOR : Z := 1.
Definition PROTOCOL_MINOR : Z := 3.
Definition HEADER_LEN : nat := 20.
Definition MAX_FRAME_SIZE : Z := 256 * 1024.
Definition MAX_FAKE_DATA_SIZE : Z := 64 * 1024.
Definition MAX_LIVE_FLOWS : nat := Z.to_nat 4096.
Definition SESSION_PROOF_SIZE : nat := 32.

(** ** Messages *)
Inductive MessageType :=
  | THello | THelloAccepted | TConfigureInterceptor | TConfigured | TOpenInterceptor
  | TInterceptorReady | TCloseInterceptor | TInterceptorClosed | TRegisterFlow | TFlowRegistered
  | TRemoveFlow | TFlowRemoved | TFlowProgress | TPing | TPong | TShutdown | TShutdownComplete
  | THelperWarning | THelperFatal | TSetLowTtlValue | TSetLowTtlAck.
#[export] Instance MessageType_eq_dec : EqDecision MessageType.
Proof. solve_decision. Defined.

Definition as_u16_type (t : MessageType) : Z :=
  match t with
  | THello => 1 | THelloAccepted => 2 | TConfigureInterceptor => 3 | TConfigured => 4
  | TOpenInterceptor => 5 | TInterceptorReady => 6 | TCloseInterceptor => 7
  | TInterceptorClosed => 8 | TRegisterFlow => 9 | TFlowRegistered => 10 | TRemoveFlow => 11
  | TFlowRemoved => 12 | TFlowProgress => 13 | TPing => 14 | TPong => 15 | TShutdown => 16
  | TShutdownComplete => 17 | THelperWarning => 18 | THelperFatal => 19 | TSetLowTtlValue => 20
  | TSetLowTtlAck => 21
  end%Z.

Definition from_u16 (value : Z) : presult MessageType :=
  match value with
  | 1 => POk THello | 2 => POk THelloAccepted | 3 => POk TConfigureInterceptor
  | 4 => POk TConfigured | 5 => POk TOpenInterceptor | 6 => POk TInterceptorReady
  | 7 => POk TCloseInterceptor | 8 => POk TInterceptorClosed | 9 => POk TRegisterFlow
  | 10 => POk TFlowRegistered | 11 => POk TRemoveFlow | 12 => POk TFlowRemoved
  | 13 => POk TFlowProgress | 14 => POk TPing | 15 => POk TPong | 16 => POk TShutdown
  | 17 => POk TShutdownComplete | 18 => POk THelperWarning | 19 => POk THelperFatal
  | 20 => POk TSetLowTtlValue | 21 => POk TSetLowTtlAck
  | other => PErr (UnknownMessageType other)
  end%Z.

Record Hello := MkHello {
  session_proof : list Z; data_plane_pid : Z; build_version : string }.
Record HelloAccepted := MkHelloAccepted {
  peer_uid : Z; helper_pid : Z; helper_uid : Z; protocol_major : Z; protocol_minor : Z;
  capabilities : list string }.
Inductive FirewallBackend := Iptables | Nftables.

Record MethodConfig := MkMethodConfig {
  methods : list string;
  wrong_seq_extra_offset : Z; wrong_seq_set_psh : bool; wrong_seq_bump_ip_ident : bool;
  wrong_checksum_delta : Z; wrong_checksum_set_psh : bool; wrong_checksum_bump_ip_ident : bool;
  wrong_checksum_complete_immediately : bool;
  wrong_md5_set_psh : bool; wrong_md5_bump_ip_ident : bool;
  wrong_md5_complete_immediately : bool;
  wrong_ack_offset : Z; wrong_ack_set_psh : bool; wrong_ack_bump_ip_ident : bool;
  wrong_ack_complete_immediately : bool;
  wrong_timestamp_offset : Z; wrong_timestamp_set_psh : bool; wrong_timestamp_bump_ip_ident : bool;
  wrong_timestamp_complete_immediately : bool;
  tls_record_frag_size : Z; tls_record_frag_set_psh : bool; tls_record_frag_bump_ip_ident : bool;
  low_ttl_value : Z; low_ttl_set_psh : bool; low_ttl_bump_ip_ident : bool;
  low_ttl_complete_immediately : bool }.

Record InterceptorConfig := MkInterceptorConfig {
  interface_ip : Z; remote_ip : option Z; remote_port : Z; queue_num : Z;
  firewall_backend : FirewallBackend; method : MethodConfig }.

Inductive Progress := PReadyForData | PFakeDataAcked | PUnexpectedClose.
#[export] Instance Progress_eq_dec : EqDecision Progress.
Proof. solve_decision. Defined.
Inductive ErrorCode :=
  | AuthenticationFailed | ProtocolMismatch | InvalidState | InvalidConfig | InterceptorFailed
  | FlowLimitReached | Internal.

Inductive Message :=
  | MHello (hello : Hello)
  | MHelloAccepted (accepted : HelloAccepted)
  | MConfigureInterceptor (config : InterceptorConfig)
  | MConfigured | MOpenInterceptor | MInterceptorReady | MCloseInterceptor | MInterceptorClosed
  | MRegisterFlow (flow_id : Z) (key : FlowKey) (fake_data : list Z) (low_ttl_override : option Z)
  | MFlowRegistered (flow_id : Z)
  | MRemoveFlow (flow_id : Z)
  | MFlowRemoved (flow_id : Z)
  | MFlowProgress (flow_id : Z) (progress : Progress)
  | MPing | MPong | MShutdown | MShutdownComplete
  | MHelperWarning (code : ErrorCode) (message : string)
  | MHelperFatal (code : ErrorCode) (message : string)
  | MSetLowTtlValue (value : Z)
  | MSetLowTtlAck.

Definition message_type (m : Message) : MessageType :=
  match m with
  | MHello _ => THello | MHelloAccepted _ => THelloAccepted
  | MConfigureInterceptor _ => TConfigureInterceptor | MConfigured => TConfigured
  | MOpenInterceptor => TOpenInterceptor | MInterceptorReady => TInterceptorReady
  | MCloseInterceptor => TCloseInterceptor | MInterceptorClosed => TInterceptorClosed
  | MRegisterFlow _ _ _ _ => TRegisterFlow | MFlowRegistered _ => TFlowRegistered
  | MRemoveFlow _ => TRemoveFlow | MFlowRemoved _ => TFlowRemoved
  | MFlowProgress _ _ => TFlowProgress | MPing => TPing | MPong => TPong
  | MShutdown => TShutdown | MShutdownComplete => TShutdownComplete
  | MHelperWarning _ _ => THelperWarning | MHelperFatal _ _ => THelperFatal
  | MSetLowTtlValue _ => TSetLowTtlValue | MSetLowTtlAck => TSetLowTtlAck
  end.

(** ** Validation *)
Definition SUPPORTED : list string :=
  ["wrong_seq"; "wrong_ack"; "wrong_checksum"; "wrong_md5"; "wrong_timestamp"; "low_ttl";
   "tls_record_frag"; "fake_tls"; "ip_frag"; "disorder"; "tls_frag"; "ccs_prefix"; "tls_padding";
   "mixed_case_sni"; "urg_sni_split"; "sni_boundary_frag"].

Definition method_config_validate (c : MethodConfig) : presult () :=
  p_bail (match methods c with [] => true | _ => false end ||
          existsb (λ m, negb (existsb (String.eqb m) SUPPORTED)) (methods c)) "method names" (
  p_bail (wrong_checksum_delta c =? 0)%Z "wrong checksum delta" (
  p_bail (wrong_ack_offset c =? 0)%Z "wrong ACK offset" (
  p_bail (wrong_timestamp_offset c =? 0)%Z "wrong timestamp offset" (
  p_bail (low_ttl_value c =? 0)%Z "low TTL value" (
  p_bail (64 <? low_ttl_value c)%Z "low TTL value" (
  p_bail ((tls_record_frag_size c =? 0) || (65535 <? tls_record_frag_size c))%Z
    "TLS record fragment size" (POk ()))))))).

(** [is_unspecified], [is_multicast] and [is_broadcast] of [Ipv4Addr]. *)
Definition invalid_endpoint_address (address : Z) : bool :=
  ((address =? 0) || ((224 <=? address / 2 ^ 24) && (address / 2 ^ 24 <=? 239)) ||
   (address =? 2 ^ 32 - 1))%Z.

Definition interceptor_config_validate (c : InterceptorConfig) : presult () :=
  p_bail (invalid_endpoint_address (interface_ip c)) "interface address" (
  p_bail (from_option invalid_endpoint_address false (remote_ip c)) "remote address" (
  p_bail (remote_port c =? 0)%Z "remote port" (
  p_bail (queue_num c =? 0)%Z "queue number" (method_config_validate (method c))))).

Definition flow_key_validate (k : FlowKey) : presult () :=
  p_bail (invalid_endpoint_address (fk_src_ip k) || invalid_endpoint_address (fk_dst_ip k))
    "flow address" (
  p_bail ((fk_src_port k =? 0) || (fk_dst_port k =? 0))%Z "flow port" (POk ())).

Definition slen (s : string) : Z := Z.of_nat (String.length s).
Definition zlength {A} (l : list A) : Z := Z.of_nat (length l).

Definition validate (m : Message) : presult () :=
  match m with
  | MHello hello =>
      p_bail (negb (length (session_proof hello) =? SESSION_PROOF_SIZE)) "session proof" (
      p_bail ((data_plane_pid hello =? 0)%Z || (slen (build_version hello) =? 0)%Z ||
              (64 <? slen (build_version hello))%Z) "hello metadata" (POk ()))
  | MConfigureInterceptor config => interceptor_config_validate config
  | MRegisterFlow flow_id key fake_data low_ttl_override =>
      p_bail ((flow_id =? 0)%Z || (MAX_FAKE_DATA_SIZE <? zlength fake_data)%Z) "flow registration" (
      let?? _ := flow_key_validate key in
      p_bail (from_option (λ v, (v =? 0) || (64 <? v))%Z false low_ttl_override)
        "low TTL override" (POk ()))
  | MFlowRegistered flow_id | MRemoveFlow flow_id | MFlowRemoved flow_id
  | MFlowProgress flow_id _ => p_bail (flow_id =? 0)%Z "flow id" (POk ())
  | MHelloAccepted a =>
      p_bail ((peer_uid a =? 0)%Z || (helper_pid a =? 0)%Z || negb (helper_uid a =? 0)%Z ||
              negb (protocol_major a =? PROTOCOL_MAJOR)%Z || (PROTOCOL_MINOR <? protocol_minor a)%Z)
        "accepted helper identity" (
      p_bail ((32 <? zlength (capabilities a))%Z ||
              existsb (λ c, (slen c =? 0) || (32 <? slen c))%Z (capabilities a))
        "capabilities" (POk ()))
  | MHelperWarning _ message | MHelperFatal _ message =>
      p_bail (512 <? slen message)%Z "diagnostic message" (POk ())
  | MSetLowTtlValue value => p_bail ((value =? 0) || (64 <? value))%Z "low TTL value" (POk ())
  | _ => POk ()
  end.

(** ** Frames *)

(** [serde_json::to_vec] and [from_slice] at [Message]. *)
Class Json := {
  to_vec : Message → option (list Z);
  from_slice : list Z → option Message }.
Class JsonLaws `{Json} : Prop := {
  json_roundtrip m payload : to_vec m = Some payload → from_slice payload = Some m }.

Record Frame := MkFrame { request_id : Z; flags : Z; message : Message }.
Definition Frame_new (request_id : Z) (message : Message) : Frame := MkFrame request_id 0 message.

(** [read_exact] from a byte stream. *)
Definition take_exact (n : nat) (bytes : list Z) : presult (list Z * list Z) :=
  if n <=? length bytes then POk (take n bytes, drop n bytes) else PErr Io.

Definition word16 (h : list Z) (i : nat) : Z := from_be16 (h !!! i) (h !!! S i).
Definition word32 (h : list Z) (i : nat) : Z :=
  from_be32 (h !!! i) (h !!! (i + 1)) (h !!! (i + 2)) (h !!! (i + 3)).

Section frames.
Context `{Json}.

Definition frame_header (frame : Frame) (payload : list Z) : list Z :=
  MAGIC ++ to_be16 PROTOCOL_MAJOR ++ to_be16 PROTOCOL_MINOR ++
  to_be16 (as_u16_type (message_type (message frame))) ++ to_be16 (flags frame) ++
  to_be32 (request_id frame) ++ to_be32 (as_u32 (zlength payload)).

(** What [write_frame] puts on the stream. *)
Definition write_frame (frame : Frame) : presult (list Z) :=
  if negb (flags frame =? 0)%Z then PErr (InvalidField "frame flags") else
  let?? _ := validate (message frame) in
  match to_vec (message frame) with
  | None => PErr InvalidPayload
  | Some payload =>
      if (MAX_FRAME_SIZE <? zlength payload)%Z then PErr (OversizedFrame (zlength payload))
      else POk (frame_header frame payload ++ payload)
  end.

(** [read_frame] returns the frame and the rest of the stream. *)
Definition read_frame (bytes : list Z) : presult (Frame * list Z) :=
  let?? (header, bytes) := take_exact HEADER_LEN bytes in
  if negb (bool_decide (take 4 header = MAGIC)) then PErr InvalidMagic else
  let major := word16 header 4 in
  let minor := word16 header 6 in
  if negb (major =? PROTOCOL_MAJOR)%Z || (PROTOCOL_MINOR <? minor)%Z
  then PErr (UnsupportedVersion major minor) else
  let?? message_type_ := from_u16 (word16 header 8) in
  let flags := word16 header 10 in
  if negb (flags =? 0)%Z then PErr (InvalidField "frame flags") else
  let request_id := word32 header 12 in
  let payload_len := word32 header 16 in
  if (MAX_FRAME_SIZE <? payload_len)%Z then PErr (OversizedFrame payload_len) else
  let?? (payload, bytes) := take_exact (Z.to_nat payload_len) bytes in
  match from_slice payload with
  | None => PErr InvalidPayload
  | Some m =>
      if negb (bool_decide (message_type m = message_type_)) then PErr MessageTypeMismatch else
      let?? _ := validate m in
      POk (MkFrame request_id flags m, bytes)
  end.

(** The reader threads: frames until the first failure.  Every frame takes
    its header, so [length bytes] rounds are enough. *)
Fixpoint read_frames (fuel : nat) (bytes : list Z) : list Frame :=
  match fuel with
  | O => []
  | S fuel =>
      match read_frame bytes with
      | POk (frame, bytes) => frame :: read_frames fuel bytes
      | PErr _ => []
      end
  end.
End frames.

(** ** The states of the helper *)
Inductive HelperState := Created | Authenticated | Configured | InterceptorOpen | ShuttingDown | Exited.
#[export] Instance HelperState_eq_dec : EqDecision HelperState.
Proof. solve_decision. Defined.

Definition accepts (s : HelperState) (m : Message) : bool :=
  match m with
  | MHello _ => bool_decide (s = Created)
  | MConfigureInterceptor _ => bool_decide (s = Authenticated ∨ s = Configured)
  | MOpenInterceptor => bool_decide (s = Configured)
  | MRegisterFlow _ _ _ _ => bool_decide (s = InterceptorOpen)
  | MRemoveFlow _ => bool_decide (s = Authenticated ∨ s = Configured ∨ s = InterceptorOpen)
  | MCloseInterceptor => bool_decide (s = Configured ∨ s = InterceptorOpen)
  | MSetLowTtlValue _ => bool_decide (s = InterceptorOpen)
  | MPing => negb (bool_decide (s = Created ∨ s = Exited))
  | MShutdown => negb (bool_decide (s = Exited))
  | _ => false
  end.

(** ** Round trip *)
Lemma from_u16_type t : from_u16 (as_u16_type t) = POk t.
Proof. by destruct t. Qed.

Section roundtrip.
Context `{JsonLaws}.

Lemma take_exact_app n l rest : length l = n → take_exact n (l ++ rest) = POk (l, rest).
Proof.
  intros <-. unfold take_exact. rewrite length_app, (proj2 (Nat.leb_le _ _)) by lia.
  by rewrite take_app_length, drop_app_length.
Qed.

Lemma write_frame_ok f bytes : write_frame f = POk bytes →
  flags f = 0%Z ∧ validate (message f) = POk () ∧
  ∃ payload, to_vec (message f) = Some payload ∧ (zlength payload ≤ MAX_FRAME_SIZE)%Z ∧
    bytes = frame_header f payload ++ payload.
Proof.
  unfold write_frame. destruct (Z.eqb_spec (flags f) 0); [|done]. cbn [negb].
  destruct (validate (message f)) as [[]|]; [|done]. cbn [p_bind].
  destruct (to_vec (message f)) as [payload|]; [|done].
  destruct (Z.ltb_spec MAX_FRAME_SIZE (zlength payload)); [done|]. intros [= <-].
  split_and!; [done..|]. by exists payload.
Qed.

Lemma length_frame_header f payload : length (frame_header f payload) = HEADER_LEN.
Proof. done. Qed.

Lemma as_u16_type_u16 t : is_u16 (as_u16_type t).
Proof. by destruct t. Qed.

Lemma frame_words f payload : flags f = 0%Z → (0 ≤ request_id f < 2 ^ 32)%Z →
  (zlength payload ≤ MAX_FRAME_SIZE)%Z →
  let h := frame_header f payload in
  word16 h 8 = as_u16_type (message_type (message f)) ∧ word16 h 10 = 0%Z ∧
  word32 h 12 = request_id f ∧ word32 h 16 = zlength payload.
Proof.
  intros Hf Hr Hp h. unfold h, word16, word32, frame_header, MAGIC. rewrite Hf.
  assert (Hu : is_u32 (zlength payload)) by (unfold is_u32, zlength, MAX_FRAME_SIZE in *; lia).
  cbn [app to_be16 to_be32 lookup_total list_lookup_total Nat.add].
  split_and!.
  - apply be16_roundtrip, as_u16_type_u16.
  - done.
  - apply be32_roundtrip. done.
  - rewrite as_u32_small by done. by apply be32_roundtrip.
Qed.

(** What is read back of a written frame, and what is left of the stream. *)
Lemma read_written f bytes rest : (0 ≤ request_id f < 2 ^ 32)%Z →
  write_frame f = POk bytes → read_frame (bytes ++ rest) = POk (f, rest).
Proof.
  intros Hr Hw. apply write_frame_ok in Hw as (Hf & Hv & payload & Hj & Hp & ->).
  destruct (frame_words f payload Hf Hr Hp) as (H8 & H10 & H12 & H16).
  unfold read_frame. rewrite <-app_assoc, take_exact_app by apply length_frame_header.
  cbn [p_bind]. rewrite H8, H10, H12, H16. rewrite from_u16_type. cbn [p_bind].
  replace (bool_decide (take 4 (frame_header f payload) = MAGIC)) with true by done.
  replace (word16 (frame_header f payload) 4) with PROTOCOL_MAJOR by done.
  replace (word16 (frame_header f payload) 6) with PROTOCOL_MINOR by done.
  rewrite !Z.eqb_refl, Z.ltb_irrefl. cbn [negb orb]. rewrite (proj2 (Z.ltb_ge _ _)) by done.
  rewrite take_exact_app by (unfold zlength; lia). cbn [p_bind].
  rewrite (json_roundtrip _ _ Hj), bool_decide_true, Hv by done.
  destruct f as [rid fl m]. simpl in *. by rewrite Hf.
Qed.

Lemma take_exact_short n l : length l < n → take_exact n l = PErr Io.
Proof. intros Hl. unfold take_exact. by rewrite (proj2 (Nat.leb_gt _ _)). Qed.

Lemma take_exact_ok n l a b : take_exact n l = POk (a, b) → l = a ++ b ∧ length a = n.
Proof.
  unfold take_exact. destruct (Nat.leb_spec n (length l)); [|done]. intros [= <- <-].
  by rewrite take_drop, length_take_le.
Qed.

(** A frame cut short anywhere is an I/O error (the unexpected end). *)
Lemma read_truncated f a b : (0 ≤ request_id f < 2 ^ 32)%Z → b ≠ [] →
  write_frame f = POk (a ++ b) → read_frame a = PErr Io.
Proof.
  intros Hr Hb Hw. apply write_frame_ok in Hw as (Hf & Hv & payload & Hj & Hp & Hab).
  destruct (decide (length a < HEADER_LEN)) as [Hs|Hs].
  { unfold read_frame. by rewrite take_exact_short. }
  destruct (frame_words f payload Hf Hr Hp) as (H8 & H10 & H12 & H16).
  assert (∃ c, a = frame_header f payload ++ c ∧ payload = c ++ b) as (c & -> & ->).
  { apply app_eq_inv in Hab as [(k & Ha & Hk)|(k & Ha & Hk)].
    - by exists k.
    - assert (k = []) as ->.
      { apply (f_equal length) in Ha. rewrite length_app, length_frame_header in Ha.
        destruct k; [done|simpl in *; lia]. }
      exists []. by rewrite app_nil_r in *. }
  unfold read_frame. rewrite take_exact_app by apply length_frame_header.
  cbn [p_bind]. rewrite H8, H10, H12, H16. rewrite from_u16_type. cbn [p_bind].
  replace (bool_decide (take 4 (frame_header f (c ++ b)) = MAGIC)) with true by done.
  replace (word16 (frame_header f (c ++ b)) 4) with PROTOCOL_MAJOR by done.
  replace (word16 (frame_header f (c ++ b)) 6) with PROTOCOL_MINOR by done.
  rewrite !Z.eqb_refl, Z.ltb_irrefl. cbn [negb orb]. rewrite (proj2 (Z.ltb_ge _ _)) by done.
  rewrite take_exact_short; [done|].
  unfold zlength. rewrite length_app. destruct b; [done|simpl; lia].
Qed.

(** Whatever is read is valid and within the limits. *)
Lemma read_frame_sound bytes f rest : read_frame bytes = POk (f, rest) →
  flags f = 0%Z ∧ validate (message f) = POk () ∧
  ∃ header payload, bytes = header ++ payload ++ rest ∧ length header = HEADER_LEN ∧
    take 4 header = MAGIC ∧ (zlength payload ≤ MAX_FRAME_SIZE)%Z ∧
    from_slice payload = Some (message f).
Proof.
  unfold read_frame. destruct (take_exact _ bytes) as [[h bytes']|] eqn:Eh; [|done].
  apply take_exact_ok in Eh as [-> Hlen]. cbn [p_bind].
  case_bool_decide as Hm; [|done]. cbn [negb].
  destruct (negb (_ =? _)%Z || _); [done|]. destruct (from_u16 _) as [t|]; [|done]. cbn [p_bind].
  destruct (Z.eqb_spec (word16 h 10) 0) as [Hfl|]; [|done]. cbn [negb].
  destruct (Z.ltb_spec MAX_FRAME_SIZE (word32 h 16)) as [|Hn]; [done|].
  destruct (take_exact _ bytes') as [[payload rest']|] eqn:Ep; [|done].
  apply take_exact_ok in Ep as [-> Hp]. cbn [p_bind].
  destruct (from_slice payload) as [m|] eqn:Em; [|done].
  case_bool_decide; [|done]. cbn [negb]. destruct (validate m) as [[]|] eqn:Ev; [|done].
  cbn [p_bind]. intros [= <- <-]. simpl. split_and!; [done..|].
  exists h, payload. split_and!; try done. unfold zlength. rewrite Hp.
  unfold MAX_FRAME_SIZE in *. lia.
Qed.

(** A well-formed sender: consecutive frames and the bytes of each. *)
Definition written (f : Frame) (bytes : list Z) : Prop :=
  (0 ≤ request_id f < 2 ^ 32)%Z ∧ write_frame f = POk bytes.

Lemma read_frames_written fs bs fuel rest : Forall2 written fs bs →
  read_frames (length fs + fuel) (concat bs ++ rest) = fs ++ read_frames fuel rest.
Proof.
  induction 1 as [|f b fs bs [Hr Hw] _ IH]; [done|]. cbn [concat length Nat.add read_frames].
  rewrite <-app_assoc, (read_written _ _ _ Hr Hw), IH. done.
Qed.

Lemma read_frames_short fuel f a b : written f (a ++ b) → b ≠ [] → read_frames fuel a = [].
Proof.
  intros [Hr Hw] Hb. destruct fuel; [done|]. cbn [read_frames].
  by rewrite (read_truncated _ _ _ Hr Hb Hw).
Qed.
Lemma read_frames_nil fuel : read_frames fuel [] = [].
Proof. by destruct fuel. Qed.

(** A stream cut at any point: the frames that arrived whole. *)
Lemma cut_stream fs bs a b : Forall2 written fs bs → concat bs = a ++ b → b ≠ [] →
  ∃ n f tail gap, fs !! n = Some f ∧ a = concat (take n bs) ++ tail ∧ gap ≠ [] ∧
    written f (tail ++ gap).
Proof.
  intros Hall. revert a. induction Hall as [|f b' fs bs Hw Hall IH]; intros a Hc Hb.
  { by destruct a, b. }
  simpl in Hc. apply app_eq_inv in Hc as [(k & Ha & Hk)|(k & -> & Hk)].
  - destruct k as [|x k].
    + rewrite app_nil_r in Ha. subst b'. simpl in Hk.
      destruct (IH [] (eq_sym Hk) Hb) as (n & g & tail & gap & Hn & Hta & Hg & Hwg).
      exists (S n), g, tail, gap. simpl. rewrite <-app_assoc, <-Hta, app_nil_r. done.
    + exists 0, f, a, (x :: k). by subst b'.
  - destruct (IH k Hk Hb) as (n & g & tail & gap & Hn & -> & Hg & Hwg).
    exists (S n), g, tail, gap. simpl. by rewrite <-app_assoc.
Qed.

(** (C40) The frames of the helper protocol on a byte stream.  What
    [write_frame] accepts (flags clear, a valid message, an encoding within
    256 KiB), written back to back, is read back as exactly those frames; a
    stream cut at any point gives the frames that arrived whole and then an
    I/O error, never another frame; and every frame the reader returns, from
    whatever bytes, is valid, has its flags clear and a payload within the
    limit. *)
Theorem frames_roundtrip fs bs : Forall2 written fs bs →
  (∀ fuel rest, length fs ≤ fuel →
     read_frames fuel (concat bs ++ rest) = fs ++ read_frames (fuel - length fs) rest) ∧
  (∀ a b fuel, concat bs = a ++ b → b ≠ [] → length fs ≤ fuel →
     ∃ n, n < length fs ∧ read_frames fuel a = take n fs ∧
       read_frame (drop (length (concat (take n bs))) a) = PErr Io) ∧
  ∀ bytes f rest, read_frame bytes = POk (f, rest) →
    flags f = 0%Z ∧ validate (message f) = POk () ∧
    ∃ header payload, bytes = header ++ payload ++ rest ∧ length header = HEADER_LEN ∧
      take 4 header = MAGIC ∧ (zlength payload ≤ MAX_FRAME_SIZE)%Z ∧
      from_slice payload = Some (message f).
Proof.
  intros Hall. split; [|split; [|exact read_frame_sound]].
  - intros fuel rest Hfuel. rewrite <-(read_frames_written fs bs) by done. f_equal. lia.
  - intros a b fuel Hc Hb Hfuel.
    destruct (cut_stream fs bs a b Hall Hc Hb) as (n & f & tail & gap & Hn & -> & Hg & Hw).
    pose proof (lookup_lt_Some _ _ _ Hn) as Hlt. exists n. split; [done|].
    rewrite drop_app_length. split; [|by eapply read_truncated; destruct Hw].
    assert (Hl : length (take n fs) = n) by (rewrite length_take; lia).
    replace fuel with (length (take n fs) + (fuel - n)) by lia.
    rewrite (read_frames_written _ (take n bs)) by by apply Forall2_take.
    by rewrite (read_frames_short _ f tail gap), app_nil_r.
Qed.
End roundtrip.

(** A codec that knows three messages. *)
Module SampleCodec.
Definition encode (m : Message) : option (list Z) :=
  match m with
  | MPing => Some [1] | MPong => Some [2] | MFlowRemoved id => Some [3; id] | _ => None
  end%Z.
Definition decode (bytes : list Z) : option Message :=
  match bytes with
  | [1] => Some MPing | [2] => Some MPong | [3; id] => Some (MFlowRemoved id) | _ => None
  end%Z.
#[export] Instance json : Json := { to_vec := encode; from_slice := decode }.
#[export] Instance json_laws : JsonLaws.
Proof. constructor. intros m payload. destruct m; simpl; by intros [= <-]. Qed.
End SampleCodec.

Lemma frames_roundtrip_witness :
  ∃ f1 f2 b1 b2,
    Forall2 (written (H := SampleCodec.json)) [f1; f2] [b1; b2] ∧
    read_frames (H := SampleCodec.json) 5 (b1 ++ b2 ++ [90%Z]) = [f1; f2] ∧
    read_frames (H := SampleCodec.json) 5 (b1 ++ take 20 b2) = [f1].
Proof.
  exists (Frame_new 7 MPing), (Frame_new 8 (MFlowRemoved 5)).
  exists [90; 68; 72; 80; 0; 1; 0; 3; 0; 14; 0; 0; 0; 0; 0; 7; 0; 0; 0; 1; 1]%Z.
  exists [90; 68; 72; 80; 0; 1; 0; 3; 0; 12; 0; 0; 0; 0; 0; 8; 0; 0; 0; 2; 3; 5]%Z.
  assert (Hw : Forall2 (written (H := SampleCodec.json)) [Frame_new 7 MPing; Frame_new 8 (MFlowRemoved 5)]
    [[90; 68; 72; 80; 0; 1; 0; 3; 0; 14; 0; 0; 0; 0; 0; 7; 0; 0; 0; 1; 1];
     [90; 68; 72; 80; 0; 1; 0; 3; 0; 12; 0; 0; 0; 0; 0; 8; 0; 0; 0; 2; 3; 5]]%Z).
  { repeat constructor; simpl; try lia; vm_compute; reflexivity. }
  destruct (@frames_roundtrip SampleCodec.json SampleCodec.json_laws _ _ Hw) as (H1 & H2 & _).
  split; [exact Hw|]. split.
  - etransitivity; [apply (H1 5 [90%Z]); simpl; lia|]. vm_compute. reflexivity.
  - match goal with |- read_frames _ ?a = _ =>
      destruct (H2 a [3; 5]%Z 5) as (n & _ & Hr & _); [reflexivity|done|simpl; lia|] end.
    vm_compute. reflexivity.
Defined.
