(* ===== verification/WireMethod.v ===== *)
(** * The bypass method across the privilege boundary

    Model of the two ends of the interceptor configuration: [interceptor_config]
    of [crates/zerodpi/src/helper_client.rs], which copies the method's
    parameters into the wire message, and [build_wire_method] of
    [crates/zerodpi-root-helper/src/unix.rs], which rebuilds the method from it
    over a fixed baseline configuration. *)
From stdpp Require Import base list numbers strings.
From Stdlib Require Import ZArith Lia.
From S2P Require Import Prelude Interceptor Flow Text Config Methods HandshakeMethods DataMethods Composite Handler Protocol.

(** ** The client's side *)
Definition method_config (cfg : Config) : MethodConfig :=
  {|
    methods := cfg.(BYPASS_METHOD); wrong_seq_extra_offset := cfg.(WRONG_SEQ_EXTRA_OFFSET);
    wrong_seq_set_psh := cfg.(WRONG_SEQ_SET_PSH);
    wrong_seq_bump_ip_ident := cfg.(WRONG_SEQ_BUMP_IP_IDENT);
    wrong_checksum_delta := cfg.(WRONG_CHECKSUM_DELTA);
    wrong_checksum_set_psh := cfg.(WRONG_CHECKSUM_SET_PSH);
    wrong_checksum_bump_ip_ident := cfg.(WRONG_CHECKSUM_BUMP_IP_IDENT);
    wrong_checksum_complete_immediately := cfg.(WRONG_CHECKSUM_COMPLETE_IMMEDIATELY);
    wrong_md5_set_psh := cfg.(WRONG_MD5_SET_PSH);
    wrong_md5_bump_ip_ident := cfg.(WRONG_MD5_BUMP_IP_IDENT);
    wrong_md5_complete_immediately := cfg.(WRONG_MD5_COMPLETE_IMMEDIATELY);
    wrong_ack_offset := cfg.(WRONG_ACK_OFFSET); wrong_ack_set_psh := cfg.(WRONG_ACK_SET_PSH);
    wrong_ack_bump_ip_ident := cfg.(WRONG_ACK_BUMP_IP_IDENT);
    wrong_ack_complete_immediately := cfg.(WRONG_ACK_COMPLETE_IMMEDIATELY);
    wrong_timestamp_offset := cfg.(WRONG_TIMESTAMP_OFFSET);
    wrong_timestamp_set_psh := cfg.(WRONG_TIMESTAMP_SET_PSH);
    wrong_timestamp_bump_ip_ident := cfg.(WRONG_TIMESTAMP_BUMP_IP_IDENT);
    wrong_timestamp_complete_immediately := cfg.(WRONG_TIMESTAMP_COMPLETE_IMMEDIATELY);
    tls_record_frag_size := cfg.(TLS_RECORD_FRAG_SIZE);
    tls_record_frag_set_psh := cfg.(TLS_RECORD_FRAG_SET_PSH);
    tls_record_frag_bump_ip_ident := cfg.(TLS_RECORD_FRAG_BUMP_IP_IDENT);
    low_ttl_value := cfg.(LOW_TTL_VALUE); low_ttl_set_psh := cfg.(LOW_TTL_SET_PSH);
    low_ttl_bump_ip_ident := cfg.(LOW_TTL_BUMP_IP_IDENT);
    low_ttl_complete_immediately := cfg.(LOW_TTL_COMPLETE_IMMEDIATELY) |}.

Definition wire_backend (b : LinuxFirewallBackend) : Protocol.FirewallBackend :=
  match b with
  | Interceptor.Iptables => Protocol.Iptables | Interceptor.Nftables => Protocol.Nftables end.

Definition interceptor_config (cfg : Config) (interface_ip : Z) (remote_ip : option Z)
    (remote_port : Z) : InterceptorConfig :=
  MkInterceptorConfig interface_ip remote_ip remote_port cfg.(NFQUEUE_NUM)
    (wire_backend (linux_firewall_backend cfg)) (method_config cfg).

(** ** The helper's side *)

(** The assignments to the baseline. *)
Definition with_wire (wire : MethodConfig) (c : Config) : Config := {|
  scan_config_path := c.(scan_config_path); CLOUDFLARE_ONLY := c.(CLOUDFLARE_ONLY);
  LISTEN_HOST := c.(LISTEN_HOST); LISTEN_PORT := c.(LISTEN_PORT); TCP_NODELAY := c.(TCP_NODELAY);
  SNI_LIST := c.(SNI_LIST); CUSTOM_DNS_ENABLED := c.(CUSTOM_DNS_ENABLED);
  CUSTOM_DNS_SERVERS := c.(CUSTOM_DNS_SERVERS); SCAN_TIMEOUT_SECS := c.(SCAN_TIMEOUT_SECS);
  DEDUPLICATE_SCAN_LISTS := c.(DEDUPLICATE_SCAN_LISTS); AUTO_SELECT := c.(AUTO_SELECT);
  LOAD_BALANCE_ENABLED := c.(LOAD_BALANCE_ENABLED);
  LOAD_BALANCE_TARGET_COUNT := c.(LOAD_BALANCE_TARGET_COUNT);
  LOAD_BALANCE_STRATEGY := c.(LOAD_BALANCE_STRATEGY);
  LOAD_BALANCE_PING_INTERVAL_SECS := c.(LOAD_BALANCE_PING_INTERVAL_SECS);
  RESCAN_INTERVAL_SECS := c.(RESCAN_INTERVAL_SECS);
  SNI_SWITCH_MIN_SCORE := c.(SNI_SWITCH_MIN_SCORE); SELECTED_SNI := c.(SELECTED_SNI);
  BYPASS_METHOD := from_names (methods wire); NFQUEUE_NUM := c.(NFQUEUE_NUM);
  LINUX_FIREWALL_BACKEND := c.(LINUX_FIREWALL_BACKEND);
  WRONG_SEQ_EXTRA_OFFSET := wrong_seq_extra_offset wire;
  WRONG_SEQ_SET_PSH := wrong_seq_set_psh wire;
  WRONG_SEQ_BUMP_IP_IDENT := wrong_seq_bump_ip_ident wire;
  WRONG_CHECKSUM_DELTA := wrong_checksum_delta wire;
  WRONG_CHECKSUM_SET_PSH := wrong_checksum_set_psh wire;
  WRONG_CHECKSUM_BUMP_IP_IDENT := wrong_checksum_bump_ip_ident wire;
  WRONG_CHECKSUM_COMPLETE_IMMEDIATELY := wrong_checksum_complete_immediately wire;
  LOW_TTL_VALUE := low_ttl_value wire; LOW_TTL_SET_PSH := low_ttl_set_psh wire;
  LOW_TTL_BUMP_IP_IDENT := low_ttl_bump_ip_ident wire;
  LOW_TTL_COMPLETE_IMMEDIATELY := low_ttl_complete_immediately wire;
  LOW_TTL_DISCOVER := c.(LOW_TTL_DISCOVER); LOW_TTL_DISCOVER_MAX := c.(LOW_TTL_DISCOVER_MAX);
  LOW_TTL_DISCOVER_TIMEOUT_MS := c.(LOW_TTL_DISCOVER_TIMEOUT_MS);
  WRONG_MD5_SET_PSH := wrong_md5_set_psh wire;
  WRONG_MD5_BUMP_IP_IDENT := wrong_md5_bump_ip_ident wire;
  WRONG_MD5_COMPLETE_IMMEDIATELY := wrong_md5_complete_immediately wire;
  WRONG_ACK_OFFSET := wrong_ack_offset wire; WRONG_ACK_SET_PSH := wrong_ack_set_psh wire;
  WRONG_ACK_BUMP_IP_IDENT := wrong_ack_bump_ip_ident wire;
  WRONG_ACK_COMPLETE_IMMEDIATELY := wrong_ack_complete_immediately wire;
  WRONG_TIMESTAMP_OFFSET := wrong_timestamp_offset wire;
  WRONG_TIMESTAMP_SET_PSH := wrong_timestamp_set_psh wire;
  WRONG_TIMESTAMP_BUMP_IP_IDENT := wrong_timestamp_bump_ip_ident wire;
  WRONG_TIMESTAMP_COMPLETE_IMMEDIATELY := wrong_timestamp_complete_immediately wire;
  TLS_RECORD_FRAG_SIZE := tls_record_frag_size wire;
  TLS_RECORD_FRAG_SET_PSH := tls_record_frag_set_psh wire;
  TLS_RECORD_FRAG_BUMP_IP_IDENT := tls_record_frag_bump_ip_ident wire;
  TLS_RECORD_SPLIT_POINT := c.(TLS_RECORD_SPLIT_POINT);
  TLS_RECORD_SPLIT_DELAY_MS := c.(TLS_RECORD_SPLIT_DELAY_MS);
  FAKE_TLS_EXTRA_OFFSET := c.(FAKE_TLS_EXTRA_OFFSET); FAKE_TLS_SET_PSH := c.(FAKE_TLS_SET_PSH);
  FAKE_TLS_BUMP_IP_IDENT := c.(FAKE_TLS_BUMP_IP_IDENT);
  FAKE_TLS_COMPLETE_IMMEDIATELY := c.(FAKE_TLS_COMPLETE_IMMEDIATELY);
  FAKE_TLS_FORWARD_REAL := c.(FAKE_TLS_FORWARD_REAL); FAKE_TLS_REPEATS := c.(FAKE_TLS_REPEATS);
  FAKE_TLS_CHAIN_DELAY_MS := c.(FAKE_TLS_CHAIN_DELAY_MS); IP_FRAG_SIZE := c.(IP_FRAG_SIZE);
  IP_FRAG_ONLY_FIRST_PACKET := c.(IP_FRAG_ONLY_FIRST_PACKET);
  DISORDER_SEGMENTS := c.(DISORDER_SEGMENTS); DISORDER_DELAY_MS := c.(DISORDER_DELAY_MS);
  DISORDER_REVERSE := c.(DISORDER_REVERSE);
  DISORDER_ONLY_FIRST_PACKET := c.(DISORDER_ONLY_FIRST_PACKET); SEQOVL_SIZE := c.(SEQOVL_SIZE);
  SEQOVL_PATTERN := c.(SEQOVL_PATTERN); SEQOVL_SEGMENTS := c.(SEQOVL_SEGMENTS);
  SEQOVL_REVERSE := c.(SEQOVL_REVERSE); SEQOVL_DELAY_MS := c.(SEQOVL_DELAY_MS);
  SNI_SPLIT_DUMMY_BYTE := c.(SNI_SPLIT_DUMMY_BYTE); SNI_SPLIT_POSITION := c.(SNI_SPLIT_POSITION);
  SNI_BOUNDARY_FRAG_SPLIT_POINT := c.(SNI_BOUNDARY_FRAG_SPLIT_POINT);
  SNI_BOUNDARY_FRAG_DELAY_MS := c.(SNI_BOUNDARY_FRAG_DELAY_MS);
  TLS_FRAG_PACKETS := c.(TLS_FRAG_PACKETS); TLS_FRAG_LENGTH := c.(TLS_FRAG_LENGTH);
  TLS_FRAG_INTERVAL_MS := c.(TLS_FRAG_INTERVAL_MS); TCP_SEG_SIZE := c.(TCP_SEG_SIZE);
  TCP_SEG_NODELAY := c.(TCP_SEG_NODELAY); TLS_PADDING_SIZE := c.(TLS_PADDING_SIZE);
  TLS_PADDING_POSITION := c.(TLS_PADDING_POSITION);
  MIXED_CASE_SNI_FLIP_ALL := c.(MIXED_CASE_SNI_FLIP_ALL);
  CCS_PREFIX_RECORD_VERSION := c.(CCS_PREFIX_RECORD_VERSION);
  BYPASS_TIMEOUT_SECS := c.(BYPASS_TIMEOUT_SECS);
  RELAY_MAX_LIFETIME_SECS := c.(RELAY_MAX_LIFETIME_SECS); MODE := c.(MODE);
  IP_LIST := c.(IP_LIST); SELECTED_IP := c.(SELECTED_IP); IP_SCAN_SNI := c.(IP_SCAN_SNI);
  IPV6_MAX_HOSTS := c.(IPV6_MAX_HOSTS); SCAN_OUTPUT := c.(SCAN_OUTPUT);
  METHOD_SCAN_METHODS := c.(METHOD_SCAN_METHODS); METHOD_SCAN_SAMPLES := c.(METHOD_SCAN_SAMPLES);
  METHOD_SCAN_INTERVAL_MS := c.(METHOD_SCAN_INTERVAL_MS);
  METHOD_SCAN_TIMEOUT_SECS := c.(METHOD_SCAN_TIMEOUT_SECS);
  METHOD_SCAN_OUTPUT := c.(METHOD_SCAN_OUTPUT); SNI_MAX_CONCURRENT := c.(SNI_MAX_CONCURRENT);
  IP_MAX_P1_CONCURRENT := c.(IP_MAX_P1_CONCURRENT);
  IP_MAX_P2_CONCURRENT := c.(IP_MAX_P2_CONCURRENT); SCAN_DOWNLOAD_CAP := c.(SCAN_DOWNLOAD_CAP);
  SCAN_UPLOAD_CAP := c.(SCAN_UPLOAD_CAP); SCAN_UPLOAD_PATH := c.(SCAN_UPLOAD_PATH);
  TCP_LATENCY_CAP_MS := c.(TCP_LATENCY_CAP_MS); TLS_LATENCY_CAP_MS := c.(TLS_LATENCY_CAP_MS);
  TTFB_CAP_MS := c.(TTFB_CAP_MS); SPEED_CAP_BPS := c.(SPEED_CAP_BPS);
  UPLOAD_SPEED_CAP_BPS := c.(UPLOAD_SPEED_CAP_BPS);
  PROXY_TEST_MIN_SNI_SCORE := c.(PROXY_TEST_MIN_SNI_SCORE);
  PROXY_TEST_TOP_N := c.(PROXY_TEST_TOP_N); PROXY_TEST_SOCKS5_HOST := c.(PROXY_TEST_SOCKS5_HOST);
  PROXY_TEST_SOCKS5_PORT := c.(PROXY_TEST_SOCKS5_PORT); PROXY_TEST_URL := c.(PROXY_TEST_URL);
  PROXY_TEST_TIMEOUT_SECS := c.(PROXY_TEST_TIMEOUT_SECS);
  PROXY_TEST_SNI_WEIGHT := c.(PROXY_TEST_SNI_WEIGHT);
  PROXY_TEST_LATENCY_CAP_MS := c.(PROXY_TEST_LATENCY_CAP_MS);
  PROXY_TEST_TTFB_CAP_MS := c.(PROXY_TEST_TTFB_CAP_MS);
  PROXY_TEST_SPEED_CAP_BPS := c.(PROXY_TEST_SPEED_CAP_BPS) |}.

Definition baseline : Config := default_config "127.0.0.1" 1.

(** The configuration the helper builds its method from. *)
Definition wire_config (wire : MethodConfig) : Config := with_wire wire baseline.

Definition build_wire_method (wire : MethodConfig) (seed : Z) : option BypassMethod :=
  build_method (wire_config wire) seed.

(** ** What crosses *)

(** The methods every parameter of which is in the message, and those that
    work on the socket, of which only the name matters here. *)
Definition WIRED : list string :=
  ["wrong_seq"; "wrong_ack"; "wrong_checksum"; "wrong_md5"; "wrong_timestamp"; "low_ttl";
   "tls_record_frag"; "tls_frag"; "ccs_prefix"; "tls_padding"; "mixed_case_sni";
   "sni_boundary_frag"].

Ltac wired_cases H :=
  apply list_elem_of_In in H; cbn [In WIRED SUPPORTED] in H;
  repeat match type of H with _ ∨ _ => destruct H as [<-|H] end; [..|done].

Lemma supported_spec l :
  existsb (λ m, negb (existsb (String.eqb m) SUPPORTED)) l = false ↔ ∀ n, n ∈ l → n ∈ SUPPORTED.
Proof.
  induction l as [|x l IH]; cbn [existsb]; [split; [intros _ n Hn; by inversion Hn|done]|].
  rewrite orb_false_iff, IH, negb_false_iff. fold (str_mem x SUPPORTED). rewrite str_mem_spec.
  split.
  - intros [Hx Hl] n [->|Hn]%elem_of_cons; eauto.
  - intros Hl. split; [apply Hl; by left|]. intros n Hn. apply Hl. by right.
Qed.

Lemma supported_base n : n ∈ SUPPORTED → n ∈ BASE_BYPASS_METHODS ∧ expand_method_alias n = [n].
Proof.
  intros H. wired_cases H; (split; [apply list_elem_of_In; cbn; tauto|reflexivity]).
Qed.

Lemma from_names_supported l : (∀ n, n ∈ l → n ∈ SUPPORTED) → from_names l = l.
Proof.
  unfold from_names. induction l as [|n l IH]; intros Hl; [done|]. cbn [flat_map].
  destruct (supported_base n) as [_ ->]; [apply Hl; by left|].
  cbn [app]. rewrite IH; [done|]. intros m Hm. apply Hl. by right.
Qed.

Lemma wired_supported n : n ∈ WIRED → n ∈ SUPPORTED.
Proof. intros H. wired_cases H; apply list_elem_of_In; cbn; tauto. Qed.

(** What the wire validation gives. *)
Lemma method_config_ok w : method_config_validate w = POk () →
  methods w ≠ [] ∧ (∀ n, n ∈ methods w → n ∈ SUPPORTED) ∧ (tls_record_frag_size w ≠ 0)%Z.
Proof.
  unfold method_config_validate, p_bail.
  destruct (match methods w with [] => true | _ => false end || _) eqn:E; [done|].
  apply orb_false_iff in E as [En Es]. rewrite supported_spec in Es.
  repeat match goal with |- context [if ?b then PErr _ else _] =>
    let E := fresh "E" in destruct b eqn:E; [done|] end.
  intros _. split; [by destruct (methods w)|]. split; [done|].
  match goal with H : (_ =? 0)%Z || (65535 <? _)%Z = false |- _ =>
    apply orb_false_iff in H as [H _]; by apply Z.eqb_neq in H end.
Qed.

(** The method of any configuration that the wire validation accepts is safe
    to call: whatever the client sends, the interceptor thread cannot panic. *)
Lemma wire_method_safe w seed m : method_config_validate w = POk () →
  (0 ≤ tls_record_frag_size w)%Z → build_wire_method w seed = Some m →
  HandshakeSafe m ∧ DataSafe m.
Proof.
  intros (_ & Hs & Hf)%method_config_ok H0 Hb. unfold build_wire_method, build_method in Hb.
  unfold build_composite in Hb. cbn [BYPASS_METHOD with_wire wire_config] in Hb.
  rewrite from_names_supported in Hb by done.
  destruct (_ || _); [done|].
  rewrite build_members_base in Hb by (intros n Hn; by apply supported_base, Hs).
  cbn [option_map app] in Hb. injection Hb as <-.
  split.
  - apply composite_handshake_safe, Forall_map_filter, handshake_member_safe.
  - apply composite_data_safe, Forall_map_filter. intros n. apply data_member_safe.
    cbn [TLS_RECORD_FRAG_SIZE with_wire wire_config]. lia.
Qed.

Lemma member_wired cfg seed n : n ∈ WIRED →
  build_member (wire_config (method_config cfg)) seed n = build_member cfg seed n.
Proof. intros H. wired_cases H; reflexivity. Qed.

Lemma members_wired cfg seed l h d : (∀ n, n ∈ l → n ∈ WIRED) →
  build_members (wire_config (method_config cfg)) seed l h d = build_members cfg seed l h d.
Proof.
  revert h d. induction l as [|n l IH]; intros h d Hl; [done|]. cbn [build_members].
  rewrite member_wired by (apply Hl; by left).
  assert (∀ m, m ∈ l → m ∈ WIRED) as Hl' by (intros m Hm; apply Hl; by right).
  destruct (build_member cfg seed n) as [[[?|?]|]|]; auto.
Qed.

Lemma method_config_accepted mp cfg : Config.validate mp cfg = Ok () →
  (∀ n, n ∈ cfg.(BYPASS_METHOD) → n ∈ SUPPORTED) → (cfg.(TLS_RECORD_FRAG_SIZE) ≤ 65535)%Z →
  method_config_validate (method_config cfg) = POk ().
Proof.
  intros Hv Hl Hf. apply validate_parts in Hv as [Hm Hp].
  unfold method_config_validate, p_bail, method_config. cbn -[SUPPORTED Z.eqb Z.ltb].
  rewrite (proj2 (supported_spec _) Hl).
  destruct Hp. destruct Hm. destruct po_nonzero as (?&?&?), po_low_ttl as (?&?&_).
  rewrite !(proj2 (Z.eqb_neq _ _)), !(proj2 (Z.ltb_ge _ _)) by done.
  by destruct (BYPASS_METHOD cfg).
Qed.

(** The method across the privilege boundary.  A validated configuration
    whose methods the protocol knows, and whose record fragments fit 16 bits,
    passes the wire validation; if every parameter of its methods is in the
    message, the method the helper rebuilds is the very method the data plane
    would build locally.  Any other name is refused.  And whatever
    configuration passes the wire validation, the rebuilt method is safe in
    the handler: it cannot make the privileged process panic. *)
Theorem remote_method mp cfg seed : Config.validate mp cfg = Ok () →
  ((∀ n, n ∈ cfg.(BYPASS_METHOD) → n ∈ SUPPORTED) → (cfg.(TLS_RECORD_FRAG_SIZE) ≤ 65535)%Z →
     method_config_validate (method_config cfg) = POk ()) ∧
  ((∀ n, n ∈ cfg.(BYPASS_METHOD) → n ∈ WIRED) →
     build_wire_method (method_config cfg) seed = build_method cfg seed) ∧
  ((∃ n, n ∈ cfg.(BYPASS_METHOD) ∧ n ∉ SUPPORTED) →
     method_config_validate (method_config cfg) = PErr (InvalidField "method names")) ∧
  ∀ w m, method_config_validate w = POk () → (0 ≤ tls_record_frag_size w)%Z →
    build_wire_method w seed = Some m → HandshakeSafe m ∧ DataSafe m.
Proof.
  intros Hv. split; [|split; [|split]].
  - by eapply method_config_accepted.
  - intros Hw. unfold build_wire_method, build_method, build_composite. f_equal.
    cbn [BYPASS_METHOD with_wire wire_config method_config methods].
    rewrite from_names_supported by auto using wired_supported.
    by rewrite members_wired.
  - intros (n & Hn & Hs). unfold method_config_validate, p_bail.
    destruct (existsb (λ m, negb (existsb (String.eqb m) SUPPORTED))
      (methods (method_config cfg))) eqn:E; [by rewrite orb_true_r|].
    destruct Hs. by apply (proj1 (supported_spec _) E).
  - intros w m. apply wire_method_safe.
Qed.

Lemma remote_method_witness :
  Config.validate 1024 mixed_config = Ok () ∧ Config.validate 1024 wrong_md5_config = Ok () ∧
  build_wire_method (method_config wrong_md5_config) 0 = build_method wrong_md5_config 0 ∧
  is_none (build_wire_method (method_config mixed_config) 0) = false.
Proof.
  split; [vm_compute; reflexivity|]. split; [vm_compute; reflexivity|]. split.
  - apply (remote_method 1024 wrong_md5_config 0); [vm_compute; reflexivity|].
    intros n Hn. apply list_elem_of_singleton in Hn as ->. apply list_elem_of_In. cbn. tauto.
  - vm_compute. reflexivity.
Defined.

(** The parameters of the other known methods stay behind: the helper
    fragments at the default size, whatever the configuration says. *)
Lemma ip_frag_parameters_dropped cfg seed : cfg.(BYPASS_METHOD) = ["ip_frag"] →
  option_map (λ c, data_methods c) (build_composite (wire_config (method_config cfg)) seed) =
    Some [IpFrag.method (IpFrag.Mk 24 true)].
Proof.
  intros H. unfold build_composite. cbn [BYPASS_METHOD with_wire wire_config method_config methods].
  by rewrite H.
Qed.
