(* ===== verification/RootHelper.v ===== *)
(** * The privileged helper

    Model of [serve], [close_interceptor] and [publish_progress] of
    [crates/zerodpi-root-helper/src/unix.rs]: the helper's main loop over the
    frames of its client, with the packet-interception thread running next to
    it.  The thread's flow table and the loop's registrations share the flow
    records (handles of the heap of [Flow]).  What the loop meets outside
    (writes that fail, the firewall recovery, the interceptor that opens or
    not, the end of its thread, the order in which a [HashMap] is iterated) is
    chosen by the schedule of a run, a list of [Round]s. *)
From stdpp Require Import base list numbers strings gmap.
From Stdlib Require Import ZArith Lia.
From S2P Require Import Prelude Interceptor Flow Text Config Methods Composite Handler Protocol WireMethod.

(** ** State *)
Definition HEARTBEAT_TIMEOUT : Z := 15000.   (* milliseconds *)

Record InterceptorSession := MkSession {
  is_filter : FilterSpec;
  is_flows : LocalFlows;
  is_method : BypassMethod;
  is_finished : option (option string)   (* the thread's result, when it has ended *) }.

Definition with_flows (w : LocalFlows) (s : InterceptorSession) : InterceptorSession :=
  MkSession (is_filter s) w (is_method s) (is_finished s).
Definition with_finished (r : option string) (s : InterceptorSession) : InterceptorSession :=
  MkSession (is_filter s) (is_flows s) (is_method s) (Some r).

Record RegisteredFlow := MkRegistered {
  rf_key : FlowKey;
  rf_entry : nat;
  last_progress : option Progress }.

(** [h_low_ttl_handle] is the content of the shared TTL cell; [h_idle] the
    time since [last_activity]; [h_writes] whether the next writes to the
    client succeed (they do when the list has run out); [h_sent] the frames
    written so far; [h_threads] the interceptor threads that run. *)
Record Helper := MkHelper {
  h_state : HelperState;
  h_config : option InterceptorConfig;
  h_interceptor : option InterceptorSession;
  h_low_ttl_handle : option Z;
  h_registered : gmap Z RegisteredFlow;
  h_idle : Z;
  h_writes : list bool;
  h_sent : list Frame;
  h_threads : Z }.

Definition set_state v h := MkHelper v (h_config h) (h_interceptor h) (h_low_ttl_handle h)
  (h_registered h) (h_idle h) (h_writes h) (h_sent h) (h_threads h).
Definition set_config v h := MkHelper (h_state h) v (h_interceptor h) (h_low_ttl_handle h)
  (h_registered h) (h_idle h) (h_writes h) (h_sent h) (h_threads h).
Definition set_interceptor v h := MkHelper (h_state h) (h_config h) v (h_low_ttl_handle h)
  (h_registered h) (h_idle h) (h_writes h) (h_sent h) (h_threads h).
Definition set_low_ttl v h := MkHelper (h_state h) (h_config h) (h_interceptor h) v
  (h_registered h) (h_idle h) (h_writes h) (h_sent h) (h_threads h).
Definition set_registered v h := MkHelper (h_state h) (h_config h) (h_interceptor h)
  (h_low_ttl_handle h) v (h_idle h) (h_writes h) (h_sent h) (h_threads h).
Definition set_idle v h := MkHelper (h_state h) (h_config h) (h_interceptor h)
  (h_low_ttl_handle h) (h_registered h) v (h_writes h) (h_sent h) (h_threads h).
Definition set_link ws fs h := MkHelper (h_state h) (h_config h) (h_interceptor h)
  (h_low_ttl_handle h) (h_registered h) (h_idle h) ws fs (h_threads h).
Definition set_threads v h := MkHelper (h_state h) (h_config h) (h_interceptor h)
  (h_low_ttl_handle h) (h_registered h) (h_idle h) (h_writes h) (h_sent h) v.

Definition helper_start (writes : list bool) : Helper :=
  MkHelper Created None None None ∅ 0 writes [] 0.

(** ** The loop's monad: a result, an error ([?] or [bail!]), or a panic *)
Inductive hresult (A : Type) :=
  | Next (a : A) (h : Helper)
  | Bail (h : Helper)
  | Crash.
Global Arguments Next {A} _ _.
Global Arguments Bail {A} _.
Global Arguments Crash {A}.

Definition M (A : Type) : Type := Helper → hresult A.
Definition ret {A} (a : A) : M A := λ h, Next a h.
Definition bail {A} : M A := λ h, Bail h.
Definition bind {A B} (m : M A) (k : A → M B) : M B := λ h,
  match m h with Next a h => k a h | Bail h => Bail h | Crash => Crash end.
Definition modify (f : Helper → Helper) : M () := λ h, Next () (f h).
Definition get {A} (f : Helper → A) : M A := λ h, Next (f h) h.

Declare Scope helper_scope.
Delimit Scope helper_scope with helper.
Notation "x <- m ;; k" := (bind m (λ x, k))
  (at level 100, m at next level, right associativity) : helper_scope.
Notation "m ;; k" := (bind m (λ _, k)) (at level 100, right associativity) : helper_scope.
Open Scope helper_scope.

(** [o.context(..)?] *)
Definition unwrap_or_bail {A} (o : option A) : M A :=
  match o with Some a => ret a | None => bail end.

(** ** What a run is given *)

(** The choices of one round: the [HashMap]'s iteration order, the number of
    stale firewall objects ([None]: the recovery fails), whether the
    interceptor and its thread start, the sampling seed of the methods, and
    the error of a thread that is asked to stop. *)
Record Choices := MkChoices {
  ch_order : list Z;
  ch_recovered : option Z;
  ch_opens : bool;
  ch_seed : Z;
  ch_join : option string }.

(** [recv_timeout]: a frame, [dt] milliseconds without one, or the end of the
    reader thread. *)
Inductive Received := RFrame (frame : Frame) | RTimeout (dt : Z) | RDisconnected.

(** The interceptor thread: a packet, or the end of the thread. *)
Inductive Activity := APacket (seed : Z) (p : PacketView) | AEnd (result : option string).

Record Round := MkRound {
  r_before : list Activity;
  r_choices : Choices;
  r_between : list Activity;
  r_received : Received }.

(** Who is at the other end, and who we are. *)
Record Identity := MkIdentity {
  id_peer_pid : Z; id_peer_uid : Z; id_own_pid : Z; id_own_uid : Z; id_proof : list Z }.

(** ** The interceptor thread *)
Definition thread_step (ttl : option Z) (a : Activity) (s : InterceptorSession)
    : InterceptorSession :=
  match is_finished s, a with
  | Some _, _ => s
  | None, APacket seed p =>
      match on_packet (is_method s) (MkMethodEnv (default 0%Z ttl) seed) (is_flows s) p with
      | Done (w, _, _) => with_flows w s
      | Panic => with_finished (Some "interceptor thread panicked") s
      end
  | None, AEnd r => with_finished r s
  end.

Definition activity (a : Activity) (h : Helper) : Helper :=
  match h_interceptor h with
  | None => h
  | Some s => set_interceptor (Some (thread_step (h_low_ttl_handle h) a s)) h
  end.
Definition activities (l : list Activity) (h : Helper) : Helper := foldl (flip activity) h l.

(** [InterceptorSession::close] (and [drop]): the thread is asked to stop and
    joined. *)
Definition thread_result (c : Choices) (s : InterceptorSession) : option string :=
  match is_finished s with Some r => r | None => ch_join c end.

Section serve.
Context `{Json} (me : Identity).

(** ** Sending *)
Definition send (request_id : Z) (m : Message) : M () := λ h,
  match write_frame (Frame_new request_id m) with
  | PErr _ => Bail h
  | POk _ =>
      match h_writes h with
      | false :: ws => Bail (set_link ws (h_sent h) h)
      | true :: ws => Next () (set_link ws (h_sent h ++ [Frame_new request_id m]) h)
      | [] => Next () (set_link [] (h_sent h ++ [Frame_new request_id m]) h)
      end
  end.

Definition fatal {A} (request_id : Z) (code : ErrorCode) (text : string) : M A :=
  send request_id (MHelperFatal code text);; bail.

(** ** [close_interceptor] *)
Definition close_interceptor (c : Choices) : M () :=
  modify (set_registered ∅);;
  active <- get h_interceptor;;
  match active with
  | None => ret ()
  | Some s =>
      modify (λ h, set_threads (h_threads h - 1) (set_interceptor None h));;
      match thread_result c s with None => ret () | Some _ => bail end
  end.

(** ** [publish_progress] *)
Definition progress_of (s : FlowState) : option Progress :=
  match outcome s with
  | Some FakeDataAcked => Some PFakeDataAcked
  | Some UnexpectedClose => Some PUnexpectedClose
  | None => if waiting_for_data s then Some PReadyForData else None
  end.

Definition entry_progress (heap : gmap nat FlowEntry) (flow : RegisteredFlow) : option Progress :=
  e ← heap !! rf_entry flow; progress_of (fe_state e).

Definition publish_one (heap : gmap nat FlowEntry) (flow_id : Z) : M () :=
  registered <- get h_registered;;
  match registered !! flow_id with
  | None => ret ()
  | Some flow =>
      match entry_progress heap flow with
      | None => ret ()
      | Some progress =>
          if bool_decide (Some progress = last_progress flow) then ret () else
          modify (λ h, set_registered
            (<[flow_id := MkRegistered (rf_key flow) (rf_entry flow) (Some progress)]>
              (h_registered h)) h);;
          send 0 (MFlowProgress flow_id progress)
      end
  end.

Fixpoint publish_progress (heap : gmap nat FlowEntry) (order : list Z) : M () :=
  match order with
  | [] => ret ()
  | flow_id :: order => publish_one heap flow_id;; publish_progress heap order
  end.

(** ** The head of the loop *)
Definition supervise (c : Choices) : M () :=
  active <- get h_interceptor;;
  match active with
  | None => ret ()
  | Some s =>
      match is_finished s with
      | Some result =>
          modify (λ h, set_threads (h_threads h - 1) (set_interceptor None h));;
          fatal 0 InterceptorFailed (default "interceptor stopped unexpectedly" result)
      | None => publish_progress (lf_heap (is_flows s)) (ch_order c)
      end
  end.

(** ** The requests *)
Definition on_hello (rid : Z) (hello : Hello) : M () :=
  if negb (bool_decide (session_proof hello = id_proof me)) then
    fatal rid AuthenticationFailed "session authentication failed" else
  if negb (data_plane_pid hello =? id_peer_pid me)%Z then
    fatal rid AuthenticationFailed "data-plane PID did not match peer credentials" else
  modify (set_state Authenticated);;
  send rid (MHelloAccepted (MkHelloAccepted (id_peer_uid me) (id_own_pid me) (id_own_uid me)
    PROTOCOL_MAJOR PROTOCOL_MINOR ["nfqueue"; "flow_progress"])).

Definition on_configure (c : Choices) (rid : Z) (value : InterceptorConfig) : M () :=
  match interceptor_config_validate value with
  | PErr _ => bail
  | POk _ =>
      recovered <- unwrap_or_bail (ch_recovered c);;
      (if (0 <? recovered)%Z then
         send 0 (MHelperWarning Internal
           ("recovered " +:+ show_int recovered +:+ " stale firewall object(s)"))
       else ret ());;
      modify (λ h, set_state Configured (set_config (Some value) h));;
      send rid MConfigured
  end.

(** The filter the interceptor is opened with. *)
Definition helper_filter (value : InterceptorConfig) : FilterSpec :=
  MkFilterSpec (interface_ip value) (remote_ip value) (remote_port value) (queue_num value)
    match firewall_backend value with
    | Protocol.Iptables => Interceptor.Iptables | Protocol.Nftables => Interceptor.Nftables end
    (Some ("zerodpi-" +:+ show_int (id_own_pid me))).

(** [interceptor = Some(..)], which drops a session that is still there. *)
Definition install (s : InterceptorSession) (h : Helper) : Helper :=
  set_interceptor (Some s)
    (set_threads (h_threads h + 1 - if is_none (h_interceptor h) then 0 else 1) h).

Definition on_open (c : Choices) (rid : Z) : M () :=
  config <- get h_config;;
  value <- unwrap_or_bail config;;
  m <- unwrap_or_bail (build_wire_method (method value) (ch_seed c));;
  modify (set_low_ttl (if bm_low_ttl_handle m
    then Some (LOW_TTL_VALUE (wire_config (method value))) else None));;
  if negb (ch_opens c) then bail else
  modify (install (MkSession (helper_filter value) new_flow_table m None));;
  modify (set_state InterceptorOpen);;
  send rid MInterceptorReady.

(** [insert] of the shared table, replacing an entry. *)
Definition table_insert (k : FlowKey) (data : list Z) (ttl : option Z) (w : LocalFlows)
    : LocalFlows * nat :=
  (MkLocalFlows (<[k := lf_next w]> (lf_flows w))
     (<[lf_next w := FlowEntry_new data ttl]> (lf_heap w)) (S (lf_next w)), lf_next w).

Definition on_register (rid flow_id : Z) (key : FlowKey) (data : list Z) (ttl : option Z) : M () :=
  registered <- get h_registered;;
  if negb (is_none (registered !! flow_id)) then
    fatal rid InvalidState "duplicate flow identifier" else
  if MAX_LIVE_FLOWS <=? size registered then
    fatal rid FlowLimitReached "live flow limit reached" else
  if existsb (λ flow, bool_decide (rf_key flow = key)) (map_to_list registered).*2 then
    fatal rid InvalidState "duplicate flow key" else
  active <- get h_interceptor;;
  s <- unwrap_or_bail active;;
  let '(w, entry) := table_insert key data ttl (is_flows s) in
  modify (set_interceptor (Some (with_flows w s)));;
  modify (λ h, set_registered (<[flow_id := MkRegistered key entry None]> (h_registered h)) h);;
  send rid (MFlowRegistered flow_id).

Definition on_remove (rid flow_id : Z) : M () :=
  registered <- get h_registered;;
  match registered !! flow_id with
  | None => ret ()
  | Some flow =>
      modify (set_registered (delete flow_id registered));;
      modify (λ h, set_interceptor ((λ s, with_flows (local_remove (rf_key flow) (is_flows s)) s)
        <$> h_interceptor h) h)
  end;;
  send rid (MFlowRemoved flow_id).

Definition on_set_low_ttl (rid value : Z) : M () :=
  modify (λ h, set_low_ttl ((λ _, value) <$> h_low_ttl_handle h) h);;
  send rid MSetLowTtlAck.

(** The dispatch: whether the loop goes on. *)
Definition on_request (c : Choices) (frame : Frame) : M bool :=
  let rid := request_id frame in
  match message frame with
  | MHello hello => on_hello rid hello;; ret true
  | MConfigureInterceptor value => on_configure c rid value;; ret true
  | MOpenInterceptor => on_open c rid;; ret true
  | MRegisterFlow flow_id key data ttl => on_register rid flow_id key data ttl;; ret true
  | MRemoveFlow flow_id => on_remove rid flow_id;; ret true
  | MSetLowTtlValue value => on_set_low_ttl rid value;; ret true
  | MCloseInterceptor =>
      close_interceptor c;; modify (set_state Configured);; send rid MInterceptorClosed;; ret true
  | MPing => send rid MPong;; ret true
  | MShutdown =>
      modify (set_state ShuttingDown);; close_interceptor c;; send rid MShutdownComplete;;
      modify (set_state Exited);; ret false
  | _ => λ _, Crash   (* unreachable! *)
  end.

(** ** One turn of the loop *)
Definition receive (c : Choices) (r : Received) : M bool :=
  match r with
  | RTimeout dt =>
      idle <- get h_idle;;
      if (idle + dt <? HEARTBEAT_TIMEOUT)%Z then modify (set_idle (idle + dt));; ret true
      else fatal 0 Internal "data-plane heartbeat timed out"
  | RDisconnected => ret false
  | RFrame frame =>
      modify (set_idle 0);;
      state <- get h_state;;
      if negb (accepts state (message frame)) then
        fatal (request_id frame) InvalidState "request is invalid in the current helper state"
      else on_request c frame
  end.

Definition turn (r : Round) : M bool :=
  modify (activities (r_before r));;
  supervise (r_choices r);;
  modify (activities (r_between r));;
  receive (r_choices r) (r_received r).

(** Leaving [serve]: the session that is still there is dropped. *)
Definition leave (h : Helper) : Helper :=
  match h_interceptor h with
  | None => h
  | Some _ => set_threads (h_threads h - 1) (set_interceptor None h)
  end.

(** ** [serve] *)
Inductive Served := Running (h : Helper) | Exit (ok : bool) (h : Helper) | Crashed.

Fixpoint serve (rounds : list Round) (h : Helper) : Served :=
  match rounds with
  | [] => Running h
  | r :: rounds =>
      match turn r h with
      | Next true h => serve rounds h
      | Next false h =>
          match close_interceptor (r_choices r) h with
          | Next _ h => Exit true (leave h)
          | Bail h => Exit false (leave h)
          | Crash => Crashed
          end
      | Bail h => Exit false (leave h)
      | Crash => Crashed
      end
  end.
End serve.

(** ** Reasoning about the loop *)
Definition wp {A} (m : M A) (Q : A → Helper → Prop) (E : Helper → Prop) (h : Helper) : Prop :=
  match m h with Next a h' => Q a h' | Bail h' => E h' | Crash => False end.

Section wp.
Context {A B : Type}.
Implicit Types (E : Helper → Prop) (h : Helper).

Lemma hwp_ret (a : A) (Q : A → Helper → Prop) E h : Q a h → wp (ret a) Q E h.
Proof. done. Qed.
Lemma wp_bail (Q : A → Helper → Prop) E h : E h → wp bail Q E h.
Proof. done. Qed.
Lemma wp_modify f (Q : () → Helper → Prop) E h : Q () (f h) → wp (modify f) Q E h.
Proof. done. Qed.
Lemma wp_get (f : Helper → A) (Q : A → Helper → Prop) E h : Q (f h) h → wp (get f) Q E h.
Proof. done. Qed.
Lemma hwp_bind (m : M A) (k : A → M B) (Q : B → Helper → Prop) E h :
  wp m (λ a, wp (k a) Q E) E h → wp (bind m k) Q E h.
Proof. unfold wp, bind. by destruct (m h). Qed.
Lemma wp_unwrap (o : option A) (Q : A → Helper → Prop) E h :
  (∀ a, o = Some a → Q a h) → E h → wp (unwrap_or_bail o) Q E h.
Proof. intros HQ HE. destruct o; [by apply HQ|done]. Qed.
Lemma hwp_mono (m : M A) (Q Q' : A → Helper → Prop) E E' h :
  wp m Q E h → (∀ a h, Q a h → Q' a h) → (∀ h, E h → E' h) → wp m Q' E' h.
Proof. unfold wp. destruct (m h); naive_solver. Qed.
End wp.

Section sending.
Context `{Json}.

(** The three things a write can come to. *)
Lemma wp_send rid m (Q : () → Helper → Prop) E h :
  (∀ ws, Q () (set_link ws (h_sent h ++ [Frame_new rid m]) h)) →
  E h → (∀ ws, E (set_link ws (h_sent h) h)) → wp (send rid m) Q E h.
Proof.
  intros HQ HE HE'. unfold wp, send. destruct (write_frame _); [|done].
  destruct (h_writes h) as [|[] ws]; auto.
Qed.

Lemma wp_fatal {A} rid code text (Q : A → Helper → Prop) E h :
  E h → (∀ ws, E (set_link ws (h_sent h) h)) →
  (∀ ws, E (set_link ws (h_sent h ++ [Frame_new rid (MHelperFatal code text)]) h)) →
  wp (fatal rid code text) Q E h.
Proof. intros H1 H2 H3. apply hwp_bind, wp_send; [|done..]. intros ws. apply H3. Qed.
End sending.

Ltac wp_step :=
  lazymatch goal with
  | |- wp (bind _ _) _ _ _ => apply hwp_bind
  | |- wp (ret _) _ _ _ => apply hwp_ret
  | |- wp bail _ _ _ => apply wp_bail
  | |- wp (modify _) _ _ _ => apply wp_modify
  | |- wp (get _) _ _ _ => apply wp_get
  | |- wp (unwrap_or_bail _) _ _ _ => apply wp_unwrap
  | |- wp (fatal _ _ _) _ _ _ => apply wp_fatal
  end; cbv beta.

(** ** The invariant *)

(** What the reader thread delivers: valid messages ([Protocol.read_frame]),
    their unsigned fields nonnegative. *)
Definition delivered (f : Frame) : Prop :=
  validate (message f) = POk () ∧
  match message f with
  | MConfigureInterceptor c => (0 ≤ tls_record_frag_size (method c))%Z
  | _ => True
  end.
Definition round_ok (r : Round) : Prop :=
  ∀ f, r_received r = RFrame f → delivered f.

(** The flow table of the interceptor holds exactly the registered flows. *)
Record session_ok (registered : gmap Z RegisteredFlow) (s : InterceptorSession) : Prop := {
  so_world : world_ok (is_flows s);
  so_handshake : HandshakeSafe (is_method s);
  so_data : DataSafe (is_method s);
  so_mirror : ∀ k e, lf_flows (is_flows s) !! k = Some e ↔
    ∃ id flow, registered !! id = Some flow ∧ rf_key flow = k ∧ rf_entry flow = e;
  so_keys : ∀ id1 id2 f1 f2, registered !! id1 = Some f1 → registered !! id2 = Some f2 →
    rf_key f1 = rf_key f2 → id1 = id2 }.

Definition one_thread (h : Helper) : Prop :=
  h_threads h = (if is_none (h_interceptor h) then 0 else 1)%Z.

Definition config_ok (v : InterceptorConfig) : Prop :=
  interceptor_config_validate v = POk () ∧ (0 ≤ tls_record_frag_size (method v))%Z.

Record helper_ok (h : Helper) : Prop := {
  ho_live : h_state h ≠ ShuttingDown ∧ h_state h ≠ Exited;
  ho_open : h_state h = InterceptorOpen ↔ is_Some (h_interceptor h);
  ho_configured : h_state h = Configured ∨ h_state h = InterceptorOpen → is_Some (h_config h);
  ho_config : ∀ v, h_config h = Some v → config_ok v;
  ho_threads : one_thread h;
  ho_closed : h_interceptor h = None → h_registered h = ∅;
  ho_limit : size (h_registered h) ≤ MAX_LIVE_FLOWS;
  ho_session : ∀ s, h_interceptor h = Some s → session_ok (h_registered h) s }.

Lemma helper_start_ok ws : helper_ok (helper_start ws).
Proof.
  constructor; simpl.
  - done.
  - split; [intros Hs; discriminate Hs|]. intros [x Hs]. discriminate Hs.
  - intros [Hs|Hs]; discriminate Hs.
  - done.
  - done.
  - done.
  - rewrite map_size_empty. unfold MAX_LIVE_FLOWS. lia.
  - done.
Qed.

Lemma helper_ok_link ws fs h : helper_ok h → helper_ok (set_link ws fs h).
Proof. by intros []. Qed.
Lemma helper_ok_idle z h : helper_ok h → helper_ok (set_idle z h).
Proof. by intros []. Qed.
Lemma one_thread_link ws fs h : one_thread h → one_thread (set_link ws fs h).
Proof. done. Qed.
#[export] Hint Resolve helper_ok_link helper_ok_idle one_thread_link ho_threads : helper.

(** Changing the flows of an open helper. *)
Lemma helper_ok_flows h s s' registered : helper_ok h → h_interceptor h = Some s →
  size registered ≤ MAX_LIVE_FLOWS → session_ok registered s' →
  helper_ok (set_registered registered (set_interceptor (Some s') h)).
Proof.
  intros [H1 H2 H3 H4 H5 H6 H7 H8] Hi Hsz Hs. constructor; simpl; [done| |done|done| |done|done|].
  - rewrite H2, Hi. by split; eexists.
  - unfold one_thread in *. by rewrite Hi in H5.
  - by intros ? [= <-].
Qed.

(** *** The interceptor thread keeps it *)
Lemma thread_step_ok ttl a registered s : session_ok registered s →
  session_ok registered (thread_step ttl a s).
Proof.
  intros [Hw Hh Hd Hm Hk]. unfold thread_step.
  destruct (is_finished s); [by constructor|]. destruct a as [seed p|r]; [|by constructor].
  destruct (on_packet_ok (is_method s) (MkMethodEnv (default 0%Z ttl) seed) (is_flows s) p Hw)
    as (w' & p' & v & Hp & Hw' & _). rewrite Hp. constructor; try done.
  assert (lf_flows w' = lf_flows (is_flows s)) as Hf.
  { unfold on_packet in Hp. destruct (lf_flows (is_flows s) !! _) as [hd|]; [|by simplify_eq].
    destruct (lf_heap (is_flows s) !! hd); [|by simplify_eq].
    destruct (on_entry _ _ _ _) as [[[e q] v']|]; by simplify_eq/=. }
  cbn [is_flows with_flows]. by rewrite Hf.
Qed.

Lemma activity_ok a h : helper_ok h → helper_ok (activity a h).
Proof.
  intros Hh. unfold activity. destruct (h_interceptor h) as [s|] eqn:E; [|done].
  apply (helper_ok_flows h s); [done|done|apply Hh|]. by apply thread_step_ok, (ho_session h Hh).
Qed.
Lemma activities_ok l h : helper_ok h → helper_ok (activities l h).
Proof. revert h. induction l as [|a l IH]; intros h Hh; [done|]. by apply IH, activity_ok. Qed.
Lemma activities_same l h :
  h_state (activities l h) = h_state h ∧ h_registered (activities l h) = h_registered h ∧
  h_sent (activities l h) = h_sent h ∧ h_idle (activities l h) = h_idle h.
Proof.
  revert h. induction l as [|a l IH]; intros h; [done|]. cbn [activities foldl flip].
  fold (activities l (activity a h)). destruct (IH (activity a h)) as (-> & -> & -> & ->).
  unfold activity. by destruct (h_interceptor h).
Qed.

(** *** The requests keep it, and answer *)

(** The reply a request is owed. *)
Definition answers (request reply : Message) : Prop :=
  match request, reply with
  | MHello _, MHelloAccepted _ | MConfigureInterceptor _, MConfigured
  | MOpenInterceptor, MInterceptorReady | MCloseInterceptor, MInterceptorClosed
  | MSetLowTtlValue _, MSetLowTtlAck | MPing, MPong | MShutdown, MShutdownComplete => True
  | MRegisterFlow id _ _ _, MFlowRegistered id' | MRemoveFlow id, MFlowRemoved id' => id = id'
  | _, _ => False
  end.

(** The frames from [h] to [h']: unsolicited ones, then the reply. *)
Definition answered (f : Frame) (h h' : Helper) : Prop :=
  ∃ pre m, h_sent h' = h_sent h ++ pre ++ [Frame_new (request_id f) m] ∧
    Forall (λ g, request_id g = 0%Z) pre ∧ answers (message f) m.

Lemma answered_now f m h h' ws : h_sent h' = h_sent h → answers (message f) m →
  answered f h (set_link ws (h_sent h' ++ [Frame_new (request_id f) m]) h').
Proof. intros Hs Ha. exists [], m. simpl. by rewrite Hs. Qed.

Lemma size_insert_new {A} (m : gmap Z A) i x n : m !! i = None → size m < n → size (<[i := x]> m) ≤ n.
Proof. intros Hn Hs. rewrite map_size_insert_None by done. lia. Qed.

Section requests.
Context `{Json} (me : Identity).
Implicit Types (h : Helper) (f : Frame).

Definition request_post f h : bool → Helper → Prop := λ go h',
  go = true ∧ helper_ok h' ∧ answered f h h'.

(** The last two steps of most handlers. *)
Lemma wp_reply f m h h' : helper_ok h' → h_sent h' = h_sent h → answers (message f) m →
  wp (send (request_id f) m) (λ _, request_post f h true) one_thread h'.
Proof.
  intros Hh Hs Ha. apply wp_send; [|auto with helper..].
  intros ws. split; [done|]. split; [auto with helper|]. by apply answered_now.
Qed.

Lemma wp_seq_true (m : M ()) f h E h' :
  wp m (λ _, request_post f h true) E h' → wp (m;; ret true) (request_post f h) E h'.
Proof. intros Hm. by apply hwp_bind. Qed.

Lemma wp_hello f hello h : helper_ok h → h_state h = Created → message f = MHello hello →
  wp (on_hello me (request_id f) hello) (λ _, request_post f h true) one_thread h.
Proof.
  intros Hh Hs Hm. unfold on_hello.
  destruct (negb _); [apply wp_fatal; auto with helper|].
  destruct (negb _); [apply wp_fatal; auto with helper|].
  do 2 wp_step. apply wp_reply; [|done|by rewrite Hm].
  destruct Hh as [H1 H2 H3 H4 H5 H6 H7 H8]. constructor; simpl; try done.
  - rewrite <-H2, Hs. done.
  - by intros [?|?].
Qed.

Lemma wp_configure c f value h : helper_ok h → h_state h = Authenticated ∨ h_state h = Configured →
  message f = MConfigureInterceptor value → delivered f →
  wp (on_configure c (request_id f) value) (λ _, request_post f h true) one_thread h.
Proof.
  intros Hh Hs Hm [Hv Hd]. rewrite Hm in Hv, Hd. simpl in Hv. unfold on_configure. rewrite Hv.
  do 2 wp_step; [|auto with helper]. intros recovered _. wp_step.
  assert (∀ ws pre, Forall (λ g, request_id g = 0%Z) pre →
    wp (modify (λ h, set_state Configured (set_config (Some value) h));;
        send (request_id f) MConfigured) (λ _, request_post f h true) one_thread
      (set_link ws (h_sent h ++ pre) h)) as Hrest.
  { intros ws pre Hpre. do 2 wp_step. apply wp_send; [|intros; exact (ho_threads h Hh)..].
    intros ws'. split; [done|]. split.
    - destruct Hh as [H1 H2 H3 H4 H5 H6 H7 H8]. constructor; simpl; try done.
      + rewrite <-H2. destruct Hs as [-> | ->]; done.
      + intros v [= <-]. by split.
    - exists pre, MConfigured. simpl. rewrite <-app_assoc. by rewrite Hm. }
  destruct (0 <? recovered)%Z.
  - apply wp_send; [|auto with helper..]. intros ws. apply Hrest. by apply Forall_singleton.
  - apply hwp_ret. specialize (Hrest (h_writes h) []). rewrite app_nil_r in Hrest.
    destruct h. by apply Hrest.
Qed.

Lemma wp_open c f h : helper_ok h → h_state h = Configured → message f = MOpenInterceptor →
  wp (on_open me c (request_id f)) (λ _, request_post f h true) one_thread h.
Proof.
  intros Hh Hs Hm. unfold on_open. do 2 wp_step. wp_step. wp_step; [|auto with helper].
  intros value Hv. wp_step. wp_step; [|auto with helper]. intros m Hb. do 2 wp_step.
  destruct (negb _); [apply wp_bail; exact (ho_threads h Hh)|]. do 4 wp_step.
  pose proof (ho_config h Hh value Hv) as [Hvv Hvf].
  assert (h_interceptor h = None) as Hi.
  { destruct (h_interceptor h) eqn:E; [|done]. assert (h_state h = InterceptorOpen) as Ho.
    { apply (ho_open h Hh). by eexists. } by rewrite Hs in Ho. }
  apply wp_reply; [|done|by rewrite Hm].
  assert (method_config_validate (method value) = POk ()) as Hmv.
  { unfold interceptor_config_validate, p_bail in Hvv.
    repeat match type of Hvv with (if ?b then _ else _) = _ => destruct b; [done|] end. done. }
  destruct (wire_method_safe _ _ _ Hmv Hvf Hb) as [Hsh Hsd].
  pose proof (ho_closed h Hh Hi) as Hr.
  destruct Hh as [H1 H2 H3 H4 H5 H6 H7 H8]. constructor; simpl; try done.
  - unfold one_thread, install in *. simpl. rewrite Hi in *. simpl in *. lia.
  - intros s [= <-]. rewrite Hr. constructor; simpl; try done.
    + intros k e. rewrite lookup_empty. split; [done|]. intros (id & flow & Hl & _).
      by rewrite lookup_empty in Hl.
Qed.

(** A registration that passes the three checks. *)
Lemma register_session_ok registered s flow_id key data ttl :
  session_ok registered s → registered !! flow_id = None →
  (∀ id flow, registered !! id = Some flow → rf_key flow ≠ key) →
  session_ok (<[flow_id := MkRegistered key (lf_next (is_flows s)) None]> registered)
    (with_flows (table_insert key data ttl (is_flows s)).1 s).
Proof.
  intros [Hw Hh Hd Hm Hk] Hid Hkey.
  assert (lf_flows (is_flows s) !! key = None) as Hn.
  { destruct (lf_flows (is_flows s) !! key) as [e|] eqn:E; [|done].
    apply Hm in E as (id & flow & Hl & Hfk & _). by apply Hkey in Hl. }
  destruct (register_world_ok key data ttl (is_flows s)
    (table_insert key data ttl (is_flows s)).1 (lf_next (is_flows s)) Hw) as [Hw' _].
  { simpl. unfold local_register. by rewrite Hn. }
  constructor; simpl; try done.
  - intros k e. rewrite lookup_insert. case_decide as Hd'; [subst k|].
    + split; [intros [= <-]; exists flow_id; eexists; by rewrite lookup_insert_eq|].
      intros (id & flow & Hl & Hfk & <-). rewrite lookup_insert in Hl. case_decide as Hi; [by injection Hl as <-|].
      by apply Hkey in Hl.
    + rewrite Hm. split; intros (id & flow & Hl & Hfk & He).
      * exists id, flow. rewrite lookup_insert_ne; [done|]. intros <-. by rewrite Hid in Hl.
      * rewrite lookup_insert in Hl. case_decide as Hi; [by injection Hl as <-|]. by exists id, flow.
  - intros id1 id2 f1 f2. rewrite !lookup_insert. repeat case_decide; subst; try done.
    + intros [= <-] Hl Hf. simpl in Hf. by apply Hkey in Hl.
    + intros Hl [= <-] Hf. simpl in Hf. by apply Hkey in Hl.
    + apply Hk.
Qed.

Lemma wp_register f flow_id key data ttl h : helper_ok h → h_state h = InterceptorOpen →
  message f = MRegisterFlow flow_id key data ttl →
  wp (on_register (request_id f) flow_id key data ttl) (λ _, request_post f h true) one_thread h.
Proof.
  intros Hh Hs Hm. unfold on_register. do 2 wp_step.
  destruct (h_registered h !! flow_id) eqn:Eid; cbn [is_none negb];
    [apply wp_fatal; auto with helper|].
  destruct (Nat.leb_spec MAX_LIVE_FLOWS (size (h_registered h))) as [|Hsz];
    [apply wp_fatal; auto with helper|].
  destruct (existsb _ _) eqn:Ek; [apply wp_fatal; auto with helper|].
  assert (∀ id flow, h_registered h !! id = Some flow → rf_key flow ≠ key) as Hkey.
  { intros id flow Hl Hfk. assert (existsb (λ flow, bool_decide (rf_key flow = key))
      (map_to_list (h_registered h)).*2 = true) as Ht; [|by rewrite Ht in Ek].
    apply existsb_exists. exists flow. rewrite bool_decide_true by done. split; [|done].
    apply list_elem_of_In, list_elem_of_fmap. exists (id, flow).
    split; [done|]. by apply elem_of_map_to_list. }
  do 4 wp_step; [|auto with helper]. intros s Hi. cbn [table_insert fst snd]. do 4 wp_step.
  apply wp_reply; [|done|by rewrite Hm].
  apply (helper_ok_flows h s); [done|done|by apply size_insert_new|].
  apply (register_session_ok _ s flow_id key data ttl); [by apply (ho_session h Hh)|done..].
Qed.

Lemma remove_session_ok registered s flow_id flow :
  session_ok registered s → registered !! flow_id = Some flow →
  session_ok (delete flow_id registered) (with_flows (local_remove (rf_key flow) (is_flows s)) s).
Proof.
  intros [Hw Hh Hd Hm Hk] Hid.
  destruct (step_ok (is_method s) _ _ (step_remove _ (rf_key flow) (is_flows s)) Hw) as [Hw' _].
  constructor; simpl; try done.
  - intros k e. rewrite lookup_delete_Some, Hm. split.
    + intros (Hne & id & fl & Hl & <- & He). exists id, fl.
      rewrite lookup_delete_ne; [done|]. intros <-. by simplify_eq.
    + intros (id & fl & [Hne Hl]%lookup_delete_Some & <- & He). split; [|by exists id, fl].
      intros Heq. by destruct Hne; eapply Hk.
  - intros id1 id2 f1 f2 [_ H1]%lookup_delete_Some [_ H2]%lookup_delete_Some. by apply Hk.
Qed.

Lemma wp_remove f flow_id h : helper_ok h → message f = MRemoveFlow flow_id →
  wp (on_remove (request_id f) flow_id) (λ _, request_post f h true) one_thread h.
Proof.
  intros Hh Hm. unfold on_remove. do 3 wp_step.
  destruct (h_registered h !! flow_id) as [flow|] eqn:Eid.
  - do 3 wp_step. apply wp_reply; [|done|by rewrite Hm].
    destruct (h_interceptor h) as [s|] eqn:Ei; [|by rewrite (ho_closed h Hh Ei), lookup_empty in Eid].
    change (h_interceptor (set_registered _ h)) with (h_interceptor h). rewrite Ei.
    apply (helper_ok_flows h s (with_flows (local_remove (rf_key flow) (is_flows s)) s)); [done|done| |].
    + cbn [h_registered set_registered]. rewrite map_size_delete_Some by (by eexists). pose proof (ho_limit h Hh). lia.
    + apply remove_session_ok; [by apply (ho_session h Hh)|done].
  - wp_step. by apply wp_reply; [|done|rewrite Hm].
Qed.

(** The stopped interceptor. *)
Lemma wp_close_interceptor c h (Q : () → Helper → Prop) : one_thread h →
  Q () (set_registered ∅ (set_threads 0 (set_interceptor None h))) →
  wp (close_interceptor c) Q one_thread h.
Proof.
  intros Ht HQ. unfold close_interceptor. do 4 wp_step. unfold one_thread in Ht.
  destruct h as [st cf i ttl reg idle ws sent th]. simpl in *.
  destruct i as [s|]; simpl in *; subst th; [|done].
  do 2 wp_step. destruct (thread_result c s); [done|exact HQ].
Qed.

Lemma helper_ok_close st h : helper_ok h → st = Configured → is_Some (h_config h) →
  helper_ok (set_state st (set_registered ∅ (set_threads 0 (set_interceptor None h)))).
Proof.
  intros [H1 H2 H3 H4 H5 H6 H7 H8] -> Hc.
  constructor; simpl; [done| |done|done|done|done| |done].
  - split; [done|]. intros [? [=]].
  - rewrite map_size_empty. lia.
Qed.

(** *** The dispatch *)
Definition request_done f h : bool → Helper → Prop := λ go h',
  if go then helper_ok h' ∧ answered f h h'
  else message f = MShutdown ∧ h_interceptor h' = None ∧ h_threads h' = 0%Z ∧ answered f h h'.

Lemma wp_on_request c f h : helper_ok h → delivered f → accepts (h_state h) (message f) = true →
  wp (on_request me c f) (request_done f h) one_thread h.
Proof.
  intros Hh Hd Ha.
  assert (∀ m : M (), wp m (λ _, request_post f h true) one_thread h →
    wp (m;; ret true) (request_done f h) one_thread h) as Hpost.
  { intros m Hm. apply hwp_bind. eapply hwp_mono; [exact Hm| |done]. by intros _ h' (_ & ? & ?). }
  unfold on_request. destruct (message f) eqn:Em; cbn [accepts] in Ha; try discriminate Ha;
    try apply bool_decide_eq_true in Ha.
  - by apply Hpost, wp_hello.
  - by apply Hpost, wp_configure.
  - by apply Hpost, wp_open.
  - wp_step. apply wp_close_interceptor; [apply Hh|]. do 3 wp_step.
    assert (helper_ok (set_state Configured
      (set_registered ∅ (set_threads 0 (set_interceptor None h))))) as Hh'.
    { apply helper_ok_close; [done|done|]. apply (ho_configured h Hh). tauto. }
    apply wp_send; [|auto with helper..].
    intros ws. apply hwp_ret. split; [auto with helper|]. exists [], MInterceptorClosed. by rewrite Em.
  - by apply Hpost, wp_register.
  - by apply Hpost, wp_remove.
  - apply Hpost. eapply wp_reply; [done|done|by rewrite Em].
  - do 3 wp_step. apply wp_close_interceptor; [apply Hh|]. wp_step.
    apply wp_send; [|done..]. intros ws. do 3 wp_step.
    split; [done|]. split; [done|]. split; [done|]. exists [], MShutdownComplete. by rewrite Em.
  - apply Hpost. unfold on_set_low_ttl. do 2 wp_step. apply wp_reply; [|done|by rewrite Em].
    by destruct Hh.
Qed.
End requests.

(** *** Publishing progress *)

(** What there is to tell about a registered flow. *)
Definition news (heap : gmap nat FlowEntry) (registered : gmap Z RegisteredFlow) (id : Z)
    : option Progress :=
  flow ← registered !! id;
  p ← entry_progress heap flow;
  if bool_decide (Some p = last_progress flow) then None else Some p.

Definition told (p : Progress) (flow : RegisteredFlow) : RegisteredFlow :=
  MkRegistered (rf_key flow) (rf_entry flow) (Some p).

(** The registrations and the frames after the ids of [order]. *)
Fixpoint published (heap : gmap nat FlowEntry) (order : list Z) (registered : gmap Z RegisteredFlow)
    : gmap Z RegisteredFlow * list Frame :=
  match order with
  | [] => (registered, [])
  | id :: order =>
      match news heap registered id with
      | None => published heap order registered
      | Some p =>
          let '(registered, fs) := published heap order (alter (told p) id registered) in
          (registered, Frame_new 0 (MFlowProgress id p) :: fs)
      end
  end.

Lemma alter_Some {A} (f : A → A) (m : gmap Z A) i x : m !! i = Some x → alter f i m = <[i := f x]> m.
Proof.
  intros Hi. apply map_eq. intros j. rewrite lookup_insert. case_decide as Hd.
  - subst j. by rewrite lookup_alter_eq, Hi.
  - by rewrite lookup_alter_ne.
Qed.

Section publishing.
Context `{Json}.

Lemma wp_publish heap order h : one_thread h →
  wp (publish_progress heap order)
    (λ _ h', ∃ ws, h' = set_link ws (h_sent h ++ (published heap order (h_registered h)).2)
       (set_registered (published heap order (h_registered h)).1 h))
    (λ h', one_thread h' ∧ ∃ l, h_sent h' = h_sent h ++ l ∧
       l `prefix_of` (published heap order (h_registered h)).2) h.
Proof.
  revert h. induction order as [|id order IH]; intros h Ht;
    cbn [publish_progress published].
  { apply hwp_ret. exists (h_writes h). simpl. rewrite app_nil_r. by destruct h. }
  wp_step. unfold publish_one, news. do 2 wp_step.
  destruct (h_registered h !! id) as [flow|] eqn:El; cbn [mbind option_bind]; [|by wp_step; apply IH].
  destruct (entry_progress heap flow) as [p|]; cbn [mbind option_bind]; [|by wp_step; apply IH].
  case_bool_decide; [by wp_step; apply IH|]. do 2 wp_step.
  rewrite (alter_Some _ _ _ _ El). unfold told.
  apply wp_send.
  - intros ws. eapply hwp_mono; [apply IH; done| |].
    + simpl. intros _ h' [ws' ->]. exists ws'.
      destruct (published _ _ _) as [reg fs]. simpl. by rewrite <-app_assoc.
    + simpl. intros h' (Ht' & l & Hs & Hl). split; [done|].
      destruct (published _ _ _) as [reg fs]. simpl in *. rewrite <-app_assoc in Hs.
      eexists. split; [exact Hs|]. by apply prefix_cons.
  - split; [done|]. exists []. simpl. rewrite app_nil_r. split; [done|]. apply prefix_nil.
  - intros ws. split; [done|]. exists []. simpl. rewrite app_nil_r. split; [done|]. apply prefix_nil.
Qed.
End publishing.

(** Publishing changes what was told, nothing else. *)
Definition identity_of (flow : RegisteredFlow) : FlowKey * nat := (rf_key flow, rf_entry flow).

Lemma published_identity heap order registered id :
  identity_of <$> (published heap order registered).1 !! id = identity_of <$> registered !! id.
Proof.
  revert registered. induction order as [|i order IH]; intros registered; cbn [published]; [done|].
  destruct (news heap registered i) as [p|]; [|done].
  specialize (IH (alter (told p) i registered)).
  destruct (published heap order _) as [reg fs]. cbn [fst] in *. rewrite IH.
  destruct (decide (i = id)) as [->|Hne]; [|by rewrite lookup_alter_ne].
  rewrite lookup_alter_eq. by destruct (registered !! id).
Qed.

Lemma same_identity (reg reg' : gmap Z RegisteredFlow) :
  (∀ id, identity_of <$> reg' !! id = identity_of <$> reg !! id) →
  size reg' = size reg ∧
  (∀ id flow', reg' !! id = Some flow' →
     ∃ flow, reg !! id = Some flow ∧ rf_key flow = rf_key flow' ∧ rf_entry flow = rf_entry flow') ∧
  (∀ id flow, reg !! id = Some flow →
     ∃ flow', reg' !! id = Some flow' ∧ rf_key flow' = rf_key flow ∧ rf_entry flow' = rf_entry flow).
Proof.
  intros Hs. split; [|split].
  - rewrite <-(map_size_fmap identity_of reg'), <-(map_size_fmap identity_of reg). f_equal.
    apply map_eq. intros id. by rewrite !lookup_fmap.
  - intros id flow' Hl. specialize (Hs id). rewrite Hl in Hs. symmetry in Hs.
    apply fmap_Some in Hs as (flow & Hf & Heq). exists flow. unfold identity_of in Heq.
    split; [done|]. by injection Heq.
  - intros id flow Hl. specialize (Hs id). rewrite Hl in Hs.
    apply fmap_Some in Hs as (flow' & Hf & Heq). exists flow'. unfold identity_of in Heq.
    split; [done|]. by injection Heq.
Qed.

Lemma session_ok_identity reg reg' s :
  (∀ id, identity_of <$> reg' !! id = identity_of <$> reg !! id) →
  session_ok reg s → session_ok reg' s.
Proof.
  intros Hs [Hw Hh Hd Hm Hk]. destruct (same_identity reg reg' Hs) as (_ & Hto & Hfrom).
  constructor; [done..| |].
  - intros k e. rewrite Hm. split; intros (id & flow & Hl & <- & <-).
    + destruct (Hfrom _ _ Hl) as (f' & ? & ? & ?). by exists id, f'.
    + destruct (Hto _ _ Hl) as (f' & ? & ? & ?). by exists id, f'.
  - intros id1 id2 f1 f2 H1 H2 Heq.
    destruct (Hto _ _ H1) as (g1 & Hg1 & He1 & _), (Hto _ _ H2) as (g2 & Hg2 & He2 & _).
    eapply Hk; [done..|congruence].
Qed.

Lemma published_frames heap order registered :
  Forall (λ f, request_id f = 0%Z) (published heap order registered).2.
Proof.
  revert registered. induction order as [|i order IH]; intros registered; cbn [published]; [done|].
  destruct (news heap registered i) as [p|]; [|done].
  specialize (IH (alter (told p) i registered)). destruct (published heap order _) as [reg fs].
  by constructor.
Qed.

Section turn.
Context `{Json} (me : Identity).

(** The head of the loop: an ended thread is reported and the helper leaves;
    a running one has its progress published. *)
Lemma wp_supervise c h : helper_ok h →
  wp (supervise c) (λ _ h', helper_ok h' ∧ h_state h' = h_state h ∧ h_idle h' = h_idle h ∧
    ∃ pre, h_sent h' = h_sent h ++ pre ∧ Forall (λ f, request_id f = 0%Z) pre)
    one_thread h.
Proof.
  intros Hh. unfold supervise. do 2 wp_step. destruct (h_interceptor h) as [s|] eqn:Ei.
  - destruct (is_finished s).
    + assert (one_thread (set_threads (h_threads h - 1) (set_interceptor None h))).
      { pose proof (ho_threads h Hh) as Ht. unfold one_thread in *. rewrite Ei in Ht. simpl in *. lia. }
      do 2 wp_step. apply wp_fatal; auto with helper.
    + eapply hwp_mono; [apply wp_publish, Hh| |by intros ? []]. intros _ h' [ws ->].
      split; [|split; [done|split; [done|]]].
      * apply helper_ok_link.
        pose proof (published_identity (lf_heap (is_flows s)) (ch_order c) (h_registered h)) as Hp.
        replace (set_registered _ h) with (set_registered
          (published (lf_heap (is_flows s)) (ch_order c) (h_registered h)).1
          (set_interceptor (Some s) h)) by (destruct h; simpl in *; by subst).
        apply (helper_ok_flows h s); [done|done| |].
        { destruct (same_identity _ _ Hp) as [-> _]. apply Hh. }
        eapply session_ok_identity; [done|by apply (ho_session h Hh)].
      * eexists. split; [done|]. apply published_frames.
  - wp_step. split; [done|]. split; [done|]. split; [done|]. exists [].
    split; [by rewrite app_nil_r|done].
Qed.

(** What one turn comes to. *)
Definition turn_done (r : Round) h : bool → Helper → Prop := λ go h',
  match r_received r with
  | RFrame f =>
      (if go then helper_ok h' ∧ answered f h h'
       else message f = MShutdown ∧ h_interceptor h' = None ∧ h_threads h' = 0%Z ∧ answered f h h')
  | RTimeout dt => go = true ∧ helper_ok h' ∧ h_idle h' = (h_idle h + dt)%Z ∧
      (h_idle h' < HEARTBEAT_TIMEOUT)%Z
  | RDisconnected => go = false ∧ helper_ok h'
  end.

Lemma answered_trans f h h1 h2 pre : h_sent h1 = h_sent h ++ pre →
  Forall (λ f, request_id f = 0%Z) pre → answered f h1 h2 → answered f h h2.
Proof.
  intros Hs Hp (pre' & m & Hs' & Hp' & Ha). exists (pre ++ pre'), m.
  rewrite Hs', Hs, !app_assoc. split; [done|]. split; [by apply Forall_app|done].
Qed.

Lemma wp_turn r h : helper_ok h → round_ok r → wp (turn me r) (turn_done r h) one_thread h.
Proof.
  intros Hh Hr. unfold turn. do 3 wp_step.
  pose proof (activities_ok (r_before r) h Hh) as Hb.
  destruct (activities_same (r_before r) h) as (Hst & _ & Hse & Hid).
  eapply hwp_mono; [by apply wp_supervise| |done].
  intros _ h1 (Hh1 & Hst1 & Hid1 & pre & Hse1 & Hpre). do 2 wp_step.
  pose proof (activities_ok (r_between r) h1 Hh1) as Hh2.
  destruct (activities_same (r_between r) h1) as (Hst2 & _ & Hse2 & Hid2).
  set (h2 := activities (r_between r) h1) in *. unfold receive, turn_done.
  destruct (r_received r) as [f|dt|] eqn:Er.
  - do 4 wp_step. destruct (accepts (h_state (set_idle 0 h2)) (message f)) eqn:Ea; cbn [negb].
    + eapply hwp_mono; [apply wp_on_request; [by apply helper_ok_idle|by apply Hr|done]| |done].
      assert (∀ h', answered f (set_idle 0 h2) h' → answered f h h') as Ht.
      { intros h'. apply (answered_trans _ _ _ _ pre); [|done].
        cbn [h_sent set_idle]. by rewrite Hse2, Hse1, Hse. }
      intros [] h'; simpl.
      * intros [? ?]. by split; [|apply Ht].
      * intros (? & ? & ? & ?). split; [done|]. split; [done|]. split; [done|]. by apply Ht.
    + apply wp_fatal; auto with helper.
  - do 2 wp_step. destruct (Z.ltb_spec (h_idle h2 + dt) HEARTBEAT_TIMEOUT) as [Hlt|].
    + do 3 wp_step. split; [done|]. split; [by apply helper_ok_idle|].
      cbn [h_idle set_idle]. split; [|done]. congruence.
    + apply wp_fatal; auto with helper.
  - by wp_step.
Qed.
End turn.

(** ** The session *)

(** A last word: the reason for a refusal, or the answer to [Shutdown]. *)
Definition goodbye (f : Frame) : Prop :=
  match message f with MHelperFatal _ _ | MShutdownComplete => True | _ => False end.

(** The client has shown the session's proof and its process id. *)
Definition proven (me : Identity) (r : Round) : Prop :=
  ∃ f hello, r_received r = RFrame f ∧ message f = MHello hello ∧
    session_proof hello = id_proof me ∧ data_plane_pid hello = id_peer_pid me.
Definition authenticated (me : Identity) (rounds : list Round) : Prop := Exists (proven me) rounds.

(** How long the helper has waited for a frame. *)
Definition timeout_of (r : Round) : option Z :=
  match r_received r with RTimeout dt => Some dt | _ => None end.
Fixpoint silence (rounds : list Round) : Z :=
  match rounds with [] => 0 | r :: rounds => default 0%Z (timeout_of r) + silence rounds end.

Definition exited (h : Helper) : Prop := h_interceptor h = None ∧ h_threads h = 0%Z.

Section session.
Context `{Json} (me : Identity).

Definition fresh (h : Helper) : Prop := h_state h = Created ∧ h_sent h = [].

Lemma activities_closed l h : h_interceptor h = None → activities l h = h.
Proof.
  intros Hi. induction l as [|a l IH]; [done|]. cbn [activities foldl flip]. unfold activity.
  by rewrite Hi.
Qed.

Lemma accepts_created m :
  accepts Created m = match m with MHello _ | MShutdown => true | _ => false end.
Proof. destruct m; reflexivity. Qed.

Definition fresh_done (r : Round) : bool → Helper → Prop := λ go h',
  proven me r ∨ if go then fresh h' else Forall goodbye (h_sent h').
Definition fresh_bail (r : Round) : Helper → Prop := λ h', proven me r ∨ Forall goodbye (h_sent h').

Lemma wp_fresh_fatal {A} rid code text r h (Q : A → Helper → Prop) : h_sent h = [] →
  wp (fatal rid code text) Q (fresh_bail r) h.
Proof.
  intros Hs. apply wp_fatal; [|intros ws..]; right; cbn [h_sent set_link]; rewrite ?Hs; try done.
  by apply Forall_singleton.
Qed.

Lemma wp_hello_fresh f hello r h : r_received r = RFrame f → message f = MHello hello → fresh h →
  wp (on_hello me (request_id f) hello;; ret true) (fresh_done r) (fresh_bail r) h.
Proof.
  intros Er Em [Hs Hf]. wp_step. unfold on_hello.
  case_bool_decide as Hp; cbn [negb]; [|by apply wp_fresh_fatal].
  destruct (Z.eqb_spec (data_plane_pid hello) (id_peer_pid me)) as [Hpid|]; cbn [negb];
    [|by apply wp_fresh_fatal].
  assert (proven me r) as Hpr by (by exists f, hello).
  do 2 wp_step. apply wp_send; [|by left..]. intros ws. wp_step. by left.
Qed.

Lemma wp_turn_fresh r h : helper_ok h → fresh h → wp (turn me r) (fresh_done r) (fresh_bail r) h.
Proof.
  intros Hh [Hs Hf]. unfold turn. do 3 wp_step.
  assert (h_interceptor h = None) as Hi.
  { destruct (h_interceptor h) eqn:E; [|done].
    assert (h_state h = InterceptorOpen) as Ho; [|by rewrite Hs in Ho].
    apply (ho_open h Hh). by eexists. }
  rewrite activities_closed by done. unfold supervise. do 2 wp_step. rewrite Hi. do 3 wp_step.
  rewrite activities_closed by done.
  unfold receive. destruct (r_received r) as [f|dt|] eqn:Er.
  - do 4 wp_step. cbn [h_state set_idle]. rewrite Hs, accepts_created.
    destruct (message f) as [hello| | | | | | | | | | | | | | | | | | | |] eqn:Em;
      cbn [negb]; try (by apply wp_fresh_fatal); unfold on_request; rewrite Em.
    + by apply wp_hello_fresh.
    + do 3 wp_step. unfold close_interceptor. do 4 wp_step. cbn. rewrite Hi. do 2 wp_step.
      apply wp_send; [|by right; cbn; rewrite Hf..]. intros ws. do 3 wp_step. right. cbn.
      rewrite Hf. by apply Forall_singleton.
  - do 2 wp_step. destruct (_ <? _)%Z; [|by apply wp_fresh_fatal]. do 3 wp_step. by right.
  - wp_step. right. by rewrite Hf.
Qed.

Lemma leave_exited h : one_thread h → exited (leave h).
Proof.
  unfold one_thread, leave, exited. intros Ht.
  destruct (h_interceptor h) eqn:E; simpl in *; [split; [done|lia]|by rewrite E].
Qed.
Lemma leave_sent h : h_sent (leave h) = h_sent h.
Proof. unfold leave. by destruct (h_interceptor h). Qed.
Lemma close_sent c h : match close_interceptor c h with
  | Next _ h' | Bail h' => h_sent h' = h_sent h | Crash => False end.
Proof.
  unfold close_interceptor, bind, modify, get, ret, bail. simpl.
  destruct (h_interceptor h) as [s|]; [|done]. by destruct (thread_result c s).
Qed.

Definition served (rounds : list Round) (r : Served) : Prop :=
  match r with
  | Running h => helper_ok h ∧ (fresh h ∨ authenticated me rounds)
  | Exit _ h => exited h ∧ (Forall goodbye (h_sent h) ∨ authenticated me rounds)
  | Crashed => False
  end.

Lemma serve_ok rounds past h : Forall round_ok rounds → helper_ok h →
  fresh h ∨ authenticated me past → served (past ++ rounds) (serve me rounds h).
Proof.
  intros Hr. revert past h. induction Hr as [|r rounds Hr _ IH]; intros past h Hh Hf.
  { rewrite app_nil_r. done. }
  cbn [serve]. pose proof (wp_turn me r h Hh Hr) as Ht.
  assert (∀ A, A ∨ authenticated me (past ++ [r]) → A ∨ authenticated me (past ++ r :: rounds)) as Hauth.
  { intros A [?|Ha]; [by left|]. right. replace (past ++ r :: rounds) with ((past ++ [r]) ++ rounds)
      by by rewrite <-app_assoc. apply Exists_app. by left. }
  assert (match turn me r h with
          | Next go h' => (if go then fresh h' else Forall goodbye (h_sent h')) ∨
              authenticated me (past ++ [r])
          | Bail h' => Forall goodbye (h_sent h') ∨ authenticated me (past ++ [r])
          | Crash => True end) as Ha.
  { destruct Hf as [Hf|Hf].
    - pose proof (wp_turn_fresh r h Hh Hf) as Hw. unfold wp, fresh_done, fresh_bail in Hw.
      destruct (turn me r h); [| |done]; (destruct Hw as [Hw|Hw]; [right|by left]);
        apply Exists_app; right; by constructor.
    - assert (authenticated me (past ++ [r])) by (apply Exists_app; by left).
      destruct (turn me r h); auto. }
  unfold wp in Ht. destruct (turn me r h) as [[] h'|h'|]; [| | |done].
  - replace (past ++ r :: rounds) with ((past ++ [r]) ++ rounds) by by rewrite <-app_assoc.
    apply IH; [|done]. unfold turn_done in Ht. destruct (r_received r); naive_solver.
  - assert (one_thread h') as Hone.
    { unfold turn_done in Ht. destruct (r_received r) as [f|dt|].
      - destruct Ht as (_ & Hi & Hth & _). unfold one_thread. by rewrite Hi.
      - by destruct Ht.
      - destruct Ht as [_ Ht]. apply Ht. }
    pose proof (wp_close_interceptor (r_choices r) h' (λ _, one_thread) Hone) as Hc.
    pose proof (close_sent (r_choices r) h') as Hcs. unfold wp in Hc.
    assert (Forall goodbye (h_sent h') ∨ authenticated me (past ++ r :: rounds)) as Ha'.
    { by apply Hauth. }
    destruct (close_interceptor (r_choices r) h') as [[] h2|h2|]; [| |done];
      (split; [apply leave_exited, Hc; done|by rewrite leave_sent, Hcs]).
  - split; [by apply leave_exited|]. rewrite leave_sent. by apply Hauth.
Qed.

Lemma serve_app r1 r2 h : serve me (r1 ++ r2) h =
  match serve me r1 h with Running h' => serve me r2 h' | Exit ok h' => Exit ok h' | Crashed => Crashed end.
Proof.
  revert h. induction r1 as [|r r1 IH]; intros h; [done|]. cbn [app serve].
  destruct (turn me r h) as [[] h'|h'|]; [apply IH| |done..].
  by destruct (close_interceptor (r_choices r) h').
Qed.

Lemma serve_silence rounds h h' : Forall (λ r, is_Some (timeout_of r)) rounds → helper_ok h →
  serve me rounds h = Running h' →
  h_idle h' = (h_idle h + silence rounds)%Z ∧ (rounds ≠ [] → (h_idle h' < HEARTBEAT_TIMEOUT)%Z).
Proof.
  intros Hr. revert h. induction Hr as [|r rounds [dt Hdt] _ IH]; intros h Hh Hs.
  { injection Hs as <-. split; [simpl; lia|done]. }
  cbn [serve silence] in *. rewrite Hdt. cbn [default]. unfold id.
  unfold timeout_of in Hdt. destruct (r_received r) as [|dt'|] eqn:Er; simplify_eq.
  assert (round_ok r) as Hok by (intros f; by rewrite Er).
  pose proof (wp_turn me r h Hh Hok) as Ht. unfold wp, turn_done in Ht. rewrite Er in Ht.
  destruct (turn me r h) as [[] h1|h1|]; [|by destruct Ht|done..].
  destruct Ht as (_ & Hh1 & Hi1 & Hlt). destruct (IH h1 Hh1 Hs) as [Hi Hl].
  split; [lia|]. intros _. destruct rounds; [|by apply Hl]. simpl in *. lia.
Qed.

(** A registration that arrives while the interceptor is closed, say between
    the [CloseInterceptor] and the [OpenInterceptor] of a rebuild, ends the
    helper. *)
Lemma register_outside_open r f id key data ttl h : helper_ok h → h_state h ≠ InterceptorOpen →
  r_received r = RFrame f → message f = MRegisterFlow id key data ttl →
  ∃ h', turn me r h = Bail h'.
Proof.
  intros Hh Hs Er Em.
  assert (h_interceptor h = None) as Hi.
  { destruct (h_interceptor h) eqn:E; [|done]. destruct Hs. apply (ho_open h Hh). by eexists. }
  assert (wp (turn me r) (λ _ _, False) (λ _, True) h) as Hw.
  { unfold turn. do 3 wp_step. rewrite activities_closed by done. unfold supervise. do 2 wp_step.
    rewrite Hi. do 3 wp_step. rewrite activities_closed by done. unfold receive. rewrite Er.
    do 4 wp_step. cbn [h_state set_idle]. rewrite Em. cbn [accepts].
    rewrite bool_decide_eq_false_2 by done. cbn [negb]. by apply wp_fatal. }
  unfold wp in Hw. destruct (turn me r h) as [|h'|]; [done|by exists h'|done].
Qed.

End session.

(** *** A session *)
Module Sample.
#[local] Instance json : Json := { to_vec := λ _, Some [0%Z]; from_slice := λ _, None }.
Definition me : Identity := MkIdentity 4242 10123 77 0 (replicate 32 7%Z).
Definition choices : Choices := MkChoices [1%Z] (Some 0%Z) true 5 None.
Definition received (m : Message) (rid : Z) : Round :=
  MkRound [] choices [] (RFrame (Frame_new rid m)).
Definition config : InterceptorConfig := interceptor_config wrong_md5_config 16909060 None 443.
Definition opening : list Round :=
  [received (MHello (MkHello (replicate 32 7%Z) 4242 "1.0")) 1;
   received (MConfigureInterceptor config) 2;
   received MOpenInterceptor 3;
   received (MRegisterFlow 1 sample_key [1; 2; 3]%Z None) 4].
Definition quiet : Round := MkRound [] choices [] (RTimeout 20).
Definition lost : Round := MkRound [] choices [] (RTimeout 15000).

Lemma opening_ok : Forall round_ok opening.
Proof.
  repeat (apply Forall_cons; split; [intros f [= <-]; split; vm_compute; done|]). constructor.
Qed.

(** What a running helper looks like, as a list of numbers. *)
Definition view (s : Served) : list Z :=
  match s with
  | Running h => [Z.of_nat (size (h_registered h)); h_threads h; Z.of_nat (length (h_sent h));
                  if bool_decide (h_state h = InterceptorOpen) then 1 else 0]
  | Exit _ h => [h_threads h; Z.of_nat (length (h_sent h))]
  | Crashed => []
  end%Z.
End Sample.

