(* ===== verification/Bootstrap.v ===== *)
(** * How helper and data plane find each other

    Model of the start of the root helper
    ([crates/zerodpi-root-helper/src/unix.rs], [run] up to [serve]) and of
    [RemoteHelperClient::connect]
    ([crates/zerodpi/src/helper_client.rs], up to the threads it leaves): the
    checks of the runtime directory, the proof and the socket, the peer
    credentials, and the first exchange.  What the file system and the kernel
    answer are arguments. *)
From stdpp Require Import base list numbers strings gmap.
From Stdlib Require Import ZArith Lia.
From S2P Require Import Prelude Text Flow Methods Protocol WireMethod RootHelper.
Local Open Scope string_scope.
Local Open Scope nat_scope.
Local Open Scope list_scope.

(** ** Files *)
(** A path by its components. *)
Record Path := MkPath { p_absolute : bool; p_components : list string }.
#[export] Instance Path_eq_dec : EqDecision Path.
Proof. solve_decision. Defined.
Definition parent (p : Path) : option Path :=
  match p_components p with
  | [] => None
  | c :: l => Some (MkPath (p_absolute p) (removelast (c :: l)))
  end.

Inductive FileKind := Directory | RegularFile | UnixSocket | OtherFile.
#[export] Instance FileKind_eq_dec : EqDecision FileKind.
Proof. solve_decision. Defined.
Record Metadata := MkMetadata { md_kind : FileKind; md_uid : Z; md_mode : Z }.
(** [symlink_metadata] and [read]. *)
Record Files := MkFiles { f_metadata : Path → option Metadata; f_read : Path → option (list Z) }.

(** Of the kind, owned by the user, and closed to everybody else. *)
Definition is_private (kind : FileKind) (uid : Z) (m : Metadata) : bool :=
  bool_decide (md_kind m = kind) && (md_uid m =? uid)%Z && (Z.land (md_mode m) 63 =? 0)%Z.
(** [SO_PEERCRED]: process and user; an invalid process is an error. *)
Definition peer_credentials (raw : option (Z * Z)) : option (Z * Z) :=
  match raw with Some (pid, uid) => if (pid <=? 0)%Z then None else Some (pid, uid) | None => None end.

(** ** The helper *)
Record HelperArgs := MkHelperArgs {
  ha_socket : Path; ha_expected_uid : Z; ha_session_file : Path; ha_parent_pid : option Z }.
(** One look at the listener; [late]: the deadline has passed. *)
Inductive AcceptPoll := Incoming | NoneYet (late : bool) | AcceptFailed.
Record HelperHost := MkHelperHost {
  hh_resuid : option (Z * Z * Z); hh_files : Files; hh_socket_exists : bool;
  hh_removes : bool; hh_binds : bool; hh_owns : bool; hh_nonblocking : bool;
  hh_polls : list AcceptPoll; hh_peer : option (Z * Z); hh_pid : Z; hh_euid : Z }.
Inductive BootAct :=
  | RemoveSocket | BindSocket | OwnSocket (uid mode : Z) | AnnounceReady (pid uid : Z) | ServePeer (me : Identity).
(** [Polling]: nothing has come yet. *)
Inductive Boot := BootError (what : string) | Polling | Served.

Definition require_root (h : HelperHost) : bool :=
  match hh_resuid h with
  | Some (real, effective, saved) => ((real =? 0) && (effective =? 0) && (saved =? 0))%Z
  | None => false
  end.
Definition validate_bootstrap_paths (a : HelperArgs) (f : Files) : bool :=
  if (ha_expected_uid a =? 0)%Z then false else
  match parent (ha_socket a), parent (ha_session_file a) with
  | Some socket_parent, Some session_parent =>
      bool_decide (socket_parent = session_parent) &&
      from_option (is_private Directory (ha_expected_uid a)) false (f_metadata f socket_parent)
  | _, _ => false
  end.
Definition read_session_proof (f : Files) (path : Path) (expected_uid : Z) : option (list Z) :=
  if negb (from_option (is_private RegularFile expected_uid) false (f_metadata f path)) then None else
  match f_read f path with
  | Some proof => if length proof =? SESSION_PROOF_SIZE then Some proof else None
  | None => None
  end.
(** [None]: still polling; else whether a peer came. *)
Fixpoint accept_before (polls : list AcceptPoll) : option bool :=
  match polls with
  | [] => None
  | Incoming :: _ => Some true
  | NoneYet false :: polls => accept_before polls
  | NoneYet true :: _ | AcceptFailed :: _ => Some false
  end.

(** Behind the proof the socket is removed on every way out. *)
Definition serve_socket (a : HelperArgs) (h : HelperHost) (proof : list Z) : Boot * list BootAct :=
  let stale := if hh_socket_exists h then [RemoveSocket] else [] in
  let leave b acts := (b, stale ++ acts ++ [RemoveSocket]) in
  if hh_socket_exists h && negb (hh_removes h) then leave (BootError "remove stale helper socket path") [] else
  if negb (hh_binds h) then leave (BootError "bind helper Unix socket") [BindSocket] else
  let own := [BindSocket; OwnSocket (ha_expected_uid a) 384] in
  if negb (hh_owns h) then leave (BootError "chown helper socket") own else
  if negb (hh_nonblocking h) then leave (BootError "set_nonblocking") own else
  let ready := own ++ [AnnounceReady (hh_pid h) (hh_euid h)] in
  match accept_before (hh_polls h) with
  | None => (Polling, stale ++ ready)
  | Some false => leave (BootError "accept helper peer") ready
  | Some true =>
      match peer_credentials (hh_peer h) with
      | None => leave (BootError "read Unix peer credentials") ready
      | Some (pid, uid) =>
          if negb (uid =? ha_expected_uid a)%Z then leave (BootError "helper peer UID did not match expected app UID") ready
          else leave Served (ready ++ [ServePeer (MkIdentity pid uid (hh_pid h) (hh_euid h) proof)])
      end
  end.
Definition run (a : HelperArgs) (h : HelperHost) : Boot * list BootAct :=
  if negb (require_root h) then (BootError "root helper must run with UID 0", []) else
  if negb (validate_bootstrap_paths a (hh_files h)) then (BootError "runtime directory", []) else
  match read_session_proof (hh_files h) (ha_session_file a) (ha_expected_uid a) with
  | None => (BootError "session proof", [])
  | Some proof => serve_socket a h proof
  end.

(** ** The data plane *)
Inductive ConnectPoll := Connects | NotThere (late : bool) | ConnectFailed.
Fixpoint connect_before (polls : list ConnectPoll) : option bool :=
  match polls with
  | [] => None
  | Connects :: _ => Some true
  | NotThere false :: polls => connect_before polls
  | NotThere true :: _ | ConnectFailed :: _ => Some false
  end.
(** [ch_socket]: of the socket, once connected. *)
Record ClientHost := MkClientHost {
  ch_files : Files; ch_polls : list ConnectPoll; ch_socket : option Metadata; ch_kernel_peer : option (Z * Z);
  ch_pid : Z; ch_version : string; ch_writes : bool; ch_reply : option Frame; ch_threads : bool }.
(** [None]: still waiting for the socket. *)
Definition Connected : Type := option (HelloAccepted + string) * list Frame.

Definition check_reply (expected_uid kernel_pid : Z) (reply : Frame) : HelloAccepted + string :=
  if negb (request_id reply =? 1)%Z then inr "root helper returned a mismatched hello request identifier" else
  match message reply with
  | MHelloAccepted accepted =>
      if negb (peer_uid accepted =? expected_uid)%Z then inr "root helper authenticated an unexpected data-plane UID" else
      if negb (helper_uid accepted =? 0)%Z then inr "root helper did not report UID 0" else
      if negb (helper_pid accepted =? kernel_pid)%Z then inr "root helper PID did not match Unix peer credentials"
      else inl accepted
  | MHelperFatal _ m => inr ("root helper rejected session: " +:+ m)
  | _ => inr "root helper returned an unexpected hello response"
  end.
(** On the open socket. *)
Definition greet (expected_uid : Z) (proof : list Z) (h : ClientHost) : Connected :=
  if negb (from_option (is_private UnixSocket expected_uid) false (ch_socket h))
  then (Some (inr "helper socket is not a private app-owned Unix socket"), []) else
  match peer_credentials (ch_kernel_peer h) with
  | None => (Some (inr "read root-helper Unix peer credentials"), [])
  | Some (kernel_pid, kernel_uid) =>
      if negb (kernel_uid =? 0)%Z then (Some (inr "helper Unix socket peer is not UID 0"), []) else
      let hello := Frame_new 1 (MHello (MkHello proof (ch_pid h) (ch_version h))) in
      if negb (ch_writes h) then (Some (inr "send helper hello"), [hello]) else
      match ch_reply h with
      | None => (Some (inr "read helper hello response"), [hello])
      | Some reply =>
          (Some (match check_reply expected_uid kernel_pid reply with
                 | inl accepted => if ch_threads h then inl accepted else inr "spawn helper threads"
                 | inr e => inr e
                 end), [hello])
      end
  end.
Definition connect (socket session_file : Path) (expected_uid : Z) (h : ClientHost) : Connected :=
  match parent socket with
  | None => (Some (inr "root-helper socket has no parent directory"), [])
  | Some dir =>
      if negb (bool_decide (parent session_file = Some dir)) then
        (Some (inr "root-helper socket and proof do not share a runtime directory"), []) else
      if negb (from_option (is_private Directory expected_uid) false (f_metadata (ch_files h) dir)) then
        (Some (inr "root-helper runtime directory is not private and app-owned"), []) else
      match read_session_proof (ch_files h) session_file expected_uid with
      | None => (Some (inr "helper session proof"), [])
      | Some proof =>
          match connect_before (ch_polls h) with
          | None => (None, [])
          | Some false => (Some (inr "connect to root helper"), [])
          | Some true => greet expected_uid proof h
          end
      end
  end.

(** ** What each side knows *)
Lemma is_private_spec kind uid m : from_option (is_private kind uid) false m = true →
  ∃ md, m = Some md ∧ md_kind md = kind ∧ md_uid md = uid ∧ Z.land (md_mode md) 63 = 0%Z.
Proof.
  destruct m as [md|]; [|done]. cbn. unfold is_private. rewrite !andb_true_iff, bool_decide_eq_true, !Z.eqb_eq.
  intros [[? ?] ?]. by exists md.
Qed.
Lemma is_private_intro kind uid md : md_kind md = kind → md_uid md = uid → Z.land (md_mode md) 63 = 0%Z →
  from_option (is_private kind uid) false (Some md) = true.
Proof. intros <- <- H. cbn. unfold is_private. by rewrite bool_decide_true, Z.eqb_refl, H. Qed.

(** The directory both files are in, and the proof in it, are the user's own. *)
Definition private_runtime (f : Files) (socket session_file : Path) (uid : Z) (proof : list Z) : Prop :=
  (∃ dir md, parent socket = Some dir ∧ parent session_file = Some dir ∧ f_metadata f dir = Some md ∧
    md_kind md = Directory ∧ md_uid md = uid ∧ Z.land (md_mode md) 63 = 0%Z) ∧
  (∃ md, f_metadata f session_file = Some md ∧ md_kind md = RegularFile ∧ md_uid md = uid ∧
    Z.land (md_mode md) 63 = 0%Z) ∧
  f_read f session_file = Some proof ∧ length proof = SESSION_PROOF_SIZE.

Lemma read_proof_spec f path uid proof : read_session_proof f path uid = Some proof ↔
  from_option (is_private RegularFile uid) false (f_metadata f path) = true ∧ f_read f path = Some proof ∧
  length proof = SESSION_PROOF_SIZE.
Proof.
  unfold read_session_proof. destruct (from_option _ _ _); cbn [negb]; [|naive_solver].
  destruct (f_read f path) as [p|]; [|naive_solver]. destruct (Nat.eqb_spec (length p) SESSION_PROOF_SIZE); naive_solver.
Qed.
Lemma peer_spec raw pid uid : peer_credentials raw = Some (pid, uid) ↔ raw = Some (pid, uid) ∧ (0 < pid)%Z.
Proof.
  unfold peer_credentials. destruct raw as [[p u]|]; [|naive_solver]. destruct (Z.leb_spec p 0); naive_solver lia.
Qed.

Section helper.
Context (a : HelperArgs) (h : HelperHost).

(** Who may be served. *)
Definition admits (me : Identity) : Prop :=
  hh_resuid h = Some (0, 0, 0)%Z ∧ ha_expected_uid a ≠ 0%Z ∧
  private_runtime (hh_files h) (ha_socket a) (ha_session_file a) (ha_expected_uid a) (id_proof me) ∧
  hh_peer h = Some (id_peer_pid me, ha_expected_uid a) ∧ (0 < id_peer_pid me)%Z ∧
  id_peer_uid me = ha_expected_uid a ∧ id_own_pid me = hh_pid h ∧ id_own_uid me = hh_euid h.

Lemma paths_spec : validate_bootstrap_paths a (hh_files h) = true → ha_expected_uid a ≠ 0%Z ∧
  ∃ dir md, parent (ha_socket a) = Some dir ∧ parent (ha_session_file a) = Some dir ∧
    f_metadata (hh_files h) dir = Some md ∧ md_kind md = Directory ∧ md_uid md = ha_expected_uid a ∧
    Z.land (md_mode md) 63 = 0%Z.
Proof.
  unfold validate_bootstrap_paths. destruct (Z.eqb_spec (ha_expected_uid a) 0); [done|]. split; [done|].
  destruct (parent (ha_socket a)) as [d|], (parent (ha_session_file a)) as [d'|]; try done.
  apply andb_true_iff in H as [->%bool_decide_eq_true H]. apply is_private_spec in H as (md & ?). by exists d', md.
Qed.
Lemma serve_socket_ok proof : let '(b, acts) := serve_socket a h proof in
  (∀ me, ServePeer me ∈ acts → b = Served ∧
    ∃ pid, peer_credentials (hh_peer h) = Some (pid, ha_expected_uid a) ∧
      me = MkIdentity pid (ha_expected_uid a) (hh_pid h) (hh_euid h) proof) ∧
  (b = Served → ∃ me, ServePeer me ∈ acts) ∧
  (b = Polling ∨ ∃ front, acts = front ++ [RemoveSocket]) ∧
  (∀ uid mode, OwnSocket uid mode ∈ acts → uid = ha_expected_uid a ∧ mode = 384%Z).
Proof.
  unfold serve_socket. assert (∀ x, x ∈ (if hh_socket_exists h then [RemoveSocket] else []) → x = RemoveSocket) as Hs.
  { destruct (hh_socket_exists h); intros x; [by intros ->%list_elem_of_singleton|by intros ?%elem_of_nil]. }
  set (stale := if hh_socket_exists h then _ else _) in *. clearbody stale.
  repeat (match goal with |- context [if ?b then _ else _] => destruct b eqn:? end; cbv zeta);
    try (destruct (accept_before (hh_polls h)) as [[]|]; [destruct (peer_credentials (hh_peer h)) as [[pid uid]|]|..]);
    try (destruct (Z.eqb_spec uid (ha_expected_uid a)) as [->|]; cbn [negb]);
    (split_and!; [intros me|intros ?|first [by left|right; eexists; by rewrite ?(assoc_L (++))]|intros u m]);
    rewrite ?elem_of_app, ?elem_of_cons, ?elem_of_nil; try naive_solver;
    try (eexists; rewrite ?elem_of_app, ?elem_of_cons; naive_solver).
Qed.
Lemma helper_start_checked : let '(b, acts) := run a h in
  (∀ me, ServePeer me ∈ acts → admits me) ∧ (b = Served → ∃ me, ServePeer me ∈ acts) ∧
  (BindSocket ∈ acts → b = Polling ∨ ∃ front, acts = front ++ [RemoveSocket]) ∧
  (∀ uid mode, OwnSocket uid mode ∈ acts → uid = ha_expected_uid a ∧ mode = 384%Z).
Proof.
  unfold run. destruct (require_root h) eqn:Hr; cbn [negb]; [|split_and!; intros; by rewrite ?elem_of_nil in *].
  destruct (validate_bootstrap_paths a (hh_files h)) eqn:Hp; cbn [negb]; [|split_and!; intros; by rewrite ?elem_of_nil in *].
  destruct (read_session_proof _ _ _) as [proof|] eqn:Hf; [|split_and!; intros; by rewrite ?elem_of_nil in *].
  pose proof (serve_socket_ok proof) as H. destruct (serve_socket a h proof) as [b acts].
  destruct H as (H1 & H2 & H3 & H4). split_and!; try done.
  intros me Hin. destruct (H1 me Hin) as (_ & pid & [Hc Hpid]%peer_spec & ->).
  apply paths_spec in Hp as [Hu Hdir]. apply read_proof_spec in Hf as (Hm & Hread & Hlen). apply is_private_spec in Hm.
  unfold require_root in Hr. destruct (hh_resuid h) as [[[r e] s]|] eqn:Er; [|done].
  rewrite !andb_true_iff, !Z.eqb_eq in Hr. destruct Hr as [[-> ->] ->].
  unfold admits. cbn. split_and!; try done.
Qed.
End helper.

Section client.
Context (socket session_file : Path) (uid : Z) (c : ClientHost).

(** The data plane says nothing before the files, the socket and its peer are
    what they should be, and accepts only root's own answer. *)
Definition trusts (accepted : HelloAccepted) (sent : list Frame) : Prop :=
  ∃ proof pid, private_runtime (ch_files c) socket session_file uid proof ∧
    (∃ md, ch_socket c = Some md ∧ md_kind md = UnixSocket ∧ md_uid md = uid ∧ Z.land (md_mode md) 63 = 0%Z) ∧
    ch_kernel_peer c = Some (pid, 0%Z) ∧ (0 < pid)%Z ∧
    sent = [Frame_new 1 (MHello (MkHello proof (ch_pid c) (ch_version c)))] ∧
    (∃ reply, ch_reply c = Some reply ∧ request_id reply = 1%Z ∧ message reply = MHelloAccepted accepted) ∧
    peer_uid accepted = uid ∧ helper_uid accepted = 0%Z ∧ helper_pid accepted = pid.
(** What has been checked when anything is sent. *)
Definition may_greet (proof : list Z) (pid : Z) : Prop :=
  private_runtime (ch_files c) socket session_file uid proof ∧ ch_kernel_peer c = Some (pid, 0%Z) ∧ (0 < pid)%Z.

Lemma check_reply_ok pid reply accepted : check_reply uid pid reply = inl accepted →
  request_id reply = 1%Z ∧ message reply = MHelloAccepted accepted ∧ peer_uid accepted = uid ∧
  helper_uid accepted = 0%Z ∧ helper_pid accepted = pid.
Proof.
  unfold check_reply. destruct (Z.eqb_spec (request_id reply) 1); cbn [negb]; [|done].
  destruct (message reply) as [|x| | | | | | | | | | | | | | | | | | |]; try done.
  destruct (Z.eqb_spec (peer_uid x) uid), (Z.eqb_spec (helper_uid x) 0), (Z.eqb_spec (helper_pid x) pid); cbn [negb]; naive_solver.
Qed.
Lemma connect_trusts : let '(r, sent) := connect socket session_file uid c in
  (∀ accepted, r = Some (inl accepted) → trusts accepted sent) ∧
  (sent ≠ [] → ∃ proof pid, may_greet proof pid ∧ sent = [Frame_new 1 (MHello (MkHello proof (ch_pid c) (ch_version c)))]).
Proof.
  unfold connect. destruct (parent socket) as [dir|] eqn:Ed; [|by split].
  destruct (bool_decide _) eqn:Es; cbn [negb]; [|by split]. apply bool_decide_eq_true in Es.
  destruct (from_option _ _ (f_metadata (ch_files c) dir)) eqn:Em; cbn [negb]; [|by split]. apply is_private_spec in Em as (md & Em).
  destruct (read_session_proof _ _ _) as [proof|] eqn:Ep; [|by split]. apply read_proof_spec in Ep as (Hm & Hread & Hlen).
  apply is_private_spec in Hm. assert (private_runtime (ch_files c) socket session_file uid proof) as Hrt
    by (split; [by exists dir, md|done]).
  destruct (connect_before _) as [[]|]; [|by split..]. unfold greet.
  destruct (from_option _ _ (ch_socket c)) eqn:Ek; cbn [negb]; [|by split]. apply is_private_spec in Ek.
  destruct (peer_credentials _) as [[pid u]|] eqn:Ec; [|by split]. apply peer_spec in Ec as [Ec Hpid].
  destruct (Z.eqb_spec u 0) as [->|]; cbn [negb]; [|by split].
  destruct (ch_writes c); cbn [negb]; [|split; [done|]; intros _; by exists proof, pid].
  destruct (ch_reply c) as [reply|] eqn:Er; [|split; [done|]; intros _; by exists proof, pid].
  split; [|intros _; by exists proof, pid]. destruct (check_reply uid pid reply) as [acc|e] eqn:Echeck; [|done].
  apply check_reply_ok in Echeck as (? & ? & ? & ? & ?). destruct (ch_threads c); [|done]. intros ? [= <-].
  exists proof, pid. do 5 (split; [done|]). split; [by exists reply|done].
Qed.
End client.

(** ** The first exchange *)
Section meeting.
Context `{Json}.
(** The helper's answer to the first frame it gets. *)
Definition first_answer (me : Identity) (choices : Choices) (f : Frame) : option Frame :=
  match serve me [MkRound [] choices [] (RFrame f)] (helper_start []) with
  | Running h | Exit _ h => head (h_sent h)
  | Crashed => None
  end.
Definition accepted_as (me : Identity) : HelloAccepted :=
  MkHelloAccepted (id_peer_uid me) (id_own_pid me) (id_own_uid me) PROTOCOL_MAJOR PROTOCOL_MINOR ["nfqueue"; "flow_progress"].
Definition first_reply (me : Identity) (hello : Hello) : Message :=
  if negb (bool_decide (session_proof hello = id_proof me)) then
    MHelperFatal AuthenticationFailed "session authentication failed"
  else if negb (data_plane_pid hello =? id_peer_pid me)%Z then
    MHelperFatal AuthenticationFailed "data-plane PID did not match peer credentials"
  else MHelloAccepted (accepted_as me).
Definition encodable (f : Frame) : Prop := ∃ bytes, write_frame f = POk bytes.

Lemma hello_answered me choices hello : encodable (Frame_new 1 (first_reply me hello)) →
  first_answer me choices (Frame_new 1 (MHello hello)) = Some (Frame_new 1 (first_reply me hello)).
Proof.
  intros [bytes Hw].
  assert (∀ h, h_writes h = [] → send 1 (first_reply me hello) h =
    Next () (set_link [] (h_sent h ++ [Frame_new 1 (first_reply me hello)]) h)) as Hsend
    by (intros h Hh; unfold send; by rewrite Hw, Hh).
  unfold first_answer. cbn [serve].
  unfold turn, bind, modify, supervise, receive, get, ret, on_request, on_hello. cbn -[send].
  rewrite (bool_decide_true (Created = Created)) by done. cbn -[send].
  unfold first_reply, accepted_as in *. destruct (bool_decide (session_proof hello = id_proof me)); cbn [negb] in *;
    [destruct (data_plane_pid hello =? id_peer_pid me)%Z; cbn [negb] in *|];
    unfold fatal, bind, modify, bail; rewrite Hsend; reflexivity.
Qed.

End meeting.

(** ** Two honest parties *)
Section meets.
#[local] Instance any_json : Json := { to_vec := λ _, Some [0%Z]; from_slice := λ _, None }.
Definition in_run (name : string) : Path := MkPath true ["data"; "run"; name].
Definition proof_of (b : Z) : list Z := replicate SESSION_PROOF_SIZE b.
Definition run_files (proof : list Z) : Files := MkFiles
  (λ p, Some (MkMetadata (if bool_decide (p = in_run "proof") then RegularFile else Directory) 10123 448)) (λ _, Some proof).
Definition honest_args : HelperArgs := MkHelperArgs (in_run "socket") 10123 (in_run "proof") None.
Definition honest_helper : HelperHost :=
  MkHelperHost (Some (0, 0, 0)%Z) (run_files (proof_of 7)) false true true true true [NoneYet false; Incoming]
    (Some (4242, 10123)%Z) 77 0.
Definition honest_id : Identity := MkIdentity 4242 10123 77 0 (proof_of 7).
Definition honest_client (proof : list Z) : ClientHost :=
  MkClientHost (run_files proof) [NotThere false; Connects] (Some (MkMetadata UnixSocket 10123 384)) (Some (77, 0)%Z) 4242 "1.0"
    true (first_answer honest_id (MkChoices [] None true 0 None) (Frame_new 1 (MHello (MkHello proof 4242 "1.0")))) true.
Definition meet (proof : list Z) : option (HelloAccepted + string) :=
  (connect (in_run "socket") (in_run "proof") 10123 (honest_client proof)).1.

Example honest_run : run honest_args honest_helper = (Served,
  [BindSocket; OwnSocket 10123 384; AnnounceReady 77 0; ServePeer honest_id; RemoveSocket]).
Proof. vm_compute. reflexivity. Qed.
Example honest_meet : meet (proof_of 7) = Some (inl (accepted_as honest_id)).
Proof. vm_compute. reflexivity. Qed.
Example impostor_refused : meet (proof_of 8) = Some (inr "root helper rejected session: session authentication failed").
Proof. vm_compute. reflexivity. Qed.
End meets.
