(* ===== verification/Told.v ===== *)
(** * What the helper tells

    The history of the frames the helper of [RootHelper] writes: where each of
    them comes from, and that the progress told about a registered flow is the
    progress of its record.  [RemoteFlows] composes this with the client. *)
From stdpp Require Import base list numbers strings gmap.
From Stdlib Require Import ZArith Lia.
From S2P Require Import Prelude Interceptor Flow Methods Handler Protocol WireMethod RootHelper.

(** ** Histories *)

(** The progress told about one flow. *)
Definition progress_in (id : Z) (f : Frame) : option Progress :=
  match message f with
  | MFlowProgress id' p => if (id' =? id)%Z then Some p else None
  | _ => None
  end.
Definition progress_log (id : Z) (fs : list Frame) : list Progress := omap (progress_in id) fs.

(** What a listener makes of it: an outcome is final. *)
Definition hear (v : option Progress) (p : Progress) : option Progress :=
  match v with Some PFakeDataAcked | Some PUnexpectedClose => v | _ => Some p end.
Definition replay (ps : list Progress) : option Progress := foldl hear None ps.

Lemma progress_log_app id l1 l2 : progress_log id (l1 ++ l2) = progress_log id l1 ++ progress_log id l2.
Proof. apply omap_app. Qed.
Lemma replay_snoc ps p : replay (ps ++ [p]) = hear (replay ps) p.
Proof. unfold replay. by rewrite foldl_app. Qed.

Lemma progress_log_none id fs : Forall (λ f, progress_in id f = None) fs → progress_log id fs = [].
Proof. induction 1 as [|f fs Hf _ IH]; [done|]. unfold progress_log in *. cbn [omap list_omap]. by rewrite Hf. Qed.

(** ** Where a frame comes from

    A refusal, the progress of a flow of [ids], an unsolicited frame, or the
    reply to the frame of the turn. *)
Definition origin (r : Round) (ids : gset Z) (f : Frame) : Prop :=
  match message f with
  | MHelperFatal _ _ => True
  | MFlowProgress id _ => request_id f = 0%Z ∧ id ∈ ids
  | m => request_id f = 0%Z ∨
      ∃ q, r_received r = RFrame q ∧ request_id f = request_id q ∧ answers (message q) m
  end.
Definition grown (r : Round) (ids : gset Z) (h h' : Helper) : Prop :=
  ∃ l, h_sent h' = h_sent h ++ l ∧ Forall (origin r ids) l.

Lemma grown_same r ids h h' : h_sent h' = h_sent h → grown r ids h h'.
Proof. intros Hs. exists []. by rewrite app_nil_r. Qed.
Lemma grown_trans r ids h1 h2 h3 : grown r ids h1 h2 → grown r ids h2 h3 → grown r ids h1 h3.
Proof.
  intros (l & Hl & Ho) (l' & Hl' & Ho'). exists (l ++ l'). rewrite Hl', Hl, app_assoc.
  split; [done|]. by apply Forall_app.
Qed.
Lemma grown_one r ids h h' f : h_sent h' = h_sent h ++ [f] → origin r ids f → grown r ids h h'.
Proof. intros Hs Ho. exists [f]. split; [done|]. by apply Forall_singleton. Qed.

(** ** What is told is so *)
Definition flow_told (heap : gmap nat FlowEntry) (sent : list Frame) (id : Z) (flow : RegisteredFlow)
    : Prop :=
  replay (progress_log id sent) = last_progress flow ∧
  ∀ p, last_progress flow = Some p → p = PReadyForData ∨ entry_progress heap flow = Some p.

Definition told_ok (h : Helper) : Prop :=
  ∀ s id flow, h_interceptor h = Some s → h_registered h !! id = Some flow →
    flow_told (lf_heap (is_flows s)) (h_sent h) id flow.

(** Outcomes stay, so what was told stays so. *)
Lemma entry_le_progress e e' p : entry_le e e' → progress_of (fe_state e) = Some p →
  p = PReadyForData ∨ progress_of (fe_state e') = Some p.
Proof.
  intros [Ho _] Hp. unfold progress_of in *. destruct (outcome (fe_state e)) as [o|] eqn:E.
  - right. rewrite (Ho o eq_refl). by destruct o.
  - left. by destruct (waiting_for_data (fe_state e)); simplify_eq.
Qed.

Lemma flow_told_le heap heap' sent id flow :
  (∀ hd e, heap !! hd = Some e → ∃ e', heap' !! hd = Some e' ∧ entry_le e e') →
  flow_told heap sent id flow → flow_told heap' sent id flow.
Proof.
  intros Hle [Hr Hp]. split; [done|]. intros p Hl. destruct (Hp p Hl) as [|He]; [by left|].
  unfold entry_progress in *. destruct (heap !! rf_entry flow) as [e|] eqn:Ee; [|done].
  cbn in He. destruct (Hle _ _ Ee) as (e' & -> & Hee). cbn. by eapply entry_le_progress.
Qed.

Lemma told_activity a h : helper_ok h → told_ok h → told_ok (activity a h).
Proof.
  intros Hh Ht. unfold activity. destruct (h_interceptor h) as [s|] eqn:Ei; [|done].
  intros s' id flow [= <-] Hl. cbn [h_registered h_sent set_interceptor] in *.
  eapply flow_told_le; [|by apply (Ht s id flow)].
  destruct (ho_session h Hh s Ei) as [Hw Hsh Hsd _ _]. unfold thread_step.
  destruct (is_finished s); [intros hd e He; by exists e|].
  destruct a as [seed p|res]; [|intros hd e He; by exists e].
  destruct (on_packet_ok (is_method s) (MkMethodEnv (default 0%Z (h_low_ttl_handle h)) seed)
    (is_flows s) p Hw) as (w' & p' & v & -> & _ & Hle & _).
  exact Hle.
Qed.
Lemma told_activities l h : helper_ok h → told_ok h → told_ok (activities l h).
Proof.
  revert h. induction l as [|a l IH]; intros h Hh Ht; [done|]. cbn [activities foldl flip].
  apply IH; [by apply activity_ok|by apply told_activity].
Qed.

(** A frame that tells nothing. *)
Definition telling (f : Frame) : bool :=
  match message f with MFlowProgress _ _ => true | _ => false end.

Lemma told_silent h f ws : told_ok h → telling f = false →
  told_ok (RootHelper.set_link ws (h_sent h ++ [f]) h).
Proof.
  intros Ht Hf s id flow Hi Hl. cbn [h_sent RootHelper.set_link] in *.
  destruct (Ht s id flow Hi Hl) as [Hr Hp]. split; [|done].
  rewrite progress_log_app, (progress_log_none id [f]), app_nil_r; [done|].
  apply Forall_singleton. unfold progress_in, telling in *. by destruct (message f).
Qed.

(** ** Publishing *)
Section publishing.
Context (heap : gmap nat FlowEntry).

Definition all_told (registered : gmap Z RegisteredFlow) (sent : list Frame) : Prop :=
  ∀ id flow, registered !! id = Some flow → flow_told heap sent id flow.

Lemma news_Some registered id p : news heap registered id = Some p →
  ∃ flow, registered !! id = Some flow ∧ entry_progress heap flow = Some p ∧
    last_progress flow ≠ Some p.
Proof.
  unfold news. destruct (registered !! id) as [flow|]; cbn; [|done].
  destruct (entry_progress heap flow) as [q|] eqn:E; cbn; [|done].
  case_bool_decide; [done|]. intros [= <-]. exists flow. by split_and!.
Qed.

Lemma published_told order registered sent : all_told registered sent →
  all_told (published heap order registered).1 (sent ++ (published heap order registered).2).
Proof.
  revert registered sent. induction order as [|i order IH]; intros registered sent Ht; cbn [published].
  { by rewrite app_nil_r. }
  destruct (news heap registered i) as [p|] eqn:En; [|by apply IH].
  apply news_Some in En as (flow & Hl & He & Hne).
  specialize (IH (alter (told p) i registered) (sent ++ [Frame_new 0 (MFlowProgress i p)])).
  destruct (published heap order (alter (told p) i registered)) as [reg fs]. cbn [fst snd] in *.
  rewrite <-app_assoc in IH. apply IH. clear IH. intros id fl Hid. unfold flow_told.
  rewrite progress_log_app. cbn [progress_log omap list_omap progress_in message Frame_new].
  destruct (decide (i = id)) as [<-|Hi].
  - rewrite Z.eqb_refl. rewrite (alter_Some _ _ _ _ Hl), lookup_insert_eq in Hid. injection Hid as <-.
    destruct (Ht _ _ Hl) as [Hr Hp]. cbn [last_progress told]. split.
    + rewrite replay_snoc, Hr. unfold hear.
      destruct (last_progress flow) as [[]|]; try done;
        (destruct (Hp _ eq_refl) as [?|Hq]; [done|congruence]).
    + intros q [= <-]. by right.
  - rewrite (proj2 (Z.eqb_neq _ _)), app_nil_r by done. rewrite lookup_alter_ne in Hid by done.
    by apply Ht.
Qed.

Lemma published_origin r ids order registered : dom registered ⊆ ids →
  Forall (origin r ids) (published heap order registered).2.
Proof.
  revert registered. induction order as [|i order IH]; intros registered Hd; cbn [published]; [done|].
  destruct (news heap registered i) as [p|] eqn:En; [|by apply IH].
  apply news_Some in En as (flow & Hl & _ & _).
  specialize (IH (alter (told p) i registered)). rewrite dom_alter_L in IH. specialize (IH Hd).
  destruct (published heap order _) as [reg fs]. constructor; [|done].
  split; [done|]. apply Hd, elem_of_dom. by eexists.
Qed.

Lemma news_stays order registered id : news heap registered id = None →
  news heap (published heap order registered).1 id = None.
Proof.
  revert registered. induction order as [|i order IH]; intros registered Hn; cbn [published]; [done|].
  destruct (news heap registered i) as [p|] eqn:En; [|by apply IH].
  specialize (IH (alter (told p) i registered)).
  destruct (published heap order _) as [reg fs]. apply IH. unfold news in *.
  rewrite lookup_alter_ne; [done|]. intros ->. congruence.
Qed.

(** After a round over all flows there is no news. *)
Lemma published_quiet order registered id : id ∈ order →
  news heap (published heap order registered).1 id = None.
Proof.
  revert registered. induction order as [|i order IH]; intros registered Hin; [by inversion Hin|].
  cbn [published]. apply elem_of_cons in Hin as [<-|Hin].
  - destruct (news heap registered id) as [p|] eqn:En; [|by apply news_stays].
    apply news_Some in En as (flow & Hl & He & _).
    pose proof (news_stays order (alter (told p) id registered) id) as Hs.
    destruct (published heap order _) as [reg fs]. apply Hs. unfold news.
    rewrite (alter_Some _ _ _ _ Hl), lookup_insert_eq. cbn.
    unfold entry_progress in *. cbn [rf_entry told]. rewrite He. cbn. by rewrite bool_decide_true.
  - destruct (news heap registered i) as [p|]; [|by apply IH].
    specialize (IH (alter (told p) i registered) Hin).
    by destruct (published heap order (alter (told p) i registered)).
Qed.
End publishing.

(** ** One turn *)
Section turn.
Context `{Json} (me : Identity) (r : Round) (ids : gset Z).

(** The registered flows are among [ids], or registered by the turn. *)
Definition known (h : Helper) : Prop :=
  ∀ id, id ∈ dom (h_registered h) → id ∈ ids ∨
    ∃ q key data ttl, r_received r = RFrame q ∧ message q = MRegisterFlow id key data ttl.
Definition kept (h : Helper) : Prop := told_ok h ∧ known h.

(** The frames grow by what the turn gives reason for, and, on the way on,
    what is told stays so. *)
Definition tells (h : Helper) {A} : A → Helper → Prop := λ _ h', grown r ids h h' ∧ kept h'.

Lemma origin_fatal rid code text : origin r ids (Frame_new rid (MHelperFatal code text)).
Proof. done. Qed.

Lemma wp_tells_fatal {A} rid code text h h' (Q : A → Helper → Prop) : grown r ids h h' →
  wp (fatal rid code text) Q (grown r ids h) h'.
Proof.
  intros Hg. apply wp_fatal; [done|intros ws..]; (eapply grown_trans; [exact Hg|]).
  - by apply grown_same.
  - by eapply grown_one.
Qed.

Lemma wp_tells_send rid m h h' : grown r ids h h' → kept h' →
  origin r ids (Frame_new rid m) → telling (Frame_new rid m) = false →
  wp (send rid m) (tells h) (grown r ids h) h'.
Proof.
  intros Hg Ht Ho Hf. apply wp_send; [|done|].
  - intros ws. split; [|split; [apply told_silent; [apply Ht|done]|apply Ht]].
    eapply grown_trans; [exact Hg|]. by eapply grown_one.
  - intros ws. eapply grown_trans; [exact Hg|]. by apply grown_same.
Qed.

Lemma wp_tells_supervise c h : helper_ok h → told_ok h → dom (h_registered h) ⊆ ids →
  wp (supervise c) (tells h) (grown r ids h) h.
Proof.
  intros Hh Ht Hd. unfold supervise. do 2 wp_step.
  assert (Hkn : known h) by (intros id Hid; left; by apply Hd).
  destruct (h_interceptor h) as [s|] eqn:Ei; [|by wp_step; split; [apply grown_same|]].
  destruct (is_finished s).
  - do 2 wp_step. apply wp_tells_fatal. by apply grown_same.
  - pose proof (published_origin (lf_heap (is_flows s)) r ids (ch_order c) (h_registered h) Hd) as Ho.
    assert (all_told (lf_heap (is_flows s)) (h_registered h) (h_sent h)) as Hall.
    { intros id flow. by apply Ht. }
    pose proof (published_told _ (ch_order c) _ _ Hall) as Hpt.
    eapply hwp_mono; [apply wp_publish, Hh| |].
    + intros a h' [ws ->]. split; [by eexists|]. split.
      * intros s' id flow Hi Hl. simpl in *. rewrite Ei in Hi. injection Hi as <-. by apply Hpt.
      * intros id Hid. left. simpl in Hid. apply Hd. apply elem_of_dom in Hid as [flow' Hl].
        destruct (same_identity _ _ (published_identity (lf_heap (is_flows s)) (ch_order c)
          (h_registered h))) as (_ & Hto & _).
        destruct (Hto _ _ Hl) as (flow & Hf & _). apply elem_of_dom. by eexists.
    + intros h' (_ & l & Hs & (k & Hk)). exists l. split; [done|].
      rewrite Hk in Ho. by apply Forall_app in Ho as [? _].
Qed.

(** The request of the turn. *)
Section request.
Context (f : Frame) (h0 : Helper) (Er : r_received r = RFrame f).
Implicit Types (h : Helper).

Lemma wp_tells_reply m h : answers (message f) m → grown r ids h0 h → kept h →
  wp (send (request_id f) m) (tells h0) (grown r ids h0) h.
Proof.
  intros Ha Hg Ht. apply wp_tells_send; [done..| |];
    unfold origin, telling; cbn [message Frame_new request_id]; destruct m; try done;
    try (by right; exists f); by destruct (message f).
Qed.

Lemma kept_closed h : h_interceptor h = None → h_registered h = ∅ → kept h.
Proof.
  intros Hi Hr. split; [intros s id flow Hs; by rewrite Hi in Hs|].
  intros id. rewrite Hr, dom_empty_L. set_solver.
Qed.

Lemma wp_tells_hello hello h : message f = MHello hello → grown r ids h0 h → kept h →
  wp (on_hello me (request_id f) hello) (tells h0) (grown r ids h0) h.
Proof.
  intros Hm Hg Ht. unfold on_hello. destruct (negb _); [by apply wp_tells_fatal|].
  destruct (negb _); [by apply wp_tells_fatal|]. do 2 wp_step.
  apply wp_tells_reply; [by rewrite Hm|exact Hg|exact Ht].
Qed.

Lemma wp_tells_configure c value h : message f = MConfigureInterceptor value →
  grown r ids h0 h → kept h →
  wp (on_configure c (request_id f) value) (tells h0) (grown r ids h0) h.
Proof.
  intros Hm Hg Ht. unfold on_configure. destruct (interceptor_config_validate value); [|done].
  do 2 wp_step; [|done]. intros recovered _. wp_step.
  assert (∀ h, grown r ids h0 h → kept h →
    wp (modify (λ h, set_state Configured (set_config (Some value) h));;
        send (request_id f) MConfigured) (tells h0) (grown r ids h0) h) as Hrest.
  { intros h1 Hg1 Ht1. do 2 wp_step. apply wp_tells_reply; [by rewrite Hm|exact Hg1|exact Ht1]. }
  destruct (0 <? recovered)%Z; [|by wp_step; apply Hrest].
  eapply hwp_mono; [by apply wp_tells_send; [..|left|]| |done].
  intros a1 h1 [? ?]. by apply Hrest.
Qed.

Lemma wp_tells_open c h : helper_ok h → h_state h = Configured → message f = MOpenInterceptor →
  grown r ids h0 h → wp (on_open me c (request_id f)) (tells h0) (grown r ids h0) h.
Proof.
  intros Hh Hs Hm Hg. unfold on_open. do 4 wp_step; [|done]. intros value Hv.
  do 2 wp_step; [|done]. intros m Hb. do 2 wp_step. destruct (negb _); [done|]. do 4 wp_step.
  apply wp_tells_reply; [by rewrite Hm|exact Hg|].
  assert (h_registered h = ∅) as Hr.
  { apply (ho_closed h Hh). destruct (h_interceptor h) eqn:E; [|done].
    assert (h_state h = InterceptorOpen) as Ho; [|by rewrite Hs in Ho].
    apply (ho_open h Hh). by eexists. }
  split.
  - intros s id flow _ Hl. cbn in Hl. by rewrite Hr, lookup_empty in Hl.
  - intros id. cbn [h_registered set_state install set_interceptor set_threads set_low_ttl].
    rewrite Hr, dom_empty_L. set_solver.
Qed.

Lemma wp_tells_register flow_id key data ttl h : helper_ok h →
  message f = MRegisterFlow flow_id key data ttl → grown r ids h0 h → kept h →
  progress_log flow_id (h_sent h) = [] →
  wp (on_register (request_id f) flow_id key data ttl) (tells h0) (grown r ids h0) h.
Proof.
  intros Hh Hm Hg Ht Hlog. unfold on_register. do 2 wp_step.
  destruct (negb _); [by apply wp_tells_fatal|].
  destruct (_ <=? _); [by apply wp_tells_fatal|].
  destruct (existsb _ _); [by apply wp_tells_fatal|]. do 4 wp_step; [|done]. intros s Hi.
  cbn [table_insert]. do 4 wp_step. apply wp_tells_reply; [by rewrite Hm|exact Hg|].
  destruct Ht as [Ht Hk]. split.
  - intros s' id flow Hs Hl. cbn in Hs, Hl. injection Hs as <-.
    cbn [h_sent set_registered set_interceptor]. rewrite lookup_insert in Hl. case_decide as Hd.
    + subst id. injection Hl as <-. split; [by rewrite Hlog|]. done.
    + eapply flow_told_le; [|by apply (Ht s id flow)]. cbn [is_flows with_flows lf_heap].
      intros hd e He. exists e. split; [|done]. rewrite lookup_insert_ne; [done|].
      intros <-. destruct (so_world _ _ (ho_session h Hh s Hi)) as [[_ Hfresh _] _].
      by rewrite Hfresh in He.
  - intros id. cbn [h_registered set_registered set_interceptor]. rewrite dom_insert_L.
    intros [->%elem_of_singleton|Hid]%elem_of_union; [right; by exists f, key, data, ttl|by apply Hk].
Qed.

Lemma wp_tells_remove flow_id h : message f = MRemoveFlow flow_id → grown r ids h0 h → kept h →
  wp (on_remove (request_id f) flow_id) (tells h0) (grown r ids h0) h.
Proof.
  intros Hm Hg Ht. unfold on_remove. do 3 wp_step.
  destruct (h_registered h !! flow_id) as [flow|].
  - do 3 wp_step. apply wp_tells_reply; [by rewrite Hm|exact Hg|].
    destruct Ht as [Ht Hk]. split.
    + intros s id fl Hs Hl. cbn in Hs, Hl. apply fmap_Some in Hs as (s0 & Hs0 & ->).
      apply lookup_delete_Some in Hl as [_ Hl]. by apply (Ht s0 id fl).
    + intros id. cbn [h_registered set_registered set_interceptor]. rewrite dom_delete_L.
      intros [Hid _]%elem_of_difference. by apply Hk.
  - wp_step. by apply wp_tells_reply; [rewrite Hm|..].
Qed.

Lemma wp_tells_close c h : grown r ids h0 h →
  wp (close_interceptor c) (tells h0) (grown r ids h0) h.
Proof.
  intros Hg. unfold close_interceptor. do 4 wp_step.
  destruct (h_interceptor (set_registered ∅ h)) eqn:E.
  - do 2 wp_step. destruct (thread_result _ _); [done|]. split; [done|]. by apply kept_closed.
  - wp_step. split; [done|]. by apply kept_closed.
Qed.

Lemma wp_tells_request c h : helper_ok h → accepts (h_state h) (message f) = true →
  grown r ids h0 h → kept h →
  (∀ id key data ttl, message f = MRegisterFlow id key data ttl → progress_log id (h_sent h) = []) →
  wp (on_request me c f) (tells h0) (grown r ids h0) h.
Proof.
  intros Hh Ha Hg Ht Hfresh.
  assert (∀ (m : M ()) (b : bool), wp m (tells h0) (grown r ids h0) h →
    wp (m;; ret b) (tells h0) (grown r ids h0) h) as Hseq.
  { intros m b Hm. apply hwp_bind. by eapply hwp_mono; [exact Hm| |]. }
  unfold on_request. destruct (message f) eqn:Em; cbn [accepts] in Ha; try discriminate Ha.
  - by apply Hseq, wp_tells_hello.
  - by apply Hseq, wp_tells_configure.
  - apply bool_decide_eq_true in Ha. by apply Hseq, wp_tells_open.
  - wp_step. eapply hwp_mono; [by apply wp_tells_close| |done].
    intros _ h1 [Hg1 Hk1]. do 3 wp_step.
    eapply hwp_mono; [apply wp_tells_reply; [by rewrite Em|exact Hg1|exact Hk1]| |done].
    done.
  - apply Hseq, wp_tells_register; eauto.
  - by apply Hseq, wp_tells_remove.
  - apply Hseq, wp_tells_reply; [by rewrite Em|done..].
  - do 3 wp_step. eapply hwp_mono; [by apply wp_tells_close| |done].
    intros _ h1 [Hg1 Hk1]. wp_step.
    eapply hwp_mono; [apply wp_tells_reply; [by rewrite Em|exact Hg1|exact Hk1]| |done].
    done.
  - apply Hseq. unfold on_set_low_ttl. do 2 wp_step. apply wp_tells_reply; [by rewrite Em|done|].
    exact Ht.
Qed.
End request.
End turn.

Lemma grown_log r ids h h' id : grown r ids h h' → id ∉ ids →
  progress_log id (h_sent h') = progress_log id (h_sent h).
Proof.
  intros (l & -> & Ho) Hid. rewrite progress_log_app, (progress_log_none id l), app_nil_r; [done|].
  eapply Forall_impl; [exact Ho|]. intros f Hf. unfold origin in Hf. unfold progress_in.
  destruct (message f); try done. destruct Hf as [_ Hin].
  destruct (Z.eqb_spec flow_id id); [by subst|done].
Qed.

(** A whole turn.  A registration must be of a flow of which nothing was told
    before. *)
Lemma wp_tells_turn `{Json} me r h : helper_ok h → told_ok h → round_ok r →
  (∀ f id key data ttl, r_received r = RFrame f → message f = MRegisterFlow id key data ttl →
     id ∉ dom (h_registered h) ∧ progress_log id (h_sent h) = []) →
  wp (turn me r) (tells r (dom (h_registered h)) h) (grown r (dom (h_registered h)) h) h.
Proof.
  intros Hh Ht Hr Hfresh. set (ids := dom (h_registered h)) in *. unfold turn. do 3 wp_step.
  destruct (activities_same (r_before r) h) as (Hst & Hreg & Hse & _).
  set (h1 := activities (r_before r) h) in *.
  assert (Hh1 : helper_ok h1) by by apply activities_ok.
  assert (Ht1 : told_ok h1) by by apply told_activities.
  assert (Hg1 : grown r ids h h1) by by apply grown_same.
  pose proof (wp_supervise (r_choices r) h1 Hh1) as Hok.
  pose proof (wp_tells_supervise r ids (r_choices r) h1 Hh1 Ht1) as Htells.
  rewrite Hreg in Htells. specialize (Htells (reflexivity _)). unfold wp in *.
  destruct (supervise (r_choices r) h1) as [[] h2|h2|]; [|by eapply grown_trans|done].
  destruct Hok as (Hh2 & _). destruct Htells as [Hg2 [Ht2 Hk2]].
  assert (Hg : grown r ids h h2) by by eapply grown_trans.
  change (wp (modify (activities (r_between r));; receive me (r_choices r) (r_received r))
    (tells r ids h) (grown r ids h) h2). do 2 wp_step.
  destruct (activities_same (r_between r) h2) as (_ & Hreg3 & Hse3 & _).
  set (h3 := activities (r_between r) h2) in *.
  assert (Hh3 : helper_ok h3) by by apply activities_ok.
  assert (Hk3 : kept r ids h3).
  { split; [by apply told_activities|]. intros id. rewrite Hreg3. apply Hk2. }
  assert (Hg3 : grown r ids h h3) by (eapply grown_trans; [exact Hg|by apply grown_same]).
  unfold receive. destruct (r_received r) as [f|dt|] eqn:Er.
  - do 4 wp_step. destruct (accepts _ _) eqn:Ea; cbn [negb]; [|by apply wp_tells_fatal].
    apply wp_tells_request; [done|by apply helper_ok_idle|done|done|done|].
    intros id key data ttl Hm. destruct (Hfresh f id key data ttl eq_refl Hm) as [Hid Hlog].
    cbn [h_sent set_idle]. by rewrite (grown_log r ids h h3 id Hg3 Hid).
  - do 2 wp_step. destruct (_ <? _)%Z; [|by apply wp_tells_fatal]. by do 3 wp_step.
  - by wp_step.
Qed.
