(* ===== verification/HelperClient.v ===== *)
(** * The helper's client

    Model of [RemoteHelperClient] of [crates/zerodpi/src/helper_client.rs]:
    requests with their pending replies, the frames that come back, the flow
    controller over the wire and the disconnection.  A request is split where
    the code awaits: [request_begin] up to the await, [request_end] behind it;
    the same for a registration.  The checks of [connect] are [Bootstrap]'s; a
    client starts as [connect] leaves it. *)
From stdpp Require Import base list numbers strings gmap.
From Stdlib Require Import ZArith Lia.
From S2P Require Import Prelude Flow Text Handler Protocol.

Definition MAX_PENDING_REQUESTS : nat := Z.to_nat 1024.

(** What a [oneshot] channel delivers: a message, or the reason of the
    disconnection. *)
Definition PendingResult : Type := Message + string.

Record Client := MkClient {
  c_pending : gset Z;
  c_replies : gmap Z PendingResult;     (* the channels' receiving ends *)
  c_flows : gmap Z nat;
  c_flow_ids : gmap FlowKey Z;
  c_heap : gmap nat FlowEntry;
  c_next : nat;
  c_next_request_id : Z;
  c_next_flow_id : Z;
  c_disconnected : bool;
  c_writes : list bool;
  c_sent : list Frame }.

Definition client_start (writes : list bool) : Client :=
  MkClient ∅ ∅ ∅ ∅ ∅ 0 2 1 false writes [].

Definition set_requests p r n c := MkClient p r (c_flows c) (c_flow_ids c) (c_heap c) (c_next c)
  n (c_next_flow_id c) (c_disconnected c) (c_writes c) (c_sent c).
Definition set_flows fl ids c := MkClient (c_pending c) (c_replies c) fl ids (c_heap c) (c_next c)
  (c_next_request_id c) (c_next_flow_id c) (c_disconnected c) (c_writes c) (c_sent c).
Definition set_heap hp c := MkClient (c_pending c) (c_replies c) (c_flows c) (c_flow_ids c) hp
  (c_next c) (c_next_request_id c) (c_next_flow_id c) (c_disconnected c) (c_writes c) (c_sent c).
Definition set_disconnected c := MkClient (c_pending c) (c_replies c) (c_flows c) (c_flow_ids c)
  (c_heap c) (c_next c) (c_next_request_id c) (c_next_flow_id c) true (c_writes c) (c_sent c).
Definition set_link ws fs c := MkClient (c_pending c) (c_replies c) (c_flows c) (c_flow_ids c)
  (c_heap c) (c_next c) (c_next_request_id c) (c_next_flow_id c) (c_disconnected c) ws fs.

(** ** Writing *)
Section client.
Context `{Json}.

Definition write (rid : Z) (m : Message) (c : Client) : bool * Client :=
  match write_frame (Frame_new rid m) with
  | PErr _ => (false, c)
  | POk _ =>
      match c_writes c with
      | false :: ws => (false, set_link ws (c_sent c) c)
      | true :: ws => (true, set_link ws (c_sent c ++ [Frame_new rid m]) c)
      | [] => (true, set_link [] (c_sent c ++ [Frame_new rid m]) c)
      end
  end.

(** ** Requests *)

(** [checked_add] within [fetch_update]. *)
Definition allocate_request_id (c : Client) : option (Z * Client) :=
  let current := c_next_request_id c in
  if (current + 1 <? 2 ^ 32)%Z
  then Some (current, set_requests (c_pending c) (c_replies c) (current + 1) c)
  else None.

Definition forget (rid : Z) (c : Client) : Client :=
  set_requests (c_pending c ∖ {[rid]}) (c_replies c) (c_next_request_id c) c.

(** The request's id, when it went out. *)
Definition request_begin (m : Message) (c : Client) : option Z * Client :=
  if c_disconnected c then (None, c) else
  match allocate_request_id c with
  | None => (None, c)
  | Some (rid, c) =>
      if MAX_PENDING_REQUESTS <=? size (c_pending c) then (None, c) else
      let c := set_requests (c_pending c ∪ {[rid]}) (c_replies c) (c_next_request_id c) c in
      let '(ok, c) := write rid m c in
      if ok then (Some rid, c) else (None, forget rid c)
  end.

(** The await: the channel's message, or the time-out. *)
Definition request_end (rid : Z) (timed_out : bool) (c : Client) : option (option Message * Client) :=
  match c_replies c !! rid with
  | Some (inl m) => Some (Some m, c)
  | Some (inr _) => Some (None, c)
  | None => if timed_out then Some (None, forget rid c) else None
  end.

(** ** Disconnection *)
Definition finish_flows (flows : list nat) (heap : gmap nat FlowEntry) : gmap nat FlowEntry :=
  foldl (λ heap h, alter (finish UnexpectedClose) h heap) heap flows.

Definition disconnect (reason : string) (c : Client) : Client :=
  if c_disconnected c then c else
  let c := set_disconnected c in
  let replies := set_to_map (λ rid, (rid, inr (A := Message) reason)) (c_pending c) ∪ c_replies c in
  let c := set_requests ∅ replies (c_next_request_id c) c in
  set_heap (finish_flows (map_to_list (c_flows c)).*2 (c_heap c)) c.

(** ** Frames from the helper *)
Definition on_progress (p : Progress) (e : FlowEntry) : FlowEntry :=
  match p with
  | PReadyForData => notify_ready (with_state (set_waiting_for_data true (fe_state e)) e)
  | PFakeDataAcked => finish FakeDataAcked e
  | PUnexpectedClose => finish UnexpectedClose e
  end.

Definition handle_frame (f : Frame) (c : Client) : Client :=
  match message f with
  | MFlowProgress flow_id progress =>
      match c_flows c !! flow_id with
      | None => c
      | Some entry => set_heap (alter (on_progress progress) entry (c_heap c)) c
      end
  | MHelperWarning _ _ => c
  | MHelperFatal _ text => disconnect text c
  | m =>
      if decide (request_id f ∈ c_pending c) then
        set_requests (c_pending c ∖ {[request_id f]}) (<[request_id f := inl m]> (c_replies c))
          (c_next_request_id c) c
      else c
  end.

(** ** The flow controller *)
Definition client_flow_exists (key : FlowKey) (c : Client) : bool :=
  match c_flow_ids c !! key with Some _ => true | None => false end.

Definition client_remove_flow (key : FlowKey) (c : Client) : Client :=
  match c_flow_ids c !! key with
  | None => c
  | Some flow_id =>
      let c := set_flows (delete flow_id (c_flows c)) (delete key (c_flow_ids c)) c in
      (write 0 (MRemoveFlow flow_id) c).2
  end.

Definition client_reset (c : Client) : Client :=
  let c := set_heap (finish_flows (map_to_list (c_flows c)).*2 (c_heap c)) c in
  set_flows ∅ ∅ c.

(** [register_flow] up to its request: the id, the fresh entry, the two tables.
    The id counter wraps; zero is refused. *)
Definition register_begin (key : FlowKey) (ttl : option Z) (c : Client) : option (Z * nat) * Client :=
  let flow_id := c_next_flow_id c in
  let entry := c_next c in
  let next := as_u64 (flow_id + 1) in
  if (flow_id =? 0)%Z
  then (None, MkClient (c_pending c) (c_replies c) (c_flows c) (c_flow_ids c) (c_heap c) (c_next c)
         (c_next_request_id c) next (c_disconnected c) (c_writes c) (c_sent c))
  else (Some (flow_id, entry),
        MkClient (c_pending c) (c_replies c) (<[flow_id := entry]> (c_flows c))
          (<[key := flow_id]> (c_flow_ids c)) (<[entry := FlowEntry_new [] ttl]> (c_heap c)) (S entry)
          (c_next_request_id c) next (c_disconnected c) (c_writes c) (c_sent c)).

Definition register_send (flow_id : Z) (key : FlowKey) (data : list Z) (ttl : option Z) (c : Client)
    : option Z * Client :=
  request_begin (MRegisterFlow flow_id key data ttl) c.

(** Behind the response: whether the entry is handed out. *)
Definition register_end (flow_id : Z) (key : FlowKey) (response : option Message) (c : Client)
    : bool * Client :=
  match response with
  | Some (MFlowRegistered acknowledged) =>
      if (acknowledged =? flow_id)%Z then (true, c) else (false, client_remove_flow key c)
  | _ => (false, client_remove_flow key c)
  end.
End client.
