(* ===== verification/RemoteFlows.v ===== *)
(** * Flows across the privilege boundary

    The composition of the client ([HelperClient]) and the helper
    ([RootHelper]): two processes that exchange frames in order, each with its
    own threads, and the packets that the helper's interceptor handles.  Frames
    travel decoded; that the byte stream carries them is [Protocol].  The
    theorem says that the flow records the proxy reads at the client follow the
    records the packet handler writes at the helper. *)
From stdpp Require Import base list numbers strings gmap.
From Stdlib Require Import ZArith Lia.
From S2P Require Import Prelude Interceptor Flow Methods Handler Waiting Protocol WireMethod RootHelper Told HelperClient.

(** ** The system

    [sy_up] counts the client's frames the helper has taken, [sy_down] the
    helper's frames the client has handled; [sy_unsent] are the flows between
    [register_begin] and [register_send]. *)
Record System := MkSystem {
  sy_client : Client;
  sy_helper : Helper;
  sy_alive : bool;
  sy_up : nat;
  sy_down : nat;
  sy_unsent : gset Z }.

Definition with_client (c : Client) (sy : System) : System :=
  MkSystem c (sy_helper sy) (sy_alive sy) (sy_up sy) (sy_down sy) (sy_unsent sy).

(** A request that is not a registration, its unsigned fields nonnegative. *)
Definition plain_request (m : Message) : Prop :=
  match m with
  | MRegisterFlow _ _ _ _ => False
  | MConfigureInterceptor c => (0 ≤ tls_record_frag_size (method c))%Z
  | _ => True
  end.

Section system.
Context `{Json} (me : Identity).

Inductive sys_step : System → System → Prop :=
  | s_begin key ttl id e c' sy :
      (c_next_flow_id (sy_client sy) + 1 < 2 ^ 64)%Z →
      register_begin key ttl (sy_client sy) = (Some (id, e), c') →
      sys_step sy (MkSystem c' (sy_helper sy) (sy_alive sy) (sy_up sy) (sy_down sy)
        (sy_unsent sy ∪ {[id]}))
  | s_send id key data ttl rid c' sy :
      id ∈ sy_unsent sy →
      register_send id key data ttl (sy_client sy) = (rid, c') →
      sys_step sy (MkSystem c' (sy_helper sy) (sy_alive sy) (sy_up sy) (sy_down sy)
        (sy_unsent sy ∖ {[id]}))
  | s_request m rid c' sy :
      plain_request m → request_begin m (sy_client sy) = (rid, c') →
      sys_step sy (with_client c' sy)
  | s_end rid timed_out res c' sy :
      request_end rid timed_out (sy_client sy) = Some (res, c') → sys_step sy (with_client c' sy)
  | s_registered id key response ok c' sy :
      register_end id key response (sy_client sy) = (ok, c') → sys_step sy (with_client c' sy)
  | s_remove key sy : sys_step sy (with_client (client_remove_flow key (sy_client sy)) sy)
  | s_reset sy : sys_step sy (with_client (client_reset (sy_client sy)) sy)
  | s_heartbeat ok c' sy :
      write 0 MPing (sy_client sy) = (ok, c') →
      sys_step sy (with_client (if ok then c' else disconnect "write failed" c') sy)
  | s_turn r h' sy :
      sy_alive sy = true →
      (∀ f, r_received r = RFrame f → c_sent (sy_client sy) !! sy_up sy = Some f) →
      turn me r (sy_helper sy) = Next true h' →
      sys_step sy (MkSystem (sy_client sy) h' true
        (match r_received r with RFrame _ => S (sy_up sy) | _ => sy_up sy end) (sy_down sy)
        (sy_unsent sy))
  | s_exit r h' sy :
      sy_alive sy = true →
      (∀ f, r_received r = RFrame f → c_sent (sy_client sy) !! sy_up sy = Some f) →
      turn me r (sy_helper sy) = Next false h' ∨ turn me r (sy_helper sy) = Bail h' →
      sys_step sy (MkSystem (sy_client sy) h' false
        (match r_received r with RFrame _ => S (sy_up sy) | _ => sy_up sy end) (sy_down sy)
        (sy_unsent sy))
  | s_deliver f sy :
      h_sent (sy_helper sy) !! sy_down sy = Some f →
      sys_step sy (MkSystem (handle_frame f (sy_client sy)) (sy_helper sy) (sy_alive sy) (sy_up sy)
        (S (sy_down sy)) (sy_unsent sy))
  | s_lost reason sy : sys_step sy (with_client (disconnect reason (sy_client sy)) sy).

(** Behind the handshake of [connect]: an authenticated helper without flows,
    its answer taken. *)
Definition sys_start (h : Helper) (writes : list bool) : System :=
  MkSystem (client_start writes) h true 0 (length (h_sent h)) ∅.
Definition connected (h : Helper) : Prop :=
  helper_ok h ∧ h_state h = Authenticated ∧ Forall (λ f, telling f = false ∧ (request_id f < 2)%Z) (h_sent h).

Definition sys_reachable (h : Helper) (writes : list bool) : System → Prop :=
  rtc sys_step (sys_start h writes).
End system.

(** ** The invariant *)
Definition registering (f : Frame) : option Z :=
  match message f with MRegisterFlow id _ _ _ => Some id | _ => None end.
Definition reg_ids (fs : list Frame) : list Z := omap registering fs.

(** A reply belongs to a request the helper has taken. *)
Definition reply_to (taken : list Frame) (g : Frame) : Prop :=
  match message g with
  | MHelperFatal _ _ | MFlowProgress _ _ | MHelperWarning _ _ => True
  | m => (request_id g < 2)%Z ∨
      ∃ f, f ∈ taken ∧ request_id f = request_id g ∧ answers (message f) m
  end.

(** The frames the client has written. *)
Record link_ok (c : Client) (unsent : gset Z) : Prop := {
  lk_delivered : Forall delivered (c_sent c);
  lk_next : (2 ≤ c_next_request_id c)%Z;
  lk_rids : ∀ f, f ∈ c_sent c → (request_id f < c_next_request_id c)%Z;
  lk_unique : ∀ i j f g, c_sent c !! i = Some f → c_sent c !! j = Some g →
    request_id f = request_id g → request_id f ≠ 0%Z → i = j;
  lk_pending : ∀ rid, rid ∈ c_pending c → (2 ≤ rid)%Z;
  lk_ids : NoDup (reg_ids (c_sent c));
  lk_reg : ∀ id, id ∈ reg_ids (c_sent c) → (0 < id < c_next_flow_id c)%Z ∧ id ∉ unsent;
  lk_unsent : ∀ id, id ∈ unsent → (0 < id < c_next_flow_id c)%Z;
  lk_fid : (0 < c_next_flow_id c)%Z }.

(** The client's tables: distinct flows have distinct records. *)
Record tables_ok (c : Client) : Prop := {
  tb_flow : ∀ id e, c_flows c !! id = Some e →
    (id < c_next_flow_id c)%Z ∧ e < c_next c ∧ is_Some (c_heap c !! e);
  tb_inj : ∀ id1 id2 e, c_flows c !! id1 = Some e → c_flows c !! id2 = Some e → id1 = id2;
  tb_fresh : ∀ e, c_next c ≤ e → c_heap c !! e = None }.

(** What the client makes of the frames it has handled. *)
Definition view_ok (c : Client) (handled : list Frame) : Prop :=
  ∀ id e, c_flows c !! id = Some e →
    ∃ en, c_heap c !! e = Some en ∧
      if c_disconnected c
      then is_Some (outcome (fe_state en)) ∨ id ∉ reg_ids (c_sent c)
      else progress_of (fe_state en) = replay (progress_log id handled).

Record sys_ok (sy : System) : Prop := {
  sk_helper : sy_alive sy = true → helper_ok (sy_helper sy) ∧ told_ok (sy_helper sy);
  sk_up : sy_up sy ≤ length (c_sent (sy_client sy));
  sk_down : sy_down sy ≤ length (h_sent (sy_helper sy));
  sk_link : link_ok (sy_client sy) (sy_unsent sy);
  sk_tables : tables_ok (sy_client sy);
  sk_view : view_ok (sy_client sy) (take (sy_down sy) (h_sent (sy_helper sy)));
  sk_origin : Forall (reply_to (take (sy_up sy) (c_sent (sy_client sy)))) (h_sent (sy_helper sy));
  sk_log : ∀ id, progress_log id (h_sent (sy_helper sy)) ≠ [] →
    id ∈ reg_ids (take (sy_up sy) (c_sent (sy_client sy)));
  sk_registered : sy_alive sy = true → ∀ id, id ∈ dom (h_registered (sy_helper sy)) →
    id ∈ reg_ids (take (sy_up sy) (c_sent (sy_client sy)));
  sk_replies : ∀ rid m, c_replies (sy_client sy) !! rid = Some (inl m) →
    ∃ f, f ∈ c_sent (sy_client sy) ∧ request_id f = rid ∧ answers (message f) m }.

(** ** The client's operations *)
Section client.
Context `{Json}.

(** Nothing but the link changes. *)
Definition same_tables (c c' : Client) : Prop :=
  c_flows c' = c_flows c ∧ c_heap c' = c_heap c ∧ c_next c' = c_next c ∧
  c_next_flow_id c' = c_next_flow_id c ∧ c_disconnected c' = c_disconnected c.

(** A write appends the valid frame, or nothing. *)
Lemma write_spec rid m c ok c' : write rid m c = (ok, c') →
  same_tables c c' ∧ c_pending c' = c_pending c ∧ c_replies c' = c_replies c ∧
  c_next_request_id c' = c_next_request_id c ∧ c_flow_ids c' = c_flow_ids c ∧
  c_sent c' = (if ok then c_sent c ++ [Frame_new rid m] else c_sent c) ∧
  (ok = true → validate m = POk ()).
Proof.
  unfold write. destruct (write_frame (Frame_new rid m)) as [bytes|e] eqn:Ew.
  - assert (validate m = POk ()) as Hv.
    { unfold write_frame in Ew. cbn [flags Frame_new message] in Ew. simpl in Ew.
      destruct (validate m) as [[]|]; [done|discriminate Ew]. }
    destruct (c_writes c) as [|[] ws]; intros [= <- <-]; by split_and!.
  - intros [= <- <-]. by split_and!.
Qed.
End client.

Lemma reg_ids_app l1 l2 : reg_ids (l1 ++ l2) = reg_ids l1 ++ reg_ids l2.
Proof. apply omap_app. Qed.

Lemma registering_spec rid m id : registering (Frame_new rid m) = Some id →
  ∃ key data ttl, m = MRegisterFlow id key data ttl.
Proof. unfold registering. simpl. destruct m; try done. intros [= <-]. eauto. Qed.

Section link.
Implicit Types (c : Client).

(** Nothing new on the link. *)
Lemma link_same c c' unsent : link_ok c unsent → c_sent c' = c_sent c →
  (c_next_request_id c ≤ c_next_request_id c')%Z → c_pending c' ⊆ c_pending c →
  c_next_flow_id c' = c_next_flow_id c → link_ok c' unsent.
Proof.
  intros [H1 H2 H3 H4 H5 H6 H7 H8 H9] Hs Hn Hp Hf.
  constructor; rewrite ?Hs, ?Hf; try done; try lia.
  - intros f Hin. specialize (H3 f Hin). lia.
  - intros rid Hr. by apply H5, Hp.
Qed.

(** One frame more: a notification under id 0 or a request under the next id. *)
Lemma link_append c c' unsent unsent' rid m : link_ok c unsent →
  c_sent c' = c_sent c ++ [Frame_new rid m] → delivered (Frame_new rid m) →
  (rid = 0%Z ∧ c_next_request_id c' = c_next_request_id c ∧ c_pending c' = c_pending c ∨
   rid = c_next_request_id c ∧ c_next_request_id c' = (rid + 1)%Z ∧
     c_pending c' ⊆ c_pending c ∪ {[rid]}) →
  c_next_flow_id c' = c_next_flow_id c →
  (registering (Frame_new rid m) = None ∧ unsent' = unsent ∨
   ∃ id, registering (Frame_new rid m) = Some id ∧ id ∈ unsent ∧ unsent' = unsent ∖ {[id]}) →
  link_ok c' unsent'.
Proof.
  intros [H1 H2 H3 H4 H5 H6 H7 H8 H9] Hs Hd Hrid Hf Hreg.
  assert (unsent' ⊆ unsent) as Hsub by (destruct Hreg as [[_ ->]|(id & _ & _ & ->)]; set_solver).
  constructor; rewrite ?Hs, ?Hf; try done.
  - apply Forall_app. split; [done|]. by apply Forall_singleton.
  - destruct Hrid as [(-> & -> & _)|(-> & -> & _)]; lia.
  - intros f Hin. apply elem_of_app in Hin as [Hin|Hin%list_elem_of_singleton].
    + specialize (H3 f Hin). destruct Hrid as [(_ & -> & _)|(-> & -> & _)]; lia.
    + subst f. cbn [request_id Frame_new]. destruct Hrid as [(-> & -> & _)|(-> & -> & _)]; lia.
  - assert (∀ i f, c_sent c !! i = Some f → request_id f = rid → rid ≠ 0%Z → False) as Hnew.
    { intros i f Hi Heq Hne. apply list_elem_of_lookup_2, H3 in Hi.
      destruct Hrid as [(-> & _)|(-> & _)]; [done|lia]. }
    intros i j f g Hi Hj Heq Hne.
    apply lookup_app_Some in Hi as [Hi|[Hi1 Hi]]; apply lookup_app_Some in Hj as [Hj|[Hj1 Hj]].
    + by eapply H4.
    + apply list_lookup_singleton_Some in Hj as [Hj <-]. destruct (Hnew i f Hi Heq (λ Hz, Hne (eq_trans Heq Hz))).
    + apply list_lookup_singleton_Some in Hi as [Hi <-]. destruct (Hnew j g Hj (eq_sym Heq) Hne).
    + apply list_lookup_singleton_Some in Hi as [Hi <-], Hj as [Hj <-]. lia.
  - intros r Hr. destruct Hrid as [(_ & _ & Hp)|(-> & _ & Hp)].
    + rewrite Hp in Hr. by apply H5.
    + apply Hp, elem_of_union in Hr as [Hr| ->%elem_of_singleton]; [by apply H5|done].
  - rewrite reg_ids_app. unfold reg_ids at 2. cbn [omap list_omap].
    destruct Hreg as [[-> _]|(id & -> & Hid & _)]; [by rewrite app_nil_r|].
    apply NoDup_app. split; [done|]. split; [|apply NoDup_singleton].
    intros x Hx ->%list_elem_of_singleton. by apply H7 in Hx as [_ Hx].
  - intros id. rewrite reg_ids_app, elem_of_app. unfold reg_ids at 2. cbn [omap list_omap].
    intros [Hin|Hin].
    + destruct (H7 id Hin) as [? ?]. split; [done|]. set_solver.
    + destruct Hreg as [[Hr _]|(id' & Hr & Hid & ->)]; rewrite Hr in Hin; [by inversion Hin|].
      apply list_elem_of_singleton in Hin as ->. split; [by apply H8|set_solver].
  - intros id Hid. apply H8. set_solver.
Qed.
End link.

(** *** What every operation of the client keeps *)
Definition replies_ok (c : Client) : Prop := ∀ rid m, c_replies c !! rid = Some (inl m) →
  ∃ f, f ∈ c_sent c ∧ request_id f = rid ∧ answers (message f) m.

Record client_ok (unsent : gset Z) (handled : list Frame) (c : Client) : Prop := {
  cl_link : link_ok c unsent;
  cl_tables : tables_ok c;
  cl_view : view_ok c handled;
  cl_replies : replies_ok c }.

(** From [c] to [c']: the frames only grow. *)
Definition client_step (unsent unsent' : gset Z) (handled : list Frame) (c c' : Client) : Prop :=
  client_ok unsent' handled c' ∧ c_sent c `prefix_of` c_sent c'.

Section operations.
Context `{Json} (handled : list Frame).
Implicit Types (c : Client) (unsent : gset Z).

Lemma tables_same c c' : same_tables c c' → tables_ok c → tables_ok c'.
Proof. intros (E1 & E2 & E3 & E4 & _) [H1 H2 H3]. constructor; rewrite ?E1, ?E2, ?E3, ?E4; done. Qed.

(** New frames do not concern the records, unless the client is disconnected
    and a registration is written, which does not happen. *)
Lemma view_same c c' : same_tables c c' →
  (c_disconnected c = true → reg_ids (c_sent c') = reg_ids (c_sent c)) →
  view_ok c handled → view_ok c' handled.
Proof.
  intros (E1 & E2 & _ & _ & E5) Hs Hv id e. rewrite E1, E2, E5. intros Hl.
  destruct (Hv id e Hl) as (en & He & Hd). exists en. split; [done|].
  destruct (c_disconnected c); [|done]. by rewrite Hs.
Qed.

Lemma replies_grow c c' : c_replies c' = c_replies c → c_sent c `prefix_of` c_sent c' →
  replies_ok c → replies_ok c'.
Proof.
  intros Hr [l Hl] Ho rid m. rewrite Hr. intros (f & Hf & Hrid & Ha)%Ho. exists f.
  rewrite Hl, elem_of_app. auto.
Qed.

Lemma request_begin_spec m c rid c' : request_begin m c = (rid, c') →
  same_tables c c' ∧ c_replies c' = c_replies c ∧
  (c_sent c' = c_sent c ∧ (c_next_request_id c ≤ c_next_request_id c')%Z ∧
     c_pending c' ⊆ c_pending c ∨
   c_disconnected c = false ∧ validate m = POk () ∧
     c_sent c' = c_sent c ++ [Frame_new (c_next_request_id c) m] ∧
     c_next_request_id c' = (c_next_request_id c + 1)%Z ∧
     c_pending c' ⊆ c_pending c ∪ {[c_next_request_id c]}).
Proof.
  unfold request_begin. destruct (c_disconnected c) eqn:Ed.
  { intros [= <- <-]. split; [done|]. split; [done|]. left. split_and!; [done|lia|done]. }
  unfold allocate_request_id. destruct (_ <? _)%Z.
  2:{ intros [= <- <-]. split; [done|]. split; [done|]. left. split_and!; [done|lia|done]. }
  destruct (_ <=? _).
  { intros [= <- <-]. split; [done|]. split; [done|]. left. simpl. split_and!; [done|lia|done]. }
  destruct (write _ m _) as [ok c2] eqn:Ew. apply write_spec in Ew as (Hs & Hp & Hr & Hn & _ & Hse & Hv).
  simpl in *. destruct ok; intros [= <- <-].
  - split; [exact Hs|]. split; [done|]. right. split_and!; auto. by rewrite Hp.
  - split; [exact Hs|]. split; [done|]. left. simpl. rewrite Hse, Hn, Hp. split; [done|].
    split; [lia|]. set_solver.
Qed.

(** A request, with the registrations it takes off the unsent ones. *)
Lemma begin_ok unsent unsent' m c rid c' : client_ok unsent handled c →
  request_begin m c = (rid, c') → (validate m = POk () → delivered (Frame_new (c_next_request_id c) m)) →
  (registering (Frame_new (c_next_request_id c) m) = None ∧ unsent' = unsent ∨
   ∃ id, registering (Frame_new (c_next_request_id c) m) = Some id ∧ id ∈ unsent ∧
     unsent' = unsent ∖ {[id]}) →
  client_step unsent unsent' handled c c'.
Proof.
  intros [Hl Ht Hv Hr] Hb Hd Hreg.
  apply request_begin_spec in Hb as (Hs & Hrp & [(Hse & Hn & Hp)|(Hdis & Hval & Hse & Hn & Hp)]).
  - assert (c_sent c `prefix_of` c_sent c') as Hpre by by rewrite Hse.
    split; [|done]. pose proof Hs as (_ & _ & _ & Hf & _).
    constructor; [|by eapply tables_same|by eapply view_same; [|rewrite Hse|]|by eapply replies_grow].
    assert (link_ok c unsent') as Hl'; [|by eapply link_same].
    destruct Hreg as [[_ ->]|(id & _ & _ & ->)]; [done|].
    destruct Hl as [L1 L2 L3 L4 L5 L6 L7 L8 L9]. constructor; try done.
    + intros id' Hid'. destruct (L7 id' Hid'). split; [done|set_solver].
    + intros id' Hid'. apply L8. set_solver.
  - assert (c_sent c `prefix_of` c_sent c') as Hpre by (rewrite Hse; by eexists).
    split; [|done]. pose proof Hs as (_ & _ & _ & Hf & _).
    constructor; [|by eapply tables_same| |by eapply replies_grow].
    + eapply link_append; [done|done|by apply Hd| |done|done]. right. auto.
    + eapply view_same; [done| |done]. by rewrite Hdis.
Qed.

(** *** Notifications *)
Lemma notify_ok unsent m c ok c' : client_ok unsent handled c → write 0 m c = (ok, c') →
  registering (Frame_new 0 m) = None →
  match m with MConfigureInterceptor _ => False | _ => True end →
  client_step unsent unsent handled c c'.
Proof.
  intros [Hl Ht Hv Hr] Hw Hreg Hm.
  apply write_spec in Hw as (Hs & Hp & Hrp & Hn & _ & Hse & Hval).
  pose proof Hs as (_ & _ & _ & Hf & _).
  assert (c_sent c `prefix_of` c_sent c') as Hpre.
  { rewrite Hse. destruct ok; [by eexists|done]. }
  split; [|done].
  constructor; [|by eapply tables_same| |by eapply replies_grow].
  - destruct ok.
    + eapply link_append; [done|done| |by left|done|by left].
      split; [by apply Hval|]. by destruct m.
    + eapply link_same; [done|done|lia|by rewrite Hp|done].
  - eapply view_same; [done| |done]. intros _. rewrite Hse. destruct ok; [|done].
    rewrite reg_ids_app. unfold reg_ids at 2. cbn [omap list_omap]. by rewrite Hreg, app_nil_r.
Qed.
End operations.

(** *** The records *)
Lemma lookup_finish_flows l heap h :
  finish_flows l heap !! h =
    if decide (h ∈ l) then finish UnexpectedClose <$> heap !! h else heap !! h.
Proof.
  replace (finish_flows l heap) with (finish_all ((λ h, (MkFlowKey 0 0 0 0, h)) <$> l) heap).
  - rewrite lookup_finish_all. replace (((λ h, (MkFlowKey 0 0 0 0, h)) <$> l).*2) with l; [done|].
    rewrite <-list_fmap_compose. induction l; simpl; by f_equal.
  - unfold finish_all, finish_flows. revert heap. induction l as [|x l IH]; intros heap; [done|].
    apply IH.
Qed.

Lemma finish_outcome o e : is_Some (outcome (fe_state (finish o e))).
Proof.
  unfold finish. destruct (outcome (fe_state e)) eqn:E; cbn [is_none]; [by rewrite E|by eexists].
Qed.
Lemma on_progress_outcome p e : is_Some (outcome (fe_state e)) → is_Some (outcome (fe_state (on_progress p e))).
Proof. intros Ho. destruct p; [done| |]; apply finish_outcome. Qed.

(** What the client's record says after a frame is what the frame adds. *)
Lemma on_progress_hear p e : progress_of (fe_state (on_progress p e)) = hear (progress_of (fe_state e)) p.
Proof.
  unfold progress_of. destruct p; simpl; unfold finish;
    destruct (outcome (fe_state e)) as [[]|] eqn:E; simpl; rewrite ?E;
    by try destruct (waiting_for_data (fe_state e)).
Qed.

Section records.
Context `{Json}.
Implicit Types (c : Client) (unsent : gset Z) (handled : list Frame).

Lemma remove_ok unsent handled key c : client_ok unsent handled c →
  client_step unsent unsent handled c (client_remove_flow key c).
Proof.
  intros Hc. unfold client_remove_flow. destruct (c_flow_ids c !! key) as [id|]; [|done].
  set (c1 := set_flows _ _ c). destruct (write 0 (MRemoveFlow id) c1) as [ok c2] eqn:Ew.
  destruct Hc as [Hl Ht Hv Hr].
  apply (notify_ok handled unsent (MRemoveFlow id) c1 ok c2); [|done..].
  constructor; [by destruct Hl| | |done].
  - destruct Ht as [H1 H2 H3]. constructor; simpl; [| |done].
    + intros id' e [_ Hl']%lookup_delete_Some. by eapply H1.
    + intros id1 id2 e [_ Hl1]%lookup_delete_Some [_ Hl2]%lookup_delete_Some. by eapply H2.
  - intros id' e Hl'. cbn [c_flows c1 set_flows] in Hl'. apply lookup_delete_Some in Hl' as [_ Hl']. by eapply Hv.
Qed.

Lemma finish_tables c : tables_ok c →
  tables_ok (set_heap (finish_flows (map_to_list (c_flows c)).*2 (c_heap c)) c).
Proof.
  intros [H1 H2 H3]. constructor; simpl; [|done|].
  - intros id e Hl. destruct (H1 id e Hl) as (? & ? & [en He]). split_and!; [done..|].
    rewrite lookup_finish_flows, He. case_decide; by eexists.
  - intros e He. rewrite lookup_finish_flows, H3 by done. by case_decide.
Qed.

Lemma reset_ok unsent handled c : client_ok unsent handled c →
  client_step unsent unsent handled c (client_reset c).
Proof.
  intros [Hl Ht Hv Hr]. split; [|done]. unfold client_reset.
  constructor; [by destruct Hl| |by intros id e|done].
  destruct (finish_tables c Ht) as [H1 H2 H3]. constructor; simpl in *; [by intros id e|by intros id1 id2 e|done].
Qed.

Lemma register_begin_ok unsent handled key ttl c id e c' : client_ok unsent handled c →
  (c_next_flow_id c + 1 < 2 ^ 64)%Z →
  (∀ id, progress_log id handled ≠ [] → id ∈ reg_ids (c_sent c)) →
  register_begin key ttl c = (Some (id, e), c') →
  client_step unsent (unsent ∪ {[id]}) handled c c'.
Proof.
  intros [Hl Ht Hv Hr] Hw Hlog Hb. unfold register_begin in Hb.
  pose proof (lk_fid _ _ Hl) as Hpos.
  destruct (Z.eqb_spec (c_next_flow_id c) 0); [done|].
  unfold as_u64 in Hb. rewrite Z.mod_small in Hb by lia. injection Hb as <- <- <-.
  assert (c_next_flow_id c ∉ reg_ids (c_sent c)) as Hnew.
  { intros Hin. apply (lk_reg _ _ Hl) in Hin as [? _]. lia. }
  split; [|done]. constructor; [| | |done].
  - destruct Hl as [H1 H2 H3 H4 H5 H6 H7 H8 H9]. constructor; simpl; try done; [| |lia].
    + intros id Hin. destruct (H7 id Hin) as [? ?]. split; [lia|]. set_solver by lia.
    + intros id [Hin| ->%elem_of_singleton]%elem_of_union; [apply H8 in Hin; lia|lia].
  - destruct Ht as [H1 H2 H3]. constructor; simpl.
    + intros id e. rewrite !lookup_insert. case_decide.
      * intros [= <-]. subst id. rewrite decide_True by done. split_and!; [lia|lia|by eexists].
      * intros Hle. destruct (H1 id e Hle) as (? & ? & ?). split_and!; [lia|lia|].
        rewrite decide_False by lia. done.
    + intros id1 id2 e. rewrite !lookup_insert. repeat case_decide; subst; try done.
      * intros [= <-] H'. apply H1 in H' as (? & ? & _). lia.
      * intros H' [= <-]. apply H1 in H' as (? & ? & _). lia.
      * apply H2.
    + intros e He. rewrite lookup_insert_ne by lia. apply H3. lia.
  - intros id e. cbn [c_flows c_heap c_disconnected c_sent]. rewrite !lookup_insert. case_decide.
    + intros [= <-]. subst id. rewrite decide_True by done. eexists. split; [done|].
      destruct (c_disconnected c); [by right|]. cbn.
      destruct (progress_log (c_next_flow_id c) handled) eqn:El; [done|].
      destruct Hnew. apply Hlog. by rewrite El.
    + intros Hle. destruct (tb_flow c Ht id e Hle) as (_ & Hlt & _).
      rewrite decide_False by lia. by apply Hv.
Qed.

Lemma disconnect_ok unsent handled reason c : client_ok unsent handled c →
  client_step unsent unsent handled c (disconnect reason c).
Proof.
  intros [Hl Ht Hv Hr]. unfold disconnect. destruct (c_disconnected c) eqn:Ed; [by split|].
  split; [|done]. constructor.
  - eapply link_same; [done|done|simpl; lia|simpl; set_solver|done].
  - by destruct (finish_tables c Ht).
  - intros id e Hle. simpl in *. destruct (Hv id e Hle) as (en & He & _).
    rewrite lookup_finish_flows, He, decide_True.
    + eexists. split; [done|]. left. apply finish_outcome.
    + apply list_elem_of_fmap. exists (id, e). split; [done|]. by apply elem_of_map_to_list.
  - intros rid m. simpl. intros [Hs|[_ Hs]]%lookup_union_Some_raw; [|by apply Hr].
    apply lookup_set_to_map in Hs; [|done]. by destruct Hs as (? & _ & [=]).
Qed.

(** *** A frame from the helper *)
Lemma view_told c handled f : telling f = false → view_ok c handled → view_ok c (handled ++ [f]).
Proof.
  intros Hf Hv id e Hl. destruct (Hv id e Hl) as (en & He & Hd). exists en. split; [done|].
  destruct (c_disconnected c); [done|]. rewrite progress_log_app, (progress_log_none id [f]), app_nil_r; [done|].
  apply Forall_singleton. unfold progress_in, telling in *. by destruct (message f).
Qed.

Lemma handle_frame_ok unsent handled taken f c : client_ok unsent handled c →
  reply_to taken f → (∀ g, g ∈ taken → g ∈ c_sent c) →
  client_step unsent unsent (handled ++ [f]) c (handle_frame f c).
Proof.
  intros Hc Hrep Htaken. pose proof Hc as [Hl Ht Hv Hr]. unfold handle_frame.
  assert (∀ m, message f = m → telling f = false → reply_to taken f →
    match m with MHelperFatal _ _ | MHelperWarning _ _ => False | _ => True end →
    client_step unsent unsent (handled ++ [f]) c
      (if decide (request_id f ∈ c_pending c) then
        set_requests (c_pending c ∖ {[request_id f]}) (<[request_id f := inl m]> (c_replies c))
          (c_next_request_id c) c
      else c)) as Hreply.
  { intros m Hm Htell Hre Hno. split; [|by case_decide].
    assert (view_ok c (handled ++ [f])) as Hv' by by apply view_told.
    case_decide as Hp; [|by constructor]. constructor; [|by destruct Ht|done|].
    - eapply link_same; [done|done|simpl; lia|simpl; set_solver|done].
    - intros rid m'. simpl. rewrite lookup_insert. case_decide as Hd; [|by apply Hr].
      intros [= <-]. apply (lk_pending _ _ Hl) in Hp. unfold reply_to in Hre. rewrite Hm in Hre.
      assert (∃ q, q ∈ taken ∧ request_id q = request_id f ∧ answers (message q) m) as (q & Hq & Hrid & Ha).
      { destruct m; try done; try (destruct Hre as [?|Hre]; [lia|exact Hre]).
        unfold telling in Htell. by rewrite Hm in Htell. }
      exists q. rewrite <-Hd. auto. }
  destruct (message f) as [hello|accepted|config| | | | | |i key data ttl|i|i|i|id p| | | | |code text|code text|v|] eqn:Em;
    try (apply Hreply; [done|by unfold telling; rewrite Em|done|done]).
  - (* progress *)
    assert (∀ i, i ≠ id → progress_log i (handled ++ [f]) = progress_log i handled) as Hother.
    { intros i Hi. rewrite progress_log_app, (progress_log_none i [f]), app_nil_r; [done|].
      apply Forall_singleton. unfold progress_in. rewrite Em. by rewrite (proj2 (Z.eqb_neq _ _)). }
    assert (progress_log id (handled ++ [f]) = progress_log id handled ++ [p]) as Hsame.
    { rewrite progress_log_app. f_equal. unfold progress_log. cbn [omap list_omap].
      unfold progress_in. by rewrite Em, Z.eqb_refl. }
    destruct (c_flows c !! id) as [e|] eqn:Ef; split; try done.
    + constructor; [by destruct Hl| | |done].
      * destruct Ht as [H1 H2 H3]. constructor; simpl; [|done|].
        -- intros i e' Hle. destruct (H1 i e' Hle) as (? & ? & Hs). split_and!; [done..|].
           by rewrite lookup_alter_is_Some.
        -- intros e' He'. apply lookup_alter_None. auto.
      * intros i e' Hle. simpl in *. destruct (Hv i e' Hle) as (en & He & Hd).
        destruct (decide (i = id)) as [->|Hne].
        -- rewrite Ef in Hle. injection Hle as <-. rewrite lookup_alter_eq, He. eexists.
           split; [done|]. destruct (c_disconnected c).
           ++ destruct Hd as [Hd|Hd]; [left; by apply on_progress_outcome|by right].
           ++ rewrite on_progress_hear, Hsame, replay_snoc. by f_equal.
        -- rewrite lookup_alter_ne by (intros <-; by destruct Hne; eapply (tb_inj c Ht)).
           exists en. split; [done|]. by rewrite Hother.
    + constructor; [done..| |done]. intros i e' Hle.
      destruct (Hv i e' Hle) as (en & He & Hd). exists en. split; [done|].
      rewrite Hother; [done|]. intros ->. by rewrite Ef in Hle.
  - (* warning *)
    split; [|done]. constructor; [done..| |done]. apply view_told; [|done].
    unfold telling. by rewrite Em.
  - (* fatal *)
    apply (disconnect_ok unsent (handled ++ [f]) text c). constructor; [done..| |done].
    apply view_told; [|done]. unfold telling. by rewrite Em.
Qed.
End records.

(** ** The invariant holds *)
Section invariant.
Context `{Json} (me : Identity).
Implicit Types (sy : System).

Lemma sys_client_ok sy : sys_ok sy →
  client_ok (sy_unsent sy) (take (sy_down sy) (h_sent (sy_helper sy))) (sy_client sy).
Proof. intros []. by constructor. Qed.

(** A step of the client. *)
Lemma client_step_ok sy c' down' unsent' : sys_ok sy → down' ≤ length (h_sent (sy_helper sy)) →
  client_step (sy_unsent sy) unsent' (take down' (h_sent (sy_helper sy))) (sy_client sy) c' →
  sys_ok (MkSystem c' (sy_helper sy) (sy_alive sy) (sy_up sy) down' unsent').
Proof.
  intros [K1 K2 K3 K4 K5 K6 K7 K8 K9 K10] Hd [[C1 C2 C3 C4] [l Hl]].
  assert (take (sy_up sy) (c_sent c') = take (sy_up sy) (c_sent (sy_client sy))) as Htake.
  { by rewrite Hl, take_app_le. }
  constructor; cbn [sy_client sy_helper sy_alive sy_up sy_down sy_unsent]; rewrite ?Htake; try done.
  rewrite Hl, length_app. lia.
Qed.

(** A turn of the helper, on or out. *)
Lemma helper_step_ok sy r h' alive' : sys_ok sy → sy_alive sy = true →
  (∀ f, r_received r = RFrame f → c_sent (sy_client sy) !! sy_up sy = Some f) →
  grown r (dom (h_registered (sy_helper sy))) (sy_helper sy) h' →
  (alive' = true → helper_ok h' ∧ kept r (dom (h_registered (sy_helper sy))) h') →
  sys_ok (MkSystem (sy_client sy) h' alive'
    (match r_received r with RFrame _ => S (sy_up sy) | _ => sy_up sy end) (sy_down sy)
    (sy_unsent sy)).
Proof.
  intros [K1 K2 K3 K4 K5 K6 K7 K8 K9 K10] Ha Hf (l & Hl & Ho) Hk.
  set (up' := match r_received r with RFrame _ => S (sy_up sy) | _ => sy_up sy end).
  set (cs := c_sent (sy_client sy)) in *.
  assert (sy_up sy ≤ up' ≤ length cs) as Hup.
  { unfold up'. destruct (r_received r) as [f| |]; [|lia..].
    specialize (Hf f eq_refl). apply lookup_lt_Some in Hf. lia. }
  assert (∀ x, x ∈ take (sy_up sy) cs → x ∈ take up' cs) as Hmore.
  { intros x [i Hi]%list_elem_of_lookup. apply lookup_take_Some in Hi as [Hi Hlt].
    apply list_elem_of_lookup. exists i. apply lookup_take_Some. split; [done|lia]. }
  assert (∀ id, id ∈ reg_ids (take (sy_up sy) cs) → id ∈ reg_ids (take up' cs)) as Hmore'.
  { intros id. unfold reg_ids. rewrite !list_elem_of_omap. intros (x & Hx & Hid). eauto. }
  assert (∀ f, r_received r = RFrame f → f ∈ take up' cs) as Htaken.
  { intros f Er. specialize (Hf f Er). unfold up'. rewrite Er. apply list_elem_of_lookup.
    exists (sy_up sy). rewrite lookup_take_lt by lia. exact Hf. }
  constructor; cbn [sy_client sy_helper sy_alive sy_up sy_down sy_unsent]; try done.
  - intros Ht. destruct (Hk Ht) as [? [? _]]. by split.
  - fold cs up'. lia.
  - rewrite Hl, length_app. lia.
  - rewrite Hl, take_app_le by lia. exact K6.
  - fold cs up'. rewrite Hl. apply Forall_app. split.
    + eapply Forall_impl; [exact K7|]. intros g Hg. unfold reply_to in *.
      destruct (message g); try done; (destruct Hg as [?|(q & Hq & ?)]; [by left|right; exists q; auto]).
    + eapply Forall_impl; [exact Ho|]. intros g Hg. unfold origin, reply_to in *.
      destruct (message g); try done; try (by destruct Hg); (destruct Hg as [Hg|(q & Er & Hrid & Han)];
        [left; lia|right; exists q; split; [by apply Htaken|auto]]).
  - fold cs up'. intros id. rewrite Hl, progress_log_app. intros Hne.
    destruct (progress_log id (h_sent (sy_helper sy))) eqn:El.
    + apply Hmore', (K9 Ha). destruct (decide (id ∈ dom (h_registered (sy_helper sy)))) as [|Hid]; [done|].
      exfalso. apply Hne. cbn [app]. apply progress_log_none. eapply Forall_impl; [exact Ho|].
      intros g Hg. unfold origin, progress_in in *. destruct (message g); try done.
      destruct Hg as [_ Hin]. destruct (Z.eqb_spec flow_id id); [by subst|done].
    + apply Hmore', K8. by rewrite El.
  - fold cs up'. intros Ht id Hid. destruct (Hk Ht) as [_ [_ Hkn]].
    destruct (Hkn id Hid) as [Hin|(q & key & data & ttl & Er & Hm)].
    + by apply Hmore', (K9 Ha).
    + unfold reg_ids. apply list_elem_of_omap. exists q. split; [by apply Htaken|].
      unfold registering. by rewrite Hm.
Qed.

Lemma reg_ids_once fs n f id : fs !! n = Some f → registering f = Some id → NoDup (reg_ids fs) →
  id ∉ reg_ids (take n fs).
Proof.
  intros Hn Hr Hnd Hin. rewrite <-(take_drop_middle fs n f Hn), reg_ids_app in Hnd.
  apply NoDup_app in Hnd as (_ & Hd & _). apply (Hd id Hin).
  unfold reg_ids. cbn [omap list_omap]. rewrite Hr. by left.
Qed.

(** What the helper's turn needs from the client. *)
Lemma turn_inputs sy r : sys_ok sy → sy_alive sy = true →
  (∀ f, r_received r = RFrame f → c_sent (sy_client sy) !! sy_up sy = Some f) →
  round_ok r ∧
  ∀ f id key data ttl, r_received r = RFrame f → message f = MRegisterFlow id key data ttl →
    id ∉ dom (h_registered (sy_helper sy)) ∧ progress_log id (h_sent (sy_helper sy)) = [].
Proof.
  intros [K1 K2 K3 K4 K5 K6 K7 K8 K9 K10] Ha Hf. split.
  - intros f Er. specialize (Hf f Er). apply list_elem_of_lookup_2 in Hf.
    pose proof (lk_delivered _ _ K4) as Hd. rewrite Forall_forall in Hd. by apply Hd.
  - intros f id key data ttl Er Hm. specialize (Hf f Er).
    assert (id ∉ reg_ids (take (sy_up sy) (c_sent (sy_client sy)))) as Hid.
    { eapply reg_ids_once; [exact Hf| |apply (lk_ids _ _ K4)]. unfold registering. by rewrite Hm. }
    split; [intros Hin; by apply Hid, K9|].
    destruct (progress_log id _) eqn:El; [done|]. destruct Hid. apply K8. by rewrite El.
Qed.

Lemma sys_turn sy r : sys_ok sy → sy_alive sy = true →
  (∀ f, r_received r = RFrame f → c_sent (sy_client sy) !! sy_up sy = Some f) →
  match turn me r (sy_helper sy) with
  | Next go h' => grown r (dom (h_registered (sy_helper sy))) (sy_helper sy) h' ∧
      (go = true → helper_ok h' ∧ kept r (dom (h_registered (sy_helper sy))) h')
  | Bail h' => grown r (dom (h_registered (sy_helper sy))) (sy_helper sy) h'
  | Crash => False
  end.
Proof.
  intros Hok Ha Hf. destruct (turn_inputs sy r Hok Ha Hf) as [Hr Hfresh].
  destruct (sk_helper _ Hok Ha) as [Hh Ht].
  pose proof (wp_tells_turn me r (sy_helper sy) Hh Ht Hr Hfresh) as Hw.
  pose proof (wp_turn me r (sy_helper sy) Hh Hr) as Hw2.
  unfold wp, tells in *. destruct (turn me r (sy_helper sy)) as [go h'|h'|]; [|done..].
  destruct Hw as [Hg Hk]. split; [done|]. intros ->. split; [|done].
  unfold turn_done in Hw2. destruct (r_received r); naive_solver.
Qed.

Lemma sys_step_ok sy sy' : sys_ok sy → sys_step me sy sy' → sys_ok sy'.
Proof.
  intros Hok Hs. pose proof (sys_client_ok sy Hok) as Hc. pose proof (sk_down _ Hok) as Hd.
  destruct Hs as [key ttl id e c' sy Hw Hb|id key data ttl rid c' sy Hid Hb|m rid c' sy Hm Hb
    |rid timed_out res c' sy He|id key response ok c' sy He|key sy|sy|ok c' sy Hw
    |r h' sy Ha Hf Ht|r h' sy Ha Hf Ht|f sy Hf|reason sy].
  - apply client_step_ok; [done|done|]. eapply register_begin_ok; [done|done| |done].
    intros i Hi. unfold reg_ids. apply list_elem_of_omap.
    assert (i ∈ reg_ids (take (sy_up sy) (c_sent (sy_client sy)))) as Hin.
    { apply (sk_log _ Hok). intros Hn.
      rewrite <-(take_drop (sy_down sy) (h_sent (sy_helper sy))), progress_log_app in Hn.
      apply app_eq_nil in Hn as [Hn _]. done. }
    apply list_elem_of_omap in Hin as (x & [j Hj]%list_elem_of_lookup & Hx).
    apply lookup_take_Some in Hj as [Hj _]. exists x. split; [by eapply list_elem_of_lookup_2|done].
  - apply client_step_ok; [done|done|]. eapply begin_ok; [done|done| |].
    + intros Hv. by split.
    + right. by exists id.
  - apply client_step_ok; [done|done|]. eapply begin_ok; [done|done| |].
    + intros Hv. split; [done|]. by destruct m.
    + left. split; [|done]. by destruct m.
  - apply client_step_ok; [done|done|]. unfold request_end in He.
    destruct (c_replies (sy_client sy) !! rid) as [[]|]; [by injection He as <- <-..|].
    destruct timed_out; [|done]. injection He as <- <-. split; [|done].
    destruct Hc as [Hl Ht Hv Hr]. constructor; [|by destruct Ht|done|done].
    eapply link_same; [done|done|simpl; lia|simpl; set_solver|done].
  - apply client_step_ok; [done|done|]. unfold register_end in He.
    assert (client_step (sy_unsent sy) (sy_unsent sy)
      (take (sy_down sy) (h_sent (sy_helper sy))) (sy_client sy)
      (client_remove_flow key (sy_client sy))) as Hrm by by apply remove_ok.
    destruct response as [[]|]; try (by injection He as <- <-).
    destruct (_ =? _)%Z; injection He as <- <-; [by split|done].
  - apply client_step_ok; [done|done|]. by apply remove_ok.
  - apply client_step_ok; [done|done|]. by apply reset_ok.
  - apply client_step_ok; [done|done|].
    assert (client_step (sy_unsent sy) (sy_unsent sy)
      (take (sy_down sy) (h_sent (sy_helper sy))) (sy_client sy) c') as [Hc' [l Hl]]
      by by eapply notify_ok.
    destruct ok; [by split; [|exists l]|].
    destruct (disconnect_ok (sy_unsent sy) (take (sy_down sy) (h_sent (sy_helper sy)))
      "write failed" c' Hc') as [Hc2 [l2 Hl2]].
    split; [done|]. rewrite Hl2, Hl. exists (l ++ l2). by rewrite app_assoc.
  - pose proof (sys_turn sy r Hok Ha Hf) as Hw. rewrite Ht in Hw. destruct Hw as [Hg Hk].
    apply helper_step_ok; auto.
  - pose proof (sys_turn sy r Hok Ha Hf) as Hw.
    apply helper_step_ok; [done..| |done]. destruct Ht as [Ht|Ht]; rewrite Ht in Hw; [by destruct Hw|done].
  - assert (sy_down sy < length (h_sent (sy_helper sy))) as Hlt by by eapply lookup_lt_Some.
    apply client_step_ok; [done|lia|]. rewrite (take_S_r _ _ f Hf).
    eapply (handle_frame_ok _ _ (take (sy_up sy) (c_sent (sy_client sy)))); [done| |].
    + pose proof (sk_origin _ Hok) as Ho. rewrite Forall_forall in Ho. apply Ho.
      by eapply list_elem_of_lookup_2.
    + intros g [j Hj]%list_elem_of_lookup. apply lookup_take_Some in Hj as [Hj _].
      by eapply list_elem_of_lookup_2.
  - apply client_step_ok; [done|done|]. by apply disconnect_ok.
Qed.

Lemma sys_start_ok h writes : connected h → sys_ok (sys_start h writes).
Proof.
  intros (Hh & Hs & Hf).
  assert (h_interceptor h = None) as Hi.
  { destruct (h_interceptor h) eqn:E; [|done]. assert (h_state h = InterceptorOpen) as Ho; [|by rewrite Hs in Ho].
    apply (ho_open h Hh). by eexists. }
  assert (∀ id, progress_log id (h_sent h) = []) as Hlog.
  { intros id. apply progress_log_none. eapply Forall_impl; [exact Hf|]. intros f [Ht _].
    unfold telling, progress_in in *. by destruct (message f). }
  constructor; cbn [sys_start sy_client sy_helper sy_alive sy_up sy_down sy_unsent client_start c_sent].
  - intros _. split; [done|]. intros s id flow Hsome. by rewrite Hi in Hsome.
  - done.
  - done.
  - constructor; simpl; try done; try set_solver; try lia; constructor.
  - constructor; simpl; done.
  - intros id e Hl. done.
  - eapply Forall_impl; [exact Hf|]. intros f [Ht Hr]. unfold reply_to. destruct (message f); auto.
  - intros id. by rewrite Hlog.
  - intros _ id. rewrite (ho_closed h Hh Hi), dom_empty_L. set_solver.
  - done.
Qed.

Lemma reachable_sys_ok h writes sy : connected h → sys_reachable me h writes sy → sys_ok sy.
Proof.
  intros Hc Hr. pose proof (sys_start_ok h writes Hc) as Hs. unfold sys_reachable in Hr.
  induction Hr as [|sy1 sy2 sy3 Hstep _ IH]; [done|]. by eapply IH, sys_step_ok.
Qed.

(** An outcome that was heard at some point is what is heard in the end. *)
Lemma hear_outcome v ps p : v = Some p → p ≠ PReadyForData → foldl hear v ps = Some p.
Proof.
  intros -> Hp. induction ps as [|q ps IH]; [done|]. cbn [foldl]. destruct p; [done|exact IH..].
Qed.

Lemma replay_prefix n id fs p : replay (progress_log id (take n fs)) = Some p → p ≠ PReadyForData →
  replay (progress_log id fs) = Some p.
Proof.
  intros Hr Hp. rewrite <-(take_drop n fs) at 1. rewrite progress_log_app. unfold replay in *.
  rewrite foldl_app. by apply hear_outcome.
Qed.

Definition outcome_progress (o : BypassOutcome) : Progress :=
  match o with FakeDataAcked => PFakeDataAcked | UnexpectedClose => PUnexpectedClose end.
Lemma progress_of_outcome s o : outcome s = Some o ↔ progress_of s = Some (outcome_progress o).
Proof.
  unfold progress_of, outcome_progress. destruct (outcome s) as [[]|], o, (waiting_for_data s); naive_solver.
Qed.

(** Behind a registration, at both ends. *)
Lemma followed sy s id e en flow : sys_ok sy → sy_alive sy = true →
  c_disconnected (sy_client sy) = false →
  c_flows (sy_client sy) !! id = Some e → c_heap (sy_client sy) !! e = Some en →
  h_interceptor (sy_helper sy) = Some s → h_registered (sy_helper sy) !! id = Some flow →
  (∀ o, outcome (fe_state en) = Some o →
     ∃ eh, lf_heap (is_flows s) !! rf_entry flow = Some eh ∧ outcome (fe_state eh) = Some o) ∧
  (sy_down sy = length (h_sent (sy_helper sy)) →
   news (lf_heap (is_flows s)) (h_registered (sy_helper sy)) id = None →
   ∀ p, entry_progress (lf_heap (is_flows s)) flow = Some p → progress_of (fe_state en) = Some p).
Proof.
  intros Hok Ha Hdis Hl He Hi Hreg.
  destruct (sk_view _ Hok id e Hl) as (en' & He' & Hv). rewrite Hdis in Hv. simplify_eq.
  destruct (sk_helper _ Hok Ha) as [_ Ht]. destruct (Ht s id flow Hi Hreg) as [Hr Hp]. split.
  - intros o Ho. apply progress_of_outcome in Ho. rewrite Ho in Hv.
    assert (outcome_progress o ≠ PReadyForData) as Hne by by destruct o.
    symmetry in Hv. apply replay_prefix in Hv; [|done]. rewrite Hr in Hv.
    destruct (Hp _ Hv) as [|Hep]; [done|]. unfold entry_progress in Hep.
    destruct (lf_heap (is_flows s) !! rf_entry flow) as [eh|]; [|done]. cbn in Hep.
    exists eh. split; [done|]. by apply progress_of_outcome.
  - intros Hdown Hn p Hep. rewrite Hv, Hdown, firstn_all, Hr.
    unfold news in Hn. rewrite Hreg in Hn. cbn in Hn. rewrite Hep in Hn. cbn in Hn.
    by case_bool_decide.
Qed.

End invariant.

(** ** A run

    Moves that can be computed, each a step of the system. *)
Module Run.
Inductive Move :=
  | MRequest (m : Message)
  | MBegin (key : FlowKey) (ttl : option Z)
  | MSend (id : Z) (key : FlowKey) (data : list Z) (ttl : option Z)
  | MTurn (before : list Activity)    (* takes the client's next frame, if there is one *)
  | MDeliver.

Section run.
Context `{Json} (me : Identity).

Definition round_of (before : list Activity) (sy : System) : Round :=
  MkRound before (MkChoices [1%Z] (Some 0%Z) true 5 None) []
    (match c_sent (sy_client sy) !! sy_up sy with Some f => RFrame f | None => RTimeout 20 end).

Definition plain_requestb (m : Message) : bool :=
  match m with
  | MRegisterFlow _ _ _ _ => false
  | MConfigureInterceptor c => (0 <=? tls_record_frag_size (method c))%Z
  | _ => true
  end.

Definition move (mv : Move) (sy : System) : option System :=
  match mv with
  | MRequest m =>
      if plain_requestb m then Some (with_client (request_begin m (sy_client sy)).2 sy) else None
  | MBegin key ttl =>
      if (c_next_flow_id (sy_client sy) + 1 <? 2 ^ 64)%Z then
        match register_begin key ttl (sy_client sy) with
        | (Some (id, e), c') => Some (MkSystem c' (sy_helper sy) (sy_alive sy) (sy_up sy) (sy_down sy)
            (sy_unsent sy ∪ {[id]}))
        | _ => None
        end
      else None
  | MSend id key data ttl =>
      if decide (id ∈ sy_unsent sy) then
        Some (MkSystem (register_send id key data ttl (sy_client sy)).2 (sy_helper sy) (sy_alive sy)
          (sy_up sy) (sy_down sy) (sy_unsent sy ∖ {[id]}))
      else None
  | MTurn before =>
      if sy_alive sy then
        match turn me (round_of before sy) (sy_helper sy) with
        | Next true h' => Some (MkSystem (sy_client sy) h' true
            (match r_received (round_of before sy) with RFrame _ => S (sy_up sy) | _ => sy_up sy end)
            (sy_down sy) (sy_unsent sy))
        | _ => None
        end
      else None
  | MDeliver =>
      match h_sent (sy_helper sy) !! sy_down sy with
      | Some f => Some (MkSystem (handle_frame f (sy_client sy)) (sy_helper sy) (sy_alive sy)
          (sy_up sy) (S (sy_down sy)) (sy_unsent sy))
      | None => None
      end
  end.

Lemma move_step mv sy sy' : move mv sy = Some sy' → sys_step me sy sy'.
Proof.
  destruct mv as [m|key ttl|id key data ttl|before|]; cbn [move].
  - destruct (plain_requestb m) eqn:E; [|done]. intros [= <-].
    eapply s_request; [|apply surjective_pairing]. destruct m; try done. by apply Z.leb_le.
  - destruct (Z.ltb_spec (c_next_flow_id (sy_client sy) + 1) (2 ^ 64)); [|done].
    destruct (register_begin key ttl (sy_client sy)) as [[[id e]|] c'] eqn:E; [|done].
    intros [= <-]. by eapply s_begin.
  - case_decide; [|done]. intros [= <-]. eapply s_send; [done|apply surjective_pairing].
  - destruct (sy_alive sy) eqn:Ea; [|done].
    destruct (turn me (round_of before sy) (sy_helper sy)) as [[] h'|h'|] eqn:E; try done.
    intros [= <-]. refine (s_turn me (round_of before sy) h' sy Ea _ E). intros f. unfold round_of. cbn [r_received].
    destruct (c_sent (sy_client sy) !! sy_up sy); [by intros [= <-]|done].
  - destruct (h_sent (sy_helper sy) !! sy_down sy) eqn:E; [|done]. intros [= <-]. by apply s_deliver.
Qed.

Fixpoint moves (ms : list Move) (sy : System) : option System :=
  match ms with
  | [] => Some sy
  | mv :: ms => sy' ← move mv sy; moves ms sy'
  end.

Lemma moves_steps ms sy sy' : moves ms sy = Some sy' → rtc (sys_step me) sy sy'.
Proof.
  revert sy. induction ms as [|mv ms IH]; intros sy; cbn [moves]; [by intros [= <-]|].
  destruct (move mv sy) as [sy1|] eqn:E; cbn; [|done]. intros Hm.
  eapply rtc_l; [by eapply move_step|by apply IH].
Qed.
End run.

(** A bypass over the boundary: configure, open, register, the handshake of the
    registered flow, and the news of its outcome. *)
Definition packet (d : Direction) (seq ack : Z) (syn ackf : bool) : Activity :=
  APacket 0 (control_packet d seq ack syn ackf).
Definition script : list Move :=
  [MRequest (MConfigureInterceptor Sample.config); MTurn []; MDeliver;
   MRequest MOpenInterceptor; MTurn []; MDeliver;
   MBegin sample_key None; MSend 1 sample_key [1; 2; 3]%Z None; MTurn []; MDeliver;
   MTurn [packet Outbound 100 0 true false; packet Inbound 500 101 true true;
          packet Outbound 101 501 false true]; MDeliver].

Definition greeting : list Round :=
  [Sample.received (MHello (MkHello (replicate 32 7%Z) 4242 "1.0")) 1].
Lemma greeting_ok : Forall round_ok greeting.
Proof. apply Forall_singleton. intros f [= <-]. split; vm_compute; done. Qed.
Definition greeted : Helper :=
  match serve (H := Sample.json) Sample.me greeting (helper_start []) with
  | Running h => h | _ => helper_start [] end.

Definition outcome_at_client (o : option System) : option BypassOutcome :=
  sy ← o; e ← c_flows (sy_client sy) !! 1%Z; en ← c_heap (sy_client sy) !! e; outcome (fe_state en).
End Run.

Lemma greeted_connected : connected Run.greeted.
Proof.
  assert (match serve (H := Sample.json) Sample.me Run.greeting (helper_start []) with
          | Running h => helper_ok h | _ => False end) as Hs.
  { pose proof (@serve_ok Sample.json Sample.me Run.greeting [] (helper_start [])) as Hs.
    specialize (Hs Run.greeting_ok (helper_start_ok []) (or_introl (conj eq_refl eq_refl))).
    assert (Hv : Sample.view (serve (H := Sample.json) Sample.me Run.greeting (helper_start []))
      = [0; 0; 1; 0]%Z) by (vm_compute; reflexivity).
    destruct (serve Sample.me Run.greeting (helper_start [])); [apply Hs|discriminate Hv..]. }
  split; [|split].
  - unfold Run.greeted. by destruct (serve Sample.me Run.greeting (helper_start [])).
  - vm_compute. reflexivity.
  - vm_compute. repeat constructor.
Qed.

