(* ===== verification/Netmon.v ===== *)
(** * The network monitor

    Model of [crates/zerodpi-platform/src/netmon/mod.rs] ([classify_nlmsg],
    [SettleState], [ChangeFilter], [run_loop]) and of [InterfaceBinding],
    [NetworkChangeSource] and the binding channel of
    [crates/zerodpi-core/src/net.rs].  Durations are nanoseconds.  The
    platform source, the clock and the probe of the uplink are given by a
    schedule, one [Pass] for every turn of the loop. *)
From stdpp Require Import base list numbers strings.
From Stdlib Require Import ZArith Lia.
From S2P Require Import Prelude.

Local Open Scope Z_scope.

(** ** The binding of the outbound interface *)
Record InterfaceBinding := MkInterfaceBinding {
  ib_ip : Z;
  if_index : Z;
  if_name : string }.
#[export] Instance InterfaceBinding_eq_dec : EqDecision InterfaceBinding.
Proof. solve_decision. Defined.

Inductive NetworkChangeSource := Address | Route | Link | Poll.
#[export] Instance NetworkChangeSource_eq_dec : EqDecision NetworkChangeSource.
Proof. solve_decision. Defined.

(** [InterfaceBindingHandle] with its watches: a cell and its revision. *)
Record BindingCell := MkCell { bc_value : InterfaceBinding; bc_revision : nat }.
Definition interface_binding_channel (initial : InterfaceBinding) : BindingCell := MkCell initial 0.
Definition handle_set (binding : InterfaceBinding) (c : BindingCell) : BindingCell :=
  MkCell binding (S (bc_revision c)).

(** ** Netlink messages *)
Definition RTM_NEWLINK : Z := 16.
Definition RTM_DELLINK : Z := 17.
Definition RTM_NEWADDR : Z := 20.
Definition RTM_DELADDR : Z := 21.
Definition RTM_NEWROUTE : Z := 24.
Definition RTM_DELROUTE : Z := 25.

Definition classify_nlmsg (msg_type : Z) : option NetworkChangeSource :=
  if (msg_type =? RTM_NEWADDR) || (msg_type =? RTM_DELADDR) then Some Address
  else if (msg_type =? RTM_NEWROUTE) || (msg_type =? RTM_DELROUTE) then Some Route
  else if (msg_type =? RTM_NEWLINK) || (msg_type =? RTM_DELLINK) then Some Link
  else None.

(** ** Settling *)
Definition DURATION_MAX : Z := 2 ^ 64 * 1000000000 - 1.
Definition duration_saturating_add (a b : Z) : Z := a + b `min` (DURATION_MAX - a).
Definition duration_saturating_sub (a b : Z) : Z := 0 `max` (a - b).

Record SettleState := MkSettle {
  settle : Z;
  pending : option (NetworkChangeSource * Z) }.

Definition SettleState_new (settle : Z) : SettleState := MkSettle settle None.

Definition record (source : NetworkChangeSource) (now : Z) (s : SettleState) : SettleState :=
  MkSettle (settle s) (Some (source, duration_saturating_add now (settle s))).

Definition timeout (now : Z) (s : SettleState) : option Z :=
  (λ '(_, deadline), duration_saturating_sub deadline now) <$> pending s.

Definition due (now : Z) (s : SettleState) : option NetworkChangeSource * SettleState :=
  match pending s with
  | Some (source, deadline) =>
      if deadline <=? now then (Some source, MkSettle (settle s) None) else (None, s)
  | None => (None, s)
  end.

(** ** The filter: its state is the last value *)
Definition ChangeFilter : Type := option InterfaceBinding.

Definition observe (value : option InterfaceBinding) (last : ChangeFilter) : bool * ChangeFilter :=
  if decide (value ≠ last) then (true, value) else (false, last).

(** ** The loop *)
Inductive SourceEvent := SChange (kind : NetworkChangeSource) | STimeout | SShutdown.

(** One turn: [should_run], the clock before and after [wait], what [wait]
    returns, and what the probe would find. *)
Record Pass := MkPass {
  p_run : bool;
  p_now : Z;
  p_event : SourceEvent;
  p_after : Z;
  p_probe : option InterfaceBinding }.

(** What the loop does: a tick recorded, a probe (with the kind under which
    its result is reported if it is news), an event sent. *)
Inductive MonitorStep :=
  | Ticked (kind : NetworkChangeSource) (at_ : Z)
  | Probed (value : option InterfaceBinding) (kind : NetworkChangeSource) (at_ : Z)
  | Emitted (kind : NetworkChangeSource).

Definition wait_timeout (poll_interval now : Z) (s : SettleState) : Z :=
  default poll_interval (timeout now s).

Definition probe_and_emit (p : Pass) (kind : NetworkChangeSource) (last : ChangeFilter)
    : list MonitorStep * ChangeFilter :=
  let '(news, last) := observe (p_probe p) last in
  (Probed (p_probe p) kind (p_after p) :: (if news then [Emitted kind] else []), last).

Definition loop_pass (p : Pass) (s : SettleState) (last : ChangeFilter)
    : option (list MonitorStep * SettleState * ChangeFilter) :=
  if negb (p_run p) then None else
  match p_event p with
  | SChange kind => Some ([Ticked kind (p_after p)], record kind (p_after p) s, last)
  | SShutdown => None
  | STimeout =>
      let '(settled, s) := due (p_after p) s in
      let '(steps, last) := probe_and_emit p (default Poll settled) last in
      Some (steps, s, last)
  end.

Fixpoint loop (passes : list Pass) (s : SettleState) (last : ChangeFilter) : list MonitorStep :=
  match passes with
  | [] => []
  | p :: passes =>
      match loop_pass p s last with
      | None => []
      | Some (steps, s, last) => steps ++ loop passes s last
      end
  end.

Definition run_loop (passes : list Pass) (seed : option InterfaceBinding) (settle : Z) : list MonitorStep :=
  loop passes (SettleState_new settle) seed.

(** ** What the monitor promises *)

(** The probes of a run and the events it sends. *)
Definition probes (steps : list MonitorStep) : list (option InterfaceBinding * NetworkChangeSource) :=
  omap (λ st, match st with Probed v k _ => Some (v, k) | _ => None end) steps.
Definition emitted (steps : list MonitorStep) : list NetworkChangeSource :=
  omap (λ st, match st with Emitted k => Some k | _ => None end) steps.

(** The probes whose value differs from the one before. *)
Fixpoint reported (last : option InterfaceBinding)
    (l : list (option InterfaceBinding * NetworkChangeSource)) : list NetworkChangeSource :=
  match l with
  | [] => []
  | (v, k) :: l => (if decide (v ≠ last) then [k] else []) ++ reported v l
  end.

(** Every probe is at least [window] after the last tick and reports under
    that tick's kind; a probe without a tick since the last one is a poll. *)
Fixpoint settled (window : Z) (tick : option (NetworkChangeSource * Z)) (steps : list MonitorStep)
    : Prop :=
  match steps with
  | [] => True
  | Ticked k t :: steps => settled window (Some (k, t)) steps
  | Probed _ k t :: steps =>
      match tick with Some (k', t') => k = k' ∧ t' + window ≤ t | None => k = Poll end ∧
      settled window None steps
  | Emitted _ :: steps => settled window tick steps
  end.

(** A source that keeps its contract: the clock does not go back, and a
    timeout is reported when the time given to [wait] is over. *)
Definition settle_after (p : Pass) (s : SettleState) : SettleState :=
  match p_event p with
  | SChange kind => record kind (p_after p) s
  | STimeout => (due (p_after p) s).2
  | SShutdown => s
  end.
Fixpoint timely (poll_interval clock : Z) (passes : list Pass) (s : SettleState) : Prop :=
  match passes with
  | [] => True
  | p :: passes =>
      clock ≤ p_now p ≤ p_after p ∧ p_after p + settle s ≤ DURATION_MAX ∧
      (p_event p = STimeout → p_now p + wait_timeout poll_interval (p_now p) s ≤ p_after p) ∧
      timely poll_interval (p_after p) passes (settle_after p s)
  end.

(** The turns in which the source timed out before the loop was left. *)
Fixpoint quiet_turns (passes : list Pass) : nat :=
  match passes with
  | [] => 0
  | p :: passes =>
      if negb (p_run p) then 0 else
      match p_event p with
      | SShutdown => 0
      | SChange _ => quiet_turns passes
      | STimeout => S (quiet_turns passes)
      end
  end%nat.

Lemma observe_spec value last :
  observe value last = (bool_decide (value ≠ last), value).
Proof. unfold observe. case_decide; case_bool_decide; try done. f_equal. by destruct (decide (value = last)). Qed.

Lemma probe_and_emit_spec p kind last :
  probe_and_emit p kind last =
    (Probed (p_probe p) kind (p_after p) ::
       (if bool_decide (p_probe p ≠ last) then [Emitted kind] else []), p_probe p).
Proof. unfold probe_and_emit. by rewrite observe_spec. Qed.

Lemma loop_reports passes s last :
  emitted (loop passes s last) = reported last (probes (loop passes s last)).
Proof.
  revert s last. induction passes as [|p passes IH]; intros s last; [done|]. cbn [loop quiet_turns].
  unfold loop_pass. destruct (negb (p_run p)); [done|].
  destruct (p_event p); [exact (IH _ _)| |done].
  destruct (due (p_after p) s) as [k s']. rewrite probe_and_emit_spec.
  cbn [app probes omap list_omap reported emitted].
  case_bool_decide; case_decide; try done; cbn [app omap list_omap]; [f_equal|]; apply IH.
Qed.

Lemma loop_probes passes s last : length (probes (loop passes s last)) = quiet_turns passes.
Proof.
  revert s last. induction passes as [|p passes IH]; intros s last; [done|]. cbn [loop quiet_turns].
  unfold loop_pass. destruct (negb (p_run p)); [done|].
  destruct (p_event p); [exact (IH _ _)| |done].
  destruct (due (p_after p) s) as [k s']. rewrite probe_and_emit_spec.
  cbn [app probes omap list_omap length].
  case_bool_decide; cbn [app omap list_omap]; f_equal; apply IH.
Qed.

(** The pending deadline is the one of the last tick. *)
Definition pending_of (window : Z) (tick : option (NetworkChangeSource * Z)) : SettleState :=
  MkSettle window ((λ '(k, t), (k, t + window)) <$> tick).

Lemma loop_settled poll_interval window passes clock tick last :
  (∀ k t, tick = Some (k, t) → t ≤ clock) →
  timely poll_interval clock passes (pending_of window tick) →
  settled window tick (loop passes (pending_of window tick) last).
Proof.
  revert clock tick last. induction passes as [|p passes IH]; intros clock tick last Hc Ht; [done|].
  destruct Ht as (Hclock & Hmax & Htime & Ht). cbn [loop]. unfold loop_pass. unfold settle_after in Ht.
  destruct (negb (p_run p)); [done|]. destruct (p_event p) as [k| |]; [| |done].
  - assert (record k (p_after p) (pending_of window tick) = pending_of window (Some (k, p_after p))) as Hr.
    { unfold record, pending_of, duration_saturating_add. cbn [fmap option_fmap option_map].
      do 3 f_equal. cbn [settle pending_of] in Hmax |- *. lia. }
    rewrite Hr in Ht |- *. apply (IH (p_after p)); [|done]. by intros ? ? [= _ <-].
  - specialize (Htime eq_refl).
    assert (due (p_after p) (pending_of window tick) = (fst <$> tick, pending_of window None)) as Hd.
    { unfold due, pending_of. destruct tick as [[k t]|]; [|done]. cbn [fmap option_fmap option_map pending].
      destruct (Z.leb_spec (t + window) (p_after p)) as [|Hlt]; [done|]. exfalso.
      unfold wait_timeout, timeout in Htime. cbn [fmap option_fmap option_map pending pending_of default] in Htime.
      unfold duration_saturating_sub in Htime. cbn in Htime. lia. }
    rewrite Hd in Ht |- *. cbn [snd] in Ht. rewrite probe_and_emit_spec.
    assert (settled window None (loop passes (pending_of window None) (p_probe p))) as Hrest
      by by apply (IH (p_after p)).
    cbn [app settled]. split; [|by case_bool_decide].
    destruct tick as [[k t]|]; [|done]. split; [done|].
    unfold wait_timeout, timeout in Htime. cbn in Htime. unfold duration_saturating_sub in Htime. lia.
Qed.


Module Sample.
Definition wifi : InterfaceBinding := MkInterfaceBinding 167772161 2 "wlan0".
Definition lte : InterfaceBinding := MkInterfaceBinding 167772162 3 "rmnet0".
(** Two ticks half a second apart, the second settles; then a silent change
    found by the poll. *)
Definition passes : list Pass :=
  [ MkPass true 0 (SChange Address) 5000000000 (Some lte);
    MkPass true 5000000000 (SChange Route) 5500000000 (Some lte);
    MkPass true 5500000000 STimeout 6500000000 (Some lte);
    MkPass true 6500000000 STimeout 16500000000 (Some lte);
    MkPass true 16500000000 STimeout 26500000000 None;
    MkPass true 26500000000 SShutdown 27000000000 None ].
End Sample.

