(* ===== verification/Uplink.v ===== *)
(** * The physical uplink

    Model of the choice of the interface behind which everything is sent
    ([crates/zerodpi-platform/src/uplink.rs], Linux and Windows): the default
    routes and their metrics, what counts as a physical interface, and the
    candidate taken.  The interface tables and [/sys], [/proc] are arguments;
    the Android enumeration, which asks the same questions through [ioctl],
    and the socket options are not modelled. *)
From stdpp Require Import base list numbers strings gmap.
From Stdlib Require Import ZArith Lia Sorted Ascii.
From S2P Require Import Prelude Text NetAddr Firewall ScanList Scanner Netmon.
Local Open Scope string_scope.
Local Open Scope nat_scope.
Local Open Scope list_scope.

(** ** Shared *)
Definition is_usable_ipv4 (ip : Z) : bool :=
  negb ((ip =? 0) || (Z.shiftr ip 24 =? 127) || (Z.shiftr ip 16 =? 0xA9FE))%Z.
Definition starts_with (prefix s : string) : bool := is_some (strip_prefix prefix s).

(** Candidates are ranked by a list of keys, the first that differs decides. *)
Record Candidate := MkCandidate { ca_binding : InterfaceBinding; ca_metric : Z; ca_kind_rank : Z }.
Fixpoint keys_le (a b : list Z) : bool :=
  match a, b with
  | x :: a, y :: b => (x <? y)%Z || (x =? y)%Z && keys_le a b
  | _, _ => true
  end.

(** Why there is no uplink: the table could not be read, or has none. *)
Inductive UplinkError := EnumerateFailed | NoPhysicalInterface.
Definition best (le : Candidate → Candidate → bool) (candidates : list Candidate) : UplinkError + InterfaceBinding :=
  match sort_by le candidates with
  | c :: _ => inr (ca_binding c)
  | [] => inl NoPhysicalInterface
  end.

(** ** Linux *)
(** [str::split_whitespace]; [length] steps are enough, a word has a byte. *)
Fixpoint word_of (s : string) : string * string :=
  match s with
  | EmptyString => (EmptyString, EmptyString)
  | String a s' => if String.eqb (trim_start s) s then let '(w, rest) := word_of s' in (String a w, rest) else (EmptyString, s)
  end.
Fixpoint words (fuel : nat) (s : string) : list string :=
  match fuel, trim_start s with
  | O, _ | _, EmptyString => []
  | S fuel, s => let '(w, rest) := word_of s in w :: words fuel rest
  end.
Definition split_whitespace (s : string) : list string := words (str_len s) s.
(** [u32::from_str_radix(_, 16)] *)
Definition hex_u32 (s : string) : option Z :=
  let body := default s (strip_prefix "+" s) in
  if bool_decide (body = EmptyString) then None else
  v ← foldl (λ acc c, acc ← acc; d ← digit 16 (byte_of c); Some (acc * 16 + d)%Z) (Some 0%Z) (String.list_ascii_of_string body);
  if (v <=? u32_max)%Z then Some v else None.

(** One line of [/proc/net/route]: the interface of a default route that is up
    and its metric. *)
Definition default_route (line : string) : option (string * Z) :=
  let fields := split_whitespace line in
  if length fields <? 8 then None else
  name ← fields !! 0; destination ← fields !! 1; flags ← fields !! 3; metric ← fields !! 6;
  if negb (String.eqb destination "00000000") then None else
  flags ← hex_u32 flags;
  if (Z.land flags 1 =? 0)%Z then None else
  metric ← parse_unsigned u32_max metric; Some (name, metric).
Definition keep_least (metrics : gmap string Z) (route : string * Z) : gmap string Z :=
  <[route.1 := from_option (λ m, Z.min m route.2) route.2 (metrics !! route.1)]> metrics.
Definition read_route_metrics (file : option string) : gmap string Z :=
  match file with
  | Some contents => foldl keep_least ∅ (omap default_route (drop 1 (lines contents)))
  | None => ∅
  end.

Definition VIRTUAL_PREFIXES : list string :=
  ["lo"; "tun"; "tap"; "wg"; "utun"; "ppp"; "docker"; "br-"; "veth"; "virbr"; "zt"; "tailscale"; "sing"; "clash"; "meta"].
(** [sys_type]: the contents of [/sys/class/net/NAME/type]. *)
Definition is_physical_interface (sys_type : string → option string) (name : string) : bool :=
  let lower := to_ascii_lowercase name in
  if existsb (λ p, String.eqb lower p || starts_with p lower) VIRTUAL_PREFIXES then false
  else if bool_decide ((sys_type name ≫= λ v, parse_unsigned u32_max (trim v)) = Some 1%Z) then true
  else existsb (λ p, starts_with p lower) ["eth"; "en"; "wlan"; "wifi"] ||
       existsb (λ p, starts_with p lower) ["rmnet"; "ccmni"; "wwan"].
Definition interface_kind_rank (name : string) : Z :=
  let lower := to_ascii_lowercase name in
  if starts_with "rmnet" lower || starts_with "ccmni" lower || starts_with "wwan" lower then 1%Z else 0%Z.

(** An entry of [getifaddrs]: its name and IPv4 address when there are, the
    flags, and what [if_nametoindex] says. *)
Record IfAddr := MkIfAddr { ia_name : option string; ia_ip : option Z; ia_flags : Z; ia_index : Z }.
Definition linux_candidate (sys_type : string → option string) (metrics : gmap string Z) (e : IfAddr) : option Candidate :=
  name ← ia_name e; ip ← ia_ip e;
  if (Z.land (ia_flags e) 1 =? 0)%Z then None
  else if negb (is_physical_interface sys_type name) || negb (is_usable_ipv4 ip) then None
  else if (ia_index e =? 0)%Z then None
  else Some (MkCandidate (MkInterfaceBinding ip (ia_index e) name)
    (default (u32_max / 2)%Z (metrics !! name)) (interface_kind_rank name)).
Definition linux_le (a b : Candidate) : bool :=
  keys_le [ca_metric a; ca_kind_rank a; if_index (ca_binding a)] [ca_metric b; ca_kind_rank b; if_index (ca_binding b)].
Definition resolve_linux (sys_type : string → option string) (routes : option string) (table : option (list IfAddr))
    : UplinkError + InterfaceBinding :=
  match table with
  | None => inl EnumerateFailed
  | Some table => best linux_le (omap (linux_candidate sys_type (read_route_metrics routes)) table)
  end.

(** ** Windows *)
Definition IF_TYPE_ETHERNET_CSMACD : Z := 6.
Definition IF_TYPE_IEEE80211 : Z := 71.
Definition is_physical_type (if_type : Z) : bool :=
  (if_type =? IF_TYPE_ETHERNET_CSMACD)%Z || (if_type =? IF_TYPE_IEEE80211)%Z.
Definition looks_virtual (name : string) : bool :=
  existsb (λ marker, contains_str marker (to_ascii_lowercase name))
    ["virtual"; "wintun"; "wireguard"; "tun"; "tap"; "vpn"; "loopback"; "host-only"; "hyper-v"; "docker"; "sing-box"].
(** An adapter with its IPv4 addresses. *)
Record Adapter := MkAdapter {
  ad_up : bool; ad_type : Z; ad_index : Z; ad_name : string; ad_ips : list Z; ad_metric : Z }.
Definition first_ipv4 (ips : list Z) : option Z := head (filter (λ ip, is_usable_ipv4 ip = true) ips).
Definition windows_candidate (a : Adapter) : option Candidate :=
  if ad_up a && negb (ad_index a =? 0)%Z && is_physical_type (ad_type a) && negb (looks_virtual (ad_name a)) then
    ip ← first_ipv4 (ad_ips a);
    if is_usable_ipv4 ip then Some (MkCandidate (MkInterfaceBinding ip (ad_index a) (ad_name a)) (ad_metric a) 0) else None
  else None.
Definition windows_le (a b : Candidate) : bool :=
  keys_le [ca_metric a; if_index (ca_binding a)] [ca_metric b; if_index (ca_binding b)].
Definition resolve_windows (adapters : option (list Adapter)) : UplinkError + InterfaceBinding :=
  match adapters with
  | None => inl EnumerateFailed
  | Some adapters => best windows_le (omap windows_candidate adapters)
  end.

(** ** The choice *)
Lemma keys_le_total a b : length a = length b → keys_le a b = false → keys_le b a = true.
Proof.
  revert b. induction a as [|x a IH]; intros [|y b] Hl; try done. cbn.
  rewrite orb_false_iff, andb_false_iff, orb_true_iff, andb_true_iff, !Z.ltb_lt, Z.ltb_ge, !Z.eqb_eq, Z.eqb_neq.
  injection Hl as Hl. intros [H1 [H2|H2]]; [lia|]. destruct (decide (x = y)) as [->|]; [right; auto|left; lia].
Qed.
Lemma keys_le_trans a b c : length a = length b → length b = length c →
  keys_le a b = true → keys_le b c = true → keys_le a c = true.
Proof.
  revert b c. induction a as [|x a IH]; intros [|y b] [|z c] H1 H2; try done. cbn.
  rewrite !orb_true_iff, !andb_true_iff, !Z.ltb_lt, !Z.eqb_eq. injection H1 as H1. injection H2 as H2.
  intros [?|[-> Hab]] [?|[-> Hbc]]; [left; lia..|left; lia|]. right. split; [done|]. by eapply IH.
Qed.

(** The first of the ranked candidates is the least. *)
Lemma least_of {A} (le : A → A → bool) l :
  (∀ a b, le a b = false → le b a = true) → (∀ a b c, le a b = true → le b c = true → le a c = true) →
  match head (sort_by le l) with
  | Some x => x ∈ l ∧ ∀ y, y ∈ l → le x y = true
  | None => l = []
  end.
Proof.
  intros Ht Htr. pose proof (sort_by_sorted le Ht Htr l) as Hs. pose proof (sort_by_perm le l) as Hp.
  destruct (sort_by le l) as [|x s]; cbn [head]; [by apply Permutation_nil_l in Hp|].
  split; [rewrite <- Hp; by left|]. intros y. rewrite <- Hp. intros [->|Hy]%elem_of_cons.
  - destruct (le x x) eqn:E; [done|]. by rewrite (Ht x x E) in E.
  - apply StronglySorted_inv in Hs as [_ Hs]. rewrite Forall_forall in Hs. by apply Hs.
Qed.

(** What an uplink is: a usable address of an operational physical interface. *)
Definition uplink_of (sys_type : string → option string) (table : list IfAddr) (b : InterfaceBinding) : Prop :=
  ∃ e, e ∈ table ∧ ia_name e = Some (if_name b) ∧ ia_ip e = Some (ib_ip b) ∧ ia_index e = if_index b ∧
    Z.land (ia_flags e) 1 ≠ 0%Z ∧ is_physical_interface sys_type (if_name b) = true ∧ is_usable_ipv4 (ib_ip b) = true ∧
    if_index b ≠ 0%Z.
(** Its place in the ranking. *)
Definition uplink_keys (metrics : gmap string Z) (b : InterfaceBinding) : list Z :=
  [default (u32_max / 2)%Z (metrics !! if_name b); interface_kind_rank (if_name b); if_index b].

Lemma linux_candidate_ok sys_type metrics table c : c ∈ omap (linux_candidate sys_type metrics) table ↔
  uplink_of sys_type table (ca_binding c) ∧
  c = MkCandidate (ca_binding c) (default (u32_max / 2)%Z (metrics !! if_name (ca_binding c))) (interface_kind_rank (if_name (ca_binding c))).
Proof.
  rewrite list_elem_of_omap. unfold uplink_of, linux_candidate. split.
  - intros (e & He & H). destruct (ia_name e) as [name|] eqn:En; [|done]. destruct (ia_ip e) as [ip|] eqn:Ei; [|done]. cbn in H.
    destruct (Z.eqb_spec (Z.land (ia_flags e) 1) 0); [done|].
    destruct (is_physical_interface sys_type name) eqn:Ep, (is_usable_ipv4 ip) eqn:Eu; try done. cbn in H.
    destruct (Z.eqb_spec (ia_index e) 0); [done|]. injection H as <-. cbn. split; [|done]. by exists e.
  - intros [(e & He & E1 & E2 & E3 & Hup & Hph & Hus & Hi) Hc]. exists e. split; [done|]. rewrite E1, E2. cbn.
    apply Z.eqb_neq in Hup, Hi. rewrite Hup, Hph, Hus. cbn. rewrite E3, Hi. rewrite Hc at 4. f_equal. by destruct (ca_binding c).
Qed.

(** The uplink chosen on Linux is a usable address of an operational physical
    interface, and none of those has a lower default metric, or the same and a
    better kind, or the same and a lower index; there is none only if there is
    no such interface. *)
Theorem uplink_least sys_type routes table :
  match resolve_linux sys_type routes (Some table) with
  | inr b => uplink_of sys_type table b ∧ ∀ b', uplink_of sys_type table b' →
      keys_le (uplink_keys (read_route_metrics routes) b) (uplink_keys (read_route_metrics routes) b') = true
  | inl e => e = NoPhysicalInterface ∧ ∀ b, ¬ uplink_of sys_type table b
  end.
Proof.
  unfold resolve_linux, best. set (metrics := read_route_metrics routes). set (l := omap _ table).
  pose proof (least_of linux_le l) as H.
  assert (∀ c, c ∈ l → [ca_metric c; ca_kind_rank c; if_index (ca_binding c)] = uplink_keys metrics (ca_binding c)) as Hkeys.
  { intros c [_ ->]%linux_candidate_ok. done. }
  assert (∀ b, uplink_of sys_type table b → ∃ c, c ∈ l ∧ ca_binding c = b) as Hin.
  { intros b Hb. exists (MkCandidate b (default (u32_max / 2)%Z (metrics !! if_name b)) (interface_kind_rank (if_name b))).
    split; [|done]. by apply linux_candidate_ok. }
  destruct (sort_by linux_le l) as [|x r]; cbn [head] in H.
  - split; [done|]. intros b (c & Hc & _)%Hin. rewrite H in Hc; [by apply elem_of_nil in Hc|intros a d; by apply keys_le_total|].
    intros a d e; by apply keys_le_trans.
  - destruct H as [Hx Hle]; [intros a b; by apply keys_le_total|intros a b c; by apply keys_le_trans|].
    split; [by apply linux_candidate_ok in Hx as [? _]|]. intros b' (c & Hc & <-)%Hin.
    rewrite <- !Hkeys by done. by apply Hle.
Qed.

(** On Windows: the adapters that are up, of a physical type, not named like a
    virtual one, with their first usable address. *)
Definition adapter_uplink (adapters : list Adapter) (b : InterfaceBinding) (metric : Z) : Prop :=
  ∃ a before after, a ∈ adapters ∧ ad_up a = true ∧ is_physical_type (ad_type a) = true ∧ looks_virtual (ad_name a) = false ∧
    ad_index a ≠ 0%Z ∧ if_index b = ad_index a ∧ if_name b = ad_name a ∧ metric = ad_metric a ∧
    ad_ips a = before ++ ib_ip b :: after ∧ Forall (λ ip, is_usable_ipv4 ip = false) before ∧ is_usable_ipv4 (ib_ip b) = true.
Lemma first_ipv4_spec ips ip : first_ipv4 ips = Some ip ↔
  ∃ before after, ips = before ++ ip :: after ∧ Forall (λ i, is_usable_ipv4 i = false) before ∧ is_usable_ipv4 ip = true.
Proof.
  unfold first_ipv4. split.
  - induction ips as [|i ips IH]; [done|]. rewrite filter_cons. destruct (decide (is_usable_ipv4 i = true)) as [E|E].
    + intros [= ->]. by exists [], ips.
    + intros (before & after & -> & Hb & Hu)%IH. exists (i :: before), after. split_and!; [done| |done].
      constructor; [by apply not_true_is_false|done].
  - intros (before & after & -> & Hb & Hu). induction Hb as [|i before Hi Hb IH]; cbn [app]; rewrite filter_cons.
    + by rewrite decide_True.
    + rewrite decide_False by (by rewrite Hi). done.
Qed.
Lemma windows_candidate_ok adapters c : c ∈ omap windows_candidate adapters ↔
  adapter_uplink adapters (ca_binding c) (ca_metric c) ∧ ca_kind_rank c = 0%Z.
Proof.
  rewrite list_elem_of_omap. unfold adapter_uplink, windows_candidate. split.
  - intros (a & Ha & H). destruct (ad_up a) eqn:E1; [|done]. destruct (Z.eqb_spec (ad_index a) 0); [done|].
    destruct (is_physical_type (ad_type a)) eqn:E2; [|done]. destruct (looks_virtual (ad_name a)) eqn:E3; [done|]. cbn in H.
    destruct (first_ipv4 (ad_ips a)) as [ip|] eqn:E4; [|done]. cbn in H. destruct (is_usable_ipv4 ip) eqn:E5; [|done].
    injection H as <-. cbn. apply first_ipv4_spec in E4 as (before & after & E4 & Hb & _). split; [|done].
    exists a, before, after. split_and!; done.
  - intros [(a & before & after & Ha & E1 & E2 & E3 & E4 & E5 & E6 & E7 & E8 & E9 & E10) Hk]. exists a. split; [done|].
    rewrite E1, E2, E3. apply Z.eqb_neq in E4. rewrite E4. cbn.
    rewrite (proj2 (first_ipv4_spec (ad_ips a) (ib_ip (ca_binding c)))) by (by exists before, after). cbn.
    rewrite E10, <- E5, <- E6, <- E7. destruct c as [[] ? ?]. cbn in *. by rewrite Hk.
Qed.

(** And there the least metric and then the least index wins. *)
Theorem adapter_least adapters :
  match resolve_windows (Some adapters) with
  | inr b => ∃ m, adapter_uplink adapters b m ∧ ∀ b' m', adapter_uplink adapters b' m' →
      keys_le [m; if_index b] [m'; if_index b'] = true
  | inl e => e = NoPhysicalInterface ∧ ∀ b m, ¬ adapter_uplink adapters b m
  end.
Proof.
  unfold resolve_windows, best. pose proof (least_of windows_le (omap windows_candidate adapters)) as H.
  assert (∀ b m, adapter_uplink adapters b m → MkCandidate b m 0 ∈ omap windows_candidate adapters) as Hin.
  { intros b m Hb. by apply windows_candidate_ok. }
  destruct (sort_by windows_le _) as [|x r]; cbn [head] in H.
  - split; [done|]. intros b m Hb%Hin. rewrite H in Hb; [by apply elem_of_nil in Hb|intros a d; by apply keys_le_total|].
    intros a d e; by apply keys_le_trans.
  - destruct H as [Hx Hle]; [intros a b; by apply keys_le_total|intros a b c; by apply keys_le_trans|].
    exists (ca_metric x). split; [by apply windows_candidate_ok in Hx as [? _]|]. intros b' m' Hb%Hin. by apply (Hle _ Hb).
Qed.

(** The least metric of the default routes of an interface. *)
Lemma least_metric routes metrics name : foldl keep_least metrics routes !! name =
  foldl (λ m r, Some (from_option (λ m, Z.min m r.2) r.2 m)) (metrics !! name) (filter (λ r, r.1 = name) routes).
Proof.
  revert metrics. induction routes as [|[n v] routes IH]; intros metrics; [done|]. cbn [foldl]. rewrite IH, filter_cons.
  unfold keep_least. cbn [fst snd]. destruct (decide (n = name)) as [->|Hne].
  - rewrite lookup_insert_eq. done.
  - by rewrite lookup_insert_ne.
Qed.

Definition tab : ascii := "009"%char.
Definition route_line (fields : list string) : string := str_join (String tab EmptyString) fields.
Definition two_routes : string := str_join (String "010"%char EmptyString)
  [route_line ["Iface"; "Destination"; "Gateway"; "Flags"; "RefCnt"; "Use"; "Metric"; "Mask"];
   route_line ["wlan0"; "00000000"; "0101A8C0"; "0003"; "0"; "0"; "600"; "00000000"];
   route_line ["wlan0"; "00000000"; "0101A8C0"; "0003"; "0"; "0"; "100"; "00000000"];
   route_line ["tun0"; "00000000"; "0101A8C0"; "0003"; "0"; "0"; "0"; "00000000"]].
Example uplink_not_the_tunnel : resolve_linux (λ _, Some "1") (Some two_routes)
  (Some [MkIfAddr (Some "lo") (Some 0x7F000001) 1 1; MkIfAddr (Some "tun0") (Some 0x0A080001) 1 5;
   MkIfAddr (Some "eth0") (Some 0x0A000002) 1 2; MkIfAddr (Some "wlan0") (Some 0xC0A80102) 1 3])%Z =
  inr (MkInterfaceBinding 0xC0A80102 3 "wlan0").
Proof. vm_compute. reflexivity. Qed.
(** Only the beginning of a name is looked at, so [lothar0] is taken for a
    loopback. *)
Example physical_names : is_physical_interface (λ _, None) <$> ["wlan0"; "rmnet_data0"; "sing-tun"; "wg0"; "meta1"; "lothar0"] =
  [true; true; false; false; false; false].
Proof. vm_compute. reflexivity. Qed.
