(* ===== verification/DataPlane.v ===== *)
(** * Ownership of the live interceptor

    Model of [crates/zerodpi/src/data_plane.rs]: [DataPlaneController] with its
    three planes, [LocalPlane::open], [stop_local], the report of an ended
    interceptor thread and its wait.  The threads a process has started are
    part of the state ([Thread]); what the platform and the threads do while an
    operation runs (the interceptor opens or not, the thread can be spawned or
    not, the thread ends within the wait or not) is an argument of it
    ([Chance]).  The helper behind a remote plane is the class [RemoteHelper];
    [RemotePlane] gives its instance over the helper of [RootHelper]. *)
From stdpp Require Import base list numbers strings gmap.
From Stdlib Require Import ZArith Lia.
From S2P Require Import Prelude Interceptor Flow Text Config Handler Protocol WireMethod Netmon.

(** ** Results: the outermost message of an [anyhow] error *)
Definition Result : Type := () + string.
Definition is_ok (r : Result) : bool := match r with inl _ => true | inr _ => false end.
Definition context (what : string) (r : Result) : Result :=
  match r with inl u => inl u | inr _ => inr what end.

Definition CONNECT_PORT : Z := 443.
Definition INTERCEPTOR_SHUTDOWN_TIMEOUT : Z := 5.   (* seconds *)

Definition interceptor_filter (cfg : Config) (binding : InterfaceBinding) : FilterSpec :=
  MkFilterSpec (ib_ip binding) None CONNECT_PORT (NFQUEUE_NUM cfg)
    (linux_firewall_backend cfg) None.

(** ** Threads *)

(** How a thread ended: its result was sent, or the sender was dropped. *)
Inductive ThreadEnd := Reported (r : Result) | Vanished.

Record Thread := MkThread {
  t_filter : FilterSpec;
  t_requested : bool;               (* its [InterceptorShutdown] *)
  t_end : option ThreadEnd }.

Definition live (t : Thread) : bool := match t_end t with None => true | Some _ => false end.
Definition request_stop (t : Thread) : Thread := MkThread (t_filter t) true (t_end t).
(** A thread ends once. *)
Definition end_thread (e : ThreadEnd) (t : Thread) : Thread :=
  match t_end t with
  | None => MkThread (t_filter t) (t_requested t) (Some e)
  | Some _ => t
  end.

(** The channel of a report task: the thread it waits for, and whether no
    message is to come (it has been taken, or the task was dropped). *)
Record Report := MkReport { rp_thread : nat; rp_drained : bool }.

(** ** The local plane *)
Record LocalPlane := MkLocalPlane {
  lp_flows : LocalFlows;
  shutdown : option nat;            (* of which thread *)
  done_rx : option nat;
  stop_report : option Report;
  armed : bool }.

(** The plane and the threads of the process. *)
Record Local := MkLocal { lo_plane : LocalPlane; lo_threads : list Thread }.

(** What the platform does during an operation. *)
Record Chance := MkChance {
  ch_open : option string;          (* the error of [DefaultInterceptor::open] *)
  ch_spawn : option string;         (* the error of [spawn] *)
  ch_end : option ThreadEnd }.      (* the thread ends within the wait *)

Definition missing_handle : string :=
  "packet interceptor stop did not complete; refusing to reopen over live firewall rules".

(** [LocalPlane::open]. *)
Definition open (cfg : Config) (binding : InterfaceBinding) (c : Chance) (l : Local)
    : Result * Local :=
  let filter := interceptor_filter cfg binding in
  match ch_open c with
  | Some _ => (inr "open packet interceptor", l)
  | None =>
      match ch_spawn c with
      | Some _ => (inr "spawn intercept thread", l)
      | None =>
          let id := length (lo_threads l) in
          let p := lo_plane l in
          (inl (), MkLocal (MkLocalPlane (lp_flows p) (Some id) (Some id) (stop_report p) true)
             (lo_threads l ++ [MkThread filter false None]))
      end
  end.

(** [wait_for_interceptor_shutdown] on the report's channel. *)
Definition wait_for_interceptor_shutdown (c : Chance) (r : Report) (threads : list Thread)
    : Result * Report * list Thread :=
  if rp_drained r then (inr "packet interceptor thread stopped before reporting a result", r, threads)
  else
    let threads := match ch_end c with
      | Some e => alter (end_thread e) (rp_thread r) threads | None => threads end in
    match threads !! rp_thread r ≫= t_end with
    | None => (inr "packet interceptor did not stop within 5 seconds", r, threads)
    | Some (Reported (inl _)) => (inl (), MkReport (rp_thread r) true, threads)
    | Some _ => (inr "packet interceptor stopped during shutdown", MkReport (rp_thread r) true, threads)
    end.

(** [stop_local], up to the report that is waited for... *)
Definition request_report (l : Local) : (Report + string) * Local :=
  let p := lo_plane l in
  match stop_report p with
  | Some r => (inl r, l)
  | None =>
      match shutdown p with
      | None => (inr missing_handle, l)
      | Some i =>
          let threads := alter request_stop i (lo_threads l) in
          match done_rx p with
          | None => (inr missing_handle,
              MkLocal (MkLocalPlane (lp_flows p) None None None (armed p)) threads)
          | Some j => (inl (MkReport j false),
              MkLocal (MkLocalPlane (lp_flows p) None None (Some (MkReport j false)) (armed p)) threads)
          end
      end
  end.

(** ... and whole. *)
Definition stop_local (c : Chance) (l : Local) : Result * Local :=
  if negb (armed (lo_plane l)) then (inl (), l) else
  let '(report, l) := request_report l in
  let p := lo_plane l in
  match report with
  | inr e => (inr e, l)
  | inl r =>
      let '(result, r, threads) := wait_for_interceptor_shutdown c r (lo_threads l) in
      let set report armed := MkLocal
        (MkLocalPlane (lp_flows p) (shutdown p) (done_rx p) report armed) threads in
      match result with
      | inl _ => (inl (), set None false)
      | inr e => (inr e, set (Some r) (armed p))
      end
  end.

Definition reset_local (l : Local) : Local :=
  let p := lo_plane l in
  MkLocal (MkLocalPlane (local_reset (lp_flows p)) (shutdown p) (done_rx p) (stop_report p) (armed p))
    (lo_threads l).

(** The [Local] branch of [rebuild]. *)
Definition rebuild_local (cfg : Config) (binding : InterfaceBinding) (c : Chance) (l : Local)
    : Result * Local :=
  let '(stopped, l) := stop_local c l in
  match stopped with
  | inr e => (inr e, l)
  | inl _ => open cfg binding c (reset_local l)
  end.

(** The runtime in which the report task was spawned is dropped; [sent]: the
    task had already seen the end of its thread. *)
Definition drop_runtime (sent : bool) (l : Local) : Local :=
  let p := lo_plane l in
  let report := match stop_report p with
    | Some r => Some (MkReport (rp_thread r) (rp_drained r ||
        negb (sent && bool_decide (is_Some (lo_threads l !! rp_thread r ≫= t_end)))))
    | None => None
    end in
  MkLocal (MkLocalPlane (lp_flows p) (shutdown p) (done_rx p) report (armed p)) (lo_threads l).

(** [DataPlaneController::local]. *)
Definition local (cfg : Config) (flows : LocalFlows) (binding : InterfaceBinding) (c : Chance)
    (threads : list Thread) : Result * Local :=
  open cfg binding c (MkLocal (MkLocalPlane flows None None None false) threads).

(** ** The remote plane *)

(** The requests of [RemoteHelperClient] and the flow controller's [reset]. *)
Class RemoteHelper (H : Type) := {
  request : Message → H → (Message + string) * H;
  is_disconnected : H → bool;
  remote_reset : H → H }.

Section remote.
Context `{RemoteHelper H}.

(** [request(..).await?] and the match on the reply. *)
Definition expect (m : Message) (wanted : Message → bool) (what : string) (h : H) : Result * H :=
  let '(reply, h) := request m h in
  (match reply with
   | inl r => if wanted r then inl () else inr what
   | inr e => inr e
   end, h).

Definition configure (config : InterceptorConfig) : H → Result * H :=
  expect (MConfigureInterceptor config) (λ r, match r with MConfigured => true | _ => false end)
    "unexpected helper configure response".
Definition helper_open : H → Result * H :=
  expect MOpenInterceptor (λ r, match r with MInterceptorReady => true | _ => false end)
    "unexpected helper open response".
Definition helper_close : H → Result * H :=
  expect MCloseInterceptor (λ r, match r with MInterceptorClosed => true | _ => false end)
    "unexpected helper close response".
Definition helper_shutdown : H → Result * H :=
  expect MShutdown (λ r, match r with MShutdownComplete => true | _ => false end)
    "unexpected helper shutdown response".

(** [r?] and what follows. *)
Definition and_then (r : Result * H) (k : H → Result * H) : Result * H :=
  let '(res, h) := r in match res with inl _ => k h | inr e => (inr e, h) end.
Definition with_context (what : string) (r : Result * H) : Result * H := (context what r.1, r.2).

Record RemotePlane := MkRemotePlane { configured : bool; rm_helper : H }.

Definition plane_config (cfg : Config) (binding : InterfaceBinding) : InterceptorConfig :=
  interceptor_config cfg (ib_ip binding) None CONNECT_PORT.

Definition remote_pending (helper : H) : RemotePlane := MkRemotePlane false helper.

Definition prepare_remote (cfg : Config) (binding : InterfaceBinding) (p : RemotePlane)
    : Result * RemotePlane :=
  let '(res, h) := with_context "configure root helper interceptor"
    (configure (plane_config cfg binding) (rm_helper p)) in
  match res with
  | inr e => (inr e, MkRemotePlane (configured p) h)
  | inl _ =>
      let '(res, h) := with_context "open root helper interceptor" (helper_open h) in
      (res, MkRemotePlane true h)
  end.

Definition rebuild_remote (cfg : Config) (binding : InterfaceBinding) (p : RemotePlane)
    : Result * RemotePlane :=
  let '(res, h) :=
    and_then (with_context "close root helper interceptor" (helper_close (rm_helper p))) (λ h,
    and_then (with_context "reconfigure root helper interceptor"
      (configure (plane_config cfg binding) (remote_reset h))) (λ h,
    with_context "reopen root helper interceptor" (helper_open h))) in
  (res, MkRemotePlane (configured p) h).

Definition close_remote_for_reload (p : RemotePlane) : Result * RemotePlane :=
  let '(res, h) := if configured p then helper_close (rm_helper p) else (inl (), rm_helper p) in
  (res, MkRemotePlane (configured p) (match res with inl _ => remote_reset h | inr _ => h end)).

Definition stop_remote (p : RemotePlane) : Result * RemotePlane :=
  let '(res, h) := and_then (helper_close (rm_helper p)) helper_shutdown in
  (res, MkRemotePlane (configured p) h).

(** ** The controller *)
Inductive Inner := Local_ (l : Local) | Remote_ (p : RemotePlane) | None_.

Definition on_local (r : Result * Local) : Result * Inner := (r.1, Local_ r.2).
Definition on_remote (r : Result * RemotePlane) : Result * Inner := (r.1, Remote_ r.2).

Definition rebuild (cfg : Config) (binding : InterfaceBinding) (c : Chance) (i : Inner)
    : Result * Inner :=
  match i with
  | Local_ l => on_local (rebuild_local cfg binding c l)
  | Remote_ p => on_remote (rebuild_remote cfg binding p)
  | None_ => (inl (), None_)
  end.

Definition stop (c : Chance) (i : Inner) : Result * Inner :=
  match i with
  | Local_ l => on_local (stop_local c l)
  | Remote_ p => on_remote (stop_remote p)
  | None_ => (inl (), None_)
  end.

Definition close_for_reload (c : Chance) (i : Inner) : Result * Inner :=
  match i with
  | Local_ l => on_local (stop_local c l)
  | Remote_ p => on_remote (close_remote_for_reload p)
  | None_ => (inl (), None_)
  end.

Definition remote_disconnected (i : Inner) : bool :=
  match i with Remote_ p => is_disconnected (rm_helper p) | _ => false end.
End remote.

(** ** The local plane *)

(** A thread whose interceptor is known to be gone, with its rules. *)
Definition confirmed (t : Thread) : Prop := t_end t = Some (Reported (inl ())).

(** The thread the plane is in charge of. *)
Definition current (p : LocalPlane) : option nat :=
  if armed p then match stop_report p with Some r => Some (rp_thread r) | None => shutdown p end
  else None.

(** The handles of an armed plane: before the stop, and from then on. *)
Definition handles (l : Local) (i : nat) : Prop :=
  let p := lo_plane l in
  match stop_report p with
  | None => shutdown p = Some i ∧ done_rx p = Some i
  | Some r => rp_thread r = i ∧ shutdown p = None ∧ done_rx p = None
  end.

Record local_ok (l : Local) : Prop := {
  lo_others : ∀ i t, lo_threads l !! i = Some t → current (lo_plane l) ≠ Some i → confirmed t;
  lo_armed : armed (lo_plane l) = true → ∃ i t, handles l i ∧ lo_threads l !! i = Some t ∧
    t_requested t = bool_decide (is_Some (stop_report (lo_plane l)));
  lo_disarmed : armed (lo_plane l) = false → stop_report (lo_plane l) = None }.

(** The report that [stop_local] waits for, and the end it is told of. *)
Definition pending_end (c : Chance) (t : Thread) : option ThreadEnd :=
  match t_end t with Some e => Some e | None => ch_end c end.

Definition drained (p : LocalPlane) : bool :=
  match stop_report p with Some r => rp_drained r | None => false end.

(** When a stop is confirmed. *)
Definition stops (c : Chance) (l : Local) : Prop :=
  armed (lo_plane l) = false ∨
  drained (lo_plane l) = false ∧ ∃ i t, current (lo_plane l) = Some i ∧ lo_threads l !! i = Some t ∧
    pending_end c t = Some (Reported (inl ())).

(** The state after the wait: the thread, told to stop, has ended or not. *)
Definition waited (c : Chance) (l l' : Local) : Prop :=
  ∀ i, lo_threads l' !! i =
    (if decide (current (lo_plane l) = Some i) then
       (λ t, MkThread (t_filter t) true
          (if drained (lo_plane l) then t_end t else pending_end c t)) <$> lo_threads l !! i
     else lo_threads l !! i).

Lemma lookup_alter_if {A} (f : A → A) (l : list A) i j :
  alter f i l !! j = (if decide (i = j) then f <$> l !! j else l !! j).
Proof.
  case_decide; [subst; by rewrite list_lookup_alter_eq|by rewrite list_lookup_alter_ne].
Qed.

Lemma alter_at {A} (f : A → A) (l : list A) i x : l !! i = Some x → alter f i l = <[i := f x]> l.
Proof.
  intros Hx. rewrite list_insert_alter. apply list_alter_ext; [|done].
  intros y Hy. congruence.
Qed.

(** The report is obtained: the handles are never missing. *)
Lemma request_report_ok l i t : handles l i → lo_threads l !! i = Some t →
  t_requested t = bool_decide (is_Some (stop_report (lo_plane l))) →
  let p := lo_plane l in
  let r := MkReport i (drained p) in
  request_report l = (inl r, MkLocal (MkLocalPlane (lp_flows p) None None
    (match stop_report p with Some r => Some r | None => Some r end) (armed p))
    (<[i := MkThread (t_filter t) true (t_end t)]> (lo_threads l))).
Proof.
  destruct l as [[fl sh dn sr ar] ts]. unfold handles, request_report, drained. simpl.
  intros Hh Ht Hq. destruct sr as [[j d]|]; simpl in *.
  - destruct Hh as (-> & -> & ->). do 2 f_equal. symmetry. apply list_insert_id.
    rewrite Ht. f_equal. destruct t as [f q e]. simpl in *. by subst q.
  - destruct Hh as [-> ->]. do 2 f_equal. by rewrite (alter_at _ _ _ _ Ht).
Qed.

Definition with_end (e : option ThreadEnd) (t : Thread) : Thread := MkThread (t_filter t) true e.

(** The stop of an armed plane: where it ends. *)
Lemma stop_armed c l i t : armed (lo_plane l) = true → handles l i → lo_threads l !! i = Some t →
  t_requested t = bool_decide (is_Some (stop_report (lo_plane l))) →
  let d := drained (lo_plane l) in
  let e := if d then t_end t else pending_end c t in
  let ok := negb d && match e with Some (Reported (inl _)) => true | _ => false end in
  let done_ := match e with Some _ => true | None => d end in
  is_ok (stop_local c l).1 = ok ∧
  (stop_local c l).2 = MkLocal (MkLocalPlane (lp_flows (lo_plane l)) None None
      (if ok then None else Some (MkReport i done_)) (negb ok))
    (<[i := with_end e t]> (lo_threads l)).
Proof.
  intros Ha Hh Ht Hq d e ok done_. unfold stop_local. rewrite Ha. cbn [negb].
  rewrite (request_report_ok l i t) by done. cbn zeta beta iota.
  fold d. set (l1 := <[i := _]> (lo_threads l)).
  assert (l1 !! i = Some (MkThread (t_filter t) true (t_end t))) as Hi.
  { unfold l1. apply list_lookup_insert_eq. by eapply lookup_lt_Some. }
  cbn [lo_threads lo_plane lp_flows shutdown done_rx armed].
  unfold wait_for_interceptor_shutdown. cbn [rp_drained rp_thread].
  unfold ok, e, done_, with_end. destruct d eqn:Ed; cbn [negb andb].
  - simpl. rewrite Ha. unfold d in Ed. unfold drained in Ed |- *.
    destruct (stop_report (lo_plane l)) as [r|] eqn:Er; [|done].
    unfold l1. split; [done|]. do 4 f_equal. by destruct (t_end t).
  - assert (match ch_end c with Some e => alter (end_thread e) i l1 | None => l1 end
      = <[i := with_end (pending_end c t) t]> (lo_threads l)) as ->.
    { unfold pending_end, with_end, l1 in *. destruct (ch_end c) as [e'|]; [|by destruct (t_end t)].
      rewrite (alter_at _ _ _ _ Hi), list_insert_insert_eq. unfold end_thread. simpl.
      by destruct (t_end t). }
    rewrite list_lookup_insert_eq by by eapply lookup_lt_Some.
    cbn [option_bind mbind t_end with_end]. destruct (pending_end c t) as [[[[]|m]|]|]; by simpl; rewrite ?Ha.
Qed.

Lemma stop_disarmed c l : armed (lo_plane l) = false → stop_local c l = (inl (), l).
Proof. intros Ha. unfold stop_local. by rewrite Ha. Qed.

Lemma current_handles l i : armed (lo_plane l) = true → handles l i → current (lo_plane l) = Some i.
Proof.
  unfold current, handles. intros ->. destruct (stop_report _); [by intros [-> _]|by intros [-> _]].
Qed.

(** What a stop comes to, from every good state. *)
Lemma stop_spec c l : local_ok l →
  let '(r, l') := stop_local c l in
  local_ok l' ∧ (is_ok r = true ↔ stops c l) ∧ lp_flows (lo_plane l') = lp_flows (lo_plane l) ∧
  armed (lo_plane l') = armed (lo_plane l) && negb (is_ok r) ∧
  length (lo_threads l') = length (lo_threads l) ∧
  (armed (lo_plane l) = false → l' = l) ∧ (armed (lo_plane l) = true → waited c l l').
Proof.
  intros Hl. destruct (armed (lo_plane l)) eqn:Ha.
  - destruct (lo_armed l Hl Ha) as (i & t & Hh & Ht & Hq).
    destruct (stop_armed c l i t Ha Hh Ht Hq) as [Hr Hs].
    pose proof (current_handles l i Ha Hh) as Hc.
    destruct (stop_local c l) as [r l']. simpl in Hr, Hs. subst l'.
    set (e := if drained (lo_plane l) then t_end t else pending_end c t) in *.
    assert (is_ok r = true ↔ stops c l) as Hst.
    { rewrite Hr. unfold stops, e. rewrite Ha, Hc. split.
      - intros [Hd%negb_true_iff He]%andb_prop. right. split; [done|]. exists i, t.
        rewrite Hd in He. split_and!; [done..|]. by destruct (pending_end c t) as [[[[]|]|]|].
      - intros [|(Hd & ? & ? & [= <-] & Hi & He)]; [done|]. rewrite Ht in Hi. injection Hi as <-.
        by rewrite Hd, He. }
    cbn [lo_plane lo_threads lp_flows armed]. rewrite <-Hr.
    split; [|split_and!; [done..|by destruct (is_ok r)|by rewrite length_insert|done|]].
    + constructor; cbn [lo_plane lo_threads armed stop_report].
      * intros j t'. rewrite list_lookup_insert. case_decide as Hj.
        -- intros [= <-] Hne. destruct Hj as [<- _]. rewrite Hr in Hne.
           destruct e as [[[[]|]|]|]; destruct (drained _); done.
        -- intros Ht' _. apply (lo_others l Hl j t' Ht'). rewrite Hc. intros [= <-].
           apply Hj. split; [done|]. by eapply lookup_lt_Some.
      * intros Hok%negb_true_iff. rewrite Hok. exists i, (with_end e t). split; [done|].
        rewrite list_lookup_insert_eq by by eapply lookup_lt_Some. done.
      * intros ->%negb_false_iff. done.
    + intros _ j. cbn [lo_threads]. rewrite Hc. rewrite list_lookup_insert. repeat case_decide; try done.
      * destruct H as [<- _]. by rewrite Ht.
      * naive_solver.
      * simplify_eq. apply lookup_lt_Some in Ht. naive_solver.
  - rewrite stop_disarmed by done. unfold stops. naive_solver.
Qed.

(** *** Steps of the plane and its surroundings *)
Definition set_flows (w : LocalFlows) (l : Local) : Local :=
  let p := lo_plane l in
  MkLocal (MkLocalPlane w (shutdown p) (done_rx p) (stop_report p) (armed p)) (lo_threads l).

Inductive plane_step (cfg : Config) : Local → Local → Prop :=
  | ps_rebuild l b c : plane_step cfg l (rebuild_local cfg b c l).2
  | ps_stop l c : plane_step cfg l (stop_local c l).2
  | ps_end l i e : plane_step cfg l (MkLocal (lo_plane l) (alter (end_thread e) i (lo_threads l)))
  | ps_flows l w : plane_step cfg l (set_flows w l)
  | ps_runtime l sent : plane_step cfg l (drop_runtime sent l).

Lemma local_ok_flows w l : local_ok l → local_ok (set_flows w l).
Proof. by intros [H1 H2 H3]. Qed.

Lemma disarmed_confirmed l : local_ok l → armed (lo_plane l) = false → Forall confirmed (lo_threads l).
Proof.
  intros Hl Ha. apply Forall_lookup. intros i t Ht. apply (lo_others l Hl i t Ht).
  unfold current. by rewrite Ha.
Qed.

(** Opening from a disarmed plane. *)
Lemma open_spec cfg b c l : local_ok l → armed (lo_plane l) = false →
  let '(r, l') := open cfg b c l in
  local_ok l' ∧ (is_ok r = true ↔ ch_open c = None ∧ ch_spawn c = None) ∧
  (is_ok r = true → lp_flows (lo_plane l') = lp_flows (lo_plane l) ∧
    lo_threads l' = lo_threads l ++ [MkThread (interceptor_filter cfg b) false None]) ∧
  (is_ok r = false → l' = l).
Proof.
  intros Hl Ha. unfold open. destruct (ch_open c); [naive_solver|].
  destruct (ch_spawn c); [naive_solver|]. split; [|by split_and!].
  pose proof (lo_disarmed l Hl Ha) as Hs.
  constructor; cbn [lo_plane lo_threads armed]; [| |done].
  - intros i t Ht Hc. apply lookup_app_Some in Ht as [Ht|[Hge Ht]].
    + apply (lo_others l Hl i t Ht). unfold current. by rewrite Ha.
    + exfalso. apply list_lookup_singleton_Some in Ht as [Hi _]. apply Hc. unfold current.
      cbn [armed stop_report shutdown]. rewrite Hs. f_equal. lia.
  - intros _. eexists _, _. unfold handles. cbn [lo_plane stop_report shutdown done_rx lo_threads]. rewrite Hs.
    split; [split; reflexivity|]. by rewrite list_lookup_middle.
Qed.

Lemma rebuild_spec cfg b c l : local_ok l →
  let '(r, l') := rebuild_local cfg b c l in
  local_ok l' ∧
  (is_ok r = true ↔ stops c l ∧ ch_open c = None ∧ ch_spawn c = None) ∧
  (is_ok r = true → lp_flows (lo_plane l') = local_reset (lp_flows (lo_plane l)) ∧
    ∃ olds, lo_threads l' = olds ++ [MkThread (interceptor_filter cfg b) false None] ∧
      length olds = length (lo_threads l) ∧ Forall confirmed olds) ∧
  (is_ok r = false → length (lo_threads l') = length (lo_threads l) ∧
    (stops c l → armed (lo_plane l') = false ∧
       lp_flows (lo_plane l') = local_reset (lp_flows (lo_plane l))) ∧
    (¬ stops c l → armed (lo_plane l') = true ∧ lp_flows (lo_plane l') = lp_flows (lo_plane l))).
Proof.
  intros Hl. unfold rebuild_local. pose proof (stop_spec c l Hl) as Hs.
  destruct (stop_local c l) as [r1 l1]. destruct Hs as (Hl1 & Hr1 & Hf1 & Ha1 & Hn1 & _).
  destruct r1 as [[]|e]; simpl in Hr1, Ha1.
  - pose proof (local_ok_flows (local_reset (lp_flows (lo_plane l1))) l1 Hl1) as Hl2.
    rewrite andb_false_r in Ha1. pose proof (open_spec cfg b c _ Hl2 Ha1) as Ho.
    change (set_flows _ l1) with (reset_local l1) in Ho.
    destruct (open cfg b c (reset_local l1)) as [r l']. destruct Ho as (Hl' & Hr & Hok & Herr).
    assert (stops c l) as Hst by by apply Hr1.
    split; [done|]. split; [naive_solver|]. split.
    + intros H1. destruct (Hok H1) as [Hw Ht]. cbn in Hw. rewrite Hf1 in Hw. split; [done|].
      exists (lo_threads l1). split; [done|]. split; [done|]. by apply disarmed_confirmed.
    + intros H1. rewrite (Herr H1). cbn. rewrite Hf1. split; [done|]. split; [by split|]. by intros [].
  - destruct (armed (lo_plane l)) eqn:Ha; [|exfalso; unfold stops in Hr1; naive_solver].
    split; [done|]. split; [naive_solver|]. split; [done|]. intros _. split; [done|].
    split; [intros Hst%Hr1; done|]. intros _. by split.
Qed.

Lemma lookup_end_thread i e (ts : list Thread) j :
  alter (end_thread e) i ts !! j = (λ t, if decide (i = j) then end_thread e t else t) <$> ts !! j.
Proof. rewrite lookup_alter_if. case_decide; [done|]. by destruct (ts !! j). Qed.

Lemma end_confirmed e t : confirmed t → end_thread e t = t.
Proof. unfold confirmed, end_thread. by intros ->. Qed.

Lemma plane_step_ok cfg l l' : plane_step cfg l l' → local_ok l → local_ok l'.
Proof.
  intros Hs Hl. destruct Hs as [l b c|l c|l i e|l w|l sent].
  - pose proof (rebuild_spec cfg b c l Hl) as H. destruct (rebuild_local cfg b c l) as [? ?]. by destruct H.
  - pose proof (stop_spec c l Hl) as H. destruct (stop_local c l) as [? ?]. by destruct H.
  - constructor; cbn [lo_plane lo_threads]; [| |by apply (lo_disarmed l)].
    + intros j t. rewrite lookup_end_thread. intros (t0 & Ht & ->)%fmap_Some Hc.
      pose proof (lo_others l Hl j t0 Ht Hc) as Hco.
      case_decide; [|done]. by rewrite end_confirmed.
    + intros Ha. destruct (lo_armed l Hl Ha) as (j & t & Hh & Ht & Hq).
      eexists j, _. split; [done|]. rewrite lookup_end_thread, Ht. split; [done|].
      case_decide; [|done]. rewrite <-Hq. unfold end_thread. by destruct (t_end t).
  - by apply local_ok_flows.
  - destruct Hl as [H1 H2 H3]. unfold drop_runtime.
    constructor; cbn [lo_plane lo_threads armed]; unfold current, handles in *;
      cbn [lo_plane armed stop_report shutdown done_rx] in *.
    + intros i t Ht Hc. apply (H1 i t Ht). intros Hc'. apply Hc.
      by destruct (armed (lo_plane l)), (stop_report (lo_plane l)).
    + intros Ha. destruct (H2 Ha) as (i & t & Hh & Ht & Hq). exists i, t.
      by destruct (stop_report (lo_plane l)).
    + intros Ha. by rewrite (H3 Ha).
Qed.

Lemma local_start_ok cfg flows b c l : local cfg flows b c [] = (inl (), l) → local_ok l.
Proof.
  intros Hl. pose proof (open_spec cfg b c (MkLocal (MkLocalPlane flows None None None false) [])) as Ho.
  unfold local in Hl. rewrite Hl in Ho. apply Ho; [|done]. constructor; [|done..].
  intros i t Ht. done.
Qed.

Definition plane_reachable (cfg : Config) (l : Local) : Prop :=
  ∃ flows b c l0, local cfg flows b c [] = (inl (), l0) ∧ rtc (plane_step cfg) l0 l.

Lemma plane_reachable_ok cfg l : plane_reachable cfg l → local_ok l.
Proof.
  intros (flows & b & c & l0 & H0 & Hr). apply local_start_ok in H0.
  induction Hr as [|l1 l2 l3 Hs _ IH]; [done|]. by eapply IH, plane_step_ok.
Qed.


(** A report that was lost (its message was an error, or its task was dropped
    with its runtime) is never made up for: no later stop or rebuild of the
    plane succeeds, whatever becomes of the interceptor. *)
Lemma lost_report_sticks cfg l l' : local_ok l →
  armed (lo_plane l) = true → drained (lo_plane l) = true → rtc (plane_step cfg) l l' →
  (∀ c, is_ok (stop_local c l').1 = false) ∧ (∀ b c, is_ok (rebuild_local cfg b c l').1 = false).
Proof.
  intros Hl Ha Hd Hr.
  assert (∀ c l, local_ok l → armed (lo_plane l) = true → drained (lo_plane l) = true →
    is_ok (stop_local c l).1 = false ∧ armed (lo_plane (stop_local c l).2) = true ∧
    drained (lo_plane (stop_local c l).2) = true) as Hstop.
  { clear. intros c l Hl Ha Hd. destruct (lo_armed l Hl Ha) as (i & t & Hh & Ht & Hq).
    destruct (stop_armed c l i t Ha Hh Ht Hq) as [Hr Hs]. rewrite Hr, Hs, Hd. split_and!; try done.
    cbn. by destruct (t_end t). }
  assert (∀ b c l, local_ok l → armed (lo_plane l) = true → drained (lo_plane l) = true →
    is_ok (rebuild_local cfg b c l).1 = false ∧
    (rebuild_local cfg b c l).2 = (stop_local c l).2) as Hreb.
  { intros b c k Hk Hka Hkd. destruct (Hstop c k Hk Hka Hkd) as (He & _).
    unfold rebuild_local. destruct (stop_local c k) as [[]  k']; done. }
  induction Hr as [l|l1 l2 l3 Hs _ IH].
  - split; intros; [by apply Hstop|by apply Hreb].
  - apply IH; [by eapply plane_step_ok|..]; destruct Hs as [l b c|l c|l i e|l w|l sent]; try done.
    all: try (destruct (Hreb b c l Hl Ha Hd) as [_ ->]).
    all: try (by apply Hstop). all: unfold drop_runtime, drained in *; cbn in *.
    by destruct (stop_report (lo_plane l)) as [[j d]|]; [simpl in *; subst d|].
Qed.

(** ** An example *)
Module Sample.
Definition wifi : InterfaceBinding := MkInterfaceBinding 167772161 2 "wlan0".
Definition lte : InterfaceBinding := MkInterfaceBinding 167772162 3 "rmnet0".
Definition ends_well : Chance := MkChance None None (Some (Reported (inl ()))).
Definition still_busy : Chance := MkChance None None None.
Definition started : Local := (local wrong_md5_config new_flow_table wifi still_busy []).2.
(** The first stop times out; the thread ends; the second rebuild works. *)
Definition moved : Local :=
  (rebuild_local wrong_md5_config lte still_busy
    (let l := (rebuild_local wrong_md5_config lte still_busy started).2 in
     MkLocal (lo_plane l) (alter (end_thread (Reported (inl ()))) 0 (lo_threads l)))).2.
End Sample.

