(* ===== verification/RemotePlane.v ===== *)
(** * The remote data plane over the root helper

    The instance of [DataPlane.RemoteHelper] in which the requests of the
    client ([RemoteHelperClient::request], [crates/zerodpi/src/helper_client.rs])
    are answered by the helper of [RootHelper]: every request is one turn of
    the helper's loop, with packets of the interceptor thread around it; it may
    time out at the client although the helper served it; between requests the
    helper serves flow messages and heartbeats.  The theorem: whatever happens,
    the operations of [DataPlaneController] never send a request that the
    helper refuses in its state, and their results mean what they say. *)
From stdpp Require Import base list numbers strings gmap.
From Stdlib Require Import ZArith Lia.
From S2P Require Import Prelude Interceptor Flow Text Config Methods Composite Handler Protocol WireMethod RootHelper RemoteFlows Netmon DataPlane.

(** ** What a turn does to the helper's configuration *)

(** The state of the protocol, the configuration and the open filter. *)
Definition Control : Type := HelperState * option InterceptorConfig * option FilterSpec.
Definition control (h : Helper) : Control :=
  (h_state h, h_config h, is_filter <$> h_interceptor h).

Definition after (me : Identity) (m : Message) (c : Control) : Control :=
  let '(s, cfg, f) := c in
  match m with
  | MHello _ => (Authenticated, cfg, f)
  | MConfigureInterceptor v => (Configured, Some v, f)
  | MOpenInterceptor => (InterceptorOpen, cfg, helper_filter me <$> cfg)
  | MCloseInterceptor => (Configured, cfg, None)
  | MShutdown => (Exited, cfg, None)
  | _ => c
  end.

Definition received_after (me : Identity) (r : Received) (c : Control) : Control :=
  match r with RFrame f => after me (message f) c | _ => c end.

Lemma thread_step_filter ttl a s : is_filter (thread_step ttl a s) = is_filter s.
Proof.
  unfold thread_step. destruct (is_finished s), a as [seed p|e]; try done.
  by destruct (on_packet _ _ _ _) as [[[? ?] ?]|].
Qed.

Lemma activities_control l h : control (activities l h) = control h.
Proof.
  revert h. induction l as [|a l IH]; intros h; [done|]. cbn [activities foldl flip].
  fold (activities l (activity a h)). rewrite IH. unfold control, activity.
  destruct (h_interceptor h) as [s|] eqn:E; cbn; rewrite ?E; [|done].
  by rewrite <-(thread_step_filter (h_low_ttl_handle h) a s).
Qed.

Section effects.
Context `{Json} (me : Identity).
Implicit Types (h : Helper).

Lemma hwp_and {A} (m : M A) (Q Q' : A → Helper → Prop) E E' h :
  wp m Q E h → wp m Q' E' h → wp m (λ a h, Q a h ∧ Q' a h) (λ h, E h ∧ E' h) h.
Proof. unfold wp. by destruct (m h). Qed.

(** Errors are not looked at, crashes are excluded elsewhere. *)
Definition effect {A} (m : M A) (c : Control) h : Prop :=
  match m h with Next _ h' => control h' = c | _ => True end.

Lemma effect_bind {A B} (m : M A) (k : A → M B) c c' h :
  effect m c h → (∀ a h', control h' = c → effect (k a) c' h') → effect (bind m k) c' h.
Proof. unfold effect, bind. destruct (m h); naive_solver. Qed.
Lemma effect_get {A B} (f : Helper → A) (k : A → M B) c h : effect (k (f h)) c h →
  effect (bind (get f) k) c h.
Proof. done. Qed.
Lemma effect_modify {B} f (k : () → M B) c h : effect (k ()) c (f h) → effect (bind (modify f) k) c h.
Proof. done. Qed.
Lemma effect_unwrap {A B} (o : option A) (k : A → M B) c h :
  (∀ a, o = Some a → effect (k a) c h) → effect (bind (unwrap_or_bail o) k) c h.
Proof. intros Hk. destruct o; [by apply Hk|done]. Qed.
Lemma effect_send rid m h : effect (send rid m) (control h) h.
Proof. unfold effect, send. destruct (write_frame _); [|done]. by destruct (h_writes h) as [|[] ?]. Qed.
Lemma effect_fatal {A} rid code text c h : effect (fatal (A := A) rid code text) c h.
Proof. unfold effect, fatal, bind. by destruct (send _ _ _). Qed.
Lemma effect_same {A} (m : M A) c h : control h = c → effect m (control h) h → effect m c h.
Proof. by intros <-. Qed.
Lemma effect_send_true rid m h : effect (send rid m;; ret true) (control h) h.
Proof. eapply effect_bind; [apply effect_send|]. by intros [] h' Hh'. Qed.

Lemma effect_supervise c h : effect (supervise c) (control h) h.
Proof.
  unfold supervise. apply effect_get. destruct (h_interceptor h) as [s|]; [|done].
  destruct (is_finished s); [apply effect_modify, effect_fatal|].
  generalize (lf_heap (is_flows s)). intros heap. generalize (ch_order c). intros order.
  revert h. induction order as [|id order IH]; intros h; [done|]. cbn [publish_progress].
  eapply effect_bind; [|intros [] h' <-; apply IH]. unfold publish_one. apply effect_get.
  destruct (h_registered h !! id) as [flow|]; [|done].
  destruct (entry_progress heap flow); [|done]. case_bool_decide; [done|].
  apply effect_modify. apply (effect_send 0 _ (set_registered _ h)).
Qed.

Lemma effect_close c h : effect (close_interceptor c) (h_state h, h_config h, None) h.
Proof.
  unfold close_interceptor. apply effect_modify, effect_get. cbn [h_interceptor set_registered].
  destruct (h_interceptor h) as [s|] eqn:E; [|unfold effect, ret, control; cbn; by rewrite E].
  apply effect_modify. by destruct (thread_result c s).
Qed.

(** Handlers that end in a reply. *)
Lemma effect_true (m : M ()) c h : effect m c h → effect (m;; ret true) c h.
Proof. intros Hm. eapply effect_bind; [exact Hm|]. by intros [] h' <-. Qed.

Lemma effect_request c f h :
  effect (on_request me c f) (after me (message f) (control h)) h.
Proof.
  unfold on_request, control, after. destruct (message f) as [hello|a|v| | | | | |id k d t|id|id|id|id p| | | | |e t|e t|v|];
    try done; try apply effect_true.
  - unfold on_hello. destruct (negb _); [apply effect_fatal|]. destruct (negb _); [apply effect_fatal|].
    apply effect_modify. apply (effect_send (request_id f) _ (set_state Authenticated h)).
  - unfold on_configure. destruct (interceptor_config_validate v); [|done].
    apply effect_unwrap. intros recovered _. eapply (effect_bind _ _ (control h)).
    + destruct (0 <? recovered)%Z; [apply effect_send|done].
    + intros [] h' Hh'. apply effect_modify.
      eapply effect_same; [|apply effect_send]. unfold control in *. cbn. injection Hh' as H1 H2 H3. congruence.
  - unfold on_open. apply effect_get, effect_unwrap. intros value Hv.
    apply effect_unwrap. intros m _. apply effect_modify. destruct (negb _); [done|].
    do 2 apply effect_modify. eapply effect_same; [|apply effect_send]. unfold control. cbn. by rewrite Hv.
  - eapply effect_bind; [apply effect_close|]. intros [] h' Hh'. apply effect_modify, effect_true.
    eapply effect_same; [|apply effect_send]. unfold control in *. cbn. injection Hh' as H1 H2 H3. congruence.
  - unfold on_register. apply effect_get. destruct (negb _); [apply effect_fatal|].
    destruct (_ <=? _); [apply effect_fatal|]. destruct (existsb _ _); [apply effect_fatal|].
    apply effect_get, effect_unwrap. intros s Hs. cbn [table_insert]. do 2 apply effect_modify.
    eapply effect_same; [|apply effect_send]. unfold control. cbn. by rewrite Hs.
  - unfold on_remove. apply effect_get. eapply (effect_bind _ _ (control h)).
    + destruct (h_registered h !! id) as [flow|]; [|done]. apply effect_modify.
      unfold effect, modify, control. cbn. by destruct (h_interceptor h).
    + intros [] h' Hh'. eapply effect_same; [exact Hh'|apply effect_send].
  - apply effect_send.
  - apply effect_modify. eapply effect_bind; [apply effect_close|]. intros [] h' Hh'.
    eapply effect_bind; [apply effect_send|]. intros [] h'' Hh''. unfold effect, modify, bind, ret.
    unfold control in *. cbn in *. injection Hh'' as _ H1 H2. injection Hh' as _ H3 H4. congruence.
  - unfold on_set_low_ttl. apply effect_modify. apply (effect_send (request_id f) _ (set_low_ttl _ h)).
Qed.

Lemma effect_turn r h : effect (turn me r) (received_after me (r_received r) (control h)) h.
Proof.
  unfold turn. apply effect_modify. eapply effect_bind; [apply effect_supervise|].
  intros [] h1 Hh1. rewrite activities_control in Hh1. apply effect_modify.
  rewrite <-(activities_control (r_between r)) in Hh1. set (h2 := activities _ h1) in *. rewrite <-Hh1.
  unfold receive. destruct (r_received r) as [f|dt|]; [| |done].
  - apply effect_modify, effect_get. destruct (negb _); [apply effect_fatal|].
    apply (effect_request (r_choices r) f (set_idle 0 h2)).
  - apply effect_get. destruct (_ <? _)%Z; [|apply effect_fatal]. by apply effect_modify.
Qed.
End effects.

(** ** The link *)

(** What happens around one request: packets before it and between the head of
    the loop and the receipt, the helper's choices, and whether the reply comes
    within [REQUEST_TIMEOUT]. *)
Record LinkChance := MkLinkChance {
  lc_before : list Activity;
  lc_choices : Choices;
  lc_between : list Activity;
  lc_timely : bool }.
Definition smooth : LinkChance := MkLinkChance [] (MkChoices [] (Some 0%Z) true 0 None) [] true.

(** [ln_log]: the requests the helper has read, each with the state it was in. *)
Record Link := MkLink {
  ln_helper : Helper;
  ln_alive : bool;
  ln_chances : list LinkChance;
  ln_next : Z;
  ln_log : list (HelperState * Message) }.

Section link.
Context `{Json} (me : Identity).

Definition link_round (c : LinkChance) (f : Frame) : Round :=
  MkRound (lc_before c) (lc_choices c) (lc_between c) (RFrame f).

Definition link_request (m : Message) (k : Link) : (Message + string) * Link :=
  if negb (ln_alive k) then (inr "root helper is disconnected", k) else
  let frame := Frame_new (ln_next k) m in
  let h := ln_helper k in
  match write_frame frame with
  | PErr _ => (inr "write root-helper request",
      MkLink h true (ln_chances k) (ln_next k + 1) (ln_log k))
  | POk _ =>
      let c := default smooth (head (ln_chances k)) in
      let next h alive := MkLink h alive (tail (ln_chances k)) (ln_next k + 1)
        (ln_log k ++ [(h_state (ln_helper k), m)]) in
      match turn me (link_round c frame) h with
      | Next go h' =>
          (match last (h_sent h') with
           | Some reply => if lc_timely c then inl (message reply) else inr "root helper request timed out"
           | None => inr "root helper request timed out"
           end, next (if go then h' else leave h') go)
      | Bail h' => (inr "root helper disconnected", next (leave h') false)
      | Crash => (inr "root helper disconnected", next h false)
      end
  end.

#[export] Instance link_helper : RemoteHelper Link := {
  request := link_request;
  is_disconnected k := negb (ln_alive k);
  remote_reset k := k }.

(** Flow messages and heartbeats that the helper serves between requests. *)
Definition flow_message (m : Message) : bool :=
  match m with
  | MRegisterFlow _ _ _ _ | MRemoveFlow _ | MSetLowTtlValue _ | MPing => true
  | _ => false
  end.
Definition between_ok (h : Helper) (r : Round) : Prop :=
  round_ok r ∧ match r_received r with
    | RFrame f => flow_message (message f) = true ∧ accepts (h_state h) (message f) = true
    | RTimeout _ => True
    | RDisconnected => False
    end.
Definition link_turn (r : Round) (k : Link) : Link :=
  match turn me r (ln_helper k) with
  | Next _ h' => MkLink h' true (ln_chances k) (ln_next k) (ln_log k)
  | Bail h' => MkLink (leave h') false (ln_chances k) (ln_next k) (ln_log k)
  | Crash => MkLink (ln_helper k) false (ln_chances k) (ln_next k) (ln_log k)
  end.

(** ** Generations of planes

    A generation owns a plane made by [remote_pending] from the shared client;
    the next one starts when [close_for_reload] has succeeded. *)
Inductive Generation := Closed (k : Link) | Owned (p : RemotePlane (H := Link)).

(** What a configuration must satisfy: a value of an unsigned field. *)
Definition unsigned_ok (cfg : Config) : Prop := (0 ≤ TLS_RECORD_FRAG_SIZE cfg)%Z.

Inductive remote_step : Generation → Generation → Prop :=
  | rs_prepare k cfg b : unsigned_ok cfg →
      remote_step (Closed k) (Owned (prepare_remote cfg b (remote_pending k)).2)
  | rs_rebuild p cfg b : unsigned_ok cfg → configured p = true →
      remote_step (Owned p) (Owned (rebuild_remote cfg b p).2)
  | rs_stop p : configured p = true → remote_step (Owned p) (Owned (stop_remote p).2)
  | rs_close p : is_ok (close_remote_for_reload p).1 = true →
      remote_step (Owned p) (Closed (rm_helper (close_remote_for_reload p).2))
  | rs_not_closed p : is_ok (close_remote_for_reload p).1 = false →
      remote_step (Owned p) (Owned (close_remote_for_reload p).2)
  | rs_flows p r : ln_alive (rm_helper p) = true → between_ok (ln_helper (rm_helper p)) r →
      remote_step (Owned p) (Owned (MkRemotePlane (configured p) (link_turn r (rm_helper p))))
  | rs_idle k r : ln_alive k = true → between_ok (ln_helper k) r →
      remote_step (Closed k) (Closed (link_turn r k)).

(** ** The invariant *)
Definition in_states (ss : list HelperState) (k : Link) : Prop :=
  ln_alive k = true → h_state (ln_helper k) ∈ ss.
Definition accepted (e : HelperState * Message) : Prop := accepts e.1 e.2 = true.

Record link_ok (k : Link) : Prop := {
  lk_alive : ln_alive k = true → helper_ok (ln_helper k);
  lk_dead : ln_alive k = false → exited (ln_helper k);
  lk_log : Forall accepted (ln_log k) }.

Definition generation_ok (g : Generation) : Prop :=
  match g with
  | Closed k => link_ok k ∧ in_states [Authenticated; Configured] k
  | Owned p => link_ok (rm_helper p) ∧
      in_states (if configured p then [Configured; InterceptorOpen] else [Authenticated; Configured])
        (rm_helper p)
  end.

(** The configuration of the helper behind a live link. *)
Definition link_control (k : Link) : Control := control (ln_helper k).

End link.

(** ** One request *)
Definition control_request (m : Message) : Prop :=
  match m with
  | MConfigureInterceptor v => (0 ≤ tls_record_frag_size (method v))%Z
  | MOpenInterceptor | MCloseInterceptor | MShutdown => True
  | _ => False
  end.

(** Replies come in time, and the requests can be written. *)
Definition prompt (k : Link) : Prop := Forall (λ c, lc_timely c = true) (ln_chances k).
Definition sendable `{Json} (m : Message) : Prop :=
  ∀ id, ∃ bytes, write_frame (Frame_new id m) = POk bytes.

Section request.
Context `{Json} (me : Identity).
Implicit Types (k : Link).

Lemma turn_outcome r h : helper_ok h → round_ok r →
  match turn me r h with
  | Next go h' => turn_done r h go h' ∧ control h' = received_after me (r_received r) (control h)
  | Bail h' => one_thread h'
  | Crash => False
  end.
Proof.
  intros Hh Hr. pose proof (wp_turn me r h Hh Hr) as Hw. pose proof (effect_turn me r h) as He.
  unfold wp in Hw. unfold effect in He. by destruct (turn me r h).
Qed.

Lemma answered_last f h h' : answered f h h' →
  ∃ m, last (h_sent h') = Some (Frame_new (request_id f) m) ∧ answers (message f) m.
Proof.
  intros (pre & m & -> & _ & Ha). exists m. split; [|done]. by rewrite app_assoc, last_snoc.
Qed.

(** What a request leaves behind, and what its reply says. *)
Definition requested (m : Message) (k : Link) (reply : Message + string) (k' : Link) : Prop :=
  link_ok k' ∧ (prompt k → prompt k') ∧
  (ln_alive k' = true → ln_alive k = true ∧ (link_control k' = after me m (link_control k) ∨
    link_control k' = link_control k ∧ ∃ e, reply = inr e)) ∧
  (∀ a, reply = inl a → answers m a ∧
    (m ≠ MShutdown → ln_alive k' = true ∧ link_control k' = after me m (link_control k))) ∧
  (prompt k → sendable m → ∀ e, reply = inr e → ln_alive k' = false).

Lemma link_request_ok m k : link_ok k → control_request m →
  (ln_alive k = true → accepts (h_state (ln_helper k)) m = true) →
  let '(reply, k') := link_request me m k in requested m k reply k'.
Proof.
  intros Hk Hm Ha. unfold link_request. destruct (ln_alive k) eqn:El; cbn [negb].
  2: { split; [done|]. split; [done|]. split; [congruence|]. split; [done|]. done. }
  pose proof (lk_alive k Hk El) as Hh. specialize (Ha eq_refl).
  destruct (write_frame (Frame_new (ln_next k) m)) as [bytes|e] eqn:Ew.
  2: { split; [destruct Hk; by constructor|]. split; [done|]. split; [intros _; split; [done|]; right; by split; [|eexists]|].
       split; [done|]. intros _ Hs. destruct (Hs (ln_next k)) as [? Hs']. congruence. }
  set (c := default smooth (head (ln_chances k))).
  assert (round_ok (link_round c (Frame_new (ln_next k) m))) as Hr.
  { intros f [= <-]. split; [by apply write_frame_ok in Ew as (_ & ? & _)|]. by destruct m. }
  assert (prompt k → Forall (λ c, lc_timely c = true) (tail (ln_chances k)) ∧ lc_timely c = true) as Hp.
  { unfold prompt, c. destruct (ln_chances k); [done|]. by intros [? ?]%Forall_cons. }
  assert (Forall accepted (ln_log k ++ [(h_state (ln_helper k), m)])) as Hlog.
  { apply Forall_app. split; [by apply lk_log|]. by apply Forall_singleton. }
  pose proof (turn_outcome _ _ Hh Hr) as Ht. destruct (turn me _ _) as [go h'|h'|]; [|clear Ha|done].
  - destruct Ht as [Hd Hc]. unfold turn_done in Hd. cbn [link_round r_received] in Hd, Hc.
    assert (answered (Frame_new (ln_next k) m) (ln_helper k) h') as Han by (destruct go; apply Hd).
    apply answered_last in Han as (a & -> & Han). cbn [message Frame_new received_after] in *.
    assert (m ≠ MShutdown → go = true) as Hgo by (by destruct go; [|destruct Hd]).
    split; [constructor; cbn [ln_alive ln_helper ln_log]; [|intros ->|done]|].
    { intros ->. apply Hd. }
    { destruct Hd as (_ & Hi & Ht & _). apply leave_exited. unfold one_thread. by rewrite Hi, Ht. }
    split; [intros Hpk; apply Hp, Hpk|]. cbn [ln_alive].
    split; [intros ->; split; [done|]; left; exact Hc|]. split.
    + intros a' Ha'. assert (a' = a) as -> by (by destruct (lc_timely c); simplify_eq).
      split; [done|]. intros Hms. by rewrite (Hgo Hms).
    + intros [_ Hpc]%Hp _ e. by rewrite Hpc.
  - split; [constructor; cbn [ln_alive ln_helper ln_log]; [done|intros _; by apply leave_exited|done]|].
    split; [intros Hpk; apply Hp, Hpk|]. done.
Qed.
End request.

(** ** The operations *)
Section planes.
Context `{Json} (me : Identity).
Implicit Types (k : Link) (p : RemotePlane (H := Link)).
#[local] Hint Extern 0 (RemoteHelper Link) => exact (link_helper me) : typeclass_instances.

(** A request with its reply matched. *)
Definition performed (m : Message) k (r : Result) k' : Prop :=
  link_ok k' ∧ (prompt k → prompt k') ∧
  (ln_alive k' = true → ln_alive k = true ∧ (link_control k' = after me m (link_control k) ∨
    link_control k' = link_control k ∧ is_ok r = false)) ∧
  (is_ok r = true → m ≠ MShutdown →
    ln_alive k' = true ∧ link_control k' = after me m (link_control k)) ∧
  (prompt k → sendable m → is_ok r = false → ln_alive k' = false).

Lemma expect_ok m wanted what k : link_ok k → control_request m →
  (ln_alive k = true → accepts (h_state (ln_helper k)) m = true) →
  (∀ a, answers m a → wanted a = true) →
  let '(r, k') := expect m wanted what k in performed m k r k'.
Proof.
  intros Hk Hm Ha Hw. unfold expect. pose proof (link_request_ok me m k Hk Hm Ha) as Hr.
  change (request m k) with (link_request me m k).
  destruct (link_request me m k) as [[a|e] k']; destruct Hr as (Hk' & Hp & Hs & Hok & Herr).
  - destruct (Hok a eq_refl) as [Han Hst]. rewrite (Hw a Han).
    split; [done|]. split; [done|]. split; [|naive_solver].
    intros Hal. destruct (Hs Hal) as [? [?|[? [? [=]]]]]. auto.
  - split; [done|]. split; [done|]. split; [|naive_solver].
    intros Hal. destruct (Hs Hal) as [? [?|[? _]]]; auto.
Qed.

(** The states in which a request is accepted, and what comes after it. *)
Lemma accepts_in ss m k : in_states ss k → Forall (λ s, accepts s m = true) ss →
  ln_alive k = true → accepts (h_state (ln_helper k)) m = true.
Proof. intros Hs Hf Ha. rewrite Forall_forall in Hf. by apply Hf, Hs. Qed.

Lemma performed_states m k r k' ss s : performed m k r k' → in_states ss k →
  (∀ c, (after me m c).1.1 = s) → in_states (s :: ss) k'.
Proof.
  intros (_ & _ & Hs & _) Hss Hc Ha. destruct (Hs Ha) as [Hal [Hk|[Hk _]]];
    apply (f_equal (λ c, c.1.1)) in Hk; cbn [link_control control fst] in Hk; rewrite Hk.
  - rewrite Hc. set_solver.
  - specialize (Hss Hal). set_solver.
Qed.

Lemma performed_state m k r k' s : performed m k r k' → is_ok r = true → m ≠ MShutdown →
  (∀ c, (after me m c).1.1 = s) → in_states [s] k'.
Proof.
  intros (_ & _ & _ & Hok & _) Hr Hm Hc _. destruct (Hok Hr Hm) as [_ Hk].
  apply (f_equal (λ c, c.1.1)) in Hk. cbn [link_control control fst] in Hk. rewrite Hk, Hc. set_solver.
Qed.

Lemma after_open_state c : (after me MOpenInterceptor c).1.1 = InterceptorOpen.
Proof. by destruct c as [[? ?] ?]. Qed.
Lemma after_close_state c : (after me MCloseInterceptor c).1.1 = Configured.
Proof. by destruct c as [[? ?] ?]. Qed.
Lemma after_configure_state v c : (after me (MConfigureInterceptor v) c).1.1 = Configured.
Proof. by destruct c as [[? ?] ?]. Qed.

Lemma in_states_weaken ss ss' k : in_states ss k → ss ⊆ ss' → in_states ss' k.
Proof. intros Hs Hss Ha. apply Hss, Hs, Ha. Qed.

Lemma configure_ok cfg b k : link_ok k → unsigned_ok cfg → in_states [Authenticated; Configured] k →
  let '(r, k') := configure (plane_config cfg b) k in
  performed (MConfigureInterceptor (plane_config cfg b)) k r k'.
Proof.
  intros Hk Hu Hs. apply expect_ok; [done|exact Hu| |by intros []].
  eapply accepts_in; [exact Hs|by repeat constructor].
Qed.
Lemma open_ok k : link_ok k → in_states [Configured] k →
  let '(r, k') := helper_open k in performed MOpenInterceptor k r k'.
Proof.
  intros Hk Hs. apply expect_ok; [done|done| |by intros []].
  eapply accepts_in; [exact Hs|by repeat constructor].
Qed.
Lemma close_ok k : link_ok k → in_states [Configured; InterceptorOpen] k →
  let '(r, k') := helper_close k in performed MCloseInterceptor k r k'.
Proof.
  intros Hk Hs. apply expect_ok; [done|done| |by intros []].
  eapply accepts_in; [exact Hs|by repeat constructor].
Qed.
Lemma shutdown_ok k : link_ok k → in_states [Configured] k →
  let '(r, k') := helper_shutdown k in performed MShutdown k r k'.
Proof.
  intros Hk Hs. apply expect_ok; [done|done| |by intros []].
  eapply accepts_in; [exact Hs|by repeat constructor].
Qed.

(** Configuring and opening, from a closed helper. *)
Definition opened cfg b k : Prop :=
  ln_alive k = true ∧ h_state (ln_helper k) = InterceptorOpen ∧
  is_filter <$> h_interceptor (ln_helper k) = Some (helper_filter me (plane_config cfg b)).

Definition wire_ok cfg b : Prop :=
  sendable (MConfigureInterceptor (plane_config cfg b)) ∧
  sendable MOpenInterceptor ∧ sendable MCloseInterceptor.

Lemma open_after_configure cfg b k r1 k1 : link_ok k →
  performed (MConfigureInterceptor (plane_config cfg b)) k r1 k1 → is_ok r1 = true →
  let '(r, k') := helper_open k1 in
  link_ok k' ∧ in_states [Configured; InterceptorOpen] k' ∧ (is_ok r = true → opened cfg b k') ∧
  (prompt k → wire_ok cfg b → is_ok r = false → ln_alive k' = false).
Proof.
  intros Hk H1 Hr1. assert (in_states [Configured] k1) as Hs1
    by (eapply performed_state; [exact H1|done|done|apply after_configure_state]).
  destruct H1 as (Hk1 & Hp1 & _ & Hok1 & _). destruct (Hok1 Hr1) as [Hal1 Hc1]; [done|].
  pose proof (open_ok k1 Hk1 Hs1) as Ho. destruct (helper_open k1) as [r k'].
  split; [apply Ho|]. split.
  { eapply in_states_weaken; [eapply performed_states; [exact Ho|exact Hs1|apply after_open_state]|set_solver]. }
  destruct Ho as (_ & _ & _ & Hok & Herr). split.
  - intros Hr. destruct (Hok Hr) as [Hal Hc]; [done|]. split; [done|].
    rewrite Hc1 in Hc. destruct (link_control k) as [[s v] f]. cbn in Hc.
    unfold link_control, control in Hc. by injection Hc as -> _ ->.
  - intros Hp (_ & Hso & _). auto.
Qed.

(** *** The operations of the plane *)
Lemma prepare_ok cfg b k : link_ok k → unsigned_ok cfg → in_states [Authenticated; Configured] k →
  generation_ok (Owned (prepare_remote cfg b (remote_pending k)).2).
Proof.
  intros Hk Hu Hs. unfold prepare_remote, with_context. cbn [rm_helper remote_pending configured].
  pose proof (configure_ok cfg b k Hk Hu Hs) as H1.
  destruct (configure (plane_config cfg b) k) as [[u|e] k1]; cbn [fst snd context].
  - pose proof (open_after_configure cfg b k _ k1 Hk H1 eq_refl) as H2.
    destruct (helper_open k1) as [r k']. cbn. naive_solver.
  - cbn. split; [apply H1|]. eapply in_states_weaken;
      [eapply performed_states; [exact H1|exact Hs|apply after_configure_state]|set_solver].
Qed.

Lemma rebuild_ok cfg b p : link_ok (rm_helper p) → unsigned_ok cfg →
  in_states [Configured; InterceptorOpen] (rm_helper p) →
  let '(r, p') := rebuild_remote cfg b p in
  configured p' = configured p ∧ link_ok (rm_helper p') ∧
  in_states [Configured; InterceptorOpen] (rm_helper p') ∧
  (is_ok r = true → opened cfg b (rm_helper p')) ∧
  (prompt (rm_helper p) → wire_ok cfg b → is_ok r = false → ln_alive (rm_helper p') = false).
Proof.
  intros Hk Hu Hs. unfold rebuild_remote, with_context, and_then.
  pose proof (close_ok _ Hk Hs) as H1. destruct (helper_close (rm_helper p)) as [[u|e] k1]; cbn [fst snd context].
  2: { cbn [rm_helper configured]. split; [done|]. split; [apply H1|]. split; [|split; [done|]].
       - eapply in_states_weaken; [eapply performed_states; [exact H1|exact Hs|apply after_close_state]|set_solver].
       - intros Hp (_ & _ & Hc) _. by apply H1. }
  assert (in_states [Configured] k1) as Hs1
    by (eapply performed_state; [exact H1|done|done|apply after_close_state]).
  change (remote_reset k1) with k1. destruct H1 as (Hk1 & Hp1 & _).
  pose proof (configure_ok cfg b k1 Hk1 Hu) as H2.
  destruct (configure (plane_config cfg b) k1) as [[u2|e] k2]; cbn [fst snd context].
  2: { assert (performed (MConfigureInterceptor (plane_config cfg b)) k1 (inr e) k2) as H3
         by (apply H2; eapply in_states_weaken; [exact Hs1|set_solver]).
       cbn [rm_helper configured]. split; [done|]. split; [apply H3|]. split; [|split; [done|]].
       - eapply in_states_weaken; [eapply performed_states; [exact H3|exact Hs1|apply after_configure_state]|set_solver].
       - intros Hp (Hc & _) _. apply H3; auto. }
  assert (performed (MConfigureInterceptor (plane_config cfg b)) k1 (inl u2) k2) as H3
    by (apply H2; eapply in_states_weaken; [exact Hs1|set_solver]).
  pose proof (open_after_configure cfg b k1 _ k2 Hk1 H3 eq_refl) as H4.
  destruct (helper_open k2) as [r k3]. cbn [fst snd rm_helper configured].
  assert (is_ok (context "reopen root helper interceptor" r) = is_ok r) as -> by by destruct r.
  naive_solver.
Qed.

Lemma stop_remote_ok p : link_ok (rm_helper p) → in_states [Configured; InterceptorOpen] (rm_helper p) →
  let '(r, p') := stop_remote p in
  configured p' = configured p ∧ link_ok (rm_helper p') ∧
  in_states [Configured; InterceptorOpen] (rm_helper p').
Proof.
  intros Hk Hs. unfold stop_remote, and_then.
  pose proof (close_ok _ Hk Hs) as H1. destruct (helper_close (rm_helper p)) as [[u|e] k1].
  2: { cbn [rm_helper configured]. split; [done|]. split; [apply H1|].
       eapply in_states_weaken; [eapply performed_states; [exact H1|exact Hs|apply after_close_state]|set_solver]. }
  assert (in_states [Configured] k1) as Hs1
    by (eapply performed_state; [exact H1|done|done|apply after_close_state]).
  destruct H1 as (Hk1 & _). pose proof (shutdown_ok k1 Hk1 Hs1) as H2.
  destruct (helper_shutdown k1) as [r k2]. cbn [rm_helper configured]. split; [done|].
  split; [apply H2|]. intros Hal. destruct H2 as (Hk2 & _ & Hst & _).
  destruct (Hst Hal) as [Hal1 [Hc|[Hc _]]]; apply (f_equal (λ c, c.1.1)) in Hc;
    cbn [link_control control fst] in Hc.
  - exfalso. apply (ho_live _ (lk_alive k2 Hk2 Hal)). rewrite Hc. by destruct (link_control k1) as [[? ?] ?].
  - rewrite Hc. specialize (Hs1 Hal1). set_solver.
Qed.

Lemma close_for_reload_ok p : generation_ok (Owned p) →
  let '(r, p') := close_remote_for_reload p in
  generation_ok (Owned p') ∧ (is_ok r = true → generation_ok (Closed (rm_helper p'))).
Proof.
  intros [Hk Hs]. unfold close_remote_for_reload. destruct (configured p) eqn:Ec.
  2: { cbn. change (remote_reset (rm_helper p)) with (rm_helper p). done. }
  pose proof (close_ok _ Hk Hs) as H1. destruct (helper_close (rm_helper p)) as [[u|e] k1]; cbn.
  - assert (in_states [Configured] k1) as Hs1
      by (eapply performed_state; [exact H1|done|done|apply after_close_state]).
    split; [split; [apply H1|]|intros _; split; [apply H1|]];
      (eapply in_states_weaken; [exact Hs1|set_solver]).
  - split; [|done]. split; [apply H1|].
    eapply in_states_weaken; [eapply performed_states; [exact H1|exact Hs|apply after_close_state]|set_solver].
Qed.

Lemma link_turn_ok r k ss : link_ok k → in_states ss k → ln_alive k = true →
  between_ok (ln_helper k) r → link_ok (link_turn me r k) ∧ in_states ss (link_turn me r k).
Proof.
  intros Hk Hs Hal [Hr Hb]. unfold link_turn. pose proof (lk_alive k Hk Hal) as Hh.
  pose proof (turn_outcome me r _ Hh Hr) as Ht.
  destruct (turn me r (ln_helper k)) as [go h'|h'|]; [| |done].
  - destruct Ht as [Hd Hc]. unfold turn_done in Hd.
    assert (helper_ok h' ∧ control h' = control (ln_helper k)) as [Hh' Hc'].
    { destruct (r_received r) as [f|dt|]; [|by destruct Hd as (_ & ? & _)|done].
      destruct Hb as [Hf _]. destruct go; [|by destruct Hd as [Hm _]; rewrite Hm in Hf].
      split; [apply Hd|]. rewrite Hc. cbn [received_after]. destruct (control _) as [[? ?] ?].
      by destruct (message f). }
    split; [constructor; [done|done|apply (lk_log k Hk)]|].
    intros _. cbn [ln_helper]. apply (f_equal (λ c, c.1.1)) in Hc'. cbn [control fst] in Hc'.
    rewrite Hc'. by apply Hs.
  - split; [constructor; [done|intros _; by apply leave_exited|apply (lk_log k Hk)]|]. done.
Qed.

Lemma remote_step_ok g g' : remote_step me g g' → generation_ok g → generation_ok g'.
Proof.
  intros [k cfg b Hu|p cfg b Hu Hc|p Hc|p Hr|p Hr|p r Hal Hb|k r Hal Hb] Hg.
  - destruct Hg. by apply prepare_ok.
  - destruct Hg as [Hk Hs]. rewrite Hc in Hs. pose proof (rebuild_ok cfg b p Hk Hu Hs) as H1.
    destruct (rebuild_remote cfg b p) as [r p']. destruct H1 as (H1 & H2 & H3 & _).
    split; [done|]. cbn [snd]. by rewrite H1, Hc.
  - destruct Hg as [Hk Hs]. rewrite Hc in Hs. pose proof (stop_remote_ok p Hk Hs) as H1.
    destruct (stop_remote p) as [r p']. destruct H1 as (H1 & H2 & H3). split; [done|]. cbn [snd]. by rewrite H1, Hc.
  - pose proof (close_for_reload_ok p Hg) as H1. destruct (close_remote_for_reload p) as [r p']. by apply H1.
  - pose proof (close_for_reload_ok p Hg) as H1. destruct (close_remote_for_reload p) as [r p']. by apply H1.
  - destruct Hg as [Hk Hs]. by apply link_turn_ok.
  - destruct Hg as [Hk Hs]. by apply link_turn_ok.
Qed.

Definition link_of (g : Generation) : Link :=
  match g with Closed k => k | Owned p => rm_helper p end.
Definition link_start (h : Helper) (chances : list LinkChance) : Link := MkLink h true chances 2 [].


(** A flow that is registered while the plane is between its requests, when
    the helper is not open, makes the helper exit. *)
Lemma registration_refused rid id key data ttl c h : helper_ok h → h_state h ≠ InterceptorOpen →
  match turn me (MkRound [] c [] (RFrame (Frame_new rid (MRegisterFlow id key data ttl)))) h with
  | Bail h' => exited (leave h')
  | _ => False
  end.
Proof.
  intros Hh Hs. assert (h_interceptor h = None) as Hi.
  { destruct (h_interceptor h) eqn:E; [|done]. exfalso. apply Hs, (ho_open h Hh). by eexists. }
  assert (wp (turn me (MkRound [] c [] (RFrame (Frame_new rid (MRegisterFlow id key data ttl)))))
    (λ _ _, False) one_thread h) as Hw.
  { unfold turn, supervise. do 4 wp_step. cbn [r_before activities foldl]. wp_step. rewrite Hi.
    do 3 wp_step. cbn [r_between activities foldl r_received receive message Frame_new accepts].
    do 4 wp_step. cbn [h_state set_idle]. rewrite bool_decide_false by done. cbn [negb].
    apply wp_fatal; auto with helper. }
  unfold wp in Hw. destruct (turn _ _ h); [done|by apply leave_exited|done].
Qed.
End planes.

(** ** An example: two generations and a rebuild between them *)
Module Sample.
#[local] Existing Instance RootHelper.Sample.json.
Definition me : Identity := RootHelper.Sample.me.
Definition wifi : InterfaceBinding := MkInterfaceBinding 167772161 2 "wlan0".
Definition lte : InterfaceBinding := MkInterfaceBinding 167772162 3 "rmnet0".
Definition start : Link := link_start Run.greeted [].
#[local] Hint Extern 0 (RemoteHelper Link) => exact (@link_helper RootHelper.Sample.json me) : typeclass_instances.
Definition prepared : RemotePlane := (prepare_remote wrong_md5_config wifi (remote_pending start)).2.
Definition rebuilt : RemotePlane := (rebuild_remote wrong_md5_config lte prepared).2.
Definition closed : RemotePlane := (close_remote_for_reload rebuilt).2.
Definition again : RemotePlane :=
  (prepare_remote wrong_md5_config wifi (remote_pending (rm_helper closed))).2.
End Sample.

