(* ===== verification/Recovery.v ===== *)
(** * Network recovery

    Model of [crates/zerodpi/src/network_recovery.rs]: the coordinator
    ([run], [handle_change], [rebuild_with_retry], [rescan_allowed]) over the
    trait [RecoveryEnv] as a class, the translation of its statuses, and
    [MainRecoveryEnv] over the planes of [DataPlane].  Waiting calls return
    what the environment answers; an environment may count them and be
    instrumented with a log ([Traced]).  The loops take fuel; [None] and
    [false] mean that they are still running, so that what is proved of every
    fuel holds at every moment of a run. *)
From stdpp Require Import base list numbers strings gmap.
From Stdlib Require Import ZArith Lia.
From S2P Require Import Prelude Interceptor Flow Text Config Handler Netmon DataPlane.

Local Open Scope Z_scope.

(** ** Constants, in milliseconds *)
Definition BACKOFF_INITIAL : Z := 1000.
Definition BACKOFF_MAX : Z := 60000.
Definition RECOVERY_RESCAN_MIN_INTERVAL : Z := 60000.

(** ** Statuses *)
Inductive NetworkStatus :=
  | Online (interface_ip : Z)
  | Unavailable (message : string)
  | Changing (interface_ip : Z) (source : NetworkChangeSource)
  | Recovering (attempt next_retry_ms : Z) (message : string)
  | Recovered (interface_ip : Z) (target_verified target_switched : bool).

Record RescanOutcome := MkRescanOutcome { found : Z; switched : bool }.

(** How the pause between two attempts ends, and what the event channel
    delivers. *)
Inductive Wake := Slept | NewerEvent | ChannelClosed.
Inductive Delivery := Changed (source : NetworkChangeSource) | Lagged | Closed.

(** ** The environment *)
Class RecoveryEnv (E : Type) := {
  load_target : E → Z * E;
  probe : Z → E → (InterfaceBinding + string) * E;
  rebuild : InterfaceBinding → E → Result * E;
  verify : E → bool * E;
  rescan : E → RescanOutcome * E;
  apply_interface_binding : InterfaceBinding → E → E;
  remote_disconnected : E → bool * E;
  publish : NetworkStatus → E → E;
  instant_now : E → Z * E;
  pause : Z → E → Wake * E;
  next_event : E → Delivery * E }.

Record Coordinator := MkCoordinator {
  auto_select : bool;
  current : option InterfaceBinding;
  last_rescan : option Z }.
Definition set_current v co := MkCoordinator (auto_select co) v (last_rescan co).
Definition set_last_rescan v co := MkCoordinator (auto_select co) (current co) v.

(** ** The coordinator *)
Section coordinator.
Context `{RecoveryEnv E}.

Definition next_delay (delay : Z) : Z := (delay * 2) `min` BACKOFF_MAX.

Fixpoint rebuild_with_retry (fuel : nat) (binding : InterfaceBinding) (delay attempt : Z) (e : E)
    : option bool * E :=
  match fuel with
  | O => (None, e)
  | S fuel =>
      let attempt := wadd32 attempt 1 in
      let '(result, e) := rebuild binding e in
      match result with
      | inl _ => (Some true, e)
      | inr error =>
          let e := publish (Recovering attempt delay error) e in
          let '(wake, e) := pause delay e in
          match wake with
          | NewerEvent => (Some false, e)
          | Slept | ChannelClosed => rebuild_with_retry fuel binding (next_delay delay) attempt e
          end
      end
  end.

Definition rescan_allowed (co : Coordinator) (e : E) : bool * E :=
  match last_rescan co with
  | None => (true, e)
  | Some at_ => let '(now, e) := instant_now e in (RECOVERY_RESCAN_MIN_INTERVAL <=? now - at_, e)
  end.

(** The rest of a change whose rebuild has succeeded. *)
Definition after_rebuild (binding : InterfaceBinding) (co : Coordinator) (e : E) : Coordinator * E :=
  let co := set_current (Some binding) co in
  let e := apply_interface_binding binding e in
  let '(target_verified, e) := verify e in
  let '(allowed, e) :=
    if negb target_verified && auto_select co then rescan_allowed co e else (false, e) in
  let '(target_switched, co, e) :=
    if allowed then
      let '(outcome, e) := rescan e in
      let '(now, e) := instant_now e in
      let co := set_last_rescan (Some now) co in
      let e := if (found outcome =? 0)
        then publish (Unavailable "recovery rescan found no reachable target") e else e in
      (switched outcome, co, e)
    else (false, co, e) in
  (co, publish (Recovered (ib_ip binding) target_verified target_switched) e).

Fixpoint handle_change (fuel : nat) (source : NetworkChangeSource) (co : Coordinator) (e : E)
    : bool * Coordinator * E :=
  match fuel with
  | O => (false, co, e)
  | S fuel =>
      let '(disconnected, e) := remote_disconnected e in
      if disconnected then
        (true, set_current None co, publish (Unavailable "root helper disconnected") e)
      else
      let '(raw, e) := load_target e in
      if raw =? 0 then (true, co, publish (Unavailable "no active target to probe") e) else
      let '(probed, e) := probe raw e in
      match probed with
      | inr error => (true, set_current None co, publish (Unavailable error) e)
      | inl binding =>
          if bool_decide (current co = Some binding) then
            (true, co, publish (Online (ib_ip binding)) e)
          else
          let e := publish (Changing (ib_ip binding) source) e in
          let '(rebuilt, e) := rebuild_with_retry fuel binding BACKOFF_INITIAL 0 e in
          match rebuilt with
          | None => (false, co, e)
          | Some false => handle_change fuel source co e
          | Some true => let '(co, e) := after_rebuild binding co e in (true, co, e)
          end
      end
  end.

Fixpoint run_events (fuel : nat) (co : Coordinator) (e : E) : bool * Coordinator * E :=
  match fuel with
  | O => (false, co, e)
  | S fuel =>
      let '(delivery, e) := next_event e in
      match delivery with
      | Closed => (true, co, e)
      | Changed _ | Lagged =>
          let source := match delivery with Changed s => s | _ => Poll end in
          let '(ended, co, e) := handle_change fuel source co e in
          if ended then run_events fuel co e else (false, co, e)
      end
  end.

Definition run (fuel : nat) (co : Coordinator) (e : E) : bool * Coordinator * E :=
  let e := match current co with Some binding => publish (Online (ib_ip binding)) e | None => e end in
  run_events fuel co e.
End coordinator.

(** ** The statuses outside *)
Inductive RuntimeEvent :=
  | NetworkUnavailable (message : string)
  | NetworkChanged (source : NetworkChangeSource) (interface_ip : string)
  | NetworkRecoveryFailed (attempt next_retry_ms : Z) (message : string)
  | NetworkRecovered (interface_ip : string) (target_verified target_switched : bool).

Definition runtime_event_for (status : NetworkStatus) : option RuntimeEvent :=
  match status with
  | Online _ => None
  | Unavailable message => Some (NetworkUnavailable message)
  | Changing interface_ip source => Some (NetworkChanged source (show_ipv4 interface_ip))
  | Recovering attempt next_retry_ms message =>
      Some (NetworkRecoveryFailed attempt next_retry_ms message)
  | Recovered interface_ip target_verified target_switched =>
      Some (NetworkRecovered (show_ipv4 interface_ip) target_verified target_switched)
  end.

Inductive ProxyNetworkStatus :=
  | PsOnline (interface_ip : Z) | PsChanging (interface_ip : Z)
  | PsRecovering (attempt : Z) | PsUnavailable (message : string).

Definition proxy_status_for (status : NetworkStatus) : option ProxyNetworkStatus :=
  match status with
  | Online interface_ip => Some (PsOnline interface_ip)
  | Unavailable message => Some (PsUnavailable message)
  | Changing interface_ip _ => Some (PsChanging interface_ip)
  | Recovering attempt _ _ => Some (PsRecovering attempt)
  | Recovered interface_ip _ _ => Some (PsOnline interface_ip)
  end.

(** ** [MainRecoveryEnv]

    Over the local plane.  [me_script] holds what the surroundings answer:
    the probe results, the chances of the rebuilds, the results of verify and
    rescan, the clock, and how the pauses end. *)
Record Script := MkScript {
  sc_targets : list Z;
  sc_probes : list (InterfaceBinding + string);
  sc_chances : list Chance;
  sc_verified : list bool;
  sc_rescans : list RescanOutcome;
  sc_clock : list Z;
  sc_wakes : list Wake;
  sc_events : list Delivery }.

Record MainEnv := MkMainEnv {
  me_cfg : Config;
  me_plane : Local;
  me_cell : BindingCell;
  me_runtime_events : list RuntimeEvent;
  me_proxy_events : list ProxyNetworkStatus;
  me_script : Script }.

Definition with_script (s : Script) (m : MainEnv) : MainEnv :=
  MkMainEnv (me_cfg m) (me_plane m) (me_cell m) (me_runtime_events m) (me_proxy_events m) s.

Definition main_publish (status : NetworkStatus) (m : MainEnv) : MainEnv :=
  MkMainEnv (me_cfg m) (me_plane m) (me_cell m)
    (me_runtime_events m ++ option_list (runtime_event_for status))
    (me_proxy_events m ++ option_list (proxy_status_for status)) (me_script m).

Definition main_rebuild (binding : InterfaceBinding) (m : MainEnv) : Result * MainEnv :=
  let s := me_script m in
  let c := default (MkChance None None None) (head (sc_chances s)) in
  let '(r, l) := rebuild_local (me_cfg m) binding c (me_plane m) in
  (r, MkMainEnv (me_cfg m) l (me_cell m) (me_runtime_events m) (me_proxy_events m)
        (MkScript (sc_targets s) (sc_probes s) (tail (sc_chances s)) (sc_verified s) (sc_rescans s)
           (sc_clock s) (sc_wakes s) (sc_events s))).

#[export] Instance main_env : RecoveryEnv MainEnv := {
  load_target m := let s := me_script m in (default 0 (head (sc_targets s)),
    with_script (MkScript (tail (sc_targets s)) (sc_probes s) (sc_chances s) (sc_verified s)
      (sc_rescans s) (sc_clock s) (sc_wakes s) (sc_events s)) m);
  probe _ m := let s := me_script m in (default (inr "no route"%string) (head (sc_probes s)),
    with_script (MkScript (sc_targets s) (tail (sc_probes s)) (sc_chances s) (sc_verified s)
      (sc_rescans s) (sc_clock s) (sc_wakes s) (sc_events s)) m);
  rebuild := main_rebuild;
  verify m := let s := me_script m in (default true (head (sc_verified s)),
    with_script (MkScript (sc_targets s) (sc_probes s) (sc_chances s) (tail (sc_verified s))
      (sc_rescans s) (sc_clock s) (sc_wakes s) (sc_events s)) m);
  rescan m := let s := me_script m in (default (MkRescanOutcome 0 false) (head (sc_rescans s)),
    with_script (MkScript (sc_targets s) (sc_probes s) (sc_chances s) (sc_verified s)
      (tail (sc_rescans s)) (sc_clock s) (sc_wakes s) (sc_events s)) m);
  apply_interface_binding binding m := MkMainEnv (me_cfg m) (me_plane m)
    (handle_set binding (me_cell m)) (me_runtime_events m) (me_proxy_events m) (me_script m);
  remote_disconnected m := (false, m);
  publish := main_publish;
  instant_now m := let s := me_script m in (default 0 (head (sc_clock s)),
    with_script (MkScript (sc_targets s) (sc_probes s) (sc_chances s) (sc_verified s)
      (sc_rescans s) (tail (sc_clock s)) (sc_wakes s) (sc_events s)) m);
  pause _ m := let s := me_script m in (default Slept (head (sc_wakes s)),
    with_script (MkScript (sc_targets s) (sc_probes s) (sc_chances s) (sc_verified s)
      (sc_rescans s) (sc_clock s) (tail (sc_wakes s)) (sc_events s)) m);
  next_event m := let s := me_script m in (default Closed (head (sc_events s)),
    with_script (MkScript (sc_targets s) (sc_probes s) (sc_chances s) (sc_verified s)
      (sc_rescans s) (sc_clock s) (sc_wakes s) (tail (sc_events s))) m) }.

(** ** Logged environments *)
Inductive Call :=
  | CTarget (raw : Z)
  | CProbe (target : Z) (r : InterfaceBinding + string)
  | CRebuild (binding : InterfaceBinding) (r : Result)
  | CVerify (verified : bool)
  | CRescan (outcome : RescanOutcome)
  | CApply (binding : InterfaceBinding)
  | CDisconnected (b : bool)
  | CPublish (status : NetworkStatus)
  | CNow (at_ : Z)
  | CPause (delay : Z) (wake : Wake)
  | CEvent (delivery : Delivery).

(** The answers of [E], and what was asked. *)
Record Traced (E : Type) := MkTraced { tr_env : E; tr_log : list Call }.
Arguments MkTraced {E}.
Arguments tr_env {E}.
Arguments tr_log {E}.

Definition ask {E A} (r : A * E) (c : A → Call) (log : list Call) : A * Traced E :=
  (r.1, MkTraced r.2 (log ++ [c r.1])).

#[export] Instance traced `{RecoveryEnv E} : RecoveryEnv (Traced E) := {
  load_target t := ask (load_target (tr_env t)) CTarget (tr_log t);
  probe target t := ask (probe target (tr_env t)) (CProbe target) (tr_log t);
  rebuild b t := ask (rebuild b (tr_env t)) (CRebuild b) (tr_log t);
  verify t := ask (verify (tr_env t)) CVerify (tr_log t);
  rescan t := ask (rescan (tr_env t)) CRescan (tr_log t);
  apply_interface_binding b t :=
    MkTraced (apply_interface_binding b (tr_env t)) (tr_log t ++ [CApply b]);
  remote_disconnected t := ask (remote_disconnected (tr_env t)) CDisconnected (tr_log t);
  publish st t := MkTraced (publish st (tr_env t)) (tr_log t ++ [CPublish st]);
  instant_now t := ask (instant_now (tr_env t)) CNow (tr_log t);
  pause d t := ask (pause d (tr_env t)) (CPause d) (tr_log t);
  next_event t := ask (next_event (tr_env t)) CEvent (tr_log t) }.

(** ** The back-off *)

(** The delay after [i] failures: doubled each time, at most a minute. *)
Definition delay_at (i : nat) : Z := (BACKOFF_INITIAL * 2 ^ Z.of_nat i) `min` BACKOFF_MAX.

(** The calls of the failed attempts number [i], [i+1], ... *)
Fixpoint failed_attempts (b : InterfaceBinding) (i : nat) (fails : list (string * Wake)) : list Call :=
  match fails with
  | [] => []
  | (error, wake) :: fails =>
      CRebuild b (inr error)
        :: CPublish (Recovering (as_u32 (Z.of_nat (S i))) (delay_at i) error)
        :: CPause (delay_at i) wake
        :: failed_attempts b (S i) fails
  end.

Definition undisturbed (fails : list (string * Wake)) : Prop :=
  Forall (λ f, f.2 ≠ NewerEvent) fails.

Lemma next_delay_at i : next_delay (delay_at i) = delay_at (S i).
Proof.
  unfold next_delay, delay_at, BACKOFF_INITIAL, BACKOFF_MAX.
  rewrite Nat2Z.inj_succ, Z.pow_succ_r by lia. lia.
Qed.

Lemma wadd32_succ i : wadd32 (as_u32 (Z.of_nat i)) 1 = as_u32 (Z.of_nat (S i)).
Proof. unfold wadd32, as_u32. rewrite Zplus_mod_idemp_l. f_equal. lia. Qed.

Section backoff.
Context `{RecoveryEnv E}.

Lemma retry_calls fuel b i (t : Traced E) :
  let '(r, t') := rebuild_with_retry fuel b (delay_at i) (as_u32 (Z.of_nat i)) t in
  ∃ fails last_calls,
    tr_log t' = tr_log t ++ failed_attempts b i fails ++ last_calls ∧ undisturbed fails ∧
    match r with
    | Some true => length fails < fuel ∧ last_calls = [CRebuild b (inl ())]
    | Some false => length fails < fuel ∧ ∃ error,
        last_calls = failed_attempts b (i + length fails) [(error, NewerEvent)]
    | None => length fails = fuel ∧ last_calls = []
    end%nat.
Proof.
  revert i t. induction fuel as [|fuel IH]; intros i t.
  { exists [], []. split; [by rewrite app_nil_r|]. by split; [constructor|]. }
  cbn [rebuild_with_retry]. rewrite wadd32_succ.
  change (rebuild b t) with (ask (rebuild b (tr_env t)) (CRebuild b) (tr_log t)).
  destruct (rebuild b (tr_env t)) as [[[]|error] e1]; unfold ask; cbn [fst snd].
  { exists [], [CRebuild b (inl ())]. split; [done|]. split; [constructor|]. split; [simpl; lia|done]. }
  cbn [publish traced tr_log tr_env].
  cbn [pause traced tr_log tr_env]. unfold ask. destruct (pause (delay_at i) _) as [wake e2]. cbn [fst snd].
  assert (wake = NewerEvent ∨ wake ≠ NewerEvent) as [->|Hw] by (destruct wake; auto; by right).
  { exists [], (failed_attempts b i [(error, NewerEvent)]). cbn [tr_log]. split; [by rewrite <-!app_assoc|].
    split; [constructor|]. split; [simpl; lia|]. exists error. by rewrite Nat.add_0_r. }
  rewrite next_delay_at.
  set (t1 := MkTraced e2 _). specialize (IH (S i) t1).
  replace (match wake with NewerEvent => (Some false, t1) | _ =>
    rebuild_with_retry fuel b (delay_at (S i)) (as_u32 (Z.of_nat (S i))) t1 end)
    with (rebuild_with_retry fuel b (delay_at (S i)) (as_u32 (Z.of_nat (S i))) t1) by by destruct wake.
  destruct (rebuild_with_retry fuel b (delay_at (S i)) _ t1) as [r t'].
  destruct IH as (fails & calls & Hlog & Hu & Hr). exists ((error, wake) :: fails), calls.
  split; [rewrite Hlog; unfold t1; cbn [tr_log failed_attempts]; by rewrite <-!app_assoc|].
  split; [by constructor|]. cbn [length]. destruct r as [[]|].
  - destruct Hr as [? ->]. split; [lia|done].
  - destruct Hr as [? [err ->]]. split; [lia|]. exists err. by replace (i + S (length fails))%nat with (S i + length fails)%nat by lia.
  - destruct Hr as [<- ->]. done.
Qed.

(** (C4) Rebuilding with retries, in every environment: one attempt after
    the other, each failure published under its number with the delay that is
    then waited for: 1, 2, 4, ... seconds, at most 60.  It returns true at the
    first success, false at the first newer event, and is still running only
    if as many attempts have failed as it had fuel for. *)
Theorem rebuild_backoff fuel b (t : Traced E) :
  let '(r, t') := rebuild_with_retry fuel b BACKOFF_INITIAL 0 t in
  ∃ fails last_calls,
    tr_log t' = tr_log t ++ failed_attempts b 0 fails ++ last_calls ∧ undisturbed fails ∧
    match r with
    | Some true => length fails < fuel ∧ last_calls = [CRebuild b (inl ())]
    | Some false => length fails < fuel ∧ ∃ error,
        last_calls = failed_attempts b (length fails) [(error, NewerEvent)]
    | None => length fails = fuel ∧ last_calls = []
    end%nat.
Proof. exact (retry_calls fuel b 0 t). Qed.
End backoff.

(** ** What a log shows *)

(** The plane after the last rebuild ([None]: it failed), the content of the
    binding cell, the last verification, the clock, and when the last rescan
    was stamped ([v_stamp]: its stamp is still to come). *)
Record View := MkView {
  v_plane : option InterfaceBinding;
  v_cell : option InterfaceBinding;
  v_verified : option bool;
  v_clock : option Z;
  v_rescanned : option Z;
  v_stamp : bool }.

Definition view_start (initial : option InterfaceBinding) : View :=
  MkView initial initial None None None false.

Definition see (v : View) (c : Call) : View :=
  match c with
  | CRebuild b r => MkView (match r with inl _ => Some b | inr _ => None end)
      (v_cell v) None (v_clock v) (v_rescanned v) (v_stamp v)
  | CApply b => MkView (v_plane v) (Some b) (v_verified v) (v_clock v) (v_rescanned v) (v_stamp v)
  | CVerify x => MkView (v_plane v) (v_cell v) (Some x) None (v_rescanned v) (v_stamp v)
  | CRescan _ => MkView (v_plane v) (v_cell v) (v_verified v) (v_clock v) (v_rescanned v) true
  | CNow t => MkView (v_plane v) (v_cell v) (v_verified v) (Some t)
      (if v_stamp v then Some t else v_rescanned v) false
  | _ => v
  end.

(** What may come next. *)
Definition allowed (auto : bool) (v : View) (c : Call) : Prop :=
  match c with
  | CApply b => v_plane v = Some b
  | CRescan _ => auto = true ∧ v_verified v = Some false ∧ v_stamp v = false ∧
      ∀ t0, v_rescanned v = Some t0 → ∃ t, v_clock v = Some t ∧ RECOVERY_RESCAN_MIN_INTERVAL ≤ t - t0
  | CPublish (Recovered ip verified _) => ∃ b, v_plane v = Some b ∧ v_cell v = Some b ∧
      ib_ip b = ip ∧ v_verified v = Some verified
  | CPublish (Online ip) => ∃ b, v_cell v = Some b ∧ ib_ip b = ip ∧
      (v_plane v = Some b ∨ v_plane v = None)
  | _ => True
  end.

Definition view (initial : option InterfaceBinding) (log : list Call) : View :=
  foldl see (view_start initial) log.
Definition lawful (auto : bool) (initial : option InterfaceBinding) (log : list Call) : Prop :=
  each_allowed (λ pre, allowed auto (view initial pre)) log.

Lemma view_snoc initial log c : view initial (log ++ [c]) = see (view initial log) c.
Proof. unfold view. by rewrite foldl_app. Qed.

Lemma lawful_snoc auto initial log c : lawful auto initial log →
  allowed auto (view initial log) c → lawful auto initial (log ++ [c]).
Proof. intros. by apply each_allowed_snoc. Qed.

(** The coordinator at rest knows the plane it has applied, and at most a
    failed rebuild since then has taken it down. *)
Definition tied (co : Coordinator) (v : View) : Prop :=
  (∀ b, current co = Some b → v_cell v = Some b ∧ (v_plane v = Some b ∨ v_plane v = None)) ∧
  v_rescanned v = last_rescan co ∧ v_stamp v = false.

Section safety.
Context `{RecoveryEnv E} (auto : bool) (initial : option InterfaceBinding).
Implicit Types (t : Traced E) (co : Coordinator).

Definition good co t : Prop :=
  auto_select co = auto ∧ lawful auto initial (tr_log t) ∧ tied co (view initial (tr_log t)).

(** A call that changes nothing the coordinator relies on. *)
Definition neutral (c : Call) : Prop :=
  match c with CTarget _ | CProbe _ _ | CDisconnected _ | CPause _ _ | CEvent _ => True
  | CPublish st => match st with Online _ | Recovered _ _ _ => False | _ => True end
  | _ => False end.

Lemma good_neutral co t e c : good co t → neutral c → good co (MkTraced e (tr_log t ++ [c])).
Proof.
  intros (Ha & Hl & Ht) Hn. split; [done|]. cbn [tr_log]. rewrite view_snoc. split.
  - apply lawful_snoc; [done|]. destruct c as [| | | | | | |st| | |]; try done. by destruct st.
  - by replace (see (view initial (tr_log t)) c) with (view initial (tr_log t)) by by destruct c.
Qed.

Lemma good_forget co t : good co t → good (set_current None co) t.
Proof. intros (Ha & Hl & _ & Hr). by split_and!. Qed.

Lemma good_retry fuel b delay attempt co t : good co t →
  let '(r, t') := rebuild_with_retry fuel b delay attempt t in
  auto_select co = auto ∧ lawful auto initial (tr_log t') ∧
  let v := view initial (tr_log t') in
  v_cell v = v_cell (view initial (tr_log t)) ∧ v_rescanned v = last_rescan co ∧ v_stamp v = false ∧
  match r with
  | Some true => v_plane v = Some b
  | _ => v_plane v = None ∨ v_plane v = v_plane (view initial (tr_log t))
  end.
Proof.
  revert delay attempt co t. induction fuel as [|fuel IH]; intros delay attempt co t Hg.
  { destruct Hg as (Ha & Hl & _ & Hr & Hs). cbn. auto 10. }
  cbn [rebuild_with_retry].
  change (rebuild b t) with (ask (rebuild b (tr_env t)) (CRebuild b) (tr_log t)).
  destruct Hg as (Ha & Hl & Hc & Hr & Hs).
  destruct (rebuild b (tr_env t)) as [[[]|error] e1]; unfold ask; cbn [fst snd].
  { cbn [tr_log]. rewrite view_snoc. split_and!; try done. by apply lawful_snoc. }
  cbn [publish pause traced tr_log tr_env]. unfold ask. destruct (pause delay _) as [wake e2]. cbn [fst snd].
  assert (good (set_current None co) (MkTraced e2 (((tr_log t ++ [CRebuild b (inr error)]) ++
    [CPublish (Recovering (wadd32 attempt 1) delay error)]) ++ [CPause delay wake]))) as Hg.
  { do 2 (apply (good_neutral (set_current None co) (MkTraced e2 _)); [|done]).
    split; [done|]. cbn [tr_log]. rewrite view_snoc. split; [by apply lawful_snoc|]. by split_and!. }
  set (t1 := MkTraced e2 _) in *.
  assert (v_cell (view initial (tr_log t1)) = v_cell (view initial (tr_log t)) ∧
    v_plane (view initial (tr_log t1)) = None) as [Hc1 Hp1]
    by (unfold t1; cbn [tr_log]; by rewrite !view_snoc).
  destruct wake.
  2: { destruct Hg as (? & ? & ? & ? & ?). rewrite Hc1, Hp1. auto 10. }
  all: specialize (IH (next_delay delay) (wadd32 attempt 1) (set_current None co) t1 Hg);
    destruct (rebuild_with_retry _ _ _ _ t1) as [r t']; rewrite Hc1, Hp1 in IH;
    cbn [set_current auto_select last_rescan] in IH;
    destruct IH as (? & ? & ? & ? & ? & ?); split_and!; try done; destruct r as [[]|]; naive_solver.
Qed.

(** The plane, the cell and the coordinator agree after a rebuild. *)
Definition settled_on (b : InterfaceBinding) (v : View) : Prop :=
  v_plane v = Some b ∧ v_cell v = Some b.

(** The view after the rebuild and the verification. *)
Definition verified_view (b : InterfaceBinding) (verified : bool) (clock at_ : option Z) : View :=
  MkView (Some b) (Some b) (Some verified) clock at_ false.

Lemma good_finish b verified sw clock co e log : auto_select co = auto → current co = Some b →
  lawful auto initial log → view initial log = verified_view b verified clock (last_rescan co) →
  let t' := publish (Recovered (ib_ip b) verified sw) (MkTraced e log) in
  good co t' ∧ settled_on b (view initial (tr_log t')) ∧ current co = Some b.
Proof.
  intros Ha Hc Hl Hv. cbn [publish traced tr_log].
  assert (see (view initial log) (CPublish (Recovered (ib_ip b) verified sw)) = view initial log) as Hsee by done.
  unfold good, settled_on, tied. cbn [tr_log]. rewrite view_snoc, Hsee, Hv. cbn.
  split_and!; try done.
  - apply lawful_snoc; [done|]. rewrite Hv. cbn. by exists b.
  - intros b' Hb'. rewrite Hc in Hb'. injection Hb' as <-. auto.
Qed.

Lemma good_rescan b clock co e log : auto = true → auto_select co = auto → lawful auto initial log →
  view initial log = verified_view b false clock (last_rescan co) →
  (∀ at0 : Z, last_rescan co = Some at0 →
    ∃ at1 : Z, clock = Some at1 ∧ RECOVERY_RESCAN_MIN_INTERVAL ≤ at1 - at0) →
  let '(outcome, t3) := rescan (MkTraced e log) in
  let '(now, t4) := instant_now t3 in
  let co' := set_last_rescan (Some now) (set_current (Some b) co) in
  let t5 := if found outcome =? 0 then
    publish (Unavailable "recovery rescan found no reachable target") t4 else t4 in
  let t6 := publish (Recovered (ib_ip b) false (switched outcome)) t5 in
  good co' t6 ∧ settled_on b (view initial (tr_log t6)) ∧ current co' = Some b.
Proof.
  intros Hauto Ha Hl Hv Hgap. cbn [rescan instant_now traced tr_log tr_env]. unfold ask.
  destruct (rescan e) as [outcome e3]. cbn [fst snd tr_env tr_log].
  destruct (instant_now e3) as [now e4]. cbn [fst snd].
  assert (lawful auto initial ((log ++ [CRescan outcome]) ++ [CNow now])) as Hl4.
  { apply lawful_snoc; [|done]. apply lawful_snoc; [done|]. rewrite Hv. by split_and!. }
  assert (view initial ((log ++ [CRescan outcome]) ++ [CNow now]) =
    verified_view b false (Some now) (Some now)) as Hv4 by (by rewrite !view_snoc, Hv).
  destruct (found outcome =? 0).
  - cbn [publish traced tr_log]. apply good_finish with (clock := Some now); try done.
    + by apply lawful_snoc.
    + by rewrite view_snoc, Hv4.
  - by apply good_finish with (clock := Some now).
Qed.

Lemma good_after_rebuild b co t : auto_select co = auto → lawful auto initial (tr_log t) →
  let v := view initial (tr_log t) in
  v_plane v = Some b → v_rescanned v = last_rescan co → v_stamp v = false →
  let '(co', t') := after_rebuild b co t in
  good co' t' ∧ settled_on b (view initial (tr_log t')) ∧ current co' = Some b.
Proof.
  intros Ha Hl v Hp Hr Hs. unfold after_rebuild.
  cbn [apply_interface_binding verify traced tr_log tr_env]. unfold ask.
  destruct (verify _) as [verified e1]. cbn [fst snd].
  assert (lawful auto initial ((tr_log t ++ [CApply b]) ++ [CVerify verified])) as Hl2
    by (apply lawful_snoc; [by apply lawful_snoc|done]).
  set (t2 := MkTraced e1 _).
  assert (view initial (tr_log t2) = verified_view b verified None (last_rescan co)) as Hv2.
  { unfold t2. cbn [tr_log]. rewrite !view_snoc. fold v. unfold see, verified_view. cbn. by rewrite Hp, Hr, Hs. }
  destruct (negb verified && auto_select (set_current (Some b) co)) eqn:Eg.
  2: { by apply good_finish with (clock := None). }
  apply andb_prop in Eg as [Hver%negb_true_iff Hauto]. subst verified. cbn [auto_select set_current] in Hauto.
  unfold rescan_allowed. cbn [last_rescan set_current].
  destruct (last_rescan co) as [at0|] eqn:El.
  - change (instant_now t2) with (ask (instant_now e1) CNow (tr_log t2)).
    destruct (instant_now e1) as [now e2]. unfold ask. cbn [fst snd].
    assert (lawful auto initial (tr_log t2 ++ [CNow now])) as Hl3 by by apply lawful_snoc.
    assert (view initial (tr_log t2 ++ [CNow now]) = verified_view b false (Some now) (last_rescan co)) as Hv3
      by (by rewrite view_snoc, Hv2, El).
    destruct (Z.leb_spec RECOVERY_RESCAN_MIN_INTERVAL (now - at0)).
    + pose proof (good_rescan b (Some now) co e2 _ (eq_trans (eq_sym Ha) Hauto) Ha Hl3 Hv3) as Hscan.
      destruct (rescan _) as [outcome t3]. destruct (instant_now t3) as [now' t4]. apply Hscan.
      rewrite El. intros ? [= <-]. eauto.
    + by apply good_finish with (clock := Some now).
  - pose proof (good_rescan b None co e1 _ (eq_trans (eq_sym Ha) Hauto) Ha Hl2) as Hscan.
    fold t2 in Hscan. destruct (rescan t2) as [outcome t3].
    destruct (instant_now t3) as [now' t4]. apply Hscan; [rewrite El; exact Hv2|by rewrite El].
Qed.

Lemma good_change fuel source co t : good co t →
  let '(ended, co', t') := handle_change fuel source co t in
  auto_select co' = auto ∧ lawful auto initial (tr_log t') ∧ (ended = true → good co' t').
Proof.
  revert co t. induction fuel as [|fuel IH]; intros co t Hg.
  { cbn. destruct Hg as (? & ? & ?). by split_and!. }
  assert (∀ co t, good co t → auto_select co = auto ∧ lawful auto initial (tr_log t) ∧ (true = true → good co t))
    as Hend by (intros ? ? Hg'; split_and!; [apply Hg'|apply Hg'|done]).
  cbn [handle_change].
  change (remote_disconnected t) with (ask (remote_disconnected (tr_env t)) CDisconnected (tr_log t)).
  destruct (remote_disconnected (tr_env t)) as [disc e1]. unfold ask. cbn [fst snd].
  pose proof (good_neutral co t e1 (CDisconnected disc) Hg I) as Hg1. set (t1 := MkTraced e1 _) in *.
  destruct disc. { apply Hend. apply (good_neutral _ t1); [by apply good_forget|done]. }
  change (load_target t1) with (ask (load_target e1) CTarget (tr_log t1)).
  destruct (load_target e1) as [raw e2]. unfold ask. cbn [fst snd].
  pose proof (good_neutral co t1 e2 (CTarget raw) Hg1 I) as Hg2. set (t2 := MkTraced e2 _) in *.
  destruct (raw =? 0). { apply Hend. by apply (good_neutral _ t2). }
  change (probe raw t2) with (ask (probe raw e2) (CProbe raw) (tr_log t2)).
  destruct (probe raw e2) as [probed e3]. unfold ask. cbn [fst snd].
  pose proof (good_neutral co t2 e3 (CProbe raw probed) Hg2 I) as Hg3. set (t3 := MkTraced e3 _) in *.
  destruct probed as [b|error].
  2: { apply Hend. apply (good_neutral _ t3); [by apply good_forget|done]. }
  case_bool_decide as Hcur.
  - apply Hend. destruct Hg3 as (Ha & Hl & Ht). cbn [publish traced]. split; [done|]. cbn [tr_log].
    assert (lawful auto initial (tr_log t3 ++ [CPublish (Online (ib_ip b))])) as Hl'.
    { apply lawful_snoc; [done|]. exists b. destruct Ht as [Ht _]. by destruct (Ht b Hcur). }
    rewrite view_snoc. by split.
  - pose proof (good_neutral co t3 (publish (Changing (ib_ip b) source) e3)
      (CPublish (Changing (ib_ip b) source)) Hg3 I) as Hg4.
    change (publish (Changing (ib_ip b) source) t3) with (MkTraced (publish (Changing (ib_ip b) source) e3)
      (tr_log t3 ++ [CPublish (Changing (ib_ip b) source)])).
    set (t4 := MkTraced _ (tr_log t3 ++ _)) in *. change (MkTraced _ (tr_log t3 ++ _)) with t4.
    pose proof (good_retry fuel b BACKOFF_INITIAL 0 co t4 Hg4) as Hr.
    destruct (rebuild_with_retry fuel b BACKOFF_INITIAL 0 t4) as [r t5].
    destruct Hr as (Ha & Hl & Hcell & Hres & Hst & Hplane).
    destruct r as [[]|]; [|apply IH|by auto].
    + pose proof (good_after_rebuild b co t5 Ha Hl Hplane Hres Hst) as Hf.
      destruct (after_rebuild b co t5) as [co' t6]. apply Hend. by destruct Hf.
    + destruct Hg4 as (_ & _ & Ht & _). split_and!; [done..|].
      split; [|done]. intros b' Hb'. rewrite Hcell. destruct (Ht b' Hb') as [Hc Hp]. split; [done|].
      destruct Hplane as [-> | ->]; [by right|done].
Qed.

Lemma good_events fuel co t : good co t →
  let '(ended, co', t') := run_events fuel co t in
  lawful auto initial (tr_log t') ∧ (ended = true → tied co' (view initial (tr_log t'))).
Proof.
  revert co t. induction fuel as [|fuel IH]; intros co t Hg; [by destruct Hg as (? & ? & ?)|].
  cbn [run_events].
  change (next_event t) with (ask (next_event (tr_env t)) CEvent (tr_log t)).
  destruct (next_event (tr_env t)) as [d e1]. unfold ask. cbn [fst snd].
  pose proof (good_neutral co t e1 (CEvent d) Hg I) as Hg1. set (t1 := MkTraced e1 _) in *.
  destruct d as [source| |]; [| |by destruct Hg1 as (? & ? & ?)].
  - pose proof (good_change fuel source co t1 Hg1) as Hc.
    destruct (handle_change fuel source co t1) as [[[] co'] t2]; destruct Hc as (_ & Hl & Hc); [by apply IH, Hc|done].
  - pose proof (good_change fuel Poll co t1 Hg1) as Hc.
    destruct (handle_change fuel Poll co t1) as [[[] co'] t2]; destruct Hc as (_ & Hl & Hc); [by apply IH, Hc|done].
Qed.
End safety.


(** ** Invariants of an environment *)
Section preserves.
Context `{RecoveryEnv E} (Inv : E → Prop).
Context (Hload : ∀ e, Inv e → Inv (load_target e).2) (Hprobe : ∀ x e, Inv e → Inv (probe x e).2)
  (Hrebuild : ∀ b e, Inv e → Inv (rebuild b e).2) (Hverify : ∀ e, Inv e → Inv (verify e).2)
  (Hrescan : ∀ e, Inv e → Inv (rescan e).2) (Happly : ∀ b e, Inv e → Inv (apply_interface_binding b e))
  (Hdisc : ∀ e, Inv e → Inv (remote_disconnected e).2) (Hpublish : ∀ s e, Inv e → Inv (publish s e))
  (Hnow : ∀ e, Inv e → Inv (instant_now e).2) (Hpause : ∀ d e, Inv e → Inv (pause d e).2)
  (Hnext : ∀ e, Inv e → Inv (next_event e).2).

Lemma retry_preserves fuel b delay attempt e : Inv e → Inv (rebuild_with_retry fuel b delay attempt e).2.
Proof.
  revert delay attempt e. induction fuel as [|fuel IH]; intros delay attempt e He; [done|].
  cbn [rebuild_with_retry]. specialize (Hrebuild b e He). destruct (rebuild b e) as [[[]|error] e1]; [done|].
  specialize (Hpause delay _ (Hpublish (Recovering (wadd32 attempt 1) delay error) _ Hrebuild)).
  destruct (pause delay _) as [[] e2]; auto.
Qed.

Lemma after_rebuild_preserves b co e : Inv e → Inv (after_rebuild b co e).2.
Proof.
  intros He. unfold after_rebuild. specialize (Hverify _ (Happly b e He)).
  destruct (verify _) as [verified e1]. cbn [snd] in Hverify. destruct (negb verified && _); [|by apply Hpublish].
  assert (Inv (rescan_allowed (set_current (Some b) co) e1).2) as Ha.
  { unfold rescan_allowed. destruct (last_rescan _); [|done]. specialize (Hnow e1 Hverify).
    by destruct (instant_now e1). }
  destruct (rescan_allowed _ e1) as [[] e2]; [|by apply Hpublish]. cbn [snd] in Ha.
  specialize (Hrescan e2 Ha). destruct (rescan e2) as [outcome e3]. cbn [snd] in Hrescan.
  specialize (Hnow e3 Hrescan). destruct (instant_now e3) as [now e4]. cbn [snd] in Hnow |- *.
  apply Hpublish. destruct (found outcome =? 0); auto.
Qed.

Lemma change_preserves fuel source co e : Inv e → Inv (handle_change fuel source co e).2.
Proof.
  revert co e. induction fuel as [|fuel IH]; intros co e He; [done|]. cbn [handle_change].
  specialize (Hdisc e He). destruct (remote_disconnected e) as [[] e1]; cbn [snd] in *; [by apply Hpublish|].
  specialize (Hload e1 Hdisc). destruct (load_target e1) as [raw e2]. cbn [snd] in *.
  destruct (raw =? 0); [by apply Hpublish|]. specialize (Hprobe raw e2 Hload).
  destruct (probe raw e2) as [[b|error] e3]; cbn [snd] in *; [|by apply Hpublish].
  case_bool_decide; [by apply Hpublish|].
  pose proof (retry_preserves fuel b BACKOFF_INITIAL 0 _ (Hpublish (Changing (ib_ip b) source) _ Hprobe)) as Hr.
  destruct (rebuild_with_retry _ _ _ _ _) as [[[]|] e4]; cbn [snd] in *; [|by apply IH|done].
  pose proof (after_rebuild_preserves b co e4 Hr) as Ha. by destruct (after_rebuild b co e4).
Qed.

Lemma run_preserves fuel co e : Inv e → Inv (run fuel co e).2.
Proof.
  intros He. unfold run. set (e0 := match current co with Some b => _ | None => e end).
  assert (Inv e0) as He0 by (unfold e0; destruct (current co); auto). clearbody e0. clear e He.
  revert co e0 He0. induction fuel as [|fuel IH]; intros co e He; [done|]. cbn [run_events].
  specialize (Hnext e He). destruct (next_event e) as [d e1]. cbn [snd] in *.
  destruct d as [source| |]; [| |done].
  - pose proof (change_preserves fuel source co e1 Hnext) as Hc.
    destruct (handle_change fuel source co e1) as [[[] co'] e2]; auto.
  - pose proof (change_preserves fuel Poll co e1 Hnext) as Hc.
    destruct (handle_change fuel Poll co e1) as [[[] co'] e2]; auto.
Qed.
End preserves.

(** ** Recovery over the local plane *)

(** The plane holds a thread that was opened with the filter of [b] and has
    not been asked to stop; every other thread is confirmed to be gone. *)
Definition serves (cfg : Config) (l : Local) (b : InterfaceBinding) : Prop :=
  ∃ i t, DataPlane.current (lo_plane l) = Some i ∧ lo_threads l !! i = Some t ∧
    t_filter t = interceptor_filter cfg b ∧ t_requested t = false ∧
    ∀ j t', lo_threads l !! j = Some t' → j ≠ i → confirmed t'.

(** The log of the coordinator and the plane. *)
Definition mirrored (initial : option InterfaceBinding) (t : Traced MainEnv) : Prop :=
  let m := tr_env t in
  local_ok (me_plane m) ∧
  (∀ b, v_plane (view initial (tr_log t)) = Some b → serves (me_cfg m) (me_plane m) b) ∧
  bc_value (me_cell m) = default (bc_value (me_cell m)) (v_cell (view initial (tr_log t))).

Lemma serves_opened cfg l b olds : local_ok l →
  lo_threads l = olds ++ [MkThread (interceptor_filter cfg b) false None] → serves cfg l b.
Proof.
  intros Hl Ht. set (t := MkThread (interceptor_filter cfg b) false None) in *.
  assert (lo_threads l !! length olds = Some t) as Hi by (by rewrite Ht, list_lookup_middle).
  assert (DataPlane.current (lo_plane l) = Some (length olds)) as Hc.
  { destruct (decide (DataPlane.current (lo_plane l) = Some (length olds))) as [|Hn]; [done|].
    by apply (lo_others l Hl _ _ Hi) in Hn. }
  exists (length olds), t. split_and!; try done.
  intros j t' Hj Hne. apply (lo_others l Hl j t' Hj). rewrite Hc. congruence.
Qed.

(** A call that concerns neither the plane nor the cell. *)
Lemma mirrored_call initial t m' c : mirrored initial t →
  me_cfg m' = me_cfg (tr_env t) → me_plane m' = me_plane (tr_env t) → me_cell m' = me_cell (tr_env t) →
  (∀ v, v_plane (see v c) = v_plane v ∧ v_cell (see v c) = v_cell v) →
  mirrored initial (MkTraced m' (tr_log t ++ [c])).
Proof.
  intros (Hl & Hs & Hc) H1 H2 H3 Hv. unfold mirrored. cbn [tr_env tr_log]. rewrite view_snoc, H1, H2, H3.
  by destruct (Hv (view initial (tr_log t))) as [-> ->].
Qed.

Lemma mirrored_rebuild initial b t : mirrored initial t → mirrored initial (rebuild b t).2.
Proof.
  intros (Hl & _ & Hc). cbn [rebuild traced main_env]. unfold ask, main_rebuild, mirrored. cbn [snd tr_env tr_log].
  set (c := default _ (head _)). pose proof (rebuild_spec (me_cfg (tr_env t)) b c _ Hl) as Hr.
  destruct (rebuild_local (me_cfg (tr_env t)) b c (me_plane (tr_env t))) as [r l].
  cbn [fst snd me_plane me_cfg me_cell]. rewrite view_snoc. destruct Hr as (Hl' & _ & Hok & _).
  split; [done|]. cbn [see v_plane v_cell]. split; [|done]. intros b' Hb'.
  destruct r as [u|e]; [|done]. injection Hb' as <-. destruct (Hok eq_refl) as (_ & olds & Ht & _).
  by eapply serves_opened.
Qed.

(** Composition of the coordinator with the local data plane, whatever
    the network and the platform do: whenever the last
    rebuild succeeded, the plane is in charge of an interceptor that was opened
    with the filter of exactly that address and not asked to stop, every other
    interceptor is confirmed to be gone, and the proxy's cell holds the binding
    that was applied last. *)
Theorem recovery_mirrors fuel auto initial (m : MainEnv) :
  local_ok (me_plane m) → (∀ b, initial = Some b → serves (me_cfg m) (me_plane m) b) →
  (∀ b, initial = Some b → bc_value (me_cell m) = b) →
  mirrored initial (run fuel (MkCoordinator auto initial None) (MkTraced m [])).2.
Proof.
  intros Hl Hs Hc. apply run_preserves.
  all: try (by intros; apply mirrored_call).
  - intros b t. apply mirrored_rebuild.
  - intros b t (H1 & H2 & H3). unfold mirrored. cbn [tr_env tr_log apply_interface_binding traced].
    by rewrite view_snoc.
  - split; [done|]. cbn. split; [done|]. destruct initial as [b|]; [|done]. by rewrite (Hc b).
Qed.

(** ** Examples *)
Module Sample.
Import DataPlane.Sample.
Definition env (s : Script) : MainEnv :=
  MkMainEnv wrong_md5_config started (interface_binding_channel wifi) [] [] s.
Definition co : Coordinator := MkCoordinator true (Some wifi) None.

(** A move to another interface that works at the second attempt. *)
Definition moving : Script :=
  MkScript [16843009] [inl lte] [still_busy; ends_well] [true] [] [] [Slept] [Changed Address].

(** The address goes away and comes back while the interceptor cannot be
    opened on the new one. *)
Definition flapping : Script :=
  MkScript [16843009; 16843009] [inl lte; inl wifi]
    [MkChance (Some "no such interface"%string) None (Some (Reported (inl ())))] [] [] []
    [NewerEvent] [Changed Address].

Definition outcome (s : Script) : list ProxyNetworkStatus * list (Z * bool) :=
  let m := (run 9 co (env s)).2 in
  (me_proxy_events m,
   map (λ t, (fs_interface_ip (t_filter t), live t)) (lo_threads (me_plane m))).
End Sample.

Example moving_recovers : Sample.outcome Sample.moving =
  ([PsOnline 167772161; PsChanging 167772162; PsRecovering 1; PsOnline 167772162],
   [(167772161, false); (167772162, true)]).
Proof. vm_compute. reflexivity. Qed.

(** The coordinator reports "online" although the interceptor has been stopped
    and none was opened since: [current] still names the old binding when the
    rebuild for the new one has failed and a newer event brings the old one
    back. *)
Lemma online_without_interceptor : Sample.outcome Sample.flapping =
  ([PsOnline 167772161; PsChanging 167772162; PsRecovering 1; PsOnline 167772161],
   [(167772161, false)]).
Proof. vm_compute. reflexivity. Qed.

Lemma started_serves : serves wrong_md5_config DataPlane.Sample.started DataPlane.Sample.wifi.
Proof.
  exists 0%nat, (MkThread (interceptor_filter wrong_md5_config DataPlane.Sample.wifi) false None).
  split_and!; try (vm_compute; reflexivity). intros [|j] t' Hj Hne; [done|]. by destruct j.
Qed.

Lemma recovery_mirrors_witness :
  local_ok DataPlane.Sample.started ∧
  mirrored (Some DataPlane.Sample.wifi)
    (run 9 Sample.co (MkTraced (Sample.env Sample.moving) [])).2.
Proof.
  assert (local_ok DataPlane.Sample.started) as Hl.
  { apply (local_start_ok wrong_md5_config new_flow_table DataPlane.Sample.wifi DataPlane.Sample.still_busy).
    vm_compute. reflexivity. }
  split; [exact Hl|].
  apply (recovery_mirrors 9 true (Some DataPlane.Sample.wifi) (Sample.env Sample.moving)).
  - exact Hl.
  - intros b [= <-]. exact started_serves.
  - intros b [= <-]. reflexivity.
Defined.
