(* ===== verification/Events.v ===== *)
(** * The proxy's event channel

    Model of [crates/zerodpi-core/src/proxy/events.rs] (and the events of
    [proxy.rs]): lifecycle events are queued, the progress of the relays is
    sampled by the receiver from counters the relays share with a registry.  A
    counter pair behind an [Arc] is a cell; a [RelayRegistration] holds its
    address.  Instants are nanoseconds and never go back. *)
From stdpp Require Import base list numbers strings gmap.
From Stdlib Require Import ZArith Lia Sorted.
From S2P Require Import Prelude NetAddr Flow Config Recovery Socket.
Local Open Scope nat_scope.
Local Open Scope list_scope.

Definition PROGRESS_INTERVAL : Z := 500 * 1000000.

(** ** Events *)
Record RelayProgress := MkProgress { rp_src_port : Z; rp_c2s_bytes : Z; rp_s2c_bytes : Z }.
Inductive RescanKind := RescanSni | RescanIp.

(** [ProxyEvent]; those of a connection are [Socket.ProxyEvent]. *)
Inductive Event :=
  | OfConnection (e : ProxyEvent)
  | ListenerStarted (mode : string) (listen_addr : SocketAddr)
  | TargetPoolUpdated (target_count : nat) (strategy : SelectionStrategy)
  | RelayProgressOne (p : RelayProgress)
  | RelayProgressBatch (sampled_at : Z) (entries : list RelayProgress)
  | SniTargetChanged (sni : string) (ip score : Z)
  | IpTargetChanged (ip : IpAddr) (score : Z)
  | LowTtlDiscovered (value : Z)
  | RescanStarted (kind : RescanKind)
  | RescanFinished (kind : RescanKind) (found : nat) (best_score : option Z) (duration_ms : Z) (switched : bool)
  | NextRescanScheduled (kind : RescanKind) (interval_secs : Z)
  | NetworkStatusChanged (status : ProxyNetworkStatus).

(** ** The channel *)
Record ProgressRegistry := MkRegistry {
  rg_generation : Z;
  rg_relays : gmap Z (Z * nat) }.          (* port: generation, counters *)
Record RelayRegistration := MkRegistration { rn_src_port : Z; rn_generation : Z; rn_counters : nat }.

Record Channel := MkChannel {
  ch_events : list Event;
  ch_senders : bool;                        (* some sender is left *)
  ch_receiver : bool;
  ch_progress : option ProgressRegistry;
  ch_next_progress : Z;
  ch_counters : list (Z * Z) }.

Definition proxy_event_channel (progress_enabled : bool) (now : Z) : Channel :=
  MkChannel [] true true (if progress_enabled then Some (MkRegistry 0 ∅) else None)
    (now + PROGRESS_INTERVAL) [].

Definition with_progress (p : option ProgressRegistry) (c : Channel) : Channel :=
  MkChannel (ch_events c) (ch_senders c) (ch_receiver c) p (ch_next_progress c) (ch_counters c).

(** [send]: [false] is the error. *)
Definition send (e : Event) (c : Channel) : bool * Channel :=
  if ch_receiver c then
    (true, MkChannel (ch_events c ++ [e]) (ch_senders c) (ch_receiver c) (ch_progress c)
       (ch_next_progress c) (ch_counters c))
  else (false, c).

Definition register_relay (src_port : Z) (c : Channel) : option RelayRegistration * Channel :=
  if negb (ch_receiver c) then (None, c) else
  match ch_progress c with
  | None => (None, c)
  | Some r =>
      let generation := wadd64 (rg_generation r) 1 in
      let a := length (ch_counters c) in
      (Some (MkRegistration src_port generation a),
       MkChannel (ch_events c) (ch_senders c) (ch_receiver c)
         (Some (MkRegistry generation (<[src_port := (generation, a)]> (rg_relays r))))
         (ch_next_progress c) (ch_counters c ++ [(0, 0)%Z]))
  end.

(** [Drop for RelayRegistration] *)
Definition drop_registration (n : RelayRegistration) (c : Channel) : Channel :=
  match ch_progress c with
  | Some r =>
      match rg_relays r !! rn_src_port n with
      | Some (generation, _) =>
          if (generation =? rn_generation n)%Z then
            with_progress (Some (MkRegistry (rg_generation r) (delete (rn_src_port n) (rg_relays r)))) c
          else c
      | None => c
      end
  | None => c
  end.

(** A copy loop stores its grown total; it is the only writer of its counter,
    which starts at 0. *)
Definition count (n : RelayRegistration) (c2s s2c : Z) (c : Channel) : Channel :=
  MkChannel (ch_events c) (ch_senders c) (ch_receiver c) (ch_progress c) (ch_next_progress c)
    (alter (λ t, (wadd64 t.1 c2s, wadd64 t.2 s2c)) (rn_counters n) (ch_counters c)).

Definition progress_of (counters : list (Z * Z)) (relay : Z * (Z * nat)) : RelayProgress :=
  let t := default (0, 0)%Z (counters !! relay.2.2) in MkProgress relay.1 t.1 t.2.

Definition sample_progress (now : Z) (c : Channel) : option Event * Channel :=
  if (now <? ch_next_progress c)%Z then (None, c) else
  let c := MkChannel (ch_events c) (ch_senders c) (ch_receiver c) (ch_progress c)
    (now + PROGRESS_INTERVAL) (ch_counters c) in
  match ch_progress c with
  | None => (None, c)
  | Some r =>
      if is_nil (map_to_list (rg_relays r)) then (None, c)
      else (Some (RelayProgressBatch now (progress_of (ch_counters c) <$> map_to_list (rg_relays r))), c)
  end.

Inductive TryRecv := Received (e : Event) | NothingYet | Disconnected.
Definition try_recv (now : Z) (c : Channel) : TryRecv * Channel :=
  match ch_events c with
  | e :: events =>
      (Received e, MkChannel events (ch_senders c) (ch_receiver c) (ch_progress c) (ch_next_progress c)
         (ch_counters c))
  | [] =>
      if negb (ch_senders c) then (Disconnected, c)
      else
        let '(e, c) := sample_progress now c in
        (match e with Some e => Received e | None => NothingYet end, c)
  end.

(** ** Runs

    The relays hold registrations; the lifecycle events come from anywhere. *)
Record Relays := MkRelays { rs_channel : Channel; rs_held : list RelayRegistration }.

Inductive ChannelAction :=
  | Send (e : Event)
  | Register (src_port : Z)
  | Count (i : nat) (c2s s2c : Z)       (* the [i]-th registration held *)
  | DropRelay (i : nat)
  | CloseReceiver
  | CloseSenders
  | TryReceive (now : Z).

(** With what the receiver got. *)
Definition channel_step (a : ChannelAction) (s : Relays) : list Event * Relays :=
  let c := rs_channel s in
  match a with
  | Send e => if ch_senders c then ([], MkRelays (send e c).2 (rs_held s)) else ([], s)
  | Register p =>
      if ch_senders c then
        let '(n, c) := register_relay p c in ([], MkRelays c (rs_held s ++ option_list n))
      else ([], s)
  | Count i x y =>
      match rs_held s !! i with
      | Some n => ([], MkRelays (count n x y c) (rs_held s))
      | None => ([], s)
      end
  | DropRelay i =>
      match rs_held s !! i with
      | Some n => ([], MkRelays (drop_registration n c) (delete i (rs_held s)))
      | None => ([], s)
      end
  | CloseReceiver => ([], MkRelays (MkChannel [] (ch_senders c) false (ch_progress c)
                            (ch_next_progress c) (ch_counters c)) (rs_held s))
  | CloseSenders => ([], MkRelays (MkChannel (ch_events c) false (ch_receiver c) (ch_progress c)
                            (ch_next_progress c) (ch_counters c)) (rs_held s))
  | TryReceive now =>
      if ch_receiver c then
        let '(r, c) := try_recv now c in
        (match r with Received e => [e] | _ => [] end, MkRelays c (rs_held s))
      else ([], s)
  end.
Fixpoint channel_run (l : list ChannelAction) (s : Relays) : list Event * Relays :=
  match l with
  | [] => ([], s)
  | a :: l =>
      let '(got, s) := channel_step a s in
      let '(got', s) := channel_run l s in (got ++ got', s)
  end.

(** ** Which relays are sampled *)

(** The registrations of a run, in order. *)
Definition registered_by (a : ChannelAction) (s : Relays) : list RelayRegistration :=
  match a with
  | Register p => if ch_senders (rs_channel s) then option_list (register_relay p (rs_channel s)).1 else []
  | _ => []
  end.
Fixpoint registrations (l : list ChannelAction) (s : Relays) : list RelayRegistration :=
  match l with
  | [] => []
  | a :: l => registered_by a s ++ registrations l (channel_step a s).2
  end.
Definition newest (all : list RelayRegistration) (n : RelayRegistration) : Prop :=
  ∀ n', n' ∈ all → rn_src_port n' = rn_src_port n → (rn_generation n' ≤ rn_generation n)%Z.

Record channel_ok (all : list RelayRegistration) (s : Relays) : Prop := {
  cn_all : ∀ k n, all !! k = Some n → rn_generation n = Z.of_nat (S k) ∧ rn_counters n = k;
  cn_held : rs_held s ⊆ all;
  cn_nodup : NoDup (rs_held s);
  cn_cells : length (ch_counters (rs_channel s)) = length all;
  cn_registry : match ch_progress (rs_channel s) with
    | None => all = []
    | Some r => rg_generation r = Z.of_nat (length all) ∧
        ∀ p g a, rg_relays r !! p = Some (g, a) ↔
          MkRegistration p g a ∈ rs_held s ∧ newest all (MkRegistration p g a)
    end }.

Lemma registration_eta n : MkRegistration (rn_src_port n) (rn_generation n) (rn_counters n) = n.
Proof. by destruct n. Qed.

Section channel_facts.
Context (all : list RelayRegistration).
Implicit Types (s : Relays) (n : RelayRegistration).

Lemma same_generation s n n' : channel_ok all s → n ∈ all → n' ∈ all →
  rn_generation n = rn_generation n' → n = n'.
Proof.
  intros Hok [k Hk]%list_elem_of_lookup [k' Hk']%list_elem_of_lookup Hg.
  destruct (cn_all _ _ Hok _ _ Hk) as [Hk1 _], (cn_all _ _ Hok _ _ Hk') as [Hk1' _].
  assert (k = k') as -> by lia. congruence.
Qed.

(** Only counters, the queue and the timer change. *)
Lemma channel_ok_frame s s' : channel_ok all s → rs_held s' = rs_held s →
  ch_progress (rs_channel s') = ch_progress (rs_channel s) →
  length (ch_counters (rs_channel s')) = length (ch_counters (rs_channel s)) → channel_ok all s'.
Proof. intros [] Hh Hp Hc. constructor; rewrite ?Hh, ?Hp, ?Hc; done. Qed.

Lemma drop_ok s i n : channel_ok all s → rs_held s !! i = Some n →
  channel_ok all (MkRelays (drop_registration n (rs_channel s)) (delete i (rs_held s))).
Proof.
  intros Hok Hi. pose proof (delete_Permutation _ _ _ Hi) as Hp. pose proof (cn_nodup _ _ Hok) as Hn.
  rewrite Hp in Hn. apply NoDup_cons in Hn as [Hni Hn].
  assert (∀ n', n' ∈ delete i (rs_held s) ↔ n' ∈ rs_held s ∧ n' ≠ n) as Hin.
  { intros n'. rewrite Hp at 2. rewrite elem_of_cons. split; [|naive_solver]. intros Hd. split; [by right|]. by intros ->. }
  assert (n ∈ rs_held s) as Hheld by (by eapply list_elem_of_lookup_2).
  pose proof (cn_held _ _ Hok) as Hsub. pose proof (cn_registry _ _ Hok) as Hreg.
  constructor; cbn [rs_held rs_channel].
  - apply Hok.
  - intros n' [? _]%Hin. auto.
  - done.
  - unfold drop_registration. repeat (case_match || done); by apply Hok.
  - unfold drop_registration. destruct (ch_progress (rs_channel s)) as [r|] eqn:Er; [|by rewrite Er].
    destruct Hreg as [Hg Hreg].
    destruct (rg_relays r !! rn_src_port n) as [[g a]|] eqn:El.
    + destruct (Z.eqb_spec g (rn_generation n)) as [->|Hne]; cbn [ch_progress with_progress]; rewrite ?Er.
      * cbn [rg_generation rg_relays]. split; [done|]. intros p g' a'. rewrite Hin.
        destruct (decide (p = rn_src_port n)) as [->|Hpn].
        -- rewrite lookup_delete_eq. split; [done|]. intros [[H1 H2] H3]. exfalso. apply H2.
           eapply same_generation; [done|auto|auto|]. cbn.
           apply Hreg in El as [E1 E2]. pose proof (E2 _ (Hsub _ H1) eq_refl) as L1.
           pose proof (H3 _ (Hsub _ Hheld) eq_refl) as L2. cbn in *. lia.
        -- rewrite lookup_delete_ne, Hreg by done. split; [|naive_solver]. intros [? ?]. split; [|done].
           split; [done|]. intros <-. done.
      * split; [done|]. intros p g' a'. rewrite Hreg, Hin. split; [|naive_solver]. intros [H1 H2].
        split; [|done]. split; [done|]. intros E. subst n. cbn in *. apply Hreg in El as [E1 E2].
        apply Hne. pose proof (E2 _ (Hsub _ H1) eq_refl). pose proof (H2 _ (Hsub _ E1) eq_refl). cbn in *. lia.
    + rewrite Er. split; [done|]. intros p g' a'. rewrite Hreg, Hin. split; [|naive_solver]. intros [H1 H2].
      split; [|done]. split; [done|]. intros E. subst n. cbn in *.
      assert (rg_relays r !! p = Some (g', a')) by (by apply Hreg). congruence.
Qed.

Lemma register_ok s p : channel_ok all s →
  (Z.of_nat (length (all ++ registered_by (Register p) s)) < 2 ^ 64)%Z →
  channel_ok (all ++ registered_by (Register p) s) (channel_step (Register p) s).2.
Proof.
  intros Hok. pose proof (cn_registry _ _ Hok) as Hreg. cbn. unfold register_relay.
  destruct (ch_senders (rs_channel s)); cbn; [|by rewrite app_nil_r].
  destruct (ch_receiver (rs_channel s)); cbn; [|by rewrite !app_nil_r; destruct s].
  destruct (ch_progress (rs_channel s)) as [r|] eqn:Er; cbn; [|by rewrite !app_nil_r; destruct s].
  rewrite length_app. cbn [length]. intros Hb.
  destruct Hreg as [Hg Hreg]. pose proof (cn_cells _ _ Hok) as Hc. rewrite Hc, Hg.
  assert (wadd64 (Z.of_nat (length all)) 1 = Z.of_nat (S (length all))) as ->.
  { unfold wadd64. rewrite Z.mod_small; lia. }
  assert (∀ n, n ∈ all → (rn_generation n ≤ Z.of_nat (length all))%Z) as Hle.
  { intros n [k Hk]%list_elem_of_lookup. destruct (cn_all _ _ Hok _ _ Hk) as [-> _].
    apply lookup_lt_Some in Hk. lia. }
  set (new := MkRegistration p (Z.of_nat (S (length all))) (length all)).
  assert (new ∉ all) as Hnew.
  { intros Hin. apply Hle in Hin. cbn in Hin. lia. }
  constructor; cbn [rs_held rs_channel ch_counters ch_progress rg_generation rg_relays].
  - intros k n [Hk|[Hk Hl]]%lookup_app_Some; [by apply Hok|]. apply list_lookup_singleton_Some in Hl as [Hk0 <-].
    cbn. assert (k = length all) as -> by lia. done.
  - intros n [Hi|Hi]%elem_of_app; apply elem_of_app; [left; by apply Hok|by right].
  - apply NoDup_app. split; [apply Hok|]. split; [|apply NoDup_singleton].
    intros n Hi ->%list_elem_of_singleton. apply Hnew. by apply Hok.
  - rewrite !length_app, Hc. done.
  - rewrite length_app. cbn. split; [lia|]. intros q g a. rewrite elem_of_app, list_elem_of_singleton.
    unfold newest. setoid_rewrite elem_of_app. setoid_rewrite list_elem_of_singleton.
    destruct (decide (q = p)) as [->|Hq].
    + rewrite lookup_insert_eq. split.
      * intros [= <- <-]. split; [by right|]. intros n [Hi| ->] _; [|done]. cbn. apply Hle in Hi. lia.
      * intros [[Hi| [= -> ->]] Hn]; [|done]. exfalso. apply (cn_held _ _ Hok) in Hi as Ha. apply Hle in Ha. cbn in Ha.
        specialize (Hn new (or_intror eq_refl) eq_refl). cbn in Hn. lia.
    + rewrite lookup_insert_ne, Hreg by done. split.
      * intros [H1 H2]. split; [by left|]. intros n [Hi| ->] E; [by apply H2|]. cbn in E. done.
      * intros [[Hi|E] Hn]; [|by injection E as ->]. split; [done|]. intros n Hn1 Hn2. apply Hn; [by left|done].
Qed.

Lemma channel_step_ok s a : channel_ok all s →
  (Z.of_nat (length (all ++ registered_by a s)) < 2 ^ 64)%Z →
  channel_ok (all ++ registered_by a s) (channel_step a s).2.
Proof.
  intros Hok Hb. destruct a as [e|p|i x y|i| | |now]; [|by apply register_ok|..]; cbn [registered_by]; rewrite app_nil_r;
    cbn [channel_step].
  - case_match; [|done]. eapply channel_ok_frame; [done|done|..]; cbn; unfold send; by case_match.
  - case_match; [|done]. eapply channel_ok_frame; [done|done|done|]. cbn. by rewrite length_alter.
  - case_match; [|done]. by eapply drop_ok.
  - by eapply channel_ok_frame.
  - by eapply channel_ok_frame.
  - case_match; [|done]. unfold try_recv, sample_progress.
    repeat (case_match; simplify_eq/=; try done); by eapply channel_ok_frame.
Qed.
End channel_facts.

Lemma run_cons a l s : (channel_run (a :: l) s).1 =
    (channel_step a s).1 ++ (channel_run l (channel_step a s).2).1 ∧
  (channel_run (a :: l) s).2 = (channel_run l (channel_step a s).2).2.
Proof. cbn [channel_run]. destruct (channel_step a s) as [g s1], (channel_run l s1) as [g' s2] eqn:E. cbn. by rewrite E. Qed.

Lemma run_ok l : ∀ all s, channel_ok all s →
  (Z.of_nat (length all + length (registrations l s)) < 2 ^ 64)%Z →
  channel_ok (all ++ registrations l s) (channel_run l s).2.
Proof.
  induction l as [|a l IH]; intros all s Hok Hb; [by rewrite app_nil_r|].
  rewrite (proj2 (run_cons _ _ _)). cbn [registrations] in *. rewrite length_app in Hb.
  rewrite app_assoc. apply IH.
  - apply channel_step_ok; [done|]. rewrite length_app. lia.
  - rewrite length_app. lia.
Qed.

Lemma channel_ok_start enabled t0 : channel_ok [] (MkRelays (proxy_event_channel enabled t0) []).
Proof.
  constructor; cbn; try done; [constructor|]. destruct enabled; cbn; [|done].
  split; [done|]. intros p g a. rewrite lookup_empty. split; [done|]. by intros [?%not_elem_of_nil _].
Qed.

(** ** What the receiver gets *)

(** Accepted by [send], in order. *)
Definition sent_by (a : ChannelAction) (s : Relays) : list Event :=
  match a with
  | Send e => if ch_senders (rs_channel s) && ch_receiver (rs_channel s) then [e] else []
  | _ => []
  end.
Fixpoint sent (l : list ChannelAction) (s : Relays) : list Event :=
  match l with [] => [] | a :: l => sent_by a s ++ sent l (channel_step a s).2 end.
(** The additions to the counters at [a]. *)
Definition counted_by (k : nat) (a : ChannelAction) (s : Relays) : list (Z * Z) :=
  match a with
  | Count i x y =>
      match rs_held s !! i with Some n => if bool_decide (rn_counters n = k) then [(x, y)] else [] | None => [] end
  | _ => []
  end.
Fixpoint counted (k : nat) (l : list ChannelAction) (s : Relays) : list (Z * Z) :=
  match l with [] => [] | a :: l => counted_by k a s ++ counted k l (channel_step a s).2 end.
Definition is_batch (e : Event) : bool := match e with RelayProgressBatch _ _ => true | _ => false end.
Definition lifecycle (l : list Event) : list Event := filter (λ e, is_batch e = false) l.
(** Nobody sends a batch: [sample_progress] makes them. *)
Definition sends_lifecycle (l : list ChannelAction) : Prop :=
  ∀ e, Send e ∈ l → is_batch e = false.
Definition keeps_receiver (l : list ChannelAction) : Prop := CloseReceiver ∉ l.

Definition total (l : list Z) : Z := foldr Z.add 0%Z l `mod` 2 ^ 64.
Definition cell (k : nat) (s : Relays) : Z * Z := default (0, 0)%Z (ch_counters (rs_channel s) !! k).
Definition add_counts (t d : Z * Z) : Z * Z := (wadd64 t.1 d.1, wadd64 t.2 d.2).
Definition batch_times (l : list Event) : list Z :=
  omap (λ e, match e with RelayProgressBatch t _ => Some t | _ => None end) l.
(** One progress interval apart, at least. *)
Definition spaced : list Z → Prop := StronglySorted (λ t t', (t + PROGRESS_INTERVAL ≤ t')%Z).

Lemma foldl_add_counts ds : ∀ t, foldl add_counts (t.1 `mod` 2 ^ 64, t.2 `mod` 2 ^ 64)%Z ds =
  ((t.1 + foldr Z.add 0 ds.*1) `mod` 2 ^ 64, (t.2 + foldr Z.add 0 ds.*2) `mod` 2 ^ 64)%Z.
Proof.
  induction ds as [|d ds IH]; intros [x y]; cbn [foldl foldr fmap list_fmap fst snd]; [by rewrite !Z.add_0_r|].
  change (add_counts _ d) with (wadd64 (x `mod` 2 ^ 64) d.1, wadd64 (y `mod` 2 ^ 64) d.2)%Z. unfold wadd64.
  rewrite !Zplus_mod_idemp_l. pose proof (IH (x + d.1, y + d.2)%Z) as E. cbn [fst snd] in E.
  by rewrite E, <-!Z.add_assoc.
Qed.

Section run_facts.
Implicit Types (s : Relays) (l : list ChannelAction).

Lemma register_frame p c : let c' := (register_relay p c).2 in
  ch_events c' = ch_events c ∧ ch_receiver c' = ch_receiver c ∧ ch_next_progress c' = ch_next_progress c ∧
  ∃ ts, ch_counters c' = ch_counters c ++ ts ∧ ∀ k, default (0, 0)%Z (ts !! k) = (0, 0)%Z.
Proof.
  unfold register_relay. destruct (negb _); cbn; [|destruct (ch_progress c); cbn]; (split_and!; [done..|]);
    [exists []|exists [(0, 0)%Z]|exists []]; rewrite ?app_nil_r; (split; [done|]); by intros [|[]].
Qed.

Lemma step_receiver a s : a ≠ CloseReceiver → ch_receiver (rs_channel (channel_step a s).2) = ch_receiver (rs_channel s).
Proof.
  intros Ha. destruct a as [|p|  | | | |]; cbn; unfold send, drop_registration, try_recv, sample_progress; try done;
    try (case_match; [|done]; pose proof (register_frame p (rs_channel s)) as (_ & F & _); by destruct (register_relay _ _));
    repeat (case_match; simplify_eq/=; try done).
Qed.

Lemma step_in_order a s : ch_receiver (rs_channel s) = true → a ≠ CloseReceiver →
  (∀ e, a = Send e → is_batch e = false) → Forall (λ e, is_batch e = false) (ch_events (rs_channel s)) →
  lifecycle (channel_step a s).1 ++ ch_events (rs_channel (channel_step a s).2) =
    ch_events (rs_channel s) ++ sent_by a s ∧
  Forall (λ e, is_batch e = false) (ch_events (rs_channel (channel_step a s).2)).
Proof.
  intros Hr Ha He Hq. destruct a as [e|p|i x y|i| | |now]; try done; cbn [sent_by channel_step]; rewrite ?app_nil_r.
  - destruct (ch_senders _); [|by rewrite app_nil_r]. unfold send. rewrite Hr. cbn. split; [done|].
    apply Forall_app. split; [done|]. apply Forall_singleton. by apply He.
  - case_match; [|done]. pose proof (register_frame p (rs_channel s)) as (F & _). destruct (register_relay _ _). cbn in *.
    by rewrite F.
  - by case_match.
  - case_match; [|done]. cbn. unfold drop_registration. by repeat case_match.
  - done.
  - rewrite Hr. unfold try_recv, sample_progress. destruct (ch_events (rs_channel s)) as [|e q] eqn:Eq; cbn.
    + repeat (case_match; simplify_eq/=; try done); by rewrite Eq.
    + apply Forall_cons in Hq as [He' Hq]. by destruct (decide _).
Qed.

Lemma run_in_order l : ∀ s, ch_receiver (rs_channel s) = true → keeps_receiver l → sends_lifecycle l →
  Forall (λ e, is_batch e = false) (ch_events (rs_channel s)) →
  lifecycle (channel_run l s).1 ++ ch_events (rs_channel (channel_run l s).2) =
    ch_events (rs_channel s) ++ sent l s ∧
  Forall (λ e, is_batch e = false) (ch_events (rs_channel (channel_run l s).2)).
Proof.
  induction l as [|a l IH]; intros s Hr Hk Hs Hq; cbn [sent]; [by rewrite app_nil_r|].
  apply not_elem_of_cons in Hk as [Ha Hk].
  destruct (step_in_order a s Hr (not_eq_sym Ha)) as [E1 E2]; [intros e ->; apply Hs; left|done|].
  destruct (run_cons a l s) as [-> ->]. unfold lifecycle in *. rewrite filter_app, <-app_assoc.
  destruct (IH (channel_step a s).2) as [I1 I2]; [by rewrite step_receiver|done|intros e He; apply Hs; by right|done|].
  split; [|done]. by rewrite I1, app_assoc, E1, <-app_assoc.
Qed.

Lemma step_cell all k a s : channel_ok all s →
  cell k (channel_step a s).2 = foldl add_counts (cell k s) (counted_by k a s).
Proof.
  intros Hok. unfold cell. destruct a as [e|p|i x y|i| | |now]; cbn [channel_step counted_by foldl]; try done.
  - case_match; [|done]. cbn. unfold send. by case_match.
  - case_match; [|done]. pose proof (register_frame p (rs_channel s)) as (_ & _ & _ & l & F & Hl).
    destruct (register_relay _ _) as [r c]. cbn in *. rewrite F.
    destruct (decide (k < length (ch_counters (rs_channel s)))); [by rewrite lookup_app_l|].
    rewrite lookup_app_r, (lookup_ge_None_2 (ch_counters _)) by lia. apply Hl.
  - destruct (rs_held s !! i) as [n|] eqn:Hi; [|done]. cbn.
    assert (n ∈ all) as [j Hj]%list_elem_of_lookup by (apply (cn_held _ _ Hok); by eapply list_elem_of_lookup_2).
    pose proof (lookup_lt_Some _ _ _ Hj). destruct (cn_all _ _ Hok _ _ Hj) as [_ Hc]. pose proof (cn_cells _ _ Hok).
    case_bool_decide as Hk; cbn [foldl].
    + subst k. rewrite list_lookup_alter_eq.
      destruct (lookup_lt_is_Some_2 (ch_counters (rs_channel s)) (rn_counters n)) as [t ->]; [lia|done].
    + by rewrite list_lookup_alter_ne.
  - case_match; [|done]. cbn. unfold drop_registration. by repeat case_match.
  - case_match; [|done]. unfold try_recv, sample_progress. by repeat (case_match; simplify_eq/=; try done).
Qed.

Lemma run_cell k l : ∀ all s, channel_ok all s → (Z.of_nat (length all + length (registrations l s)) < 2 ^ 64)%Z →
  cell k (channel_run l s).2 = foldl add_counts (cell k s) (counted k l s).
Proof.
  induction l as [|a l IH]; intros all s Hok Hb; [done|]. rewrite (proj2 (run_cons _ _ _)).
  cbn [registrations counted] in *. rewrite length_app in Hb.
  rewrite (IH (all ++ registered_by a s)); [|apply channel_step_ok; [done|]|]; rewrite ?length_app; [|lia|lia].
  by rewrite (step_cell all), foldl_app.
Qed.

Lemma step_spaced a s : 
  match batch_times (channel_step a s).1 with
  | [] => (ch_next_progress (rs_channel s) ≤ ch_next_progress (rs_channel (channel_step a s).2))%Z
  | [t] => (ch_next_progress (rs_channel s) ≤ t)%Z ∧
      ch_next_progress (rs_channel (channel_step a s).2) = (t + PROGRESS_INTERVAL)%Z
  | _ => False
  end ∨ ∃ e q, ch_events (rs_channel s) = e :: q ∧ is_batch e = true.
Proof.
  destruct a as [e|p|i x y|i| | |now]; cbn [channel_step]; try (left; cbn; lia).
  - left. destruct (ch_senders _); cbn; [|lia]. unfold send. destruct (ch_receiver _); cbn; lia.
  - left. destruct (ch_senders _); cbn; [|lia]. pose proof (register_frame p (rs_channel s)) as (_ & _ & F & _).
    destruct (register_relay _ _). cbn in *. lia.
  - left. destruct (rs_held s !! i); cbn; lia.
  - left. destruct (rs_held s !! i) as [n|]; cbn; [|lia]. unfold drop_registration.
    destruct (ch_progress _) as [r|]; [|lia]. destruct (_ !! rn_src_port n) as [[g a]|]; [|lia].
    destruct (_ =? _)%Z; cbn; lia.
  - destruct (ch_receiver _); [|left; cbn; lia]. unfold try_recv. destruct (ch_events (rs_channel s)) as [|e q].
    + left. destruct (negb _); cbn; [lia|]. unfold sample_progress.
      destruct (Z.ltb_spec now (ch_next_progress (rs_channel s))); cbn; [lia|]. unfold PROGRESS_INTERVAL.
      destruct (ch_progress _) as [r|]; cbn; [|lia]. destruct (is_nil _); cbn; lia.
    + destruct e; try (left; cbn; lia). right. by eexists _, _.
Qed.

(** From the timer on. *)
Lemma run_spaced l : ∀ s, ch_receiver (rs_channel s) = true → keeps_receiver l → sends_lifecycle l →
  Forall (λ e, is_batch e = false) (ch_events (rs_channel s)) →
  spaced (ch_next_progress (rs_channel s) - PROGRESS_INTERVAL :: batch_times (channel_run l s).1)%Z.
Proof.
  induction l as [|a l IH]; intros s Hr Hk Hs Hq; [by repeat constructor|].
  apply not_elem_of_cons in Hk as [Ha Hk].
  destruct (step_in_order a s Hr (not_eq_sym Ha)) as [_ Hq']; [intros e ->; apply Hs; left|done|].
  rewrite (proj1 (run_cons a l s)). unfold batch_times in *. rewrite omap_app.
  specialize (IH (channel_step a s).2). rewrite step_receiver in IH by done.
  specialize (IH Hr Hk (λ e He, Hs e (list_elem_of_further _ _ _ He)) Hq').
  pose proof (step_spaced a s) as [Hst|(e & q & Hq0 & He)];
    [|rewrite Hq0 in Hq; apply Forall_cons in Hq as [He' _]; congruence].
  unfold batch_times in Hst. destruct (omap _ (channel_step a s).1) as [|t [|]]; [| |done].
  - apply StronglySorted_inv in IH as [I1 I2]. constructor; [done|]. cbn [app].
    eapply Forall_impl; [exact I2|]. cbn. lia.
  - destruct Hst as [Hst1 Hst2]. rewrite Hst2 in IH. replace (t + _ - _)%Z with t in IH by lia.
    cbn [app]. constructor; [done|]. apply StronglySorted_inv in IH as [_ I2]. constructor; [lia|].
    eapply Forall_impl; [exact I2|]. cbn. unfold PROGRESS_INTERVAL. lia.
Qed.
End run_facts.

(** A batch of the held relays, each port once. *)
Definition batch_of (l : list ChannelAction) (s0 : Relays) (entries : list RelayProgress) : Prop :=
  NoDup (rp_src_port <$> entries) ∧
  ∀ e, e ∈ entries ↔ ∃ n, n ∈ rs_held (channel_run l s0).2 ∧ newest (registrations l s0) n ∧
    e = MkProgress (rn_src_port n) (total (counted (rn_counters n) l s0).*1) (total (counted (rn_counters n) l s0).*2).

Lemma progress_entries l t0 r :
  let s0 := MkRelays (proxy_event_channel true t0) [] in let s := (channel_run l s0).2 in
  (Z.of_nat (length (registrations l s0)) < 2 ^ 64)%Z → ch_progress (rs_channel s) = Some r →
  batch_of l s0 (progress_of (ch_counters (rs_channel s)) <$> map_to_list (rg_relays r)).
Proof.
  intros s0 s Hb Hr. pose proof (run_ok l [] s0 (channel_ok_start _ _) Hb) as Hok. fold s in Hok. cbn [app] in Hok.
  pose proof (cn_registry _ _ Hok) as Hreg. rewrite Hr in Hreg. destruct Hreg as [_ Hreg].
  assert (∀ k, cell k s = (total (counted k l s0).*1, total (counted k l s0).*2)) as Hcell.
  { intros k. unfold s. rewrite (run_cell k l [] s0 (channel_ok_start _ _) Hb).
    apply (foldl_add_counts _ (0, 0)%Z). }
  split.
  - rewrite <-list_fmap_compose. erewrite list_fmap_ext; [apply NoDup_fst_map_to_list|]. by intros ? [p [g a]].
  - intros e. rewrite list_elem_of_fmap. fold s. split.
    + intros ([p [g a]] & -> & [Hh Hn]%elem_of_map_to_list%Hreg). eexists. split; [done|]. split; [done|].
      unfold progress_of. cbn. fold (cell a s). by rewrite Hcell.
    + intros (n & Hh & Hn & ->). exists (rn_src_port n, (rn_generation n, rn_counters n)). split.
      * unfold progress_of. cbn. fold (cell (rn_counters n) s). by rewrite Hcell.
      * apply elem_of_map_to_list, Hreg. by rewrite registration_eta.
Qed.

(** Progress is only sampled once enabled. *)
Lemma run_progress l : ∀ s, is_Some (ch_progress (rs_channel s)) → is_Some (ch_progress (rs_channel (channel_run l s).2)).
Proof.
  induction l as [|a l IH]; intros s Hs; [done|]. rewrite (proj2 (run_cons _ _ _)). apply IH.
  destruct a as [e|p|i x y|i| | |now]; cbn [channel_step]; try done.
  - case_match; [|done]. cbn. unfold send. by case_match.
  - case_match; [|done]. unfold register_relay. destruct (negb _), (ch_progress _); done.
  - by case_match.
  - case_match; [|done]. cbn. unfold drop_registration. destruct (ch_progress _) eqn:E; [|by rewrite E in *].
    repeat case_match; by rewrite ?E.
  - case_match; [|done]. unfold try_recv, sample_progress. repeat (case_match; simplify_eq/=; try done).
Qed.

(** (C18) The event channel: whatever the senders and the relays do while the
    receiver is there, the lifecycle events reach it in the order they were
    sent and none is lost; batches of progress come at least an interval
    apart; and what the next poll returns is the oldest event queued, or, when
    none is and the interval is over, the counters of every relay still
    registered under its port, each the sum of the bytes that relay counted,
    or, when there is no such relay or the interval is not over, nothing. *)
Theorem channel_delivers l t0 now :
  let s0 := MkRelays (proxy_event_channel true t0) [] in
  let got := (channel_run l s0).1 in let s := (channel_run l s0).2 in let c := rs_channel s in
  keeps_receiver l → sends_lifecycle l → (Z.of_nat (length (registrations l s0)) < 2 ^ 64)%Z →
  lifecycle got ++ ch_events c = sent l s0 ∧ spaced (t0 :: batch_times got) ∧
  match (try_recv now c).1 with
  | Disconnected => ch_events c = [] ∧ ch_senders c = false
  | NothingYet => ch_events c = [] ∧
      ((now < ch_next_progress c)%Z ∨ ∀ n, n ∈ rs_held s → ¬ newest (registrations l s0) n)
  | Received (RelayProgressBatch t entries) =>
      ch_events c = [] ∧ t = now ∧ (ch_next_progress c ≤ now)%Z ∧ entries ≠ [] ∧ batch_of l s0 entries
  | Received e => head (ch_events c) = Some e
  end.
Proof.
  intros s0 got s c Hk Hs Hb.
  destruct (run_in_order l s0 eq_refl Hk Hs (Forall_nil_2 _)) as [Ho Hq]. fold s c in Hq.
  split; [exact Ho|]. split.
  { pose proof (run_spaced l s0 eq_refl Hk Hs (Forall_nil_2 _)) as Hsp. cbn in Hsp.
    by replace (t0 + _ - _)%Z with t0 in Hsp by lia. }
  unfold try_recv. destruct (ch_events c) as [|e q]; cbn [fst].
  2: { apply Forall_cons in Hq as [He _]. by destruct e. }
  destruct (ch_senders c); cbn [negb fst]; [|done]. unfold sample_progress.
  destruct (Z.ltb_spec now (ch_next_progress c)) as [Hl|Hl]; cbn [fst]; [by auto|].
  destruct (run_progress l s0) as [r Hr]; [by eexists|]. fold s c in Hr. cbn [ch_progress ch_counters]. rewrite Hr.
  pose proof (progress_entries l t0 r Hb Hr) as Hent. destruct (is_nil _) eqn:En; cbn [fst].
  - split; [done|]. right. intros n Hh Hn. destruct (map_to_list (rg_relays r)); [|done].
    destruct Hent as [_ Hent]. eapply (not_elem_of_nil (A := RelayProgress)), Hent. eexists. by split_and!.
  - split_and!; [done..| |exact Hent]. by destruct (map_to_list (rg_relays r)).
Qed.

(** Port 40000 is taken over by a second relay while the first one, which has
    counted 3 bytes, is still held: only the second is sampled, and the first
    one's drop leaves it registered. *)
Definition events_demo : list ChannelAction :=
  [Send (SniTargetChanged "a.com" 7 90); Register 40000; Count 0 1 2; TryReceive 5; Register 40000;
   Count 1 10 20; TryReceive 600000000; DropRelay 0; Count 0 5 6; Send (NextRescanScheduled RescanIp 60)].
Lemma channel_delivers_witness :
  let s0 := MkRelays (proxy_event_channel true 0) [] in
  (channel_run events_demo s0).1 =
    [SniTargetChanged "a.com" 7 90; RelayProgressBatch 600000000 [MkProgress 40000 10 20]] ∧
  ch_events (rs_channel (channel_run events_demo s0).2) = [NextRescanScheduled RescanIp 60] ∧
  match (try_recv 1100000000 (rs_channel (channel_run (events_demo ++ [TryReceive 0]) s0).2)).1 with
  | Received (RelayProgressBatch t entries) =>
      t = 1100000000%Z ∧ entries = [MkProgress 40000 15 26] ∧ batch_of (events_demo ++ [TryReceive 0]) s0 entries
  | _ => False
  end.
Proof.
  split; [by vm_compute|]. split; [by vm_compute|].
  assert (keeps_receiver (events_demo ++ [TryReceive 0])) as Hk by (unfold keeps_receiver; vm_compute; set_solver).
  assert (sends_lifecycle (events_demo ++ [TryReceive 0])) as Hs.
  { assert (Forall (λ a, match a with Send e => is_batch e = false | _ => True end) (events_demo ++ [TryReceive 0])) as Hf
      by repeat constructor.
    rewrite Forall_forall in Hf. intros e He. exact (Hf _ He). }
  pose proof (channel_delivers _ 0 1100000000 Hk Hs) as (_ & _ & H); [by vm_compute|].
  revert H. destruct (try_recv _ _).1 as [e| |] eqn:E; vm_compute in E; simplify_eq.
  intros (_ & _ & _ & _ & Hb). split; [done|]. split; [done|]. exact Hb.
Defined.
