(* ===== verification/TargetPool.v ===== *)
(** * The target pool

    Model of [crates/zerodpi-core/src/target_pool.rs]: the ranked relay
    targets, the reservations ([TargetLease]) the proxy workers hold on them,
    the four selection strategies, and the ping results the monitor of
    [target_pool/ping.rs] feeds back.

    A counter behind an [Arc] ([load], [traffic]) is shared by the member, by
    its entry in the history and by every lease, so it is a cell of a heap and
    members and leases hold its address.  Every operation of the pool runs
    under the one lock of its state: it is one step here.  A [usize] is 64
    bits wide, indices are [nat] and a [Duration] counts nanoseconds. *)
From stdpp Require Import base list numbers strings gmap sorting.
From Stdlib Require Import ZArith Lia.
From S2P Require Import Prelude NetAddr.
From S2P Require Import Config Scanner.

Module TargetPool.

(** ** Data *)
#[export] Instance IpAddr_countable : Countable IpAddr.
Proof.
  refine (inj_countable'
    (λ a, match a with IpV4 z => inl z | IpV6 g => inr g end)
    (λ s, match s with inl z => IpV4 z | inr g => IpV6 g end) _).
  by intros [].
Defined.

Definition Duration : Type := Z.
Definition from_millis (ms : Z) : Duration := (ms * 1000000)%Z.

Record Target := MkTarget {
  t_ip : IpAddr; t_sni : option string; t_score : Z;
  tcp_latency : option Duration; t_low_ttl : option Z }.

Definition TargetKey : Type := option string * IpAddr.

Definition target_ip (ip : IpAddr) (score : Z) : Target := MkTarget ip None score None None.
Definition target_sni (sni : string) (ip : Z) (score : Z) : Target :=
  MkTarget (IpV4 ip) (Some sni) score None None.
Definition key (t : Target) : TargetKey := (t_sni t, t_ip t).

Definition from_sni (e : SniProbeEntry) : Target :=
  MkTarget (IpV4 (sp_ip e)) (Some (sp_sni e)) (sp_score e)
    (from_millis <$> sp_tcp_latency_ms e) None.
Definition from_ip (e : IpProbeEntry) : Target :=
  MkTarget (ipp_ip e) None (ipp_score e) (from_millis <$> ipp_tcp_latency_ms e) None.

(** ** Candidates *)
Definition usize_max : Z := 2 ^ 64 - 1.

(** [filter(|target| seen.insert(target.key()))] *)
Fixpoint unseen (seen : gset TargetKey) (ts : list Target) : list Target :=
  match ts with
  | [] => []
  | t :: ts' =>
      if decide (key t ∈ seen) then unseen seen ts'
      else t :: unseen ({[key t]} ∪ seen) ts'
  end.

(** [take(limit)] *)
Fixpoint take_usize {A} (limit : Z) (l : list A) : list A :=
  match l with
  | [] => []
  | x :: l' => if (limit <=? 0)%Z then [] else x :: take_usize (limit - 1) l'
  end.

Definition unique_targets (ts : list Target) (limit : Z) : list Target :=
  take_usize limit (unseen ∅ ts).

Definition sni_eligible (min_score : Z) (e : SniProbeEntry) : Prop :=
  is_Some (sp_tcp_latency_ms e) ∧ (Z.max min_score 1 ≤ sp_score e)%Z.
#[export] Instance sni_eligible_dec m e : Decision (sni_eligible m e).
Proof. unfold sni_eligible. apply _. Defined.
Definition sni_candidates (entries : list SniProbeEntry) (limit min_score : Z) : list Target :=
  unique_targets (from_sni <$> filter (sni_eligible min_score) entries) limit.

Definition ip_eligible (e : IpProbeEntry) : Prop :=
  is_Some (ipp_tcp_latency_ms e) ∧ (0 < ipp_score e)%Z.
#[export] Instance ip_eligible_dec e : Decision (ip_eligible e).
Proof. unfold ip_eligible. apply _. Defined.
Definition ip_candidates (entries : list IpProbeEntry) (limit : Z) : list Target :=
  unique_targets (from_ip <$> filter ip_eligible entries) limit.

(** ** The pool *)
Inductive PingSource := Scan | Live.

Record Member := MkMember {
  m_target : Target; m_ping : option Duration;
  m_load : nat;      (* the address of the [AtomicUsize] *)
  m_traffic : nat;   (* the address of the [TargetTraffic] *)
  m_ping_source : PingSource }.
Definition mkey (m : Member) : TargetKey := key (m_target m).

(** The cells behind the [Arc]s. *)
Record Heap := MkHeap { loads : list Z; traffics : list (Z * Z) (* c2s, s2c *) }.

Record TargetPool := MkPool {
  strategy : SelectionStrategy;
  members : list Member;
  history : list Member;
  history_indices : gmap TargetKey nat;
  cursor : nat;
  generation : Z;
  random : Z;
  heap : Heap }.

Record TargetLease := MkLease { l_target : Target; l_load : nat; l_traffic : nat }.

Definition load_of (h : Heap) (a : nat) : Z := default 0%Z (loads h !! a).
Definition traffic_of (h : Heap) (a : nat) : Z * Z := default (0%Z, 0%Z) (traffics h !! a).

(** One target of [replace]: the new member, with the counters of its history
    entry or fresh ones, and the updated history, index and heap. *)
Definition Hist : Type := list Member * gmap TargetKey nat * Heap.

Definition replace_one (s : list Member * Hist) (t : Target) : exec (list Member * Hist) :=
  let '(ms, (hist, idxs, h)) := s in
  match idxs !! key t with
  | Some i =>
      let! old := idx hist i in
      let m := MkMember t (tcp_latency t) (m_load old) (m_traffic old) Scan in
      let! hist := upd hist i m in
      Done (ms ++ [m], (hist, idxs, h))
  | None =>
      let m := MkMember t (tcp_latency t) (length (loads h)) (length (traffics h)) Scan in
      let h := MkHeap (loads h ++ [0%Z]) (traffics h ++ [(0%Z, 0%Z)]) in
      Done (ms ++ [m], (hist ++ [m], <[key t := length hist]> idxs, h))
  end.

Definition replace (p : TargetPool) (ts : list Target) : exec (TargetPool * bool) :=
  match ts with
  | [] => Done (p, false)
  | _ =>
      let ts := unique_targets ts usize_max in
      let changed := negb (bool_decide (mkey <$> members p = key <$> ts)) in
      let! r := exec_fold replace_one ts ([], (history p, history_indices p, heap p)) in
      let '(ms, (hist, idxs, h)) := r in
      Done (MkPool (strategy p) ms hist idxs 0 (wadd64 (generation p) 1) (random p) h, changed)
  end.

(** [TargetPool::new]: [None] is the error; the clock seeds the generator. *)
Definition new (strat : SelectionStrategy) (ts : list Target) (seed : Z)
    : exec (option TargetPool) :=
  match ts with
  | [] => Done None
  | _ =>
      let! r := replace (MkPool strat [] [] ∅ 0 0 seed (MkHeap [] [])) ts in
      Done (Some (fst r))
  end.

Definition single (t : Target) (seed : Z) : exec TargetPool :=
  let! p := new RoundRobin [t] seed in expect p.

Definition len (p : TargetPool) : nat := length (members p).
Definition is_empty (p : TargetPool) : bool := match members p with [] => true | _ => false end.
Definition representative (p : TargetPool) : exec Target :=
  let! m := idx (members p) 0 in Done (m_target m).

(** [sum()] of [usize]s, wrapping as in a release build. *)
Definition usum (l : list Z) : Z := foldr wadd64 0%Z l.
Definition active_connections (p : TargetPool) : Z :=
  usum ((λ m, load_of (heap p) (m_load m)) <$> history p).

(** ** Selection *)

(** The loop of [random_index]: redraw while the output is below the
    threshold.  The loop is unbounded in the source; [count] draws are enough
    ([random_index_uniform]). *)
Fixpoint random_loop (fuel : nat) (state bound threshold : Z) : option (Z * nat) :=
  match fuel with
  | O => None
  | S fuel' =>
      let '(state, z) := splitmix64 state in
      if (threshold <=? z)%Z then Some (state, Z.to_nat (z mod bound))
      else random_loop fuel' state bound threshold
  end.
Definition rejection_threshold (count : nat) : Z :=
  (as_u64 (- as_u64 (Z.of_nat count)) mod as_u64 (Z.of_nat count))%Z.
Definition random_index (state : Z) (count : nat) : option (Z * nat) :=
  random_loop count state (as_u64 (Z.of_nat count)) (rejection_threshold count).

(** [iter.min_by_key(|(_, k)| *k)]: the first of the least elements. *)
Fixpoint min_by {A} (best : A * Z) (l : list (A * Z)) : A :=
  match l with
  | [] => fst best
  | x :: l' => min_by (if (snd x <? snd best)%Z then x else best) l'
  end.
Definition min_by_key {A} (l : list (A * Z)) : option A :=
  match l with [] => None | x :: l' => Some (min_by x l') end.

Definition least_ping (p : TargetPool) : option nat :=
  min_by_key (omap (λ im : nat * Member, (λ d, (im.1, d)) <$> m_ping im.2)
                (imap pair (members p))).

(** The members in rotation order from the cursor, with their loads. *)
Definition rotate (p : TargetPool) (round_robin count : nat) (acc : list (nat * Z))
    (offset : nat) : exec (list (nat * Z)) :=
  let i := (round_robin + offset) mod count in
  let! m := idx (members p) i in
  Done (acc ++ [(i, load_of (heap p) (m_load m))]).
Definition rotation (p : TargetPool) (round_robin count : nat) : exec (list (nat * Z)) :=
  exec_fold (rotate p round_robin count) (seq 0 count) [].

(** The chosen index and the new state of the generator. *)
Definition select (p : TargetPool) (count round_robin : nat) : exec (nat * Z) :=
  match strategy p with
  | RoundRobin => Done (round_robin, random p)
  | Random =>
      let! r := expect (random_index (random p) count) in Done (snd r, fst r)
  | LeastPing => Done (default round_robin (least_ping p), random p)
  | LeastLoad =>
      let! l := rotation p round_robin count in
      let! i := expect (min_by_key l) in Done (i, random p)
  end.

Definition add_load (h : Heap) (a : nat) (d : Z) : Heap :=
  MkHeap (alter (λ n, wadd64 n d) a (loads h)) (traffics h).

Definition acquire (p : TargetPool) : exec (TargetPool * TargetLease) :=
  let count := length (members p) in
  rassert (negb (count =? 0))   (* [cursor % count] *)
  (let round_robin := cursor p mod count in
   let! r := select p count round_robin in
   let '(index, rnd) := r in
   let! m := idx (members p) index in
   Done (MkPool (strategy p) (members p) (history p) (history_indices p)
           ((index + 1) mod count) (generation p) rnd (add_load (heap p) (m_load m) 1),
         MkLease (m_target m) (m_load m) (m_traffic m))).

(** [Drop for TargetLease] *)
Definition with_heap (p : TargetPool) (h : Heap) : TargetPool :=
  MkPool (strategy p) (members p) (history p) (history_indices p) (cursor p) (generation p)
    (random p) h.
Definition drop_lease (p : TargetPool) (l : TargetLease) : TargetPool :=
  with_heap p (add_load (heap p) (l_load l) (-1)).

(** ** Ping results *)
Definition probe_snapshot (p : TargetPool) : Z * list Target :=
  (generation p, m_target <$> members p).

Definition set_ping (m : Member) (ping : option Duration) : Member :=
  MkMember (m_target m) ping (m_load m) (m_traffic m) Live.

Definition update_ping (p : TargetPool) (gen : Z) (t : Target) (ping : option Duration)
    : exec TargetPool :=
  if negb (generation p =? gen)%Z then Done p else
  match list_find (λ m, mkey m = key t) (members p) with
  | None => Done p
  | Some (j, m) =>
      let ms := <[j := set_ping m ping]> (members p) in
      let! i := expect (history_indices p !! key t) in
      let! old := idx (history p) i in
      let! hist := upd (history p) i (set_ping old ping) in
      Done (MkPool (strategy p) ms hist (history_indices p) (cursor p) (generation p)
              (random p) (heap p))
  end.

(** ** Snapshots *)
Record TargetSnapshot := MkTargetSnapshot {
  ts_target : Target; ts_rank : option nat; ts_ping : option Duration;
  ts_ping_source : PingSource; ts_active_connections : Z;
  ts_c2s_bytes : Z; ts_s2c_bytes : Z }.

Definition sample (p : TargetPool) (m : Member) (rank : option nat) : TargetSnapshot :=
  MkTargetSnapshot (m_target m) rank (m_ping m) (m_ping_source m)
    (load_of (heap p) (m_load m)) (fst (traffic_of (heap p) (m_traffic m)))
    (snd (traffic_of (heap p) (m_traffic m))).

Definition retired (p : TargetPool) : list Member :=
  filter (λ m, mkey m ∉ (list_to_set (mkey <$> members p) : gset TargetKey)) (history p).

Definition snapshot (p : TargetPool) : list TargetSnapshot :=
  imap (λ i m, sample p m (Some (i + 1))) (members p) ++
  ((λ m, sample p m None) <$> retired p).

(** ** Runs

    The pool with the leases the workers hold.  A worker adds to the traffic
    counters of its lease ([fetch_add]) and drops it when its future ends. *)
Record World := MkWorld { w_pool : TargetPool; w_leases : list TargetLease }.

Inductive Action :=
  | Acquire
  | Drop (i : nat)                              (* the [i]-th lease held *)
  | Replace (ts : list Target)
  | UpdatePing (gen : Z) (t : Target) (ping : option Duration)
  | Relay (i : nat) (c2s s2c : Z).

Definition add_traffic (h : Heap) (a : nat) (c2s s2c : Z) : Heap :=
  MkHeap (loads h) (alter (λ t, (wadd64 (fst t) c2s, wadd64 (snd t) s2c)) a (traffics h)).

Definition perform (w : World) (a : Action) : exec World :=
  let p := w_pool w in
  match a with
  | Acquire => let! r := acquire p in Done (MkWorld (fst r) (w_leases w ++ [snd r]))
  | Drop i =>
      match w_leases w !! i with
      | Some l => Done (MkWorld (drop_lease p l) (delete i (w_leases w)))
      | None => Done w
      end
  | Replace ts => let! r := replace p ts in Done (MkWorld (fst r) (w_leases w))
  | UpdatePing gen t ping => let! p := update_ping p gen t ping in Done (MkWorld p (w_leases w))
  | Relay i c2s s2c =>
      match w_leases w !! i with
      | Some l => Done (MkWorld (with_heap p (add_traffic (heap p) (l_traffic l) c2s s2c))
                          (w_leases w))
      | None => Done w
      end
  end.

Definition start (strat : SelectionStrategy) (ts : list Target) (seed : Z) (acts : list Action)
    : exec World :=
  let! p := new strat ts seed in
  let! p := expect p in
  exec_fold perform acts (MkWorld p []).

Definition ex_target (n ping : Z) : Target :=
  MkTarget (IpV4 n) None 90 (Some (from_millis ping)) None.
Definition ips (r : exec World) : list IpAddr :=
  match r with Done w => (λ l, t_ip (l_target l)) <$> w_leases w | Panic => [] end.

Example round_robin_wraps :
  ips (start RoundRobin [ex_target 1 30; ex_target 2 10] 7 (replicate 5 Acquire))
  = [IpV4 1; IpV4 2; IpV4 1; IpV4 2; IpV4 1].
Proof. vm_compute. reflexivity. Qed.

Example replacement_keeps_loads :
  ips (start LeastLoad [ex_target 1 30; ex_target 2 10] 7
    [Acquire; Replace [ex_target 1 20; ex_target 3 10]; Acquire;
     Replace [ex_target 2 10]; Replace [ex_target 1 20; ex_target 2 10]; Acquire])
  = [IpV4 1; IpV4 3; IpV4 2].
Proof. vm_compute. reflexivity. Qed.

Example random_spreads :
  ips (start Random ((λ n, ex_target n 10) <$> [1; 2; 3; 4])%Z 42 (replicate 6 Acquire))
  = [IpV4 2; IpV4 4; IpV4 3; IpV4 1; IpV4 3; IpV4 3].
Proof. vm_compute. reflexivity. Qed.

(** ** The generator *)
Section random_facts.
Local Open Scope Z_scope.

Lemma lxor_u64 a b : is_u64 a → is_u64 b → is_u64 (Z.lxor a b).
Proof.
  intros Ha Hb. unfold is_u64 in *.
  enough (Z.lxor a b = Z.lxor a b mod 2 ^ 64) as -> by (apply Z.mod_pos_bound; lia).
  apply Z.bits_inj'. intros n Hn.
  destruct (Z.ltb_spec n 64).
  - by rewrite Z.mod_pow2_bits_low by lia.
  - rewrite Z.mod_pow2_bits_high by lia. rewrite Z.lxor_spec.
    rewrite <- (Z.mod_small a (2 ^ 64)), <- (Z.mod_small b (2 ^ 64)) by lia.
    by rewrite !Z.mod_pow2_bits_high by lia.
Qed.

Definition xorshift (k z : Z) : Z := Z.lxor z (Z.shiftr z k).

Lemma xorshift_u64 k z : 0 <= k → is_u64 z → is_u64 (xorshift k z).
Proof.
  intros Hk Hz. apply lxor_u64; [done|]. unfold is_u64 in *.
  rewrite Z.shiftr_div_pow2 by done. split; [apply Z.div_pos; lia|].
  apply Z.le_lt_trans with z; [|lia]. apply Z.div_le_upper_bound; [lia|].
  assert (1 <= 2 ^ k) by lia. nia.
Qed.

Lemma xorshift_inj k x y : 0 < k → is_u64 x → is_u64 y →
  xorshift k x = xorshift k y → x = y.
Proof.
  unfold xorshift, is_u64. intros Hk Hx Hy H.
  assert (Z.lxor x y = Z.shiftr (Z.lxor x y) k) as Hd.
  { rewrite Z.shiftr_lxor.
    apply (f_equal (λ v, Z.lxor (Z.lxor v (Z.shiftr x k)) y)) in H.
    rewrite (Z.lxor_assoc x), Z.lxor_nilpotent, Z.lxor_0_r in H. rewrite H.
    apply Z.bits_inj'. intros n _. rewrite !Z.lxor_spec.
    by destruct (Z.testbit y n), (Z.testbit (Z.shiftr x k) n), (Z.testbit (Z.shiftr y k) n). }
  assert (0 <= Z.lxor x y) as Hp by (apply Z.lxor_nonneg; lia).
  rewrite Z.shiftr_div_pow2 in Hd by lia.
  apply Z.lxor_eq. assert (2 <= 2 ^ k).
  { replace k with (1 + (k - 1)) by lia. rewrite Z.pow_add_r by lia.
    assert (1 <= 2 ^ (k - 1)) by lia. lia. }
  destruct (Z.eq_dec (Z.lxor x y) 0) as [|Hn]; [done|].
  assert (Z.lxor x y / 2 ^ k < Z.lxor x y) by (apply Z.div_lt; lia). lia.
Qed.

(** Multiplication by a constant with an inverse modulo [2^64]. *)
Lemma wmul64_inj c ci x y : (c * ci) mod 2 ^ 64 = 1 → is_u64 x → is_u64 y →
  wmul64 x c = wmul64 y c → x = y.
Proof.
  unfold wmul64, is_u64. intros Hc Hx Hy H.
  assert (∀ v, 0 <= v < 2 ^ 64 → ((v * c) mod 2 ^ 64 * ci) mod 2 ^ 64 = v) as Hv.
  { intros v Hv. rewrite Zmult_mod_idemp_l. replace (v * c * ci) with (v * (c * ci)) by lia.
    rewrite <- Zmult_mod_idemp_r, Hc, Z.mul_1_r. by apply Z.mod_small. }
  rewrite <- (Hv x), <- (Hv y), H by done. done.
Qed.

Definition mix (z : Z) : Z :=
  xorshift 31 (wmul64 (xorshift 27 (wmul64 (xorshift 30 z) 0xBF58476D1CE4E5B9))
    0x94D049BB133111EB).

Lemma splitmix64_mix s :
  splitmix64 s = (wadd64 s 0x9E3779B97F4A7C15, mix (wadd64 s 0x9E3779B97F4A7C15)).
Proof. done. Qed.

Lemma mix_u64 z : is_u64 z → is_u64 (mix z).
Proof. intros. apply xorshift_u64; [lia|apply wmul64_range]. Qed.

Lemma mix_inj x y : is_u64 x → is_u64 y → mix x = mix y → x = y.
Proof.
  unfold mix. intros Hx Hy H.
  apply xorshift_inj in H; [|lia|apply wmul64_range..].
  apply (wmul64_inj _ 0x319642b2d24d8ec3) in H;
    [|by vm_compute|apply xorshift_u64; [lia|apply wmul64_range]..].
  apply xorshift_inj in H; [|lia|apply wmul64_range..].
  apply (wmul64_inj _ 0x96de1b173f119089) in H;
    [|by vm_compute|by apply xorshift_u64..].
  by apply xorshift_inj in H.
Qed.

(** The [i]-th output drawn from a state. *)
Definition draw (s : Z) (i : nat) : Z :=
  mix ((s + (Z.of_nat i + 1) * 0x9E3779B97F4A7C15) mod 2 ^ 64).

Lemma draw_u64 s i : is_u64 (draw s i).
Proof. apply mix_u64, Z.mod_pos_bound. lia. Qed.

Lemma draw_inj s i j : (Z.of_nat i < 2 ^ 64) → (Z.of_nat j < 2 ^ 64) →
  draw s i = draw s j → i = j.
Proof.
  intros Hi Hj H. apply mix_inj in H; [|apply Z.mod_pos_bound; lia..].
  apply (f_equal (λ v, ((v - s) * 0xf1de83e19937733d) mod 2 ^ 64)) in H.
  rewrite <- !(Zmult_mod_idemp_l (_ mod _ - s)), !Zminus_mod_idemp_l, !Zmult_mod_idemp_l in H.
  assert (∀ k : Z, (s + (k + 1) * 0x9E3779B97F4A7C15 - s) * 0xf1de83e19937733d
            = (k + 1) * (0x9E3779B97F4A7C15 * 0xf1de83e19937733d)) as Hk by (intros; lia).
  rewrite !Hk in H.
  rewrite <- (Zmult_mod_idemp_r (_ * 0xf1de83e19937733d) (Z.of_nat i + 1)),
    <- (Zmult_mod_idemp_r (_ * 0xf1de83e19937733d) (Z.of_nat j + 1)) in H.
  replace ((0x9E3779B97F4A7C15 * 0xf1de83e19937733d) mod 2 ^ 64) with 1 in H by (by vm_compute).
  rewrite !Z.mul_1_r in H.
  apply (f_equal (λ v, (v - 1) mod 2 ^ 64)) in H. rewrite !Zminus_mod_idemp_l in H.
  rewrite !Z.add_simpl_r, !Z.mod_small in H by lia. lia.
Qed.

Lemma random_loop_S n s b t :
  random_loop (S n) s b t =
  let s' := wadd64 s 0x9E3779B97F4A7C15 in
  if t <=? mix s' then Some (s', Z.to_nat (mix s' mod b)) else random_loop n s' b t.
Proof. done. Qed.

Lemma random_loop_none n s b t : random_loop n s b t = None →
  ∀ i, (i < n)%nat → draw s i < t.
Proof.
  revert s. induction n as [|n IH]; intros s; [lia|].
  rewrite random_loop_S. cbv zeta. destruct (Z.leb_spec t (mix (wadd64 s 0x9E3779B97F4A7C15))); [done|].
  intros Hn [|i] Hi.
  - unfold draw. by rewrite Z.add_0_l, Z.mul_1_l.
  - specialize (IH _ Hn i ltac:(lia)). unfold draw, wadd64 in *.
    rewrite Zplus_mod_idemp_l in IH.
    by replace (s + (Z.of_nat (S i) + 1) * 0x9E3779B97F4A7C15)
      with (s + 0x9E3779B97F4A7C15 + (Z.of_nat i + 1) * 0x9E3779B97F4A7C15) by lia.
Qed.

Lemma random_loop_some n s b t s' i : 0 < b → random_loop n s b t = Some (s', i) →
  is_u64 s' ∧ Z.of_nat i < b.
Proof.
  intros Hb. revert s. induction n as [|n IH]; intros s; [done|].
  rewrite random_loop_S. cbv zeta. destruct (t <=? _); [|apply IH].
  intros [= <- <-]. split; [apply wadd64_range|].
  pose proof (Z.mod_pos_bound (mix (wadd64 s 0x9E3779B97F4A7C15)) b Hb). lia.
Qed.

(** As many outputs as the pool has members cannot all be below a threshold
    smaller than their number, since they are distinct. *)
Lemma random_loop_enough n s b t : 0 <= t < Z.of_nat n → Z.of_nat n < 2 ^ 64 →
  random_loop n s b t ≠ None.
Proof.
  intros Ht Hn H. pose proof (random_loop_none _ _ _ _ H) as Hd.
  set (l := (λ i, Z.to_nat (draw s i)) <$> seq 0 n).
  assert (NoDup l) as Hl.
  { apply NoDup_fmap_2_strong; [|apply NoDup_seq].
    intros i j Hi Hj E. apply elem_of_seq in Hi, Hj. apply (draw_inj s); [lia..|].
    pose proof (draw_u64 s i) as [? _]. pose proof (draw_u64 s j) as [? _]. lia. }
  assert (l ⊆+ seq 0 (Z.to_nat t)) as Hs.
  { apply NoDup_submseteq; [done|]. intros x Hx.
    apply list_elem_of_fmap in Hx as (i & -> & Hi). apply elem_of_seq in Hi.
    apply elem_of_seq. specialize (Hd i ltac:(lia)). pose proof (draw_u64 s i) as [? _]. lia. }
  apply submseteq_length in Hs. unfold l in Hs. rewrite length_fmap, !length_seq in Hs. lia.
Qed.

Lemma rejection_threshold_eq count : (0 < count)%nat → Z.of_nat count < 2 ^ 64 →
  rejection_threshold count = 2 ^ 64 mod Z.of_nat count.
Proof.
  intros H1 H2. unfold rejection_threshold, as_u64.
  rewrite (Z.mod_small (Z.of_nat count)) by lia.
  rewrite Z.mod_opp_l_nz by (rewrite ?Z.mod_small; lia).
  rewrite (Z.mod_small (Z.of_nat count)) by lia.
  rewrite <- (Zminus_mod_idemp_r (2 ^ 64)), Z.mod_same, Z.sub_0_r by lia. done.
Qed.

Lemma random_index_total s count : (0 < count)%nat → Z.of_nat count < 2 ^ 64 →
  ∃ s' i, random_index s count = Some (s', i) ∧ (i < count)%nat ∧ is_u64 s'.
Proof.
  intros H1 H2. unfold random_index.
  rewrite rejection_threshold_eq by done.
  pose proof (Z.mod_pos_bound (2 ^ 64) (Z.of_nat count) ltac:(lia)).
  unfold as_u64. rewrite Z.mod_small by lia.
  destruct (random_loop _ _ _ _) as [[s' i]|] eqn:E.
  - apply random_loop_some in E as [? ?]; [|lia]. exists s', i. split_and!; [done|lia|done].
  - by apply random_loop_enough in E; [|lia..].
Qed.

(** The accepted outputs that select index [r]. *)
Definition outputs_of (count : nat) (r : nat) : list Z :=
  let thr := rejection_threshold count in
  (λ j, thr + (Z.of_nat r - thr) mod Z.of_nat count + j * Z.of_nat count)
    <$> seqZ 0 (2 ^ 64 / Z.of_nat count).

(** [random_index] terminates: whatever the state of the generator, one
    of as many draws as there are members is accepted (the outputs of the
    generator are distinct and fewer are rejected than that), and the index
    is in range.  The choice is unbiased: every index is selected by the same
    number of the accepted 64-bit outputs. *)
Theorem random_index_uniform s count : (0 < count)%nat → Z.of_nat count < 2 ^ 64 →
  (∃ s' i, random_index s count = Some (s', i) ∧ (i < count)%nat ∧ is_u64 s') ∧
  ∀ r, (r < count)%nat →
    NoDup (outputs_of count r) ∧
    Z.of_nat (length (outputs_of count r)) = 2 ^ 64 / Z.of_nat count ∧
    ∀ z, z ∈ outputs_of count r ↔
      rejection_threshold count <= z < 2 ^ 64 ∧ z mod Z.of_nat count = Z.of_nat r.
Proof.
  intros H1 H2. split; [by apply random_index_total|]. intros r Hr. unfold outputs_of.
  rewrite rejection_threshold_eq by done. cbv zeta.
  set (c := Z.of_nat count) in *.
  pose proof (Z.div_mod (2 ^ 64) c ltac:(lia)) as Hdm.
  pose proof (Z.mod_pos_bound (2 ^ 64) c ltac:(lia)) as Hthr.
  set (thr := 2 ^ 64 mod c) in *. set (q := 2 ^ 64 / c) in *.
  pose proof (Z.mod_pos_bound (Z.of_nat r - thr) c ltac:(lia)) as Hf.
  assert (0 <= q) by (apply Z.div_pos; lia).
  split; [|split].
  - apply NoDup_fmap_2; [|apply NoDup_seqZ]. intros i j E. nia.
  - rewrite length_fmap, length_seqZ. lia.
  - intros z. rewrite list_elem_of_fmap. split.
    + intros (j & -> & Hj). apply elem_of_seqZ in Hj. split; [nia|].
      rewrite Z.mod_add by lia. rewrite Zplus_mod_idemp_r.
      replace (thr + (Z.of_nat r - thr)) with (Z.of_nat r) by lia. apply Z.mod_small. lia.
    + intros [Hz Hm]. exists ((z - thr) / c).
      assert ((z - thr) mod c = (Z.of_nat r - thr) mod c) as Hm'.
      { by rewrite <- Zminus_mod_idemp_l, Hm. }
      pose proof (Z.div_mod (z - thr) c ltac:(lia)) as Hdz. rewrite Hm' in Hdz.
      split; [lia|]. apply elem_of_seqZ. split; [apply Z.div_pos; lia|].
      apply Z.div_lt_upper_bound; lia.
Qed.

Lemma random_index_uniform_witness :
  (0 < 3)%nat ∧ ∃ s' i, random_index 42 3 = Some (s', i) ∧ (i < 3)%nat ∧ is_u64 s'.
Proof.
  split; [lia|]. apply (random_index_uniform 42 3); [lia|reflexivity].
Defined.
End random_facts.

(** ** Candidates *)
Lemma take_usize_take {A} limit (l : list A) : take_usize limit l = take (Z.to_nat limit) l.
Proof.
  revert limit. induction l as [|x l IH]; intros limit; simpl; [by rewrite take_nil|].
  destruct (Z.leb_spec limit 0).
  - by replace (Z.to_nat limit) with 0 by lia.
  - rewrite IH. by replace (Z.to_nat limit) with (S (Z.to_nat (limit - 1))) by lia.
Qed.

Lemma unseen_sublist seen ts : unseen seen ts `sublist_of` ts.
Proof.
  revert seen. induction ts as [|t ts IH]; intros seen; simpl; [constructor|].
  case_decide; by constructor.
Qed.

Lemma elem_of_unseen seen ts k :
  k ∈ key <$> unseen seen ts ↔ k ∈ key <$> ts ∧ k ∉ seen.
Proof.
  revert seen. induction ts as [|t ts IH]; intros seen; simpl; [set_solver|].
  case_decide; csimpl; rewrite ?elem_of_cons, IH; [set_solver|].
  destruct (decide (k = key t)) as [->|]; set_solver.
Qed.

Lemma unseen_NoDup seen ts : NoDup (key <$> unseen seen ts).
Proof.
  revert seen. induction ts as [|t ts IH]; intros seen; simpl; [constructor|].
  case_decide; [done|]. csimpl. constructor; [|done].
  rewrite elem_of_unseen. set_solver.
Qed.

(** The element kept for a key is the first that has it. *)
Lemma unseen_first seen ts t : t ∈ unseen seen ts →
  ∃ pre post, ts = pre ++ t :: post ∧ key t ∉ key <$> pre.
Proof.
  revert seen. induction ts as [|u ts IH]; intros seen; simpl; [set_solver|].
  case_decide as Hu.
  - intros Ht. destruct (IH _ Ht) as (pre & post & -> & Hn). exists (u :: pre), post.
    split; [done|]. csimpl. rewrite not_elem_of_cons. split; [|done].
    assert (key t ∈ key <$> unseen seen (pre ++ t :: post)) as Hk
      by (by apply list_elem_of_fmap_2).
    apply elem_of_unseen in Hk as [_ Hk]. by intros E; rewrite E in Hk.
  - rewrite elem_of_cons. intros [->|Ht]; [by exists [], ts; split; [|apply not_elem_of_nil]|].
    destruct (IH _ Ht) as (pre & post & -> & Hn). exists (u :: pre), post.
    split; [done|]. csimpl. rewrite not_elem_of_cons. split; [|done].
    assert (key t ∈ key <$> unseen ({[key u]} ∪ seen) (pre ++ t :: post)) as Hk
      by (by apply list_elem_of_fmap_2).
    apply elem_of_unseen in Hk as [_ Hk]. rewrite elem_of_union, elem_of_singleton in Hk. tauto.
Qed.

Lemma unseen_length ts :
  length (unseen ∅ ts) = size (list_to_set (key <$> ts) : gset TargetKey).
Proof.
  rewrite <- (length_fmap key), <- (size_list_to_set (C:=gset TargetKey)) by apply unseen_NoDup.
  f_equal. apply set_eq. intros k. rewrite !elem_of_list_to_set, elem_of_unseen. set_solver.
Qed.

(** [l] is what a ranked list of targets selects under a limit. *)
Definition ranked_selection (ranked : list Target) (limit : Z) (l : list Target) : Prop :=
  l `sublist_of` ranked ∧ NoDup (key <$> l) ∧
  length l = min (Z.to_nat limit) (size (list_to_set (key <$> ranked) : gset TargetKey)) ∧
  ∀ t, t ∈ l → ∃ pre post, ranked = pre ++ t :: post ∧ key t ∉ key <$> pre.

Lemma unique_targets_selection ts limit : ranked_selection ts limit (unique_targets ts limit).
Proof.
  unfold ranked_selection, unique_targets. rewrite take_usize_take. split_and!.
  - etrans; [apply sublist_take|apply unseen_sublist].
  - rewrite fmap_take. eapply sublist_NoDup; [apply unseen_NoDup|apply sublist_take].
  - rewrite length_take, unseen_length. done.
  - intros t Ht. eapply unseen_first. by eapply subseteq_take.
Qed.

(** The candidates of a scan are a ranked selection of its eligible
    entries (measured, with the score floor and never 0): in scan order, one
    target per name and address, the first entry that has it, and as many as
    there are up to the limit. *)
Theorem candidates_ranked sni_entries ip_entries limit min_score :
  ranked_selection (from_sni <$> filter (sni_eligible min_score) sni_entries) limit
    (sni_candidates sni_entries limit min_score) ∧
  ranked_selection (from_ip <$> filter ip_eligible ip_entries) limit
    (ip_candidates ip_entries limit).
Proof. split; apply unique_targets_selection. Qed.

(** ** The invariant *)

(** The history: one entry per key, indexed, the [i]-th holding the [i]-th
    cells of the heap. *)
Record hist_ok (hist : list Member) (idxs : gmap TargetKey nat) (h : Heap) : Prop := {
  ho_nodup : NoDup (mkey <$> hist);
  ho_index : ∀ k i, idxs !! k = Some i ↔ (mkey <$> hist) !! i = Some k;
  ho_cells : ∀ i m, hist !! i = Some m → m_load m = i ∧ m_traffic m = i;
  ho_loads : length (loads h) = length hist;
  ho_traffics : length (traffics h) = length hist }.

Record pool_ok (p : TargetPool) : Prop := {
  po_hist : hist_ok (history p) (history_indices p) (heap p);
  po_nodup : NoDup (mkey <$> members p);
  po_members : members p ⊆ history p;
  po_cursor : cursor p < length (members p);
  po_bound : (Z.of_nat (length (members p)) < 2 ^ 64)%Z }.

(** A list of history entries after [replace_one]s: new keys at the end, with
    fresh counters; the counters of the others as they were. *)
Definition extends (ks : list TargetKey) (hist : list Member) (h : Heap)
    (hist' : list Member) (h' : Heap) : Prop :=
  ∃ news, news ⊆ ks ∧ mkey <$> hist' = (mkey <$> hist) ++ news ∧
    loads h' = loads h ++ replicate (length news) 0%Z ∧
    traffics h' = traffics h ++ replicate (length news) (0%Z, 0%Z).

Lemma extends_refl ks hist h : extends ks hist h hist h.
Proof. exists []. rewrite !app_nil_r. split_and!; try done. apply list_subseteq_nil. Qed.

Lemma extends_trans ks1 ks2 hist1 h1 hist2 h2 hist3 h3 :
  extends ks1 hist1 h1 hist2 h2 → extends ks2 hist2 h2 hist3 h3 →
  extends (ks1 ++ ks2) hist1 h1 hist3 h3.
Proof.
  intros (n1 & S1 & K1 & L1 & T1) (n2 & S2 & K2 & L2 & T2). exists (n1 ++ n2).
  rewrite K2, K1, L2, L1, T2, T1, length_app, !replicate_add, <- !app_assoc.
  split; [|done]. intros k. rewrite !elem_of_app. intros [?|?]; auto.
Qed.

(** Replacing an entry by one with the same key and cells. *)
Lemma hist_ok_insert hist idxs h i m m' :
  hist_ok hist idxs h → hist !! i = Some m → mkey m' = mkey m →
  m_load m' = m_load m → m_traffic m' = m_traffic m →
  hist_ok (<[i := m']> hist) idxs h ∧ mkey <$> <[i := m']> hist = mkey <$> hist.
Proof.
  intros [] Hi Hk Hl Ht.
  assert (mkey <$> <[i := m']> hist = mkey <$> hist) as E.
  { rewrite list_fmap_insert. apply list_insert_id. by rewrite list_lookup_fmap, Hi, Hk. }
  split; [|done]. split; rewrite ?E, ?length_insert; [done..| |done|done].
  intros j n [(<- & <- & _)|[? ?]]%list_lookup_insert_Some; [|by eauto].
  rewrite Hl, Ht. by eauto.
Qed.

Lemma hist_ok_new hist idxs h m :
  hist_ok hist idxs h → idxs !! mkey m = None →
  m_load m = length (loads h) → m_traffic m = length (traffics h) →
  hist_ok (hist ++ [m]) (<[mkey m := length hist]> idxs)
    (MkHeap (loads h ++ [0%Z]) (traffics h ++ [(0%Z, 0%Z)])).
Proof.
  intros [Hn Hx Hc Hl Ht] Hm El Et.
  assert (mkey m ∉ mkey <$> hist) as Hf.
  { intros [i Hi]%list_elem_of_lookup. apply Hx in Hi. congruence. }
  split; simpl.
  - rewrite fmap_app. apply NoDup_app. split_and!; [done| |apply NoDup_singleton].
    simpl. by intros k Hk ->%list_elem_of_singleton.
  - intros k i. rewrite lookup_insert_Some, fmap_app, lookup_app_Some, Hx, length_fmap.
    simpl. split.
    + intros [(<- & <-)|[Hne Hi]]; [right|by left].
      by rewrite Nat.sub_diag.
    + intros [Hi|[Hi Hk]].
      * right. split; [|done]. intros <-. by apply Hf; eapply list_elem_of_lookup_2.
      * left. apply list_lookup_singleton_Some in Hk as [? <-]. split; [done|lia].
  - intros i n [Hi|[Hi Hk]]%lookup_app_Some; [by eauto|].
    apply list_lookup_singleton_Some in Hk as [? <-]. lia.
  - rewrite !length_app. simpl. lia.
  - rewrite !length_app. simpl. lia.
Qed.

(** A member as [replace] makes it from a target. *)
Definition fresh (t : Target) (m : Member) : Prop :=
  m_target m = t ∧ m_ping m = tcp_latency t ∧ m_ping_source m = Scan.

Lemma fresh_targets ts ms : Forall2 fresh ts ms → m_target <$> ms = ts.
Proof. induction 1 as [|t m ts ms (Ht & _ & _) _ IH]; csimpl; [done|]. by rewrite Ht, IH. Qed.

Lemma fresh_keys ts ms : Forall2 fresh ts ms → mkey <$> ms = key <$> ts.
Proof. intros H. rewrite <- (fresh_targets ts ms H), <- list_fmap_compose. done. Qed.

Lemma replace_one_spec t ms hist idxs h :
  hist_ok hist idxs h → ms ⊆ hist → key t ∉ mkey <$> ms →
  ∃ m hist' idxs' h', replace_one (ms, (hist, idxs, h)) t = Done (ms ++ [m], (hist', idxs', h')) ∧
    hist_ok hist' idxs' h' ∧ ms ++ [m] ⊆ hist' ∧ fresh t m ∧ extends [key t] hist h hist' h'.
Proof.
  intros Hh Hms Ht. unfold replace_one. destruct (idxs !! key t) as [i|] eqn:Ei.
  - apply (ho_index _ _ _ Hh) in Ei as Hi.
    rewrite list_lookup_fmap in Hi. apply fmap_Some in Hi as (old & Hi & Hk).
    rewrite (idx_lookup hist i old Hi). simpl.
    pose proof (lookup_lt_Some _ _ _ Hi).
    rewrite upd_done by done. simpl.
    destruct (hist_ok_insert hist idxs h i old
      (MkMember t (tcp_latency t) (m_load old) (m_traffic old) Scan)) as [H1 H2]; [done..|].
    do 4 eexists. split; [done|]. split_and!; [done| |by split_and!|].
    + intros n [Hn| ->%list_elem_of_singleton]%elem_of_app.
      * apply Hms in Hn as Hn'. apply list_elem_of_lookup in Hn' as [j Hj].
        apply (list_elem_of_lookup_2 _ j). rewrite list_lookup_insert_ne; [done|].
        intros <-. apply Ht. assert (old = n) as -> by congruence.
        rewrite Hk. by apply list_elem_of_fmap_2.
      * apply (list_elem_of_lookup_2 _ i). by apply list_lookup_insert_eq.
    + exists []. rewrite H2, !app_nil_r. split_and!; try done. apply list_subseteq_nil.
  - do 4 eexists. split; [done|]. split_and!.
    + by apply (hist_ok_new hist idxs h (MkMember t _ _ _ _)).
    + intros n [Hn| ->%list_elem_of_singleton]%elem_of_app; apply elem_of_app; [|right; left].
      left. by apply Hms.
    + by split_and!.
    + exists [key t]. by rewrite fmap_app.
Qed.

Lemma replace_loop_spec todo : ∀ done ms hist idxs h,
  hist_ok hist idxs h → ms ⊆ hist → Forall2 fresh done ms → NoDup (key <$> (done ++ todo)) →
  ∃ ms' hist' idxs' h',
    exec_fold replace_one todo (ms, (hist, idxs, h)) = Done (ms', (hist', idxs', h')) ∧
    hist_ok hist' idxs' h' ∧ ms' ⊆ hist' ∧ Forall2 fresh (done ++ todo) ms' ∧
    extends (key <$> todo) hist h hist' h'.
Proof.
  induction todo as [|t todo IH]; intros dn ms hist idxs h Hh Hms Hf Hn; cbn [exec_fold].
  - do 4 eexists. split; [done|]. rewrite app_nil_r. split_and!; [done..|apply extends_refl].
  - assert (key t ∉ mkey <$> ms) as Ht.
    { rewrite (fresh_keys _ _ Hf). intros Hin. rewrite fmap_app in Hn.
      apply NoDup_app in Hn as (_ & Hn & _). apply (Hn _ Hin). csimpl. left. }
    destruct (replace_one_spec t ms hist idxs h Hh Hms Ht)
      as (m & hist1 & idxs1 & h1 & -> & Hh1 & Hms1 & Hfm & He). simpl.
    assert (∀ l : list Target, l ++ t :: todo = (l ++ [t]) ++ todo) as Hmid
      by (intros; by rewrite <- app_assoc).
    rewrite Hmid in Hn |- *.
    destruct (IH (dn ++ [t]) (ms ++ [m]) hist1 idxs1 h1)
      as (ms' & hist' & idxs' & h' & E & Hh' & Hms' & Hf' & He'); [done..| |done|].
    { apply Forall2_app; [done|]. by apply Forall2_cons_2. }
    do 4 eexists. split; [exact E|]. split_and!; [done..|]. by eapply (extends_trans [key t]).
Qed.

Lemma unique_targets_nonempty t ts : unique_targets (t :: ts) usize_max ≠ [].
Proof.
  unfold unique_targets. simpl. rewrite decide_False by set_solver. done.
Qed.

Lemma replace_spec p ts : hist_ok (history p) (history_indices p) (heap p) → ts ≠ [] →
  ∃ p', replace p ts = Done (p', negb (bool_decide (mkey <$> members p =
                                              key <$> unique_targets ts usize_max))) ∧
    pool_ok p' ∧ Forall2 fresh (unique_targets ts usize_max) (members p') ∧
    extends (key <$> unique_targets ts usize_max) (history p) (heap p) (history p') (heap p') ∧
    strategy p' = strategy p ∧ cursor p' = 0 ∧ generation p' = wadd64 (generation p) 1 ∧
    random p' = random p.
Proof.
  intros Hh Hts. pose proof (unique_targets_selection ts usize_max) as (_ & Hn & Hl & _).
  assert (unique_targets ts usize_max ≠ []) as Hne
    by (destruct ts; [done|apply unique_targets_nonempty]).
  destruct (replace_loop_spec (unique_targets ts usize_max) [] [] (history p)
    (history_indices p) (heap p))
    as (ms' & hist' & idxs' & h' & E & Hh' & Hms' & Hf' & He');
    [done|apply list_subseteq_nil|constructor|done|].
  unfold replace. destruct ts; [done|]. rewrite E. simpl.
  eexists. split; [done|]. pose proof (Forall2_length _ _ _ Hf') as HL. simpl in HL.
  split_and!; [|done..]. split; simpl; [done| |done| |].
  - by rewrite (fresh_keys _ _ Hf').
  - rewrite <- HL. destruct (unique_targets _ _); [done|]. simpl. lia.
  - rewrite <- HL, Hl. unfold usize_max. lia.
Qed.

(** ** Selection *)

(** [min_by_key] over a list whose entries are in the order [R]: a least
    value, and the first entry that has it. *)
Lemma min_by_spec {A} (R : A → A → Prop) `{!Transitive R} (l : list (A * Z)) a v :
  StronglySorted (λ x y, R x.1 y.1) l →
  (∀ b w, (b, w) ∈ l → R a b) →
  ∃ w, ((min_by (a, v) l, w) = (a, v) ∨ (min_by (a, v) l, w) ∈ l) ∧ (w ≤ v)%Z ∧
    (w = v → min_by (a, v) l = a) ∧
    ∀ b u, (b, u) ∈ l → (w ≤ u)%Z ∧ (u = w → b = min_by (a, v) l ∨ R (min_by (a, v) l) b).
Proof.
  intros Hs. revert a v. induction Hs as [|[c u] l Hs IH Hc]; intros a v Ha; simpl.
  - exists v. split_and!; [by left|lia|done|]. intros b w Hb. by apply elem_of_nil in Hb.
  - assert (R a c) as Hac by (apply (Ha c u); left).
    rewrite Forall_forall in Hc. destruct (Z.ltb_spec u v) as [Hlt|Hge]; cbn [fst snd].
    + destruct (IH c u) as (w & Hin & Hw & Heq & Hall); [intros b y Hb; by apply (Hc (b, y))|].
      exists w. split_and!; [|lia|lia|].
      * right. destruct Hin as [->|?]; [left|by right].
      * intros b y [[= -> ->]|Hb]%elem_of_cons; [|by auto]. split; [done|].
        intros E. left. symmetry. by apply Heq.
    + destruct (IH a v) as (w & Hin & Hw & Heq & Hall).
      { intros b y Hb. etrans; [exact Hac|]. by apply (Hc (b, y)). }
      exists w. split_and!; [|lia|done|].
      * destruct Hin as [->|?]; [by left|by right; right].
      * intros b y [[= -> ->]|Hb]%elem_of_cons; [|by auto]. split; [lia|].
        intros ->. right. rewrite Heq by lia. done.
Qed.

Lemma min_by_key_spec {A} (R : A → A → Prop) `{!Transitive R} (l : list (A * Z)) a :
  StronglySorted (λ x y, R x.1 y.1) l → min_by_key l = Some a →
  ∃ w, (a, w) ∈ l ∧ ∀ b u, (b, u) ∈ l → (w ≤ u)%Z ∧ (u = w → b = a ∨ R a b).
Proof.
  destruct l as [|[c v] l]; [done|]. simpl. intros Hs [= <-].
  apply StronglySorted_inv in Hs as [Hs Hc]. rewrite Forall_forall in Hc.
  destruct (min_by_spec R l c v Hs) as (w & Hin & Hw & Heq & Hall).
  { intros b u Hb. by apply (Hc (b, u)). }
  exists w. split.
  - destruct Hin as [->|?]; [left|by right].
  - intros b u [[= -> ->]|Hb]%elem_of_cons; [|by auto]. split; [done|].
    intros E. left. symmetry. by apply Heq.
Qed.

Lemma min_by_key_some {A} (l : list (A * Z)) : l ≠ [] → is_Some (min_by_key l).
Proof. destruct l; [done|]. by eexists. Qed.

(** The measured members with their positions. *)
Lemma elem_of_measured (ms : list Member) i d :
  (i, d) ∈ omap (λ im : nat * Member, (λ d, (im.1, d)) <$> m_ping im.2) (imap pair ms) ↔
  ∃ m, ms !! i = Some m ∧ m_ping m = Some d.
Proof.
  rewrite list_elem_of_omap. split.
  - intros ([j m] & Hin & Hd). apply elem_of_lookup_imap in Hin as (k & y & [= -> ->] & Hk).
    simpl in Hd. destruct (m_ping y) as [e|] eqn:E; [|done].
    injection Hd as -> ->. by exists y.
  - intros (m & Hi & Hd). exists (i, m). simpl. rewrite Hd. split; [|done].
    apply elem_of_lookup_imap. by exists i, m.
Qed.

Lemma measured_sorted (ms : list Member) k :
  StronglySorted (λ x y : nat * Z, x.1 < y.1)
    (omap (λ im : nat * Member, (λ d, (im.1, d)) <$> m_ping im.2)
      (imap (λ i m, (k + i, m)) ms)).
Proof.
  revert k. induction ms as [|m ms IH]; intros k; simpl; [constructor|].
  rewrite (imap_ext _ (λ i m, (S k + i, m))) by (intros; simpl; f_equal; lia).
  destruct (m_ping m) as [d|]; simpl; [|apply (IH (S k))].
  constructor; [apply (IH (S k))|]. apply Forall_forall. intros [j e].
  rewrite list_elem_of_omap. intros ([j' m'] & Hin & He).
  apply elem_of_lookup_imap in Hin as (i & y & [= -> ->] & _).
  simpl in He. destruct (m_ping y); [|done]. injection He as <- <-. simpl. lia.
Qed.

(** [i] is the first of the members with the least ping. *)
Definition first_least_ping (p : TargetPool) (i : nat) : Prop :=
  ∃ m d, members p !! i = Some m ∧ m_ping m = Some d ∧
    ∀ j m' d', members p !! j = Some m' → m_ping m' = Some d' →
      (d ≤ d')%Z ∧ (d' = d → i ≤ j).

Lemma least_ping_spec p i : least_ping p = Some i → first_least_ping p i.
Proof.
  unfold least_ping. intros Hi.
  apply (min_by_key_spec lt) in Hi as (d & Hin & Hmin); [|apply (measured_sorted _ 0)].
  apply elem_of_measured in Hin as (m & Hm & Hd). exists m, d. split_and!; [done..|].
  intros j m' d' Hj Hd'. destruct (Hmin j d') as [? Hord]; [apply elem_of_measured; eauto|].
  split; [done|]. intros E. destruct (Hord E); lia.
Qed.

Lemma least_ping_none p : least_ping p = None → ∀ m, m ∈ members p → m_ping m = None.
Proof.
  unfold least_ping. intros Hn m [i Hi]%list_elem_of_lookup.
  destruct (m_ping m) as [d|] eqn:E; [|done].
  assert ((i, d) ∈ omap (λ im : nat * Member, (λ d, (im.1, d)) <$> m_ping im.2)
            (imap pair (members p))) as Hin by (apply elem_of_measured; eauto).
  destruct (omap _ _); [by apply elem_of_nil in Hin|done].
Qed.

(** The distance of a member from the cursor in rotation order. *)
Definition offset_from (count rr i : nat) : nat := (i + count - rr) mod count.

Lemma offset_from_rotate count rr o : rr < count → o < count →
  offset_from count rr ((rr + o) mod count) = o.
Proof.
  intros Hr Ho. unfold offset_from.
  destruct (le_lt_dec count (rr + o)) as [Hc|Hc].
  - rewrite (Nat.mod_eq (rr + o)) by lia.
    replace ((rr + o) / count) with 1
      by (apply (Nat.div_unique _ _ 1 (rr + o - count)); lia).
    replace (rr + o - count * 1 + count - rr) with o by lia. by apply Nat.mod_small.
  - rewrite (Nat.mod_small (rr + o)) by lia.
    replace (rr + o + count - rr) with (o + 1 * count) by lia.
    rewrite Nat.Div0.mod_add. by apply Nat.mod_small.
Qed.

Lemma rotate_offset_from count rr i : rr < count → i < count →
  (rr + offset_from count rr i) mod count = i ∧ offset_from count rr i < count.
Proof.
  intros Hr Hi. split; [|by apply Nat.mod_upper_bound; lia]. unfold offset_from.
  rewrite Nat.Div0.add_mod_idemp_r. replace (rr + (i + count - rr)) with (i + 1 * count) by lia.
  rewrite Nat.Div0.mod_add. by apply Nat.mod_small.
Qed.

Lemma rotation_spec p rr count : count = length (members p) → 0 < count →
  ∃ l, rotation p rr count = Done l ∧
    (λ x, x.1) <$> l = (λ o, (rr + o) mod count) <$> seq 0 count ∧
    ∀ i v, (i, v) ∈ l → ∃ m, members p !! i = Some m ∧ v = load_of (heap p) (m_load m).
Proof.
  intros Hc Hp. unfold rotation.
  assert (∀ os acc, ∃ l, exec_fold (rotate p rr count) os acc = Done (acc ++ l) ∧
    (λ x, x.1) <$> l = (λ o, (rr + o) mod count) <$> os ∧
    ∀ i v, (i, v) ∈ l → ∃ m, members p !! i = Some m ∧ v = load_of (heap p) (m_load m))
    as H; [|apply (H (seq 0 count) [])].
  induction os as [|o os IH]; intros acc; cbn [exec_fold].
  - exists []. rewrite app_nil_r. split_and!; [done..|]. by intros i v Hi%elem_of_nil.
  - unfold rotate at 1. cbv zeta. destruct (idx_done (members p) ((rr + o) mod count)) as (m & -> & Hm).
    { rewrite <- Hc. apply Nat.mod_upper_bound. lia. }
    cbn [exec_bind]. destruct (IH (acc ++ [((rr + o) mod count, load_of (heap p) (m_load m))]))
      as (l & -> & Hl & Hall).
    exists (((rr + o) mod count, load_of (heap p) (m_load m)) :: l).
    rewrite <- app_assoc. split_and!; [done|csimpl; by rewrite Hl|].
    intros i v [[= -> ->]|Hi]%elem_of_cons; eauto.
Qed.

Lemma StronglySorted_fmap {A B} (f : A → B) (R : B → B → Prop) l :
  StronglySorted R (f <$> l) → StronglySorted (λ x y, R (f x) (f y)) l.
Proof.
  induction l as [|x l IH]; csimpl; [constructor|].
  intros [H Hx]%StronglySorted_inv. constructor; [by apply IH|]. by rewrite Forall_fmap in Hx.
Qed.

Definition before (count rr i j : nat) : Prop :=
  offset_from count rr i < offset_from count rr j.
#[export] Instance before_trans count rr : Transitive (before count rr).
Proof. unfold before. intros ???. lia. Qed.

Lemma rotation_sorted count rr n a : rr < count → a + n ≤ count →
  StronglySorted (before count rr) ((λ o, (rr + o) mod count) <$> seq a n).
Proof.
  intros Hr. revert a. induction n as [|n IH]; intros a Ha; csimpl; [constructor|].
  constructor; [apply IH; lia|]. apply Forall_fmap, Forall_forall. intros o Ho. simpl.
  apply elem_of_seq in Ho. unfold before. rewrite !offset_from_rotate by lia. lia.
Qed.

(** [i] is the first, from the cursor on, of the members with the least load. *)
Definition first_least_load (p : TargetPool) (i : nat) : Prop :=
  ∃ m, members p !! i = Some m ∧
    ∀ j m', members p !! j = Some m' →
      (load_of (heap p) (m_load m) ≤ load_of (heap p) (m_load m'))%Z ∧
      (load_of (heap p) (m_load m') = load_of (heap p) (m_load m) →
       offset_from (len p) (cursor p) i ≤ offset_from (len p) (cursor p) j).

(** What each strategy promises of the index it selects. *)
Definition selected (p : TargetPool) (i : nat) : Prop :=
  match strategy p with
  | RoundRobin => i = cursor p
  | Random => ∃ r, random_index (random p) (len p) = Some (r, i)
  | LeastPing => first_least_ping p i ∨ (∀ m, m ∈ members p → m_ping m = None) ∧ i = cursor p
  | LeastLoad => first_least_load p i
  end.

Lemma least_load_spec p : pool_ok p →
  ∃ l i, rotation p (cursor p) (len p) = Done l ∧ min_by_key l = Some i ∧
    i < len p ∧ first_least_load p i.
Proof.
  intros Hp. pose proof (po_cursor p Hp) as Hcur. fold (len p) in Hcur.
  destruct (rotation_spec p (cursor p) (len p)) as (l & Hl & Hf & Hv); [done|lia|].
  assert (l ≠ []) as Hne.
  { intros ->. destruct (len p); [lia|]. by apply (f_equal length) in Hf. }
  destruct (min_by_key_some l Hne) as [i Hi]. exists l, i. split_and!; [done..| |].
  all: apply (min_by_key_spec (before (len p) (cursor p))) in Hi as (w & Hin & Hmin);
    [|apply (StronglySorted_fmap (λ x : nat * Z, x.1)); rewrite Hf; by apply rotation_sorted];
    destruct (Hv i w Hin) as (m & Hm & ->).
  - by apply lookup_lt_Some in Hm.
  - exists m. split; [done|]. intros j m' Hj.
    assert (j < len p) as Hjl by (by apply lookup_lt_Some in Hj).
    assert (∃ v, (j, v) ∈ l) as [v Hjv].
    { assert (j ∈ (λ x : nat * Z, x.1) <$> l) as ([j' v] & -> & ?)%list_elem_of_fmap; [|eauto].
      rewrite Hf. apply list_elem_of_fmap. exists (offset_from (len p) (cursor p) j).
      destruct (rotate_offset_from (len p) (cursor p) j Hcur Hjl) as [E1 E2].
      split; [done|]. apply elem_of_seq. lia. }
    destruct (Hv j v Hjv) as (m'' & Hm'' & ->). simplify_eq.
    destruct (Hmin j _ Hjv) as [? Ho]. split; [done|]. intros E.
    destruct (Ho E) as [->|]; unfold before in *; lia.
Qed.

Lemma select_spec p : pool_ok p →
  ∃ i r, select p (len p) (cursor p mod len p) = Done (i, r) ∧ i < len p ∧ selected p i.
Proof.
  intros Hp. pose proof (po_cursor p Hp) as Hcur. fold (len p) in Hcur.
  rewrite (Nat.mod_small _ _ Hcur). unfold select, selected. destruct (strategy p).
  - destruct (random_index_total (random p) (len p)) as (r & i & -> & Hi & _);
      [lia|apply (po_bound p Hp)|]. simpl. exists i, r. eauto.
  - eauto.
  - destruct (least_ping p) as [i|] eqn:E; simpl.
    + apply least_ping_spec in E. exists i, (random p). split_and!; [done| |by left].
      destruct E as (m & d & Hm & _). by apply lookup_lt_Some in Hm.
    + exists (cursor p), (random p). split_and!; [done..|]. right. split; [|done].
      by apply least_ping_none.
  - destruct (least_load_spec p Hp) as (l & i & -> & Hi & Hlt & Hs). simpl. rewrite Hi.
    simpl. eauto.
Qed.

Lemma acquire_ok p : pool_ok p →
  ∃ i r m, acquire p =
      Done (MkPool (strategy p) (members p) (history p) (history_indices p) ((i + 1) mod len p)
              (generation p) r (add_load (heap p) (m_load m) 1),
            MkLease (m_target m) (m_load m) (m_traffic m)) ∧
    members p !! i = Some m ∧ selected p i.
Proof.
  intros Hp. pose proof (po_cursor p Hp) as Hcur.
  destruct (select_spec p Hp) as (i & r & Hs & Hi & Hsel).
  destruct (lookup_lt_is_Some_2 (members p) i Hi) as [m Hm]. exists i, r, m.
  split; [|done]. unfold acquire.
  destruct (Nat.eqb_spec (length (members p)) 0); [lia|]. simpl.
  unfold len in Hs. rewrite Hs. simpl. by rewrite (idx_lookup _ _ _ Hm).
Qed.

(** ** The ledger: what the pool promises

    The specification forgets histories, indices and shared cells: a ranking,
    a counter triple (open leases, bytes to and from the server) per name and
    address ever ranked, and the targets held by the workers. *)
Record Ledger := MkLedger {
  lg_ranking : list Target; lg_counters : gmap TargetKey (Z * (Z * Z)); lg_held : list Target }.

Definition no_traffic : Z * (Z * Z) := (0%Z, (0%Z, 0%Z)).
Definition new_counters (ts : list Target) : gmap TargetKey (Z * (Z * Z)) :=
  gset_to_gmap no_traffic (list_to_set (key <$> ts)).

Inductive lstep : Ledger → Action → Ledger → Prop :=
  | ls_acquire L t n c : t ∈ lg_ranking L → lg_counters L !! key t = Some (n, c) →
      lstep L Acquire (MkLedger (lg_ranking L) (<[key t := (wadd64 n 1, c)]> (lg_counters L))
                         (lg_held L ++ [t]))
  | ls_drop L i t n c : lg_held L !! i = Some t → lg_counters L !! key t = Some (n, c) →
      lstep L (Drop i) (MkLedger (lg_ranking L) (<[key t := (wadd64 n (-1), c)]> (lg_counters L))
                          (delete i (lg_held L)))
  | ls_drop_none L i : lg_held L !! i = None → lstep L (Drop i) L
  | ls_replace L ts : ts ≠ [] →
      lstep L (Replace ts)
        (MkLedger (unique_targets ts usize_max)
           (lg_counters L ∪ new_counters (unique_targets ts usize_max)) (lg_held L))
  | ls_replace_nil L : lstep L (Replace []) L
  | ls_ping L g t d : lstep L (UpdatePing g t d) L
  | ls_relay L i t n a b x y :
      lg_held L !! i = Some t → lg_counters L !! key t = Some (n, (a, b)) →
      lstep L (Relay i x y)
        (MkLedger (lg_ranking L)
           (<[key t := (n, (wadd64 a x, wadd64 b y))]> (lg_counters L)) (lg_held L))
  | ls_relay_none L i x y : lg_held L !! i = None → lstep L (Relay i x y) L.

Inductive lsteps : Ledger → list Action → Ledger → Prop :=
  | lsteps_nil L : lsteps L [] L
  | lsteps_cons L1 a L2 acts L3 : lstep L1 a L2 → lsteps L2 acts L3 → lsteps L1 (a :: acts) L3.

(** What the ledger accounts: every counter is the number of leases held. *)
Definition held_count (k : TargetKey) (held : list Target) : nat :=
  length (filter (λ t, key t = k) held).

Record ledger_ok (L : Ledger) : Prop := {
  lo_active : ∀ k n c, lg_counters L !! k = Some (n, c) →
    n = as_u64 (Z.of_nat (held_count k (lg_held L)));
  lo_known : ∀ t, t ∈ lg_held L → is_Some (lg_counters L !! key t) }.

Lemma held_count_app k l1 l2 : held_count k (l1 ++ l2) = held_count k l1 + held_count k l2.
Proof. unfold held_count. by rewrite filter_app, length_app. Qed.

Lemma held_count_one k t : held_count k [t] = if decide (key t = k) then 1 else 0.
Proof. unfold held_count. rewrite filter_cons. by case_decide. Qed.

Lemma held_count_delete k l i t : l !! i = Some t →
  held_count k l = held_count k (delete i l) + held_count k [t].
Proof.
  intros Hi. rewrite <- (take_drop_middle l i t Hi) at 1. rewrite delete_take_drop.
  change (t :: drop (S i) l) with ([t] ++ drop (S i) l). rewrite !held_count_app. lia.
Qed.

Lemma held_count_none k l : (∀ t, t ∈ l → key t ≠ k) → held_count k l = 0.
Proof.
  unfold held_count. induction l as [|t l IH]; intros H; [done|].
  rewrite filter_cons, decide_False by (apply H; left).
  apply IH. intros u Hu. apply H. by right.
Qed.

Lemma wadd64_as_u64 a b : wadd64 (as_u64 a) b = as_u64 (a + b).
Proof. unfold as_u64, wadd64. by rewrite Zplus_mod_idemp_l. Qed.

Lemma lstep_ok L a L' : ledger_ok L → lstep L a L' → ledger_ok L'.
Proof.
  intros [Ha Hk] Hs. destruct Hs; try done; split; simpl.
  - intros k m c' [(<- & [= <- <-])|[Hne Hl]]%lookup_insert_Some;
      rewrite held_count_app, held_count_one.
    + rewrite decide_True, (Ha _ _ _ H0), wadd64_as_u64 by done. f_equal. lia.
    + rewrite decide_False by done. rewrite Nat.add_0_r. by eapply Ha.
  - intros u [Hu| ->%list_elem_of_singleton]%elem_of_app.
    + destruct (decide (key u = key t)) as [->|]; [by rewrite lookup_insert_eq|].
      rewrite lookup_insert_ne by done. auto.
    + by rewrite lookup_insert_eq.
  - intros k m c' [(<- & [= <- <-])|[Hne Hl]]%lookup_insert_Some.
    + rewrite (Ha _ _ _ H0), (held_count_delete _ _ _ _ H), held_count_one, decide_True by done.
      rewrite wadd64_as_u64. f_equal. lia.
    + apply Ha in Hl as ->. rewrite (held_count_delete _ _ _ _ H), held_count_one, decide_False by done.
      f_equal. lia.
  - intros u Hu. destruct (decide (key u = key t)) as [->|]; [by rewrite lookup_insert_eq|].
    rewrite lookup_insert_ne by done. apply Hk. rewrite delete_take_drop in Hu.
    apply elem_of_app in Hu as [Hu|Hu]; [by eapply subseteq_take|by eapply subseteq_drop].
  - intros k m c' [Hl|[Hn Hl]]%lookup_union_Some_raw; [by eapply Ha|].
    apply lookup_gset_to_gmap_Some in Hl as [_ [= <- <-]].
    rewrite held_count_none; [done|]. intros t Ht <-. apply Hk in Ht as [? Ht]. congruence.
  - intros u Hu. apply Hk in Hu as [c Hc]. exists c. by apply lookup_union_Some_l.
  - intros k m c' [(<- & [= <- <-])|[Hne Hl]]%lookup_insert_Some; eauto.
  - intros u Hu. destruct (decide (key u = key t)) as [->|]; [by rewrite lookup_insert_eq|].
    rewrite lookup_insert_ne by done. auto.
Qed.

Lemma lsteps_ok L acts L' : ledger_ok L → lsteps L acts L' → ledger_ok L'.
Proof. intros HL Hs. induction Hs; eauto using lstep_ok. Qed.

(** ** The pool implements the ledger *)
Definition ledger_of (hist : list Member) (idxs : gmap TargetKey nat) (h : Heap)
    : gmap TargetKey (Z * (Z * Z)) :=
  (λ i, match hist !! i with
        | Some m => (load_of h (m_load m), traffic_of h (m_traffic m))
        | None => no_traffic
        end) <$> idxs.
Definition pool_ledger (p : TargetPool) := ledger_of (history p) (history_indices p) (heap p).

Definition abs (w : World) : Ledger :=
  MkLedger (m_target <$> members (w_pool w)) (pool_ledger (w_pool w)) (l_target <$> w_leases w).

(** A lease holds the cells of the history entry of its target. *)
Definition lease_ok (idxs : gmap TargetKey nat) (l : TargetLease) : Prop :=
  idxs !! key (l_target l) = Some (l_load l) ∧ l_traffic l = l_load l.

Definition world_ok (w : World) : Prop :=
  pool_ok (w_pool w) ∧ Forall (lease_ok (history_indices (w_pool w))) (w_leases w).

Section ledger_facts.
Context (hist : list Member) (idxs : gmap TargetKey nat) (h : Heap).
Hypothesis Hh : hist_ok hist idxs h.

Lemma index_lt k i : idxs !! k = Some i → i < length hist.
Proof.
  intros Hk. apply (ho_index _ _ _ Hh) in Hk. apply lookup_lt_Some in Hk.
  by rewrite length_fmap in Hk.
Qed.

Lemma ledger_lookup k :
  ledger_of hist idxs h !! k = (λ i, (load_of h i, traffic_of h i)) <$> idxs !! k.
Proof.
  unfold ledger_of. rewrite lookup_fmap. destruct (idxs !! k) as [i|] eqn:Hk; [|done]. simpl.
  destruct (lookup_lt_is_Some_2 hist i (index_lt k i Hk)) as [m Hm]. rewrite Hm.
  by destruct (ho_cells _ _ _ Hh i m Hm) as [-> ->].
Qed.

Lemma member_index m : m ∈ hist → idxs !! mkey m = Some (m_load m) ∧ m_traffic m = m_load m.
Proof.
  intros [i Hi]%list_elem_of_lookup. destruct (ho_cells _ _ _ Hh i m Hi) as [-> ->].
  split; [|done]. apply (ho_index _ _ _ Hh). by rewrite list_lookup_fmap, Hi.
Qed.

(** Changing one cell changes the counters of its key alone. *)
Lemma ledger_update h' k i c :
  length (loads h') = length (loads h) → length (traffics h') = length (traffics h) →
  idxs !! k = Some i → (load_of h' i, traffic_of h' i) = c →
  (∀ j, j ≠ i → load_of h' j = load_of h j ∧ traffic_of h' j = traffic_of h j) →
  hist_ok hist idxs h' ∧ ledger_of hist idxs h' = <[k := c]> (ledger_of hist idxs h).
Proof.
  intros Hl Ht Hk Hc Ho.
  assert (hist_ok hist idxs h') as Hh' by (destruct Hh; split; congruence || done).
  split; [done|]. apply map_eq. intros k'. destruct (decide (k' = k)) as [->|Hne].
  - rewrite lookup_insert_eq. unfold ledger_of. rewrite lookup_fmap, Hk. simpl.
    destruct (lookup_lt_is_Some_2 hist i (index_lt k i Hk)) as [m Hm]. rewrite Hm.
    destruct (ho_cells _ _ _ Hh i m Hm) as [-> ->]. by rewrite Hc.
  - rewrite lookup_insert_ne, ledger_lookup by done. unfold ledger_of. rewrite lookup_fmap.
    destruct (idxs !! k') as [j|] eqn:Hj; [|done]. simpl.
    destruct (lookup_lt_is_Some_2 hist j (index_lt k' j Hj)) as [m Hm]. rewrite Hm.
    destruct (ho_cells _ _ _ Hh j m Hm) as [-> ->].
    destruct (Ho j) as [-> ->]; [|done]. intros ->. apply Hne.
    apply (ho_index _ _ _ Hh) in Hj, Hk. congruence.
Qed.

Lemma ledger_add_load k i d n c : ledger_of hist idxs h !! k = Some (n, c) →
  idxs !! k = Some i →
  hist_ok hist idxs (add_load h i d) ∧
  ledger_of hist idxs (add_load h i d) = <[k := (wadd64 n d, c)]> (ledger_of hist idxs h).
Proof.
  intros Hl Hk. rewrite ledger_lookup, Hk in Hl. injection Hl as Hn Hc.
  pose proof (index_lt k i Hk) as Hi. rewrite <- (ho_loads _ _ _ Hh) in Hi.
  apply (ledger_update _ k i); [apply length_alter|done|done| |].
  - unfold load_of, add_load in *. simpl. rewrite list_lookup_alter_eq.
    destruct (lookup_lt_is_Some_2 (loads h) i Hi) as [v Hv]. rewrite Hv in *. simpl in *.
    unfold traffic_of in *. simpl. congruence.
  - intros j Hj. unfold load_of, add_load. simpl. by rewrite list_lookup_alter_ne.
Qed.

Lemma ledger_add_traffic k i x y n a b : ledger_of hist idxs h !! k = Some (n, (a, b)) →
  idxs !! k = Some i →
  hist_ok hist idxs (add_traffic h i x y) ∧
  ledger_of hist idxs (add_traffic h i x y)
    = <[k := (n, (wadd64 a x, wadd64 b y))]> (ledger_of hist idxs h).
Proof.
  intros Hl Hk. rewrite ledger_lookup, Hk in Hl. injection Hl as Hn Hc.
  pose proof (index_lt k i Hk) as Hi. rewrite <- (ho_traffics _ _ _ Hh) in Hi.
  apply (ledger_update _ k i); [done|apply length_alter|done| |].
  - unfold traffic_of, add_traffic in *. simpl. rewrite list_lookup_alter_eq.
    destruct (lookup_lt_is_Some_2 (traffics h) i Hi) as [[u v] Hv]. rewrite Hv in *. simpl in *.
    unfold load_of in *. simpl. congruence.
  - intros j Hj. unfold traffic_of, add_traffic. simpl. by rewrite list_lookup_alter_ne.
Qed.
End ledger_facts.

(** After a replacement the known keys keep their index and counters, the new
    ones start from zero. *)
Lemma ledger_extends ks hist idxs h hist' idxs' h' :
  hist_ok hist idxs h → hist_ok hist' idxs' h' → extends ks hist h hist' h' →
  (∀ k, k ∈ ks → is_Some (idxs' !! k)) →
  idxs ⊆ idxs' ∧
  ledger_of hist' idxs' h' = ledger_of hist idxs h ∪ gset_to_gmap no_traffic (list_to_set ks).
Proof.
  intros Hh Hh' (news & Hsub & Hkeys & Hloads & Htraf) Hks.
  assert (idxs ⊆ idxs') as Hidx.
  { apply map_subseteq_spec. intros k i Hi. apply (ho_index _ _ _ Hh') . rewrite Hkeys.
    apply lookup_app_l_Some. by apply (ho_index _ _ _ Hh). }
  split; [done|]. apply map_eq. intros k. rewrite (ledger_lookup _ _ _ Hh').
  rewrite lookup_union, (ledger_lookup _ _ _ Hh). destruct (idxs !! k) as [i|] eqn:Hi.
  - rewrite (lookup_weaken _ _ _ _ Hi Hidx). simpl.
    pose proof (index_lt _ _ _ Hh k i Hi) as Hlt.
    rewrite union_Some_l. f_equal. unfold load_of, traffic_of. rewrite Hloads, Htraf.
    by rewrite !lookup_app_l by (rewrite ?(ho_loads _ _ _ Hh), ?(ho_traffics _ _ _ Hh); done).
  - simpl. rewrite (left_id_L None (∪)). destruct (decide (k ∈ ks)) as [Hk|Hk].
    + destruct (Hks k Hk) as [j Hj]. rewrite Hj. simpl.
      rewrite (proj2 (lookup_gset_to_gmap_Some _ _ _ _)) by (split; [set_solver|done]).
      apply (ho_index _ _ _ Hh') in Hj. rewrite Hkeys in Hj.
      assert (length hist ≤ j ∧ j < length hist + length news) as [Hlo Hhi].
      { apply lookup_app_Some in Hj as [Hj|[Hj1 Hj2]].
        - apply (ho_index _ _ _ Hh) in Hj. congruence.
        - apply lookup_lt_Some in Hj2. rewrite length_fmap in *. lia. }
      unfold load_of, traffic_of, no_traffic. rewrite Hloads, Htraf.
      rewrite !lookup_app_r by (rewrite ?(ho_loads _ _ _ Hh), ?(ho_traffics _ _ _ Hh); lia).
      rewrite (ho_loads _ _ _ Hh), (ho_traffics _ _ _ Hh).
      by rewrite !lookup_replicate_2 by lia.
    + rewrite (proj2 (lookup_gset_to_gmap_None _ _ _)) by set_solver.
      destruct (idxs' !! k) as [j|] eqn:Hj; [|done]. exfalso.
      apply (ho_index _ _ _ Hh') in Hj. rewrite Hkeys in Hj.
      apply lookup_app_Some in Hj as [Hj|[_ Hj]].
      * apply (ho_index _ _ _ Hh) in Hj. congruence.
      * apply Hk, Hsub. by eapply list_elem_of_lookup_2.
Qed.

Lemma list_fmap_same {A} (f : A → A) (l : list A) : (∀ x, x ∈ l → f x = x) → f <$> l = l.
Proof.
  induction l as [|x l IH]; intros H; csimpl; [done|].
  rewrite (H x) by left. f_equal. apply IH. intros y Hy. apply H. by right.
Qed.

Definition ping_matches (gen : Z) (t : Target) (p : TargetPool) (m : Member) : Prop :=
  generation p = gen ∧ mkey m = key t.
#[export] Instance ping_matches_dec gen t p m : Decision (ping_matches gen t p m).
Proof. unfold ping_matches. apply _. Defined.

(** A ping result of the current generation reaches the member of its key,
    and only it; a result of an earlier ranking is dropped. *)
Lemma update_ping_ok p gen t ping : pool_ok p →
  ∃ p', update_ping p gen t ping = Done p' ∧ pool_ok p' ∧
    members p' = (λ m, if decide (ping_matches gen t p m) then set_ping m ping else m)
                   <$> members p ∧
    history_indices p' = history_indices p ∧ pool_ledger p' = pool_ledger p ∧
    cursor p' = cursor p ∧ generation p' = generation p ∧ random p' = random p ∧
    strategy p' = strategy p ∧ heap p' = heap p.
Proof.
  intros Hp. pose proof (po_hist p Hp) as Hh. unfold update_ping.
  destruct (Z.eqb_spec (generation p) gen) as [Hg|Hg]; simpl.
  2: { exists p. split_and!; try done. symmetry. apply list_fmap_same.
       intros m _. rewrite decide_False; [done|]. by intros [? _]. }
  destruct (list_find (λ m, mkey m = key t) (members p)) as [[j m]|] eqn:Hf.
  2: { exists p. split_and!; try done. symmetry. apply list_fmap_same.
       intros m Hm. rewrite decide_False; [done|]. intros [_ ?].
       apply list_find_None in Hf. rewrite Forall_forall in Hf. by eapply Hf. }
  apply list_find_Some in Hf as (Hj & Hk & Hbefore).
  assert (m ∈ history p) as Hm by (by eapply (po_members p Hp), list_elem_of_lookup_2).
  destruct (member_index _ _ _ Hh m Hm) as [Hi Ht]. rewrite <- Hk, Hi. simpl.
  assert (history p !! m_load m = Some m) as Hhm.
  { apply list_elem_of_lookup in Hm as [i Hm]. by destruct (ho_cells _ _ _ Hh i m Hm) as [-> _]. }
  rewrite (idx_lookup _ _ _ Hhm). simpl. rewrite upd_done by (by apply lookup_lt_Some in Hhm).
  simpl. eexists. split; [done|]. simpl.
  destruct (hist_ok_insert _ _ _ _ m (set_ping m ping) Hh Hhm) as [Hh' Hkeys]; [done..|].
  assert (<[j := set_ping m ping]> (members p)
          = (λ m, if decide (ping_matches gen t p m) then set_ping m ping else m) <$> members p)
    as Hms.
  { apply list_eq. intros i. rewrite list_lookup_fmap. destruct (decide (i = j)) as [->|Hne].
    - rewrite list_lookup_insert_eq by (by apply lookup_lt_Some in Hj). rewrite Hj. simpl.
      by rewrite decide_True.
    - rewrite list_lookup_insert_ne by done. destruct (members p !! i) as [n|] eqn:Hn; [|done].
      simpl. rewrite decide_False; [done|]. intros [_ Hkn]. apply Hne.
      pose proof (po_nodup p Hp) as Hnd. rewrite NoDup_alt in Hnd.
      apply (Hnd i j (mkey n)); rewrite list_lookup_fmap, ?Hn, ?Hj; simpl; congruence. }
  assert (mkey <$> <[j := set_ping m ping]> (members p) = mkey <$> members p) as Hmk.
  { rewrite list_fmap_insert. apply list_insert_id. by rewrite list_lookup_fmap, Hj. }
  split_and!; try done.
  - split; simpl; [done|rewrite Hmk; apply (po_nodup p Hp)|..].
    + intros n [i Hn]%list_elem_of_lookup.
      apply list_lookup_insert_Some in Hn as [(<- & <- & _)|[Hne Hn]].
      * apply (list_elem_of_lookup_2 _ (m_load m)).
        apply list_lookup_insert_eq. by apply lookup_lt_Some in Hhm.
      * pose proof (po_members p Hp n (list_elem_of_lookup_2 _ _ _ Hn)) as Hnh.
        apply list_elem_of_lookup in Hnh as [q Hq]. apply (list_elem_of_lookup_2 _ q).
        rewrite list_lookup_insert_ne; [done|]. intros <-. apply Hne.
        pose proof (po_nodup p Hp) as Hnd. rewrite NoDup_alt in Hnd.
        apply (Hnd j i (mkey n)); rewrite list_lookup_fmap, ?Hn, ?Hj; simpl; congruence.
    + rewrite length_insert. apply (po_cursor p Hp).
    + rewrite length_insert. apply (po_bound p Hp).
  - unfold pool_ledger. simpl. apply map_eq. intros k.
    by rewrite (ledger_lookup _ _ _ Hh), (ledger_lookup _ _ _ Hh').
Qed.

Lemma pool_ok_heap p h : pool_ok p → hist_ok (history p) (history_indices p) h →
  pool_ok (with_heap p h).
Proof. by intros [] ?. Qed.

Lemma known_member p m : pool_ok p → m ∈ members p →
  ∃ n c, pool_ledger p !! mkey m = Some (n, c) ∧ history_indices p !! mkey m = Some (m_load m) ∧
    m_traffic m = m_load m.
Proof.
  intros Hp Hm. apply (po_members p Hp) in Hm.
  destruct (member_index _ _ _ (po_hist p Hp) m Hm) as [Hi Ht].
  unfold pool_ledger. rewrite (ledger_lookup _ _ _ (po_hist p Hp)), Hi. simpl. eauto.
Qed.

Lemma known_lease p l : pool_ok p → lease_ok (history_indices p) l →
  ∃ n a b, pool_ledger p !! key (l_target l) = Some (n, (a, b)).
Proof.
  intros Hp [Hi _]. unfold pool_ledger. rewrite (ledger_lookup _ _ _ (po_hist p Hp)), Hi. simpl.
  destruct (traffic_of (heap p) (l_load l)). eauto.
Qed.

(** One action of the pool is one step of the ledger. *)
Definition refines_step (w : World) (a : Action) : Prop :=
  ∃ w', perform w a = Done w' ∧ world_ok w' ∧ lstep (abs w) a (abs w').

Lemma acquire_refines w : world_ok w → refines_step w Acquire.
Proof.
  destruct w as [p ls]. intros [Hp Hls]. simpl in Hp, Hls. unfold refines_step. simpl.
  destruct (acquire_ok p Hp) as (i & r & m & -> & Hm & _). simpl.
  apply list_elem_of_lookup_2 in Hm as Hin.
  destruct (known_member p m Hp Hin) as (n & c & Hl & Hi & Ht).
  destruct (ledger_add_load _ _ _ (po_hist p Hp) _ _ 1 _ _ Hl Hi) as [Hh' Hl'].
  eexists. split; [done|]. split; [split; simpl|].
  - destruct Hp. split; simpl; try done. apply Nat.mod_upper_bound. unfold len. lia.
  - apply Forall_app. split; [done|]. by apply Forall_singleton.
  - unfold abs. simpl. unfold pool_ledger at 2. simpl. rewrite Hl', fmap_app.
    apply (ls_acquire (MkLedger _ _ _)); [|done]. by apply list_elem_of_fmap_2.
Qed.

Lemma drop_refines w i : world_ok w → refines_step w (Drop i).
Proof.
  destruct w as [p ls]. intros [Hp Hls]. simpl in Hp, Hls. unfold refines_step. simpl.
  destruct (ls !! i) as [l|] eqn:Hi.
  - assert (lease_ok (history_indices p) l) as Hlo by (by eapply Forall_lookup_1).
    destruct (known_lease p l Hp Hlo) as (n & a & b & Hl).
    destruct (ledger_add_load _ _ _ (po_hist p Hp) _ _ (-1) _ _ Hl (proj1 Hlo)) as [Hh' Hl'].
    eexists. split; [done|]. split; [split; simpl|].
    + by apply pool_ok_heap.
    + by apply Forall_delete.
    + unfold abs. simpl. unfold pool_ledger at 2. simpl. rewrite Hl', list_fmap_delete.
      apply (ls_drop (MkLedger _ _ _)); [|done]. simpl. by rewrite list_lookup_fmap, Hi.
  - eexists. split; [done|]. split; [done|]. apply ls_drop_none. simpl.
    by rewrite list_lookup_fmap, Hi.
Qed.

Lemma relay_refines w i x y : world_ok w → refines_step w (Relay i x y).
Proof.
  destruct w as [p ls]. intros [Hp Hls]. simpl in Hp, Hls. unfold refines_step. simpl.
  destruct (ls !! i) as [l|] eqn:Hi.
  - assert (lease_ok (history_indices p) l) as Hlo by (by eapply Forall_lookup_1).
    destruct (known_lease p l Hp Hlo) as (n & a & b & Hl).
    destruct Hlo as [Hix Htr]. rewrite Htr.
    destruct (ledger_add_traffic _ _ _ (po_hist p Hp) _ _ x y _ _ _ Hl Hix) as [Hh' Hl'].
    eexists. split; [done|]. split; [split; simpl; [by apply pool_ok_heap|done]|].
    unfold abs. simpl. unfold pool_ledger at 2. simpl. rewrite Hl'.
    apply (ls_relay (MkLedger _ _ _)); [|done]. simpl. by rewrite list_lookup_fmap, Hi.
  - eexists. split; [done|]. split; [done|]. apply ls_relay_none. simpl.
    by rewrite list_lookup_fmap, Hi.
Qed.

Lemma replaced_ledger p ts p' : pool_ok p → pool_ok p' →
  Forall2 fresh ts (members p') →
  extends (key <$> ts) (history p) (heap p) (history p') (heap p') →
  history_indices p ⊆ history_indices p' ∧ pool_ledger p' = pool_ledger p ∪ new_counters ts.
Proof.
  intros Hp Hp' Hf He. apply (ledger_extends _ _ _ _ _ _ _ (po_hist p Hp) (po_hist p' Hp') He).
  intros k Hk. rewrite <- (fresh_keys _ _ Hf) in Hk.
  apply list_elem_of_fmap in Hk as (m & -> & Hm).
  destruct (known_member p' m Hp' Hm) as (? & ? & _ & Hi & _). by eexists.
Qed.

Lemma replace_refines w ts : world_ok w → refines_step w (Replace ts).
Proof.
  destruct w as [p ls]. intros [Hp Hls]. simpl in Hp, Hls. unfold refines_step. simpl.
  destruct (decide (ts = [])) as [->|Hts].
  { eexists. split; [done|]. split; [done|]. apply ls_replace_nil. }
  destruct (replace_spec p ts (po_hist p Hp) Hts) as (p' & -> & Hp' & Hf & He & _). simpl.
  destruct (replaced_ledger p _ p' Hp Hp' Hf He) as [Hsub Hl].
  eexists. split; [done|]. split; [split; [done|simpl]|].
  - eapply Forall_impl; [exact Hls|]. intros l [Hi Ht]. split; [|done]. by eapply lookup_weaken.
  - unfold abs. simpl. rewrite Hl, (fresh_targets _ _ Hf). by apply (ls_replace (MkLedger _ _ _)).
Qed.

Lemma ping_refines w gen t ping : world_ok w → refines_step w (UpdatePing gen t ping).
Proof.
  destruct w as [p ls]. intros [Hp Hls]. simpl in Hp, Hls. unfold refines_step. simpl.
  destruct (update_ping_ok p gen t ping Hp) as (p' & -> & Hp' & Hm & Hi & Hl & _). simpl.
  eexists. split; [done|]. split; [split; [done|simpl; by rewrite Hi]|].
  unfold abs. simpl. rewrite Hl, Hm, <- list_fmap_compose.
  rewrite (list_fmap_ext (m_target ∘ _) m_target); [apply ls_ping|].
  intros j m _. simpl. by case_decide.
Qed.
#[export] Hint Resolve acquire_refines drop_refines relay_refines replace_refines
  ping_refines : zdpi.

Lemma perform_refines w a : world_ok w → refines_step w a.
Proof. destruct a; auto with zdpi. Qed.

Lemma run_refines acts w : world_ok w →
  ∃ w', exec_fold perform acts w = Done w' ∧ world_ok w' ∧ lsteps (abs w) acts (abs w').
Proof.
  revert w. induction acts as [|a acts IH]; intros w Hw; cbn [exec_fold].
  - exists w. split_and!; [done..|constructor].
  - destruct (perform_refines w a Hw) as (w1 & -> & Hw1 & Hs). cbn [exec_bind].
    destruct (IH w1 Hw1) as (w' & -> & Hw' & Hss). exists w'.
    split_and!; [done..|by econstructor].
Qed.

Definition initial_ledger (ts : list Target) : Ledger :=
  MkLedger (unique_targets ts usize_max) (new_counters (unique_targets ts usize_max)) [].

Lemma hist_ok_empty : hist_ok [] ∅ (MkHeap [] []).
Proof.
  split; try done; [apply NoDup_nil_2|..].
Qed.

Lemma new_ok strat ts seed : ts ≠ [] →
  ∃ p, new strat ts seed = Done (Some p) ∧ world_ok (MkWorld p []) ∧
    abs (MkWorld p []) = initial_ledger ts ∧ strategy p = strat.
Proof.
  intros Hts. set (p0 := MkPool strat [] [] ∅ 0 0 seed (MkHeap [] [])).
  destruct (replace_spec p0 ts hist_ok_empty Hts) as (p & Hr & Hp & Hf & He & Hst & _).
  exists p. split_and!.
  - unfold new. destruct ts; [done|]. fold p0. by rewrite Hr.
  - by split; [|constructor].
  - destruct (ledger_extends _ _ _ _ _ _ _ hist_ok_empty (po_hist p Hp) He) as [_ Hl].
    { intros k Hk. rewrite <- (fresh_keys _ _ Hf) in Hk.
      apply list_elem_of_fmap in Hk as (m & -> & Hm).
      destruct (known_member p m Hp Hm) as (? & ? & _ & Hi & _). by eexists. }
    unfold abs, initial_ledger. simpl. rewrite (fresh_targets _ _ Hf). f_equal.
    unfold pool_ledger. rewrite Hl. unfold ledger_of. rewrite fmap_empty. apply (left_id_L ∅ (∪)).
  - done.
Qed.

(** Every run from a nonempty list of targets. *)
Lemma start_ok strat ts seed acts : ts ≠ [] →
  ∃ w, start strat ts seed acts = Done w ∧ world_ok w ∧ lsteps (initial_ledger ts) acts (abs w).
Proof.
  intros Hts. unfold start.
  destruct (new_ok strat ts seed Hts) as (p & -> & Hw & Habs & _). cbn [exec_bind expect].
  rewrite <- Habs. by apply run_refines.
Qed.

(** ** Accounting *)
Lemma initial_ledger_ok ts : ledger_ok (initial_ledger ts).
Proof.
  split; simpl; [|by intros t Ht%elem_of_nil].
  intros k n c [_ [= <- <-]]%lookup_gset_to_gmap_Some. done.
Qed.

(** In a reachable world the load cell of a history entry counts the leases
    held on its key. *)
Lemma history_load w m : world_ok w → ledger_ok (abs w) → m ∈ history (w_pool w) →
  load_of (heap (w_pool w)) (m_load m)
    = as_u64 (Z.of_nat (held_count (mkey m) (l_target <$> w_leases w))).
Proof.
  intros [Hp _] HL Hm.
  destruct (member_index _ _ _ (po_hist _ Hp) m Hm) as [Hi _].
  apply (lo_active _ HL (mkey m) _ (traffic_of (heap (w_pool w)) (m_load m))). simpl.
  unfold pool_ledger. by rewrite (ledger_lookup _ _ _ (po_hist _ Hp)), Hi.
Qed.

Lemma usum_counts {A} (f : A → nat) l :
  usum ((λ x, as_u64 (Z.of_nat (f x))) <$> l) = as_u64 (Z.of_nat (sum_list_with f l)).
Proof.
  unfold usum. induction l as [|x l IH]; csimpl; [done|]. rewrite IH.
  rewrite wadd64_as_u64. unfold as_u64. rewrite Zplus_mod_idemp_r. f_equal. lia.
Qed.

Lemma sum_list_with_add {A} (f g : A → nat) l :
  sum_list_with (λ x, f x + g x) l = sum_list_with f l + sum_list_with g l.
Proof. induction l as [|x l IH]; csimpl; [done|]. rewrite IH. lia. Qed.

Lemma sum_list_with_ext {A} (f g : A → nat) l : (∀ x, x ∈ l → f x = g x) →
  sum_list_with f l = sum_list_with g l.
Proof.
  induction l as [|x l IH]; intros H; csimpl; [done|].
  rewrite (H x), IH; [done| |left]. intros y Hy. apply H. by right.
Qed.

Lemma sum_list_with_zero {A} (l : list A) : sum_list_with (λ _, 0) l = 0.
Proof. induction l; csimpl; auto. Qed.

Lemma held_count_once (ks : list TargetKey) t :
  NoDup ks → key t ∈ ks → sum_list_with (λ k, held_count k [t]) ks = 1.
Proof.
  induction 1 as [|k ks Hk Hn IH]; [by intros ?%elem_of_nil|]. csimpl.
  rewrite held_count_one. intros [Ht|Ht]%elem_of_cons.
  - rewrite decide_True by done.
    rewrite (sum_list_with_ext _ (λ _, 0)), sum_list_with_zero; [done|].
    intros k' Hk'. rewrite held_count_one, decide_False; [done|]. congruence.
  - rewrite decide_False by congruence. by apply IH.
Qed.

(** Every held target is counted under exactly one of the known keys. *)
Lemma held_count_sum (ks : list TargetKey) held :
  NoDup ks → (∀ t, t ∈ held → key t ∈ ks) →
  sum_list_with (λ k, held_count k held) ks = length held.
Proof.
  intros Hn. induction held as [|t held IH]; intros Hk.
  - apply sum_list_with_zero.
  - rewrite (sum_list_with_ext _ (λ k, held_count k [t] + held_count k held))
      by (intros; apply (held_count_app _ [t])).
    rewrite sum_list_with_add, IH by (intros; apply Hk; by right).
    rewrite held_count_once; [done|done|]. apply Hk. left.
Qed.

Lemma retired_keys p m : m ∈ retired p ↔ m ∈ history p ∧ mkey m ∉ mkey <$> members p.
Proof.
  unfold retired. rewrite list_elem_of_filter, elem_of_list_to_set. tauto.
Qed.

Lemma snapshot_targets p :
  ts_target <$> snapshot p = (m_target <$> members p) ++ (m_target <$> retired p).
Proof.
  unfold snapshot. rewrite fmap_app, <- list_fmap_compose. f_equal.
  rewrite fmap_imap. apply (imap_const m_target).
Qed.

Lemma snapshot_nodup p : pool_ok p → NoDup ((λ s, key (ts_target s)) <$> snapshot p).
Proof.
  intros Hp. rewrite (list_fmap_compose ts_target key), snapshot_targets, fmap_app.
  rewrite <- !list_fmap_compose. apply NoDup_app. split_and!.
  - apply (po_nodup p Hp).
  - intros k Hk (m & -> & Hm)%list_elem_of_fmap. by apply retired_keys in Hm as [_ Hm].
  - unfold retired. eapply sublist_NoDup; [apply (ho_nodup _ _ _ (po_hist p Hp))|].
    apply fmap_sublist. by apply sublist_filter.
Qed.

Lemma snapshot_keys p k : pool_ok p →
  k ∈ (λ s, key (ts_target s)) <$> snapshot p ↔ is_Some (pool_ledger p !! k).
Proof.
  intros Hp. pose proof (po_hist p Hp) as Hh.
  rewrite (list_fmap_compose ts_target key), snapshot_targets, fmap_app.
  rewrite <- !list_fmap_compose, elem_of_app. unfold pool_ledger.
  rewrite (ledger_lookup _ _ _ Hh), fmap_is_Some. split.
  - intros [(m & -> & Hm)%list_elem_of_fmap|(m & -> & Hm)%list_elem_of_fmap].
    + apply (po_members p Hp), (member_index _ _ _ Hh) in Hm as [Hm _]. by eexists.
    + apply retired_keys in Hm as [Hm _].
      apply (member_index _ _ _ Hh) in Hm as [Hm _]. by eexists.
  - intros [i Hi]. destruct (decide (k ∈ mkey <$> members p)) as [Hk|Hk]; [by left|right].
    apply (ho_index _ _ _ Hh), list_elem_of_lookup_2 in Hi.
    apply list_elem_of_fmap in Hi as (m & -> & Hm). apply list_elem_of_fmap.
    exists m. split; [done|]. by apply retired_keys.
Qed.

Lemma snapshot_ranks p :
  ts_rank <$> snapshot p = (Some <$> seq 1 (len p)) ++ replicate (length (retired p)) None.
Proof.
  unfold snapshot, len. rewrite fmap_app. f_equal.
  - rewrite fmap_imap. apply list_eq. intros i. rewrite list_lookup_imap, list_lookup_fmap.
    destruct (members p !! i) as [m|] eqn:Hm; simpl.
    + rewrite lookup_seq_lt by (by apply lookup_lt_Some in Hm). simpl. do 2 f_equal. lia.
    + by rewrite lookup_seq_ge by (by apply lookup_ge_None in Hm).
  - induction (retired p) as [|m l IH]; csimpl; [done|]. by f_equal.
Qed.

Lemma active_total w : world_ok w → ledger_ok (abs w) →
  active_connections (w_pool w) = as_u64 (Z.of_nat (length (w_leases w))).
Proof.
  intros Hw HL. pose proof (po_hist _ (proj1 Hw)) as Hh. unfold active_connections.
  rewrite (Forall_fmap_ext_1 _
    (λ m, as_u64 (Z.of_nat (held_count (mkey m) (l_target <$> w_leases w))))).
  - rewrite usum_counts. do 2 f_equal.
    rewrite <- (length_fmap l_target), <- (held_count_sum (mkey <$> history (w_pool w))).
    + clear. induction (history _) as [|m l IH]; csimpl; [done|]. by rewrite IH.
    + apply (ho_nodup _ _ _ Hh).
    + intros t Ht. destruct (lo_known _ HL t Ht) as [c Hc]. simpl in Hc.
      unfold pool_ledger in Hc. rewrite (ledger_lookup _ _ _ Hh) in Hc.
      apply fmap_Some in Hc as (i & Hi & _). apply (ho_index _ _ _ Hh) in Hi.
      by apply list_elem_of_lookup_2 in Hi.
  - apply Forall_forall. intros m Hm. by apply history_load.
Qed.

(** ** Properties *)

(** (C31) The pool implements the ledger: from any nonempty list of targets
    and over any sequence of acquisitions, lease drops, replacements, ping
    results and relayed bytes, no operation panics and each is the step of the
    ledger with the same name.  A replacement keeps the counters of every key
    ever ranked, and workers that still hold a lease of a removed or re-added
    target keep counting into its entry. *)
Theorem pool_refines_ledger strat ts seed acts : ts ≠ [] →
  ∃ w, start strat ts seed acts = Done w ∧ lsteps (initial_ledger ts) acts (abs w).
Proof. intros Hts. destruct (start_ok strat ts seed acts Hts) as (w & ? & _ & ?). eauto. Qed.

Lemma pool_refines_ledger_witness :
  [ex_target 1 30] ≠ [] ∧ ∃ w,
    start LeastLoad [ex_target 1 30] 7 [Acquire; Replace [ex_target 2 5]; Drop 0] = Done w ∧
    lsteps (initial_ledger [ex_target 1 30]) [Acquire; Replace [ex_target 2 5]; Drop 0] (abs w).
Proof. split; [done|]. by apply pool_refines_ledger. Defined.

Lemma start_inv strat ts seed acts w : ts ≠ [] → start strat ts seed acts = Done w →
  world_ok w ∧ ledger_ok (abs w).
Proof.
  intros Hts Hs. destruct (start_ok strat ts seed acts Hts) as (w' & Hs' & Hw & Hl).
  assert (w' = w) as -> by congruence. split; [done|].
  eapply lsteps_ok; [apply initial_ledger_ok|done].
Qed.

(** A snapshot accounts for every lease: each name and address ever
    ranked appears once, the current members first with their one-based
    ranks, and the connections it reports for an entry are the leases held on
    it; the pool total is the number of leases. *)
Theorem snapshot_accounts strat ts seed acts w : ts ≠ [] →
  start strat ts seed acts = Done w →
  let p := w_pool w in
  NoDup ((λ s, key (ts_target s)) <$> snapshot p) ∧
  (∀ k, k ∈ (λ s, key (ts_target s)) <$> snapshot p ↔ is_Some (pool_ledger p !! k)) ∧
  ts_rank <$> snapshot p = (Some <$> seq 1 (len p)) ++ replicate (length (retired p)) None ∧
  (∀ s, s ∈ snapshot p → ts_active_connections s
     = as_u64 (Z.of_nat (held_count (key (ts_target s)) (l_target <$> w_leases w)))) ∧
  active_connections p = as_u64 (Z.of_nat (length (w_leases w))).
Proof.
  intros Hts Hs p. destruct (start_inv _ _ _ _ _ Hts Hs) as [Hw HL].
  pose proof (proj1 Hw) as Hp. fold p in Hp. split_and!.
  - by apply snapshot_nodup.
  - intros k. by apply snapshot_keys.
  - apply snapshot_ranks.
  - intros s [Hin|Hin]%elem_of_app.
    + apply elem_of_lookup_imap in Hin as (i & m & -> & Hi).
      apply history_load; [done..|]. by eapply (po_members p Hp), list_elem_of_lookup_2.
    + apply list_elem_of_fmap in Hin as (m & -> & Hm).
      apply history_load; [done..|]. by apply retired_keys in Hm as [Hm _].
  - by apply active_total.
Qed.

Lemma snapshot_accounts_witness :
  ∃ w, start RoundRobin [ex_target 1 30] 7 [Acquire; Replace [ex_target 2 5]] = Done w ∧
    active_connections (w_pool w) = as_u64 (Z.of_nat (length (w_leases w))).
Proof.
  destruct (start RoundRobin [ex_target 1 30] 7 [Acquire; Replace [ex_target 2 5]]) as [w|] eqn:E.
  - exists w. split; [done|].
    apply (snapshot_accounts RoundRobin [ex_target 1 30] 7 [Acquire; Replace [ex_target 2 5]] w);
      [done|exact E].
  - exfalso. vm_compute in E. discriminate E.
Defined.

(** In every reachable state [acquire] returns a lease on the member its
    strategy promises and reserves it at once: round robin takes the member
    at the cursor, least load the first from the cursor with the fewest
    leases, least ping the first with the least measured ping (the one at the
    cursor when none is measured), random the drawn index.  The cursor moves
    past the chosen member and its load goes up by one. *)
Theorem acquire_selects strat ts seed acts w : ts ≠ [] →
  start strat ts seed acts = Done w →
  let p := w_pool w in
  ∃ p' i m, acquire p = Done (p', MkLease (m_target m) (m_load m) (m_traffic m)) ∧
    members p !! i = Some m ∧ selected p i ∧
    members p' = members p ∧ cursor p' = (i + 1) mod len p ∧
    load_of (heap p') (m_load m) = wadd64 (load_of (heap p) (m_load m)) 1.
Proof.
  intros Hts Hs p. destruct (start_inv _ _ _ _ _ Hts Hs) as [[Hp _] _]. fold p in Hp.
  destruct (acquire_ok p Hp) as (i & r & m & Ha & Hm & Hsel).
  eexists _, i, m. split_and!; [exact Ha|done..|]. simpl.
  destruct (known_member p m Hp (list_elem_of_lookup_2 _ _ _ Hm)) as (n & c & _ & Hi & _).
  apply (index_lt _ _ _ (po_hist p Hp)) in Hi.
  rewrite <- (ho_loads _ _ _ (po_hist p Hp)) in Hi.
  destruct (lookup_lt_is_Some_2 _ _ Hi) as [v Hv].
  unfold load_of, add_load. simpl. by rewrite list_lookup_alter_eq, Hv.
Qed.

Lemma acquire_selects_witness :
  ∃ w, start LeastLoad [ex_target 1 30; ex_target 2 5] 7 [Acquire] = Done w ∧
    ∃ p' i m, acquire (w_pool w) = Done (p', MkLease (m_target m) (m_load m) (m_traffic m)) ∧
      members (w_pool w) !! i = Some m ∧ selected (w_pool w) i.
Proof.
  destruct (start LeastLoad [ex_target 1 30; ex_target 2 5] 7 [Acquire]) as [w|] eqn:E.
  - exists w. split; [done|].
    destruct (acquire_selects LeastLoad [ex_target 1 30; ex_target 2 5] 7 [Acquire] w)
      as (p' & i & m & H1 & H2 & H3 & _); [done|exact E|eauto 6].
  - exfalso. vm_compute in E. discriminate E.
Defined.

Lemma wadd64_one_neq g : wadd64 g 1 ≠ g.
Proof.
  unfold wadd64. intros H. pose proof (Z.mod_pos_bound (g + 1) (2 ^ 64) ltac:(lia)) as Hb.
  rewrite H in Hb. destruct (Z.eq_dec g (2 ^ 64 - 1)) as [->|Hg]; [by vm_compute in H|].
  rewrite Z.mod_small in H; lia.
Qed.

(** Replacing the ranking in a reachable state: an empty scan changes
    nothing; otherwise the members are the distinct targets in rank order
    with the latency of the scan, the result says whether the keys changed,
    the counters of every known key are kept, and a ping result measured for
    the previous ranking is ignored afterwards. *)
Theorem replace_refreshes strat ts0 seed acts w : ts0 ≠ [] →
  start strat ts0 seed acts = Done w →
  let p := w_pool w in
  replace p [] = Done (p, false) ∧
  ∀ ts, ts ≠ [] → ∃ p', replace p ts =
      Done (p', negb (bool_decide (mkey <$> members p = key <$> unique_targets ts usize_max))) ∧
    Forall2 fresh (unique_targets ts usize_max) (members p') ∧ cursor p' = 0 ∧
    (∀ k c, pool_ledger p !! k = Some c → pool_ledger p' !! k = Some c) ∧
    ∀ t ping, update_ping p' (fst (probe_snapshot p)) t ping = Done p'.
Proof.
  intros Hts Hs p. destruct (start_inv _ _ _ _ _ Hts Hs) as [[Hp _] _]. fold p in Hp.
  split; [done|]. intros ts Hne.
  destruct (replace_spec p ts (po_hist p Hp) Hne) as (p' & Hr & Hp' & Hf & He & _ & Hc & Hg & _).
  destruct (replaced_ledger p _ p' Hp Hp' Hf He) as [_ Hl].
  exists p'. split_and!; [done..| |].
  - intros k c Hk. rewrite Hl. by apply lookup_union_Some_l.
  - intros t ping. unfold update_ping, probe_snapshot. simpl. rewrite Hg.
    destruct (Z.eqb_spec (wadd64 (generation p) 1) (generation p)) as [E|]; [|done].
    by apply wadd64_one_neq in E.
Qed.

Lemma replace_refreshes_witness :
  ∃ w, start LeastPing [ex_target 1 30] 7 [Acquire] = Done w ∧
    replace (w_pool w) [] = Done (w_pool w, false).
Proof.
  destruct (start LeastPing [ex_target 1 30] 7 [Acquire]) as [w|] eqn:E.
  - exists w. split; [done|].
    apply (replace_refreshes LeastPing [ex_target 1 30] 7 [Acquire] w); [done|exact E].
  - exfalso. vm_compute in E. discriminate E.
Defined.

End TargetPool.
