(* ===== verification/LowTtlDiscover.v ===== *)
(** * Searching a working TTL

    Model of [crates/zerodpi-core/src/low_ttl_discover.rs].  A probe
    is a client of the flow controller ([Flow.FlowController]): it registers a
    flow of its own with the candidate TTL as the flow's override, connects,
    waits for the interceptor and tries a TLS handshake.  Everything else that
    happens to the flows meanwhile ([act]) and how the network calls turn out is
    given by a [ProbeChance]; a chance is used at most once, so the chances are
    indexed by the candidate.  The TLS library's check of a server name is a
    parameter. *)
From stdpp Require Import base list numbers strings sets gmap.
From Stdlib Require Import ZArith Lia.
From S2P Require Import Prelude Interceptor NetAddr Flow Text Config Methods Composite TlsTemplate Handler Netmon DataPlane.
Local Open Scope nat_scope.

(** ** Settings *)
Record LowTtlDiscovery := MkDiscovery { max_ttl : Z; probe_timeout : Z (* ms *) }.
Definition discovery_from_config (cfg : Config) : LowTtlDiscovery :=
  MkDiscovery (LOW_TTL_DISCOVER_MAX cfg) (LOW_TTL_DISCOVER_TIMEOUT_MS cfg).

(** ** The search *)
Section scan.
Context {W : Type} (probe : Z → W → bool * W).

Fixpoint scan_loop (ttls : list Z) (last_success : option Z) (any_success : bool) (w : W)
    : option Z * W :=
  match ttls with
  | [] => (last_success, w)
  | ttl :: ttls =>
      let '(ok, w) := probe ttl w in
      if ok then scan_loop ttls (Some ttl) true w
      else if any_success then (last_success, w) else scan_loop ttls last_success any_success w
  end.

(** [1..=max] *)
Definition scan_ttl (max : Z) (w : W) : option Z * W := scan_loop (seqZ 1 max) None false w.
End scan.

(** ** One probe *)
Definition bypass_progress (entry : FlowEntry) : bool :=
  let state := fe_state entry in
  negb (is_none (outcome state)) || waiting_for_data state.

(** What one probe meets: the port its socket is bound to, what others do to
    the flows before it registers, while it connects, before each of its looks
    at the flow, and during the handshake; and whether connecting and the
    handshake succeed within the timeout. *)
Record ProbeChance (A : Type) := MkProbeChance {
  pc_port : option Z;
  pc_registering : list A;
  pc_connecting : list A;
  pc_connected : bool;
  pc_looks : list (list A);
  pc_handshaking : list A;
  pc_handshake : bool }.
Arguments MkProbeChance {A}.
Arguments pc_port {A}. Arguments pc_registering {A}. Arguments pc_connecting {A}.
Arguments pc_connected {A}. Arguments pc_looks {A}. Arguments pc_handshaking {A}.
Arguments pc_handshake {A}.

Section probe.
Context {W A : Type} `{FlowController W} (act : A → W → W).

Definition acts (l : list A) (w : W) : W := foldl (flip act) w l.

Definition register_probe_flow (key : FlowKey) (fake_data : list Z) (low_ttl_override : option Z)
    (registering : list A) (w : W) : option nat * W :=
  if flow_exists key w then (None, w)   (* "flow key already registered" *)
  else
    let w := acts registering w in
    match register_flow key fake_data low_ttl_override w with
    | Some (w, entry) => (Some entry, w)
    | None => (None, w)
    end.

(** The wait ends without progress when its timeout strikes, behind the last look. *)
Fixpoint wait_for_bypass_progress (entry : nat) (looks : list (list A)) (w : W) : bool * W :=
  match looks with
  | [] => (false, w)
  | l :: looks =>
      let w := acts l w in
      if default false (bypass_progress <$> entry_at entry w) then (true, w)
      else wait_for_bypass_progress entry looks w
  end.

Definition probe_key (connect_ip : Z) (binding : InterfaceBinding) (src_port : Z) : FlowKey :=
  MkFlowKey (ib_ip binding) src_port connect_ip CONNECT_PORT.

(** [probe_ttl] once its flow is registered. *)
Definition probe_registered (key : FlowKey) (entry : nat) (c : ProbeChance A) (w : W) : bool * W :=
  let w := acts (pc_connecting c) w in
  if negb (pc_connected c) then (false, remove_flow key w) else
  let '(progress, w) := wait_for_bypass_progress entry (pc_looks c) w in
  if negb progress then (false, remove_flow key w) else
  let w := acts (pc_handshaking c) w in
  (pc_handshake c, remove_flow key w).

Definition probe_ttl (fake_data : list Z) (connect_ip : Z) (binding : InterfaceBinding)
    (c : ProbeChance A) (candidate_ttl : Z) (w : W) : bool * W :=
  match pc_port c with
  | None => (false, w)
  | Some src_port =>
      let key := probe_key connect_ip binding src_port in
      match register_probe_flow key fake_data (Some candidate_ttl) (pc_registering c) w with
      | (None, w) => (false, w)
      | (Some entry, w) => probe_registered key entry c w
      end
  end.

(** The 32-byte values drawn for a fake ClientHello. *)
Record HelloSeeds := MkHelloSeeds { hs_random : list Z; hs_session_id : list Z; hs_key_share : list Z }.
Definition fresh_fake_client_hello (r : HelloSeeds) (fake_sni : list Z) : exec (list Z) :=
  build_client_hello (hs_random r) (hs_session_id r) fake_sni (hs_key_share r).

Definition discover_low_ttl (valid_name : string → bool) (discovery : LowTtlDiscovery) (sni : string)
    (connect_ip : Z) (binding : InterfaceBinding) (r : HelloSeeds) (chances : Z → ProbeChance A)
    (w : W) : exec (option Z * W) :=
  if valid_name sni then
    let! fake_data := fresh_fake_client_hello r (as_bytes sni) in
    Done (scan_ttl (λ ttl, probe_ttl fake_data connect_ip binding (chances ttl) ttl)
            (max_ttl discovery) w)
  else Done (None, w).
End probe.

(** ** The search, in general *)
Section scan_facts.
Context {W : Type} (probe : Z → W → bool * W).

(** All of some candidates probed one after the other. *)
Fixpoint run_probes (ttls : list Z) (w : W) : list bool * W :=
  match ttls with
  | [] => ([], w)
  | ttl :: ttls =>
      let '(ok, w) := probe ttl w in let '(oks, w) := run_probes ttls w in (ok :: oks, w)
  end.

(** What a search has done: some failures, some successes in a row, and at
    most one failure behind them. *)
Definition searched (ttls : list Z) (w : W) (found : option Z) (w' : W) : Prop :=
  ∃ bads goods rest, ttls = bads ++ goods ++ rest ∧ (goods = [] → rest = []) ∧ found = last goods ∧
    run_probes (bads ++ goods ++ take 1 rest) w =
      (replicate (length bads) false ++ replicate (length goods) true ++
       replicate (length (take 1 rest)) false, w').

Lemma scan_window ttls t w :
  let '(found, w') := scan_loop probe ttls (Some t) true w in
  ∃ goods rest, ttls = goods ++ rest ∧ found = Some (default t (last goods)) ∧
    run_probes (goods ++ take 1 rest) w =
      (replicate (length goods) true ++ replicate (length (take 1 rest)) false, w').
Proof.
  revert t w. induction ttls as [|x ttls IH]; intros t w; [by exists [], []|].
  cbn [scan_loop]. destruct (probe x w) as [[] w1] eqn:Ep.
  - specialize (IH x w1). destruct (scan_loop probe ttls (Some x) true w1) as [found w'].
    destruct IH as (goods & rest & -> & -> & Hr). exists (x :: goods), rest. split; [done|].
    split; [rewrite last_cons; by destruct (last goods)|]. cbn [app run_probes]. rewrite Ep, Hr. done.
  - exists [], (x :: ttls). split; [done|]. split; [done|]. cbn [app take run_probes]. by rewrite Ep.
Qed.

Lemma scan_searched ttls w :
  let '(found, w') := scan_loop probe ttls None false w in searched ttls w found w'.
Proof.
  revert w. induction ttls as [|x ttls IH]; intros w; [by exists [], [], []|].
  cbn [scan_loop]. destruct (probe x w) as [[] w1] eqn:Ep.
  - pose proof (scan_window ttls x w1) as Hw. destruct (scan_loop probe ttls (Some x) true w1) as [found w'].
    destruct Hw as (goods & rest & -> & -> & Hr). exists [], (x :: goods), rest. split; [done|].
    split; [done|]. split; [rewrite last_cons; by destruct (last goods)|]. cbn [app run_probes]. rewrite Ep, Hr. done.
  - specialize (IH w1). destruct (scan_loop probe ttls None false w1) as [found w'].
    destruct IH as (bads & goods & rest & -> & Hg & -> & Hr). exists (x :: bads), goods, rest.
    split; [done|]. split; [done|]. split; [done|]. cbn [app run_probes]. rewrite Ep, Hr. done.
Qed.

(** What every probe keeps, and what a success leaves behind. *)
Lemma run_probes_ok (good : W → Prop) (R : W → W → Prop) `{!PreOrder R} (won : Z → W → Prop) ttls w :
  (∀ t w1 w2, R w1 w2 → won t w1 → won t w2) →
  (∀ t w, t ∈ ttls → good w → let '(ok, w') := probe t w in
    good w' ∧ R w w' ∧ (ok = true → won t w')) → good w →
  let '(oks, w') := run_probes ttls w in
  good w' ∧ R w w' ∧ Forall2 (λ t ok, ok = true → won t w') ttls oks.
Proof.
  intros Hmono. revert w. induction ttls as [|x ttls IH]; intros w Hstep Hw; [by split_and!|].
  cbn [run_probes]. pose proof (Hstep x w) as Hx. destruct (probe x w) as [ok w1].
  destruct Hx as (Hg & HR & Hwon); [set_solver|done|].
  specialize (IH w1). destruct (run_probes ttls w1) as [oks w'].
  destruct IH as (Hg' & HR' & Hrest); [intros; apply Hstep; set_solver|done|].
  split; [done|]. split; [by etransitivity|]. constructor; [|done]. intros Hok. eapply Hmono; eauto.
Qed.
End scan_facts.

(** ** One probe among others *)
Section probe_facts.
Context {W A : Type} {wf : W → Prop} `{FlowControllerLaws W wf} (act : A → W → W).

(** What the others keep: flow records grow as the handler makes them grow. *)
Class Surroundings := {
  act_wf a w : wf w → wf (act a w);
  act_entry a w h e : wf w → entry_at h w = Some e →
    ∃ e', entry_at h (act a w) = Some e' ∧ entry_le e e' }.
Context `{!Surroundings}.

(** A key the others do not register flows for (they may lose them). *)
Definition left_alone (k : FlowKey) : Prop := ∀ a w, wf w →
  tracked k (act a w) = tracked k w ∨ tracked k (act a w) = None.

(** From before to after: nothing new is tracked, flow records stay. *)
Definition undisturbed (w w' : W) : Prop :=
  (∀ k, left_alone k → tracked k w' = tracked k w ∨ tracked k w' = None) ∧
  (∀ h e, entry_at h w = Some e → ∃ e', entry_at h w' = Some e' ∧ entry_le e e').
#[export] Instance undisturbed_preorder : PreOrder undisturbed.
Proof.
  split; [intros w; split; [by left|]; intros h e He; by exists e|].
  intros w1 w2 w3 [Ht1 He1] [Ht2 He2]. split.
  - intros k Hk. destruct (Ht2 k Hk) as [->|]; [|by right]. by apply Ht1.
  - intros h e He. destruct (He1 h e He) as (e2 & Hb2 & ?). destruct (He2 h e2 Hb2) as (e3 & Hb3 & ?).
    exists e3. split; [done|]. by etransitivity.
Qed.

Lemma acts_ok l w : wf w → wf (acts act l w) ∧ undisturbed w (acts act l w).
Proof.
  revert w. induction l as [|a l IH]; intros w Hw; [done|]. cbn [acts foldl flip].
  destruct (IH (act a w)) as [Hw' Hu]; [by apply act_wf|]. split; [done|]. transitivity (act a w); [|done].
  split; [intros k Hk; by apply Hk|]. intros h e. by apply act_entry.
Qed.

Lemma wait_ok entry looks w : wf w →
  let '(progress, w') := wait_for_bypass_progress act entry looks w in
  wf w' ∧ undisturbed w w' ∧
  (progress = true → ∃ e, entry_at entry w' = Some e ∧ bypass_progress e = true).
Proof.
  revert w. induction looks as [|l looks IH]; intros w Hw; [done|]. cbn [wait_for_bypass_progress].
  destruct (acts_ok l w Hw) as [Hw1 Hu1]. destruct (entry_at entry (acts act l w)) as [e|] eqn:Ee; cbn.
  - destruct (bypass_progress e) eqn:Eb; [split_and!; [done..|by exists e]|].
    specialize (IH _ Hw1). destruct (wait_for_bypass_progress act entry looks _) as [p w'].
    destruct IH as (? & ? & ?). split; [done|]. split; [by etransitivity|done].
  - specialize (IH _ Hw1). destruct (wait_for_bypass_progress act entry looks _) as [p w'].
    destruct IH as (? & ? & ?). split; [done|]. split; [by etransitivity|done].
Qed.

(** A success: the probe had a flow of its own with the candidate as its TTL,
    and the interceptor was done with it before the handshake. *)
Definition probed (fake_data : list Z) (ttl : Z) (w : W) : Prop :=
  ∃ h e, entry_at h w = Some e ∧ fake_data = Flow.fake_data (fe_state e) ∧
    low_ttl_override (fe_state e) = Some ttl.

Lemma probed_stays fake ttl w w' : undisturbed w w' → probed fake ttl w → probed fake ttl w'.
Proof.
  intros [_ Hu] (h & e & He & -> & Ht). destruct (Hu h e He) as (e' & He' & _ & Hd & Ho & _).
  exists h, e'. by rewrite Hd, Ho.
Qed.

(** Whatever is done to a new flow and the others, removing its key leaves
    nothing of it in the table. *)
Lemma own_flow_removed key fake ttl w w1 h w2 : wf w → tracked key w = None →
  register_flow key fake ttl w = Some (w1, h) → wf w2 → undisturbed w1 w2 →
  wf (remove_flow key w2) ∧ undisturbed w (remove_flow key w2).
Proof.
  intros Hw Ht Hr Hw2 [Hk2 He2].
  destruct (register_flow_ok key fake ttl w Hw Ht) as (w1' & h' & Hr' & Hw1 & Hn & He & Ho & Hk).
  rewrite Hr in Hr'. injection Hr' as <- <-.
  destruct (remove_flow_spec key w2 Hw2) as (Hw3 & He3 & Hk3). split; [done|]. split.
  - intros k Hl. rewrite Hk3. destruct (decide (k = key)); [by right|].
    specialize (Hk2 k Hl). rewrite Hk, decide_False in Hk2 by done. done.
  - intros h' e He'. rewrite He3. apply He2. rewrite Ho; [done|]. congruence.
Qed.

Lemma probe_ok fake ip binding c ttl w : wf w →
  (∀ port, pc_port c = Some port → left_alone (probe_key ip binding port)) →
  let '(ok, w') := probe_ttl act fake ip binding c ttl w in
  wf w' ∧ undisturbed w w' ∧ (ok = true → probed fake ttl w').
Proof.
  intros Hw Halone. unfold probe_ttl. destruct (pc_port c) as [port|]; [|done].
  specialize (Halone port eq_refl). set (key := probe_key ip binding port) in *. unfold register_probe_flow.
  rewrite flow_exists_tracked by done. destruct (tracked key w) eqn:Et; cbn [is_none negb]; [done|].
  destruct (acts_ok (pc_registering c) w Hw) as [Hw0 Hu0]. set (w0 := acts act (pc_registering c) w) in *.
  assert (tracked key w0 = None) as Et0.
  { destruct Hu0 as [Hk _]. destruct (Hk key Halone) as [->|]; done. }
  destruct (register_flow_ok key fake (Some ttl) w0 Hw0 Et0) as (w1 & h & Hr & Hw1 & Hn & He & _ & _).
  rewrite Hr. unfold probe_registered.
  destruct (acts_ok (pc_connecting c) w1 Hw1) as [Hw2 Hu2]. set (w2 := acts act (pc_connecting c) w1) in *.
  pose proof (own_flow_removed key fake (Some ttl) w0 w1 h) as Hown.
  destruct (pc_connected c); cbn [negb].
  2: { destruct (Hown w2) as [Hw3 Hu3]; [done..|]. split; [done|]. split; [by etransitivity|done]. }
  pose proof (wait_ok h (pc_looks c) w2 Hw2) as Hwait.
  destruct (wait_for_bypass_progress act h (pc_looks c) w2) as [progress w3].
  destruct Hwait as (Hw3 & Hu3 & _). assert (undisturbed w1 w3) as Hu13 by (by etransitivity).
  destruct progress; cbn [negb].
  2: { destruct (Hown w3) as [Hw4 Hu4]; [done..|]. split; [done|]. split; [by etransitivity|done]. }
  destruct (acts_ok (pc_handshaking c) w3 Hw3) as [Hw4 Hu4]. set (w4 := acts act (pc_handshaking c) w3) in *.
  assert (undisturbed w1 w4) as Hu14 by (by etransitivity).
  destruct (Hown w4) as [Hw5 Hu5]; [done..|]. split; [done|]. split; [by etransitivity|]. intros _.
  assert (probed fake ttl w4) as (h4 & e4 & He4 & Hp4).
  { apply (probed_stays fake ttl w1); [done|]. exists h, (FlowEntry_new fake (Some ttl)). done. }
  destruct (remove_flow_spec key w4 Hw4) as (_ & Hsame & _). exists h4, e4. by rewrite Hsame.
Qed.

End probe_facts.

(** ** The local controller among packets and other connections *)
#[export] Instance local_world_laws : FlowControllerLaws LocalFlows world_ok.
Proof.
  constructor; [intros k w [Hw _]|intros k h w [Hw _]|intros k1 k2 h w [Hw _]|intros k data ttl w Hok Ht|
    intros k data ttl h w [Hw _]|intros k w Hok|intros w Hok].
  - by apply flow_exists_tracked.
  - by apply tracked_entry.
  - by apply tracked_inj.
  - destruct (register_flow_ok k data ttl w (proj1 Hok) Ht) as (w' & h & Hr & _ & Hrest).
    exists w', h. split; [done|]. split; [by eapply register_world_ok|done].
  - by apply register_flow_dup.
  - destruct (remove_flow_spec k w (proj1 Hok)) as (Hw & Hh & Hk). split; [|done].
    split; [done|]. by destruct Hok as [_ He].
  - destruct (reset_spec w (proj1 Hok)) as (_ & Hrest). split; [by apply reset_world_ok|done].
Qed.

(** What others do between the steps of a probe: the system gives the ports of
    the probe's sockets ([mine]) to nobody else. *)
Inductive Other :=
  | OPacket (env : MethodEnv) (pkt : PacketView)
  | ORegister (k : FlowKey) (data : list Z) (ttl : option Z)
  | ORemove (k : FlowKey)
  | OReset.

Definition others (m : BypassMethod) (mine : list FlowKey) (a : Other) (w : LocalFlows) : LocalFlows :=
  match a with
  | OPacket env pkt => match on_packet m env w pkt with Done (w, _, _) => w | Panic => w end
  | ORegister k data ttl =>
      if decide (k ∈ mine) then w
      else match local_register k data ttl w with Some (w, _) => w | None => w end
  | ORemove k => local_remove k w
  | OReset => local_reset w
  end.

Lemma others_step m mine a w : others m mine a w = w ∨ step m w (others m mine a w).
Proof.
  destruct a as [env p|k data ttl|k|]; cbn.
  - destruct (on_packet m env w p) as [[[w' q] v]|] eqn:E; [right|by left]. by eapply step_packet.
  - case_decide; [by left|]. destruct (local_register k data ttl w) as [[w' h]|] eqn:E; [right|by left].
    by eapply step_register.
  - right. constructor.
  - right. constructor.
Qed.

#[export] Instance others_surroundings m mine `{!HandshakeSafe m, !DataSafe m} :
  Surroundings (wf := world_ok) (others m mine).
Proof.
  constructor; intros a w *; [intros Hw|intros Hw He]; destruct (others_step m mine a w) as [-> |Hs];
    try done; [by eapply step_ok|by eexists|]. destruct (step_ok m _ _ Hs Hw) as [_ Hl]. by apply Hl.
Qed.

Lemma on_packet_flows m env w p w' q v : on_packet m env w p = Done (w', q, v) → lf_flows w' = lf_flows w.
Proof.
  unfold on_packet. intros Hp. repeat case_match; simplify_eq; try done.
  all: destruct (on_entry _ _ _ _) as [[[? ?] ?]|]; cbn [exec_bind] in *; by simplify_eq.
Qed.

Lemma others_left_alone m mine k : k ∈ mine → left_alone (wf := world_ok) (others m mine) k.
Proof.
  intros Hk a w Hw. destruct a as [env p|k' data ttl|k'|]; cbn.
  - left. destruct (on_packet m env w p) as [[[w' q] v]|] eqn:E; [|done]. f_equal. by eapply on_packet_flows.
  - left. case_decide as Hd; [done|]. destruct (local_register k' data ttl w) as [[w' h]|] eqn:E; [|done].
    unfold local_register in E. destruct (lf_flows w !! k'); simplify_eq. cbn.
    rewrite lookup_insert_ne; [done|]. by intros ->.
  - rewrite lookup_delete. case_decide; auto.
  - right. by apply lookup_empty.
Qed.

(** ** An example *)
Module Sample.
Definition config : Config := with_methods ["low_ttl"%string] (default_config "127.0.0.1"%string 44444).
Definition method : BypassMethod := composite (composite_of config 0).
Definition binding : InterfaceBinding := MkInterfaceBinding 1 2 "wlan0".
Definition env : MethodEnv := MkMethodEnv 5 0.
Definition handshake : list Other :=
  map (OPacket env) [control_packet Outbound 1000 0 true false; control_packet Inbound 5000 1001 true true;
    control_packet Outbound 1001 5001 false true].
(** The middlebox is two hops away, the server five; another connection comes
    up in between. *)
Definition chances (ttl : Z) : ProbeChance Other :=
  MkProbeChance (Some 40000%Z) [] [ORegister (MkFlowKey 1 50000 9 443) [1%Z] None] true [[]; handshake] []
    ((2 <=? ttl) && (ttl <=? 4))%Z.
Definition seeds : HelloSeeds :=
  MkHelloSeeds (replicate 32 1%Z) (replicate 32 2%Z) (replicate 32 3%Z).
Definition hello : list Z :=
  match fresh_fake_client_hello seeds (as_bytes "a.bc") with Done f => f | Panic => [] end.
Definition mine : list FlowKey := [sample_key].
Definition run : exec (option Z * LocalFlows) :=
  discover_low_ttl (others method mine) (λ _, true) (MkDiscovery 30 5000) "a.bc" 2 binding seeds chances
    new_flow_table.
End Sample.

Example low_ttl_found : match Sample.run with
  | Done (found, w) => found = Some 4%Z ∧ map_to_list (lf_flows w) = [(MkFlowKey 1 50000 9 443, 1)]
  | Panic => False end.
Proof. vm_compute. done. Qed.

Lemma sample_safe : HandshakeSafe Sample.method ∧ DataSafe Sample.method.
Proof.
  assert (validate 1024 Sample.config = Ok ()) as Hv by (vm_compute; reflexivity).
  apply (built_safe 1024 Sample.config 0 Sample.method Hv); [by vm_compute|].
  destruct (validate_parts _ _ Hv) as [Hm _]. unfold build_method. rewrite (build_composite_ok _ _ Hm). reflexivity.
Qed.


(** A name the TLS library accepts may be too long for the fake ClientHello:
    discovery panics on it, like every connection of the proxy to it. *)
Definition long_name : string := str_join "." (replicate 74 "aa"%string).   (* 221 bytes *)
Example long_name_panics w :
  discover_low_ttl (others Sample.method Sample.mine) (λ _, true) (MkDiscovery 30 5000) long_name 2
    Sample.binding Sample.seeds Sample.chances w = Panic.
Proof. reflexivity. Qed.
