(* ===== verification/Rescan.v ===== *)
(** * Rescans

    Model of the rescans of [crates/zerodpi/src/main.rs] ([rescan_sni_once],
    [rescan_ip_once], the switch decisions, the discovery at startup), of
    [manual_rescan.rs] and of [target_selection.rs]: how a finished scan
    becomes the targets of the pool.  What the scans and the TTL discovery find
    and what the user picks are arguments.  A rescan holds [SCAN_LOCK], the
    workers and the ping monitor do not: what they do to the pool while it
    waits is a list of [Action]s of the pool ([Pauses]). *)
From stdpp Require Import base list numbers strings gmap.
From Stdlib Require Import ZArith Lia Sorted.
From S2P Require Import Prelude Text NetAddr Config Methods Recovery ScanList Scanner TargetPool.
Import TargetPool.
Local Open Scope nat_scope.
Local Open Scope list_scope.

(** ** The targets of a pool, with their TTLs *)
Section pool_ttls.
Context (discover : Target → exec (option Z)).

Definition with_low_ttl (ttl : option Z) (t : Target) : Target :=
  MkTarget (t_ip t) (t_sni t) (t_score t) (tcp_latency t) ttl.

(** The TTL a target is admitted with. *)
Definition admit_ttl (previous : list Target) (startup_fallback discovered : option Z) (t : Target)
    : option Target :=
  match discovered with
  | Some ttl => Some (with_low_ttl (Some ttl) t)
  | None =>
      match list_find (λ old, t_ip old = t_ip t ∧ t_sni old = t_sni t) previous with
      | Some (_, old) => Some (with_low_ttl (t_low_ttl old) t)
      | None =>
          match startup_fallback with
          | Some ttl => Some (with_low_ttl (Some ttl) t)
          | None => None
          end
      end
  end.

Fixpoint discover_pool_ttls (candidates previous : list Target) (startup_fallback : option Z)
    : exec (list Target) :=
  match candidates with
  | [] => Done []
  | t :: candidates =>
      let! found := discover t in
      let! admitted := discover_pool_ttls candidates previous startup_fallback in
      Done (option_list (admit_ttl previous startup_fallback found t) ++ admitted)
  end.
End pool_ttls.

(** ** The discovered TTL *)
Inductive LowTtlDiscoveryDecision := Disabled | SkippedCompleteImmediately | SkippedNoLowTtlMethod | Run.
Definition decide_low_ttl_discovery (cfg : Config) : LowTtlDiscoveryDecision :=
  if negb (LOW_TTL_DISCOVER cfg) then Disabled
  else if negb (LOW_TTL_COMPLETE_IMMEDIATELY cfg) then SkippedCompleteImmediately
  else if negb (str_mem "low_ttl" (BYPASS_METHOD cfg)) then SkippedNoLowTtlMethod
  else Run.

(** What the helper makes of [SetLowTtlValue]; an answer that does not arrive
    in time is an error whether or not the helper has taken the value. *)
Inductive HelperAnswer := Accepted | Refused | NoAnswer (taken : bool).
Inductive LowTtlApplier := Local | Remote (answer : HelperAnswer).
Record LowTtlDiscoveryState := MkDiscovery {
  ld_probe : string → Z → option Z;
  ld_applier : LowTtlApplier }.

(** ** What a rescan changes *)
Inductive RescanKind := RescanSni | RescanIp.
(** To the dashboard, and for the first two to the runtime events as well. *)
Inductive RescanEvent :=
  | RescanStarted (kind : RescanKind)
  | RescanFinished (kind : RescanKind) (found : nat) (best_score : option Z) (switched : bool)
  | SniTargetChanged (sni : string) (ip score : Z)
  | IpTargetChanged (ip : IpAddr) (score : Z)
  | TargetPoolUpdated (target_count : nat) (strategy : SelectionStrategy)
  | LowTtlDiscovered (value : Z).

Record Live := MkLive {
  lv_world : World;            (* the pool and the leases on it *)
  lv_probe_target : Z;
  lv_ttl : Z;                  (* the TTL of the live [low_ttl] method *)
  lv_events : list RescanEvent }.
Definition lv_pool (l : Live) : TargetPool := w_pool (lv_world l).

Definition say (e : RescanEvent) (l : Live) : Live :=
  MkLive (lv_world l) (lv_probe_target l) (lv_ttl l) (lv_events l ++ [e]).
Definition set_ttl (v : Z) (l : Live) : Live :=
  MkLive (lv_world l) (lv_probe_target l) v (lv_events l).
Definition with_pool (p : TargetPool) (l : Live) : Live :=
  MkLive (MkWorld p (w_leases (lv_world l))) (lv_probe_target l) (lv_ttl l) (lv_events l).

Record Pauses := MkPauses { while_scanning : list Action; while_selecting : list Action;
  while_discovering : list Action }.
Definition await (acts : list Action) (l : Live) : exec Live :=
  let! w := exec_fold perform acts (lv_world l) in
  Done (MkLive w (lv_probe_target l) (lv_ttl l) (lv_events l)).

Definition anchor : Z := 0x01010101.   (* 1.1.1.1 *)
Definition monitor_probe_target (active : IpAddr) : Z :=
  match active with IpV4 ip => ip | IpV6 _ => anchor end.
Definition store_probe_target (active : IpAddr) (l : Live) : Live :=
  MkLive (lv_world l) (monitor_probe_target active) (lv_ttl l) (lv_events l).

(** [TargetPool::replace] on the pool the workers share. *)
Definition replace_pool (ts : list Target) (l : Live) : exec (bool * Live) :=
  let! r := replace (lv_pool l) ts in
  Done (snd r, with_pool (fst r) l).

Definition announce_target_pool (cfg : Config) (l : Live) : exec Live :=
  let! target := representative (lv_pool l) in
  let l := match t_sni target, t_ip target with
    | Some sni, IpV4 ip => say (SniTargetChanged sni ip (t_score target)) l
    | Some _, IpV6 _ => l
    | None, ip => say (IpTargetChanged ip (t_score target)) l
    end in
  Done (say (TargetPoolUpdated (len (lv_pool l)) (LOAD_BALANCE_STRATEGY cfg)) l).

Definition apply (a : LowTtlApplier) (value : Z) (l : Live) : bool * Live :=
  match a with
  | Local | Remote Accepted => (true, set_ttl value l)
  | Remote Refused | Remote (NoAnswer false) => (false, l)
  | Remote (NoAnswer true) => (false, set_ttl value l)
  end.
(** [LowTtlDiscoveryState::run] *)
Definition run_discovery (d : LowTtlDiscoveryState) (sni : string) (connect_ip : Z) (l : Live)
    : option Z * Live :=
  match ld_probe d sni connect_ip with
  | None => (None, l)
  | Some found => let '(applied, l) := apply (ld_applier d) found l in (if applied then Some found else None, l)
  end.

(** The closure over a target. *)
Definition probe_target_ttl (d : LowTtlDiscoveryState) (t : Target) : exec (option Z) :=
  match t_ip t with
  | IpV6 _ => Done None
  | IpV4 ip => let! sni := expect (t_sni t) in Done (ld_probe d sni ip)
  end.

(** Step 3b of [sni_spoof_main]: the TTL before the listener opens.  [handle] is
    the live method's TTL here or in the helper, when there is one; [sni] and
    [connect_ip] are the entry the pool was built from; [restoring]: a reload
    has failed and the former pool is back.  [None]: the helper has not taken
    the restored value, and the session ends with the error. *)
Definition low_ttl_discovery_state (cfg : Config) (handle : option LowTtlApplier)
    (probe : string → Z → option Z) : option LowTtlDiscoveryState :=
  match decide_low_ttl_discovery cfg with
  | Run => MkDiscovery probe <$> handle
  | _ => None
  end.
Definition restore_low_ttl (handle : option LowTtlApplier) (value : option Z) (l : Live) : option Live :=
  match value, handle with
  | Some value, Some a => let '(applied, l) := apply a value l in if applied then Some l else None
  | _, _ => Some l
  end.
Definition startup_low_ttl (cfg : Config) (restoring : bool) (handle : option LowTtlApplier)
    (probe : string → Z → option Z) (sni : string) (connect_ip : Z) (l : Live) : exec (option Live) :=
  if restoring then
    let! t := representative (lv_pool l) in
    Done (restore_low_ttl handle (t_low_ttl t) l)
  else
    match low_ttl_discovery_state cfg handle probe with
    | None => Done (Some l)
    | Some d =>
        if LOAD_BALANCE_ENABLED cfg then
          let! targets := discover_pool_ttls (probe_target_ttl d) (probe_snapshot (lv_pool l)).2 []
            (Some (LOW_TTL_VALUE cfg)) in
          let! r := replace_pool targets l in Done (Some r.2)
        else
          let '(found, l) := run_discovery d sni connect_ip l in
          Done (Some (match found with Some value => say (LowTtlDiscovered value) l | None => l end))
    end.

(** ** Selection *)
Record ActiveSniTarget := MkActiveSni { as_sni : string; as_ip : Z; as_score : Z }.

Definition should_switch_sni_target (current : ActiveSniTarget) (candidate : SniProbeEntry) (min_score : Z)
    : bool :=
  if (as_ip current =? sp_ip candidate)%Z && String.eqb (as_sni current) (sp_sni candidate) then false
  else (min_score <=? sp_score candidate)%Z.
Definition active_of (e : SniProbeEntry) : ActiveSniTarget := MkActiveSni (sp_sni e) (sp_ip e) (sp_score e).
Definition select_rescan_target (current : ActiveSniTarget) (candidate : SniProbeEntry) (min_score : Z)
    : option ActiveSniTarget :=
  if should_switch_sni_target current candidate min_score then Some (active_of candidate) else None.
Definition discovery_gated_switch (discovered : option Z) (current : ActiveSniTarget)
    (candidate : SniProbeEntry) (min_score : Z) : option ActiveSniTarget :=
  match discovered with Some _ => select_rescan_target current candidate min_score | None => None end.

(** [Worker::select]: [user] is what the dashboard answers, [None] when it is
    gone or nothing was chosen. *)
Definition select_entry {A} (auto : bool) (user : list A → option A) (entries : list A) : option A :=
  if auto || is_nil entries then head entries else user entries.
(** The entry a scan is about: the user's on a manual rescan, else the first. *)
Definition chosen {A} (auto : bool) (manual : option (list A → option A)) (entries : list A) : option A :=
  match manual with Some user => select_entry auto user entries | None => head entries end.

(** [wait_for_rescan]: the answers of [select!] in order. *)
Inductive Wake := TimerFired | RequestReceived | RequestsClosed.
Fixpoint wait_for_rescan (worker : bool) (interval_secs : Z) (wakes : list Wake)
    : option (option bool * bool * list Wake) :=
  if negb worker && (interval_secs =? 0)%Z then Some (None, worker, wakes) else
  match wakes with
  | [] => None
  | TimerFired :: wakes => if (0 <? interval_secs)%Z then Some (Some false, worker, wakes) else None
  | RequestReceived :: wakes => if worker then Some (Some true, worker, wakes) else None
  | RequestsClosed :: wakes => if worker then wait_for_rescan false interval_secs wakes else None
  end.

(** ** [rescan_sni_once] *)
Definition Summary : Type := option (nat * option Z).   (* found, best score *)
Definition summary {A} (score : A → Z) (l : list A) : Summary := Some (length l, score <$> head l).

(** The counts a rescan reports when it was not made, or has failed. *)
Definition finish (kind : RescanKind) (s : Summary) (switched : bool) (l : Live) : RescanOutcome * Live :=
  let '(found, best_score) := default (0, None) s in
  (MkRescanOutcome (Z.of_nat found) switched, say (RescanFinished kind found best_score switched) l).
Definition fixed_target (kind : RescanKind) (l : Live) : exec (RescanOutcome * Live) :=
  let! t := representative (lv_pool l) in
  Done (finish kind (Some (len (lv_pool l), Some (t_score t))) false l).

Definition rescan_pool_sni (cfg : Config) (discovery : option LowTtlDiscoveryState) (ps : Pauses)
    (entries : list SniProbeEntry) (l : Live) : exec (Summary * bool * Live) :=
  let candidates := sni_candidates entries (LOAD_BALANCE_TARGET_COUNT cfg) (SNI_SWITCH_MIN_SCORE cfg) in
  let! r := match discovery with
    | Some d =>
        let previous := (probe_snapshot (lv_pool l)).2 in
        let! l := await (while_discovering ps) l in
        let! admitted := discover_pool_ttls (probe_target_ttl d) candidates previous None in
        Done (admitted, l)
    | None => Done (candidates, l)
    end in
  let '(candidates, l) := r in
  match candidates with
  | [] => Done (summary t_score candidates, false, l)
  | _ =>
      let! r := replace_pool candidates l in
      let '(switched, l) := r in
      let! t := representative (lv_pool l) in
      let! l := announce_target_pool cfg (store_probe_target (t_ip t) l) in
      Done (summary t_score candidates, switched, l)
  end.

(** The active target of a pool of SNI targets: any other one panics. *)
Definition active_sni (p : TargetPool) : exec ActiveSniTarget :=
  let! t := representative p in
  let! sni := expect (t_sni t) in
  match t_ip t with IpV4 ip => Done (MkActiveSni sni ip (t_score t)) | IpV6 _ => Panic end.

Definition hot_swap_sni (next : ActiveSniTarget) (discovered : option Z) (l : Live) : exec Live :=
  let! r := replace_pool [target_sni (as_sni next) (as_ip next) (as_score next)] l in
  let l := say (SniTargetChanged (as_sni next) (as_ip next) (as_score next))
    (store_probe_target (IpV4 (as_ip next)) r.2) in
  Done (match discovered with Some value => say (LowTtlDiscovered value) l | None => l end).

Definition rescan_target_sni (cfg : Config) (discovery : option LowTtlDiscoveryState)
    (manual : option (list SniProbeEntry → option SniProbeEntry)) (ps : Pauses)
    (entries : list SniProbeEntry) (l : Live) : exec (bool * Live) :=
  let! l := await (while_selecting ps) l in
  match chosen (AUTO_SELECT cfg) manual entries with
  | None => Done (false, l)
  | Some best =>
      let! current := active_sni (lv_pool l) in
      let next := if is_some manual then Some (active_of best)
                  else select_rescan_target current best (SNI_SWITCH_MIN_SCORE cfg) in
      match next with
      | None => Done (false, l)
      | Some next =>
          let! r := match discovery with
            | Some d =>
                let! l := await (while_discovering ps) l in
                let '(discovered, l) := run_discovery d (as_sni next) (as_ip next) l in
                Done (if is_some manual then (λ _, next) <$> discovered
                      else discovery_gated_switch discovered current best (SNI_SWITCH_MIN_SCORE cfg),
                      discovered, l)
            | None => Done (Some next, None, l)
            end in
          let '(switch, discovered, l) := r in
          match switch with
          | None => Done (false, l)
          | Some next =>
              let! l := hot_swap_sni next discovered l in Done (true, l)
          end
      end
  end.

Definition rescan_sni_once (cfg : Config) (scan : result (list SniProbeEntry))
    (discovery : option LowTtlDiscoveryState)
    (manual : option (list SniProbeEntry → option SniProbeEntry)) (ps : Pauses) (l : Live)
    : exec (RescanOutcome * Live) :=
  if LOAD_BALANCE_ENABLED cfg && is_some (SELECTED_SNI cfg) then fixed_target RescanSni l else
  let! l := await (while_scanning ps) (say (RescanStarted RescanSni) l) in
  match scan with
  | Err _ => Done (finish RescanSni None false l)
  | Ok entries =>
      if LOAD_BALANCE_ENABLED cfg then
        let! r := rescan_pool_sni cfg discovery ps entries l in
        let '(s, switched, l) := r in Done (finish RescanSni s switched l)
      else
        let! r := rescan_target_sni cfg discovery manual ps entries l in
        let '(switched, l) := r in Done (finish RescanSni (summary sp_score entries) switched l)
  end.

(** ** [rescan_ip_once] *)
Definition reject_ipv6_ip_candidates (ips : list IpAddr) : bool := existsb is_ipv6 ips.

Definition require_ipv4_target (ip : IpAddr) : option Z :=
  match ip with IpV4 ip => Some ip | IpV6 _ => None end.

Definition rescan_pool_ip (cfg : Config) (entries : list IpProbeEntry) (l : Live)
    : exec (Summary * bool * Live) :=
  let candidates := ip_candidates entries (LOAD_BALANCE_TARGET_COUNT cfg) in
  let selected :=
    t ← head candidates; snd <$> list_find (λ e, ipp_ip e = t_ip t) entries in
  match selected with
  | None => Done (summary t_score candidates, false, l)
  | Some _ =>
      let! r := replace_pool candidates l in
      let '(changed, l) := r in
      let! t := representative (lv_pool l) in
      let! l := announce_target_pool cfg (store_probe_target (t_ip t) l) in
      Done (summary t_score candidates, changed, l)
  end.

Definition rescan_target_ip (cfg : Config) (manual : option (list IpProbeEntry → option IpProbeEntry))
    (ps : Pauses) (entries : list IpProbeEntry) (l : Live) : exec (bool * Live) :=
  let! l := await (while_selecting ps) l in
  match chosen (AUTO_SELECT cfg) manual entries with
  | None => Done (false, l)
  | Some best =>
      let! current := representative (lv_pool l) in
      if bool_decide (ipp_ip best = t_ip current) then Done (false, l) else
      let! r := replace_pool [from_ip best] l in
      Done (true, say (IpTargetChanged (ipp_ip best) (ipp_score best)) (store_probe_target (ipp_ip best) r.2))
  end.

(** [input] is [load_ip_scan_input], [scan] what [scan_ip_list] returns on it. *)
Definition rescan_ip_once (cfg : Config) (ipv4_only : bool) (input : result (list IpAddr))
    (scan : list IpAddr → list IpProbeEntry)
    (manual : option (list IpProbeEntry → option IpProbeEntry)) (ps : Pauses) (l : Live)
    : exec (RescanOutcome * Live) :=
  if LOAD_BALANCE_ENABLED cfg && is_some (SELECTED_IP cfg) then fixed_target RescanIp l else
  let l := say (RescanStarted RescanIp) l in
  match input with
  | Err _ => Done (finish RescanIp None false l)
  | Ok ips =>
      if ipv4_only && reject_ipv6_ip_candidates ips then Done (finish RescanIp None false l) else
      let! l := await (while_scanning ps) l in
      let entries := scan ips in
      if is_nil entries then Done (finish RescanIp None false l)
      else if LOAD_BALANCE_ENABLED cfg then
        let! r := rescan_pool_ip cfg entries l in
        let '(s, switched, l) := r in Done (finish RescanIp s switched l)
      else
        let! r := rescan_target_ip cfg manual ps entries l in
        let '(switched, l) := r in Done (finish RescanIp (summary ipp_score entries) switched l)
  end.

(** ** What stays true of a live pool *)
Definition targets (l : Live) : list Target := m_target <$> members (lv_pool l).
(** The monitor watches the route to the representative. *)
Definition watched (ts : list Target) (probe : Z) : Prop :=
  match ts with t :: _ => probe = monitor_probe_target (t_ip t) | [] => False end.
Definition live_ok (l : Live) : Prop := world_ok (lv_world l) ∧ watched (targets l) (lv_probe_target l).
Definition sni_target (t : Target) : Prop := ∃ sni ip, t_sni t = Some sni ∧ t_ip t = IpV4 ip.
Definition no_replace (a : Action) : Prop := match a with Replace _ => False | _ => True end.
Definition quiet (ps : Pauses) : Prop :=
  Forall no_replace (while_scanning ps) ∧ Forall no_replace (while_selecting ps) ∧
  Forall no_replace (while_discovering ps).

Lemma lstep_ranking L a L' : lstep L a L' → no_replace a → lg_ranking L' = lg_ranking L.
Proof. by destruct 1. Qed.
Lemma lsteps_ranking L acts L' : lsteps L acts L' → Forall no_replace acts → lg_ranking L' = lg_ranking L.
Proof.
  induction 1 as [|L1 a L2 acts L3 Hs _ IH]; [done|]. intros [Ha Hf]%Forall_cons.
  by rewrite IH, (lstep_ranking _ _ _ Hs).
Qed.

Lemma await_ok acts l : Forall no_replace acts → live_ok l → ∃ l', await acts l = Done l' ∧ live_ok l' ∧
  targets l' = targets l ∧ lv_probe_target l' = lv_probe_target l ∧ lv_ttl l' = lv_ttl l.
Proof.
  intros Hf [Hw Hp]. destruct (run_refines acts _ Hw) as (w & E & Hw' & Hs).
  apply lsteps_ranking in Hs; [|done]. unfold await. rewrite E. eexists. split; [done|].
  assert (m_target <$> members (w_pool w) = targets l) as Ht by exact Hs.
  split_and!; try done. split; [done|]. unfold targets, lv_pool in *. cbn. by rewrite Ht.
Qed.

Lemma replace_pool_ok ts l : world_ok (lv_world l) → ts ≠ [] → ∃ l' b,
  replace_pool ts l = Done (b, l') ∧ world_ok (lv_world l') ∧ targets l' = unique_targets ts usize_max ∧
  b = negb (bool_decide (key <$> targets l = key <$> targets l')) ∧
  lv_probe_target l' = lv_probe_target l ∧ lv_ttl l' = lv_ttl l.
Proof.
  intros Hw Hts. destruct l as [[p ls] probe ttl es]. pose proof (replace_refines (MkWorld p ls) ts Hw) as Hr.
  destruct (replace_spec p ts (po_hist p (proj1 Hw)) Hts) as (p' & E & Hp' & Hf & _).
  destruct Hr as (w' & Ew & Hw' & _). unfold replace_pool, lv_pool. cbn in *. rewrite E in Ew |- *. cbn in *.
  injection Ew as <-. do 2 eexists. split; [done|]. split; [done|]. unfold targets, lv_pool. cbn.
  rewrite (fresh_targets _ _ Hf). split_and!; [done| |done|done]. do 2 f_equal.
  rewrite <- list_fmap_compose. done.
Qed.

Lemma representative_ok l : live_ok l →
  ∃ t ts, targets l = t :: ts ∧ representative (lv_pool l) = Done t ∧
    lv_probe_target l = monitor_probe_target (t_ip t).
Proof.
  intros [_ Hw]. unfold targets, representative, idx in *. destruct (members (lv_pool l)) as [|m ms]; [done|].
  cbn in *. by exists (m_target m), (m_target <$> ms).
Qed.

Lemma active_sni_ok l : live_ok l → Forall sni_target (targets l) →
  ∃ t ts c, targets l = t :: ts ∧ active_sni (lv_pool l) = Done c ∧
    key t = (Some (as_sni c), IpV4 (as_ip c)).
Proof.
  intros Hl Hs. destruct (representative_ok l Hl) as (t & ts & E & Hr & _). rewrite E in Hs.
  apply Forall_cons in Hs as [(sni & ip & H1 & H2) _]. unfold active_sni. rewrite Hr. cbn. rewrite H1, H2. cbn.
  do 3 eexists. split_and!; [done..|]. unfold key. by rewrite H1, H2.
Qed.

Lemma run_discovery_spec d sni ip l :
  let '(found, l') := run_discovery d sni ip l in
  lv_world l' = lv_world l ∧ lv_probe_target l' = lv_probe_target l ∧
  match found with
  | Some v => ld_probe d sni ip = Some v ∧ lv_ttl l' = v
  | None => ld_applier d = Remote (NoAnswer true) ∨ lv_ttl l' = lv_ttl l
  end.
Proof.
  unfold run_discovery. destruct (ld_probe d sni ip) as [v|]; [|auto].
  destruct (ld_applier d) as [|[| |[|]]]; cbn; auto.
Qed.

Lemma should_switch_spec c e min_score : should_switch_sni_target c e min_score = true ↔
  (as_sni c, as_ip c) ≠ (sp_sni e, sp_ip e) ∧ (min_score ≤ sp_score e)%Z.
Proof.
  unfold should_switch_sni_target. destruct (Z.eqb_spec (as_ip c) (sp_ip e)), (String.eqb_spec (as_sni c) (sp_sni e));
    cbn [andb]; rewrite ?Z.leb_le; split; intros Hs; try (split; [congruence|done]); try by destruct Hs.
  destruct Hs; congruence.
Qed.

(** The new target of a rescan without load balancing. *)
Definition switched_to (cfg : Config) (discovery : option LowTtlDiscoveryState) (automatic : bool)
    (best : SniProbeEntry) (l l' : Live) : Prop :=
  targets l' = [target_sni (sp_sni best) (sp_ip best) (sp_score best)] ∧
  (automatic = true → (key <$> targets l') ≠ take 1 (key <$> targets l) ∧
     (SNI_SWITCH_MIN_SCORE cfg ≤ sp_score best)%Z) ∧
  match discovery with
  | Some d => ld_probe d (sp_sni best) (sp_ip best) = Some (lv_ttl l')
  | None => lv_ttl l' = lv_ttl l
  end.
Definition left_as_it_was (discovery : option LowTtlDiscoveryState) (l l' : Live) : Prop :=
  targets l' = targets l ∧ lv_probe_target l' = lv_probe_target l ∧
  (lv_ttl l' = lv_ttl l ∨ ∃ d, discovery = Some d ∧ ld_applier d = Remote (NoAnswer true)).

(** The candidate of a rescan, before and behind the discovery. *)
Lemma select_rescan_target_spec c best min_score n : select_rescan_target c best min_score = Some n →
  n = active_of best ∧ should_switch_sni_target c best min_score = true.
Proof. unfold select_rescan_target. destruct (should_switch_sni_target _ _ _); naive_solver. Qed.

Lemma next_spec (manual : bool) c best min_score n :
  (if manual then Some (active_of best) else select_rescan_target c best min_score) = Some n →
  n = active_of best ∧ (negb manual = true → should_switch_sni_target c best min_score = true).
Proof. destruct manual; [by intros [= <-]|]. intros Hs%select_rescan_target_spec. naive_solver. Qed.

Lemma gated_spec (manual : bool) discovered c best min_score next :
  (if manual then (λ _, next) <$> discovered else discovery_gated_switch discovered c best min_score) =
  match discovered with
  | Some _ => if manual then Some next else select_rescan_target c best min_score
  | None => None
  end.
Proof. by destruct manual, discovered. Qed.

Lemma hot_swap_sni_ok n discovered l : world_ok (lv_world l) → ∃ l',
  hot_swap_sni n discovered l = Done l' ∧ live_ok l' ∧ Forall sni_target (targets l') ∧
  targets l' = [target_sni (as_sni n) (as_ip n) (as_score n)] ∧ lv_ttl l' = lv_ttl l.
Proof.
  intros Hw. unfold hot_swap_sni. set (t := target_sni _ _ _).
  destruct (replace_pool_ok [t] l Hw) as (l1 & b & -> & Hw1 & T1 & _ & _ & V1); [done|].
  change (unique_targets [t] usize_max) with [t] in T1. cbn [exec_bind snd]. eexists. split; [done|].
  destruct discovered; (split; [split; [done|]|split; [|done]]);
    match goal with |- context [targets ?x] => change (targets x) with (targets l1) end; rewrite T1;
    try done; (constructor; [by do 2 eexists|done]).
Qed.

Lemma rescan_target_sni_ok cfg discovery manual ps entries l :
  live_ok l → Forall sni_target (targets l) → quiet ps →
  ∃ switched l', rescan_target_sni cfg discovery manual ps entries l = Done (switched, l') ∧
    live_ok l' ∧ Forall sni_target (targets l') ∧
    if switched : bool then ∃ best, chosen (AUTO_SELECT cfg) manual entries = Some best ∧
      switched_to cfg discovery (negb (is_some manual)) best l l'
    else left_as_it_was discovery l l'.
Proof.
  intros Hl Hs (_ & Q2 & Q3). unfold rescan_target_sni.
  destruct (await_ok _ l Q2 Hl) as (l1 & -> & Hl1 & T1 & P1 & V1). cbn [exec_bind].
  assert (Forall sni_target (targets l1)) as Hs1 by (by rewrite T1).
  assert (left_as_it_was discovery l l1) as Hsame by (split; [done|]; split; [done|by left]).
  destruct (chosen _ _ _) as [best|]; [|by exists false, l1].
  destruct (active_sni_ok l1 Hl1 Hs1) as (t & ts & c & Et & -> & Hk). cbn [exec_bind].
  destruct (if is_some manual then Some (active_of best) else _) as [n|] eqn:Hnext; [|by exists false, l1].
  pose proof (next_spec _ _ _ _ _ Hnext) as [-> Hauto].
  assert (negb (is_some manual) = true →
    [key (target_sni (sp_sni best) (sp_ip best) (sp_score best))] ≠ take 1 (key <$> targets l) ∧
    (SNI_SWITCH_MIN_SCORE cfg ≤ sp_score best)%Z) as Hswitch.
  { intros [Hn ?]%Hauto%should_switch_spec. split; [|done]. rewrite <- T1, Et. cbn [fmap list_fmap take].
    rewrite Hk. intros [= E1 E2]. by rewrite E1, E2 in Hn. }
  clear Hauto. destruct discovery as [d|]; cbn [exec_bind].
  - destruct (await_ok _ l1 Q3 Hl1) as (l2 & -> & [Hw2 Hp2] & T2 & P2 & V2). cbn [exec_bind as_sni as_ip active_of].
    pose proof (run_discovery_spec d (sp_sni best) (sp_ip best) l2) as Hd.
    destruct (run_discovery d _ _ l2) as [discovered l3]. destruct Hd as (W3 & P3 & Hd). cbn [exec_bind].
    rewrite gated_spec. destruct discovered as [v|].
    + change (active_of best) with (active_of best) in Hnext. rewrite Hnext.
      destruct (hot_swap_sni_ok (active_of best) (Some v) l3) as (l4 & -> & Hl4 & Hs4 & T4 & V4); [by rewrite W3|].
      cbn [exec_bind]. exists true, l4. do 3 (split; [done|]). exists best. split; [done|].
      split; [done|]. split; [by rewrite T4|]. destruct Hd as [-> Hd]. by rewrite V4, Hd.
    + exists false, l3. assert (targets l3 = targets l1) as T3 by (unfold targets, lv_pool; rewrite W3; by apply T2).
      split; [done|]. split; [by split; [rewrite W3|rewrite T3, P3, P2; apply Hl1]|].
      split; [by rewrite T3|]. split; [by rewrite T3|]. split; [by rewrite P3, P2|].
      destruct Hd as [Hd|Hd]; [right; by exists d|left; by rewrite Hd, V2].
  - destruct (hot_swap_sni_ok (active_of best) None l1) as (l4 & -> & Hl4 & Hs4 & T4 & V4); [apply Hl1|].
    cbn [exec_bind]. exists true, l4. do 3 (split; [done|]). exists best. split; [done|].
    split; [done|]. split; [by rewrite T4|]. by rewrite V4.
Qed.

(** *** With load balancing *)
Lemma sni_candidates_from entries limit min_score t : t ∈ sni_candidates entries limit min_score →
  ∃ e, e ∈ entries ∧ sni_eligible min_score e ∧ t = from_sni e.
Proof.
  intros Ht. pose proof (unique_targets_selection (from_sni <$> filter (sni_eligible min_score) entries) limit) as [Hs _].
  apply (elem_of_sublist _ _ t Ht) in Hs. apply list_elem_of_fmap in Hs as (e & -> & He).
  apply list_elem_of_filter in He as [? ?]. by exists e.
Qed.

(** Where the TTL of a member comes from: the search just made, or its
    member of the same key before. *)
Definition ttl_of (d : LowTtlDiscoveryState) (previous : list Target) (c t : Target) : Prop :=
  ∃ ttl, t = with_low_ttl ttl c ∧
    ((∃ sni ip v, t_sni c = Some sni ∧ t_ip c = IpV4 ip ∧ ld_probe d sni ip = Some v ∧ ttl = Some v) ∨
     (∃ old, old ∈ previous ∧ key old = key c ∧ ttl = t_low_ttl old)).

Lemma discover_pool_ttls_ok d candidates previous : Forall sni_target candidates → ∃ admitted,
  discover_pool_ttls (probe_target_ttl d) candidates previous None = Done admitted ∧
  (key <$> admitted) `sublist_of` (key <$> candidates) ∧
  ∀ t, t ∈ admitted → ∃ c, c ∈ candidates ∧ ttl_of d previous c t.
Proof.
  induction candidates as [|c cs IH]; intros Hf.
  { exists []. split; [done|]. split; [done|]. intros t Ht. by apply elem_of_nil in Ht. }
  apply Forall_cons in Hf as [(sni & ip & Hsni & Hip) Hf]. destruct (IH Hf) as (admitted & E & Hk & Ht).
  cbn [discover_pool_ttls]. unfold probe_target_ttl at 1. rewrite Hip, Hsni. cbn [exec_bind expect]. rewrite E.
  cbn [exec_bind]. eexists. split; [done|].
  assert (∀ t, t ∈ admitted → ∃ c', c' ∈ c :: cs ∧ ttl_of d previous c' t) as Hin.
  { intros t (c' & ? & ?)%Ht. exists c'. split; [by right|done]. }
  unfold admit_ttl. destruct (ld_probe d sni ip) as [v|] eqn:Hp.
  - split; [by apply sublist_skip|]. intros t [->|?]%elem_of_cons; [|by apply Hin].
    exists c. split; [by left|]. exists (Some v). split; [done|]. left. by exists sni, ip, v.
  - destruct (list_find _ previous) as [[i old]|] eqn:Hfind; [|by split; [apply sublist_cons|]].
    apply list_find_Some in Hfind as (Hi & [E1 E2] & _).
    split; [by apply sublist_skip|]. intros t [->|?]%elem_of_cons; [|by apply Hin].
    exists c. split; [by left|]. exists (t_low_ttl old). split; [done|]. right. exists old.
    split; [by eapply list_elem_of_lookup_2|]. split; [|done]. unfold key. by rewrite E1, E2.
Qed.

Lemma unique_targets_id ts : NoDup (key <$> ts) → (Z.of_nat (length ts) ≤ usize_max)%Z →
  unique_targets ts usize_max = ts.
Proof.
  intros Hn Hl. unfold unique_targets. rewrite take_usize_take, take_ge; [|pose proof (sublist_length _ _ (unseen_sublist ∅ ts)); lia].
  clear Hl. assert (∀ seen, (∀ t, t ∈ ts → key t ∉ seen) → unseen seen ts = ts) as Hu; [|apply Hu; set_solver].
  induction ts as [|t ts IH]; intros seen Hs; [done|]. cbn in Hn. apply NoDup_cons in Hn as [Ht Hn]. cbn.
  rewrite decide_False by (apply Hs; by left). f_equal. apply IH; [done|]. intros t' Ht'.
  rewrite elem_of_union, elem_of_singleton. intros [E|Hi]; [|by eapply Hs; [right|]].
  apply Ht. rewrite <- E. by apply list_elem_of_fmap_2.
Qed.

(** What a rescan makes of a balanced pool of SNI targets. *)
Definition sni_pool_renewed (cfg : Config) (discovery : option LowTtlDiscoveryState)
    (entries : list SniProbeEntry) (l l' : Live) (o : RescanOutcome) : Prop :=
  lv_ttl l' = lv_ttl l ∧
  (targets l' = targets l ∧ lv_probe_target l' = lv_probe_target l ∧ found o = 0%Z ∧ switched o = false ∨
   found o = Z.of_nat (length (targets l')) ∧
   switched o = negb (bool_decide (key <$> targets l = key <$> targets l')) ∧
   ∀ t, t ∈ targets l' → ∃ e, e ∈ entries ∧ sni_eligible (SNI_SWITCH_MIN_SCORE cfg) e ∧
     match discovery with
     | Some d => ttl_of d (targets l) (from_sni e) t
     | None => t = from_sni e
     end).

Lemma announce_ok cfg l : live_ok l → ∃ l', announce_target_pool cfg l = Done l' ∧ live_ok l' ∧
  targets l' = targets l ∧ lv_probe_target l' = lv_probe_target l ∧ lv_ttl l' = lv_ttl l.
Proof.
  intros Hl. destruct (representative_ok l Hl) as (t & ts & _ & Hr & _). unfold announce_target_pool.
  rewrite Hr. cbn [exec_bind]. eexists. split; [done|].
  destruct (t_sni t), (t_ip t); by split_and!.
Qed.

(** Replacing, moving the monitor, announcing. *)
Lemma renew_pool_ok cfg ts l : world_ok (lv_world l) → ts ≠ [] → unique_targets ts usize_max = ts →
  ∃ b l', (let! r := replace_pool ts l in
      let '(switched, l) := r in
      let! t := representative (lv_pool l) in
      let! l := announce_target_pool cfg (store_probe_target (t_ip t) l) in
      Done (summary t_score ts, switched, l)) = Done (summary t_score ts, b, l') ∧
    live_ok l' ∧ targets l' = ts ∧ lv_ttl l' = lv_ttl l ∧
    b = negb (bool_decide (key <$> targets l = key <$> targets l')).
Proof.
  intros Hw Hts Hu. destruct (replace_pool_ok ts l Hw Hts) as (l1 & b & -> & Hw1 & T1 & Hb & P1 & V1).
  rewrite Hu in T1. cbn [exec_bind]. unfold representative, idx. destruct ts as [|t ts]; [done|].
  assert (∃ m, members (lv_pool l1) !! 0 = Some m ∧ m_target m = t) as (m & Hm & Hmt).
  { unfold targets in T1. destruct (members (lv_pool l1)) as [|m ms]; [done|]. exists m. by injection T1. }
  rewrite Hm. cbn [exec_bind expect]. rewrite Hmt.
  destruct (announce_ok cfg (store_probe_target (t_ip t) l1)) as (l2 & -> & Hl2 & T2 & P2 & V2).
  { split; [done|]. change (watched (targets l1) (monitor_probe_target (t_ip t))). by rewrite T1. }
  cbn [exec_bind]. exists b, l2. split; [done|]. split; [done|]. change (targets (store_probe_target _ l1)) with (targets l1) in T2.
  rewrite T2, <- T1. by split_and!; [|rewrite V2|].
Qed.

Lemma candidates_short ts limit : (limit ≤ usize_max)%Z →
  NoDup (key <$> unique_targets ts limit) ∧ (Z.of_nat (length (unique_targets ts limit)) ≤ usize_max)%Z.
Proof.
  intros Hl. destruct (unique_targets_selection ts limit) as (_ & Hn & Hlen & _). split; [done|].
  rewrite Hlen. unfold usize_max in *. lia.
Qed.

Lemma rescan_pool_sni_ok cfg discovery ps entries l :
  live_ok l → Forall sni_target (targets l) → quiet ps → (LOAD_BALANCE_TARGET_COUNT cfg ≤ usize_max)%Z →
  ∃ n best switched l', rescan_pool_sni cfg discovery ps entries l = Done (Some (n, best), switched, l') ∧
    live_ok l' ∧ Forall sni_target (targets l') ∧
    sni_pool_renewed cfg discovery entries l l' (MkRescanOutcome (Z.of_nat n) switched).
Proof.
  intros Hl Hs (_ & _ & Q3) Hcount. unfold rescan_pool_sni. cbv zeta.
  set (cs := sni_candidates _ _ _).
  assert (∀ t, t ∈ cs → ∃ e, e ∈ entries ∧ sni_eligible (SNI_SWITCH_MIN_SCORE cfg) e ∧ t = from_sni e) as Hcs
    by (intros t; apply sni_candidates_from).
  assert (Forall sni_target cs) as Hcsni.
  { apply Forall_forall. intros t (e & _ & _ & ->)%Hcs. by do 2 eexists. }
  destruct (candidates_short (from_sni <$> filter (sni_eligible (SNI_SWITCH_MIN_SCORE cfg)) entries) _ Hcount)
    as [Hnodup Hshort].
  change (unique_targets _ _) with cs in Hnodup, Hshort.
  assert (∃ ts l1, (match discovery with
    | Some d =>
        let! l1 := await (while_discovering ps) l in
        let! admitted := discover_pool_ttls (probe_target_ttl d) cs (probe_snapshot (lv_pool l)).2 None in
        Done (admitted, l1)
    | None => Done (cs, l)
    end) = Done (ts, l1) ∧ live_ok l1 ∧ targets l1 = targets l ∧ lv_probe_target l1 = lv_probe_target l ∧
    lv_ttl l1 = lv_ttl l ∧ unique_targets ts usize_max = ts ∧
    ∀ t, t ∈ ts → ∃ e, e ∈ entries ∧ sni_eligible (SNI_SWITCH_MIN_SCORE cfg) e ∧
      match discovery with Some d => ttl_of d (targets l) (from_sni e) t | None => t = from_sni e end)
    as (ts & l1 & -> & Hl1 & T1 & P1 & V1 & Hu & Hts).
  { destruct discovery as [d|].
    - destruct (await_ok _ l Q3 Hl) as (l1 & -> & Hl1 & T1 & P1 & V1). cbn [exec_bind probe_snapshot snd].
      destruct (discover_pool_ttls_ok d cs (targets l) Hcsni) as (ts & E & Hk & Hts).
      unfold targets in E. rewrite E. cbn [exec_bind]. exists ts, l1. split; [done|]. do 4 (split; [done|]). split.
      + apply unique_targets_id; [by eapply sublist_NoDup|]. apply sublist_length in Hk. rewrite !length_fmap in Hk. lia.
      + intros t (c & (e & ? & ? & ->)%Hcs & ?)%Hts. by exists e.
    - exists cs, l. do 5 (split; [done|]). split; [by apply unique_targets_id|]. apply Hcs. }
  cbn [exec_bind]. destruct ts as [|t ts'] eqn:Ets.
  { do 4 eexists. split; [done|]. split; [done|]. split; [by rewrite T1|]. split; [done|]. by left. }
  rewrite <- Ets in *. destruct (renew_pool_ok cfg ts l1) as (b & l2 & E & Hl2 & T2 & V2 & Hb); [apply Hl1|by subst|done|].
  exists (length ts), (t_score <$> head ts), b, l2. split; [exact E|]. split; [done|].
  assert (∀ t, t ∈ targets l2 → ∃ e, e ∈ entries ∧ sni_eligible (SNI_SWITCH_MIN_SCORE cfg) e ∧
      match discovery with Some d => ttl_of d (targets l) (from_sni e) t | None => t = from_sni e end) as Hfrom
    by (by rewrite T2).
  split; [|split; [by rewrite V2|right; split; [by rewrite T2|split; [cbn; by rewrite Hb, T1|done]]]].
  apply Forall_forall. intros x (e & _ & _ & Hx)%Hfrom. exists (sp_sni e), (sp_ip e).
  destruct discovery; [by destruct Hx as (ttl & -> & _)|by subst].
Qed.

(** A rescan without a result, or one that is not made. *)
Definition not_made (l l' : Live) (o : RescanOutcome) : Prop :=
  targets l' = targets l ∧ lv_probe_target l' = lv_probe_target l ∧ lv_ttl l' = lv_ttl l ∧ switched o = false.


(** *** Addresses *)
Lemma ip_candidates_from entries limit t : t ∈ ip_candidates entries limit →
  ∃ e, e ∈ entries ∧ ip_eligible e ∧ t = from_ip e.
Proof.
  intros Ht. pose proof (unique_targets_selection (from_ip <$> filter ip_eligible entries) limit) as [Hs _].
  apply (elem_of_sublist _ _ t Ht) in Hs. apply list_elem_of_fmap in Hs as (e & -> & He).
  apply list_elem_of_filter in He as [? ?]. by exists e.
Qed.

Definition ip_pool_renewed (entries : list IpProbeEntry) (l l' : Live) (o : RescanOutcome) : Prop :=
  targets l' = targets l ∧ lv_probe_target l' = lv_probe_target l ∧ found o = 0%Z ∧ switched o = false ∨
  found o = Z.of_nat (length (targets l')) ∧
  switched o = negb (bool_decide (key <$> targets l = key <$> targets l')) ∧
  ∀ t, t ∈ targets l' → ∃ e, e ∈ entries ∧ ip_eligible e ∧ t = from_ip e.

Lemma rescan_pool_ip_ok cfg entries l : live_ok l → (LOAD_BALANCE_TARGET_COUNT cfg ≤ usize_max)%Z →
  ∃ n best switched l', rescan_pool_ip cfg entries l = Done (Some (n, best), switched, l') ∧ live_ok l' ∧
    ip_pool_renewed entries l l' (MkRescanOutcome (Z.of_nat n) switched) ∧ lv_ttl l' = lv_ttl l.
Proof.
  intros Hl Hcount. unfold rescan_pool_ip. set (cs := ip_candidates _ _).
  assert (∀ t, t ∈ cs → ∃ e, e ∈ entries ∧ ip_eligible e ∧ t = from_ip e) as Hcs by (intros t; apply ip_candidates_from).
  destruct (candidates_short (from_ip <$> filter ip_eligible entries) _ Hcount) as [Hnodup Hshort].
  change (unique_targets _ _) with cs in Hnodup, Hshort. cbv zeta. destruct cs as [|t ts] eqn:Ecs.
  { do 4 eexists. split; [done|]. split; [done|]. split; [|done]. by left. }
  destruct (Hcs t ltac:(by left)) as (e & He & _ & Et). cbn [head mbind option_bind].
  destruct (list_find_elem_of (λ e, ipp_ip e = t_ip t) entries e He) as [[i e'] ->]; [by subst|]. cbn [fmap option_fmap option_map].
  rewrite <- Ecs in *. destruct (renew_pool_ok cfg cs l) as (b & l2 & E & Hl2 & T2 & V2 & Hb);
    [apply Hl|by rewrite Ecs|by apply unique_targets_id|].
  exists (length cs), (t_score <$> head cs), b, l2. split; [exact E|]. split; [done|]. split; [|done].
  right. rewrite T2. split; [done|]. split; [by rewrite <- T2|done].
Qed.

(** A rescan of the IP list leaves a pool that is never empty, with the
    monitor on the route to its first member.  Without load balancing the
    chosen entry becomes the target exactly when its address differs from the
    current one; with it, the entries that were reached and score more than
    zero become the members, and without any the pool is left alone.  Without
    input, with an IPv6 address in a mode that is IPv4-only, and without
    entries nothing changes. *)
Theorem ip_rescan_sound cfg ipv4_only input scan manual ps l
    (Hl : live_ok l) (Hq : quiet ps) (Hcount : (LOAD_BALANCE_TARGET_COUNT cfg ≤ usize_max)%Z) :
  ∃ o l', rescan_ip_once cfg ipv4_only input scan manual ps l = Done (o, l') ∧ live_ok l' ∧
    lv_ttl l' = lv_ttl l ∧
    if LOAD_BALANCE_ENABLED cfg && is_some (SELECTED_IP cfg) then
      not_made l l' o ∧ found o = Z.of_nat (length (targets l))
    else match input with
    | Err _ => not_made l l' o ∧ found o = 0%Z
    | Ok ips =>
        if (ipv4_only && reject_ipv6_ip_candidates ips) || is_nil (scan ips) then not_made l l' o ∧ found o = 0%Z
        else if LOAD_BALANCE_ENABLED cfg then ip_pool_renewed (scan ips) l l' o
        else found o = Z.of_nat (length (scan ips)) ∧
          if switched o then ∃ best, chosen (AUTO_SELECT cfg) manual (scan ips) = Some best ∧
            targets l' = [from_ip best] ∧ head (t_ip <$> targets l) ≠ Some (ipp_ip best)
          else targets l' = targets l ∧ lv_probe_target l' = lv_probe_target l ∧
            (∀ best, chosen (AUTO_SELECT cfg) manual (scan ips) = Some best →
              head (t_ip <$> targets l) = Some (ipp_ip best))
    end.
Proof.
  unfold rescan_ip_once. destruct (_ && is_some _).
  { destruct (representative_ok l Hl) as (t & ts & _ & Hr & _). unfold fixed_target. rewrite Hr. cbn [exec_bind].
    do 2 eexists. split; [done|]. split; [done|]. split; [done|]. split; [done|]. cbn. unfold len, targets.
    by rewrite length_fmap. }
  destruct input as [ips|e]; [|by do 2 eexists].
  destruct (ipv4_only && _); cbn [orb]; [by do 2 eexists|].
  destruct (await_ok _ (say (RescanStarted RescanIp) l) (proj1 Hq) Hl) as (l1 & -> & Hl1 & T1 & P1 & V1).
  change (targets (say _ l)) with (targets l) in T1. cbn [exec_bind lv_probe_target lv_ttl say] in P1, V1 |- *.
  destruct (is_nil (scan ips)).
  { do 2 eexists. split; [done|]. split; [done|]. split; [done|]. split; [|done]. by repeat split. }
  destruct (LOAD_BALANCE_ENABLED cfg).
  - destruct (rescan_pool_ip_ok cfg (scan ips) l1 Hl1 Hcount) as (n & best & switched & l2 & -> & Hl2 & Hr & Hv).
    cbn [exec_bind]. do 2 eexists. split; [done|]. split; [done|]. split; [by rewrite <- V1|].
    unfold ip_pool_renewed in Hr. rewrite T1, P1 in Hr. exact Hr.
  - unfold rescan_target_ip. destruct (await_ok _ l1 (proj1 (proj2 Hq)) Hl1) as (l2 & -> & Hl2 & T2 & P2 & V2).
    cbn [exec_bind]. destruct (chosen _ _ _) as [best|]; cbn [exec_bind].
    2:{ do 2 eexists. split; [done|]. split; [done|]. split; [cbn; congruence|]. split; [done|]. cbn.
        change (targets (say _ l2)) with (targets l2). by rewrite T2, P2. }
    destruct (representative_ok l2 Hl2) as (t & ts & Et & -> & _). cbn [exec_bind].
    assert (head (t_ip <$> targets l) = Some (t_ip t)) as Hhead by (by rewrite <- T1, <- T2, Et).
    rewrite Hhead. case_bool_decide as Hip; cbn [exec_bind].
    + do 2 eexists. split; [done|]. split; [done|]. split; [cbn; congruence|]. split; [done|]. cbn.
      change (targets (say _ l2)) with (targets l2). rewrite T2, P2. split; [done|]. split; [done|].
      intros ? [= <-]. by rewrite Hip.
    + destruct (replace_pool_ok [from_ip best] l2 (proj1 Hl2)) as (l3 & b & -> & Hw3 & T3 & _ & _ & V3); [done|].
      change (unique_targets _ _) with [from_ip best] in T3. cbn [exec_bind snd]. do 2 eexists. split; [done|].
      split; [split; [done|]|].
      { match goal with |- watched (targets ?x) _ => change (targets x) with (targets l3) end. by rewrite T3. }
      split; [cbn; congruence|]. split; [done|]. cbn [Recovery.switched finish summary default].
      exists best. split; [done|]. split; [exact T3|]. congruence.
Qed.

(** ** Rescans of sample pools *)
Definition sample_live (t : Target) : Live :=
  match new RoundRobin [t] 7 with
  | Done (Some p) => MkLive (MkWorld p []) (monitor_probe_target (t_ip t)) 8 []
  | _ => MkLive (MkWorld (MkPool RoundRobin [] [] ∅ 0 0 7 (MkHeap [] [])) []) 0 8 []
  end.

Lemma sample_live_ok t : live_ok (sample_live t) ∧ targets (sample_live t) = [t].
Proof.
  destruct (new_ok RoundRobin [t] 7) as (p & E & Hw & Ha & _); [done|]. unfold sample_live. rewrite E.
  assert (m_target <$> members p = [t]) as Ht by (by injection Ha). split; [split; [done|]|done].
  unfold targets, lv_pool. cbn. by rewrite Ht.
Qed.

Definition no_pauses : Pauses := MkPauses [Acquire] [] [UpdatePing 1 (target_sni "old.example" 1 90) None].
Definition scanned (sni : string) (ip score : Z) : SniProbeEntry := MkSniProbe sni ip (with_tcp (Some 20%Z)) score.
Definition sample_scan : result (list SniProbeEntry) := Ok [scanned "new.example" 2 70; scanned "old.example" 1 60].
Definition working_ttl : LowTtlDiscoveryState := MkDiscovery (λ _ _, Some 5%Z) (Remote Accepted).
Definition sample_cfg : Config := default_config "127.0.0.1" 40443.

Example rescan_switches :
  match rescan_sni_once sample_cfg sample_scan (Some working_ttl) None no_pauses
          (sample_live (target_sni "old.example" 1 90)) with
  | Done (o, l) => (o, targets l, lv_probe_target l, lv_ttl l, lv_events l) =
      (MkRescanOutcome 2 true, [target_sni "new.example" 2 70], 2%Z, 5%Z,
       [RescanStarted RescanSni; SniTargetChanged "new.example" 2 70; LowTtlDiscovered 5;
        RescanFinished RescanSni 2 (Some 70%Z) true])
  | Panic => False
  end.
Proof. by vm_compute. Qed.


(** All connections of a rescan fail: its entries score 0, and the first of
    them becomes the target of every new connection. *)
Definition all_refused : list IpProbeEntry :=
  match scan_loop (λ _, true) sample_cfg "speed.example" [JoinTcp 0 (Some None); JoinTcp 0 (Some None)]
          (scan_start [IpV4 1; IpV4 2]) with
  | Finished entries _ => entries
  | _ => []
  end.
Example rescan_to_a_dead_address :
  match rescan_ip_once sample_cfg true (Ok [IpV4 1; IpV4 2]) (λ _, all_refused) None no_pauses
          (sample_live (target_ip (IpV4 2) 90)) with
  | Done (o, l) => (o, t_ip <$> targets l, t_score <$> targets l, lv_probe_target l) =
      (MkRescanOutcome 2 true, [IpV4 1], [0%Z], 1%Z)
  | Panic => False
  end.
Proof. by vm_compute. Qed.

Lemma ip_rescan_sound_witness : ∃ o l',
  rescan_ip_once sample_cfg true (Ok [IpV4 1; IpV4 2]) (λ _, all_refused) None no_pauses
    (sample_live (target_ip (IpV4 2) 90)) = Done (o, l') ∧ live_ok l'.
Proof.
  destruct (ip_rescan_sound sample_cfg true (Ok [IpV4 1; IpV4 2]) (λ _, all_refused) None no_pauses
    (sample_live (target_ip (IpV4 2) 90))) as (o & l' & H1 & H2 & _).
  - apply sample_live_ok.
  - split; [|split]; by repeat constructor.
  - by vm_compute.
  - by exists o, l'.
Defined.
