(* ===== verification/MethodScan.v ===== *)
(** * The method scan

    Model of [crates/zerodpi-core/src/method_scanner.rs]: one probe through the
    engine with the reading of its response, the row made of a method's
    samples, the ranking, and the engine that is brought up and torn down for
    every method ([run_one_method], [run_method_tests]).  What a probe meets is
    a [ProbeChance], what opening the interceptor gives is an error or not; the
    proxy and the interceptor thread run elsewhere, the scan only starts and
    stops them ([EngineEffect]). *)
From stdpp Require Import base list numbers strings.
From Stdlib Require Import ZArith Lia Ascii SpecFloat Sorted.
From S2P Require Import Prelude Text NetAddr Interceptor Flow Config ScanList ScannerHttp Scanner Composite TargetPool.
Local Open Scope string_scope.
Local Open Scope nat_scope.
Local Open Scope list_scope.

(** ** Data *)
Record MethodScanTarget := MkScanTarget {
  mt_sni : string; mt_ip : Z; mt_score : Z; mt_http_path : string }.

Record MethodSampleResult := MkSampleResult {
  sr_ok : bool; sr_tls_ms : option Z; sr_ttfb_ms : option Z; sr_speed_bps : option f64;
  sr_http_status : option Z; sr_error : option string }.

Record MethodScanEntry := MkScanEntry {
  me_method : string;
  me_samples_total : nat;
  me_samples_ok : nat;
  me_success_rate : f64;
  me_avg_ttfb_ms : option f64;
  me_min_ttfb_ms : option Z;
  me_max_ttfb_ms : option Z;
  me_avg_tls_ms : option f64;
  me_http_status : option Z;
  me_last_error : option string }.

Inductive MethodScanEvent :=
  | MethodDone (method : string) (completed : nat) (entry : MethodScanEntry)
  | SampleDone (method : string) (sample : nat) (ok : bool).

Record MethodScanReport := MkReport {
  rep_mode : string; rep_target_sni : string; rep_target_ip : Z; rep_target_score : Z;
  rep_samples_per_method : Z; rep_interval_ms : Z; rep_methods : list MethodScanEntry }.

(** ** Aggregation *)
Definition f64_of_nat (n : nat) : f64 := f64_of_Z (Z.of_nat n).
Definition average (l : list Z) : option f64 :=
  if is_nil l then None
  else Some (f64_div (foldl f64_add f64_zero (f64_of_Z <$> l)) (f64_of_nat (length l))).
Definition least (l : list Z) : option Z :=
  match l with [] => None | x :: l => Some (foldl Z.min x l) end.
Definition greatest (l : list Z) : option Z :=
  match l with [] => None | x :: l => Some (foldl Z.max x l) end.

Definition entry_from_samples (method : string) (samples : list MethodSampleResult) : MethodScanEntry :=
  let total := length samples in
  let ok_count := length (filter (λ s, sr_ok s = true) samples) in
  let ttfb_ms := omap sr_ttfb_ms samples in
  let tls_ms := omap sr_tls_ms samples in
  {| me_method := method; me_samples_total := total; me_samples_ok := ok_count;
     me_success_rate := if total =? 0 then f64_zero
       else f64_div (f64_mul (f64_of_nat ok_count) (f64_of_Z 100)) (f64_of_nat total);
     me_avg_ttfb_ms := average ttfb_ms; me_min_ttfb_ms := least ttfb_ms; me_max_ttfb_ms := greatest ttfb_ms;
     me_avg_tls_ms := average tls_ms;
     me_http_status := head (omap sr_http_status samples);
     me_last_error := head (omap sr_error (reverse samples)) |}.

Definition failed_entry (method : string) (samples_total : nat) (error : string) : MethodScanEntry :=
  MkScanEntry method samples_total 0 f64_zero None None None None None (Some error).

(** ** Ranking *)

(** [f64::total_cmp] compares the bits as a signed integer, those of a
    negative number but its sign flipped. *)
Definition magnitude_bits (x : f64) : Z :=
  match x with
  | S754_zero _ => 0
  | S754_infinity _ => 2047 * 2 ^ 52
  | S754_nan => 2047 * 2 ^ 52 + 2 ^ 51
  | S754_finite _ m e => if (Z.pos m <? 2 ^ 52)%Z then Z.pos m else (e + 1075) * 2 ^ 52 + (Z.pos m - 2 ^ 52)
  end.
Definition negative (x : f64) : bool :=
  match x with S754_zero s | S754_infinity s | S754_finite s _ _ => s | S754_nan => false end.
Definition total_key (x : f64) : Z := if negative x then - magnitude_bits x - 1 else magnitude_bits x.
Definition total_cmp (x y : f64) : comparison := Z.compare (total_key x) (total_key y).

Definition then_with (c d : comparison) : comparison := match c with Eq => d | _ => c end.
Definition ttfb_cmp (x y : option f64) : comparison :=
  match x, y with
  | Some x, Some y => total_cmp x y
  | Some _, None => Lt
  | None, Some _ => Gt
  | None, None => Eq
  end.
Definition entry_cmp (a b : MethodScanEntry) : comparison :=
  then_with (total_cmp (me_success_rate b) (me_success_rate a))
    (then_with (ttfb_cmp (me_avg_ttfb_ms a) (me_avg_ttfb_ms b)) (String.compare (me_method a) (me_method b))).
Definition not_after (a b : MethodScanEntry) : bool := match entry_cmp a b with Gt => false | _ => true end.
Definition rank_entries (entries : list MethodScanEntry) : list MethodScanEntry := sort_by not_after entries.

(** ** A probe *)
Definition cfg_with_method (base : Config) (method : string) : Config := with_methods (from_delimited method) base.

(** [get(0..3)]; without the character boundary, which only matters to text
    that is no number. *)
Definition first_three (s : string) : option string :=
  match s with
  | String a (String b (String c _)) => Some (String a (String b (String c EmptyString)))
  | _ => None
  end.
Definition parse_status_code (head : string) : option Z :=
  rest ← strip_prefix "HTTP/" head;
  '(_, rest) ← split_once " "%char rest;
  code ← first_three rest;
  parse_unsigned 65535 code.

(** Just past the first empty line. *)
Fixpoint find_header_end (buf : list Z) : option nat :=
  match buf with
  | [] => None
  | b :: rest => if bool_decide (take 4 buf = [13; 10; 13; 10]%Z) then Some 4 else S <$> find_header_end rest
  end.

Record Response := MkResponse {
  got : list Z; first_byte : bool; header_end : option nat; http_status : option Z }.
Definition response_start : Response := MkResponse [] false None None.

Definition on_bytes (bytes : list Z) (r : Response) : Response :=
  let buf := got r ++ bytes in
  match header_end r with
  | Some _ => MkResponse buf true (header_end r) (http_status r)
  | None =>
      match find_header_end buf with
      | None => MkResponse buf true None (http_status r)
      | Some pos =>
          let head := take pos buf in
          MkResponse buf true (Some pos)
            (if valid_utf8 head then parse_status_code (of_bytes head) else http_status r)
      end
  end.

(** Reads of chosen sizes; when the choices end, a read has failed or timed out. *)
Fixpoint read_http_response (cap : nat) (reads : list nat) (stream : list Z) (r : Response) : Response :=
  match reads with
  | [] => r
  | n :: reads =>
      let n := (1 `max` n) `min` (cap - length (got r)) `min` length stream in
      if n =? 0 then r else read_http_response cap reads (drop n stream) (on_bytes (take n stream) r)
  end.
Definition body_bytes (r : Response) : nat :=
  match header_end r with Some e => length (got r) - e | None => 0 end.

(** What one probe meets. *)
Record ProbeChance := MkChance {
  ch_connect : option string;      (* the error, if there is one *)
  ch_tls : Z + string;             (* milliseconds or the error *)
  ch_written : bool;
  ch_reads : list nat; ch_stream : list Z; ch_ttfb_ms : Z; ch_elapsed : f64 }.

Definition failed_sample (tls_ms : option Z) (error : string) : MethodSampleResult :=
  MkSampleResult false tls_ms None None None (Some error).

(** The text of an invalid name is without the library's reason behind it. *)
Definition direct_probe (valid_name : string → bool) (config : Config) (sni : string) (c : ProbeChance)
    : MethodSampleResult :=
  match ch_connect c with
  | Some error => failed_sample None error
  | None =>
      if negb (valid_name sni) then failed_sample None ("invalid SNI '" +:+ sni +:+ "'") else
      match ch_tls c with
      | inr error => failed_sample None error
      | inl tls_ms =>
          if negb (ch_written c) then failed_sample (Some tls_ms) "HTTP request write failed or timed out" else
          let r := read_http_response (Z.to_nat (SCAN_DOWNLOAD_CAP config)) (ch_reads c) (ch_stream c) response_start in
          let ok := negb (is_none (http_status r)) && (0 <? body_bytes r) in
          MkSampleResult ok (Some tls_ms) (if first_byte r then Some (ch_ttfb_ms c) else None)
            (if 0 <? body_bytes r then speed_of (body_bytes r) (ch_elapsed c) else None)
            (http_status r)
            (if ok then None else Some "no HTTP response received through the relay")
      end
  end.

(** ** The engine *)
Inductive EngineEffect :=
  | OpenInterceptor (filter : FilterSpec)     (* attempted *)
  | StartInterceptor
  | StartProxy (cfg : Config) (target : TargetPool.Target)
  | Pause (ms : Z)
  | Probe (addr : SocketAddr)
  | AbortProxy
  | RequestShutdown
  | AwaitInterceptor                          (* at most two seconds *)
  | Report (e : MethodScanEvent).

(** What a method meets: the clock its methods are seeded with, whether the
    interceptor opens, and its probes. *)
Record MethodChance := MkMethodChance {
  mc_seed : Z; mc_open_error : option string; mc_probes : nat → ProbeChance }.

Section engine.
Context (valid_name : string → bool) (interface_ip : Z) (progress : bool).

Definition report (e : MethodScanEvent) : list EngineEffect := if progress then [Report e] else [].

(** The [count] samples from the [i]-th. *)
Fixpoint take_samples (cfg : Config) (addr : SocketAddr) (target : MethodScanTarget) (method : string)
    (probes : nat → ProbeChance) (i count : nat) : list MethodSampleResult * list EngineEffect :=
  match count with
  | 0 => ([], [])
  | S count =>
      let pause := if (0 <? i) && (0 <? METHOD_SCAN_INTERVAL_MS cfg)%Z then [Pause (METHOD_SCAN_INTERVAL_MS cfg)] else [] in
      let result := direct_probe valid_name cfg (mt_sni target) (probes i) in
      let '(results, effects) := take_samples cfg addr target method probes (S i) count in
      (result :: results, pause ++ Probe addr :: report (SampleDone method (S i) (sr_ok result)) ++ effects)
  end.

Definition scan_filter (cfg : Config) (target : MethodScanTarget) : FilterSpec :=
  MkFilterSpec interface_ip (Some (mt_ip target)) 443 (NFQUEUE_NUM cfg) (linux_firewall_backend cfg) None.

(** From the proxy's start to the entry; [guarded]: an interceptor runs. *)
Definition run_engine (cfg : Config) (target : MethodScanTarget) (method : string) (index : nat)
    (addr : SocketAddr) (guarded : bool) (c : MethodChance) : MethodScanEntry * list EngineEffect :=
  let '(samples, effects) := take_samples cfg addr target method (mc_probes c) 0 (Z.to_nat (METHOD_SCAN_SAMPLES cfg)) in
  let entry := entry_from_samples method samples in
  (entry,
   [StartProxy cfg (TargetPool.target_sni (mt_sni target) (mt_ip target) (mt_score target)); Pause 50] ++ effects ++
   AbortProxy :: (if guarded then [RequestShutdown; AwaitInterceptor] else []) ++
   report (MethodDone method (S index) entry)).

Definition run_one_method (config : Config) (target : MethodScanTarget) (method : string) (index : nat)
    (addr : SocketAddr) (c : MethodChance) : MethodScanEntry * list EngineEffect :=
  let cfg := cfg_with_method config method in
  let samples_total := Z.to_nat (METHOD_SCAN_SAMPLES cfg) in
  if is_socket_only (BYPASS_METHOD cfg) then run_engine cfg target method index addr false c else
  match build_method cfg (mc_seed c) with
  | None => (failed_entry method samples_total "build_method returned None", [])
  | Some _ =>
      let filter := scan_filter cfg target in
      match mc_open_error c with
      | Some e => (failed_entry method samples_total ("interceptor open failed: " +:+ e), [OpenInterceptor filter])
      | None =>
          let '(entry, effects) := run_engine cfg target method index addr true c in
          (entry, OpenInterceptor filter :: StartInterceptor :: effects)
      end
  end.

Fixpoint run_methods (config : Config) (target : MethodScanTarget) (addr : SocketAddr)
    (methods : list string) (index : nat) (chances : nat → MethodChance) : list MethodScanEntry * list EngineEffect :=
  match methods with
  | [] => ([], [])
  | method :: methods =>
      let '(entry, effects) := run_one_method config target method index addr (chances index) in
      let '(entries, rest) := run_methods config target addr methods (S index) chances in
      (entry :: entries, effects ++ Pause 200 :: rest)
  end.

Definition is_unspecified (ip : IpAddr) : bool :=
  match ip with IpV4 a => (a =? 0)%Z | IpV6 g => forallb (Z.eqb 0) g end.
Definition run_method_tests (config : Config) (target : MethodScanTarget) (methods : list string)
    (chances : nat → MethodChance) : option (list MethodScanEntry * list EngineEffect) :=
  listen ← parse_socket_addr (LISTEN_HOST config +:+ ":" +:+ show_int (LISTEN_PORT config));
  let addr := if is_unspecified (sa_ip listen) then MkSocketAddr (IpV4 0x7F000001) (sa_port listen) 0 else listen in
  let '(entries, effects) := run_methods config target addr methods 0 chances in
  Some (rank_entries entries, effects).
End engine.

(** ** Comparators *)
Record comparator {A} (cmp : A → A → comparison) : Prop := {
  cmp_flip : ∀ x y, cmp y x = CompOpp (cmp x y);
  cmp_step : ∀ c x y z, cmp x y = c → cmp y z = c → cmp x z = c }.

Section comparators.
Context {A B : Type}.

Lemma cmp_eq_l (cmp : A → A → comparison) x y z : comparator cmp → cmp x y = Eq → cmp x z = cmp y z.
Proof.
  intros [Hf Ht] E. pose proof (Hf x y) as E'. rewrite E in E'. cbn in E'. destruct (cmp y z) eqn:E2.
  - by apply (Ht Eq x y z).
  - destruct (cmp x z) eqn:E3; [|done|].
    + pose proof (Ht Eq y x z E' E3). congruence.
    + pose proof (Hf x z) as E4. rewrite E3 in E4. pose proof (Ht Lt y z x E2 E4). congruence.
  - destruct (cmp x z) eqn:E3; [| |done].
    + pose proof (Ht Eq y x z E' E3). congruence.
    + pose proof (Hf x z) as E4. rewrite E3 in E4. pose proof (Ht Gt y z x E2 E4). congruence.
Qed.
Lemma cmp_eq_r (cmp : A → A → comparison) x y z : comparator cmp → cmp y z = Eq → cmp x z = cmp x y.
Proof.
  intros Hc E. rewrite (cmp_flip _ Hc z x), (cmp_flip _ Hc y x). f_equal. apply cmp_eq_l; [done|].
  by rewrite (cmp_flip _ Hc y z), E.
Qed.

Lemma comparator_then (c d : A → A → comparison) : comparator c → comparator d →
  comparator (λ x y, then_with (c x y) (d x y)).
Proof.
  intros Hc Hd. split.
  - intros x y. rewrite (cmp_flip _ Hc), (cmp_flip _ Hd). by destruct (c x y).
  - intros k x y z. destruct (c x y) eqn:E1.
    { rewrite (cmp_eq_l c x y z Hc E1). cbn. intros H. destruct (c y z); cbn; [|done..]. by apply (cmp_step _ Hd). }
    all: destruct (c y z) eqn:E2; cbn; intros <- E; try done.
    1,3: by rewrite (cmp_eq_r c x y z Hc E2), E1.
    all: by rewrite (cmp_step _ Hc _ _ _ _ E1 E2).
Qed.

Lemma comparator_by (key : B → A) c : comparator c → comparator (λ x y, c (key x) (key y)).
Proof. intros [Hf Ht]. split; [intros; apply Hf|intros k x y z; apply Ht]. Qed.
Lemma comparator_flip (c : A → A → comparison) : comparator c → comparator (λ x y, c y x).
Proof. intros [Hf Ht]. split; [intros; apply Hf|intros k x y z ? ?; by eapply Ht]. Qed.
End comparators.

Lemma comparator_Z : comparator Z.compare.
Proof.
  split; [intros; apply Z.compare_antisym|]. intros [] x y z.
  - by rewrite !Z.compare_eq_iff; intros -> ->.
  - rewrite !Z.compare_lt_iff. lia.
  - rewrite !Z.compare_gt_iff. lia.
Qed.
Lemma comparator_string : comparator String.compare.
Proof.
  assert (∀ s t, String.compare t s = CompOpp (String.compare s t)) as Hf.
  { intros s t. rewrite String.compare_antisym. done. }
  assert (∀ s t u, String.compare s t = Lt → String.compare t u = Lt → String.compare s u = Lt) as Ht.
  { intros s t u H1 H2. assert (strings.String.le s u) as Hle.
    { transitivity t; unfold strings.String.le, String.leb; by rewrite ?H1, ?H2. }
    unfold strings.String.le, String.leb in Hle. destruct (String.compare s u) eqn:E; [|done|done].
    apply String.compare_eq_iff in E as ->. rewrite (Hf u t), H1 in H2. done. }
  split; [done|]. intros [] s t u; [|apply Ht|].
  - intros ->%String.compare_eq_iff ->%String.compare_eq_iff. pose proof (Hf u u) as E. by destruct (String.compare u u).
  - rewrite (Hf t s), (Hf u t), (Hf u s). destruct (String.compare t s) eqn:E1, (String.compare u t) eqn:E2; cbn; try done.
    intros _ _. by rewrite (Ht u t s).
Qed.

Lemma comparator_ttfb : comparator ttfb_cmp.
Proof.
  split.
  - intros [x|] [y|]; try done. apply Z.compare_antisym.
  - intros c [x|] [y|] [z|]; cbn; try congruence. apply comparator_Z.
Qed.

Lemma comparator_entry : comparator entry_cmp.
Proof.
  unfold entry_cmp. apply comparator_then; [|apply comparator_then].
  - apply (comparator_flip (λ a b, total_cmp (me_success_rate a) (me_success_rate b))).
    apply (comparator_by (λ e, total_key (me_success_rate e)) Z.compare comparator_Z).
  - apply (comparator_by me_avg_ttfb_ms ttfb_cmp comparator_ttfb).
  - apply (comparator_by me_method String.compare comparator_string).
Qed.

Lemma not_after_total a b : not_after a b = false → not_after b a = true.
Proof. unfold not_after. rewrite (cmp_flip _ comparator_entry a b). by destruct (entry_cmp a b). Qed.
Lemma not_after_trans a b c : not_after a b = true → not_after b c = true → not_after a c = true.
Proof.
  unfold not_after. pose proof comparator_entry as Hc. destruct (entry_cmp a b) eqn:E1; [..|done]; intros _.
  - by rewrite (cmp_eq_l _ _ _ c Hc E1).
  - destruct (entry_cmp b c) eqn:E2; [..|done]; intros _.
    + by rewrite (cmp_eq_r _ a _ _ Hc E2), E1.
    + by rewrite (cmp_step _ Hc _ _ _ _ E1 E2).
Qed.

Lemma rank_entries_spec l : rank_entries l ≡ₚ l ∧ StronglySorted (λ a b, not_after a b = true) (rank_entries l).
Proof.
  split; [apply sort_by_perm|]. apply sort_by_sorted; [apply not_after_total|]. intros a b c. apply not_after_trans.
Qed.

(** ** The response does not depend on how it is cut *)
Lemma find_header_end_bound buf p : find_header_end buf = Some p → 4 ≤ p ≤ length buf.
Proof.
  revert p. induction buf as [|b buf IH]; intros p; [done|]. cbn [find_header_end length]. case_bool_decide as Ht.
  - intros [= <-]. apply (f_equal length) in Ht. rewrite length_take in Ht. cbn [length] in Ht. lia.
  - destruct (find_header_end buf) as [q|]; [|done]. cbn. intros [= <-]. specialize (IH q eq_refl). lia.
Qed.
Lemma find_header_end_app buf more p : find_header_end buf = Some p →
  find_header_end (buf ++ more) = Some p ∧ p ≤ length buf.
Proof.
  intros Hp. split; [|by destruct (find_header_end_bound _ _ Hp)]. revert p Hp.
  induction buf as [|b buf IH]; intros p Hp; [done|]. pose proof (find_header_end_bound _ _ Hp) as Hl.
  assert (take 4 ((b :: buf) ++ more) = take 4 (b :: buf)) as Ht by (apply take_app_le; lia).
  cbn [app] in Ht. cbn [find_header_end app] in *. rewrite Ht. case_bool_decide; [done|].
  destruct (find_header_end buf) as [q|]; [|done]. by rewrite (IH q).
Qed.

Definition status_of_response (bytes : list Z) : option Z :=
  pos ← find_header_end bytes;
  let head := take pos bytes in
  if valid_utf8 head then parse_status_code (of_bytes head) else None.
Record response_ok (r : Response) : Prop := {
  ro_first : first_byte r = negb (is_nil (got r));
  ro_end : header_end r = find_header_end (got r);
  ro_status : http_status r = status_of_response (got r) }.

Lemma on_bytes_ok r bytes : response_ok r → bytes ≠ [] → response_ok (on_bytes bytes r).
Proof.
  intros [Hf He Hs] Hb. unfold on_bytes. assert (is_nil (got r ++ bytes) = false) as Hn by (by destruct (got r), bytes).
  rewrite He. destruct (find_header_end (got r)) as [p|] eqn:Ep.
  - destruct (find_header_end_app (got r) bytes p Ep) as [Ep' Hle]. constructor; cbn; [by rewrite Hn|done|].
    rewrite Hs. unfold status_of_response. rewrite Ep, Ep'. cbn. by rewrite take_app_le.
  - assert (http_status r = None) as Hnone by (by rewrite Hs; unfold status_of_response; rewrite Ep).
    rewrite Hnone. destruct (find_header_end (got r ++ bytes)) as [p|] eqn:Ep'; constructor; cbn; rewrite ?Hn; try done;
      unfold status_of_response; by rewrite Ep'.
Qed.

Lemma got_on_bytes bytes r : got (on_bytes bytes r) = got r ++ bytes.
Proof. unfold on_bytes. destruct (header_end r); [done|]. by case_match. Qed.

Lemma read_http_response_ok cap reads : ∀ stream r, response_ok r → length (got r) ≤ cap →
  let r' := read_http_response cap reads stream r in
  response_ok r' ∧ length (got r') ≤ cap ∧ got r' `prefix_of` got r ++ stream ∧
  (length stream ≤ length reads → got r' = take cap (got r ++ stream)).
Proof.
  induction reads as [|n reads IH]; intros stream r Hr Hc; cbn [read_http_response].
  - split_and!; [done..|by apply prefix_app_r|]. intros Hl. destruct stream; [|cbn in Hl; lia].
    rewrite app_nil_r. by rewrite take_ge.
  - set (k := (1 `max` n) `min` (cap - length (got r)) `min` length stream).
    destruct (Nat.eqb_spec k 0) as [Hk|Hk].
    + split_and!; [done..|by apply prefix_app_r|]. intros _. destruct (decide (length stream = 0)) as [E|E].
      * apply nil_length_inv in E as ->. by rewrite app_nil_r, take_ge.
      * rewrite take_app_le by lia. rewrite take_ge; [done|]. lia.
    + assert (take k stream ≠ []) as Hne by (destruct stream; [cbn in *; lia|by destruct k]).
      assert (length (take k stream) = k) as Hlk by (rewrite length_take; lia).
      destruct (IH (drop k stream) (on_bytes (take k stream) r)) as (H1 & H2 & H3 & H4);
        [by apply on_bytes_ok|rewrite got_on_bytes, length_app; lia|].
      rewrite got_on_bytes in *. rewrite <-!app_assoc, !take_drop in H3, H4.
      split_and!; [done..|]. intros Hl. apply H4. rewrite length_drop. cbn in Hl. lia.
Qed.

(** ** The engine is never up twice *)

(** Whether the interceptor and the proxy run; [None]: an effect that must not
    happen there. *)
Definition engine_step (e : EngineEffect) (s : bool * bool) : option (bool * bool) :=
  match e, s with
  | OpenInterceptor _, (false, false) => Some (false, false)
  | StartInterceptor, (false, false) => Some (true, false)
  | StartProxy _ _, (i, false) => Some (i, true)
  | Probe _, (i, true) => Some (i, true)
  | AbortProxy, (i, true) => Some (i, false)
  | RequestShutdown, (true, false) => Some (true, false)
  | AwaitInterceptor, (true, false) => Some (false, false)
  | (Pause _ | Report _), s => Some s
  | _, _ => None
  end.
Fixpoint engine_run (es : list EngineEffect) (s : bool * bool) : option (bool * bool) :=
  match es with [] => Some s | e :: es => s ← engine_step e s; engine_run es s end.
Definition idle : bool * bool := (false, false).
Definition done_reports (es : list EngineEffect) : list (string * nat) :=
  omap (λ e, match e with Report (MethodDone m k _) => Some (m, k) | _ => None end) es.
Definition probe_count (es : list EngineEffect) : nat :=
  length (filter (λ e, match e with Probe _ => true | _ => false end = true) es).

Lemma engine_run_app es es' s : engine_run (es ++ es') s = (s' ← engine_run es s; engine_run es' s').
Proof. revert s. induction es as [|e es IH]; intros s; [done|]. cbn. destruct (engine_step e s); cbn; auto. Qed.
Lemma probe_count_app es es' : probe_count (es ++ es') = probe_count es + probe_count es'.
Proof. unfold probe_count. by rewrite filter_app, length_app. Qed.
Lemma done_reports_app es es' : done_reports (es ++ es') = done_reports es ++ done_reports es'.
Proof. apply omap_app. Qed.

Section engine_facts.
Context (valid_name : string → bool) (interface_ip : Z) (progress : bool).

Lemma take_samples_spec cfg addr target method probes count : ∀ i,
  let '(results, effects) := take_samples valid_name progress cfg addr target method probes i count in
  results = (λ k, direct_probe valid_name cfg (mt_sni target) (probes k)) <$> seq i count ∧
  (∀ b, engine_run effects (b, true) = Some (b, true)) ∧ probe_count effects = count ∧ done_reports effects = [].
Proof.
  induction count as [|count IH]; intros i; cbn [take_samples]; [done|]. specialize (IH (S i)).
  destruct (take_samples _ _ _ _ _ _ _ (S i) count) as [results effects]. destruct IH as (-> & He & Hp & Hd).
  split; [done|]. rewrite <-Hp. unfold report. destruct (_ && _), progress; (split; [intros b; apply He|]);
    split; try reflexivity; exact Hd.
Qed.

(** A method's row and what was done for it. *)
Definition samples_of (cfg : Config) (target : MethodScanTarget) (c : MethodChance) : list MethodSampleResult :=
  (λ k, direct_probe valid_name cfg (mt_sni target) (mc_probes c k)) <$> seq 0 (Z.to_nat (METHOD_SCAN_SAMPLES cfg)).

Lemma run_engine_spec cfg target method index addr (guarded : bool) c :
  let '(entry, effects) := run_engine valid_name progress cfg target method index addr guarded c in
  entry = entry_from_samples method (samples_of cfg target c) ∧ engine_run effects (guarded, false) = Some idle ∧
  probe_count effects = Z.to_nat (METHOD_SCAN_SAMPLES cfg) ∧
  done_reports effects = if progress then [(method, S index)] else [].
Proof.
  unfold run_engine. pose proof (take_samples_spec cfg addr target method (mc_probes c) (Z.to_nat (METHOD_SCAN_SAMPLES cfg)) 0) as H.
  destruct (take_samples _ _ _ _ _ _ _ 0 _) as [samples effects]. destruct H as (-> & He & Hp & Hd).
  split; [done|]. split; [|split].
  - cbn [app engine_run engine_step mbind option_bind]. rewrite engine_run_app, He. unfold report.
    by destruct guarded, progress.
  - rewrite !probe_count_app, Hp. unfold report. by destruct guarded, progress; cbn; rewrite Nat.add_0_r.
  - rewrite !done_reports_app, Hd. unfold report. by destruct guarded, progress.
Qed.

(** Why a method's engine did not start. *)
Definition engine_error (config : Config) (method : string) (c : MethodChance) : option string :=
  let cfg := cfg_with_method config method in
  if is_socket_only (BYPASS_METHOD cfg) then None else
  match build_method cfg (mc_seed c) with
  | None => Some "build_method returned None"
  | Some _ => (λ e, "interceptor open failed: " +:+ e) <$> mc_open_error c
  end.
Definition method_row (config : Config) (target : MethodScanTarget) (method : string) (c : MethodChance) : MethodScanEntry :=
  match engine_error config method c with
  | Some e => failed_entry method (Z.to_nat (METHOD_SCAN_SAMPLES config)) e
  | None => entry_from_samples method (samples_of (cfg_with_method config method) target c)
  end.

Lemma run_one_method_spec config target method index addr c :
  let '(entry, effects) := run_one_method valid_name interface_ip progress config target method index addr c in
  let started := is_none (engine_error config method c) in
  entry = method_row config target method c ∧ engine_run effects idle = Some idle ∧
  probe_count effects = (if started then Z.to_nat (METHOD_SCAN_SAMPLES config) else 0) ∧
  done_reports effects = if started && progress then [(method, S index)] else [].
Proof.
  unfold run_one_method, method_row, engine_error. set (cfg := cfg_with_method config method).
  destruct (is_socket_only (BYPASS_METHOD cfg)).
  { pose proof (run_engine_spec cfg target method index addr false c) as H.
    by destruct (run_engine _ _ _ _ _ _ _ _ _). }
  destruct (build_method cfg (mc_seed c)) as [m|]; [|done]. destruct (mc_open_error c) as [e|]; [done|]. cbn [fmap option_fmap option_map].
  pose proof (run_engine_spec cfg target method index addr true c) as H.
  destruct (run_engine _ _ _ _ _ _ _ _ _) as [entry effects]. destruct H as (-> & He & Hp & Hd). done.
Qed.

Lemma run_methods_spec config target addr methods chances : ∀ index,
  let '(entries, effects) := run_methods valid_name interface_ip progress config target addr methods index chances in
  let started k method := is_none (engine_error config method (chances k)) in
  entries = imap (λ k method, method_row config target method (chances (index + k))) methods ∧
  engine_run effects idle = Some idle ∧
  probe_count effects = sum_list (imap (λ k method, if started (index + k) method then Z.to_nat (METHOD_SCAN_SAMPLES config) else 0) methods) ∧
  done_reports effects = concat (imap (λ k method, if started (index + k) method && progress then [(method, S (index + k))] else []) methods).
Proof.
  induction methods as [|method methods IH]; intros index; cbn [run_methods]; [done|].
  pose proof (run_one_method_spec config target method index addr (chances index)) as H.
  destruct (run_one_method _ _ _ _ _ _ _ _ _) as [entry effects]. destruct H as (-> & He & Hp & Hd).
  specialize (IH (S index)). destruct (run_methods _ _ _ _ _ _ _ (S index) _) as [entries rest].
  destruct IH as (-> & He' & Hp' & Hd'). rewrite !imap_cons, Nat.add_0_r. split; [|split; [|split]].
  - f_equal. apply imap_ext. intros k m _. cbn. by rewrite Nat.add_succ_r.
  - by rewrite engine_run_app, He.
  - rewrite probe_count_app, Hp. change (probe_count (Pause 200 :: rest)) with (probe_count rest). rewrite Hp'. cbn [sum_list].
    f_equal. f_equal. apply imap_ext. intros k m _. cbn. by rewrite Nat.add_succ_r.
  - rewrite done_reports_app, Hd. change (done_reports (Pause 200 :: rest)) with (done_reports rest). rewrite Hd'. cbn [concat].
    f_equal. f_equal. apply imap_ext. intros k m _. cbn. by rewrite Nat.add_succ_r.
Qed.
End engine_facts.

(** ** Configurations of the scan *)
Lemma scan_methods_base mp base : validate mp base = Ok () → ∀ m, m ∈ METHOD_SCAN_METHODS base → m ∈ BASE_BYPASS_METHODS.
Proof.
  intros H. unfold validate in H. apply r_bind_ok in H as ([] & H & _). unfold validate_scan in H. inv_ok.
  match goal with H : check_method_names "METHOD_SCAN_METHODS" _ _ = Ok ?u |- _ =>
    destruct u; apply check_method_names_ok in H as [H _]; exact H end.
Qed.

Lemma single_method m base : m ∈ BASE_BYPASS_METHODS →
  cfg_with_method base m = with_methods [m] base ∧ validate_bypass_method (with_methods [m] base) = Ok () ∧
  (is_socket_only [m] = true ∨ ∀ seed, is_Some (build_method (with_methods [m] base) seed)).
Proof.
  intros Hm. unfold BASE_BYPASS_METHODS in Hm.
  repeat (apply elem_of_cons in Hm as [->|Hm];
    [split; [reflexivity|]; split; [vm_compute; by try destruct (FAKE_TLS_FORWARD_REAL base)|]; 
     first [left; reflexivity|right; intros seed; by eexists]|]).
  by apply elem_of_nil in Hm.
Qed.

Lemma scan_config_valid mp base m : validate mp base = Ok () → MODE base ≠ "ip_bypass_plus" →
  m ∈ METHOD_SCAN_METHODS base → validate mp (cfg_with_method base m) = Ok ().
Proof.
  intros Hv Hmode Hm. destruct (single_method m base) as (-> & Hb & _); [by eapply scan_methods_base|].
  unfold validate in *. change (validate_scan mp (with_methods [m] base)) with (validate_scan mp base).
  change (validate_injection (with_methods [m] base)) with (validate_injection base).
  change (validate_shaping (with_methods [m] base)) with (validate_shaping base).
  apply r_bind_ok in Hv as ([] & -> & Hv). apply r_bind_ok in Hv as ([] & _ & Hv).
  apply r_bind_ok in Hv as ([] & Hi & Hv). apply r_bind_ok in Hv as ([] & Hs & Hv). cbn [r_bind]. rewrite Hb. cbn [r_bind].
  rewrite Hi. cbn [r_bind]. rewrite Hs. cbn [r_bind]. unfold validate_mode in *. cbn [MODE with_methods] in *.
  assert (String.eqb (MODE base) "ip_bypass_plus" = false) as E by (by apply String.eqb_neq).
  change (MODE (with_methods [m] base)) with (MODE base). rewrite E in *. exact Hv.
Qed.


(** A sample counts when the response read, of at most [SCAN_DOWNLOAD_CAP]
    bytes, has a status line and a body, however it arrived. *)
Theorem direct_probe_counts valid_name config sni c :
  sr_ok (direct_probe valid_name config sni c) = true ↔
  ch_connect c = None ∧ valid_name sni = true ∧ (∃ ms, ch_tls c = inl ms) ∧ ch_written c = true ∧
  let bytes := got (read_http_response (Z.to_nat (SCAN_DOWNLOAD_CAP config)) (ch_reads c) (ch_stream c) response_start) in
  bytes `prefix_of` ch_stream c ∧ length bytes ≤ Z.to_nat (SCAN_DOWNLOAD_CAP config) ∧
  is_Some (status_of_response bytes) ∧ ∃ e, find_header_end bytes = Some e ∧ e < length bytes.
Proof.
  unfold direct_probe. set (cap := Z.to_nat (SCAN_DOWNLOAD_CAP config)).
  destruct (read_http_response_ok cap (ch_reads c) (ch_stream c) response_start) as ([Hf He Hs] & Hl & Hp & _);
    [by constructor|cbn; lia|]. cbn zeta. unfold body_bytes in *. set (r := read_http_response _ _ _ _) in *. cbn [got app response_start] in Hp.
  destruct (ch_connect c); [by split; [|naive_solver]|]. destruct (valid_name sni); cbn [negb]; [|by split; [|naive_solver]].
  destruct (ch_tls c) as [ms|e]; [|by split; [|naive_solver]]. destruct (ch_written c); cbn [negb sr_ok]; [|by split; [|naive_solver]].
  rewrite andb_true_iff, He, Hs, Nat.ltb_lt. split.
  - intros [H1 H2]. split_and!; try done; [by eexists|by destruct (status_of_response _)|].
    destruct (find_header_end (got r)) as [e|]; [|lia]. exists e. split; [done|lia].
  - intros (_ & _ & _ & _ & _ & _ & [st ->] & e & -> & ?). split; [done|lia].
Qed.

(** The default list, the interceptor refusing to open: the socket-side methods
    are tested, the others fail. *)
Definition scan_config : Config := default_config "127.0.0.1" 44444.
Definition good_chance : ProbeChance :=
  {| ch_connect := None; ch_tls := inl 40%Z; ch_written := true; ch_reads := [20; 7; 1; 900; 900];
     ch_stream := as_bytes "HTTP/1.1 204 OK" ++ [13; 10; 13; 10]%Z ++ as_bytes "body"; ch_ttfb_ms := 30; ch_elapsed := f64_of_Z 1 |}.
Definition refused_interceptor (k : nat) : MethodChance := MkMethodChance 7 (Some "no access") (λ _, good_chance).
Definition scan_target : MethodScanTarget := MkScanTarget "a.com" 1 90 "/".

