(* ===== verification/ProxyTest.v ===== *)
(** * The proxy test

    Model of [crates/zerodpi-core/src/proxy_tester.rs]: taking the URL apart,
    the SOCKS5 negotiation and the HTTP request behind it with the measuring of
    the response, the scores, and the engine around one test.  The SOCKS5
    server is what it sends ([so_in]) and how many writes it takes; the bytes
    written are kept.  Scores are computed in [f64]. *)
From stdpp Require Import base list numbers strings.
From Stdlib Require Import ZArith Lia Ascii SpecFloat Sorted.
From S2P Require Import Prelude Text NetAddr Interceptor Flow Config ScanList ScannerHttp Scanner Composite TargetPool.
Local Open Scope string_scope.
Local Open Scope nat_scope.
Local Open Scope list_scope.

(** ** URLs *)
Fixpoint str_split_at (n : nat) (s : string) : string * string :=
  match n, s with
  | S n, String a s => let '(l, r) := str_split_at n s in (String a l, r)
  | _, _ => (EmptyString, s)
  end.
(** [find], of characters. *)
Fixpoint str_find (p : ascii → bool) (s : string) : option nat :=
  match s with
  | EmptyString => None
  | String a s => if p a then Some 0 else S <$> str_find p s
  end.
(** [rfind] *)
Fixpoint str_rfind (c : ascii) (s : string) : option nat :=
  match s with
  | EmptyString => None
  | String a s =>
      match str_rfind c s with
      | Some n => Some (S n)
      | None => if Ascii.eqb a c then Some 0 else None
      end
  end.

Definition without_scheme (url : string) : option string :=
  match strip_prefix "https://" url with
  | Some rest => Some rest
  | None => strip_prefix "http://" url
  end.
Definition ends_authority (a : ascii) : bool := Ascii.eqb a "/"%char || Ascii.eqb a "?"%char.
Definition authority_of (rest : string) : string :=
  (str_split_at (default (str_len rest) (str_find ends_authority rest)) rest).1.
Definition port_or (default_port : Z) (s : string) : Z := default default_port (parse_unsigned 65535 s).

Definition parse_url_host_port (url : string) : option (string * Z) :=
  rest ← without_scheme url;
  let default_port : Z := match strip_prefix "https://" url with Some _ => 443%Z | None => 80%Z end in
  let authority := authority_of rest in
  Some match str_rfind "]"%char authority with
  | Some bracket_end =>
      let '(host, after) := str_split_at (S bracket_end) authority in
      (host, match strip_prefix ":" after with Some p => port_or default_port p | None => default_port end)
  | None =>
      match str_rfind ":"%char authority with
      | Some colon =>
          let '(host, after) := str_split_at colon authority in
          (host, port_or default_port (str_split_at 1 after).2)
      | None => (authority, default_port)
      end
  end.

Definition extract_url_path (url : string) : string :=
  let rest := default url (without_scheme url) in
  match str_find (λ a, Ascii.eqb a "/"%char) rest with
  | Some i => (str_split_at i rest).2
  | None => "/"
  end.

(** [splitn(3, ' ')]: only its second part is used. *)
Definition parse_http_status (text : string) : option Z :=
  match lines text with
  | [] => None
  | line :: _ => match split_char " "%char line with _ :: code :: _ => parse_unsigned 65535 code | _ => None end
  end.

(** ** The SOCKS5 probe *)
Record ProbeResult := MkProbeResult {
  proxy_tcp_ms : option Z; proxy_ttfb_ms : option Z; proxy_speed_bps : option f64; proxy_http_status : option Z }.
Definition blank_result : ProbeResult := MkProbeResult None None None None.

Record Socks := MkSocks { so_credit : nat; so_in : list Z; so_out : list (list Z) }.
Definition socks (A : Type) : Type := Socks → option A * Socks.     (* [None]: give up *)
#[export] Instance socks_ret : MRet socks := λ A a s, (Some a, s).
#[export] Instance socks_bind : MBind socks := λ A B k m s,
  match m s with (Some a, s) => k a s | (None, s) => (None, s) end.

Definition refuse {A} : socks A := λ s, (None, s).
Definition write_all (bytes : list Z) : socks () := λ s,
  match so_credit s with
  | 0 => (None, s)
  | S n => (Some (), MkSocks n (so_in s) (so_out s ++ [bytes]))
  end.
Definition read_exact (n : nat) : socks (list Z) := λ s,
  if length (so_in s) <? n then (None, s)
  else (Some (take n (so_in s)), MkSocks (so_credit s) (drop n (so_in s)) (so_out s)).

Definition GREETING : list Z := [5; 1; 0]%Z.
Definition connect_request (host : string) (port : Z) : list Z :=
  [5; 1; 0; 3; Z.of_nat (str_len host) mod 256]%Z ++ as_bytes host ++ [Z.shiftr port 8; Z.land port 0xFF].
(** Without the length byte of a domain name. *)
Definition bound_length (atyp : Z) : option nat :=
  if (atyp =? 1)%Z then Some 6 else if (atyp =? 4)%Z then Some 18 else if (atyp =? 3)%Z then None else Some 6.

(** What is to be skipped, after the length byte. *)
Definition bound_left (atyp : Z) : socks nat :=
  match bound_length atyp with
  | Some n => mret n
  | None => len ← read_exact 1; mret (Z.to_nat (nth 0 len 0%Z) + 2)
  end.

Definition negotiate (host : string) (port : Z) : socks () :=
  write_all GREETING;;
  greeting ← read_exact 2;
  (if bool_decide (greeting = [5; 0]%Z) then mret () else refuse);;
  write_all (connect_request host port);;
  header ← read_exact 4;
  (if bool_decide (take 2 header = [5; 0]%Z) then mret () else refuse);;
  skip ← bound_left (nth 3 header 0%Z);
  read_exact skip;;
  mret ().

Definition crlf : string := String "013"%char (String "010"%char EmptyString).
Definition http_request (host url : string) : list Z :=
  as_bytes ("GET " +:+ extract_url_path url +:+ " HTTP/1.1" +:+ crlf +:+ "Host: " +:+ host +:+ crlf +:+
            "Connection: close" +:+ crlf +:+ "User-Agent: zerodpi-proxy-scan/0.1" +:+ crlf +:+ crlf).

Definition dialogue (host : string) (port : Z) (url : string) : socks () :=
  negotiate host port;; write_all (http_request host url).

Definition download_cap (config : Config) : Z := Z.max (SCAN_DOWNLOAD_CAP config) 524288.
(** Bytes read, and the status of the first read. *)
Fixpoint read_body (cap : Z) (reads : list nat) (stream : list Z) (total : Z) (status : option (option Z))
    : Z * option (option Z) :=
  match reads with
  | [] => (total, status)
  | r :: reads =>
      let n := (1 `max` r) `min` Z.to_nat (cap - total) `min` length stream in
      if n =? 0 then (total, status) else
      let chunk := take n stream in
      let first := match status with
        | Some s => s
        | None => if valid_utf8 chunk then parse_http_status (of_bytes chunk) else None
        end in
      read_body cap reads (drop n stream) (total + Z.of_nat n) (Some first)
  end.

(** What the probe meets: the latency of the connection if it is made, the
    server, the sizes of the reads of the body, and the times. *)
Record ProbeChance := MkChance {
  pc_tcp_ms : option Z; pc_credit : nat; pc_stream : list Z; pc_reads : list nat; pc_ttfb_ms : Z; pc_elapsed : f64 }.

Definition measure (config : Config) (c : ProbeChance) (response : list Z) : ProbeResult :=
  let '(total, status) := read_body (download_cap config) (pc_reads c) response 0 None in
  MkProbeResult (pc_tcp_ms c) (match status with Some _ => Some (pc_ttfb_ms c) | None => None end)
    (if (0 <? total)%Z then speed_of (Z.to_nat total) (pc_elapsed c) else None)
    (match status with Some s => s | None => None end).

Definition socks5_http_probe (config : Config) (socks5_addr host : string) (port : Z) (url : string) (c : ProbeChance)
    : ProbeResult * list (list Z) :=
  match parse_socket_addr socks5_addr, pc_tcp_ms c with
  | Some _, Some tcp_ms =>
      match dialogue host port url (MkSocks (pc_credit c) (pc_stream c) []) with
      | (Some _, s) => (measure config c (so_in s), so_out s)
      | (None, s) => (MkProbeResult (Some tcp_ms) None None None, so_out s)
      end
  | _, _ => (blank_result, [])
  end.

(** The test around it; [timed_out]: the whole probe takes too long. *)
Inductive TestEffect :=
  | TestOpen (filter : FilterSpec) | TestStartInterceptor
  | TestStartProxy (target : TargetPool.Target) | TestPause (ms : Z) | TestProbe | TestAbortProxy
  | TestShutdown | TestAwait.

Definition run_socks5_probe (config : Config) (candidate : SniProbeEntry) (timed_out : bool) (c : ProbeChance)
    : ProbeResult * list TestEffect :=
  let start := [TestStartProxy (TargetPool.target_sni (sp_sni candidate) (sp_ip candidate) (sp_score candidate)); TestPause 50] in
  match parse_url_host_port (PROXY_TEST_URL config) with
  | None => (blank_result, start ++ [TestAbortProxy])
  | Some (host, port) =>
      let addr := PROXY_TEST_SOCKS5_HOST config +:+ ":" +:+ show_int (PROXY_TEST_SOCKS5_PORT config) in
      let '(r, _) := socks5_http_probe config addr host port (PROXY_TEST_URL config) c in
      (if timed_out then blank_result else r, start ++ [TestProbe; TestAbortProxy])
  end.

(** ** Scores *)
Definition f64_round_min_100 (x : f64) : Z :=
  match x with S754_nan => 100 | _ => Z.min 100 (round_to_u8 x) end.
Definition speed_score (cap : f64) (bps : option f64) : f64 :=
  match bps with
  | None => f64_zero
  | Some bps => f64_mul (f64_of_Z 40) (f64_min (f64_div bps cap) (f64_of_Z 1))
  end.
Definition compute_proxy_score (r : ProbeResult) (config : Config) : Z :=
  f64_round_min_100 (f64_add (f64_add
    (latency_points 20 (PROXY_TEST_LATENCY_CAP_MS config) (proxy_tcp_ms r))
    (latency_points 40 (PROXY_TEST_TTFB_CAP_MS config) (proxy_ttfb_ms r)))
    (speed_score (PROXY_TEST_SPEED_CAP_BPS config) (proxy_speed_bps r))).
Definition blend_scores (sni_score proxy_score : Z) (sni_weight : f64) : Z :=
  let proxy_weight := f64_sub (f64_of_Z 1) sni_weight in
  Z.min 100 (round_to_u8 (f64_add (f64_mul sni_weight (f64_of_Z sni_score)) (f64_mul proxy_weight (f64_of_Z proxy_score)))).

Record ProxyTestEntry := MkTestEntry {
  pt_sni : string; pt_ip : Z; pt_sni_score : Z; pt_proxy_ok : bool; pt_result : ProbeResult;
  pt_proxy_score : Z; pt_final_score : Z }.

Definition failed_entry (candidate : SniProbeEntry) (sni_weight : f64) : ProxyTestEntry :=
  MkTestEntry (sp_sni candidate) (sp_ip candidate) (sp_score candidate) false blank_result 0
    (blend_scores (sp_score candidate) 0 sni_weight).
Definition failed_candidate_entry := failed_entry.
Definition build_entry (candidate : SniProbeEntry) (r : ProbeResult) (config : Config) : ProxyTestEntry :=
  let proxy_score := compute_proxy_score r config in
  MkTestEntry (sp_sni candidate) (sp_ip candidate) (sp_score candidate) (is_some (proxy_ttfb_ms r)) r proxy_score
    (blend_scores (sp_score candidate) proxy_score (PROXY_TEST_SNI_WEIGHT config)).

(** ** Tests *)
Definition better_test (a b : ProxyTestEntry) : bool :=
  ranked (pt_final_score a) (proxy_ttfb_ms (pt_result a)) (pt_final_score b) (proxy_ttfb_ms (pt_result b)).
(** The entries in the order they are reported, then ranked. *)
Definition run_proxy_tests (config : Config) (candidates : list (SniProbeEntry * (bool * ProbeChance)))
    : list ProxyTestEntry :=
  sort_by better_test ((λ c, build_entry c.1 (run_socks5_probe config c.1 c.2.1 c.2.2).1 config) <$> candidates).

Definition test_candidate_with_flow_controller (config : Config) (candidate : SniProbeEntry) (timed_out : bool)
    (c : ProbeChance) : ProxyTestEntry * list TestEffect :=
  let '(r, effects) := run_socks5_probe config candidate timed_out c in (build_entry candidate r config, effects).

Definition test_candidate_full (config : Config) (interface_ip seed : Z) (candidate : SniProbeEntry) (opens : bool)
    (timed_out : bool) (c : ProbeChance) : ProxyTestEntry * list TestEffect :=
  if is_socket_only (BYPASS_METHOD config) then test_candidate_with_flow_controller config candidate timed_out c else
  match build_method config seed with
  | None => (failed_entry candidate (PROXY_TEST_SNI_WEIGHT config), [])
  | Some _ =>
      let filter := MkFilterSpec interface_ip (Some (sp_ip candidate)) 443 (NFQUEUE_NUM config)
        (linux_firewall_backend config) None in
      if negb opens then (failed_entry candidate (PROXY_TEST_SNI_WEIGHT config), [TestOpen filter]) else
      let '(r, effects) := run_socks5_probe config candidate timed_out c in
      (build_entry candidate r config,
       TestOpen filter :: TestStartInterceptor :: effects ++ [TestShutdown; TestAwait])
  end.

(** ** URLs are taken apart *)
Lemma str_split_at_app s t : str_split_at (str_len s) (s +:+ t) = (s, t).
Proof.
  induction s as [|a s IH]; [done|]. change (String a s +:+ t) with (String a (s +:+ t)).
  cbn [str_len String.length str_split_at]. change (String.length s) with (str_len s). by rewrite IH.
Qed.
Lemma str_split_at_skip s t n : (str_split_at (str_len s + n) (s +:+ t)).2 = (str_split_at n t).2.
Proof.
  induction s as [|a s IH]; [done|]. change (String a s +:+ t) with (String a (s +:+ t)).
  change (str_len (String a s) + n) with (S (str_len s + n)). cbn [str_split_at].
  destruct (str_split_at (str_len s + n) (s +:+ t)), (str_split_at n t). done.
Qed.
Lemma str_len_app s t : str_len (s +:+ t) = str_len s + str_len t.
Proof. induction s as [|a s IH]; [done|]. change (str_len (String a s +:+ t)) with (S (str_len (s +:+ t))). by rewrite IH. Qed.
Lemma str_find_app p s t :
  str_all (λ a, p a = false) s → str_find p (s +:+ t) = (λ n, str_len s + n) <$> str_find p t.
Proof.
  induction s as [|a s IH]; intros Hs; [change ("" +:+ t) with t; by destruct (str_find p t)|]. destruct Hs as [Ha Hs].
  change (String a s +:+ t) with (String a (s +:+ t)). cbn [str_find]. rewrite Ha, (IH Hs). by destruct (str_find p t).
Qed.
Lemma str_rfind_none c s : str_all (λ a, Ascii.eqb a c = false) s → str_rfind c s = None.
Proof. induction s as [|a s IH]; intros Hs; [done|]. destruct Hs as [Ha Hs]. cbn. by rewrite (IH Hs), Ha. Qed.
Lemma str_rfind_last c s t :
  str_all (λ a, Ascii.eqb a c = false) t → str_rfind c (s +:+ String c t) = Some (str_len s).
Proof.
  intros Ht. induction s as [|a s IH].
  - change ("" +:+ String c t) with (String c t). cbn [str_rfind]. by rewrite (str_rfind_none c t Ht), Ascii.eqb_refl.
  - change (String a s +:+ String c t) with (String a (s +:+ String c t)). cbn [str_rfind]. by rewrite IH.
Qed.

(** What follows the authority. *)
Definition url_tail (tail : string) : Prop :=
  match tail with EmptyString => True | String a _ => ends_authority a = true end.
(** A name, an IPv4 address; or an IPv6 address in brackets. *)
Definition name_char (a : ascii) : Prop :=
  ends_authority a = false ∧ Ascii.eqb a ":"%char = false ∧ Ascii.eqb a "]"%char = false.
Definition url_host (host : string) : Prop :=
  str_all name_char host ∨
  ∃ v6, host = v6 +:+ "]" ∧ str_all (λ a, ends_authority a = false) v6.

Lemma digit_name a : is_digit a → name_char a.
Proof.
  intros H. unfold name_char, ends_authority.
  destruct (Ascii.eqb_spec a "/"%char) as [->|_]; [vm_compute in H; by destruct H as [[] _]|].
  destruct (Ascii.eqb_spec a "?"%char) as [->|_]; [vm_compute in H; by destruct H as [_ []]|].
  destruct (Ascii.eqb_spec a ":"%char) as [->|_]; [vm_compute in H; by destruct H as [_ []]|].
  destruct (Ascii.eqb_spec a "]"%char) as [->|_]; [vm_compute in H; by destruct H as [_ []]|]. done.
Qed.

Lemma authority_of_ok auth tail :
  str_all (λ a, ends_authority a = false) auth → url_tail tail → authority_of (auth +:+ tail) = auth.
Proof.
  intros Ha Ht. unfold authority_of. rewrite (str_find_app ends_authority) by done.
  destruct tail as [|a tail].
  - change (str_find ends_authority "") with (@None nat). cbn [fmap option_fmap option_map default].
    replace (auth +:+ "") with auth by (symmetry; apply str_app_nil).
    pose proof (str_split_at_app auth "") as E. rewrite str_app_nil in E. by rewrite E.
  - cbn [url_tail] in Ht. cbn [str_find]. rewrite Ht. cbn [fmap option_fmap option_map default].
    unfold id. by rewrite Nat.add_0_r, str_split_at_app.
Qed.

Definition url_scheme (scheme : string) (default_port : Z) : Prop :=
  (scheme, default_port) = ("https://", 443%Z) ∨ (scheme, default_port) = ("http://", 80%Z).
Lemma without_scheme_ok scheme default_port rest :
  url_scheme scheme default_port → without_scheme (scheme +:+ rest) = Some rest ∧
  match strip_prefix "https://" (scheme +:+ rest) with Some _ => 443%Z | None => 80%Z end = default_port.
Proof. intros [[= -> ->]|[= -> ->]]; by destruct rest. Qed.

Lemma port_or_show d port : is_u16 port → port_or d (show_nat port) = port.
Proof.
  intros [H0 H1]. unfold port_or, parse_unsigned.
  pose proof (show_nat_digits port) as Hd. pose proof (parse_show_nat port H0) as Hp.
  assert (strip_prefix "+" (show_nat port) = None) as ->.
  { destruct (show_nat port) as [|a s]; [done|]. destruct Hd as [Ha _]. cbn [strip_prefix].
    destruct (Ascii.eqb_spec "+"%char a) as [<-|]; [|done]. vm_compute in Ha. by destruct Ha as [[] _]. }
  rewrite Hp. assert (port <=? 65535 = true)%Z as -> by lia. done.
Qed.

(** The authority of a URL, written out. *)
Lemma authority_parsed scheme d host tail port :
  url_scheme scheme d → url_host host → url_tail tail → from_option is_u16 True port →
  parse_url_host_port (scheme +:+ host +:+ from_option (λ n, ":" +:+ show_nat n) "" port +:+ tail)
  = Some (host, default d port).
Proof.
  intros Hs Hh Ht Hp. set (suffix := from_option (λ n, ":" +:+ show_nat n) "" port).
  assert (str_all (λ a, ends_authority a = false ∧ Ascii.eqb a "]"%char = false) suffix) as Hsuf.
  { destruct port as [n|]; [|done]. split; [done|]. eapply str_all_impl; [|apply show_nat_digits].
    intros a Ha%digit_name. unfold name_char in Ha. tauto. }
  destruct (without_scheme_ok scheme d (host +:+ suffix +:+ tail) Hs) as [E1 E2].
  unfold parse_url_host_port. rewrite E1. cbn [mbind option_bind]. rewrite E2. f_equal. clear E1 E2.
  assert (authority_of (host +:+ suffix +:+ tail) = host +:+ suffix) as ->.
  { replace (host +:+ suffix +:+ tail) with ((host +:+ suffix) +:+ tail) by apply str_app_assoc.
    apply authority_of_ok; [|done]. apply str_all_app.
      + destruct Hh as [Hh|(v6 & -> & Hv)]; [eapply str_all_impl; [|exact Hh]; unfold name_char; naive_solver|].
        apply str_all_app; [done|]. by split.
      + eapply str_all_impl; [|exact Hsuf]. naive_solver. }
  destruct Hh as [Hh|(v6 & -> & Hv)].
  - rewrite str_rfind_none; [|apply str_all_app; (eapply str_all_impl; [|eassumption]); unfold name_char; naive_solver].
    destruct port as [n|].
    + cbn [from_option] in suffix. unfold suffix.
      change (":" +:+ show_nat n) with (String ":" (show_nat n)).
      rewrite str_rfind_last, str_split_at_app.
      * cbn [str_split_at snd]. by rewrite port_or_show.
      * eapply str_all_impl; [|apply show_nat_digits]. intros a Ha%digit_name. unfold name_char in Ha. tauto.
    + unfold suffix. cbn [from_option default]. replace (host +:+ "") with host by (symmetry; apply str_app_nil).
      rewrite str_rfind_none; [done|]. eapply str_all_impl; [|exact Hh]. unfold name_char. naive_solver.
  - assert ((v6 +:+ "]") +:+ suffix = v6 +:+ String "]" suffix) as Hb by apply str_app_assoc.
    rewrite Hb at 1. rewrite str_rfind_last by (eapply str_all_impl; [|exact Hsuf]; naive_solver).
    replace (S (str_len v6)) with (str_len (v6 +:+ "]")) by (rewrite str_len_app; cbn; lia).
    rewrite str_split_at_app. destruct port as [n|]; [|done].
    unfold suffix. cbn [from_option]. change (":" +:+ show_nat n) with (String ":" (show_nat n)).
    cbn [strip_prefix Ascii.eqb Bool.eqb]. by rewrite port_or_show.
Qed.

(** ** The probe speaks SOCKS5 *)
(** RFC 1928: a CONNECT request for a domain name, and what is left. *)
Definition decode_connect (bytes : list Z) : option (list Z * Z * list Z) :=
  match bytes with
  | 5 :: 1 :: 0 :: 3 :: len :: rest =>
      let len := Z.to_nat len in
      match drop len rest with
      | hi :: lo :: more => Some (take len rest, hi * 256 + lo, more)
      | _ => None
      end
  | _ => None
  end%Z.
(** The address and the port a reply is bound to. *)
Definition bound_address (atyp : Z) (bound : list Z) : Prop :=
  if (atyp =? 3)%Z then ∃ len rest, bound = len :: rest ∧ length rest = Z.to_nat len + 2
  else length bound = if (atyp =? 4)%Z then 18 else 6.
(** The server takes "no authentication" and the request; [response] follows. *)
Definition accepted (stream response : list Z) : Prop :=
  ∃ rsv atyp bound, stream = [5; 0; 5; 0; rsv; atyp]%Z ++ bound ++ response ∧ bound_address atyp bound.

Lemma decode_connect_request host port :
  is_u16 port → str_len host ≤ 255 → decode_connect (connect_request host port) = Some (as_bytes host, port, []).
Proof.
  intros [H0 H1] Hl. unfold connect_request, decode_connect. cbn [app].
  rewrite Z.mod_small by lia. rewrite Nat2Z.id, <- length_as_bytes, take_app_length, drop_app_length.
  repeat f_equal. change 0xFF%Z with (Z.ones 8). rewrite Z.land_ones, Z.shiftr_div_pow2 by lia.
  change (2 ^ 8)%Z with 256%Z. pose proof (Z.div_mod port 256). lia.
Qed.

Lemma read_exact_app n pre post credit out :
  length pre = n → read_exact n (MkSocks credit (pre ++ post) out) = (Some pre, MkSocks credit post out).
Proof.
  intros <-. unfold read_exact. cbn [so_in so_credit so_out]. rewrite length_app.
  destruct (Nat.ltb_spec (length pre + length post) (length pre)); [lia|].
  by rewrite take_app_length, drop_app_length.
Qed.
Lemma read_exact_inv n s r s' :
  read_exact n s = (r, s') →
  so_out s' = so_out s ∧ so_credit s' = so_credit s ∧ (∀ l, r = Some l → length l = n ∧ so_in s = l ++ so_in s').
Proof.
  unfold read_exact. destruct (Nat.ltb_spec (length (so_in s)) n) as [|Hn]; intros [= <- <-]; [done|].
  split_and!; [done..|]. intros l [= <-]. cbn. by rewrite take_drop, length_take_le.
Qed.

(** A step of a negotiation that succeeded; where it stops, what was written
    is the beginning of [all]. *)
Lemma socks_bind_inv {A B} (m : socks A) (k : A → socks B) s r s' :
  (m ≫= k) s = (r, s') →
  (r = None ∧ m s = (None, s')) ∨ ∃ a s1, m s = (Some a, s1) ∧ k a s1 = (r, s').
Proof. unfold mbind, socks_bind. destruct (m s) as [[a|] s1]; intros E; [right; eauto|left; by injection E as <- <-]. Qed.

Lemma socks_check_inv (P : Prop) `{Decision P} s r s' :
  (if bool_decide P then mret () else refuse) s = (r, s') → s' = s ∧ (r = Some () → P).
Proof. case_bool_decide; by intros [= <- <-]. Qed.

Lemma negotiate_ok host port credit stream response out :
  accepted stream response →
  negotiate host port (MkSocks (2 + credit) stream out)
  = (Some (), MkSocks credit response (out ++ [GREETING] ++ [connect_request host port])).
Proof.
  intros (rsv & atyp & bound & -> & Hb). unfold negotiate, bound_left, mbind, socks_bind, write_all, mret, socks_ret.
  cbn [so_credit so_in so_out Nat.add].
  rewrite (read_exact_app 2 [5; 0]%Z ([5; 0; rsv; atyp]%Z ++ bound ++ response)) by done.
  rewrite bool_decide_true by done.
  cbn [so_credit so_in so_out].
  rewrite (read_exact_app 4 [5; 0; rsv; atyp]%Z (bound ++ response)) by done.
  rewrite bool_decide_true by done. cbn [nth]. unfold bound_address, bound_length in *.
  destruct (Z.eqb_spec atyp 1) as [->|H1]; [cbn in Hb; by rewrite read_exact_app, (assoc_L (++)) by done|].
  destruct (Z.eqb_spec atyp 4) as [->|H4]; [cbn in Hb; by rewrite read_exact_app, (assoc_L (++)) by done|].
  destruct (Z.eqb_spec atyp 3) as [->|H3]; [|by rewrite read_exact_app, (assoc_L (++)) by done].
  destruct Hb as (len & rest & -> & Hl). cbn [app].
  rewrite (read_exact_app 1 [len] (rest ++ response)) by done. cbn [nth].
  by rewrite read_exact_app, <- (assoc_L (++)) by done.
Qed.

Lemma bound_left_inv atyp s r s' :
  bound_left atyp s = (r, s') →
  so_out s' = so_out s ∧ so_credit s' = so_credit s ∧
  (∀ skip bound response, r = Some skip → length bound = skip → so_in s' = bound ++ response →
   ∃ bound', so_in s = bound' ++ response ∧ bound_address atyp bound').
Proof.
  unfold bound_left, bound_length, bound_address. intros E.
  destruct (Z.eqb_spec atyp 3) as [->|H3].
  - cbn [Z.eqb Pos.eqb] in E. apply socks_bind_inv in E as [[-> E]|(len & s1 & E1 & E)].
    { by apply read_exact_inv in E as (? & ? & _). }
    apply read_exact_inv in E1 as (Ho & Hc & Hi). destruct (Hi _ eq_refl) as [Hl Hi']. clear Hi.
    injection E as <- <-. split_and!; [done..|]. intros skip bound response [= <-] Hs Hr.
    destruct len as [|len []]; [done| |done]. exists (len :: bound). rewrite Hi', Hr. split; [done|]. by exists len, bound.
  - destruct (atyp =? 1)%Z eqn:H1; [apply Z.eqb_eq in H1 as ->|destruct (atyp =? 4)%Z];
      injection E as <- <-; (split_and!; [done..|]); intros skip bound response [= <-] Hs Hr; by exists bound.
Qed.

Lemma negotiate_inv host port s r s' :
  negotiate host port s = (r, s') →
  ∃ n, so_out s' = so_out s ++ take n [GREETING; connect_request host port] ∧
       (r = Some () → n = 2 ∧ so_credit s = 2 + so_credit s' ∧ accepted (so_in s) (so_in s')).
Proof.
  intros E. unfold negotiate in E.
  apply socks_bind_inv in E as [[-> E]|(? & s1 & E1 & E)].
  { unfold write_all in E. destruct (so_credit s); [|done]. injection E as <-. exists 0. by rewrite app_nil_r. }
  unfold write_all in E1. destruct (so_credit s) as [|c1] eqn:Hc; [done|]. injection E1 as _ <-.
  apply socks_bind_inv in E as [[-> E]|(greeting & s2 & E2 & E)].
  { apply read_exact_inv in E as [Ho _]. exists 1. by rewrite Ho. }
  apply read_exact_inv in E2 as (Ho2 & Hc2 & Hi2). destruct (Hi2 _ eq_refl) as [_ Hi]. cbn in Ho2, Hc2, Hi. clear Hi2.
  apply socks_bind_inv in E as [[-> E]|([] & s3 & E3 & E)].
  { apply socks_check_inv in E as [-> _]. exists 1. by rewrite Ho2. }
  apply socks_check_inv in E3 as [-> Hg]. specialize (Hg eq_refl) as ->.
  apply socks_bind_inv in E as [[-> E]|(? & s4 & E4 & E)].
  { unfold write_all in E. rewrite Hc2 in E. destruct c1; [|done]. injection E as <-. exists 1. by rewrite Ho2. }
  unfold write_all in E4. rewrite Hc2 in E4. destruct c1 as [|c2]; [done|]. injection E4 as _ <-.
  apply socks_bind_inv in E as [[-> E]|(header & s5 & E5 & E)].
  { apply read_exact_inv in E as [Ho _]. exists 2. rewrite Ho. cbn. by rewrite Ho2, <- (assoc_L (++)). }
  apply read_exact_inv in E5 as (Ho5 & Hc5 & Hi5). destruct (Hi5 _ eq_refl) as [Hl5 Hi']. cbn in Ho5, Hc5, Hi'. clear Hi5.
  rewrite Ho2, <- (assoc_L (++)) in Ho5.
  apply socks_bind_inv in E as [[-> E]|([] & s6 & E6 & E)].
  { apply socks_check_inv in E as [-> _]. exists 2. by rewrite Ho5. }
  apply socks_check_inv in E6 as [-> Hh]. specialize (Hh eq_refl).
  destruct header as [|h0 [|h1 [|rsv [|atyp [|]]]]]; try done. injection Hh as -> ->. cbn [nth] in E.
  assert (∀ rest bound, so_in s5 = bound ++ rest → bound_address atyp bound → accepted (so_in s) rest) as Hacc.
  { intros rest bound Hr Hb. exists rsv, atyp, bound. split; [|done]. by rewrite Hi, Hi', Hr. }
  clear Hi Hi'. apply socks_bind_inv in E as [[-> E]|(skip & s7 & E7 & E)].
  { apply bound_left_inv in E as [Ho _]. exists 2. by rewrite Ho, Ho5. }
  apply bound_left_inv in E7 as (Ho7 & Hc7 & H7).
  apply socks_bind_inv in E as [[-> E]|(bound & s8 & E8 & E)].
  { apply read_exact_inv in E as [Ho _]. exists 2. by rewrite Ho, Ho7, Ho5. }
  apply read_exact_inv in E8 as (Ho8 & Hc8 & Hi8). destruct (Hi8 _ eq_refl) as [Hl8 Hi]. clear Hi8.
  injection E as <- <-. exists 2. rewrite Ho8, Ho7, Ho5. split; [done|]. intros _. split_and!; [done|lia|].
  destruct (H7 skip bound _ eq_refl Hl8 Hi) as (bound' & ? & ?). eauto.
Qed.
Lemma dialogue_ok host port url credit stream response :
  accepted stream response →
  dialogue host port url (MkSocks (3 + credit) stream [])
  = (Some (), MkSocks credit response [GREETING; connect_request host port; http_request host url]).
Proof.
  intros Ha. unfold dialogue, mbind, socks_bind. change (3 + credit) with (2 + S credit).
  by rewrite (negotiate_ok _ _ _ _ response).
Qed.
Lemma dialogue_inv host port url credit stream r s' :
  dialogue host port url (MkSocks credit stream []) = (r, s') →
  ∃ n, so_out s' = take n [GREETING; connect_request host port; http_request host url] ∧
       (r = Some () → 3 ≤ credit ∧ accepted stream (so_in s')).
Proof.
  intros E. apply socks_bind_inv in E as [[-> E]|([] & s1 & E1 & E)].
  { apply negotiate_inv in E as (n & Ho & _). exists (n `min` 2). rewrite Ho. split; [|done].
    by destruct n as [|[|[|n]]]. }
  apply negotiate_inv in E1 as (n & Ho & Hs). destruct (Hs eq_refl) as (-> & Hc & Ha). cbn [so_credit so_in] in Hc, Ha.
  unfold write_all in E. destruct (so_credit s1) as [|k]; injection E as <- <-.
  - exists 2. by rewrite Ho.
  - exists 3. cbn [so_in so_out]. rewrite Ho. split; [done|]. intros _. split; [lia|done].
Qed.

(** ** What is measured *)
Lemma read_body_ok cap reads stream total status :
  (0 ≤ total ≤ cap)%Z → (status = None ↔ total = 0%Z) →
  let '(total', status') := read_body cap reads stream total status in
  (total ≤ total' ≤ cap)%Z ∧ (total' ≤ total + Z.of_nat (length stream))%Z ∧ (status' = None ↔ total' = 0%Z) ∧
  (length stream ≤ length reads → total' = Z.min cap (total + Z.of_nat (length stream))).
Proof.
  revert stream total status; induction reads as [|r reads IH]; intros stream total status Ht Hs; cbn [read_body].
  { split_and!; [lia..|tauto|]. cbn. lia. }
  set (n := (1 `max` r) `min` Z.to_nat (cap - total) `min` length stream).
  destruct (Nat.eqb_spec n 0) as [H0|H0].
  { split_and!; [lia..|tauto|]. cbn. lia. }
  specialize (IH (drop n stream) (total + Z.of_nat n)%Z
    (Some (match status with Some s => s | None =>
      if valid_utf8 (take n stream) then parse_http_status (of_bytes (take n stream)) else None end)) ltac:(lia)
    ltac:(split; [done|lia])).
  destruct (read_body _ _ _ _ _) as [t' s']. rewrite length_drop in IH.
  destruct IH as (I1 & I2 & I3 & I4). split_and!; [lia..|done|]. cbn. intros Hr. rewrite I4 by lia. lia.
Qed.

Lemma download_cap_pos config : (0 < download_cap config)%Z.
Proof. unfold download_cap. lia. Qed.

(** A response was seen exactly when there is one and it was read. *)
Lemma measure_ok config c response :
  is_some (proxy_ttfb_ms (measure config c response)) = true ↔ response ≠ [] ∧ pc_reads c ≠ [].
Proof.
  unfold measure. pose proof (download_cap_pos config) as Hcap.
  pose proof (read_body_ok (download_cap config) (pc_reads c) response 0 None ltac:(lia) ltac:(done)) as H.
  destruct (pc_reads c) as [|r reads] eqn:Er; [cbn; naive_solver|].
  destruct response as [|b response].
  { destruct (read_body _ _ _ _ _) as [t s]. destruct H as (? & Hl & Hn & _). cbn in Hl.
    assert (t = 0%Z) as Ht by lia. apply Hn in Ht as ->. cbn. naive_solver. }
  split; [done|]. intros _.
  assert (0 < (read_body (download_cap config) (r :: reads) (b :: response) 0 None).1)%Z as Ht.
  { cbn [read_body]. set (n := (1 `max` r) `min` Z.to_nat (download_cap config - 0) `min` length (b :: response)).
    assert (n ≠ 0) as Hn. { unfold n. cbn [length]. lia. }
    destruct (Nat.eqb_spec n 0) as [|_]; [done|].
    clear H. match goal with |- context [read_body ?c ?r ?l ?t ?s] => pose proof (read_body_ok c r l t s) as H' end.
    specialize (H' ltac:(unfold n; lia) ltac:(split; [done|lia])).
    destruct (read_body _ reads _ _ _) as [t s]. cbn [fst]. lia. }
  destruct (read_body _ _ _ _ _) as [t [s|]]; [done|]. cbn [fst] in Ht. destruct H as (_ & _ & [Hn _] & _).
  specialize (Hn eq_refl). lia.
Qed.


Definition probe_config : Config := default_config "127.0.0.1" 44444.
Definition probe_addr : string := "127.0.0.1:10808".
(** A server that binds a domain name, on a connection that sends all. *)
Definition probe_chance : ProbeChance :=
  MkChance (Some 3%Z) 5 ([5; 0; 5; 0; 0; 3; 1; 97; 0; 80] ++ as_bytes ("HTTP/1.1 200 OK" +:+ crlf))%Z [4096; 4096] 40
    (f64_of_Z 1).

(** ** URLs and requests *)
(** The parts of a URL are those it was written from; the path is the text
    from the first slash on. *)
Theorem url_parts scheme d host port tail :
  url_scheme scheme d → url_host host → url_tail tail → from_option is_u16 True port →
  let url := scheme +:+ host +:+ from_option (λ n, ":" +:+ show_nat n) "" port +:+ tail in
  parse_url_host_port url = Some (host, default d port) ∧
  extract_url_path url =
    match str_find (λ a, Ascii.eqb a "/"%char) tail with Some i => (str_split_at i tail).2 | None => "/" end.
Proof.
  intros Hs Hh Ht Hp url. split; [by apply authority_parsed|]. unfold extract_url_path, url.
  rewrite (proj1 (without_scheme_ok scheme d _ Hs)). cbn [default].
  assert (∀ a, ends_authority a = false → Ascii.eqb a "/"%char = false) as Hse.
  { intros a Ha. unfold ends_authority in Ha. by apply orb_false_iff in Ha as [? _]. }
  set (auth := host +:+ from_option (λ n, ":" +:+ show_nat n) "" port).
  assert (str_all (λ a, Ascii.eqb a "/"%char = false) auth) as Ha.
  { apply str_all_app.
    - destruct Hh as [Hh|(v6 & -> & Hv)].
      + eapply str_all_impl; [|exact Hh]. unfold name_char. naive_solver.
      + apply str_all_app; [|by split]. eapply str_all_impl; [|exact Hv]. naive_solver.
    - destruct port as [n|]; [|done]. split; [done|]. eapply str_all_impl; [|apply show_nat_digits].
      intros a Hd%digit_name. unfold name_char in Hd. naive_solver. }
  unfold id. replace (host +:+ from_option (λ n, ":" +:+ show_nat n) "" port +:+ tail) with (auth +:+ tail) by apply str_app_assoc.
  rewrite (str_find_app (λ a, Ascii.eqb a "/"%char) auth tail Ha).
  destruct (str_find (λ a, Ascii.eqb a "/"%char) tail) as [i|]; [|done]. cbn [fmap option_fmap option_map].
  apply str_split_at_skip.
Qed.

(** A query without a path is not requested; a name of more than 255 bytes is
    asked for with a length that is not its length. *)
Example query_not_requested : extract_url_path "http://host?bytes=1" = "/".
Proof. reflexivity. Qed.
Example long_host_request : ∃ host, decode_connect (connect_request host 443) ≠ Some (as_bytes host, 443%Z, []).
Proof. exists (String.concat "" (replicate 256 "a")). vm_compute. discriminate. Qed.
(** The default URL: a plaintext request, to the port of HTTPS. *)
Example default_probe_is_plaintext :
  parse_url_host_port (PROXY_TEST_URL probe_config) = Some ("speed.cloudflare.com", 443%Z) ∧
  take 33 (http_request "speed.cloudflare.com" (PROXY_TEST_URL probe_config)) = as_bytes "GET /__down?bytes=524288 HTTP/1.1".
Proof. split; reflexivity. Qed.

(** ** Scores and entries *)
Lemma round_to_u8_bounds x : (0 ≤ round_to_u8 x ≤ 255)%Z.
Proof.
  destruct x as [|[]| |[] m e]; cbn [round_to_u8]; try lia. destruct (Z.leb_spec 0 e).
  - pose proof (Z.pow_nonneg 2 e). nia.
  - assert (0 ≤ (Z.pos m + 2 ^ (- e - 1)) / 2 ^ (- e))%Z; [|lia].
    apply Z.div_pos; [pose proof (Z.pow_nonneg 2 (- e - 1))|apply Z.pow_pos_nonneg]; lia.
Qed.
Lemma compute_proxy_score_bounds r config : (0 ≤ compute_proxy_score r config ≤ 100)%Z.
Proof.
  unfold compute_proxy_score, f64_round_min_100. set (x := f64_add _ _). pose proof (round_to_u8_bounds x).
  destruct x; lia.
Qed.
Lemma blend_scores_bounds a b w : (0 ≤ blend_scores a b w ≤ 100)%Z.
Proof. unfold blend_scores. set (x := f64_add _ _). pose proof (round_to_u8_bounds x). lia. Qed.

(** A probe that measured nothing is a failed candidate. *)
Lemma build_blank candidate config :
  build_entry candidate blank_result config = failed_entry candidate (PROXY_TEST_SNI_WEIGHT config).
Proof. reflexivity. Qed.

(** The tests of a scan: one entry for each candidate, ranked. *)
Theorem run_proxy_tests_ok config candidates :
  let entries := run_proxy_tests config candidates in
  (λ e, (pt_sni e, pt_ip e, pt_sni_score e)) <$> entries ≡ₚ (λ c, (sp_sni c.1, sp_ip c.1, sp_score c.1)) <$> candidates ∧
  StronglySorted (λ a b, better_test a b = true) entries ∧
  Forall (λ e, (0 ≤ pt_proxy_score e ≤ 100)%Z ∧ (0 ≤ pt_final_score e ≤ 100)%Z) entries.
Proof.
  cbn zeta. unfold run_proxy_tests. set (l := _ <$> candidates). split_and!.
  - rewrite sort_by_perm. unfold l. rewrite <- list_fmap_compose. reflexivity.
  - apply sort_by_sorted; unfold better_test; eauto using ranked_total, ranked_trans.
  - rewrite sort_by_perm. unfold l. apply Forall_fmap, Forall_true. intros c.
    split; [apply compute_proxy_score_bounds|apply blend_scores_bounds].
Qed.

(** What a test leaves behind: the engine and the proxy it started are
    stopped, the proxy first; nothing is started for a candidate whose
    interceptor does not open, and that candidate has failed. *)
Theorem candidate_test config interface_ip seed candidate opens timed_out c :
  let '(e, effects) := test_candidate_full config interface_ip seed candidate opens timed_out c in
  (pt_sni e, pt_ip e, pt_sni_score e) = (sp_sni candidate, sp_ip candidate, sp_score candidate) ∧
  (pt_proxy_ok e = true → TestProbe ∈ effects ∧ timed_out = false) ∧
  (TestProbe ∉ effects → e = failed_entry candidate (PROXY_TEST_SNI_WEIGHT config)) ∧
  (TestStartInterceptor ∈ effects → ∃ middle, effects = take 2 effects ++ middle ++ [TestAbortProxy; TestShutdown; TestAwait]) ∧
  (∀ t, TestStartProxy t ∈ effects → t = TargetPool.target_sni (sp_sni candidate) (sp_ip candidate) (sp_score candidate) ∧
    TestAbortProxy ∈ effects ∧ (is_socket_only (BYPASS_METHOD config) = false → TestStartInterceptor ∈ effects)).
Proof.
  unfold test_candidate_full, test_candidate_with_flow_controller.
  destruct (run_socks5_probe config candidate timed_out c) as [r effects] eqn:E.
  set (t0 := TargetPool.target_sni _ _ _).
  assert (∃ probe, effects = [TestStartProxy t0; TestPause 50] ++ probe ++ [TestAbortProxy] ∧
    (probe = [] ∧ r = blank_result ∨ probe = [TestProbe] ∧ (timed_out = true → r = blank_result))) as (probe & -> & Hr).
  { unfold run_socks5_probe in E. destruct (parse_url_host_port _) as [[host port]|].
    - destruct (socks5_http_probe _ _ _ _ _ _) as [r' out]. injection E as <- <-. exists [TestProbe].
      split; [done|]. right. split; [done|]. by intros ->.
    - injection E as <- <-. exists []. split; [done|]. by left. }
  assert (pt_proxy_ok (build_entry candidate r config) = true → TestProbe ∈ probe ∧ timed_out = false) as Hok.
  { destruct Hr as [[_ ->]|[-> Ht]]; [done|]. destruct timed_out; [by rewrite Ht|]. split; [|done]. by apply elem_of_cons; left. }
  assert (TestProbe ∉ probe → build_entry candidate r config = failed_entry candidate (PROXY_TEST_SNI_WEIGHT config)) as Hno.
  { destruct Hr as [[_ ->]|[-> _]]; [done|]. intros []. by apply elem_of_cons; left. }
  assert (∀ x, x ∈ probe → x = TestProbe) as Hx.
  { destruct Hr as [[-> _]|[-> _]]; intros x; rewrite ?elem_of_cons, !elem_of_nil; tauto. }
  clear E Hr. destruct (is_socket_only (BYPASS_METHOD config)); [|destruct (build_method config seed), opens];
    cbn [negb]; split_and!; try reflexivity;
    try (intros _; exists ([TestStartProxy t0; TestPause 50] ++ probe); by rewrite <- !(assoc_L (++)));
    repeat (setoid_rewrite elem_of_cons || setoid_rewrite elem_of_app || setoid_rewrite elem_of_nil);
    naive_solver.
Qed.
