(* ===== verification/Screens.v ===== *)
(** * Progress and selection screens

    Model of the loops of [crates/zerodpi/src/tui.rs] behind the screens of the
    scans: the four progress screens, which collect results until the scan is
    over or the user leaves, and the two selection tables.  Drawing does not
    change their state and is left out; a terminal that fails ends them with
    an error and is not modelled. *)
From stdpp Require Import base list numbers strings.
From Stdlib Require Import ZArith Lia.
From S2P Require Import Prelude Text NetAddr Config Scanner MethodScan ProxyTest.
Local Open Scope nat_scope.
Local Open Scope list_scope.

(** ** Progress *)

(** One round: what the channel holds, whether it turns out closed behind
    that, and whether the user asks to leave. *)
Record Turn (E : Type) := MkTurn { tn_events : list E; tn_closed : bool; tn_leaves : bool }.
Arguments MkTurn {E}. Arguments tn_events {E}. Arguments tn_closed {E}. Arguments tn_leaves {E}.

Section progress.
Context {S E : Type} (on_event : S → E → S).

(** The state at the end and whether the user has left; [None]: still on. *)
Fixpoint progress_loop (turns : list (Turn E)) (s : S) : option (S * bool) :=
  match turns with
  | [] => None
  | t :: turns =>
      let s := foldl on_event s (tn_events t) in
      if tn_closed t then Some (s, false)
      else if tn_leaves t then Some (s, true)
      else progress_loop turns s
  end.
End progress.

Definition run_scan_progress (turns : list (Turn SniProbeEntry)) : option (list SniProbeEntry * bool) :=
  progress_loop (λ arrived e, arrived ++ [e]) turns [].
Definition run_proxy_scan_progress (turns : list (Turn ProxyTestEntry)) : option (list ProxyTestEntry * bool) :=
  progress_loop (λ arrived e, arrived ++ [e]) turns [].

(** [tcp_done] is only drawn. *)
Definition on_ip_event (s : list IpProbeEntry * nat) (e : IpScanEvent) : list IpProbeEntry * nat :=
  match e with
  | TcpDone tcp_tested => (s.1, tcp_tested)
  | ProbeComplete entry => (s.1 ++ [entry], s.2)
  end.
Definition run_ip_scan_progress (turns : list (Turn IpScanEvent)) : option (list IpProbeEntry * bool) :=
  '((arrived, _), left_) ← progress_loop on_ip_event turns ([], 0); Some (arrived, left_).

Record MethodScanProgressState := MkMethodProgress {
  mp_done : list MethodScanEntry; mp_current_method : option string; mp_current_sample : nat; mp_ok_in_current : nat }.
Definition on_method_event (s : MethodScanProgressState) (e : MethodScanEvent) : MethodScanProgressState :=
  match e with
  | SampleDone method sample ok =>
      MkMethodProgress (mp_done s) (Some method) sample (if ok then S (mp_ok_in_current s) else mp_ok_in_current s)
  | MethodDone _ _ entry => MkMethodProgress (mp_done s ++ [entry]) None 0 0
  end.
Definition run_method_scan_progress (turns : list (Turn MethodScanEvent)) : option (list MethodScanEntry * bool) :=
  '(s, left_) ← progress_loop on_method_event turns (MkMethodProgress [] None 0 0); Some (mp_done s, left_).

(** ** Selection *)
Inductive SelectKey := SelUp | SelDown | SelEnter | SelQuit | SelOther.

Section selection.
Context {A : Type}.

(** An index out of range would panic. *)
Fixpoint selection_loop (entries : list A) (keys : list SelectKey) (selected : nat) : exec (option A) :=
  match keys with
  | [] => Done None
  | SelUp :: keys => selection_loop entries keys (selected - 1)
  | SelDown :: keys => selection_loop entries keys ((selected + 1) `min` (length entries - 1))
  | SelEnter :: _ => let! e := idx entries selected in Done (Some e)
  | SelQuit :: _ => let! e := idx entries 0 in Done (Some e)
  | SelOther :: keys => selection_loop entries keys selected
  end.
(** An error without entries; [Ok None]: still on. *)
Definition run_selection (entries : list A) (keys : list SelectKey) : exec (result (option A)) :=
  if is_nil entries then Done (Err "no candidates to select from"%string)
  else let! e := selection_loop entries keys 0 in Done (Ok e).
End selection.

(** ** What they return *)
Section facts.
Context {S E : Type} (on_event : S → E → S).

(** The events of the rounds up to the one that ends the screen. *)
Lemma progress_loop_spec turns : ∀ s s' b, progress_loop on_event turns s = Some (s', b) →
  ∃ n t, turns !! n = Some t ∧ s' = foldl on_event s (concat (tn_events <$> take (Datatypes.S n) turns)) ∧
    b = negb (tn_closed t) ∧ (b = true → tn_leaves t = true).
Proof.
  induction turns as [|t turns IH]; intros s s' b; [done|]. cbn [progress_loop].
  destruct (tn_closed t) eqn:Hc; [|destruct (tn_leaves t) eqn:Hl].
  - intros [= <- <-]. exists 0, t. cbn [take fmap list_fmap concat]. rewrite app_nil_r, Hc. done.
  - intros [= <- <-]. exists 0, t. cbn [take fmap list_fmap concat]. rewrite app_nil_r, Hc. done.
  - intros E1. destruct (IH _ _ _ E1) as (n & t' & Ht & -> & Hb & Hl'). exists (Datatypes.S n), t'. split; [done|].
    split; [|done]. change (take (Datatypes.S (Datatypes.S n)) (t :: turns)) with (t :: take (Datatypes.S n) turns).
    cbn [fmap list_fmap concat]. by rewrite foldl_app.
Qed.
End facts.

(** With results as events, the screen returns what has arrived, in order. *)
Lemma arrived_concat {E} (turns : list (Turn E)) arrived b : progress_loop (λ l e, l ++ [e]) turns [] = Some (arrived, b) →
  ∃ n t, turns !! n = Some t ∧ arrived = concat (tn_events <$> take (S n) turns) ∧ b = negb (tn_closed t).
Proof.
  intros (n & t & Ht & -> & Hb & _)%progress_loop_spec. exists n, t. split; [done|]. split; [|done].
  generalize (concat (tn_events <$> take (S n) turns)). intros l.
  assert (∀ l l' : list E, foldl (λ l e, l ++ [e]) l' l = l' ++ l) as H; [|apply H].
  clear. induction l as [|x l IH]; intros l'; cbn; [by rewrite app_nil_r|]. by rewrite IH, <- (assoc_L (++)).
Qed.

Section selected.
Context {A : Type}.
Lemma selection_loop_ok (entries : list A) keys : entries ≠ [] → ∀ selected, selected < length entries →
  ∃ r, selection_loop entries keys selected = Done r ∧ from_option (.∈ entries) True r.
Proof.
  intros Hne. induction keys as [|k keys IH]; intros selected Hs; [by exists None|].
  destruct k; cbn [selection_loop]; try (apply IH; lia).
  - destruct (lookup_lt_is_Some_2 entries selected Hs) as [e He]. unfold idx. rewrite He. cbn.
    exists (Some e). split; [done|]. by eapply list_elem_of_lookup_2.
  - destruct entries as [|e entries]; [done|]. exists (Some e). split; [done|]. by apply elem_of_cons; left.
Qed.

(** A selection never panics, whatever is pressed, and chooses an entry of the
    table. *)
Theorem run_selection_ok (entries : list A) keys :
  ∃ r, run_selection entries keys = Done r ∧
    match r with Ok (Some e) => e ∈ entries | Ok None => True | Err _ => entries = [] end.
Proof.
  unfold run_selection. destruct entries as [|e entries]; [by eexists|]. cbn [is_nil].
  destruct (selection_loop_ok (e :: entries) keys ltac:(done) 0 ltac:(cbn; lia)) as ([r|] & E & Hr); rewrite E.
  - by exists (Ok (Some r)).
  - by exists (Ok None).
Qed.
End selected.
