(* ===== verification/Dashboard.v ===== *)
(** * The dashboard's state

    Model of the live dashboard of [crates/zerodpi/src/tui.rs] without its
    drawing: the log of connections and its order, the counters, what every
    event does to them ([apply_event]), the keys, the samples of the target
    pool ([tui/targets.rs]) and the loop that drains the event channel.
    Instants and durations are nanoseconds, [u64] counters wrap as in a release
    build, rates are [f64]. *)
From stdpp Require Import base list numbers strings gmap sets.
From Stdlib Require Import ZArith Lia Sorted SpecFloat.
From coqutil Require Import Datatypes.RecordSetters.
From S2P Require Import Prelude Text NetAddr Flow Config Recovery Socket Events Scanner TargetPool.
Import DoubleBraceUpdate.
#[local] Existing Instance TargetPool.IpAddr_countable.
Local Open Scope string_scope.
Local Open Scope nat_scope.
Local Open Scope list_scope.

(** ** Rates *)
(** Of numbers: nothing here is NaN. *)
Definition f64_max (x y : f64) : f64 := if SFltb x y then y else x.
Definition f64_ge (x y : f64) : bool := SFleb y x.
Definition as_secs_f64 (d : Z) : f64 :=
  f64_add (f64_of_Z (d / 1000000000)) (f64_div (f64_of_Z (d mod 1000000000)) (f64_of_Z 1000000000)).
Definition f64_thousandth : f64 := f64_div (f64_of_Z 1) (f64_of_Z 1000).

Definition saturating_duration_since (t earlier : Z) : Z := Z.max 0 (t - earlier).
Definition saturating_sub (a b : Z) : Z := Z.max 0 (a - b).
Definition saturating_add (a b : Z) : Z := Z.min (2 ^ 64 - 1) (a + b).

(** ** Connections *)
Definition MAX_RECORDS : nat := 200.
Definition ACTIVE_RATE_BPS : f64 := f64_of_Z 50.
Definition NON_RELAYING_TOP_GRACE : Z := 4 * 1000000000.

Inductive TrafficDirection := Idle | Upload | Download | Bidirectional.
Inductive ConnStatus := StConnecting | StRelaying | StDone | StRotated | StFailed.
#[export] Instance ConnStatus_eq_dec : EqDecision ConnStatus.
Proof. solve_decision. Defined.

Definition traffic_direction (status : ConnStatus) (upload_bps download_bps : f64) : option TrafficDirection :=
  if negb (bool_decide (status = StRelaying)) then None else
  Some match f64_ge upload_bps ACTIVE_RATE_BPS, f64_ge download_bps ACTIVE_RATE_BPS with
  | true, true => Bidirectional
  | true, false => Upload
  | false, true => Download
  | false, false => Idle
  end.

Definition status_label (s : ConnStatus) : string :=
  match s with
  | StConnecting => "Connecting" | StRelaying => "Relaying" | StDone => "Done"
  | StRotated => "Rotated" | StFailed => "Failed"
  end.

Inductive FilterStatus := FilterAll | FilterActive | FilterDone | FilterFailed.
Definition filter_label (f : FilterStatus) : string :=
  match f with FilterAll => "All" | FilterActive => "Active" | FilterDone => "Done" | FilterFailed => "Failed" end.
Definition filter_next (f : FilterStatus) : FilterStatus :=
  match f with
  | FilterAll => FilterActive | FilterActive => FilterDone
  | FilterDone => FilterFailed | FilterFailed => FilterAll
  end.
Definition filter_matches (f : FilterStatus) (status : ConnStatus) : bool :=
  match f, status with
  | FilterAll, _ => true
  | FilterActive, (StConnecting | StRelaying) => true
  | FilterDone, (StDone | StRotated) => true
  | FilterFailed, StFailed => true
  | _, _ => false
  end.

Record RescanSummary := MkRescanSummary {
  rsm_found : nat; rsm_best_score : option Z; rsm_duration_ms : Z; rsm_switched : bool }.
Record LastError := MkLastError { le_src_port : Z; le_message : string; le_at : Z }.

Record ConnectionRecord := MkRecord {
  started_at : Z;                      (* wall clock *)
  start_instant : Z;
  end_instant : option Z;
  src_port : Z;
  peer : SocketAddr;
  cr_target_ip : IpAddr;
  cr_target_sni : option string;
  status : ConnStatus;
  status_changed_at : Z;
  c2s_bytes : Z;
  s2c_bytes : Z;
  rate_c2s_bps : f64;
  rate_s2c_bps : f64;
  last_snapshot : option (Z * Z * Z) }.

Definition is_active (r : ConnectionRecord) : bool :=
  match status r with StConnecting | StRelaying => true | _ => false end.
Definition set_status (s : ConnStatus) (now : Z) (r : ConnectionRecord) : ConnectionRecord :=
  if decide (status r = s) then r else r{{status := s; status_changed_at := now}}.

(** The indexed background colour of a row, if it has one. *)
Definition connection_row_style (r : ConnectionRecord) : option Z :=
  match status r with
  | StConnecting => Some 58%Z
  | StRelaying =>
      match traffic_direction (status r) (rate_c2s_bps r) (rate_s2c_bps r) with
      | Some Upload => Some 22%Z
      | Some Download => Some 24%Z
      | Some Bidirectional => Some 29%Z
      | Some Idle | None => None
      end
  | StFailed => Some 52%Z
  | StDone | StRotated => None
  end.

Definition connection_display_rank (now : Z) (r : ConnectionRecord) : nat :=
  if decide (status r = StRelaying) then 0
  else if (saturating_duration_since now (status_changed_at r) <? NON_RELAYING_TOP_GRACE)%Z then 1
  else 2.

(** Keys are a rank and the index, which ties never reach. *)
Definition ordered_connection_records (f : FilterStatus) (records : list ConnectionRecord) (now : Z)
    : list ConnectionRecord :=
  let filtered := filter (λ ir : nat * ConnectionRecord, filter_matches f (status ir.2) = true)
    (imap pair records) in
  let key (ir : nat * ConnectionRecord) := (connection_display_rank now ir.2, ir.1) in
  let le a b := (a.1 <? b.1) || (a.1 =? b.1) && (a.2 <=? b.2) in
  snd <$> sort_by (λ a b, le (key a) (key b)) filtered.

(** Without its last inactive record ([rposition], [remove]). *)
Fixpoint remove_last_inactive (records : list ConnectionRecord) : option (list ConnectionRecord) :=
  match records with
  | [] => None
  | r :: records =>
      match remove_last_inactive records with
      | Some records => Some (r :: records)
      | None => if is_active r then None else Some records
      end
  end.
Fixpoint prune (fuel : nat) (records : list ConnectionRecord) : list ConnectionRecord :=
  match fuel with
  | 0 => records
  | S fuel =>
      if MAX_RECORDS <? length records then
        match remove_last_inactive records with
        | Some records => prune fuel records
        | None => records
        end
      else records
  end.
Definition prune_connection_records (records : list ConnectionRecord) : list ConnectionRecord :=
  prune (length records) records.

Fixpoint find_record (port : Z) (records : list ConnectionRecord) : option ConnectionRecord :=
  match records with
  | [] => None
  | r :: records => if decide (src_port r = port) then Some r else find_record port records
  end.
(** What [find_record] finds, changed. *)
Fixpoint with_record (port : Z) (f : ConnectionRecord → ConnectionRecord)
    (records : list ConnectionRecord) : list ConnectionRecord :=
  match records with
  | [] => []
  | r :: records => if decide (src_port r = port) then f r :: records else r :: with_record port f records
  end.

Definition apply_relay_progress (p : RelayProgress) (sampled_at : Z) (r : ConnectionRecord)
    : ConnectionRecord :=
  let counted r := r{{c2s_bytes := rp_c2s_bytes p; s2c_bytes := rp_s2c_bytes p;
    last_snapshot := Some (sampled_at, rp_c2s_bytes p, rp_s2c_bytes p)}} in
  if negb (bool_decide (status r = StRelaying)) then r else
  match last_snapshot r with
  | Some (previous, c2s, s2c) =>
      if (sampled_at <=? previous)%Z then r else
      let seconds := f64_max (as_secs_f64 (sampled_at - previous)) f64_thousandth in
      counted (r{{rate_c2s_bps := f64_div (f64_of_Z (saturating_sub (rp_c2s_bytes p) c2s)) seconds;
                  rate_s2c_bps := f64_div (f64_of_Z (saturating_sub (rp_s2c_bytes p) s2c)) seconds}})
  | None => counted r
  end.

(** The loop of a batch: each entry goes to the newest relaying record of its
    port. *)
Fixpoint apply_batch (sampled_at : Z) (progress : gmap Z RelayProgress) (records : list ConnectionRecord)
    : list ConnectionRecord :=
  match records with
  | [] => []
  | r :: records =>
      if bool_decide (status r = StRelaying) then
        match progress !! src_port r with
        | Some p => apply_relay_progress p sampled_at r :: apply_batch sampled_at (delete (src_port r) progress) records
        | None => r :: apply_batch sampled_at progress records
        end
      else r :: apply_batch sampled_at progress records
  end.
Definition collect_progress (entries : list RelayProgress) : gmap Z RelayProgress :=
  foldl (λ m e, <[rp_src_port e := e]> m) ∅ entries.

(** ** Targets *)
Inductive DashboardView := Connections | Targets.

Definition SAMPLE_INTERVAL : Z := 500 * 1000000.
Record TargetRow := MkRow {
  row_snapshot : TargetPool.TargetSnapshot;
  upload_bps : f64; download_bps : f64; share : f64 }.
Record TargetsState := MkTargets {
  tg_strategy : SelectionStrategy;
  rows : list TargetRow;
  tg_scroll_offset : nat;
  sampled_at : option Z }.

Definition next_sample_in (t : TargetsState) (now : Z) : Z :=
  match sampled_at t with
  | Some last => saturating_sub SAMPLE_INTERVAL (saturating_duration_since now last)
  | None => 0
  end.

Definition row_key (r : TargetRow) : TargetPool.TargetKey := TargetPool.key (TargetPool.ts_target (row_snapshot r)).
Definition update_row (previous : gmap TargetPool.TargetKey (Z * Z)) (elapsed : f64) (active : Z)
    (target : TargetPool.TargetSnapshot) : TargetRow :=
  let '(up, down) :=
    match previous !! TargetPool.key (TargetPool.ts_target target) with
    | Some (up, down) =>
        if SFltb f64_zero elapsed then
          (f64_div (f64_of_Z (saturating_sub (TargetPool.ts_c2s_bytes target) up)) elapsed,
           f64_div (f64_of_Z (saturating_sub (TargetPool.ts_s2c_bytes target) down)) elapsed)
        else (f64_zero, f64_zero)
    | None => (f64_zero, f64_zero)
    end in
  MkRow target up down
    (if (active =? 0)%Z then f64_zero
     else f64_div (f64_mul (f64_of_Z (TargetPool.ts_active_connections target)) (f64_of_Z 100))
            (f64_of_Z active)).
Definition update (t : TargetsState) (strategy : SelectionStrategy)
    (targets : list TargetPool.TargetSnapshot) (now : Z) : TargetsState :=
  let previous := foldl (λ m r, <[row_key r :=
      (TargetPool.ts_c2s_bytes (row_snapshot r), TargetPool.ts_s2c_bytes (row_snapshot r))]> m) ∅ (rows t) in
  let elapsed := match sampled_at t with
    | Some last => as_secs_f64 (saturating_duration_since now last) | None => f64_zero end in
  let active := foldr wadd64 0%Z (TargetPool.ts_active_connections <$> targets) in
  let rows := update_row previous elapsed active <$> targets in
  MkTargets strategy rows (Nat.min (tg_scroll_offset t) (length rows - 1)) (Some now).
Definition refresh (t : TargetsState) (p : TargetPool.TargetPool) (now : Z) : bool * TargetsState :=
  if match sampled_at t with
     | Some last => (saturating_duration_since now last <? SAMPLE_INTERVAL)%Z | None => false end
  then (false, t)
  else (true, update t (TargetPool.strategy p) (TargetPool.snapshot p) now).
Definition stop (t : TargetsState) : TargetsState :=
  t{{rows ::= fmap (λ r, r{{upload_bps := f64_zero; download_bps := f64_zero}})}}.

Definition membership (target : TargetPool.TargetSnapshot) : string :=
  match TargetPool.ts_rank target with
  | Some _ => "In pool"
  | None => if (0 <? TargetPool.ts_active_connections target)%Z then "Draining" else "Retired"
  end.
Definition ping_label (target : TargetPool.TargetSnapshot) : string :=
  match TargetPool.ts_ping target, TargetPool.ts_ping_source target with
  | Some ping, source =>
      show_int (ping / 1000000) +:+ "ms " +:+ match source with TargetPool.Scan => "Scan" | TargetPool.Live => "Live" end
  | None, TargetPool.Live => "failed Live"
  | None, TargetPool.Scan => "unknown Scan"
  end.

(** ** The state *)
Record DashboardState := MkDashboard {
  reload_status : option string;
  view : DashboardView;
  targets : TargetsState;
  target_pool : option (nat * SelectionStrategy);
  records : list ConnectionRecord;             (* newest first *)
  total_connections : Z;                       (* [total] *)
  bypasses_ok : Z;
  bypasses_failed : Z;
  active : Z;
  total_c2s : Z;
  total_s2c : Z;
  scroll_offset : nat;
  auto_scroll : bool;
  filter_status : FilterStatus;                (* [filter] *)
  active_sni : option (string * Z * Z);
  active_ip : option IpAddr;
  low_ttl : option Z;
  rescan_running : bool;
  next_rescan_at : option Z;
  peak_active : Z;
  target_switches : Z;
  last_switch_at : option Z;
  rescan_count : Z;
  last_rescan : option RescanSummary;
  rescan_started_at : option Z;
  last_error : option LastError;
  network_status : option string;
  active_ip_score : option Z;
  listener : option (string * SocketAddr);
  start : Z;
  channel_closed : bool }.

(** What [run_dashboard] starts with. *)
Definition dashboard_new (notice : option string) (sni : option (string * Z * Z)) (ip : option IpAddr)
    (now : Z) : DashboardState :=
  {| reload_status := notice; view := Connections; targets := MkTargets RoundRobin [] 0 None;
     target_pool := None; records := []; total_connections := 0; bypasses_ok := 0; bypasses_failed := 0;
     active := 0; total_c2s := 0; total_s2c := 0; scroll_offset := 0; auto_scroll := true;
     filter_status := FilterAll; active_sni := sni; active_ip := ip; low_ttl := None;
     rescan_running := false; next_rescan_at := None; peak_active := 0; target_switches := 0;
     last_switch_at := None; rescan_count := 0; last_rescan := None; rescan_started_at := None;
     last_error := None; network_status := None; active_ip_score := None; listener := None;
     start := now; channel_closed := false |}.

Definition accept (client : SocketAddr) (port : Z) (ip : IpAddr) (sni : option string) (now wall : Z)
    : ConnectionRecord :=
  {| started_at := wall; start_instant := now; end_instant := None; src_port := port; peer := client;
     cr_target_ip := ip; cr_target_sni := sni; status := StConnecting; status_changed_at := now;
     c2s_bytes := 0; s2c_bytes := 0; rate_c2s_bps := f64_zero; rate_s2c_bps := f64_zero;
     last_snapshot := None |}.
Definition end_with (s : ConnStatus) (now : Z) (r : ConnectionRecord) : ConnectionRecord :=
  (set_status s now r){{end_instant := Some now}}.
Definition finish_record (s : ConnStatus) (c2s s2c now : Z) (r : ConnectionRecord) : ConnectionRecord :=
  (set_status s now r){{c2s_bytes := c2s; s2c_bytes := s2c; rate_c2s_bps := f64_zero;
    rate_s2c_bps := f64_zero; end_instant := Some now}}.
Definition end_status (reason : RelayEndReason) : ConnStatus :=
  match reason with Completed => StDone | MaxLifetime => StRotated | NetworkError => StFailed end.
Definition network_text (s : ProxyNetworkStatus) : string :=
  match s with
  | PsOnline ip => show_ipv4 ip
  | PsChanging ip => "changing to " +:+ show_ipv4 ip
  | PsRecovering attempt => "recovering (attempt " +:+ show_int attempt +:+ ")"
  | PsUnavailable message => "unavailable (" +:+ message +:+ ")"
  end.

(** The events of connections. *)
Definition apply_connection (e : ProxyEvent) (now wall : Z) (s : DashboardState) : DashboardState :=
  match e with
  | ConnectionAccepted client port ip sni =>
      let active' := wadd64 (active s) 1 in
      s{{total_connections := wadd64 (total_connections s) 1; active := active';
         peak_active := Z.max (peak_active s) active';
         records ::= cons (accept client port ip sni now wall)}}
  | BypassComplete port FakeDataAcked =>
      s{{bypasses_ok := wadd64 (bypasses_ok s) 1; records ::= with_record port (set_status StRelaying now)}}
  | BypassComplete port UnexpectedClose =>
      s{{bypasses_failed := wadd64 (bypasses_failed s) 1; active := saturating_sub (active s) 1;
         records ::= with_record port (end_with StFailed now)}}
  | RelayFinished port c2s s2c reason =>
      s{{active := saturating_sub (active s) 1; total_c2s := wadd64 (total_c2s s) c2s;
         total_s2c := wadd64 (total_s2c s) s2c;
         records ::= with_record port (finish_record (end_status reason) c2s s2c now)}}
  | ConnectionError port error =>
      s{{last_error := Some (MkLastError port error wall);
         bypasses_failed := wadd64 (bypasses_failed s) 1; active := saturating_sub (active s) 1;
         records ::= with_record port (end_with StFailed now)}}
  end.

(** [now] and [wall] are read once at most. *)
Definition apply (e : Event) (now wall : Z) (s : DashboardState) : DashboardState :=
  match e with
  | OfConnection e => apply_connection e now wall s
  | TargetPoolUpdated count strategy => s{{target_pool := Some (count, strategy)}}
  | ListenerStarted mode addr => s{{listener := Some (mode, addr)}}
  | RelayProgressOne p => s{{records ::= with_record (rp_src_port p) (apply_relay_progress p now)}}
  | RelayProgressBatch t entries => s{{records ::= apply_batch t (collect_progress entries)}}
  | NetworkStatusChanged status => s{{network_status := Some (network_text status)}}
  | SniTargetChanged sni ip score =>
      let changed := bool_decide (fst <$> active_sni s ≠ Some (sni, ip)) in
      let s := s{{active_sni := Some (sni, ip, score)}} in
      if changed then s{{target_switches := wadd64 (target_switches s) 1; last_switch_at := Some now}} else s
  | IpTargetChanged ip score =>
      let changed := bool_decide (active_ip s ≠ Some ip) in
      let s := s{{active_ip := Some ip; active_ip_score := Some score}} in
      if changed then s{{target_switches := wadd64 (target_switches s) 1; last_switch_at := Some now}} else s
  | LowTtlDiscovered value => s{{low_ttl := Some value}}
  | NextRescanScheduled _ secs => s{{next_rescan_at := Some (now + secs * 1000000000)%Z}}
  | RescanStarted _ => s{{rescan_running := true; rescan_started_at := Some now}}
  | RescanFinished _ found best duration_ms switched =>
      s{{rescan_running := false; rescan_started_at := None; rescan_count := wadd64 (rescan_count s) 1;
         last_rescan := Some (MkRescanSummary found best duration_ms switched)}}
  end.
Definition apply_event (e : Event) (now wall : Z) (s : DashboardState) : DashboardState :=
  (apply e now wall s){{records ::= prune_connection_records}}.

(** ** What it shows *)
Definition live_transfer_totals (s : DashboardState) : Z * Z :=
  let live := filter (λ r, end_instant r = None) (records s) in
  (saturating_add (total_c2s s) (foldr wadd64 0%Z (c2s_bytes <$> live)),
   saturating_add (total_s2c s) (foldr wadd64 0%Z (s2c_bytes <$> live))).
Definition aggregate_throughput (records : list ConnectionRecord) : f64 * f64 :=
  foldl (λ t r, if bool_decide (status r = StRelaying) then
           (f64_add t.1 (rate_c2s_bps r), f64_add t.2 (rate_s2c_bps r)) else t)
    (f64_zero, f64_zero) records.

(** Whether [rescan_status_line] has a line. *)
Definition has_rescan_status_line (s : DashboardState) : bool :=
  rescan_running s || negb (is_none (next_rescan_at s)).
Definition header_content_rows (s : DashboardState) : nat :=
  let one b := if b : bool then 1 else 0 in
  2 + one (has_rescan_status_line s) + one (negb (is_none (target_pool s))) +
  one (negb (is_none (network_status s))) + one (negb (is_none (last_error s))) +
  one (negb (is_none (reload_status s))).
Definition fixed_dashboard_rows (s : DashboardState) : nat := header_content_rows s + 3 + 4 + 3 + 1 + 2.

Definition two_digits (n : Z) : string := (if (n <? 10)%Z then "0" else "") +:+ show_int n.
Definition fmt_time (secs : Z) : string :=
  two_digits ((secs / 3600) mod 24) +:+ ":" +:+ two_digits ((secs / 60) mod 60) +:+ ":" +:+ two_digits (secs mod 60).
Definition fmt_uptime (d : Z) : string :=
  let secs := (d / 1000000000)%Z in
  let h := (secs / 3600)%Z in let m := (secs mod 3600 / 60)%Z in let s := (secs mod 60)%Z in
  if (0 <? h)%Z then show_int h +:+ "h " +:+ show_int m +:+ "m " +:+ show_int s +:+ "s"
  else if (0 <? m)%Z then show_int m +:+ "m " +:+ show_int s +:+ "s"
  else show_int s +:+ "s".
Definition fmt_ago (d : Z) : string :=
  let secs := (d / 1000000000)%Z in
  if (secs <? 60)%Z then show_int secs +:+ "s ago"
  else if (secs <? 3600)%Z then show_int (secs / 60) +:+ "m ago"
  else show_int (secs / 3600) +:+ "h ago".

(** ** Keys *)
Inductive KeyCode := KeyChar (c : string) | KeyTab | KeyUp | KeyDown | KeyPageUp | KeyPageDown | KeyHome | KeyEnd | KeyEsc | KeyOther.
#[export] Instance KeyCode_eq_dec : EqDecision KeyCode.
Proof. solve_decision. Defined.

(** The new offset, if the key moves it. *)
Definition moved (key : KeyCode) (offset len page : nat) : option nat :=
  match key with
  | KeyUp => Some (offset - 1)
  | KeyDown => Some (Nat.min (offset + 1) (len - 1))
  | KeyPageUp => Some (offset - page)
  | KeyPageDown => Some (Nat.min (offset + page) (len - 1))
  | KeyHome => Some 0
  | KeyEnd => Some (len - 1)
  | KeyChar c =>
      if str_mem c ["k"] then Some (offset - 1)
      else if str_mem c ["j"] then Some (Nat.min (offset + 1) (len - 1)) else None
  | _ => None
  end.
Definition handle_dashboard_navigation (key : KeyCode) (len page : nat) (s : DashboardState) : DashboardState :=
  let pressed c := bool_decide (key = KeyChar c) in
  match view s with
  | Connections =>
      if pressed "v" || pressed "V" then s{{view := Targets}}
      else if bool_decide (key = KeyTab) then s{{filter_status ::= filter_next; scroll_offset := 0}}
      else if pressed " " || pressed "a" then
        let s := s{{auto_scroll ::= negb}} in
        if auto_scroll s then s{{scroll_offset := 0}} else s
      else match moved key (scroll_offset s) len page with
        | Some offset =>
            let s := if bool_decide (key = KeyHome) then s else s{{auto_scroll := false}} in
            s{{scroll_offset := offset}}
        | None => s
        end
  | Targets =>
      if pressed "v" || pressed "V" then s{{view := Connections}}
      else if bool_decide (key = KeyTab) || pressed " " || pressed "a" then s
      else match moved key (tg_scroll_offset (targets s)) len page with
        | Some offset => s{{targets := (targets s){{tg_scroll_offset := offset}}}}
        | None => s
        end
  end.

(** The reload key; [candidate] is [Reload.candidate] on what it finds. *)
Definition handle_reload_key (candidate : option Config → option Config + string) (key : KeyCode)
    (cfg : Config) (scan_busy : bool) (s : DashboardState) : option Config * DashboardState :=
  if negb (bool_decide (key = KeyChar "l") || bool_decide (key = KeyChar "L")) then (None, s)
  else if rescan_running s || scan_busy then
    (None, s{{reload_status := Some "Config reload busy: wait for the current scan"}})
  else match candidate (if channel_closed s then None else Some cfg) with
  | inl (Some next) => (Some next, s{{reload_status := Some "Reloading config; closing current connections..."}})
  | inl None => (None, s{{reload_status := Some "Config unchanged"}})
  | inr error => (None, s{{reload_status := Some ("Config reload failed: " +:+ error)}})
  end.

(** ** The loop's first half: everything available is applied *)
Fixpoint drain (fuel : nat) (now wall : Z) (c : Channel) (s : DashboardState)
    : option (Channel * DashboardState) :=
  match fuel with
  | 0 => None
  | S fuel =>
      match try_recv now c with
      | (Received e, c) => drain fuel now wall c (apply_event e now wall s)
      | (NothingYet, c) => Some (c, s)
      | (Disconnected, c) => Some (c, s{{channel_closed := true}})
      end
  end.
(** A turn of the loop up to its drawing: [selection] is the result of a rescan's
    selection screen if there was one; the pool is looked at from time to time. *)
Definition selection_failed (selection : option (option string)) (wall : Z) (s : DashboardState) : DashboardState :=
  match selection with
  | Some (Some error) => s{{last_error := Some (MkLastError 0 ("rescan selection: " +:+ error) wall)}}
  | _ => s
  end.
Definition sample_targets (load_balance : bool) (p : TargetPool.TargetPool) (now : Z) (s : DashboardState)
    : DashboardState :=
  let '(fresh, t) := refresh (targets s) p now in
  let s := s{{targets := t}} in
  if fresh && load_balance then
    s{{target_pool := Some (length (filter (λ r, is_Some (TargetPool.ts_rank (row_snapshot r))) (rows t)), tg_strategy t)}}
  else s.
Definition dashboard_turn (fuel : nat) (cfg : Config) (p : TargetPool.TargetPool)
    (selection : option (option string)) (now wall : Z) (c : Channel) (s : DashboardState)
    : option (Channel * DashboardState) :=
  let got_event := negb (channel_closed s) && match try_recv now c with (Received _, _) => true | _ => false end in
  '(c, s) ← (if channel_closed s then Some (c, s) else drain fuel now wall c s);
  let s := selection_failed selection wall s in
  let s := match view s with
    | Connections => if auto_scroll s && got_event then s{{scroll_offset := 0}} else s
    | Targets => s
    end in
  let s := sample_targets (LOAD_BALANCE_ENABLED cfg) p now s in
  Some (c, if channel_closed s then s{{targets ::= stop}} else s).

Inductive DashboardExit := Quit | ExitReload (cfg : Config).
(** A key is pressed; [accepted] is whether the rescan task takes the request. *)
Definition dashboard_key (candidate : option Config → option Config + string) (key : KeyCode) (control : bool)
    (cfg : Config) (scan_busy accepted : bool) (height width : nat) (now : Z) (s : DashboardState)
    : option DashboardExit * DashboardState :=
  let len := match view s with
    | Connections => length (filter (λ r, filter_matches (filter_status s) (status r) = true) (records s))
    | Targets => length (rows (targets s))
    end in
  let page := Nat.max 1 ((height - fixed_dashboard_rows s) / (if 140 <=? width then 1 else 2)) in
  match key with
  | KeyChar c =>
      if str_mem c ["l"; "L"] then
        let '(next, s) := handle_reload_key candidate key cfg scan_busy s in (ExitReload <$> next, s)
      else if str_mem c ["r"; "R"] && negb (rescan_running s) && negb (channel_closed s) then
        (None, if accepted then s{{rescan_running := true; rescan_started_at := Some now}} else s)
      else if str_mem c ["q"; "Q"] then (Some Quit, s)
      else if str_mem c ["c"] && control then (Some Quit, s)
      else (None, handle_dashboard_navigation key len page s)
  | KeyEsc => (Some Quit, s)
  | _ => (None, handle_dashboard_navigation key len page s)
  end.

(** ** The connections a dashboard should show

    A ledger of the open connections by port, kept with unbounded counters. *)
Inductive Phase := Opening | Relayed.
Record Ledger := MkLedger {
  opened : gmap Z Phase; most : Z; accepted : Z; passed : Z; failed : Z; sent_up : Z; sent_down : Z }.

Definition ledger_step (e : ProxyEvent) (l : Ledger) : Ledger :=
  match e with
  | ConnectionAccepted _ p _ _ =>
      let o := <[p := Opening]> (opened l) in
      l{{opened := o; most := Z.max (most l) (Z.of_nat (size o)); accepted ::= Z.succ}}
  | BypassComplete p FakeDataAcked => l{{opened ::= insert p Relayed; passed ::= Z.succ}}
  | BypassComplete p UnexpectedClose | ConnectionError p _ => l{{opened ::= delete p; failed ::= Z.succ}}
  | RelayFinished p c2s s2c _ => l{{opened ::= delete p; sent_up ::= Z.add c2s; sent_down ::= Z.add s2c}}
  end.
(** Ports are taken when they are free, and connections end once. *)
Definition disciplined (e : ProxyEvent) (l : Ledger) : Prop :=
  match e with
  | ConnectionAccepted _ p _ _ => is_u16 p ∧ opened l !! p = None
  | BypassComplete p FakeDataAcked => opened l !! p = Some Opening
  | BypassComplete p UnexpectedClose | ConnectionError p _ | RelayFinished p _ _ _ => is_Some (opened l !! p)
  end.
Definition ledger_event (e : Event) (l : Ledger) : Ledger :=
  match e with OfConnection e => ledger_step e l | _ => l end.
Definition ledger_new : Ledger := MkLedger ∅ 0 0 0 0 0 0.
(** All events, each with the times it is applied at. *)
Fixpoint disciplined_all (es : list (Event * (Z * Z))) (l : Ledger) : Prop :=
  match es with
  | [] => True
  | (e, _) :: es => match e with OfConnection e => disciplined e l | _ => True end ∧ disciplined_all es (ledger_event e l)
  end.
Definition apply_all (es : list (Event * (Z * Z))) (s : DashboardState) : DashboardState :=
  foldl (λ s e, apply_event e.1 e.2.1 e.2.2 s) s es.
Definition ledger_all (es : list (Event * (Z * Z))) (l : Ledger) : Ledger := foldl (λ l e, ledger_event e.1 l) l es.

(** ** The log *)
Definition phase_of (r : ConnectionRecord) : option Phase :=
  match status r with StConnecting => Some Opening | StRelaying => Some Relayed | _ => None end.
Definition shown (rs : list ConnectionRecord) : gmap Z Phase :=
  list_to_map (omap (λ r, pair (src_port r) <$> phase_of r) rs).
(** Records behind another one of their port are of ended connections. *)
Definition newest_open : list ConnectionRecord → Prop :=
  StronglySorted (λ r r', src_port r' = src_port r → is_active r' = false).
Definition ends_marked (r : ConnectionRecord) : Prop := end_instant r = None ↔ is_active r = true.
Definition same_outline (r r' : ConnectionRecord) : Prop :=
  src_port r = src_port r' ∧ status r = status r' ∧ end_instant r = end_instant r'.

Lemma is_active_phase r : is_active r = true ↔ is_Some (phase_of r).
Proof. unfold is_active, phase_of. destruct (status r); (split; [|intros [? [=]]]); (done || eauto). Qed.
Lemma inactive_phase r : is_active r = false → phase_of r = None.
Proof. unfold is_active, phase_of. by destruct (status r). Qed.

Lemma shown_cons r rs : shown (r :: rs) =
  match phase_of r with Some ph => <[src_port r := ph]> (shown rs) | None => shown rs end.
Proof. unfold shown. cbn. by destruct (phase_of r). Qed.

Lemma shown_app_inactive l r rs : is_active r = false → shown (l ++ r :: rs) = shown (l ++ rs).
Proof.
  intros Hr%inactive_phase. induction l as [|x l IH]; cbn [app]; rewrite shown_cons; [by rewrite Hr|].
  rewrite (shown_cons x (l ++ rs)). by rewrite IH.
Qed.

Lemma shown_behind r rs : newest_open (r :: rs) → shown rs !! src_port r = None.
Proof.
  intros [_ Hf]%StronglySorted_inv. induction rs as [|r' rs IH]; [done|]. apply Forall_cons in Hf as [Hr Hf].
  rewrite shown_cons. destruct (phase_of r') as [ph|] eqn:Ep; [|auto].
  destruct (decide (src_port r' = src_port r)) as [Hp|Hp]; [|by rewrite lookup_insert_ne; auto].
  apply Hr, inactive_phase in Hp. congruence.
Qed.

Lemma shown_with_record p f rs ph : newest_open rs → shown rs !! p = Some ph →
  (∀ r, src_port (f r) = src_port r) →
  ∃ l r rs', rs = l ++ r :: rs' ∧ with_record p f rs = l ++ f r :: rs' ∧ src_port r = p ∧ phase_of r = Some ph ∧
    newest_open (with_record p f rs) ∧
    shown (with_record p f rs) =
      match phase_of (f r) with Some ph' => <[p := ph']> (shown rs) | None => delete p (shown rs) end.
Proof.
  intros Hs Hp Hf. induction rs as [|r rs IH]; [done|]. cbn [with_record].
  pose proof (StronglySorted_inv Hs) as [Hs' Hr]. pose proof (shown_behind _ _ Hs) as Hb. rewrite shown_cons in Hp.
  destruct (decide (src_port r = p)) as [<-|Hne].
  - destruct (phase_of r) as [ph'|] eqn:Er; [|congruence]. rewrite lookup_insert_eq in Hp. injection Hp as ->.
    exists [], r, rs. split_and!; try done.
    + constructor; [done|]. eapply Forall_impl; [exact Hr|]. cbn. by rewrite Hf.
    + rewrite !shown_cons, Er, Hf. destruct (phase_of (f r)); [by rewrite insert_insert_eq|].
      by rewrite delete_insert_id.
  - destruct (IH Hs') as (l & r' & rs' & -> & Ew & Hp' & Hph & Hn & Hsh).
    { by destruct (phase_of r); rewrite ?lookup_insert_ne in Hp. }
    exists (r :: l), r', rs'. split_and!; [done|by rewrite Ew|done|done| |].
    + constructor; [done|]. rewrite Ew. apply Forall_app in Hr as [Hr1 [_ Hr2]%Forall_cons].
      apply Forall_app. split; [done|]. constructor; [|done]. rewrite Hf. congruence.
    + rewrite !shown_cons, Hsh. destruct (phase_of r), (phase_of (f r')); try done;
        [by rewrite insert_insert_ne by congruence|by rewrite delete_insert_ne by congruence].
Qed.

Lemma outline_shown rs rs' : Forall2 same_outline rs rs' → shown rs = shown rs'.
Proof.
  induction 1 as [|r r' rs rs' (Hp & Hs & _) _ IH]; [done|]. rewrite !shown_cons, IH, Hp.
  unfold phase_of. by rewrite Hs.
Qed.
Lemma outline_newest rs rs' : Forall2 same_outline rs rs' → newest_open rs → newest_open rs'.
Proof.
  induction 1 as [|r r' rs rs' (Hp & Hs & _) Hf IH]; [done|]. intros [H1 H2]%StronglySorted_inv.
  constructor; [by apply IH|]. apply Forall_forall. intros x Hx Hpx.
  apply list_elem_of_lookup in Hx as [i Hi]. destruct (Forall2_lookup_r _ _ _ _ _ Hf Hi) as (y & Hy & Ey1 & Ey2 & _).
  rewrite Forall_lookup in H2. specialize (H2 _ _ Hy). unfold is_active in *. rewrite <-Ey2. apply H2. congruence.
Qed.
Lemma outline_marked rs rs' : Forall2 same_outline rs rs' → Forall ends_marked rs → Forall ends_marked rs'.
Proof.
  induction 1 as [|r r' rs rs' (Hp & Hs & He) Hf IH]; [done|]. intros [H1 H2]%Forall_cons.
  constructor; [|auto]. unfold ends_marked, is_active in *. by rewrite <-Hs, <-He.
Qed.

(** *** Pruning *)
Lemma remove_last_inactive_spec rs : 
  match remove_last_inactive rs with
  | Some rs' => ∃ l r l', rs = l ++ r :: l' ∧ rs' = l ++ l' ∧ is_active r = false
  | None => Forall (λ r, is_active r = true) rs
  end.
Proof.
  induction rs as [|r rs IH]; cbn [remove_last_inactive]; [done|].
  destruct (remove_last_inactive rs) as [rs'|].
  - destruct IH as (l & r' & l' & -> & -> & Hr). by exists (r :: l), r', l'.
  - destruct (is_active r) eqn:Er; [by constructor|]. by exists [], r, rs.
Qed.

Lemma newest_sublist rs rs' : rs' `sublist_of` rs → newest_open rs → newest_open rs'.
Proof.
  induction 1 as [|r rs' rs Hsub IH|r rs' rs Hsub IH]; intros Hs; [done|..];
    apply StronglySorted_inv in Hs as [Hs Hf]; [|by apply IH].
  constructor; [by apply IH|]. rewrite Forall_forall in *. intros x Hx. apply Hf. by eapply elem_of_sublist.
Qed.

Lemma prune_spec fuel : ∀ rs, length rs ≤ fuel → let rs' := prune fuel rs in
  shown rs' = shown rs ∧ rs' `sublist_of` rs ∧
  (length rs' ≤ MAX_RECORDS ∨ Forall (λ r, is_active r = true) rs') ∧
  (length rs ≤ MAX_RECORDS → rs' = rs) ∧
  filter (λ r, is_active r = true) rs' = filter (λ r, is_active r = true) rs.
Proof.
  induction fuel as [|fuel IH]; intros rs Hl; cbn [prune].
  { destruct rs; [|cbn in Hl; lia]. split_and!; try done. left. cbn. lia. }
  destruct (Nat.ltb_spec MAX_RECORDS (length rs)) as [Hn|Hn]; [|by split_and!; auto].
  pose proof (remove_last_inactive_spec rs) as Hr. destruct (remove_last_inactive rs) as [rs'|].
  - destruct Hr as (l & r & l' & -> & -> & Hr). rewrite length_app in Hl, Hn. cbn in Hl, Hn.
    destruct (IH (l ++ l')) as (H1 & H2 & H3 & H4 & H5); [rewrite length_app; lia|].
    split_and!; [by rewrite H1, shown_app_inactive| |done|rewrite length_app; cbn; lia|].
    + etrans; [exact H2|]. apply sublist_app; [done|]. by apply sublist_cons.
    + rewrite H5, !filter_app, filter_cons_False; [done|]. by rewrite Hr.
  - split_and!; auto; lia.
Qed.

(** *** The log follows the open connections *)
#[local] Arguments prune_connection_records : simpl never.
#[local] Arguments wadd64 : simpl never.
Definition log_ok (o : gmap Z Phase) (rs : list ConnectionRecord) : Prop :=
  shown rs = o ∧ newest_open rs ∧ Forall ends_marked rs.

Lemma shown_none p rs : shown rs !! p = None → Forall (λ r, src_port r = p → is_active r = false) rs.
Proof.
  induction rs as [|r rs IH]; [done|]. rewrite shown_cons. intros H. constructor.
  - intros <-. unfold is_active, phase_of in *. destruct (status r); by rewrite ?lookup_insert_eq in H.
  - destruct (phase_of r); [|auto]. apply lookup_insert_None in H as [H _]. auto.
Qed.

Lemma log_accept o rs client p ip sni now wall : log_ok o rs → o !! p = None →
  log_ok (<[p := Opening]> o) (accept client p ip sni now wall :: rs).
Proof.
  intros (<- & Hn & Hm) Hp. split; [by rewrite shown_cons|]. split.
  - constructor; [done|]. by apply shown_none in Hp.
  - by constructor.
Qed.

Lemma log_update o rs p f ph ph' : log_ok o rs → o !! p = Some ph → (∀ r, src_port (f r) = src_port r) →
  (∀ r, ends_marked r → phase_of r = Some ph → ends_marked (f r) ∧ phase_of (f r) = ph') →
  log_ok (match ph' with Some q => <[p := q]> o | None => delete p o end) (with_record p f rs).
Proof.
  intros (<- & Hn & Hm) Hp Hport Hf.
  destruct (shown_with_record p f rs ph Hn Hp Hport) as (l & r & rs' & -> & Ew & _ & Hph & Hn' & Hsh).
  apply Forall_app in Hm as [Hm1 [Hm2 Hm3]%Forall_cons]. destruct (Hf r Hm2 Hph) as [Hf1 Hf2].
  split; [by rewrite Hsh, Hf2|]. split; [done|]. rewrite Ew. apply Forall_app. split; [done|]. by constructor.
Qed.

Lemma log_outline o rs rs' : Forall2 same_outline rs rs' → log_ok o rs → log_ok o rs'.
Proof.
  intros Hf (<- & Hn & Hm). split; [by rewrite (outline_shown _ _ Hf)|].
  split; [by eapply outline_newest|by eapply outline_marked].
Qed.

Lemma log_prune o rs : log_ok o rs → log_ok o (prune_connection_records rs).
Proof.
  intros (<- & Hn & Hm). unfold prune_connection_records.
  destruct (prune_spec (length rs) rs) as (H1 & H2 & _); [done|]. split; [done|].
  split; [by eapply newest_sublist|]. rewrite Forall_forall in *. intros x Hx. apply Hm. by eapply elem_of_sublist.
Qed.

Lemma same_outline_refl rs : Forall2 same_outline rs rs.
Proof. by induction rs; constructor. Qed.
Lemma progress_outline p t r : same_outline r (apply_relay_progress p t r).
Proof. unfold apply_relay_progress. repeat case_match; done. Qed.
Lemma with_record_outline p f rs : (∀ r, same_outline r (f r)) → Forall2 same_outline rs (with_record p f rs).
Proof.
  intros Hf. induction rs as [|r rs IH]; cbn; [done|].
  case_decide; constructor; auto using same_outline_refl. done.
Qed.
Lemma batch_outline t rs : ∀ m, Forall2 same_outline rs (apply_batch t m rs).
Proof.
  induction rs as [|r rs IH]; intros m; cbn; [done|].
  repeat case_match; constructor; auto using progress_outline; done.
Qed.

Lemma ports_bounded (o : gmap Z Phase) : (∀ p, is_Some (o !! p) → is_u16 p) → (Z.of_nat (size o) ≤ 65536)%Z.
Proof.
  intros Ho. rewrite <-size_dom. assert (dom o ⊆ list_to_set (C := gset Z) (seqZ 0 65536)) as Hs.
  { intros p [ph Hp]%elem_of_dom. apply elem_of_list_to_set, elem_of_seqZ. destruct (Ho p); [by eexists|]. lia. }
  apply subseteq_size in Hs. rewrite size_list_to_set, length_seqZ in Hs by apply NoDup_seqZ. lia.
Qed.

Record tracks (l : Ledger) (s : DashboardState) : Prop := {
  tk_log : log_ok (opened l) (records s);
  tk_ports : ∀ p, is_Some (opened l !! p) → is_u16 p;
  tk_active : active s = Z.of_nat (size (opened l));
  tk_peak : peak_active s = most l;
  tk_total : total_connections s = (accepted l `mod` 2 ^ 64)%Z;
  tk_ok : bypasses_ok s = (passed l `mod` 2 ^ 64)%Z;
  tk_failed : bypasses_failed s = (failed l `mod` 2 ^ 64)%Z;
  tk_c2s : total_c2s s = (sent_up l `mod` 2 ^ 64)%Z;
  tk_s2c : total_s2c s = (sent_down l `mod` 2 ^ 64)%Z }.

Lemma set_status_phase st now r : phase_of (set_status st now r) = phase_of (r{{status := st}}).
Proof. unfold set_status. case_decide as H; [|done]. unfold phase_of. by rewrite H. Qed.
Lemma set_status_port st now r : src_port (set_status st now r) = src_port r.
Proof. unfold set_status. by case_decide. Qed.
Lemma set_status_end st now r : end_instant (set_status st now r) = end_instant r.
Proof. unfold set_status. by case_decide. Qed.

Lemma relaying_marked now r : ends_marked r → phase_of r = Some Opening →
  ends_marked (set_status StRelaying now r) ∧ phase_of (set_status StRelaying now r) = Some Relayed.
Proof.
  intros Hm Hp. rewrite set_status_phase. split; [|done]. unfold ends_marked. rewrite set_status_end, is_active_phase, set_status_phase.
  destruct Hm as [Hm1 Hm2]. assert (is_active r = true) as Ha by (apply is_active_phase; by rewrite Hp).
  split; intros _; [by eexists|auto].
Qed.
Lemma ended_marked st now r : phase_of (r{{status := st}}) = None →
  ends_marked (end_with st now r) ∧ phase_of (end_with st now r) = None.
Proof.
  intros Hp. assert (phase_of (end_with st now r) = None) as Hn by (by rewrite <-Hp, <-(set_status_phase _ now)).
  split; [|done]. unfold ends_marked. rewrite is_active_phase, Hn. split; [done|by intros [? [=]]].
Qed.
Lemma finished_marked reason c2s s2c now r :
  ends_marked (finish_record (end_status reason) c2s s2c now r) ∧
  phase_of (finish_record (end_status reason) c2s s2c now r) = None.
Proof.
  destruct (ended_marked (end_status reason) now r) as [H1 H2]; [by destruct reason|]. by split.
Qed.

Lemma log_opened l s p f ph ph' : tracks l s → opened l !! p = Some ph → (∀ r, src_port (f r) = src_port r) →
  (∀ r, ends_marked r → phase_of r = Some ph → ends_marked (f r) ∧ phase_of (f r) = ph') →
  log_ok (match ph' with Some q => <[p := q]> (opened l) | None => delete p (opened l) end)
    (prune_connection_records (with_record p f (records s))).
Proof. intros Ht Hp Hf Hm. apply log_prune. eapply log_update; [apply Ht|done..]. Qed.

Lemma active_end l s p : tracks l s → is_Some (opened l !! p) →
  saturating_sub (active s) 1 = Z.of_nat (size (delete p (opened l))) ∧
  (∀ q, is_Some (delete p (opened l) !! q) → is_u16 q).
Proof.
  intros Ht [ph Hp]. split.
  - rewrite (tk_active _ _ Ht), map_size_delete, Hp. assert (size (opened l) ≠ 0).
    { rewrite map_size_ne_0_lookup. exists p. by rewrite Hp. }
    unfold saturating_sub. lia.
  - intros q [x [_ Hq]%lookup_delete_Some]. apply (tk_ports _ _ Ht). by rewrite Hq.
Qed.

Lemma wadd64_succ n : wadd64 (n `mod` 2 ^ 64) 1 = (Z.succ n `mod` 2 ^ 64)%Z.
Proof. unfold wadd64. by rewrite Zplus_mod_idemp_l. Qed.
Lemma wadd64_mod n k : wadd64 (n `mod` 2 ^ 64) k = ((k + n) `mod` 2 ^ 64)%Z.
Proof. unfold wadd64. by rewrite Zplus_mod_idemp_l, Z.add_comm. Qed.

Lemma log_ended l s p f : tracks l s → is_Some (opened l !! p) → (∀ r, src_port (f r) = src_port r) →
  (∀ r, ends_marked (f r) ∧ phase_of (f r) = None) →
  log_ok (delete p (opened l)) (prune_connection_records (with_record p f (records s))) ∧
  (∀ q, is_Some (delete p (opened l) !! q) → is_u16 q) ∧
  saturating_sub (active s) 1 = Z.of_nat (size (delete p (opened l))).
Proof.
  intros Ht Hp Hf Hm. destruct (active_end l s p Ht Hp) as [He Hq]. destruct Hp as [ph Hp].
  split; [|done]. eapply (log_opened l s p _ ph None); [done..|]. intros r _ _. apply Hm.
Qed.

Lemma tracks_connection l s e now wall : tracks l s → disciplined e l →
  tracks (ledger_step e l) (apply_event (OfConnection e) now wall s).
Proof.
  intros Ht Hd. pose proof Ht as [Hlog Hports Ha Hpk Ht1 Ht2 Ht3 Ht4 Ht5].
  destruct e as [client p ip sni|p []|p c2s s2c reason|p error]; cbn [disciplined ledger_step] in *.
  - destruct Hd as [Hp Hnone]. assert (∀ q, is_Some (<[p := Opening]> (opened l) !! q) → is_u16 q) as Hports'.
    { intros q [x [[<- _]|[_ Hq]]%lookup_insert_Some]; [done|]. apply Hports. by rewrite Hq. }
    assert (wadd64 (active s) 1 = Z.of_nat (size (<[p := Opening]> (opened l)))) as Ha'.
    { pose proof (ports_bounded _ Hports') as Hb. rewrite Ha. rewrite map_size_insert_None in * by done.
      unfold wadd64. rewrite Z.mod_small; lia. }
    constructor; try assumption.
    + apply log_prune. by apply log_accept.
    + exact (f_equal2 Z.max Hpk Ha').
    + change (wadd64 (total_connections s) 1 = Z.succ (accepted l) `mod` 2 ^ 64)%Z. by rewrite Ht1, wadd64_succ.
  - constructor; try assumption.
    + apply (log_opened l s p _ Opening (Some Relayed)); [done..|by intros r; apply set_status_port|by apply relaying_marked].
    + intros q [x Hq]. apply (lookup_insert_Some (opened l)) in Hq as [[<- _]|[_ Hq]]; apply Hports; [by rewrite Hd|by rewrite Hq].
    + change (active s = Z.of_nat (size (<[p := Relayed]> (opened l)))). by rewrite map_size_insert, Hd.
    + change (wadd64 (bypasses_ok s) 1 = Z.succ (passed l) `mod` 2 ^ 64)%Z. by rewrite Ht2, wadd64_succ.
  - destruct (log_ended l s p (end_with StFailed now) Ht Hd) as (H1 & H2 & H3);
      [intros r; apply set_status_port|by intros r; apply ended_marked|].
    constructor; try assumption.
    change (wadd64 (bypasses_failed s) 1 = Z.succ (failed l) `mod` 2 ^ 64)%Z. by rewrite Ht3, wadd64_succ.
  - destruct (log_ended l s p (finish_record (end_status reason) c2s s2c now) Ht Hd) as (H1 & H2 & H3);
      [intros r; apply set_status_port|by intros r; apply finished_marked|].
    constructor; try assumption.
    + change (wadd64 (total_c2s s) c2s = (c2s + sent_up l) `mod` 2 ^ 64)%Z. by rewrite Ht4, wadd64_mod.
    + change (wadd64 (total_s2c s) s2c = (s2c + sent_down l) `mod` 2 ^ 64)%Z. by rewrite Ht5, wadd64_mod.
  - destruct (log_ended l s p (end_with StFailed now) Ht Hd) as (H1 & H2 & H3);
      [intros r; apply set_status_port|by intros r; apply ended_marked|].
    constructor; try assumption.
    change (wadd64 (bypasses_failed s) 1 = Z.succ (failed l) `mod` 2 ^ 64)%Z. by rewrite Ht3, wadd64_succ.
Qed.

(** What the other events leave alone. *)
Definition counters (s : DashboardState) : list Z :=
  [active s; peak_active s; total_connections s; bypasses_ok s; bypasses_failed s; total_c2s s; total_s2c s].
Lemma tracks_frame l s s' : tracks l s → counters s' = counters s → log_ok (opened l) (records s') → tracks l s'.
Proof. intros [] [=] Hl. constructor; congruence || done. Qed.

Lemma tracks_event l s e now wall : tracks l s → match e with OfConnection e => disciplined e l | _ => True end →
  tracks (ledger_event e l) (apply_event e now wall s).
Proof.
  intros Ht Hd. destruct e as [e| | |p|t entries| | | | | | |]; [by apply tracks_connection|..]; cbn [ledger_event];
    (eapply tracks_frame; [exact Ht|unfold apply_event; cbn [apply]; try destruct (bool_decide _); reflexivity|]; apply log_prune).
  1,2,5-11: cbn [apply]; try destruct (bool_decide _); exact (tk_log _ _ Ht).
  - eapply log_outline, (tk_log _ _ Ht).
    exact (with_record_outline (rp_src_port p) _ (records s) (progress_outline p now)).
  - eapply log_outline, (tk_log _ _ Ht). exact (batch_outline t (records s) (collect_progress entries)).
Qed.

Lemma tracks_new notice sni ip now : tracks ledger_new (dashboard_new notice sni ip now).
Proof. constructor; try done; [by split_and!; try constructor|]. intros p [ph Hp]. by destruct (lookup_empty_Some (M := gmap Z) p ph). Qed.

Lemma tracks_all es : ∀ l s, tracks l s → disciplined_all es l → tracks (ledger_all es l) (apply_all es s).
Proof.
  induction es as [|[e [now wall]] es IH]; intros l s Ht Hd; [done|]. destruct Hd as [Hd Hd'].
  cbn [ledger_all apply_all foldl fst snd]. apply IH; [|done]. by apply tracks_event.
Qed.

(** The log's length. *)
Definition bounded_log (rs : list ConnectionRecord) : Prop :=
  length rs ≤ MAX_RECORDS ∨ Forall (λ r, is_active r = true) rs.
Lemma bounded_all es : ∀ s, bounded_log (records s) → bounded_log (records (apply_all es s)).
Proof.
  induction es as [|e es IH]; intros s Hs; [done|]. cbn [apply_all foldl]. apply IH.
  destruct (prune_spec _ (records (apply e.1 e.2.1 e.2.2 s)) (Nat.le_refl _)) as (_ & _ & H & _). exact H.
Qed.

(** *** What a batch shows *)
Lemma collect_other entries p : p ∉ rp_src_port <$> entries → ∀ m, 
  foldl (λ m e, <[rp_src_port e := e]> m) m entries !! p = (m : gmap Z RelayProgress) !! p.
Proof.
  induction entries as [|e entries IH]; intros Hp m; [done|]. cbn in *. apply not_elem_of_cons in Hp as [Hp1 Hp2].
  by rewrite IH, lookup_insert_ne.
Qed.
Lemma collect_entry entries e : NoDup (rp_src_port <$> entries) → e ∈ entries → collect_progress entries !! rp_src_port e = Some e.
Proof.
  unfold collect_progress. generalize (∅ : gmap Z RelayProgress). induction entries as [|e' entries IH]; intros m Hn He;
    [by apply elem_of_nil in He|]. cbn in *. apply NoDup_cons in Hn as [Hn1 Hn2].
  apply elem_of_cons in He as [->|He]; [|auto]. by rewrite collect_other, lookup_insert_eq.
Qed.

Definition fresh_progress (t : Z) (r : ConnectionRecord) : Prop :=
  match last_snapshot r with Some (previous, _, _) => (previous < t)%Z | None => True end.
Lemma progress_applied p t r : status r = StRelaying → fresh_progress t r →
  let r' := apply_relay_progress p t r in c2s_bytes r' = rp_c2s_bytes p ∧ s2c_bytes r' = rp_s2c_bytes p.
Proof.
  intros Hs Hf. unfold apply_relay_progress, fresh_progress in *. rewrite bool_decide_eq_true_2 by done.
  cbn [negb]. destruct (last_snapshot r) as [[[previous c2s] s2c]|]; [|done].
  destruct (Z.leb_spec t previous); [lia|done].
Qed.

Lemma batch_applied t r p rs : ∀ m, newest_open rs → r ∈ rs → status r = StRelaying → fresh_progress t r →
  m !! src_port r = Some p → ∃ r', r' ∈ apply_batch t m rs ∧ src_port r' = src_port r ∧ status r' = StRelaying ∧
    c2s_bytes r' = rp_c2s_bytes p ∧ s2c_bytes r' = rp_s2c_bytes p.
Proof.
  induction rs as [|x rs IH]; intros m Hn Hr Hs Hf Hm; [by apply elem_of_nil in Hr|].
  apply StronglySorted_inv in Hn as [Hn Hx]. rewrite Forall_forall in Hx. cbn [apply_batch].
  apply elem_of_cons in Hr as [<-|Hr].
  - rewrite bool_decide_eq_true_2, Hm by done. eexists. split; [left|].
    destruct (progress_outline p t r) as (<- & <- & _). split_and!; [done..| |]; by apply progress_applied.
  - assert (status x = StRelaying → src_port x ≠ src_port r) as Hne.
    { intros _ E. specialize (Hx r Hr (eq_sym E)). unfold is_active in Hx. by rewrite Hs in Hx. }
    assert (∀ m y, m !! src_port r = Some p → ∃ r', r' ∈ y :: apply_batch t m rs ∧ src_port r' = src_port r ∧
      status r' = StRelaying ∧ c2s_bytes r' = rp_c2s_bytes p ∧ s2c_bytes r' = rp_s2c_bytes p) as Hgo.
    { intros m' y Hm'. destruct (IH m' Hn Hr Hs Hf Hm') as (r' & ? & ?). exists r'. split; [by right|done]. }
    case_bool_decide as Hxs; [|by apply Hgo]. destruct (m !! src_port x); apply Hgo; [|done].
    rewrite lookup_delete_ne; auto.
Qed.

(** ** The theorem *)
Lemma find_record_first p rs ph : newest_open rs → shown rs !! p = Some ph →
  ∃ r, find_record p rs = Some r ∧ phase_of r = Some ph.
Proof.
  induction rs as [|r rs IH]; intros Hn Hp; [done|]. pose proof (shown_behind _ _ Hn) as Hb.
  apply StronglySorted_inv in Hn as [Hn _]. rewrite shown_cons in Hp. cbn [find_record].
  destruct (decide (src_port r = p)) as [<-|Hne].
  - exists r. split; [done|]. destruct (phase_of r); [by rewrite lookup_insert_eq in Hp|congruence].
  - apply IH; [done|]. destruct (phase_of r); [by rewrite lookup_insert_ne in Hp|done].
Qed.
Lemma find_record_spec p rs r : find_record p rs = Some r → r ∈ rs ∧ src_port r = p.
Proof.
  induction rs as [|x rs IH]; cbn [find_record]; [done|]. case_decide; [intros [= <-]; split; [left|done]|].
  intros [? ?]%IH. split; [by right|done].
Qed.
Lemma find_record_active rs r : newest_open rs → r ∈ rs → is_active r = true → find_record (src_port r) rs = Some r.
Proof.
  induction rs as [|x rs IH]; intros Hn Hr Ha; [by apply elem_of_nil in Hr|].
  apply StronglySorted_inv in Hn as [Hn Hx]. rewrite Forall_forall in Hx. cbn [find_record].
  apply elem_of_cons in Hr as [<-|Hr]; [by rewrite decide_True|]. rewrite decide_False; [auto|].
  intros E. rewrite (Hx r Hr) in Ha; done.
Qed.
Lemma find_record_shown p rs r ph : newest_open rs → find_record p rs = Some r → phase_of r = Some ph → shown rs !! p = Some ph.
Proof.
  induction rs as [|x rs IH]; intros Hn; [done|]. cbn [find_record]. rewrite shown_cons.
  apply StronglySorted_inv in Hn as [Hn _]. case_decide as Hp.
  - intros [= ->] ->. by rewrite Hp, lookup_insert_eq.
  - intros Hr Hph. destruct (phase_of x); [rewrite lookup_insert_ne by done|]; auto.
Qed.

(** A batch reaches the open connections it has an entry for. *)
Definition batch_reaches (s : DashboardState) : Prop :=
  ∀ t entries now wall e r, NoDup (rp_src_port <$> entries) → e ∈ entries →
    find_record (rp_src_port e) (records s) = Some r → status r = StRelaying → fresh_progress t r →
    ∃ r', find_record (rp_src_port e) (records (apply_event (RelayProgressBatch t entries) now wall s)) = Some r' ∧
      c2s_bytes r' = rp_c2s_bytes e ∧ s2c_bytes r' = rp_s2c_bytes e.
Lemma tracks_batch l s : tracks l s → batch_reaches s.
Proof.
  intros Ht t entries now wall e r Hnd He [Hr Hp]%find_record_spec Hs Hf.
  pose proof (tracks_event l s (RelayProgressBatch t entries) now wall Ht I) as [(_ & Hn' & _) _ _ _ _ _ _ _ _].
  destruct Ht as [(_ & Hn & _) _ _ _ _ _ _ _ _].
  destruct (batch_applied t r e (records s) (collect_progress entries) Hn Hr Hs Hf) as (r' & Hr' & Hp' & Hs' & Hb);
    [by rewrite Hp, collect_entry|].
  exists r'. split; [|done]. rewrite <-Hp, <-Hp'. assert (is_active r' = true) as Ha by (unfold is_active; by rewrite Hs').
  apply find_record_active; [done| |done].
  destruct (prune_spec _ (apply_batch t (collect_progress entries) (records s)) (Nat.le_refl _)) as (_ & _ & _ & _ & Hk).
  assert (r' ∈ filter (λ r, is_active r = true) (apply_batch t (collect_progress entries) (records s))) as Hin
    by (by apply list_elem_of_filter).
  rewrite <-Hk in Hin. by apply list_elem_of_filter in Hin as [_ ?].
Qed.

(** (C17) The dashboard refines the ledger of open connections: as long as no
    port is announced while its connection is open and every connection ends
    once, after any sequence of events, whatever their times, the connections
    shown as active are exactly those open, each in its phase and found by its
    port; the counts of active connections and of the most there were are
    exact, and the totals of connections, outcomes and bytes are exact modulo
    [2 ^ 64]; the log has at most 200 records unless they are all active; and a
    sample of progress reaches every relaying connection it names. *)
Theorem dashboard_tracks es notice sni ip now :
  disciplined_all es ledger_new →
  let l := ledger_all es ledger_new in
  let s := apply_all es (dashboard_new notice sni ip now) in
  (∀ p ph, opened l !! p = Some ph ↔ ∃ r, find_record p (records s) = Some r ∧ phase_of r = Some ph) ∧
  (∀ r, r ∈ records s → is_active r = true → find_record (src_port r) (records s) = Some r) ∧
  active s = Z.of_nat (size (opened l)) ∧ peak_active s = most l ∧
  total_connections s = (accepted l `mod` 2 ^ 64)%Z ∧ bypasses_ok s = (passed l `mod` 2 ^ 64)%Z ∧
  bypasses_failed s = (failed l `mod` 2 ^ 64)%Z ∧
  total_c2s s = (sent_up l `mod` 2 ^ 64)%Z ∧ total_s2c s = (sent_down l `mod` 2 ^ 64)%Z ∧
  bounded_log (records s) ∧ batch_reaches s.
Proof.
  intros Hd l s. pose proof (tracks_all es _ _ (tracks_new notice sni ip now) Hd) as Ht. fold l s in Ht.
  pose proof (tracks_batch _ _ Ht) as Hb. destruct Ht as [(Hsh & Hn & _) _ Ha Hpk Ht1 Ht2 Ht3 Ht4 Ht5].
  split; [|split; [|do 7 (split; [done|])]].
  - intros p ph. rewrite <-Hsh. split; [by apply find_record_first|]. intros (r & Hr & Hph). by eapply find_record_shown.
  - intros r Hr Hact. by apply find_record_active.
  - split; [|done]. apply bounded_all. left. cbn. lia.
Qed.

(** Two connections, the first port used twice. *)
Definition dashboard_demo : list (Event * (Z * Z)) :=
  let peer := MkSocketAddr (IpV4 1) 5000 0 in let ip := IpV4 (2 ^ 24) in
  (λ e, (e, (0, 0)%Z)) <$>
  [OfConnection (ConnectionAccepted peer 40000 ip None); OfConnection (ConnectionError 40000 "refused");
   OfConnection (ConnectionAccepted peer 40000 ip None); LowTtlDiscovered 7;
   OfConnection (ConnectionAccepted peer 40001 ip None); OfConnection (BypassComplete 40000 FakeDataAcked);
   OfConnection (BypassComplete 40001 FakeDataAcked); OfConnection (RelayFinished 40001 5 7 Completed)].
Lemma dashboard_tracks_witness :
  let s := apply_all dashboard_demo (dashboard_new None None None 0) in
  disciplined_all dashboard_demo ledger_new ∧
  active s = 1%Z ∧ peak_active s = 2%Z ∧ total_connections s = 3%Z ∧ total_c2s s = 5%Z ∧
  (status <$> records s) = [StDone; StRelaying; StFailed] ∧
  ∃ r, find_record 40000 (records s) = Some r ∧ phase_of r = Some Relayed.
Proof.
  assert (disciplined_all dashboard_demo ledger_new) as Hd by (vm_compute; split_and!; eauto; done).
  split; [exact Hd|]. do 5 (split; [by vm_compute|]).
  apply (proj1 (dashboard_tracks dashboard_demo None None None 0 Hd) 40000%Z Relayed). by vm_compute.
Defined.

(** ** The drained channel

    A turn applies the events that are queued and at most one sample, which
    moves the timer on; so it ends. *)
Definition available (now : Z) (c : Channel) : list Event :=
  ch_events c ++ (if ch_senders c then option_list (sample_progress now c).1 else []).

Lemma sample_again now c : ch_events (sample_progress now c).2 = ch_events c ∧
  ch_senders (sample_progress now c).2 = ch_senders c ∧
  ((sample_progress now c).1 ≠ None → sample_progress now (sample_progress now c).2 = (None, (sample_progress now c).2)).
Proof.
  unfold sample_progress. destruct (now <? ch_next_progress c)%Z; [done|]. cbn [ch_progress ch_counters].
  destruct (ch_progress c) as [r|]; [|done]. destruct (is_nil _); [done|]. split; [done|]. split; [done|]. intros _.
  cbn [fst snd ch_next_progress]. destruct (Z.ltb_spec now (now + PROGRESS_INTERVAL)); [done|].
  unfold PROGRESS_INTERVAL in *. lia.
Qed.

Lemma sample_behind now c es : (sample_progress now (MkChannel es (ch_senders c) (ch_receiver c) (ch_progress c)
  (ch_next_progress c) (ch_counters c))).1 = (sample_progress now c).1.
Proof. unfold sample_progress. cbn [ch_next_progress ch_progress ch_counters]. by repeat case_match. Qed.

Lemma drain_all now wall es : ∀ fuel c s, ch_events c = es → length es + 2 ≤ fuel →
  let s' := foldl (λ s e, apply_event e now wall s) s (available now c) in
  ∃ c', drain fuel now wall c s = Some (c', if ch_senders c then s' else s'{{channel_closed := true}}) ∧
    ch_events c' = [].
Proof.
  induction es as [|e es IH]; intros fuel c s He Hf s'; subst s'; unfold available; rewrite He;
    (destruct fuel as [|fuel]; [cbn in Hf; lia|]); cbn [drain app]; unfold try_recv at 1; rewrite He.
  - destruct (ch_senders c) eqn:Es; cbn [negb]; [|by exists c].
    destruct (sample_again now c) as (H1 & H2 & H3).
    destruct (sample_progress now c) as [[e|] c1]; cbn [fst snd option_list foldl] in *; [|exists c1; by rewrite H1].
    destruct fuel as [|fuel]; [cbn in Hf; lia|]. cbn [drain]. unfold try_recv. rewrite H1, He, H2, Es. cbn [negb].
    rewrite H3 by done. exists c1. by rewrite H1.
  - cbn in Hf. destruct (IH fuel (MkChannel es (ch_senders c) (ch_receiver c) (ch_progress c) (ch_next_progress c) (ch_counters c))
      (apply_event e now wall s)) as (c' & -> & Hc'); [done|lia|]. exists c'. split; [|done].
    unfold available. rewrite sample_behind. done.
Qed.
