(* ===== verification/Headless.v ===== *)
(** * Running without a terminal

    Model of the runtime events ([crates/zerodpi/src/runtime_events.rs]) and of
    what the headless modes report in them ([crates/zerodpi/src/main.rs]: the
    two headless scans, [log_headless_proxy_events], [run_headless_proxy]).
    An address is kept as such where the event carries its text; the JSON
    encoding is not modelled. *)
From stdpp Require Import base list numbers strings gmap.
From Stdlib Require Import ZArith Lia.
From S2P Require Import Prelude Text NetAddr Flow Socket Recovery Events Dashboard Config ScanList Scanner.
Local Open Scope nat_scope.
Local Open Scope list_scope.

(** ** Runtime events *)
Definition CONTRACT_VERSION : Z := 1.
Inductive ScanKind := KindSni | KindIp | KindProxy.
Inductive TargetKind := TargetSni | TargetIp.
Inductive BypassStatus := BypassCompleted | BypassFailed.

Inductive RuntimeEvent :=
  | EvStartup (contract_version : Z) (version : string) (pid uid : Z)
  | EvHelperAuthenticated (pid uid protocol_major protocol_minor : Z) (capabilities : list string)
  | EvConfigLoaded (path mode bypass_method listen_host : string) (listen_port : Z)
      (auto_select no_tui root_required : bool)
  | EvScanStarted (scan : ScanKind) (path : option string) (total : option nat)
  | EvScanProgress (scan : ScanKind) (phase : option string) (completed : nat) (total : option nat)
      (sni : option string) (ip : option IpAddr) (score : option Z)
  | EvScanCompleted (scan : ScanKind) (results : nat)
  | EvNextScanScheduled (scan : ScanKind) (interval_secs : Z)
  | EvRescanStarted (scan : ScanKind)
  | EvRescanFinished (scan : ScanKind) (found : nat) (best_score : option Z) (duration_ms : Z) (switched : bool)
  | EvSelectedTarget (target : TargetKind) (sni : option string) (ip : IpAddr) (score : option Z)
  | EvListenerStarted (mode : string) (listen_addr : SocketAddr)
  | EvConnectionAccepted (peer : SocketAddr) (src_port : Z)
  | EvBypassFinished (src_port : Z) (status : BypassStatus)
  | EvRelayBytes (src_port c2s_bytes s2c_bytes : Z) (is_final : bool)
  | EvActiveTargetChanged (target : TargetKind) (sni : option string) (ip : IpAddr) (score : option Z)
  | EvRootRequired (mode bypass_method message : string) (rootless_alternatives : list string)
  | EvNetwork (e : Recovery.RuntimeEvent)
  | EvFatalError (message : string)
  | EvGracefulShutdown (reason : string).

(** [RuntimeEventEmitter]: the lines it writes. *)
Definition emit (enabled : bool) (e : RuntimeEvent) : list RuntimeEvent := if enabled then [e] else [].
Definition emit_relay_progress (enabled : bool) (entries : list RelayProgress) : list RuntimeEvent :=
  if enabled then
    (λ p, EvRelayBytes (rp_src_port p) (rp_c2s_bytes p) (rp_s2c_bytes p) false) <$> entries
  else [].

(** ** The proxy's events *)
Definition bypass_status (o : BypassOutcome) : BypassStatus :=
  match o with FakeDataAcked => BypassCompleted | UnexpectedClose => BypassFailed end.

Definition headless_event (enabled : bool) (e : Event) : list RuntimeEvent :=
  match e with
  | ListenerStarted mode listen_addr => emit enabled (EvListenerStarted mode listen_addr)
  | OfConnection (ConnectionAccepted peer src_port _ _) => emit enabled (EvConnectionAccepted peer src_port)
  | OfConnection (BypassComplete src_port o) => emit enabled (EvBypassFinished src_port (bypass_status o))
  | OfConnection (RelayFinished src_port c2s s2c _) => emit enabled (EvRelayBytes src_port c2s s2c true)
  | OfConnection (ConnectionError src_port _) => emit enabled (EvBypassFinished src_port BypassFailed)
  | RelayProgressOne p => emit enabled (EvRelayBytes (rp_src_port p) (rp_c2s_bytes p) (rp_s2c_bytes p) false)
  | RelayProgressBatch _ entries => emit_relay_progress enabled entries
  | SniTargetChanged sni ip score => emit enabled (EvActiveTargetChanged TargetSni (Some sni) (IpV4 ip) (Some score))
  | IpTargetChanged ip score => emit enabled (EvActiveTargetChanged TargetIp None ip (Some score))
  | TargetPoolUpdated _ _ | NetworkStatusChanged _ | LowTtlDiscovered _ | NextRescanScheduled _ _
  | Events.RescanStarted _ | RescanFinished _ _ _ _ _ => []
  end.
(** [log_headless_proxy_events] *)
Definition log_headless_proxy_events (enabled : bool) (es : list Event) : list RuntimeEvent :=
  concat (headless_event enabled <$> es).

(** [run_headless_proxy]: which of the three futures ends first, with what; the
    plane is stopped with [stop]. *)
Inductive HeadlessEnd :=
  | ShutdownSignal (reason : string + string)     (* or the error *)
  | ProxyEnded (result : option (() + string))           (* [None]: it panicked *)
  | FatalReason (reason : string).
Inductive HeadlessAct := AbortProxyTask | StopPlane | AbortLog | Told (e : RuntimeEvent).
Definition is_inl {A B} (r : A + B) : bool := match r with inl _ => true | inr _ => false end.

Definition run_headless_proxy (enabled : bool) (stop : () + string) (how : HeadlessEnd) : (() + string) * list HeadlessAct :=
  match how with
  | ShutdownSignal (inr error) => (inr error, [])
  | ShutdownSignal (inl reason) =>
      (stop, [AbortProxyTask; StopPlane] ++
        (if is_inl stop then Told <$> emit enabled (EvGracefulShutdown reason) else []) ++ [AbortLog])
  | ProxyEnded None => (inr "proxy task panicked"%string, [])
  | ProxyEnded (Some r) => (match r with inr e => inr e | inl _ => stop end, [StopPlane; AbortLog])
  | FatalReason reason => (inr reason, [AbortProxyTask; AbortLog])
  end.

(** ** Scans *)
(** With [HashSet::insert]. *)
Fixpoint first_seen (seen : gset string) (l : list string) : list string :=
  match l with
  | [] => []
  | k :: l => if decide (k ∈ seen) then first_seen seen l else k :: first_seen ({[k]} ∪ seen) l
  end.
Definition count_hostnames (file : option string) (deduplicate : bool) : nat :=
  let names := entries (default EmptyString file) in
  if deduplicate then length (first_seen ∅ (to_ascii_lowercase <$> names)) else length names.

(** The progress task over what arrived. *)
Definition sni_progress (scan : ScanKind) (total : nat) (arrived : list SniProbeEntry) : list RuntimeEvent :=
  imap (λ k e, EvScanProgress scan None (S k) (Some total) (Some (sp_sni e)) (Some (IpV4 (sp_ip e))) (Some (sp_score e)))
    arrived.
(** [scan] is what [scan_sni_list] returns; without an emitter nothing arrives. *)
Definition scan_sni_list_headless (enabled : bool) (path : string) (file : option string) (deduplicate : bool)
    (kind : ScanKind) (filter_ok : result unit) (arrived : list SniProbeEntry) (scan : result (list SniProbeEntry))
    : result (list SniProbeEntry) * list RuntimeEvent :=
  match filter_ok with
  | Err e => (Err e, [])
  | Ok _ =>
      let total := count_hostnames file deduplicate in
      let started := emit enabled (EvScanStarted kind (Some path) (Some total)) in
      let progress := if enabled then sni_progress kind total arrived else [] in
      match scan with
      | Err e => (Err e, started ++ progress)
      | Ok entries => (Ok entries, started ++ progress ++ emit enabled (EvScanCompleted kind (length entries)))
      end
  end.

Fixpoint ip_progress (total probe_completed : nat) (arrived : list IpScanEvent) : list RuntimeEvent :=
  match arrived with
  | [] => []
  | TcpDone tcp_tested :: arrived =>
      EvScanProgress KindIp (Some "tcp"%string) tcp_tested (Some total) None None None
      :: ip_progress total probe_completed arrived
  | ProbeComplete e :: arrived =>
      EvScanProgress KindIp (Some "probe"%string) (S probe_completed) (Some total) None (Some (ipp_ip e)) (Some (ipp_score e))
      :: ip_progress total (S probe_completed) arrived
  end.
Definition scan_ip_list_headless (enabled : bool) (path : option string) (ips : list IpAddr)
    (arrived : list IpScanEvent) (entries : list IpProbeEntry) : list IpProbeEntry * list RuntimeEvent :=
  let total := length ips in
  (entries, emit enabled (EvScanStarted KindIp path (Some total)) ++
    (if enabled then ip_progress total 0 arrived else []) ++
    emit enabled (EvScanCompleted KindIp (length entries))).

(** ** The lines follow the connections *)

(** What a reader of the lines can keep. *)
Definition read_line (l : Ledger) (line : RuntimeEvent) : Ledger :=
  match line with
  | EvConnectionAccepted _ p =>
      let o := <[p := Opening]> (opened l) in
      MkLedger o (Z.max (most l) (Z.of_nat (size o))) (Z.succ (Dashboard.accepted l)) (passed l) (failed l)
        (sent_up l) (sent_down l)
  | EvBypassFinished p BypassCompleted =>
      MkLedger (<[p := Relayed]> (opened l)) (most l) (Dashboard.accepted l) (Z.succ (passed l)) (failed l)
        (sent_up l) (sent_down l)
  | EvBypassFinished p BypassFailed =>
      MkLedger (delete p (opened l)) (most l) (Dashboard.accepted l) (passed l) (Z.succ (failed l))
        (sent_up l) (sent_down l)
  | EvRelayBytes p c2s s2c true =>
      MkLedger (delete p (opened l)) (most l) (Dashboard.accepted l) (passed l) (failed l)
        (c2s + sent_up l)%Z (s2c + sent_down l)%Z
  | _ => l
  end.

Lemma batch_read entries l : foldl read_line l (emit_relay_progress true entries) = l.
Proof. induction entries as [|p entries IH]; [done|]. exact IH. Qed.

Lemma event_read e l : foldl read_line l (headless_event true e) = ledger_event e l.
Proof.
  destruct e as [[peer p ip sni|p []|p c2s s2c reason|p error]| | | |at_ entries| | | | | | |]; try reflexivity.
  apply batch_read.
Qed.

(** The lines written for a session lose nothing of its connections: a reader
    who keeps the open ports from them holds the ledger of the events. *)
Theorem log_followed es : foldl read_line ledger_new (log_headless_proxy_events true es)
  = foldl (λ l e, ledger_event e l) ledger_new es.
Proof.
  unfold log_headless_proxy_events. generalize ledger_new. induction es as [|e es IH]; intros l; [done|].
  cbn [fmap list_fmap concat foldl]. rewrite foldl_app, event_read. apply IH.
Qed.
Lemma log_disabled es : log_headless_proxy_events false es = [].
Proof.
  unfold log_headless_proxy_events. induction es as [|e es IH]; [done|]. cbn. rewrite IH, app_nil_r.
  by destruct e as [[]| | | | | | | | | | |].
Qed.

(** ** The numbers of a scan *)
Lemma first_seen_spec l : ∀ seen, NoDup (first_seen seen l) ∧ ∀ k, k ∈ first_seen seen l ↔ k ∈ l ∧ k ∉ seen.
Proof.
  induction l as [|k l IH]; intros seen; cbn [first_seen].
  { split; [constructor|]. intros k. rewrite elem_of_nil. tauto. }
  case_decide as Hk.
  - destruct (IH seen) as [H1 H2]. split; [done|]. intros k'. rewrite H2, elem_of_cons. naive_solver.
  - destruct (IH ({[k]} ∪ seen)) as [H1 H2]. split.
    + constructor; [|done]. rewrite H2. set_solver.
    + intros k'. rewrite !elem_of_cons, H2. destruct (decide (k' = k)) as [->|]; set_solver.
Qed.

Lemma sni_keys (l : list string) : omap sni_key l = to_ascii_lowercase <$> l.
Proof. induction l as [|x l IH]; [done|]. cbn. by rewrite <- IH. Qed.

(** What is announced is the number of names the scan reads. *)
Lemma count_ok file replaced deduplicate names : scan_hostnames file replaced deduplicate = Ok names →
  length names = count_hostnames file deduplicate.
Proof.
  unfold scan_hostnames, read_scan_list, count_hostnames. destruct file as [content|]; [|done]. cbn [default].
  unfold id. destruct deduplicate; cbn [negb fst]; [|by destruct (entries content) as [|n ns]; intros [= <-]].
  pose proof (scan_list_cleaned sni_key content) as Hc. destruct (clean sni_key content) as [cleaned removed].
  destruct Hc as (_ & Hn & Hsub & Hrep & _). intros Hs.
  assert (names = entries cleaned) as ->.
  { destruct (0 <? removed), replaced; cbn [fst] in Hs; try discriminate Hs;
      by destruct (entries cleaned) as [|n ns]; [|injection Hs as <-]. }
  clear Hs. rewrite sni_keys in Hn. rewrite <- (length_fmap to_ascii_lowercase).
  destruct (first_seen_spec (to_ascii_lowercase <$> entries content) ∅) as [Hf Hin].
  apply Permutation_length, NoDup_Permutation; [done..|]. intros k. rewrite Hin. split.
  - intros (e & -> & He)%list_elem_of_fmap. split; [|set_solver]. apply list_elem_of_fmap. eauto.
  - intros [(e & -> & He)%list_elem_of_fmap _]. destruct (Hrep e He) as [?|(e' & He' & Hk)]; [done|].
    apply list_elem_of_fmap. exists e'. by injection Hk.
Qed.

(** The events of a headless SNI scan: announced with the number of names in
    the list, then one line for each result that arrives, numbered from one;
    completed with the number of results, if there are any. *)
Lemma sni_scan_reported path file dd kind arrived scan r es :
  scan_sni_list_headless true path file dd kind (Ok tt) arrived scan = (r, es) →
  r = scan ∧ ∃ tail, es = EvScanStarted kind (Some path) (Some (count_hostnames file dd))
      :: sni_progress kind (count_hostnames file dd) arrived ++ tail ∧
    match scan with Ok entries => tail = [EvScanCompleted kind (length entries)] | Err _ => tail = [] end.
Proof.
  unfold scan_sni_list_headless. destruct scan as [entries|e]; intros [= <- <-]; (split; [done|]); eexists;
    (split; [|reflexivity]); [done|by rewrite app_nil_r].
Qed.

(** A name with two addresses: the progress passes its total. *)
Example progress_passes_total (e : SniProbeEntry) :
  sni_progress KindSni (count_hostnames (Some "one.example"%string) true) [e; e] !! 1 =
  Some (EvScanProgress KindSni None 2 (Some 1) (Some (sp_sni e)) (Some (IpV4 (sp_ip e))) (Some (sp_score e))).
Proof. reflexivity. Qed.

(** ** The end of a session *)

(** The plane is stopped whenever the proxy has ended by itself or a signal
    came, and only then can the end be a success; an orderly end is reported
    only when the plane has stopped. *)
Lemma headless_end enabled stop how :
  let '(r, acts) := run_headless_proxy enabled stop how in
  (is_inl r = true → StopPlane ∈ acts ∧ is_inl stop = true) ∧
  (∀ reason, Told (EvGracefulShutdown reason) ∈ acts → is_inl r = true) ∧
  (StopPlane ∉ acts ↔ match how with ShutdownSignal (inr _) | ProxyEnded None | FatalReason _ => True | _ => False end).
Proof.
  destruct how as [[reason|error]|[[[]|error]|]|reason]; cbn [run_headless_proxy is_inl]; try set_solver.
  destruct stop as [[]|e]; cbn [is_inl]; [|set_solver].
  destruct enabled; cbn [emit fmap list_fmap]; set_solver.
Qed.
