(* ===== verification/Accounts.v ===== *)
(** * Connections on the dashboard

    The composition of the connection handlers ([Connections]) with the
    dashboard that follows their events ([Dashboard]): what each way a handler
    ends leaves on it, and that any interleaving of connections on different
    ports is one it tracks. *)
From stdpp Require Import base list numbers strings gmap.
From Stdlib Require Import ZArith Lia.
From S2P Require Import Prelude Text NetAddr Flow Sni Config SocketMethods Socket SocketLogic Relay Proxy Connections Events Dashboard.
Local Open Scope list_scope.

(** ** The lives of connections *)

(** The events of a task, in order. *)
Definition emitted (l : list Effect) : list ProxyEvent :=
  omap (λ x, match x with Emit e => Some e | _ => None end) l.
Definition event_port (e : ProxyEvent) : Z :=
  match e with
  | ConnectionAccepted _ p _ _ | BypassComplete p _ | RelayFinished p _ _ _ | ConnectionError p _ => p
  end.

(** Refused before the relay, or relayed to its end. *)
Inductive life (p : Z) : list ProxyEvent → Prop :=
  | life_error peer ip sni error : life p [ConnectionAccepted peer p ip sni; ConnectionError p error]
  | life_closed peer ip sni : life p [ConnectionAccepted peer p ip sni; BypassComplete p UnexpectedClose]
  | life_relayed peer ip sni c2s s2c reason :
      life p [ConnectionAccepted peer p ip sni; BypassComplete p FakeDataAcked; RelayFinished p c2s s2c reason].

Definition timed (es : list ProxyEvent) : list (Event * (Z * Z)) := (λ e, (OfConnection e, (0, 0)%Z)) <$> es.
Fixpoint keeps_discipline (es : list ProxyEvent) (l : Ledger) : Prop :=
  match es with [] => True | e :: es => disciplined e l ∧ keeps_discipline es (ledger_step e l) end.
Definition ledger_after (es : list ProxyEvent) (l : Ledger) : Ledger := foldl (λ l e, ledger_step e l) l es.

Lemma timed_disciplined es : ∀ l, disciplined_all (timed es) l ↔ keeps_discipline es l.
Proof. induction es as [|e es IH]; intros l; cbn; [done|]. by rewrite IH. Qed.

(** Events act on the entry of their port. *)
Definition next_phase (e : ProxyEvent) : option Phase :=
  match e with
  | ConnectionAccepted _ _ _ _ => Some Opening
  | BypassComplete _ FakeDataAcked => Some Relayed
  | _ => None
  end.
Lemma opened_step e l : opened (ledger_step e l) =
  match next_phase e with Some ph => <[event_port e := ph]> (opened l) | None => delete (event_port e) (opened l) end.
Proof. by destruct e as [| ? []| |]. Qed.
Lemma opened_step_port e l : opened (ledger_step e l) !! event_port e = next_phase e.
Proof. rewrite opened_step. destruct (next_phase e); [apply lookup_insert_eq|apply lookup_delete_eq]. Qed.
Lemma opened_step_other e l p : event_port e ≠ p → opened (ledger_step e l) !! p = opened l !! p.
Proof. intros Hp. rewrite opened_step. destruct (next_phase e); [by rewrite lookup_insert_ne|by rewrite lookup_delete_ne]. Qed.
Lemma disciplined_port e l l' : opened l !! event_port e = opened l' !! event_port e → disciplined e l → disciplined e l'.
Proof. intros E. destruct e as [c q ip sni|q []|q x y r|q er]; cbn in *; by rewrite E. Qed.

(** So the discipline is one of each port. *)
Definition events_at (p : Z) (es : list ProxyEvent) : list ProxyEvent := filter (λ e, event_port e = p) es.

Lemma discipline_by_port es : ∀ l,
  (∀ p, ∃ l', opened l' !! p = opened l !! p ∧ keeps_discipline (events_at p es) l') → keeps_discipline es l.
Proof.
  induction es as [|e es IH]; intros l Hp; [done|]. cbn [keeps_discipline]. split.
  - destruct (Hp (event_port e)) as (l' & El & Hk). unfold events_at in Hk. rewrite filter_cons_True in Hk by done.
    destruct Hk as [Hd _]. by eapply disciplined_port.
  - apply IH. intros p. destruct (Hp p) as (l' & El & Hk). unfold events_at in Hk |- *. rewrite filter_cons in Hk.
    case_decide as He.
    + subst p. exists (ledger_step e l'). split; [by rewrite !opened_step_port|apply Hk].
    + exists l'. split; [by rewrite opened_step_other|done].
Qed.

Lemma opened_by_port es p : ∀ l l', opened l' !! p = opened l !! p →
  opened (ledger_after es l) !! p = opened (ledger_after (events_at p es) l') !! p.
Proof.
  induction es as [|e es IH]; intros l l' E; [done|]. unfold events_at. rewrite filter_cons. cbn [ledger_after foldl].
  case_decide as He; cbn [foldl]; apply IH.
  - subst p. by rewrite !opened_step_port.
  - by rewrite opened_step_other.
Qed.

Lemma keeps_app es es' : ∀ l, keeps_discipline (es ++ es') l ↔ keeps_discipline es l ∧ keeps_discipline es' (ledger_after es l).
Proof. induction es as [|e es IH]; intros l; cbn; [by split; [|intros [_ ?]]|]. rewrite IH. by rewrite (assoc (∧)). Qed.

(** A life, or its beginning, starts and ends as it should. *)
Lemma life_disciplined p w : life p w → ∀ l, is_u16 p → opened l !! p = None →
  keeps_discipline w l ∧ opened (ledger_after w l) !! p = None.
Proof.
  intros Hw l Hp Hl. split.
  - destruct Hw; cbn [keeps_discipline disciplined]; (split; [done|]); rewrite ?opened_step; cbn [next_phase event_port];
      rewrite ?lookup_insert_eq; split_and!; eauto.
  - destruct Hw; exact (opened_step_port _ _).
Qed.
Lemma lives_disciplined p ws : Forall (life p) ws → ∀ l, is_u16 p → opened l !! p = None →
  keeps_discipline (concat ws) l ∧ opened (ledger_after (concat ws) l) !! p = None.
Proof.
  induction 1 as [|w ws Hw _ IH]; intros l Hp Hl; [done|]. cbn [concat]. rewrite keeps_app.
  destruct (life_disciplined p w Hw l Hp Hl) as [H1 H2]. unfold ledger_after in *. rewrite foldl_app.
  destruct (IH _ Hp H2). done.
Qed.

(** How far a life has come. *)
Definition under_way (p : Z) (w : list ProxyEvent) : Prop := w = [] ∨ ∃ w', w' ≠ [] ∧ life p (w ++ w').

Lemma under_way_disciplined p w l : under_way p w → is_u16 p → opened l !! p = None →
  keeps_discipline w l ∧ (opened (ledger_after w l) !! p = None ↔ w = []).
Proof.
  intros [->|(w' & Hw' & Hw)] Hp Hl; [done|]. pose proof (life_disciplined p _ Hw l Hp Hl) as [[Hk _]%keeps_app _].
  split; [done|]. remember (w ++ w') as whole eqn:E.
  destruct Hw; (destruct w as [|e1 [|e2 [|e3 w]]]; cbn in E; simplify_eq/=; try done);
    (split; [|done]); intros Hx; exfalso; unfold RecordSetters.constant in Hx; rewrite ?lookup_insert_eq in Hx; try done.
  all: by destruct w; simplify_eq/=.
Qed.

(** ** What the handlers report *)
Lemma emitted_app l l' : emitted (l ++ l') = emitted l ++ emitted l'.
Proof. apply omap_app. Qed.
Lemma emitted_remove key l : emitted (RemoveFlow key :: l) = emitted l.
Proof. done. Qed.
Lemma emitted_quiet q : quiet q → emitted q = [].
Proof. induction 1 as [|e q He _ IH]; [done|]. by destruct e. Qed.
Lemma emitted_connected st at_ : emitted (connected st at_) = [].
Proof. unfold connected. by case_match. Qed.

(** With a refused registration nothing follows the announcement. *)
Definition reports (port : Z) (announced : ProxyEvent) (reported : bool) (r : ioresult Relay) (s' : Sock) : Prop :=
  match r with
  | Ret _ => life port (emitted (trace s'))
  | Fail _ => if reported then life port (emitted (trace s')) else emitted (trace s') = [announced]
  | Panicked | Blocked => under_way port (emitted (trace s'))
  end.

Lemma bypass_end_life at_ port e peer ip sni : bypass_end at_ port e → life port (ConnectionAccepted peer port ip sni :: emitted e).
Proof. intros []; constructor. Qed.

Lemma intercepted_reports st at_ port key stream peer ip sni registered r s' : emitted [registered] = [] →
  connection_spec st at_ port key stream [Emit (ConnectionAccepted peer port ip sni); registered] r s' →
  reports port (ConnectionAccepted peer port ip sni) true r s'.
Proof.
  intros Hreg (_ & q & Hq & H). unfold reports.
  assert (∀ l, emitted ([Emit (ConnectionAccepted peer port ip sni); registered] ++ connected st at_ ++ q ++ l) =
    ConnectionAccepted peer port ip sni :: emitted l) as He.
  { intros l. rewrite !emitted_app, emitted_connected, (emitted_quiet q Hq). cbn in *. by rewrite Hreg. }
  destruct r as [rel|x| |].
  - destruct H as (q' & reason & Hq' & _ & -> & _). rewrite <-!app_assoc, He. unfold guarded.
    destruct (keep_flow st); rewrite !emitted_app, ?emitted_remove, ?emitted_app, (emitted_quiet q' Hq'); constructor.
  - destruct H as (e & Hend & ->). rewrite He, emitted_app, app_nil_r. by eapply bypass_end_life.
  - destruct H as (q' & Hq' & ->). rewrite <-!app_assoc, He. right.
    exists [RelayFinished port 0 0 Completed]. split; [done|]. unfold guard_open.
    destruct (keep_flow st); rewrite !emitted_app, ?emitted_remove, (emitted_quiet q' Hq'); constructor.
  - destruct H as (-> & _). rewrite He. right. exists [ConnectionError port ""%string]. split; [done|]. constructor.
Qed.

Lemma direct_reports at_ port nodelay peer ip sni stream all so_far r s' :
  direct_spec at_ port nodelay (Emit (ConnectionAccepted peer port ip sni)) stream all so_far r s' →
  reports port (ConnectionAccepted peer port ip sni) (negb (is_none (connect_error (at_connect at_)))) r s'.
Proof.
  unfold direct_spec, reports. destruct (connect_error (at_connect at_)) as [error|]; cbn [is_none negb].
  - intros [[x ->] ->]. constructor.
  - intros (_ & q & Hq & H).
    assert (∀ l, emitted ((Emit (ConnectionAccepted peer port ip sni) :: Connect nodelay :: q) ++ l) =
      ConnectionAccepted peer port ip sni :: emitted l) as He.
    { intros l. rewrite emitted_app. cbn [app]. change (emitted (?a :: ?b :: q)) with (emitted ([a; b] ++ q)).
      rewrite (emitted_app [_; _] q), (emitted_quiet q Hq). done. }
    pose proof (He []) as He0. rewrite app_nil_r in He0. destruct r as [rel|x| |].
    + destruct H as (q' & reason & Hq' & _ & -> & _). rewrite <-app_assoc, He, !emitted_app, (emitted_quiet q' Hq').
      constructor.
    + by rewrite H.
    + right. destruct H as [->|(q' & Hq' & ->)].
      * exists [ConnectionError port ""%string]. split; [done|]. rewrite He0. constructor.
      * exists [RelayFinished port 0 0 Completed]. split; [done|].
        rewrite <-app_assoc, He, !emitted_app, (emitted_quiet q' Hq'). constructor.
    + right. destruct H as (-> & _). exists [ConnectionError port ""%string]. split; [done|]. rewrite He0. constructor.
Qed.

Lemma ledger_timed es : ∀ l, ledger_all (timed es) l = ledger_after es l.
Proof. induction es as [|e es IH]; intros l; [done|]. apply IH. Qed.

(** Lives at a port, the last perhaps under way. *)
Definition lives_at (p : Z) (es w : list ProxyEvent) : Prop :=
  ∃ ws, Forall (life p) ws ∧ under_way p w ∧ events_at p es = concat ws ++ w.

Lemma lives_at_spec p es w l : lives_at p es w → is_u16 p ∨ events_at p es = [] → opened l !! p = None →
  keeps_discipline (events_at p es) l ∧ (opened (ledger_after (events_at p es) l) !! p = None ↔ w = []).
Proof.
  intros (ws & Hws & Hw & ->) [Hp|E] Hl.
  - destruct (lives_disciplined p ws Hws l Hp Hl) as [H1 H2].
    destruct (under_way_disciplined p w _ Hw Hp H2) as [H3 H4].
    split; [by apply keeps_app|]. unfold ledger_after in *. by rewrite foldl_app.
  - rewrite E. apply app_eq_nil in E as [_ ->]. done.
Qed.

Lemma phase_active p s l : tracks l s →
  (∃ r, find_record p (records s) = Some r ∧ is_active r = true) ↔ is_Some (opened l !! p).
Proof.
  intros [(Hsh & Hn & _) _ _ _ _ _ _ _ _]. rewrite <-Hsh. split.
  - intros (r & Hr & [ph Hph]%is_active_phase). exists ph. by eapply find_record_shown.
  - intros [ph Hph]. destruct (find_record_first p _ ph Hn Hph) as (r & Hr & Hp). exists r. split; [done|].
    apply is_active_phase. by eexists.
Qed.

Lemma interleaved es notice sni ip now :
  (∀ p, is_u16 p ∨ events_at p es = []) → (∀ p, ∃ w, lives_at p es w) →
  let s := apply_all (timed es) (dashboard_new notice sni ip now) in
  disciplined_all (timed es) ledger_new ∧
  ∀ p, (∃ r, find_record p (records s) = Some r ∧ is_active r = true) ↔ ∃ w, lives_at p es w ∧ w ≠ [].
Proof.
  intros Hu Hl s. assert (∀ p, opened ledger_new !! p = None) as Hnew by (intros p; exact (lookup_empty (M := gmap Z) p)).
  assert (keeps_discipline es ledger_new) as Hk.
  { apply discipline_by_port. intros p. exists ledger_new. split; [done|]. destruct (Hl p) as [w Hw].
    by apply (lives_at_spec p es w). }
  split; [by apply timed_disciplined|]. intros p.
  rewrite (phase_active p s (ledger_after es ledger_new)).
  2: { rewrite <-ledger_timed. apply tracks_all; [apply tracks_new|by apply timed_disciplined]. }
  rewrite (opened_by_port es p ledger_new ledger_new eq_refl).
  assert (∀ w, lives_at p es w → opened (ledger_after (events_at p es) ledger_new) !! p = None ↔ w = []) as Hw.
  { intros w Hw. by apply (lives_at_spec p es w). }
  split.
  - intros Hs. destruct (Hl p) as [w Hp]. exists w. split; [done|]. intros ->.
    destruct (Hw [] Hp) as [_ E]. rewrite E in Hs by done. by apply is_Some_None in Hs.
  - intros (w & Hp & Hne). apply not_eq_None_Some. intros E. by apply Hne, (Hw w).
Qed.

(** (C16) What the handlers report, composed with the dashboard.  With the
    settings of a validated configuration, each handler that returns or is
    refused reports a complete life of its connection, announced, then either
    failed or relayed, except a refused registration on the interceptor path
    and a failure after connecting on the direct paths, which report nothing
    after the announcement; one that panics or waits has reported the beginning
    of a life.  And any interleaving of such lives on different ports is
    disciplined: the dashboard that applies it counts as active exactly the
    ports whose last life is under way. *)
Theorem connections_accounted mp cfg :
  validate mp cfg = Ok () → ranges_typed cfg →
  (∃ st, from_config cfg = Done st ∧
   ∀ at_ connect_addr peer sni s port ml nodelay, trace s = [] →
     (∀ target connect_ip, sa_ip (Proxy.connect_addr target) = IpV4 connect_ip → at_bind at_ = Some port →
      let '(r, s') := handle_intercept_connection target at_ peer st sni s in
      reports port (ConnectionAccepted peer port (IpV4 connect_ip) sni) (at_register at_) r s') ∧
     let refused := negb (is_none (connect_error (at_connect at_))) in
     (let '(r, s') := handle_tcp_seg_connection_with_ip cfg at_ connect_addr peer sni s in
      reports (sa_port peer) (ConnectionAccepted peer (sa_port peer) (sa_ip connect_addr) sni) refused r s') ∧
     (let '(r, s') := handle_ip_bypass_connection at_ connect_addr peer port ml nodelay sni s in
      reports port (ConnectionAccepted peer port (sa_ip connect_addr) sni) refused r s')) ∧
  ∀ es notice sni ip now,
    (∀ p, is_u16 p ∨ events_at p es = []) → (∀ p, ∃ w, lives_at p es w) →
    let s := apply_all (timed es) (dashboard_new notice sni ip now) in
    disciplined_all (timed es) ledger_new ∧
    ∀ p, (∃ r, find_record p (records s) = Some r ∧ is_active r = true) ↔
      ∃ w, lives_at p es w ∧ w ≠ [].
Proof.
  intros Hv Hr. split; [|intros es notice sni ip now; apply interleaved].
  destruct (validate_parts _ _ Hv) as [_ Hp]. destruct (from_config_ok cfg Hp Hr) as (st & Hst & Hok).
  destruct (direct_connections mp cfg Hv Hr) as (st' & Hst' & Hdirect).
  exists st. split; [done|]. intros at_ connect_addr peer sni s port ml nodelay Hs. split.
  - intros target connect_ip Hip Hb. pose proof (intercepted st target at_ peer sni s connect_ip port Hok Hs Hip Hb) as H.
    destruct (handle_intercept_connection _ _ _ _ _ _) as [r s']. destruct (at_register at_).
    + eapply intercepted_reports; [|exact H]; done.
    + destruct H as [-> H]. cbn. by rewrite H.
  - destruct (Hdirect at_ connect_addr peer sni s port ml nodelay Hs) as [H1 H2]. split.
    + destruct (handle_tcp_seg_connection_with_ip _ _ _ _ _ _). by eapply direct_reports.
    + destruct (handle_ip_bypass_connection _ _ _ _ _ _ _ _). by eapply direct_reports.
Qed.

(** The sample connection of the interceptor path relays; interleaved with a
    connection on another port that is refused. *)
Definition accounts_demo : list ProxyEvent :=
  let a p := ConnectionAccepted sample_peer p (IpV4 2) None in
  [a 50000%Z; a 50001%Z; BypassComplete 50000 FakeDataAcked; ConnectionError 50001 "refused"].
Lemma connections_accounted_witness :
  (∃ st r s', from_config split_config = Done st ∧
    handle_intercept_connection sample_target sample_attempt sample_peer st None sample_client = (r, s') ∧
    reports 50000 (ConnectionAccepted sample_peer 50000 (IpV4 2) None) true r s') ∧
  active (apply_all (timed accounts_demo) (dashboard_new None None None 0)) = 1%Z ∧
  disciplined_all (timed accounts_demo) ledger_new ∧
  ∃ w, lives_at 50000 accounts_demo w ∧ w ≠ [].
Proof.
  destruct (connections_accounted 1024 split_config) as [(st & Hst & H) Hi];
    [by vm_compute|split; [by vm_compute|intros r [= <-]; by vm_compute]|].
  split; [|split; [by vm_compute|]].
  - destruct (H sample_attempt (MkSocketAddr (IpV4 2) 443 0) sample_peer None sample_client 50000%Z None true eq_refl) as [Hs _].
    specialize (Hs sample_target 2%Z eq_refl eq_refl). destruct (handle_intercept_connection _ _ _ _ _ _) as [r s'] eqn:E.
    exists st, r, s'. split; [exact Hst|]. split; [exact E|exact Hs].
  - assert (∀ p, p ≠ 50000%Z → p ≠ 50001%Z → events_at p accounts_demo = []) as Ho.
    { intros p H1 H2. unfold events_at, accounts_demo. rewrite !filter_cons_False; [done|cbn; congruence..]. }
    destruct (Hi accounts_demo None None None 0%Z) as [Hd Hact].
    + intros p. destruct (decide (p = 50000%Z)) as [->|H1]; [left; by vm_compute|].
      destruct (decide (p = 50001%Z)) as [->|H2]; [left; by vm_compute|]. right. by apply Ho.
    + intros p. destruct (decide (p = 50000%Z)) as [->|H1].
      { eexists. exists []. split; [constructor|]. split; [|reflexivity]. right.
        exists [RelayFinished 50000 0 0 Completed]. split; [done|]. constructor. }
      destruct (decide (p = 50001%Z)) as [->|H2].
      { exists [], [events_at 50001 accounts_demo]. split; [|split; [by left|reflexivity]].
        constructor; [|constructor]. apply life_error. }
      exists [], []. rewrite Ho by done. split; [constructor|]. split; [by left|done].
    + split; [exact Hd|]. apply Hact. eexists. split; vm_compute; reflexivity.
Defined.
