(* ===== verification/Reload.v ===== *)
(** * Configuration reload

    Model of [crates/zerodpi/src/reload.rs]: the session that outlives the
    service generations ([Session] with its operations), the validation of a
    candidate configuration ([candidate], [validate_reload]), and the loop that
    runs generation after generation ([run_loop], [run_with]) with its
    roll-back.  What a generation does is external ([run_config]): it calls
    operations of the session ([SessionCall]) and ends with a result.  Planes
    are of any type [P]; closing them, the screens and the files answer as the
    environment says ([ServiceEnv]).  Loops take fuel, [None] is a run that has
    not ended. *)
From stdpp Require Import base list numbers strings.
From Stdlib Require Import ZArith Lia.
From S2P Require Import Prelude Text NetAddr Config Methods Composite Handler DataPlane TargetPool.
Import TargetPool.
Local Open Scope string_scope.
Local Open Scope nat_scope.
Local Open Scope list_scope.

(** ** Candidates *)
Definition is_proxy_mode (mode : string) : bool :=
  str_mem mode ["sni_spoof"; "ip_bypass"; "ip_bypass_plus"].

Definition mode_requires_packet_interception (mode : string) (bypass_method : BypassMethodList) : bool :=
  str_mem mode ["sni_spoof"; "proxy_scan"; "ip_bypass_plus"] && negb (is_socket_only bypass_method).
Definition requires_packet_interception (cfg : Config) : bool :=
  mode_requires_packet_interception (MODE cfg) (BYPASS_METHOD cfg).

(** What [candidate] finds when it is called: the configuration in the file
    with the overrides of the command line (or why there is none), whether the
    helper is disconnected when there is one, whether interception is possible
    without it, whether the list file can be opened; the seed is the method's
    clock. *)
Record Attempt := MkAttempt {
  at_loaded : Config + string;
  at_helper : option bool;
  at_access : bool;
  at_list : bool;
  at_seed : Z }.

Definition ensure (b : bool) (what : string) (k : Result) : Result := if b then k else inr what.

Section candidate.
Context (max_permits : Z) {V : Type} `{EqDecision V} (to_value : Config → option V).

Definition validate_reload (cfg : Config) (a : Attempt) : Result :=
  match Config.validate max_permits cfg with
  | Err e => inr e
  | Ok _ =>
      ensure (is_proxy_mode (MODE cfg)) "config reload supports only proxy MODE values" (
      ensure (bool_decide (is_Some
          (parse_socket_addr (LISTEN_HOST cfg +:+ ":" +:+ show_int (LISTEN_PORT cfg)))))
        "invalid LISTEN_HOST/LISTEN_PORT" (
      ensure (match SELECTED_IP cfg with
          | Some ip => bool_decide (is_Some (parse_ip ip)) | None => true end)
        "invalid SELECTED_IP" (
      if requires_packet_interception cfg then
        ensure (match at_helper a with Some disconnected => negb disconnected | None => at_access a end)
          "packet interception is not available" (
        ensure (bool_decide (is_Some (build_method cfg (at_seed a))))
          "unsupported BYPASS_METHOD" (inl ()))
      else inl ())))
  end.

(** [serde_json::to_value(..)? == serde_json::to_value(..)?]. *)
Definition same_config (first second : Config) : bool + string :=
  match to_value first, to_value second with
  | Some u, Some v => inl (bool_decide (u = v))
  | _, _ => inr "serialization failed"
  end.

(** The list file a configuration needs at once. *)
Definition needs_list (cfg : Config) : bool :=
  if bool_decide (MODE cfg = "sni_spoof") then bool_decide (SELECTED_SNI cfg = None)
  else str_mem (MODE cfg) ["ip_bypass"; "ip_bypass_plus"] && bool_decide (SELECTED_IP cfg = None).

Definition candidate (active : option Config) (a : Attempt) : (option Config) + string :=
  match at_loaded a with
  | inr e => inr e
  | inl next =>
      (* [ConfigSource::load] validates too *)
      match Config.validate max_permits next with
      | Err e => inr e
      | Ok _ =>
          match validate_reload next a with
          | inr e => inr e
          | inl _ =>
              match match active with Some cfg => same_config cfg next | None => inl false end with
              | inr e => inr e
              | inl true => inl None
              | inl false =>
                  if needs_list next && negb (at_list a) then inr "reading the list failed"
                  else inl (Some next)
              end
          end
      end
  end.
End candidate.

(** Rollback uses the cached targets. *)
Definition restore_pool (cfg : Config) (targets : list Target) (seed : Z) : exec (option TargetPool) :=
  new (if LOAD_BALANCE_ENABLED cfg then LOAD_BALANCE_STRATEGY cfg else RoundRobin) targets seed.

(** ** The session *)
Record Session (P : Type) := MkSession {
  plane : option P;
  monitor : bool;
  pool : option (list Target);      (* what its snapshot would list *)
  pending : option Config;
  restore_targets : option (list Target);
  notice : option string;
  initial_events : list bool;       (* whether each is [ListenerStarted] *)
  ready : bool;
  discovered_ttl : option Z }.
Arguments MkSession {P}.
Arguments plane {P}. Arguments monitor {P}. Arguments pool {P}. Arguments pending {P}.
Arguments restore_targets {P}. Arguments notice {P}. Arguments initial_events {P}.
Arguments ready {P}. Arguments discovered_ttl {P}.

(** The operations a generation calls.  [SWaitListener]: the events received
    until the proxy ends; [SDashboard]: the targets of its pool, the
    configuration it shows, the presses of the reload key (each with whether
    the proxy's channel is closed), the TTL it has seen. *)
Inductive SessionCall (P : Type) :=
  | SOwnPlane (p : P)
  | SOwnMonitor
  | SOwnPool (targets : list Target)
  | STakeEvents
  | SWaitListener (events : list bool)
  | SDashboard (targets : list Target) (active : Config) (presses : list (bool * Attempt)) (ttl : option Z).
Arguments SOwnPlane {P}. Arguments SOwnMonitor {P}. Arguments SOwnPool {P}.
Arguments STakeEvents {P}. Arguments SWaitListener {P}. Arguments SDashboard {P}.

Section session.
Context {P : Type} (max_permits : Z) {V : Type} `{EqDecision V} (to_value : Config → option V).
Implicit Types (s : Session P).

Definition session_new : Session P := MkSession None false None None None None [] false None.

Definition own_plane (p : P) s := MkSession (Some p) (monitor s) (pool s) (pending s)
  (restore_targets s) (notice s) (initial_events s) (ready s) (discovered_ttl s).
Definition set_plane (p : option P) (m : bool) s := MkSession p m (pool s) (pending s)
  (restore_targets s) (notice s) (initial_events s) (ready s) (discovered_ttl s).
Definition own_pool (ts : list Target) s := MkSession (plane s) (monitor s) (Some ts) (pending s)
  (restore_targets s) (notice s) (initial_events s) (ready s) (discovered_ttl s).
Definition set_events (evs : list bool) (r : bool) s := MkSession (plane s) (monitor s) (pool s) (pending s)
  (restore_targets s) (notice s) evs r (discovered_ttl s).
Definition set_reload (next : option Config) (ttl : option Z) s := MkSession (plane s) (monitor s) (pool s)
  next (restore_targets s) (notice s) (initial_events s) (ready s) ttl.
(** What the loop sets before the next generation. *)
Definition prepare (targets : option (list Target)) (msg : string) s := MkSession (plane s) (monitor s)
  (pool s) (pending s) targets (Some msg) (initial_events s) (ready s) (discovered_ttl s).
(** The resets at the head of the loop. *)
Definition fresh s := MkSession (plane s) (monitor s) None None (restore_targets s) (notice s) [] false None.

(** [wait_listener]: events are kept up to the one that says the listener is
    up; without one the generation fails. *)
Fixpoint wait_listener (events : list bool) s : Result * Session P :=
  match events with
  | [] => (inr "proxy stopped before its listener was ready", s)
  | e :: events =>
      let s' := set_events (initial_events s ++ [e]) (ready s) s in
      if e then (inl (), set_events (initial_events s') true s') else wait_listener events s'
  end.

(** [handle_reload_key], press after press, until one is accepted. *)
Fixpoint reload_presses (active : Config) (presses : list (bool * Attempt)) : option Config :=
  match presses with
  | [] => None
  | (closed, a) :: presses =>
      match candidate max_permits to_value (if closed then None else Some active) a with
      | inl (Some next) => Some next
      | _ => reload_presses active presses
      end
  end.

Definition dashboard ts active presses ttl s : Session P :=
  let s := own_pool ts s in
  match reload_presses active presses with
  | Some next => set_reload (Some next) ttl s
  | None => s
  end.

(** One call, and what a generation has made of the session when it ends; a
    call that fails ends it. *)
Definition session_call (c : SessionCall P) s : Result * Session P :=
  match c with
  | SOwnPlane p => (inl (), own_plane p s)
  | SOwnMonitor => (inl (), set_plane (plane s) true s)
  | SOwnPool ts => (inl (), own_pool ts s)
  | STakeEvents => (inl (), set_events [] (ready s) s)
  | SWaitListener events => wait_listener events s
  | SDashboard ts active presses ttl => (inl (), dashboard ts active presses ttl s)
  end.
Fixpoint session_calls (calls : list (SessionCall P)) (r : Result) s : Result * Session P :=
  match calls with
  | [] => (r, s)
  | c :: calls =>
      let '(r', s) := session_call c s in
      match r' with inl _ => session_calls calls r s | inr e => (inr e, s) end
  end.
End session.

(** ** The loop *)
Class ServiceEnv (P E : Type) := {
  execute : Config → Session P → E → (list (SessionCall P) * Result) * E;
  close_plane : P → E → (Result * P) * E;
  error_screen : string → E → (bool + string) * E;
  find_attempt : E → Attempt * E }.

Record Backup := MkBackup { bk_config : Config; bk_targets : list Target }.

Section loop.
Context `{ServiceEnv P E} (max_permits : Z) {V : Type} `{EqDecision V} (to_value : Config → option V).
Implicit Types (s : Session P) (e : E).

Definition close_generation s e : Result * Session P * E :=
  let s := set_plane (plane s) false s in
  match plane s with
  | Some p =>
      let '((r, p), e) := close_plane p e in
      match r with
      | inr err => (inr err, set_plane (Some p) false s, e)
      | inl _ => (inl (), set_plane None false s, e)
      end
  | None => (inl (), s, e)
  end.

(** [while let Err(error) = close_generation(..)]: [inr] leaves the loop with
    the error of the cleanup or of the screen. *)
Fixpoint close_until (fuel : nat) s e : option (Result * Session P) * E :=
  match fuel with
  | O => (None, e)
  | S fuel =>
      let '(r, s, e) := close_generation s e in
      match r with
      | inl _ => (Some (inl (), s), e)
      | inr error =>
          let '(answer, e) := error_screen ("Service stopped; cleanup not confirmed: " +:+ error) e in
          match answer with
          | inr screen_error => (Some (inr screen_error, s), e)
          | inl false => (Some (inr error, s), e)
          | inl true => close_until fuel s e
          end
      end
  end.

Fixpoint retry_screen (fuel : nat) (message : string) e : option ((option Config) + string) * E :=
  match fuel with
  | O => (None, e)
  | S fuel =>
      let '(answer, e) := error_screen message e in
      match answer with
      | inr screen_error => (Some (inr screen_error), e)
      | inl false => (Some (inl None), e)
      | inl true =>
          let '(a, e) := find_attempt e in
          match candidate max_permits to_value None a with
          | inl next => (Some (inl next), e)
          | inr error => retry_screen fuel ("Service stopped. Config reload failed: " +:+ error) e
          end
      end
  end.

(** The targets kept for a roll-back. *)
Definition backup_targets (cfg : Config) s : list Target :=
  let targets := default [] (pool s) in
  if LOAD_BALANCE_ENABLED cfg then targets else
  match targets with
  | t :: rest => MkTarget (t_ip t) (t_sni t) (t_score t) (tcp_latency t)
      (match discovered_ttl s with Some v => Some v | None => t_low_ttl t end) :: rest
  | [] => []
  end.

Definition reloaded : string := "Config reloaded successfully".

Fixpoint run_loop (fuel : nat) (cfg : Config) (last_good : option Backup) (restoring : bool) s e
    : option Result * Session P * E :=
  match fuel with
  | O => (None, s, e)
  | S fuel =>
      let s := fresh s in
      let '((calls, result), e) := execute cfg s e in
      let '(result, s) := session_calls max_permits to_value calls result s in
      let last_good := if ready s then Some (MkBackup cfg (backup_targets cfg s)) else last_good in
      let '(closed, e) := close_until fuel s e in
      match closed with
      | None => (None, s, e)
      | Some (inr error, s) => (Some (inr error), s, e)
      | Some (inl _, s) =>
          match result with
          | inl _ =>
              match pending s with
              | Some next =>
                  run_loop fuel next last_good false
                    (prepare None reloaded (set_reload None (discovered_ttl s) s)) e
              | None => (Some (inl ()), s, e)
              end
          | inr error =>
              match last_good with
              | None => (Some (inr error), s, e)
              | Some previous =>
                  if ready s then (Some (inr error), s, e) else
                  if negb restoring then
                    run_loop fuel (bk_config previous) last_good true
                      (prepare (Some (bk_targets previous))
                        ("Previous configuration restored. Config reload failed: " +:+ error) s) e
                  else
                    let '(answer, e) := retry_screen fuel
                      ("Service stopped. Restoring the previous configuration also failed: " +:+ error) e in
                    match answer with
                    | None => (None, s, e)
                    | Some (inr err) => (Some (inr err), s, e)
                    | Some (inl None) => (Some (inl ()), s, e)
                    | Some (inl (Some next)) =>
                        run_loop fuel next last_good false (prepare None reloaded s) e
                    end
              end
          end
      end
  end.

(** [run_with], up to the shutdown of the helper, whose result is [helper]. *)
Definition run_with (fuel : nat) (cfg : Config) (helper : Result) e : option Result * Session P * E :=
  let '(result, s, e) := run_loop fuel cfg None false session_new e in
  match result with
  | None => (None, s, e)
  | Some r =>
      let '(close_result, s, e) := close_generation s e in
      (Some match r, close_result with
            | inr err, _ => inr err
            | inl _, inr err => inr err
            | inl _, inl _ => helper
            end, s, e)
  end.
End loop.

(** ** What a run shows *)
Inductive Event (P : Type) :=
  | EvExecute (cfg : Config) (s : Session P) (calls : list (SessionCall P)) (r : Result)
  | EvClose (p : P) (r : Result) (p' : P)
  | EvScreen (message : string) (answer : bool + string)
  | EvAttempt (a : Attempt).
Arguments EvExecute {P}. Arguments EvClose {P}. Arguments EvScreen {P}. Arguments EvAttempt {P}.

Record Traced (P E : Type) := MkTraced { tr_env : E; tr_log : list (Event P) }.
Arguments MkTraced {P E}. Arguments tr_env {P E}. Arguments tr_log {P E}.

#[export] Instance traced `{ServiceEnv P E} : ServiceEnv P (Traced P E) := {
  execute cfg s t := let '(r, e) := execute cfg s (tr_env t) in
    (r, MkTraced e (tr_log t ++ [EvExecute cfg s r.1 r.2]));
  close_plane p t := let '(r, e) := close_plane p (tr_env t) in
    (r, MkTraced e (tr_log t ++ [EvClose p r.1 r.2]));
  error_screen m t := let '(r, e) := error_screen m (tr_env t) in
    (r, MkTraced e (tr_log t ++ [EvScreen m r]));
  find_attempt t := let '(r, e) := find_attempt (tr_env t) in
    (r, MkTraced e (tr_log t ++ [EvAttempt r])) }.

(** The plane that may still be up, the last generation that became ready,
    the configuration the user has asked for, and whether the last generation
    failed before it was ready and was not a roll-back itself. *)
Record View (P : Type) := MkView {
  w_owned : option P;
  w_good : option Backup;
  w_next : option Config;
  w_failed : bool }.
Arguments MkView {P}. Arguments w_owned {P}. Arguments w_good {P}.
Arguments w_next {P}. Arguments w_failed {P}.

Section views.
Context {P : Type} (max_permits : Z) {V : Type} `{EqDecision V} (to_value : Config → option V).

Definition see (v : View P) (ev : Event P) : View P :=
  match ev with
  | EvExecute cfg s calls r =>
      let '(r, s') := session_calls max_permits to_value calls r s in
      MkView (plane s')
        (if ready s' then Some (MkBackup cfg (backup_targets cfg s')) else w_good v)
        (if is_ok r then pending s' else None)
        (negb (is_ok r) && negb (ready s') && bool_decide (restore_targets s = None))
  | EvClose p r p' => MkView (if is_ok r then None else Some p') (w_good v) (w_next v) (w_failed v)
  | EvScreen _ _ => v
  | EvAttempt a => MkView (w_owned v) (w_good v)
      (match candidate max_permits to_value None a with inl next => next | inr _ => None end) (w_failed v)
  end.

(** A generation starts only when nothing of the one before is left; it runs
    the configuration the user asked for, or, after a failure, the last good
    one with its targets. *)
Definition allowed (v : View P) (ev : Event P) : Prop :=
  match ev with
  | EvExecute cfg s _ _ => w_owned v = None ∧ plane s = None ∧ monitor s = false ∧ ready s = false ∧
      pending s = None ∧ match restore_targets s with
      | Some ts => w_failed v = true ∧ w_good v = Some (MkBackup cfg ts)
      | None => w_next v = Some cfg
      end
  | EvClose p _ _ => w_owned v = Some p
  | _ => True
  end.

Definition view_start (cfg : Config) : View P := MkView None None (Some cfg) false.
Definition view (cfg : Config) (log : list (Event P)) : View P := foldl see (view_start cfg) log.
Definition lawful (cfg : Config) (log : list (Event P)) : Prop :=
  each_allowed (λ pre, allowed (view cfg pre)) log.

(** A configuration that passed the checks of a reload. *)
Definition vetted (cfg : Config) : Prop :=
  ∃ active a, candidate max_permits to_value active a = inl (Some cfg).
End views.

(** ** Lemmas *)
Section facts.
Context {P : Type} (max_permits : Z) {V : Type} `{EqDecision V} (to_value : Config → option V).
Implicit Types (s : Session P) (log : list (Event P)).

Lemma session_view_snoc cfg log ev :
  view max_permits to_value cfg (log ++ [ev]) = see max_permits to_value (view max_permits to_value cfg log) ev.
Proof. unfold view. by rewrite foldl_app. Qed.

Lemma session_lawful_snoc cfg log ev : lawful max_permits to_value cfg log →
  allowed (view max_permits to_value cfg log) ev → lawful max_permits to_value cfg (log ++ [ev]).
Proof. intros. by apply each_allowed_snoc. Qed.

Lemma session_lawful_inv cfg log ev : lawful max_permits to_value cfg (log ++ [ev]) →
  lawful max_permits to_value cfg log ∧ allowed (view max_permits to_value cfg log) ev.
Proof. apply (each_allowed_snoc (λ pre, allowed (view max_permits to_value cfg pre))). Qed.

(** What a generation's calls keep. *)
Lemma wait_listener_keeps events s :
  let s' := (wait_listener events s).2 in
  restore_targets s' = restore_targets s ∧ pending s' = pending s.
Proof.
  revert s. induction events as [|[] events IH]; intros s; [done|done|]. cbn [wait_listener].
  destruct (IH (set_events (initial_events s ++ [false]) (ready s) s)) as [-> ->]. done.
Qed.

Lemma reload_presses_vetted active presses next :
  reload_presses max_permits to_value active presses = Some next → vetted max_permits to_value next.
Proof.
  induction presses as [|[closed a] presses IH]; [done|]. cbn [reload_presses].
  destruct (candidate _ _ _ a) as [[c|]|e] eqn:E; [|done|done]. intros [= <-]. by eexists _, a.
Qed.

Lemma session_calls_keep calls r s :
  let s' := (session_calls max_permits to_value calls r s).2 in
  restore_targets s' = restore_targets s ∧
  ∀ next, pending s' = Some next → pending s = Some next ∨ vetted max_permits to_value next.
Proof.
  revert s. induction calls as [|c calls IH]; intros s; [by auto|]. cbn [session_calls].
  assert (let s' := (session_call max_permits to_value c s).2 in
    restore_targets s' = restore_targets s ∧
    ∀ next, pending s' = Some next → pending s = Some next ∨ vetted max_permits to_value next) as Hc.
  { destruct c as [p| |ts| |events|ts active presses ttl]; cbn [session_call snd]; try by auto.
    - destruct (wait_listener_keeps events s) as [-> ->]. auto.
    - unfold dashboard. destruct (reload_presses _ _ _ _) as [next|] eqn:E; [|by auto].
      split; [done|]. cbn. intros ? [= <-]. right. by eapply reload_presses_vetted. }
  destruct (session_call _ _ c s) as [[[]|e] s1]; cbn [snd] in *; [|done].
  specialize (IH s1). destruct (session_calls _ _ calls r s1) as [r' s2]. cbn [snd] in *.
  destruct IH as [-> IH], Hc as [-> Hc]. split; [done|]. intros next [Hn|]%IH; auto.
Qed.

(** Every configuration that is run is the first one or was vetted. *)
Definition known (cfg c : Config) : Prop := c = cfg ∨ vetted max_permits to_value c.

Lemma lawful_known cfg log : lawful max_permits to_value cfg log →
  (∀ c, w_next (view max_permits to_value cfg log) = Some c → known cfg c) ∧
  (∀ b, w_good (view max_permits to_value cfg log) = Some b → known cfg (bk_config b)) ∧
  (∀ c s calls r, EvExecute c s calls r ∈ log → known cfg c).
Proof.
  induction log as [|ev log IH] using rev_ind; intros Hl.
  { split; [|split]; [|done|by intros ? ? ? ? ?%not_elem_of_nil]. intros c [= <-]. by left. }
  apply session_lawful_inv in Hl as [Hl Ha]. destruct (IH Hl) as (Hn & Hg & Hx). clear IH.
  rewrite session_view_snoc. set (v := view _ _ cfg log) in *.
  destruct ev as [c s calls r|p r p'|m a|a]; cbn [allowed] in Ha.
  - destruct Ha as (_ & _ & _ & _ & Hp & Ha).
    assert (known cfg c) as Hc.
    { destruct (restore_targets s); [destruct Ha as [_ Ha]; apply (Hg _ Ha)|by apply Hn]. }
    pose proof (session_calls_keep calls r s) as [_ Hk]. cbn [see].
    destruct (session_calls _ _ calls r s) as [r' s']. cbn [snd w_next w_good] in *. split; [|split].
    + intros c'. destruct (is_ok r'); [|done]. intros Hs'. destruct (Hk c' Hs') as [Hs''|]; [congruence|by right].
    + intros b. destruct (ready s'); [|by apply Hg]. by intros [= <-].
    + intros c' s1 calls' r1 [Hin|Hin]%elem_of_app; [by eapply Hx|]. apply list_elem_of_singleton in Hin. by simplify_eq.
  - split; [done|]. split; [done|]. intros c' s1 calls' r1 [Hin|Hin]%elem_of_app; [by eapply Hx|].
    by apply list_elem_of_singleton in Hin.
  - split; [done|]. split; [done|]. intros c' s1 calls' r1 [Hin|Hin]%elem_of_app; [by eapply Hx|].
    by apply list_elem_of_singleton in Hin.
  - split; [|split; [done|]].
    + intros c'. cbn [see w_next]. destruct (candidate _ _ None a) as [next|] eqn:E; [|done].
      intros ->. right. by eexists None, a.
    + intros c' s1 calls' r1 [Hin|Hin]%elem_of_app; [by eapply Hx|]. by apply list_elem_of_singleton in Hin.
Qed.
End facts.

Section run_facts.
Context `{ServiceEnv P E} (max_permits : Z) {V : Type} `{EqDecision V} (to_value : Config → option V).
Context (cfg0 : Config).
Implicit Types (s : Session P) (t : Traced P E).
Notation view := (view max_permits to_value cfg0).
Notation lawful := (lawful max_permits to_value cfg0).

(** The log knows the session's plane. *)
Definition synced s t : Prop := lawful (tr_log t) ∧ w_owned (view (tr_log t)) = plane s.
(** The rest of the view. *)
Definition same_rest (v v' : View P) : Prop :=
  w_good v' = w_good v ∧ w_next v' = w_next v ∧ w_failed v' = w_failed v.

#[local] Instance same_rest_trans : Transitive same_rest.
Proof. intros v1 v2 v3 (H1 & H2 & H3) (H4 & H5 & H6). unfold same_rest. by rewrite H4, H5, H6. Qed.

Lemma close_generation_ok s t : synced s t →
  let '(r, s', t') := close_generation s t in
  synced s' t' ∧ same_rest (view (tr_log t)) (view (tr_log t')) ∧
  s' = set_plane (plane s') false s ∧ (is_ok r = true → plane s' = None).
Proof.
  intros [Hl Ho]. unfold close_generation. cbn [plane set_plane].
  destruct (plane s) as [p|] eqn:Ep; [|by split_and!].
  cbn [close_plane traced]. destruct (close_plane p (tr_env t)) as [[r p'] e]. cbn [fst snd].
  assert (lawful (tr_log t ++ [EvClose p r p'])) as Hl' by (apply session_lawful_snoc; [done|]; exact Ho).
  destruct r as [[]|err]; (split; [split; cbn [tr_log]; [done|by rewrite session_view_snoc]|]);
    cbn [tr_log]; rewrite session_view_snoc; done.
Qed.

Lemma close_until_ok fuel s t : synced s t →
  match close_until fuel s t with
  | (None, t') => lawful (tr_log t')
  | (Some (r, s'), t') => synced s' t' ∧ same_rest (view (tr_log t)) (view (tr_log t')) ∧
      s' = set_plane (plane s') false s ∧ (is_ok r = true → plane s' = None)
  end.
Proof.
  revert s t. induction fuel as [|fuel IH]; intros s t Hs; [apply Hs|]. cbn [close_until].
  pose proof (close_generation_ok s t Hs) as Hc. destruct (close_generation s t) as [[r s1] t1].
  destruct Hc as (Hs1 & Hv1 & Hk1 & Hp1). destruct r as [u|err]; [done|].
  cbn [error_screen traced]. destruct (error_screen _ (tr_env t1)) as [answer e].
  set (t2 := MkTraced e _).
  assert (synced s1 t2 ∧ same_rest (view (tr_log t1)) (view (tr_log t2))) as [Hs2 Hv2].
  { unfold t2. destruct Hs1 as [Hl1 Ho1]. unfold synced. cbn [tr_log]. rewrite session_view_snoc.
    split; [|done]. split; [by apply session_lawful_snoc|done]. }
  destruct answer as [[]|err'].
  - specialize (IH s1 t2 Hs2). destruct (close_until fuel s1 t2) as [[[r s']|] t']; [|done].
    destruct IH as (? & ? & Hs' & ?). split; [done|]. split; [by do 2 (etransitivity; [done|])|].
    split; [|done]. rewrite Hs' at 1. rewrite Hk1. done.
  - split; [done|]. split; [by etransitivity|done].
  - split; [done|]. split; [by etransitivity|done].
Qed.

Lemma retry_screen_ok fuel message s t : synced s t →
  let '(r, t') := retry_screen max_permits to_value fuel message t in
  synced s t' ∧ w_good (view (tr_log t')) = w_good (view (tr_log t)) ∧
  ∀ next, r = Some (inl (Some next)) → w_next (view (tr_log t')) = Some next.
Proof.
  revert message t. induction fuel as [|fuel IH]; intros message t Hs; [done|]. cbn [retry_screen].
  cbn [error_screen traced]. destruct (error_screen _ (tr_env t)) as [answer e].
  set (t1 := MkTraced e _).
  assert (synced s t1 ∧ w_good (view (tr_log t1)) = w_good (view (tr_log t))) as [Hs1 Hg1].
  { unfold t1. destruct Hs as [Hl Ho]. cbn [tr_log]. rewrite session_view_snoc. split; [|done].
    split; cbn [tr_log]; [by apply session_lawful_snoc|by rewrite session_view_snoc]. }
  destruct answer as [[]|err]; [|done..].
  cbn [find_attempt traced]. destruct (find_attempt (tr_env t1)) as [a e2]. set (t2 := MkTraced e2 _).
  assert (synced s t2 ∧ w_good (view (tr_log t2)) = w_good (view (tr_log t))) as [Hs2 Hg2].
  { unfold t2. destruct Hs1 as [Hl Ho]. cbn [tr_log]. rewrite session_view_snoc. split; [|done].
    split; cbn [tr_log]; [by apply session_lawful_snoc|by rewrite session_view_snoc]. }
  destruct (candidate _ _ None a) as [next|err] eqn:Ec.
  2: { rewrite <-Hg2. by apply IH. }
  split; [done|]. split; [done|]. intros next' [= ->]. unfold t2. cbn [tr_log]. rewrite session_view_snoc. cbn [see w_next]. by rewrite Ec.
Qed.

(** What holds at the head of the loop. *)
Definition at_head (cfg : Config) (last_good : option Backup) (restoring : bool) s t : Prop :=
  synced s t ∧ plane s = None ∧ monitor s = false ∧ w_good (view (tr_log t)) = last_good ∧
  if restoring then
    w_failed (view (tr_log t)) = true ∧
    ∃ b, last_good = Some b ∧ cfg = bk_config b ∧ restore_targets s = Some (bk_targets b)
  else restore_targets s = None ∧ w_next (view (tr_log t)) = Some cfg.

Lemma run_loop_ok fuel cfg last_good restoring s t : at_head cfg last_good restoring s t →
  let '(r, s', t') := run_loop max_permits to_value fuel cfg last_good restoring s t in
  lawful (tr_log t') ∧ (is_Some r → synced s' t').
Proof.
  revert cfg last_good restoring s t. induction fuel as [|fuel IH];
    intros cfg last_good restoring s t (Hs & Hp & Hm & Hg & Hr).
  { split; [apply Hs|]. by intros [? ?]. }
  cbn [run_loop]. set (s0 := fresh s). cbn [execute traced].
  destruct (execute cfg s0 (tr_env t)) as [[calls result] e]. cbn [fst snd].
  set (t1 := MkTraced e _).
  assert (lawful (tr_log t1)) as Hl1.
  { unfold t1. cbn [tr_log]. destruct Hs as [Hl Ho]. apply session_lawful_snoc; [done|]. cbn [allowed].
    unfold s0, fresh. cbn [plane monitor ready pending restore_targets]. rewrite Ho, Hg.
    split_and!; try done. destruct restoring.
    - destruct Hr as (Hf & b & -> & -> & ->). split; [done|]. by destruct b.
    - destruct Hr as [-> Hr]. done. }
  pose proof (session_calls_keep max_permits to_value calls result s0) as [Hk _].
  assert (view (tr_log t1) = see max_permits to_value (view (tr_log t)) (EvExecute cfg s0 calls result)) as Hv1
    by (unfold t1; cbn [tr_log]; apply session_view_snoc).
  cbn [see] in Hv1. destruct (session_calls _ _ calls result s0) as [result' s1]. cbn [snd] in Hk.
  change (restore_targets s0) with (restore_targets s) in Hk, Hv1. rewrite Hg in Hv1.
  set (last_good' := if ready s1 then _ else last_good) in *.
  assert (synced s1 t1) as Hs1 by (split; [done|by rewrite Hv1]).
  pose proof (close_until_ok fuel s1 t1 Hs1) as Hc.
  destruct (close_until fuel s1 t1) as [[[r2 s2]|] t2].
  2: { split; [done|]. by intros [? ?]. }
  destruct Hc as (Hs2 & (Hg2 & Hn2 & Hf2) & Hk2 & Hp2). rewrite Hv1 in Hg2, Hn2, Hf2.
  cbn [w_good w_next w_failed] in Hg2, Hn2, Hf2.
  destruct r2 as [u|err]; [|split; [apply Hs2|done]]. specialize (Hp2 eq_refl).
  assert (monitor s2 = false ∧ ready s2 = ready s1 ∧ pending s2 = pending s1) as (Hm2 & Hr2 & Hpe2)
    by (rewrite Hk2; done).
  destruct result' as [u'|error]; cbn [is_ok negb andb] in *.
  - rewrite Hpe2. destruct (pending s1) as [next|]; [|split; [apply Hs2|done]]. apply IH.
    split; [done|]. by split_and!.
  - destruct last_good' as [b|] eqn:Eb; [|split; [apply Hs2|done]]. rewrite Hr2.
    destruct (ready s1) eqn:Er1; [split; [apply Hs2|done]|].
    destruct restoring; cbn [negb].
    + pose proof (retry_screen_ok fuel
        ("Service stopped. Restoring the previous configuration also failed: " +:+ error) s2 t2 Hs2) as Hrs.
      destruct (retry_screen _ _ fuel _ t2) as [answer t3]. destruct Hrs as (Hs3 & Hg3 & Hn3).
      destruct answer as [[[next|]|err]|]; [|split; [apply Hs3|done]..|split; [apply Hs3|by intros [? ?]]].
      apply IH. split; [done|]. split; [done|]. split; [done|]. split; [by rewrite Hg3|].
      split; [done|]. by apply Hn3.
    + apply IH. split; [done|]. split; [done|]. split; [done|]. split; [done|].
      destruct Hr as [Hr _]. rewrite Hf2, Hr. cbn. split; [done|]. by exists b.
Qed.
End run_facts.



(** ** An example *)
Module Sample.
Import DataPlane.

(** A scripted environment: what the generations do, and the answers. *)
Record Env := MkEnv {
  en_generations : list (list (SessionCall nat) * Result);
  en_closes : list Result;
  en_answers : list bool;
  en_attempts : list Attempt }.

#[export] Instance env : ServiceEnv nat Env := {
  execute _ _ e := (default ([], inr "no more"%string) (head (en_generations e)),
    MkEnv (tail (en_generations e)) (en_closes e) (en_answers e) (en_attempts e));
  close_plane p e := ((default (inl ()) (head (en_closes e)), p),
    MkEnv (en_generations e) (tail (en_closes e)) (en_answers e) (en_attempts e));
  error_screen _ e := (inl (default false (head (en_answers e))),
    MkEnv (en_generations e) (en_closes e) (tail (en_answers e)) (en_attempts e));
  find_attempt e := (default (MkAttempt (inr "no file"%string) None true true 0) (head (en_attempts e)),
    MkEnv (en_generations e) (en_closes e) (en_answers e) (tail (en_attempts e))) }.

Definition first : Config := wrong_md5_config.
Definition found : Attempt := MkAttempt (inl (default_config "127.0.0.1"%string 8443)) None true true 0.
Definition target : Target := target_sni "example.com" 16843009 90.

(** A generation that runs until the user reloads; the new one fails before it
    is ready, its plane closed at the second attempt; the old one comes back
    and is quit. *)
Definition start : Env := MkEnv
  [ ([SOwnPlane 1; SOwnPool [target]; SWaitListener [false; true];
      SDashboard [target] first [(true, found)] (Some 7%Z)], inl ());
    ([SOwnPlane 2; SWaitListener [false]], inl ());
    ([SOwnPlane 3; SWaitListener [true]; SDashboard [target] first [] None], inl ()) ]
  [ inl (); inr "still stopping"%string; inl (); inl () ] [true] [].

Definition summary (ev : Event nat) : string * nat :=
  match ev with
  | EvExecute _ s _ _ => (default ""%string (notice s), length (default [] (restore_targets s)))
  | EvClose p r _ => (if is_ok r then "closed"%string else "not closed"%string, p)
  | EvScreen _ _ => ("screen"%string, 0)
  | EvAttempt _ => ("attempt"%string, 0)
  end.
Definition trace : list (string * nat) :=
  map summary (tr_log (run_with (P := nat) (E := Traced nat Env) 1024 (V := ()) (λ _, Some ()) 9 first (inl ())
    (MkTraced start [])).2).
End Sample.

Example session_trace : Sample.trace =
  [(EmptyString, 0); ("closed"%string, 1); ("Config reloaded successfully"%string, 0);
   ("not closed"%string, 2); ("screen"%string, 0); ("closed"%string, 2);
   ("Previous configuration restored. Config reload failed: proxy stopped before its listener was ready"%string, 1);
   ("closed"%string, 3)].
Proof. vm_compute. reflexivity. Qed.
