(* ===== verification/CommandLine.v ===== *)
(** * The command line

    Model of [Args] of [crates/zerodpi/src/main.rs] and of [ConfigSource] of
    [reload.rs]: where the configuration is, its overrides and its
    validation. *)
From stdpp Require Import base list numbers strings gmap.
From coqutil Require Import Datatypes.RecordSetters.
Import DoubleBraceUpdate.
From Stdlib Require Import ZArith Lia Ascii.
From S2P Require Import Prelude Text NetAddr Config.
Local Open Scope string_scope.
Local Open Scope nat_scope.
Local Open Scope list_scope.

Record Args := MkArgs {
  a_config : option string;
  a_listen_host : option string; a_listen_port : option Z; a_auto_select : bool;
  a_no_tui : bool; a_json_events : bool; a_sni : option string; a_method : option string;
  a_queue_num : option Z; a_scan_timeout : option Z; a_rescan_interval : option Z;
  a_sni_switch_min_score : option Z; a_wrong_seq_extra_offset : option Z;
  a_wrong_seq_no_psh : bool; a_wrong_seq_no_bump_ident : bool;
  a_bypass_timeout : option Z; a_relay_max_lifetime : option Z;
  a_root_helper_socket : option string; a_root_helper_session_file : option string;
  a_expected_data_plane_uid : option Z }.

(** The assignments are to different fields. *)
Definition apply_args (a : Args) (cfg : Config) : Config := cfg{{
  LISTEN_HOST := default (LISTEN_HOST cfg) (a_listen_host a);
  LISTEN_PORT := default (LISTEN_PORT cfg) (a_listen_port a);
  AUTO_SELECT := AUTO_SELECT cfg || a_auto_select a;
  SELECTED_SNI := match a_sni a with Some v => Some v | None => SELECTED_SNI cfg end;
  BYPASS_METHOD := match a_method a with Some v => from_delimited v | None => BYPASS_METHOD cfg end;
  NFQUEUE_NUM := default (NFQUEUE_NUM cfg) (a_queue_num a);
  SCAN_TIMEOUT_SECS := default (SCAN_TIMEOUT_SECS cfg) (a_scan_timeout a);
  RESCAN_INTERVAL_SECS := default (RESCAN_INTERVAL_SECS cfg) (a_rescan_interval a);
  SNI_SWITCH_MIN_SCORE := default (SNI_SWITCH_MIN_SCORE cfg) (a_sni_switch_min_score a);
  WRONG_SEQ_EXTRA_OFFSET := default (WRONG_SEQ_EXTRA_OFFSET cfg) (a_wrong_seq_extra_offset a);
  WRONG_SEQ_SET_PSH := WRONG_SEQ_SET_PSH cfg && negb (a_wrong_seq_no_psh a);
  WRONG_SEQ_BUMP_IP_IDENT := WRONG_SEQ_BUMP_IP_IDENT cfg && negb (a_wrong_seq_no_bump_ident a);
  BYPASS_TIMEOUT_SECS := default (BYPASS_TIMEOUT_SECS cfg) (a_bypass_timeout a);
  RELAY_MAX_LIFETIME_SECS := default (RELAY_MAX_LIFETIME_SECS cfg) (a_relay_max_lifetime a) }}.

(** [Path::join] on a directory, of Unix. *)
Definition is_absolute (path : string) : bool := match path with String "/"%char _ => true | _ => false end.
Definition ends_in_slash (path : string) : bool :=
  match rev (String.list_ascii_of_string path) with "/"%char :: _ => true | _ => false end.
Definition join_path (dir raw : string) : string :=
  if is_absolute raw then raw
  else if bool_decide (dir = EmptyString) || ends_in_slash dir then dir +:+ raw
  else dir +:+ "/" +:+ raw.
(** [ConfigSource::new]: the path; [exe_dir] and [cwd] are known or not. *)
Definition config_path (a : Args) (exe_dir cwd : option string) : option string :=
  let path := match a_config a with
    | Some path => path
    | None => match exe_dir with Some d => join_path d "config.toml" | None => "config.toml" end
    end in
  if is_absolute path then Some path else d ← cwd; Some (join_path d path).

(** [ConfigSource::load]; [parsed] is [Config::from_file]. *)
Definition load_config (max_permits : Z) (parsed : result Config) (a : Args) : result Config :=
  r_bind parsed (λ cfg, let cfg := apply_args a cfg in r_bind (validate max_permits cfg) (λ _, Ok cfg)).

Lemma load_config_ok max_permits parsed a cfg : load_config max_permits parsed a = Ok cfg →
  ∃ p, parsed = Ok p ∧ cfg = apply_args a p ∧ validate max_permits cfg = Ok ().
Proof.
  unfold load_config. generalize (apply_args a). intros f. destruct parsed as [p|e]; cbn [r_bind]; [|done].
  destruct (validate max_permits (f p)) as [[]|e] eqn:E; cbn [r_bind]; [|done]. intros [= <-]. by exists p.
Qed.
