(* ===== verification/Startup.v ===== *)
(** * Starting a mode

    Model of the three proxy modes of [crates/zerodpi/src/main.rs]
    ([run_config] for [sni_spoof]), up to the moment they serve.  Scans, lookups, the user's choice, the uplinks, the interceptor, the helper
    and the monitor are what [Surroundings] says; what the program does is kept
    in order.  A failure is named after the place it comes from, without its
    text; logging is left out. *)
From stdpp Require Import base list numbers strings gmap.
From Stdlib Require Import ZArith Lia.
From S2P Require Import Prelude Text NetAddr Flow Config CommandLine Methods Composite Netmon ScanList Scanner TargetPool Rescan Reload Headless.
Import TargetPool.
Local Open Scope string_scope.
Local Open Scope nat_scope.
Local Open Scope list_scope.

(** ** What a mode does *)
Inductive ProxyMode := SniSpoof | IpBypass | IpBypassPlus.
Inductive Act :=
  | Tell (e : RuntimeEvent)
  | OwnPool (ts : list Target) | OwnPlane | OwnMonitor        (* the interactive session's *)
  | PrepareRemote (b : InterfaceBinding) | OpenLocal (b : InterfaceBinding)   (* attempted *)
  | SpawnRescan (interval : Z) (manual : bool)
  | StartMonitor (probe_target : Z) (b : InterfaceBinding)
  | SpawnRecovery (automatic : bool) (b : InterfaceBinding)
  | SpawnProxy (mode : ProxyMode) (ts : list Target)
  | Serve.

Inductive Failure :=
  | NoUplink | RestoreRefused | Ipv6Target | NoTargetSni
  | LookupFailed (e : string) | ScanFailed (e : string) | NoReachable | NoBalancedTargets | MissingRanked
  | NoProbeResults | NoSession | SelectionFailed | PoolRefused | NoInitialUplink
  | HelperRefused (e : string) | UnknownMethod | OpenFailed (e : string) | TtlRefused | MonitorFailed
  | BadSelectedIp | ListFailed (e : string) | Ipv6Candidate | EmptyIpList | NoIpPassed
  | ServeFailed (e : string)
  | NoConfigPath | ConfigRefused (e : string) | NoDnsServers
  | HelperNotNeeded | UidRefused | HelperUnreachable (e : string) | BootstrapIncomplete
  | AccessRefused | SessionEnded (e : string)
  | NoCandidates | BadListenAddress | NoSocks5 | TestsPanicked | SaveFailed | ScreenFailed.

Inductive Outcome (A : Type) := Returned (a : A) | Failed (f : Failure) | Panicked.
Arguments Returned {A}. Arguments Failed {A}. Arguments Panicked {A}.
(** What is done is listed; a failure or a panic ends it. *)
Definition proc (W A : Type) : Type := list W → Outcome A * list W.
#[export] Instance proc_ret W : MRet (proc W) := λ A a es, (Returned a, es).
#[export] Instance proc_bind W : MBind (proc W) := λ A B k m es,
  match m es with
  | (Returned a, es) => k a es
  | (Failed f, es) => (Failed f, es)
  | (Panicked, es) => (Panicked, es)
  end.
Definition act {W} (a : W) : proc W () := λ es, (Returned (), es ++ [a]).
Definition acts {W} (l : list W) : proc W () := λ es, (Returned (), es ++ l).
Definition fail_with {W A} (f : Failure) : proc W A := λ es, (Failed f, es).
Definition or_fail {W A} (o : option A) (f : Failure) : proc W A :=
  match o with Some a => mret a | None => fail_with f end.
Definition lift {W A} (x : exec A) : proc W A :=
  λ es, match x with Done a => (Returned a, es) | Panic => (Panicked, es) end.
Definition when {W} (b : bool) (m : proc W ()) : proc W () := if b then m else mret ().
Notation start := (proc Act).

(** What is met.  [su_scan_sni] and [su_scan_ips] are the ranked results of
    either scan, headless or on screen; [su_lookup] starts the resolver too. *)
Record Surroundings := MkSurroundings {
  su_scan_uplink : option InterfaceBinding;
  su_uplink : Z → option InterfaceBinding;
  su_lookup : string → result (list Z);
  su_scan_sni : result (list SniProbeEntry);
  su_pick_sni : list SniProbeEntry → option SniProbeEntry;
  su_ips : result (list IpAddr);
  su_scan_ips : list IpAddr → result (list IpProbeEntry);
  su_pick_ip : list IpProbeEntry → option IpProbeEntry;
  su_prepare : InterfaceBinding → option string;
  su_open : InterfaceBinding → option string;
  su_answer : HelperAnswer;
  su_discover : string → Z → option Z;
  su_monitor : bool;
  su_serve : () + string;
  su_seed : Z }.

Section modes.
Context (su : Surroundings).

(** [no_tui]; the interactive session with the targets it wants back; whether
    there is a root helper. *)
Context (no_tui : bool) (session : option (option (list Target))) (helper : bool).

Definition with_session (m : start ()) : start () := when (is_some session) m.
Definition need_session : start () := if is_some session then mret () else fail_with NoSession.
Definition ip_target (ip : IpAddr) : start Z := or_fail (require_ipv4_target ip) Ipv6Target.

Definition restored_pool (cfg : Config) : start (option TargetPool) :=
  match session with
  | Some (Some ts) =>
      p ← lift (restore_pool cfg ts (su_seed su));
      match p with Some p => mret (Some p) | None => fail_with RestoreRefused end
  | _ => mret None
  end.
Definition pool_strategy (cfg : Config) : SelectionStrategy :=
  if LOAD_BALANCE_ENABLED cfg then LOAD_BALANCE_STRATEGY cfg else RoundRobin.
Definition new_pool (cfg : Config) (ts : list Target) : start TargetPool :=
  p ← lift (new (pool_strategy cfg) ts (su_seed su)); or_fail p PoolRefused.

(** *** Finding the SNI target *)
Definition resolve_single_sni (sni : string) : start (list SniProbeEntry) :=
  match su_lookup su sni with
  | Err e => fail_with (LookupFailed e)
  | Ok [] => fail_with (LookupFailed "no IPv4 addresses found")
  | Ok ips => mret ((λ ip, MkSniProbe sni ip blank 0%Z) <$> ips)
  end.
(** The entries the target is chosen from. *)
Definition sni_entries (cfg : Config) : start (list SniProbeEntry) :=
  match SELECTED_SNI cfg with
  | Some sni => resolve_single_sni sni
  | None =>
      when (negb no_tui) need_session;;
      match su_scan_sni su with
      | Err e => fail_with (ScanFailed e)
      | Ok [] => fail_with NoReachable
      | Ok entries => mret entries
      end
  end.
Definition balanced_sni (cfg : Config) (entries : list SniProbeEntry) : list Target :=
  if LOAD_BALANCE_ENABLED cfg then
    if is_some (SELECTED_SNI cfg) then option_list (from_sni <$> head entries)
    else sni_candidates entries (LOAD_BALANCE_TARGET_COUNT cfg) 1
  else [].
Definition select_sni (cfg : Config) (entries : list SniProbeEntry) (balanced : list Target) : start SniProbeEntry :=
  if LOAD_BALANCE_ENABLED cfg then
    first ← lift (idx balanced 0);
    or_fail (snd <$> list_find (λ e, IpV4 (sp_ip e) = t_ip first ∧ Some (sp_sni e) = t_sni first) entries) MissingRanked
  else if AUTO_SELECT cfg || is_some (SELECTED_SNI cfg) || no_tui then or_fail (head entries) NoProbeResults
  else need_session;; or_fail (su_pick_sni su entries) SelectionFailed.

(** Steps 1 and 2: the pool and the target to start with. *)
Definition find_sni_target (cfg : Config) : start (TargetPool * ActiveSniTarget) :=
  restored ← restored_pool cfg;
  match restored with
  | Some pool =>
      t ← lift (representative pool);
      ip ← ip_target (t_ip t);
      sni ← or_fail (t_sni t) NoTargetSni;
      mret (pool, MkActiveSni sni ip (t_score t))
  | None =>
      entries ← sni_entries cfg;
      let balanced := balanced_sni cfg entries in
      when (LOAD_BALANCE_ENABLED cfg && is_nil balanced) (fail_with NoBalancedTargets);;
      selected ← select_sni cfg entries balanced;
      act (Tell (EvSelectedTarget TargetSni (Some (sp_sni selected)) (IpV4 (sp_ip selected)) (Some (sp_score selected))));;
      pool ← new_pool cfg (if LOAD_BALANCE_ENABLED cfg then balanced else [from_sni selected]);
      mret (pool, active_of selected)
  end.

(** *** The plane *)

(** Whether the live method here has a TTL handle. *)
Definition prepare_plane (cfg : Config) (b : InterfaceBinding) : start bool :=
  if is_socket_only (BYPASS_METHOD cfg) then with_session (act OwnPlane);; mret false
  else if helper then
    with_session (act OwnPlane);;
    act (PrepareRemote b);;
    match su_prepare su b with
    | Some e => fail_with (HelperRefused e)
    | None => with_session (act OwnPlane);; mret false
    end
  else
    m ← or_fail (build_method cfg (su_seed su)) UnknownMethod;
    act (OpenLocal b);;
    match su_open su b with
    | Some e => fail_with (OpenFailed e)
    | None => with_session (act OwnPlane);; mret (bm_low_ttl_handle m)
    end.
Definition ttl_applier (local : bool) : option LowTtlApplier :=
  if local then Some Local else if helper then Some (Remote (su_answer su)) else None.

(** *** The end all three share *)
Definition serve (mode : ProxyMode) (automatic : bool) (b : InterfaceBinding) (l : Rescan.Live) : start () :=
  act (StartMonitor (lv_probe_target l) b);;
  when (negb (su_monitor su)) (fail_with MonitorFailed);;
  with_session (act OwnMonitor);;
  act (SpawnRecovery automatic b);;
  act (SpawnProxy mode (Rescan.targets l));;
  when (negb no_tui) need_session;;
  act Serve;;
  match su_serve su with inl _ => mret () | inr e => fail_with (ServeFailed e) end.
Definition spawn_rescan (cfg : Config) : start () :=
  when ((0 <? RESCAN_INTERVAL_SECS cfg)%Z || negb no_tui) (act (SpawnRescan (RESCAN_INTERVAL_SECS cfg) (negb no_tui))).
Definition own_pool (pool : TargetPool) : start () := with_session (act (OwnPool (m_target <$> members pool))).
Definition live_pool (pool : TargetPool) (ip : IpAddr) (ttl : Z) : Rescan.Live :=
  MkLive (MkWorld pool []) (monitor_probe_target ip) ttl [].

Definition sni_spoof_main (cfg : Config) : start () :=
  _ ← or_fail (su_scan_uplink su) NoUplink;
  '(pool, selected) ← find_sni_target cfg;
  own_pool pool;;
  binding ← or_fail (su_uplink su (as_ip selected)) NoInitialUplink;
  handle ← prepare_plane cfg binding;
  l ← lift (startup_low_ttl cfg (is_some (session ≫= id)) (ttl_applier handle) (su_discover su)
        (as_sni selected) (as_ip selected) (live_pool pool (IpV4 (as_ip selected)) (LOW_TTL_VALUE cfg)));
  l ← or_fail l TtlRefused;
  spawn_rescan cfg;;
  serve SniSpoof ((AUTO_SELECT cfg || LOAD_BALANCE_ENABLED cfg) && is_none (SELECTED_SNI cfg)) binding l.

(** *** The two modes over addresses; [plus]: [ip_bypass_plus]. *)
Definition scanned_ip (plus : bool) (cfg : Config) : start (IpAddr * option Z * list Target) :=
  match su_ips su with
  | Err e => fail_with (ListFailed e)
  | Ok ips =>
      when (plus && reject_ipv6_ip_candidates ips) (fail_with Ipv6Candidate);;
      when (is_nil ips) (fail_with EmptyIpList);;
      when (negb no_tui) need_session;;
      match su_scan_ips su ips with
      | Err e => fail_with (ScanFailed e)
      | Ok entries =>
          let balanced := if LOAD_BALANCE_ENABLED cfg then ip_candidates entries (LOAD_BALANCE_TARGET_COUNT cfg) else [] in
          let entries := if LOAD_BALANCE_ENABLED cfg
            then filter (λ e, existsb (λ t, bool_decide (t_ip t = ipp_ip e)) balanced = true) entries else entries in
          when (is_nil entries) (fail_with NoIpPassed);;
          e ← (if LOAD_BALANCE_ENABLED cfg || AUTO_SELECT cfg || no_tui then or_fail (head entries) NoProbeResults
               else need_session;; or_fail (su_pick_ip su entries) SelectionFailed);
          mret (ipp_ip e, Some (ipp_score e), balanced)
      end
  end.
Definition active_ip (plus : bool) (cfg : Config) (restored : option TargetPool) : start (IpAddr * option Z * list Target) :=
  match restored, SELECTED_IP cfg with
  | Some pool, _ => t ← lift (representative pool); mret (t_ip t, Some (t_score t), [])
  | None, Some forced =>
      ip ← or_fail (parse_ip forced) BadSelectedIp;
      when plus (_ ← ip_target ip; mret ());;
      mret (ip, None, [])
  | None, None => scanned_ip plus cfg
  end.
(** Up to the pool; the address the uplink is looked up for comes second. *)
Definition find_ip_target (plus : bool) (cfg : Config) : start (TargetPool * IpAddr * InterfaceBinding) :=
  restored ← restored_pool cfg;
  '(ip, score, balanced) ← active_ip plus cfg restored;
  act (Tell (EvSelectedTarget TargetIp None ip score));;
  watched ← (if plus then ip_target ip else mret (monitor_probe_target ip));
  binding ← or_fail (su_uplink su watched) NoInitialUplink;
  pool ← match restored with
    | Some pool => mret pool
    | None => new_pool cfg (if LOAD_BALANCE_ENABLED cfg && is_none (SELECTED_IP cfg) then balanced
                            else [target_ip ip (default 0%Z score)])
    end;
  own_pool pool;;
  mret (pool, ip, binding).

Definition ip_bypass_main (cfg : Config) : start () :=
  _ ← or_fail (su_scan_uplink su) NoUplink;
  '(pool, ip, binding) ← find_ip_target false cfg;
  spawn_rescan cfg;;
  serve IpBypass ((AUTO_SELECT cfg || LOAD_BALANCE_ENABLED cfg) && is_none (SELECTED_IP cfg)) binding
    (live_pool pool ip (LOW_TTL_VALUE cfg)).

Definition ip_bypass_plus_main (cfg : Config) : start () :=
  _ ← or_fail (su_scan_uplink su) NoUplink;
  '(pool, ip, binding) ← find_ip_target true cfg;
  spawn_rescan cfg;;
  prepare_plane cfg binding;;
  serve IpBypassPlus ((AUTO_SELECT cfg || LOAD_BALANCE_ENABLED cfg) && is_none (SELECTED_IP cfg)) binding
    (live_pool pool ip (LOW_TTL_VALUE cfg)).
End modes.
