(* ===== verification/Launch.v ===== *)
(** * What a start guarantees

    The proxy modes of [Startup] from nothing to the proxy that serves: what
    is in place when it is spawned, whatever is met on the way. *)
From stdpp Require Import base list numbers strings gmap.
From Stdlib Require Import ZArith Lia.
From S2P Require Import Prelude Text NetAddr Flow Config CommandLine Methods Composite Netmon ScanList Scanner TargetPool Rescan Reload Headless Startup.
Import TargetPool.
Local Open Scope string_scope.
Local Open Scope nat_scope.
Local Open Scope list_scope.

Notation start := (proc Act).

(** ** Steps with what they return and add *)
Section spec.
Context {W : Type}.
(** No panic; the result and what is added are of [Q], or a failure is of [F]. *)
Definition spec {A} (m : proc W A) (Q : A → list W → Prop) (F : Failure → list W → Prop) : Prop :=
  ∀ es, ∃ l, (m es).2 = es ++ l ∧
    match (m es).1 with Returned a => Q a l | Failed f => F f l | Panicked => False end.

Lemma spec_bind {A B} (m : proc W A) (k : A → proc W B) Q1 (F1 F : Failure → list W → Prop) Q :
  spec m Q1 F1 → (∀ f l, F1 f l → F f l) →
  (∀ a l1, Q1 a l1 → spec (k a) (λ b l2, Q b (l1 ++ l2)) (λ f l2, F f (l1 ++ l2))) → spec (m ≫= k) Q F.
Proof.
  intros Hm HF Hk es. destruct (Hm es) as (l1 & E & H1). unfold mbind, proc_bind.
  destruct (m es) as [[a|f|] es1]; cbn [fst snd] in *; subst es1; [|by exists l1; auto|done].
  destruct (Hk a l1 H1 (es ++ l1)) as (l2 & -> & H2). exists (l1 ++ l2). by rewrite (assoc_L (++)).
Qed.
Lemma spec_weaken {A} (m : proc W A) (Q Q' : A → list W → Prop) (F F' : Failure → list W → Prop) :
  spec m Q F → (∀ a l, Q a l → Q' a l) → (∀ f l, F f l → F' f l) → spec m Q' F'.
Proof.
  intros Hm HQ HF es. destruct (Hm es) as (l & E & H). exists l. split; [done|]. destruct (m es).1; auto.
Qed.
End spec.

(** Failures that the code names but cannot meet: the pools are never empty,
    the ranked target is in the list, a session is there when one is needed. *)
Definition unreachable_failures : list Failure :=
  [MissingRanked; PoolRefused; NoTargetSni; NoSession; NoProbeResults].
#[export] Instance Failure_eq_dec : EqDecision Failure.
Proof. solve_decision. Defined.

(** Everything before the monitor. *)
Definition preparing (a : Act) : Prop :=
  match a with
  | StartMonitor _ _ | OwnMonitor | SpawnRecovery _ _ | SpawnProxy _ _ | Serve => False
  | _ => True
  end.
Definition not_ready (f : Failure) (l : list Act) : Prop := f ∉ unreachable_failures ∧ Forall preparing l.

(** A part of the preparation that returns [R]. *)
Definition prepares {A} (m : start A) (R : A → list Act → Prop) : Prop :=
  spec m (λ a l, Forall preparing l ∧ R a l) not_ready.
Lemma prepares_bind {A B} (m : start A) (k : A → start B) R1 R : prepares m R1 →
  (∀ a l1, R1 a l1 → prepares (k a) (λ b l2, R b (l1 ++ l2))) → prepares (m ≫= k) R.
Proof.
  intros Hm Hk. eapply spec_bind; [done|done|]. intros a l1 [Hl H1]. eapply spec_weaken; [by apply Hk|..].
  - intros b l2 [Hl2 H2]. split; [by apply Forall_app|done].
  - intros f l2 [Hf Hl2]. split; [done|]. by apply Forall_app.
Qed.
Lemma prepares_ret {A} (a : A) (R : A → list Act → Prop) : R a [] → prepares (mret a) R.
Proof. intros H es. exists []. rewrite app_nil_r. split; [done|]. by split. Qed.
Lemma prepares_fail {A} f (R : A → list Act → Prop) : f ∉ unreachable_failures → prepares (fail_with f) R.
Proof. intros H es. exists []. rewrite app_nil_r. split; [done|]. by split. Qed.
Lemma prepares_act a (R : () → list Act → Prop) : preparing a → R () [a] → prepares (act a) R.
Proof. intros Ha H es. exists [a]. split; [done|]. split; [by apply Forall_singleton|done]. Qed.
Lemma prepares_or_fail {A} (o : option A) f (R : A → list Act → Prop) : (o = None → f ∉ unreachable_failures) →
  (∀ a, o = Some a → R a []) → prepares (or_fail o f) R.
Proof. intros Hf Hr. destruct o as [a|]; [by apply prepares_ret, Hr|by apply prepares_fail, Hf]. Qed.
Lemma prepares_lift {A} (x : exec A) a (R : A → list Act → Prop) : x = Done a → R a [] → prepares (lift x) R.
Proof. intros -> H es. exists []. rewrite app_nil_r. split; [done|]. by split. Qed.
Lemma prepares_when (b : bool) (m : start ()) (R : () → list Act → Prop) : (b = true → prepares m R) → (b = false → R () []) → prepares (when b m) R.
Proof. destruct b; intros H1 H2; [by apply H1|by apply prepares_ret, H2]. Qed.
Lemma prepares_weaken {A} (m : start A) (R R' : A → list Act → Prop) : prepares m R → (∀ a l, R a l → R' a l) → prepares m R'.
Proof. intros H HR. eapply spec_weaken; [done| |done]. intros a l [? ?]. auto. Qed.

(** Refutes that a failure is unreachable. *)
Ltac reachable := unfold unreachable_failures; rewrite ?elem_of_cons, ?elem_of_nil; naive_solver.

(** ** What a mode relies on *)
Section launch.
Context (su : Surroundings) (no_tui : bool) (session : option (option (list Target))) (helper : bool).

Definition ipv4_target (t : Target) : Prop := ∃ ip, t_ip t = IpV4 ip.
(** The targets a mode can serve. *)
Definition serves (mode : ProxyMode) (t : Target) : Prop :=
  match mode with SniSpoof => sni_target t | IpBypass => True | IpBypassPlus => ipv4_target t end.
(** The session is there unless the program is headless; what it restores are
    targets of the mode; the user chooses from the table; a scan of addresses
    returns some of them. *)
Record start_ok (mode : ProxyMode) : Prop := {
  so_session : no_tui = false → is_some session = true;
  so_restored : ∀ ts, session = Some (Some ts) → Forall (serves mode) ts;
  so_pick_sni : ∀ l e, su_pick_sni su l = Some e → e ∈ l;
  so_pick_ip : ∀ l e, su_pick_ip su l = Some e → e ∈ l;
  so_scan : ∀ ips entries e, su_scan_ips su ips = Ok entries → e ∈ entries → ipp_ip e ∈ ips }.

Definition plane_ready (mode : ProxyMode) (cfg : Config) (b : InterfaceBinding) (pre : list Act) : Prop :=
  match mode with
  | IpBypass => True
  | _ => is_socket_only (BYPASS_METHOD cfg) = true ∨
      if helper then PrepareRemote b ∈ pre ∧ su_prepare su b = None else OpenLocal b ∈ pre ∧ su_open su b = None
  end.
(** The proxy has been spawned: what came before. *)
Definition launched (mode : ProxyMode) (cfg : Config) (es : list Act) : Prop :=
  ∃ pre probe b automatic ts,
    es = pre ++ StartMonitor probe b :: (if is_some session then [OwnMonitor] else []) ++
      [SpawnRecovery automatic b; SpawnProxy mode ts; Serve] ∧
    Forall preparing pre ∧ ts ≠ [] ∧ Forall (serves mode) ts ∧
    (∃ t, t ∈ ts ∧ probe = monitor_probe_target (t_ip t)) ∧ su_uplink su probe = Some b ∧ plane_ready mode cfg b pre ∧
    (is_some session = true → (∃ ts, OwnPool ts ∈ pre) ∧ (mode ≠ IpBypass → OwnPlane ∈ pre)).
Definition start_mode (mode : ProxyMode) (cfg : Config) : start () :=
  match mode with
  | SniSpoof => sni_spoof_main su no_tui session helper cfg
  | IpBypass => ip_bypass_main su no_tui session cfg
  | IpBypassPlus => ip_bypass_plus_main su no_tui session helper cfg
  end.

(** ** Pools *)
Lemma in_unique t ts limit : t ∈ unique_targets ts limit → t ∈ ts.
Proof. intros Ht. destruct (unique_targets_selection ts limit) as [Hs _]. by eapply elem_of_sublist. Qed.
Lemma unique_head t ts : head (unique_targets (t :: ts) usize_max) = Some t.
Proof. unfold unique_targets. cbn. by rewrite decide_False by apply not_elem_of_empty. Qed.

(** The pool with its targets; [t] is the first. *)
Definition pool_of (mode : ProxyMode) (t : Target) (p : TargetPool) : Prop :=
  world_ok (MkWorld p []) ∧ Forall (serves mode) (m_target <$> members p) ∧ head (m_target <$> members p) = Some t.
Lemma new_pool_of mode strat t ts seed : Forall (serves mode) (t :: ts) →
  ∃ p, new strat (t :: ts) seed = Done (Some p) ∧ pool_of mode t p.
Proof.
  intros Hf. destruct (new_ok strat (t :: ts) seed) as (p & E & Hw & Ha & _); [done|]. exists p. split; [done|].
  assert (m_target <$> members p = unique_targets (t :: ts) usize_max) as Hm by exact (f_equal lg_ranking Ha).
  split; [done|]. rewrite Hm. split; [|apply unique_head].
  apply Forall_forall. intros x Hx%in_unique. rewrite Forall_forall in Hf. by apply Hf.
Qed.
Lemma pool_representative mode t p : pool_of mode t p → representative p = Done t.
Proof.
  intros (_ & _ & H). unfold representative, idx. destruct (members p) as [|m ms]; [done|]. by injection H as <-.
Qed.
Lemma pool_serves mode t p : pool_of mode t p → serves mode t.
Proof. intros (_ & Hf & H). destruct (m_target <$> members p); [done|]. injection H as ->. by apply Forall_cons in Hf as [? _]. Qed.

Lemma restored_prepares mode cfg : start_ok mode → prepares (restored_pool su session cfg)
  (λ r _, match r with Some p => ∃ t, pool_of mode t p | None => True end).
Proof.
  intros Hok. unfold restored_pool. destruct session as [[ts|]|] eqn:Hs; [|by apply prepares_ret..].
  pose proof (so_restored _ Hok ts Hs) as Hf. unfold restore_pool. destruct ts as [|t ts].
  - eapply prepares_bind; [by eapply (prepares_lift _ None (λ r _, r = None))|]. intros r l1 ->. apply prepares_fail. reachable.
  - set (strat := if LOAD_BALANCE_ENABLED cfg then _ else _).
    destruct (new_pool_of mode strat t ts (su_seed su) Hf) as (p & E & Hp).
    eapply prepares_bind; [by eapply (prepares_lift _ (Some p) (λ r _, r = Some p))|]. intros r l1 ->.
    apply prepares_ret. by exists t.
Qed.
Lemma new_pool_prepares mode cfg t ts : Forall (serves mode) (t :: ts) →
  prepares (new_pool su cfg (t :: ts)) (λ p _, pool_of mode t p).
Proof.
  intros Hf. destruct (new_pool_of mode (pool_strategy cfg) t ts (su_seed su) Hf) as (p & E & Hp).
  unfold new_pool. eapply prepares_bind; [by eapply (prepares_lift _ (Some p) (λ r _, r = Some p))|]. intros r l1 ->.
  by apply prepares_ret.
Qed.
Lemma session_prepares mode : start_ok mode → prepares (when (negb no_tui) (need_session session)) (λ _ l, l = []).
Proof.
  intros Hok. apply prepares_when; [|done]. intros Hn%negb_true_iff. unfold need_session. rewrite (so_session _ Hok Hn). by apply prepares_ret.
Qed.

(** ** The SNI target *)
Lemma sni_entries_prepares cfg : start_ok SniSpoof → prepares (sni_entries su no_tui session cfg) (λ l _, l ≠ []).
Proof.
  intros Hok. unfold sni_entries, resolve_single_sni. destruct (SELECTED_SNI cfg) as [sni|].
  - destruct (su_lookup su sni) as [[|ip ips]|e]; try (apply prepares_fail; reachable). by apply prepares_ret.
  - eapply prepares_bind; [by apply (session_prepares SniSpoof)|]. intros _ l1 _.
    destruct (su_scan_sni su) as [[|e l]|e]; try (apply prepares_fail; reachable). by apply prepares_ret.
Qed.
Lemma balanced_from cfg entries t : t ∈ balanced_sni cfg entries → ∃ e, e ∈ entries ∧ t = from_sni e.
Proof.
  unfold balanced_sni. destruct (LOAD_BALANCE_ENABLED cfg); [|by intros ?%elem_of_nil].
  destruct (is_some (SELECTED_SNI cfg)).
  - destruct entries as [|e entries]; [by intros ?%elem_of_nil|]. intros ->%list_elem_of_singleton. exists e. split; [by left|done].
  - intros (e & He & _ & ->)%sni_candidates_from. by exists e.
Qed.
(** The entry selected is the first of the targets the pool gets. *)
Definition selects (cfg : Config) (balanced : list Target) (e : SniProbeEntry) : Prop :=
  LOAD_BALANCE_ENABLED cfg = true → ∃ first rest, balanced = first :: rest ∧ key first = key (from_sni e).
Lemma select_sni_prepares cfg entries balanced : start_ok SniSpoof → entries ≠ [] →
  (∀ t, t ∈ balanced → ∃ e, e ∈ entries ∧ t = from_sni e) → (LOAD_BALANCE_ENABLED cfg = true → balanced ≠ []) →
  prepares (select_sni su no_tui session cfg entries balanced) (λ e _, selects cfg balanced e).
Proof.
  intros Hok Hne Hb Hlb. unfold select_sni, selects. destruct (LOAD_BALANCE_ENABLED cfg).
  - destruct balanced as [|first rest]; [by destruct Hlb|].
    eapply prepares_bind; [by eapply (prepares_lift _ first (λ r _, r = first))|]. intros r l1 ->. apply prepares_or_fail.
    + intros Hnone. destruct (Hb first) as (e & He & ->); [by left|]. exfalso. apply fmap_None, list_find_None in Hnone.
      rewrite Forall_forall in Hnone. by eapply Hnone.
    + intros e ([k e'] & Hf & ->)%fmap_Some. apply list_find_Some in Hf as (_ & [H1 H2] & _). exists first, rest.
      split; [done|]. unfold key. cbn in *. by rewrite <- H1, <- H2.
  - destruct (AUTO_SELECT cfg || is_some (SELECTED_SNI cfg) || no_tui) eqn:Ha.
    + apply prepares_or_fail; [|done]. by destruct entries.
    + apply orb_false_iff in Ha as [_ Ha]. eapply prepares_bind.
      { pose proof (session_prepares SniSpoof Hok) as Hs. by rewrite Ha in Hs. }
      intros _ l1 _. apply prepares_or_fail; [reachable|done].
Qed.

Lemma sni_targets l : (∀ t, t ∈ l → ∃ e, t = from_sni e) → Forall (serves SniSpoof) l.
Proof. intros H. apply Forall_forall. intros t (e & ->)%H. by exists (sp_sni e), (sp_ip e). Qed.

(** The pool and the address and name of its first target. *)
Definition sni_found (r : TargetPool * ActiveSniTarget) : Prop :=
  ∃ t, pool_of SniSpoof t r.1 ∧ key t = (Some (as_sni r.2), IpV4 (as_ip r.2)).
Lemma find_sni_prepares cfg : start_ok SniSpoof → prepares (find_sni_target su no_tui session cfg) (λ r _, sni_found r).
Proof.
  intros Hok. unfold find_sni_target. eapply prepares_bind; [by apply restored_prepares|]. intros [pool|] l0.
  - intros (t & Hp). eapply prepares_bind;
      [eapply (prepares_lift _ t (λ r _, r = t)); [by eapply pool_representative|done]|]. intros r l1 ->.
    destruct (pool_serves _ _ _ Hp) as (sni & ip & Es & Ei). rewrite Ei, Es. unfold ip_target. cbn [require_ipv4_target].
    eapply prepares_bind; [by apply (prepares_or_fail _ _ (λ r _, r = ip)); [done|intros ? [= <-]]|]. intros r l2 ->.
    eapply prepares_bind; [by apply (prepares_or_fail _ _ (λ r _, r = sni)); [done|intros ? [= <-]]|]. intros r l3 ->.
    apply prepares_ret. exists t. split; [done|]. unfold key. by rewrite Es, Ei.
  - intros _. eapply prepares_bind; [by apply sni_entries_prepares|]. intros entries l1 Hne.
    set (balanced := balanced_sni cfg entries).
    eapply prepares_bind; [apply (prepares_when _ _ (λ _ _, LOAD_BALANCE_ENABLED cfg = true → balanced ≠ []))|].
    { intros _. apply prepares_fail. reachable. }
    { intros Hb Hlb. rewrite Hlb in Hb. by destruct balanced. }
    intros u l2 Hlb.
    eapply prepares_bind; [apply select_sni_prepares; [done|done|apply balanced_from|done]|]. intros e l3 He.
    eapply prepares_bind; [by apply (prepares_act _ (λ _ _, True))|]. intros _ l4 _.
    assert (∃ t ts, (if LOAD_BALANCE_ENABLED cfg then balanced else [from_sni e]) = t :: ts ∧ key t = key (from_sni e) ∧
      Forall (serves SniSpoof) (t :: ts)) as (t & ts & -> & Hk & Hf).
    { unfold selects in He. destruct (LOAD_BALANCE_ENABLED cfg) eqn:El.
      - destruct (He eq_refl) as (t & ts & Eb & Hk). exists t, ts. rewrite <- Eb. split; [done|]. split; [done|].
        apply sni_targets. intros x (e' & _ & ->)%balanced_from. by exists e'.
      - exists (from_sni e), []. split; [done|]. split; [done|]. apply sni_targets. intros x ->%list_elem_of_singleton. by exists e. }
    eapply prepares_bind; [by apply (new_pool_prepares SniSpoof)|]. intros p l5 Hp. apply prepares_ret. by exists t.
Qed.

(** ** The TTL before the listener *)
Lemma fallback_ttls d ts fallback : Forall sni_target ts → ∃ admitted,
  discover_pool_ttls (probe_target_ttl d) ts [] (Some fallback) = Done admitted ∧
  key <$> admitted = key <$> ts ∧ Forall sni_target admitted.
Proof.
  induction ts as [|t ts IH]; intros Hf; [by exists []|].
  apply Forall_cons in Hf as [(sni & ip & Es & Ei) Hf]. destruct (IH Hf) as (l & E & Hk & Hl).
  cbn [discover_pool_ttls]. unfold probe_target_ttl at 1. rewrite Ei, Es. cbn [exec_bind expect]. rewrite E. cbn [exec_bind].
  assert (∃ ttl, admit_ttl [] (Some fallback) (ld_probe d sni ip) t = Some (with_low_ttl ttl t)) as [ttl ->]
    by (unfold admit_ttl; destruct (ld_probe d sni ip); by eexists).
  exists (with_low_ttl ttl t :: l). split; [done|]. split; [by rewrite !fmap_cons, Hk|].
  apply Forall_cons. split; [|done]. by exists sni, ip.
Qed.
Lemma apply_keeps a v l : lv_world (apply a v l).2 = lv_world l ∧ lv_probe_target (apply a v l).2 = lv_probe_target l.
Proof. by destruct a as [|[| |[|]]]. Qed.

(** The pool still begins with the same name and address. *)
Definition same_start (l l' : Rescan.Live) : Prop :=
  world_ok (lv_world l') ∧ Forall sni_target (targets l') ∧ head (key <$> targets l') = head (key <$> targets l) ∧
  lv_probe_target l' = lv_probe_target l.
Lemma same_start_world l l' : world_ok (lv_world l) → Forall sni_target (targets l) →
  lv_world l' = lv_world l → lv_probe_target l' = lv_probe_target l → same_start l l'.
Proof. intros Hw Hf E Hp. unfold same_start, targets, lv_pool in *. by rewrite E. Qed.
Lemma startup_ttl_ok cfg restoring handle probe sni ip l :
  world_ok (lv_world l) → Forall sni_target (targets l) → targets l ≠ [] →
  ∃ r, startup_low_ttl cfg restoring handle probe sni ip l = Done r ∧ ∀ l', r = Some l' → same_start l l'.
Proof.
  intros Hw Hf Hne. pose proof (same_start_world l) as Hsame. unfold startup_low_ttl. destruct restoring.
  - assert (∃ t, representative (lv_pool l) = Done t) as [t ->].
    { unfold representative, idx, targets in *. destruct (members (lv_pool l)) as [|m ms]; [done|]. by eexists. }
    eexists. split; [done|]. intros l' Hr. unfold restore_low_ttl in Hr.
    destruct (t_low_ttl t) as [v|], handle as [a|]; try (injection Hr as <-; by apply Hsame).
    destruct (apply_keeps a v l) as [E1 E2]. destruct (apply a v l) as [[] l1]; [|done]. injection Hr as <-. by apply Hsame.
  - destruct (low_ttl_discovery_state cfg handle probe) as [d|]; [|eexists; split; [done|]; intros ? [= <-]; by apply Hsame].
    destruct (LOAD_BALANCE_ENABLED cfg).
    + change (probe_snapshot (lv_pool l)).2 with (targets l).
      destruct (fallback_ttls d (targets l) (LOW_TTL_VALUE cfg) Hf) as (ts & -> & Hk & Hts). cbn [exec_bind].
      destruct ts as [|t ts]; [by destruct (targets l)|].
      destruct (replace_pool_ok (t :: ts) l Hw ltac:(done)) as (l1 & b & -> & Hw1 & E & _ & Hp & _). cbn [exec_bind snd].
      eexists. split; [done|]. intros ? [= <-]. split; [done|]. rewrite E. split; [|split; [|done]].
      * apply Forall_forall. intros x Hx%in_unique. rewrite Forall_forall in Hts. by apply Hts.
      * rewrite <- Hk. pose proof (unique_head t ts) as Hh. by destruct (unique_targets (t :: ts) usize_max); [|injection Hh as ->].
    + pose proof (run_discovery_spec d sni ip l) as H. destruct (run_discovery d sni ip l) as [found l1].
      destruct H as (E1 & E2 & _). eexists. split; [done|]. intros ? [= <-]. by destruct found; apply Hsame.
Qed.

(** ** The plane, and the proxy *)
Lemma plane_prepares mode cfg b : mode ≠ IpBypass → prepares (prepare_plane su session helper cfg b)
  (λ _ l, plane_ready mode cfg b l ∧ (is_some session = true → OwnPlane ∈ l)).
Proof.
  intros Hm. set (ready (l : list Act) := is_socket_only (BYPASS_METHOD cfg) = true ∨
      if helper then PrepareRemote b ∈ l ∧ su_prepare su b = None else OpenLocal b ∈ l ∧ su_open su b = None).
  apply (prepares_weaken _ (λ _ l, ready l ∧ (is_some session = true → OwnPlane ∈ l)));
    [|intros _ l [H1 H2]; split; [by destruct mode|done]].
  unfold prepare_plane, with_session.
  assert (∀ R : () → list Act → Prop, (∀ l, (is_some session = true → OwnPlane ∈ l) → R () l) →
    prepares (when (is_some session) (act OwnPlane)) R) as Hown.
  { intros R HR. apply prepares_when; intros Hs; [apply prepares_act; [done|]; apply HR; intros; by left|].
    apply HR. by rewrite Hs. }
  subst ready. destruct (is_socket_only (BYPASS_METHOD cfg)); [|destruct helper].
  - eapply prepares_bind; [by apply (Hown (λ _ l, is_some session = true → OwnPlane ∈ l))|]. intros u l1 H1.
    apply prepares_ret. rewrite app_nil_r. split; [by left|done].
  - eapply prepares_bind; [by apply (Hown (λ _ l, is_some session = true → OwnPlane ∈ l))|]. intros u l1 H1.
    eapply prepares_bind; [by apply (prepares_act _ (λ _ l, PrepareRemote b ∈ l)); [|left]|]. intros u2 l2 H2.
    destruct (su_prepare su b) eqn:E; [apply prepares_fail; reachable|].
    eapply prepares_bind; [by apply (Hown (λ _ l, True))|]. intros u3 l3 _. apply prepares_ret.
    rewrite !elem_of_app. split; [right; split; [|done]|]; auto.
  - eapply prepares_bind; [apply (prepares_or_fail _ _ (λ _ _, True)); [reachable|done]|]. intros m l1 _.
    eapply prepares_bind; [by apply (prepares_act _ (λ _ l, OpenLocal b ∈ l)); [|left]|]. intros u2 l2 H2.
    destruct (su_open su b) eqn:E; [apply prepares_fail; reachable|].
    eapply prepares_bind; [by apply (Hown (λ _ l, is_some session = true → OwnPlane ∈ l))|]. intros u3 l3 H3. apply prepares_ret.
    rewrite !elem_of_app. split; [right; split; [|done]|]; auto.
Qed.

Lemma own_pool_prepares p : prepares (own_pool session p) (λ _ l, is_some session = true → ∃ ts, OwnPool ts ∈ l).
Proof.
  unfold own_pool, with_session. apply prepares_when; intros Hs; [|by rewrite Hs].
  apply prepares_act; [done|]. intros _. eexists. by left.
Qed.
Lemma rescan_prepares cfg : prepares (spawn_rescan no_tui cfg) (λ _ _, True).
Proof. unfold spawn_rescan. apply prepares_when; [|done]. intros _. by apply prepares_act. Qed.

(** What the spawned proxy comes after; a failure leaves no proxy, but for that
    of the proxy itself. *)
Definition spawned (mode : ProxyMode) (automatic : bool) (b : InterfaceBinding) (l : Rescan.Live) (es : list Act) : Prop :=
  es = StartMonitor (lv_probe_target l) b :: (if is_some session then [OwnMonitor] else []) ++
      [SpawnRecovery automatic b; SpawnProxy mode (targets l); Serve].
Lemma serve_spec mode automatic b l : start_ok mode → spec (serve su no_tui session mode automatic b l)
  (λ _ es, spawned mode automatic b l es)
  (λ f es, f = MonitorFailed ∧ es = [StartMonitor (lv_probe_target l) b] ∨
           (∃ e, f = ServeFailed e) ∧ spawned mode automatic b l es).
Proof.
  intros Hok es. unfold serve, spawned, with_session, need_session, mbind, proc_bind, act, when, mret, proc_ret, fail_with.
  destruct (su_monitor su); cbn [negb]; [|by eexists; split; [done|left]].
  destruct (negb no_tui) eqn:Hn.
  - apply negb_true_iff in Hn. rewrite (so_session _ Hok Hn). destruct (su_serve su) as [[]|e]; cbn [fst snd];
      (eexists; rewrite <- !(assoc_L (++)); split; [done|]); [done|right; by split; [eexists|]].
  - destruct (is_some session), (su_serve su) as [[]|e]; cbn [fst snd];
      (eexists; rewrite <- !(assoc_L (++)); split; [done|]); try done; right; by split; [eexists|].
Qed.

(** *** From what is done so far *)
Definition unserved (es : list Act) : Prop := ∀ mode ts, SpawnProxy mode ts ∉ es.
Definition fails_well (mode : ProxyMode) (cfg : Config) (f : Failure) (es : list Act) : Prop :=
  f ∉ unreachable_failures ∧ (unserved es ∨ (∃ e, f = ServeFailed e) ∧ launched mode cfg es).
Definition after (mode : ProxyMode) (cfg : Config) (pre : list Act) (m : start ()) : Prop :=
  spec m (λ _ l, launched mode cfg (pre ++ l)) (λ f l, fails_well mode cfg f (pre ++ l)).

Lemma preparing_unserved l : Forall preparing l → unserved l.
Proof. intros Hl mode ts Hin. rewrite Forall_forall in Hl. exact (Hl _ Hin). Qed.
Lemma after_bind {A} mode cfg pre (m : start A) (k : A → start ()) R : Forall preparing pre → prepares m R →
  (∀ a l, Forall preparing (pre ++ l) → R a l → after mode cfg (pre ++ l) (k a)) → after mode cfg pre (m ≫= k).
Proof.
  intros Hpre Hm Hk. eapply spec_bind; [exact Hm|..].
  - intros f l [Hf Hl]. split; [done|]. left. by apply preparing_unserved, Forall_app.
  - intros a l [Hl HR]. eapply spec_weaken; [apply Hk; [by apply Forall_app|done]|..]; intros ? l'; by rewrite (assoc_L (++)).
Qed.
Lemma after_serve mode cfg pre automatic b l : start_ok mode → Forall preparing pre →
  Forall (serves mode) (targets l) → (∃ t, t ∈ targets l ∧ lv_probe_target l = monitor_probe_target (t_ip t)) →
  su_uplink su (lv_probe_target l) = Some b → plane_ready mode cfg b pre →
  (is_some session = true → (∃ ts, OwnPool ts ∈ pre) ∧ (mode ≠ IpBypass → OwnPlane ∈ pre)) →
  after mode cfg pre (serve su no_tui session mode automatic b l).
Proof.
  intros Hok Hpre Hts Ht Hb Hpl Hs.
  assert (∀ es, spawned mode automatic b l es → launched mode cfg (pre ++ es)) as Hl.
  { intros es ->. exists pre, (lv_probe_target l), b, automatic, (targets l). split_and!; try done.
    intros E. rewrite E in Ht. destruct Ht as (t & Ht & _). by apply elem_of_nil in Ht. }
  eapply spec_weaken; [by apply serve_spec|by intros _ es ?%Hl|].
  intros f es [[-> ->]|[[e ->] Hsp]].
  - split; [reachable|]. left. intros m ts [Hin|Hin]%elem_of_app; [by apply (preparing_unserved _ Hpre m ts)|].
    by apply list_elem_of_singleton in Hin.
  - split; [reachable|]. right. split; [by eexists|by apply Hl].
Qed.

Lemma plane_ready_app mode cfg b l1 l2 : plane_ready mode cfg b l2 → plane_ready mode cfg b (l1 ++ l2).
Proof.
  unfold plane_ready. intros H. destruct mode; try done; (destruct H as [H|H]; [by left|right]);
    destruct helper; destruct H as [H ?]; (split; [|done]); apply elem_of_app; by right.
Qed.
Lemma plane_ready_more mode cfg b l1 l2 : plane_ready mode cfg b l1 → plane_ready mode cfg b (l1 ++ l2).
Proof.
  unfold plane_ready. intros H. destruct mode; try done; (destruct H as [H|H]; [by left|right]);
    destruct helper; destruct H as [H ?]; (split; [|done]); apply elem_of_app; by left.
Qed.
Lemma sni_spoof_after cfg : start_ok SniSpoof → after SniSpoof cfg [] (sni_spoof_main su no_tui session helper cfg).
Proof.
  intros Hok. unfold sni_spoof_main.
  eapply after_bind; [done|by apply (prepares_or_fail _ _ (λ _ _, True)); [reachable|]|]. intros u0 l0 H0 _.
  eapply after_bind; [done|by apply find_sni_prepares|]. intros [pool sel] l1 H1 (t & Hp & Hk). cbn [fst snd] in *.
  eapply after_bind; [done|apply own_pool_prepares|]. intros u2 l2 H2 Hpool.
  eapply after_bind; [done|apply (prepares_or_fail _ _ (λ b _, su_uplink su (as_ip sel) = Some b)); [reachable|done]|].
  intros b l3 H3 Hb.
  eapply after_bind; [done|by apply (plane_prepares SniSpoof)|]. intros handle l4 H4 [Hpl Hown].
  destruct Hp as (Hw & Hf & Hh). set (l := live_pool pool (IpV4 (as_ip sel)) (LOW_TTL_VALUE cfg)).
  assert (targets l = m_target <$> members pool) as Et by done.
  destruct (startup_ttl_ok cfg (is_some (session ≫= id)) (ttl_applier su helper handle) (su_discover su) (as_sni sel)
    (as_ip sel) l) as (r & -> & Hr); [done|done|by rewrite Et; destruct (members pool)|].
  eapply after_bind; [done|by eapply (prepares_lift _ r (λ x _, x = r))|]. intros ? l5 H5 ->.
  eapply after_bind; [done|by apply (prepares_or_fail _ _ (λ l' _, same_start l l')); [reachable|]|].
  intros l' l6 H6 (_ & Hts & Hkeys & Hpr).
  eapply after_bind; [done|apply rescan_prepares|]. intros u7 l7 H7 _.
  apply after_serve; try done.
  - destruct (targets l') as [|t' ts']; rewrite Et in Hkeys; destruct (m_target <$> members pool); try done.
    injection Hh as ->. exists t'. split; [by left|]. rewrite Hpr. cbn in Hkeys. injection Hkeys as _ Hip'.
    injection Hk as _ Hip. by rewrite Hip', Hip.
  - by rewrite Hpr.
  - do 3 apply plane_ready_more. by apply plane_ready_app.
  - intros Hs. split; [destruct (Hpool Hs) as [ts Hts']; exists ts|intros _; specialize (Hown Hs)]; rewrite !elem_of_app; tauto.
Qed.

(** ** The target of the modes over addresses *)
Definition is_plus (plus : bool) : ProxyMode := if plus then IpBypassPlus else IpBypass.
Definition ip_ok (plus : bool) (ip : IpAddr) : Prop := plus = true → ∃ v4, ip = IpV4 v4.
(** The balanced targets, when there are any, have the address. *)
Definition balances (plus : bool) (cfg : Config) (ip : IpAddr) (balanced : list Target) : Prop :=
  Forall (serves (is_plus plus)) balanced ∧ NoDup (key <$> balanced) ∧ (Z.of_nat (length balanced) ≤ usize_max)%Z ∧
  (LOAD_BALANCE_ENABLED cfg = true → ∃ t, t ∈ balanced ∧ t_ip t = ip).

Lemma ip_candidates_in entries limit t : t ∈ ip_candidates entries limit → ∃ e, e ∈ entries ∧ t = from_ip e.
Proof.
  intros (e & -> & He)%in_unique%list_elem_of_fmap. apply list_elem_of_filter in He as [_ ?]. by exists e.
Qed.
Lemma scanned_prepares plus cfg : start_ok (is_plus plus) → (LOAD_BALANCE_TARGET_COUNT cfg ≤ usize_max)%Z →
  prepares (scanned_ip su no_tui session plus cfg)
  (λ r _, ip_ok plus r.1.1 ∧ balances plus cfg r.1.1 r.2).
Proof.
  intros Hok Hcount. unfold scanned_ip. destruct (su_ips su) as [ips|e]; [|apply prepares_fail; reachable].
  eapply prepares_bind; [apply (prepares_when _ _ (λ _ _, plus = true → reject_ipv6_ip_candidates ips = false))|].
  { intros _. apply prepares_fail. reachable. }
  { by intros Hb ->. }
  intros u1 l1 Hv4. eapply prepares_bind; [by apply (prepares_when _ _ (λ _ _, True)); [intros _; apply prepares_fail; reachable|]|].
  intros u2 l2 _. eapply prepares_bind; [by apply (session_prepares (is_plus plus))|]. intros u3 l3 _.
  destruct (su_scan_ips su ips) as [entries|e] eqn:Escan; [|apply prepares_fail; reachable].
  set (balanced := if LOAD_BALANCE_ENABLED cfg then _ else []). set (entries' := if LOAD_BALANCE_ENABLED cfg then _ else entries).
  assert (∀ e, e ∈ entries → ip_ok plus (ipp_ip e)) as Hips.
  { intros e He Hp. pose proof (so_scan _ Hok ips entries e Escan He) as Hin. specialize (Hv4 Hp).
    destruct (ipp_ip e) as [v4|v6] eqn:Ee; [by exists v4|]. exfalso.
    assert (reject_ipv6_ip_candidates ips = true) as E; [|by rewrite E in Hv4].
    apply existsb_exists. exists (IpV6 v6). split; [by apply list_elem_of_In|done]. }
  assert (Forall (serves (is_plus plus)) balanced) as Hbal.
  { subst balanced. destruct (LOAD_BALANCE_ENABLED cfg); [|done]. apply Forall_forall.
    intros t (e & He & ->)%ip_candidates_in. destruct plus; [|done]. destruct (Hips e He eq_refl) as [v4 E]. by exists v4. }
  assert (∀ e, e ∈ entries' → e ∈ entries ∧ (LOAD_BALANCE_ENABLED cfg = true → ∃ t, t ∈ balanced ∧ t_ip t = ipp_ip e)) as He'.
  { intros e. subst entries' balanced. destruct (LOAD_BALANCE_ENABLED cfg); [|done]. intros [Hb He]%list_elem_of_filter.
    split; [done|]. intros _. apply existsb_exists in Hb as (t & Ht & E). exists t. rewrite list_elem_of_In. split; [done|]. by apply bool_decide_eq_true in E. }
  eapply prepares_bind; [apply (prepares_when _ _ (λ _ _, entries' ≠ []))|].
  { intros _. apply prepares_fail. reachable. }
  { intros Hn E. by rewrite E in Hn. }
  intros u4 l4 Hne. eapply prepares_bind; [apply (λ H, H : prepares _ (λ e _, e ∈ entries'))|].
  { destruct (LOAD_BALANCE_ENABLED cfg || AUTO_SELECT cfg || no_tui) eqn:Ha.
    - apply prepares_or_fail; destruct entries' as [|e es]; [done|reachable|done|]. intros ? [= <-]. by left.
    - apply orb_false_iff in Ha as [_ Ha]. eapply prepares_bind.
      { pose proof (session_prepares _ Hok) as Hs. by rewrite Ha in Hs. }
      intros u5 l5 _. apply prepares_or_fail; [reachable|]. intros e He. by eapply so_pick_ip. }
  intros e l5 He. destruct (He' e He) as [Hin Hb]. apply prepares_ret. split; [by apply Hips|].
  assert (NoDup (key <$> balanced) ∧ (Z.of_nat (length balanced) ≤ usize_max)%Z) as [Hn Hl]; [|by split_and!].
  subst balanced. destruct (LOAD_BALANCE_ENABLED cfg); [by apply candidates_short|]. by split; [constructor|].
Qed.

Lemma active_prepares plus cfg restored : start_ok (is_plus plus) → (LOAD_BALANCE_TARGET_COUNT cfg ≤ usize_max)%Z →
  match restored with Some p => ∃ t, pool_of (is_plus plus) t p | None => True end →
  prepares (active_ip su no_tui session plus cfg restored) (λ r _,
    match restored with
    | Some p => ∃ t, pool_of (is_plus plus) t p ∧ r.1.1 = t_ip t
    | None => ip_ok plus r.1.1 ∧ (SELECTED_IP cfg = None → balances plus cfg r.1.1 r.2)
    end).
Proof.
  intros Hok Hcount Hr. unfold active_ip. destruct restored as [p|].
  - destruct Hr as [t Hp]. eapply prepares_bind;
      [eapply (prepares_lift _ t (λ r _, r = t)); [by eapply pool_representative|done]|]. intros ? l1 ->.
    apply prepares_ret. by exists t.
  - destruct (SELECTED_IP cfg) as [forced|].
    + eapply prepares_bind; [by apply (prepares_or_fail _ _ (λ _ _, True)); [reachable|]|]. intros ip l1 _.
      eapply prepares_bind; [apply (prepares_when _ _ (λ _ _, ip_ok plus ip))|].
      * intros _. unfold ip_target. eapply prepares_bind;
          [apply (prepares_or_fail _ _ (λ _ _, ip_ok plus ip)); [reachable|]|intros ? l2 H2; by apply prepares_ret].
        intros v4. destruct ip as [v|]; [|done]. intros _ _. by exists v.
      * by intros ->.
      * intros u l2 H2. by apply prepares_ret.
    + eapply prepares_weaken; [by apply scanned_prepares|]. intros r l [H1 H2]. by split.
Qed.

(** The pool, one of its targets and the uplink to it. *)
Definition ip_found (plus : bool) (r : TargetPool * IpAddr * InterfaceBinding) (es : list Act) : Prop :=
  Forall (serves (is_plus plus)) (m_target <$> members r.1.1) ∧
  (∃ t, t ∈ m_target <$> members r.1.1 ∧ t_ip t = r.1.2) ∧ su_uplink su (monitor_probe_target r.1.2) = Some r.2 ∧
  (is_some session = true → ∃ ts, OwnPool ts ∈ es).
Lemma new_pool_ip mode cfg ts ip : Forall (serves mode) ts → (∃ t, t ∈ ts ∧ t_ip t = ip) → NoDup (key <$> ts) →
  (Z.of_nat (length ts) ≤ usize_max)%Z → prepares (new_pool su cfg ts)
  (λ p _, Forall (serves mode) (m_target <$> members p) ∧ ∃ t, t ∈ m_target <$> members p ∧ t_ip t = ip).
Proof.
  intros Hf Ht Hn Hl. assert (ts ≠ []) as Hne by (intros ->; destruct Ht as (t & Ht & _); by apply elem_of_nil in Ht).
  destruct (new_ok (pool_strategy cfg) ts (su_seed su) Hne) as (p & E & _ & Ha & _).
  assert (m_target <$> members p = unique_targets ts usize_max) as Hm by exact (f_equal lg_ranking Ha).
  rewrite (unique_targets_id ts Hn Hl) in Hm. unfold new_pool.
  eapply prepares_bind; [by eapply (prepares_lift _ (Some p) (λ r _, r = Some p))|]. intros ? l1 ->.
  apply prepares_ret. by rewrite Hm.
Qed.

Lemma find_ip_prepares plus cfg : start_ok (is_plus plus) → (LOAD_BALANCE_TARGET_COUNT cfg ≤ usize_max)%Z →
  prepares (find_ip_target su no_tui session plus cfg) (ip_found plus).
Proof.
  intros Hok Hcount. unfold find_ip_target.
  eapply prepares_bind; [by apply (restored_prepares (is_plus plus))|]. intros restored l1 Hr.
  eapply prepares_bind; [by apply active_prepares|]. intros [[ip score] balanced] l2 Ha. cbn [fst snd] in Ha.
  eapply prepares_bind; [by apply (prepares_act _ (λ _ _, True))|]. intros u3 l3 _.
  eapply prepares_bind; [apply (λ H, H : prepares _ (λ w _, w = monitor_probe_target ip ∧ ip_ok plus ip))|].
  { destruct plus; [|by apply prepares_ret]. apply prepares_or_fail; [reachable|].
    intros v4. destruct ip as [v|]; [|done]. intros [= <-]. split; [done|]. intros _. by exists v. }
  intros ? l4 [-> Hip].
  eapply prepares_bind; [apply (prepares_or_fail _ _ (λ b _, su_uplink su (monitor_probe_target ip) = Some b)); [reachable|done]|].
  intros b l5 Hb.
  eapply prepares_bind; [apply (λ H, H : prepares _ (λ p _, Forall (serves (is_plus plus)) (m_target <$> members p) ∧
      ∃ t, t ∈ m_target <$> members p ∧ t_ip t = ip))|].
  { destruct restored as [p|].
    - destruct Ha as (t & (_ & Hf & Hh) & ->). apply prepares_ret. split; [done|]. exists t.
      destruct (m_target <$> members p); [done|]. injection Hh as ->. by split; [left|].
    - destruct Ha as [_ Hbal]. destruct (LOAD_BALANCE_ENABLED cfg && is_none (SELECTED_IP cfg)) eqn:El.
      + apply andb_true_iff in El as [El Es]. destruct (SELECTED_IP cfg); [done|].
        destruct (Hbal eq_refl) as (Hf & Hn & Hl & Hin). apply new_pool_ip; auto.
      + apply new_pool_ip; [|by exists (target_ip ip (default 0%Z score)); split; [left|]|..].
        * apply Forall_singleton. destruct plus; [|done]. destruct (Hip eq_refl) as [v4 ->]. by exists v4.
        * apply NoDup_singleton.
        * cbn. unfold usize_max. lia. }
  intros p l6 [Hf Ht].
  eapply prepares_bind; [apply own_pool_prepares|]. intros u7 l7 Hown. apply prepares_ret. split; [done|]. split; [done|].
  split; [done|]. intros Hs. destruct (Hown Hs) as [ts Hts]. exists ts. rewrite !elem_of_app. tauto.
Qed.

Lemma ip_bypass_after cfg : start_ok IpBypass → (LOAD_BALANCE_TARGET_COUNT cfg ≤ usize_max)%Z →
  after IpBypass cfg [] (ip_bypass_main su no_tui session cfg).
Proof.
  intros Hok Hcount. unfold ip_bypass_main.
  eapply after_bind; [done|by apply (prepares_or_fail _ _ (λ _ _, True)); [reachable|]|]. intros u0 l0 H0 _.
  eapply after_bind; [done|by apply (find_ip_prepares false)|]. intros [[pool ip] b] l1 H1 (Hf & (t & Ht & Hip) & Hb & Hown).
  cbn [fst snd] in *. eapply after_bind; [done|apply rescan_prepares|]. intros u2 l2 H2 _.
  apply after_serve; try done.
  - exists t. split; [done|]. cbn. by rewrite Hip.
  - intros Hs. destruct (Hown Hs) as [ts Hts]. split; [|done]. exists ts. rewrite !elem_of_app. tauto.
Qed.
Lemma ip_bypass_plus_after cfg : start_ok IpBypassPlus → (LOAD_BALANCE_TARGET_COUNT cfg ≤ usize_max)%Z →
  after IpBypassPlus cfg [] (ip_bypass_plus_main su no_tui session helper cfg).
Proof.
  intros Hok Hcount. unfold ip_bypass_plus_main.
  eapply after_bind; [done|by apply (prepares_or_fail _ _ (λ _ _, True)); [reachable|]|]. intros u0 l0 H0 _.
  eapply after_bind; [done|by apply (find_ip_prepares true)|]. intros [[pool ip] b] l1 H1 (Hf & (t & Ht & Hip) & Hb & Hown).
  cbn [fst snd] in *. eapply after_bind; [done|apply rescan_prepares|]. intros u2 l2 H2 _.
  eapply after_bind; [done|by apply (plane_prepares IpBypassPlus)|]. intros handle l3 H3 [Hpl Hplane].
  apply after_serve; try done.
  - exists t. split; [done|]. cbn. by rewrite Hip.
  - by apply plane_ready_app.
  - intros Hs. split; [destruct (Hown Hs) as [ts Hts]; exists ts|intros _; specialize (Hplane Hs)]; rewrite !elem_of_app; tauto.
Qed.

End launch.

(** ** A run *)
Definition lan : InterfaceBinding := MkInterfaceBinding 0x0A000002 3 "wlan0".
(** One reachable name; whatever is asked for succeeds. *)
Definition fair : Surroundings :=
  MkSurroundings (Some lan) (λ _, Some lan) (λ _, Config.Ok [0x01010101%Z])
    (Config.Ok [MkSniProbe "a.com" 0x01010101 blank 80; MkSniProbe "b.com" 0x01010102 blank 40]) head
    (Config.Ok [IpV4 0x01010101]) (λ _, Config.Ok []) head (λ _, None) (λ _, None) Rescan.Accepted (λ _ _, Some 5%Z) true
    (inl ()) 7.
Definition plain : Config := default_config "127.0.0.1" 8443.

Lemma fair_ok mode : start_ok fair false (Some None) mode.
Proof.
  constructor; try done.
  - intros [|e l] e'; [done|]. intros [= <-]. by left.
  - intros [|e l] e'; [done|]. intros [= <-]. by left.
  - intros ips entries e [= <-] He. by apply elem_of_nil in He.
Qed.
