(* ===== verification/ScanModes.v ===== *)
(** * The scan modes

    Model of the modes of [crates/zerodpi/src/main.rs] that end by themselves:
    [sni_scan], [ip_scan], the two method scans and [proxy_scan], over the
    scans ([Scanner], [SniScan]), the testers ([MethodScan], [ProxyTest]) and
    the screens ([Screens]).  A report is kept as such instead of its JSON;
    what happens beside a running test (its progress) is listed behind it. *)
From stdpp Require Import base list numbers strings.
From Stdlib Require Import ZArith Lia Ascii Sorted.
From S2P Require Import Prelude Text NetAddr Interceptor Flow Config Methods Composite Protocol WireMethod Netmon ScanList Scanner TargetPool MethodScan ProxyTest Screens Headless CommandLine Startup.
Local Open Scope string_scope.
Local Open Scope nat_scope.
Local Open Scope list_scope.

Inductive Report :=
  | ReportSni (l : list SniProbeEntry) | ReportIp (l : list IpProbeEntry)
  | ReportMethods (r : MethodScanReport) | ReportProxy (l : list ProxyTestEntry).
Inductive ScanAct :=
  | STell (e : RuntimeEvent)
  | SMethods (effects : list EngineEffect)
  | SReachSocks5
  | SRequest (m : Message) (ok : bool)     (* to the root helper, and its answer *)
  | STest (effects : list TestEffect) | SGap
  | SSave (path : string) (r : Report)
  | SPrint (r : Report) | SShow (r : Report) (saved : option string).

(** [dir] is the directory of the configuration file. *)
Definition resolve_output_path (cfg : Config) (dir : string) : option string := join_path dir <$> SCAN_OUTPUT cfg.
Definition resolve_method_output_path (cfg : Config) (dir : string) : option string := join_path dir <$> METHOD_SCAN_OUTPUT cfg.

(** How a scan on screen ends: it is over when the screen closes, or what had
    arrived is used. *)
Inductive ScreenEnd (A : Type) := ScanOver (r : result (list A)) | ScanLeft (arrived : list A).
Arguments ScanOver {A}. Arguments ScanLeft {A}.

Section modes.
Context (dir : string) (no_tui saved_ok : bool) (scan_uplink : option InterfaceBinding) (uplink : Z → option InterfaceBinding).
Notation scan := (proc ScanAct).

Definition of_result {A} (r : result A) (f : string → Failure) : scan A :=
  match r with Ok a => mret a | Err e => fail_with (f e) end.
Definition scanned {A} (ranked : A → A → bool) (headless : result (list A) * list RuntimeEvent) (screen : ScreenEnd A)
    : scan (list A) :=
  if no_tui then acts (STell <$> headless.2);; of_result headless.1 ScanFailed
  else match screen with
       | ScanOver r => of_result r ScanFailed
       | ScanLeft arrived => mret (sort_by ranked arrived)
       end.
Definition save (path : option string) (r : Report) : scan () :=
  match path with
  | Some p => act (SSave p r);; when (negb saved_ok) (fail_with SaveFailed)
  | None => mret ()
  end.

Definition sni_scan_main (cfg : Config) (headless : result (list SniProbeEntry) * list RuntimeEvent)
    (screen : ScreenEnd SniProbeEntry) : scan () :=
  _ ← or_fail scan_uplink NoUplink;
  sorted ← scanned sni_ranked headless screen;
  let path := resolve_output_path cfg dir in
  save path (ReportSni sorted);;
  when (negb no_tui) (act (SShow (ReportSni sorted) path)).

Definition listed_ips (ips : result (list IpAddr)) : scan (list IpAddr) :=
  ips ← of_result ips ListFailed; when (is_nil ips) (fail_with EmptyIpList);; mret ips.
(** [headless] and [screen] are of the scan of these addresses. *)
Definition ip_scan_main (cfg : Config) (ips : result (list IpAddr))
    (headless : list IpAddr → list IpProbeEntry * list RuntimeEvent) (screen : ScreenEnd IpProbeEntry) : scan () :=
  _ ← or_fail scan_uplink NoUplink;
  ips ← listed_ips ips;
  sorted ← scanned ip_ranked (Ok (headless ips).1, (headless ips).2) screen;
  let path := resolve_output_path cfg dir in
  save path (ReportIp sorted);;
  when (negb no_tui) (act (SShow (ReportIp sorted) path)).

(** ** Method scans *)
Definition method_progress (target : MethodScanTarget) (total : nat) (effects : list EngineEffect) : list RuntimeEvent :=
  imap (λ k entry, EvScanProgress KindProxy (Some "method_test") (S k) (Some total) (Some (mt_sni target))
          (Some (IpV4 (mt_ip target))) (Some (round_to_u8 (me_success_rate entry))))
    (omap (λ e, match e with MethodScan.Report (MethodDone _ _ entry) => Some entry | _ => None end) effects).

(** A user who leaves gets the methods that are done, ranked; the tests are a
    blocking task, which cannot be aborted, and go on to their end. *)
Definition method_scan_phase1 (valid_name : string → bool) (chances : nat → MethodChance) (cfg : Config)
    (target : MethodScanTarget) (screen : option (list MethodScanEntry)) (mode : string) : scan () :=
  b ← or_fail (uplink (mt_ip target)) NoInitialUplink;
  let methods := METHOD_SCAN_METHODS cfg in
  let total := length methods in
  let tests := run_method_tests valid_name (ib_ip b) true cfg target methods chances in
  let effects := from_option snd [] tests in
  entries ← (if no_tui then
      act (STell (EvScanStarted KindProxy None (Some total)));;
      acts (SMethods effects :: (STell <$> method_progress target total effects));;
      entries ← or_fail (fst <$> tests) BadListenAddress;
      act (STell (EvScanCompleted KindProxy (length entries)));; mret entries
    else
      act (SMethods effects);;
      match screen with
      | None => or_fail (fst <$> tests) BadListenAddress
      | Some arrived => mret (rank_entries arrived)
      end);
  let report := {| rep_mode := mode; rep_target_sni := mt_sni target; rep_target_ip := mt_ip target;
    rep_target_score := mt_score target; rep_samples_per_method := METHOD_SCAN_SAMPLES cfg;
    rep_interval_ms := METHOD_SCAN_INTERVAL_MS cfg; rep_methods := entries |} in
  let path := resolve_method_output_path cfg dir in
  save path (ReportMethods report);;
  act (if no_tui then SPrint (ReportMethods report) else SShow (ReportMethods report) path).

Section method_scan.
Context (valid_name : string → bool) (chances : nat → MethodChance) (methods_screen : option (list MethodScanEntry)).

Definition sni_method_scan_main (cfg : Config) (headless : result (list SniProbeEntry) * list RuntimeEvent)
    (screen : ScreenEnd SniProbeEntry) : scan () :=
  _ ← or_fail scan_uplink NoUplink;
  sorted ← scanned sni_ranked headless screen;
  top ← or_fail (head sorted) NoCandidates;
  method_scan_phase1 valid_name chances cfg (MkScanTarget (sp_sni top) (sp_ip top) (sp_score top) "/")
    methods_screen "sni_method_scan".

Definition top_ipv4 (l : list IpProbeEntry) : option (IpProbeEntry * Z) :=
  head (omap (λ e, match ipp_ip e with IpV4 ip => Some (e, ip) | IpV6 _ => None end) l).
Definition ip_method_scan_main (cfg : Config) (ips : result (list IpAddr))
    (headless : list IpAddr → list IpProbeEntry * list RuntimeEvent) (screen : ScreenEnd IpProbeEntry) : scan () :=
  _ ← or_fail scan_uplink NoUplink;
  ips ← listed_ips ips;
  sorted ← scanned ip_ranked (Ok (headless ips).1, (headless ips).2) screen;
  '(top, ip) ← or_fail (top_ipv4 sorted) NoCandidates;
  method_scan_phase1 valid_name chances cfg (MkScanTarget (IP_SCAN_SNI cfg) ip (ipp_score top) "/cdn-cgi/trace")
    methods_screen "ip_method_scan".
End method_scan.

(** ** The proxy scan *)
Record TestChance := MkTestChance {
  tc_configured : bool; tc_helper_opens : bool; tc_closed : bool;      (* the helper's answers *)
  tc_opens : bool; tc_seed : Z;                      (* without a helper *)
  tc_timed_out : bool; tc_probe : ProxyTest.ProbeChance }.

Definition proxy_candidates (cfg : Config) (phase1 : list SniProbeEntry) : list SniProbeEntry :=
  let l := filter (λ e, (PROXY_TEST_MIN_SNI_SCORE cfg ≤ sp_score e)%Z) phase1 in
  if (0 <? PROXY_TEST_TOP_N cfg)%Z then take (Z.to_nat (PROXY_TEST_TOP_N cfg)) l else l.

Definition test_one (cfg : Config) (helper : bool) (interface_ip : Z) (candidate : SniProbeEntry) (c : TestChance)
    : ProxyTestEntry * list ScanAct :=
  if helper then
    let config := interceptor_config cfg interface_ip (Some (sp_ip candidate)) 443 in
    let failed := failed_candidate_entry candidate (PROXY_TEST_SNI_WEIGHT cfg) in
    let configure := SRequest (MConfigureInterceptor config) (tc_configured c) in
    let open := SRequest MOpenInterceptor (tc_helper_opens c) in
    if negb (tc_configured c) then (failed, [configure])
    else if negb (tc_helper_opens c) then (failed, [configure; open])
    else
      let '(entry, effects) := test_candidate_with_flow_controller cfg candidate (tc_timed_out c) (tc_probe c) in
      (entry, [configure; open; STest effects; SRequest MCloseInterceptor (tc_closed c)])
  else
    let '(entry, effects) :=
      test_candidate_full cfg interface_ip (tc_seed c) candidate (tc_opens c) (tc_timed_out c) (tc_probe c) in
    (entry, [STest effects]).
Definition phase2 (cfg : Config) (helper shuts_down : bool) (interface_ip : Z) (candidates : list (SniProbeEntry * TestChance))
    : list ProxyTestEntry * list ScanAct :=
  let tests := (λ c, test_one cfg helper interface_ip c.1 c.2) <$> candidates in
  (fst <$> tests, concat ((λ t, t.2 ++ [SGap]) <$> tests) ++ (if helper then [SRequest MShutdown shuts_down] else [])).
Definition proxy_progress (total : nat) (l : list ProxyTestEntry) : list RuntimeEvent :=
  imap (λ k e, EvScanProgress KindProxy (Some "proxy_test") (S k) (Some total) (Some (pt_sni e))
          (Some (IpV4 (pt_ip e))) (Some (pt_final_score e))) l.

(** [screen]: what had arrived when the user left; the tests go on here too. *)
Definition proxy_rows (total : nat) (entries : list ProxyTestEntry) (effects : list ScanAct)
    (screen : option (list ProxyTestEntry)) : scan (list ProxyTestEntry) :=
  if no_tui then
    act (STell (EvScanStarted KindProxy None (Some total)));;
    acts (effects ++ (STell <$> proxy_progress total entries));;
    act (STell (EvScanCompleted KindProxy (length entries)));; mret entries
  else acts effects;; mret (default entries screen).
Definition report_proxy (cfg : Config) (results : list ProxyTestEntry) : scan () :=
  let results := sort_by better_test results in
  let path := resolve_output_path cfg dir in
  save path (ReportProxy results);;
  when (negb no_tui) (act (SShow (ReportProxy results) path)).
Definition proxy_scan_main (cfg : Config) (helper shuts_down : bool) (headless : result (list SniProbeEntry) * list RuntimeEvent)
    (phase1_screen : ScreenEnd SniProbeEntry) (socks5_reachable : bool) (chances : nat → TestChance)
    (screen : option (list ProxyTestEntry)) : scan () :=
  _ ← or_fail scan_uplink NoUplink;
  phase1 ← scanned sni_ranked headless phase1_screen;
  let candidates := proxy_candidates cfg phase1 in
  first ← or_fail (head candidates) NoCandidates;
  act SReachSocks5;;
  when (negb socks5_reachable) (fail_with NoSocks5);;
  b ← or_fail (uplink (sp_ip first)) NoInitialUplink;
  let '(entries, effects) := phase2 cfg helper shuts_down (ib_ip b) (imap (λ k c, (c, chances k)) candidates) in
  results ← proxy_rows (length candidates) entries effects screen;
  report_proxy cfg results.
End modes.

(** ** What the modes guarantee *)
Section outcomes.
Context {W : Type}.
Lemma bind_returned {A B} (m : proc W A) (k : A → proc W B) es b es' :
  (m ≫= k) es = (Returned b, es') ↔ ∃ a es1, m es = (Returned a, es1) ∧ k a es1 = (Returned b, es').
Proof.
  unfold mbind, proc_bind. destruct (m es) as [[a|f|] es1]; split; try done.
  - intros H. by exists a, es1.
  - by intros (? & ? & [= <- <-] & H).
  - by intros (? & ? & ? & _).
  - by intros (? & ? & ? & _).
Qed.
Lemma or_fail_returned {A} (o : option A) f es a es' : or_fail (W := W) o f es = (Returned a, es') ↔ o = Some a ∧ es' = es.
Proof. destruct o; (split; [by intros [= <- <-]|by intros [[= <-] ->]]). Qed.
Lemma when_fail_returned b f es a es' : when (W := W) b (fail_with f) es = (Returned a, es') ↔ b = false ∧ es' = es.
Proof. destruct b, a; (split; [by intros [= <-]|by intros [[=] ->]]). Qed.
End outcomes.

(** The helper behind the requests; one that fails ends it. *)
Definition helper_after (m : Message) (s : HelperState) : HelperState :=
  match m with
  | MConfigureInterceptor _ | MCloseInterceptor => Configured
  | MOpenInterceptor => InterceptorOpen
  | MShutdown => Exited
  | _ => s
  end.
Definition helper_step (a : ScanAct) (s : HelperState) : option HelperState :=
  match a with
  | SRequest m ok =>
      if bool_decide (s = Exited) then (if ok then None else Some Exited)
      else if accepts s m then Some (if ok then helper_after m s else Exited) else None
  | _ => Some s
  end.
Fixpoint helper_run (es : list ScanAct) (s : HelperState) : option HelperState :=
  match es with [] => Some s | a :: es => s ← helper_step a s; helper_run es s end.

(** A helper that has refused a request is gone. *)
Definition served (c : TestChance) : bool := tc_configured c && tc_helper_opens c && tc_closed c.
Fixpoint lawful_answers (l : list TestChance) (shuts_down : bool) : Prop :=
  match l with
  | [] => True
  | c :: l => if served c then lawful_answers l shuts_down
              else Forall (λ c, tc_configured c = false) l ∧ shuts_down = false
  end.

Lemma helper_run_app es es' s : helper_run (es ++ es') s = (s' ← helper_run es s; helper_run es' s').
Proof.
  revert s; induction es as [|a es IH]; intros s; [done|]. cbn [app helper_run].
  destruct (helper_step a s); [apply IH|done].
Qed.
Lemma helper_run_tells l s : helper_run (STell <$> l) s = Some s.
Proof. induction l as [|e l IH]; [done|]. exact IH. Qed.

Lemma test_one_local cfg iface candidate c s : helper_run (test_one cfg false iface candidate c).2 s = Some s.
Proof. unfold test_one. by destruct (test_candidate_full _ _ _ _ _ _ _). Qed.

Lemma test_one_helper cfg iface candidate c s : s = Authenticated ∨ s = Configured →
  helper_run (test_one cfg true iface candidate c).2 s = Some (if served c then Configured else Exited).
Proof.
  intros Hs. unfold test_one, served. destruct (test_candidate_with_flow_controller _ _ _ _) as [entry effects].
  destruct (tc_configured c), (tc_helper_opens c), (tc_closed c); destruct Hs as [-> | ->]; reflexivity.
Qed.
Lemma test_one_gone cfg iface candidate c : tc_configured c = false →
  helper_run (test_one cfg true iface candidate c).2 Exited = Some Exited ∧
  (test_one cfg true iface candidate c).1 = failed_candidate_entry candidate (PROXY_TEST_SNI_WEIGHT cfg).
Proof. intros H. unfold test_one. by rewrite H. Qed.

Lemma phase2_helper cfg helper sd iface l s : s = Authenticated ∨ s = Configured →
  lawful_answers (snd <$> l) sd →
  helper_run (phase2 cfg helper sd iface l).2 s = Some (if helper then Exited else s).
Proof.
  intros Hs Hl. unfold phase2. cbn [snd]. destruct helper.
  - revert s Hs Hl. induction l as [|[e c] l IH]; intros s Hs Hl.
    { destruct Hs as [-> | ->], sd; reflexivity. }
    cbn [fmap list_fmap concat fst snd]. rewrite <- !(assoc_L (++)), helper_run_app.
    rewrite test_one_helper by done. cbn [mbind option_bind app helper_run helper_step].
    cbn [fmap list_fmap lawful_answers snd] in Hl. destruct (served c); [apply (IH Configured); [by right|done]|].
    destruct Hl as [Hl ->]. clear IH. induction l as [|[e' c'] l IH]; [reflexivity|].
    cbn [fmap list_fmap snd] in Hl. apply Forall_cons in Hl as [Hc Hl].
    cbn [fmap list_fmap concat fst snd]. rewrite <- !(assoc_L (++)), helper_run_app.
    rewrite (proj1 (test_one_gone cfg iface e' c' Hc)). by apply IH.
  - rewrite app_nil_r. clear Hs Hl. induction l as [|[e c] l IH]; [done|].
    cbn [fmap list_fmap concat fst snd]. rewrite <- !(assoc_L (++)), helper_run_app, test_one_local. exact IH.
Qed.

(** What is reported to the user, saved or shown. *)
Definition reports (es : list ScanAct) : list Report :=
  omap (λ a, match a with SSave _ r | SPrint r | SShow r _ => Some r | _ => None end) es.
Definition tests (es : list ScanAct) : list (list TestEffect) :=
  omap (λ a, match a with STest effects => Some effects | _ => None end) es.
(** The first phase's result. *)
Definition found {A} (no_tui : bool) (ranked : A → A → bool) (headless : result (list A)) (screen : ScreenEnd A) (l : list A) : Prop :=
  if no_tui then headless = Ok l
  else match screen with ScanOver r => r = Ok l | ScanLeft arrived => l = sort_by ranked arrived end.

Lemma reports_app es es' : reports (es ++ es') = reports es ++ reports es'.
Proof. apply omap_app. Qed.
Lemma reports_tells l : reports (STell <$> l) = [].
Proof. induction l as [|e l IH]; [done|]. exact IH. Qed.

Lemma scanned_ok {A} no_tui (ranked : A → A → bool) headless screen es :
  ∃ told, let '(r, es') := scanned no_tui ranked headless screen es in
  es' = es ++ (STell <$> told) ∧ r ≠ Panicked ∧
  ∀ l, r = Returned l → found no_tui ranked headless.1 screen l.
Proof.
  unfold scanned, mbind, proc_bind, acts, of_result, found, mret, proc_ret, fail_with.
  destruct no_tui; [exists headless.2; by destruct headless.1 as [l|e]; (split_and!; [done..|]); intros ? [= <-]|].
  exists []. destruct screen as [[l|e]|arrived]; rewrite app_nil_r; (split_and!; [done..|]); by intros ? [= <-].
Qed.

Lemma save_ok saved_ok path r es :
  let '(o, es') := save saved_ok path r es in
  es' = es ++ ((λ p, SSave p r) <$> option_list path) ∧ o ≠ Panicked ∧ (o = Returned () → path = None ∨ saved_ok = true).
Proof.
  unfold save. destruct path as [p|]; cbn; [|rewrite app_nil_r; split_and!; auto; done].
  unfold mbind, proc_bind, act, when. destruct saved_ok; cbn; split_and!; auto; done.
Qed.

Lemma phase2_tests cfg sd iface l : length (tests (phase2 cfg false sd iface l).2) = length l.
Proof.
  unfold phase2. cbn [snd]. rewrite app_nil_r. induction l as [|[e c] l IH]; [done|].
  cbn [fmap list_fmap concat fst snd length]. rewrite <- IH. unfold tests, test_one. rewrite omap_app, length_app.
  destruct (test_candidate_full _ _ _ _ _ _ _) as [entry effects]. reflexivity.
Qed.
Lemma phase2_keys cfg helper sd iface l : (λ e, (pt_sni e, pt_ip e)) <$> (phase2 cfg helper sd iface l).1 =
  (λ c, (sp_sni c.1, sp_ip c.1)) <$> l.
Proof.
  unfold phase2. cbn [fst]. rewrite <- !list_fmap_compose. apply list_fmap_ext. intros _ [e c] _.
  cbn [compose fst snd]. unfold test_one, test_candidate_full, test_candidate_with_flow_controller.
  destruct helper.
  - destruct (run_socks5_probe _ _ _ _) as [r effects]. by destruct (tc_configured c), (tc_helper_opens c).
  - destruct (is_socket_only (BYPASS_METHOD cfg)); [by destruct (run_socks5_probe _ _ _ _)|].
    destruct (build_method cfg (tc_seed c)); [|done]. destruct (tc_opens c); [|done]. cbn [negb].
    by destruct (run_socks5_probe _ _ _ _).
Qed.
Lemma phase2_quiet cfg helper sd iface l : reports (phase2 cfg helper sd iface l).2 = [].
Proof.
  unfold phase2. cbn [snd]. rewrite reports_app. assert (reports (if helper then [SRequest MShutdown sd] else []) = []) as ->
    by by destruct helper.
  rewrite app_nil_r. induction l as [|[e c] l IH]; [done|]. cbn [fmap list_fmap concat fst snd].
  rewrite !reports_app, IH, app_nil_r. unfold test_one. destruct helper.
  - destruct (test_candidate_with_flow_controller _ _ _ _). by destruct (tc_configured c), (tc_helper_opens c).
  - by destruct (test_candidate_full _ _ _ _ _ _ _).
Qed.

Lemma candidates_ok cfg phase1 : let cands := proxy_candidates cfg phase1 in
  cands `sublist_of` phase1 ∧ Forall (λ e, (PROXY_TEST_MIN_SNI_SCORE cfg ≤ sp_score e)%Z) cands ∧
  ((0 < PROXY_TEST_TOP_N cfg)%Z → (Z.of_nat (length cands) ≤ PROXY_TEST_TOP_N cfg)%Z).
Proof.
  unfold proxy_candidates. set (l := filter _ phase1).
  assert (l `sublist_of` phase1) as Hl by apply sublist_filter.
  assert (Forall (λ e, (PROXY_TEST_MIN_SNI_SCORE cfg ≤ sp_score e)%Z) l) as Hf.
  { apply Forall_forall. intros e He. by apply list_elem_of_filter in He as [? _]. }
  destruct (Z.ltb_spec 0 (PROXY_TEST_TOP_N cfg)); split_and!; try done; try lia.
  - by etrans; [apply sublist_take|].
  - by apply Forall_take.
  - intros _. rewrite length_take. lia.
Qed.

Section proxy_scan.
Context (dir : string) (no_tui saved_ok : bool) (scan_uplink : option InterfaceBinding) (uplink : Z → option InterfaceBinding).

(** What a proxy scan that ends well has done. *)
Definition proxy_scanned (cfg : Config) (helper : bool) (phase1 : list SniProbeEntry)
    (screen : option (list ProxyTestEntry)) (es : list ScanAct) : Prop :=
  let cands := proxy_candidates cfg phase1 in
  cands ≠ [] ∧ cands `sublist_of` phase1 ∧ Forall (λ e, (PROXY_TEST_MIN_SNI_SCORE cfg ≤ sp_score e)%Z) cands ∧
  ((0 < PROXY_TEST_TOP_N cfg)%Z → (Z.of_nat (length cands) ≤ PROXY_TEST_TOP_N cfg)%Z) ∧
  (helper = false → length (tests es) = length cands) ∧
  ∃ rows, StronglySorted (λ a b, better_test a b = true) rows ∧
    Forall (eq (ReportProxy rows)) (reports es) ∧ (no_tui = false → reports es ≠ []) ∧
    (is_some (SCAN_OUTPUT cfg) = true → reports es ≠ []) ∧
    (no_tui = true ∨ screen = None →
     (λ e, (pt_sni e, pt_ip e)) <$> rows ≡ₚ (λ e, (sp_sni e, sp_ip e)) <$> cands).

(** The second phase and what follows. *)
Lemma proxy_tests_ok cfg helper sd b chances cands es :
  (∀ n, lawful_answers (chances <$> seq 0 n) sd) →
  helper_run es Authenticated = Some Authenticated →
  let '(entries, effects) := phase2 cfg helper sd (ib_ip b) (imap (λ k c, (c, chances k)) cands) in
  (λ e, (pt_sni e, pt_ip e)) <$> entries = (λ e, (sp_sni e, sp_ip e)) <$> cands ∧
  reports effects = [] ∧ (helper = false → length (tests effects) = length cands) ∧
  helper_run (es ++ effects) Authenticated = Some (if helper then Exited else Authenticated).
Proof.
  intros Hl Hs. pose proof (phase2_keys cfg helper sd (ib_ip b) (imap (λ k c, (c, chances k)) cands)) as Hk.
  pose proof (phase2_quiet cfg helper sd (ib_ip b) (imap (λ k c, (c, chances k)) cands)) as Hq.
  pose proof (phase2_tests cfg sd (ib_ip b) (imap (λ k c, (c, chances k)) cands)) as Htt.
  pose proof (phase2_helper cfg helper sd (ib_ip b) (imap (λ k c, (c, chances k)) cands) Authenticated ltac:(by left)) as Hh.
  rewrite fmap_imap in Hh. rewrite fmap_imap in Hk. rewrite length_imap in Htt.
  assert (imap (λ k, snd ∘ (λ c : SniProbeEntry, (c, chances k))) cands = chances <$> seq 0 (length cands)) as E.
  { apply list_eq. intros i. rewrite list_lookup_imap, list_lookup_fmap.
    destruct (cands !! i) as [c|] eqn:Ei.
    - by rewrite lookup_seq_lt by (by eapply lookup_lt_Some).
    - by rewrite lookup_seq_ge by (by apply lookup_ge_None). }
  rewrite E in Hh. specialize (Hh (Hl _)).
  destruct (phase2 _ _ _ _ _) as [entries effects] eqn:Ep. cbn [fst snd] in *. split.
  { rewrite Hk. apply list_eq. intros i. rewrite list_lookup_imap, list_lookup_fmap. by destruct (cands !! i). }
  split; [done|]. split; [|by rewrite helper_run_app, Hs].
  intros ->. by rewrite Ep in Htt.
Qed.

Lemma proxy_rows_ok total entries effects screen es s : helper_run (es ++ effects) Authenticated = Some s →
  reports es = [] → tests es = [] → reports effects = [] →
  ∃ results es', proxy_rows no_tui total entries effects screen es = (Returned results, es') ∧
    (no_tui = true ∨ screen = None → results = entries) ∧
    helper_run es' Authenticated = Some s ∧ reports es' = [] ∧ tests es' = tests effects.
Proof.
  intros Hs Hr Ht Hq.
  assert (∃ pre post results, proxy_rows no_tui total entries effects screen es =
    (Returned results, es ++ (STell <$> pre) ++ effects ++ (STell <$> post)) ∧
    (no_tui = true ∨ screen = None → results = entries)) as (pre & post & results & -> & Hres).
  { unfold proxy_rows, mbind, proc_bind, act, acts, mret, proc_ret. destruct no_tui.
    - exists [EvScanStarted KindProxy None (Some total)],
        (proxy_progress total entries ++ [EvScanCompleted KindProxy (length entries)]), entries.
      split; [|done]. rewrite fmap_app, <- !(assoc_L (++)). reflexivity.
    - exists [], [], (default entries screen). split; [by rewrite app_nil_r|]. by intros [?| ->]. }
  do 2 eexists. split; [done|]. split; [done|]. rewrite !reports_app, Hr, Hq, !reports_tells. split_and!; [|done|].
  - rewrite helper_run_app in Hs |- *. destruct (helper_run es Authenticated) as [s1|]; [|done].
    cbn [mbind option_bind] in *. rewrite helper_run_app, helper_run_tells. cbn [mbind option_bind].
    rewrite helper_run_app, Hs. cbn [mbind option_bind]. apply helper_run_tells.
  - unfold tests in *. rewrite !omap_app, Ht.
    assert (∀ l : list RuntimeEvent, omap (λ a, match a with STest effects => Some effects | _ => None end) (STell <$> l) = []) as Htt
      by (intros l; induction l as [|e l IH]; [done|exact IH]). rewrite !Htt. simpl. by rewrite app_nil_r.
Qed.

Lemma report_proxy_ok cfg results es : reports es = [] →
  let '(r, es') := report_proxy dir no_tui saved_ok cfg results es in
  let rows := sort_by better_test results in
  r ≠ Panicked ∧ (∀ s, helper_run es s = helper_run es' s) ∧ tests es' = tests es ∧
  (r = Returned () → Forall (eq (ReportProxy rows)) (reports es') ∧ (no_tui = false → reports es' ≠ []) ∧
    (is_some (SCAN_OUTPUT cfg) = true → reports es' ≠ [])).
Proof.
  intros Hr. unfold report_proxy, resolve_output_path, mbind, proc_bind. set (rows := sort_by better_test results).
  assert (∀ tail, (∀ s, helper_run tail s = Some s) → ∀ s, helper_run es s = helper_run (es ++ tail) s) as Hquiet.
  { intros tail Htail s. rewrite helper_run_app. destruct (helper_run es s); [symmetry; apply Htail|done]. }
  pose proof (save_ok saved_ok (join_path dir <$> SCAN_OUTPUT cfg) (ReportProxy rows) es) as Hs.
  destruct (save _ _ _ _) as [o es1]. destruct Hs as (-> & Hp & _).
  assert (∀ tail, reports (es ++ tail) = reports tail) as Hrt by (intros; by rewrite reports_app, Hr).
  destruct o as [[]|f|]; [| |done]; unfold act, when, mret, proc_ret; destruct no_tui, (SCAN_OUTPUT cfg);
    cbn [negb]; rewrite <- ?(assoc_L (++)); (split_and!; [done|by apply Hquiet| |]);
    try (unfold tests; rewrite !omap_app; simpl; by rewrite ?app_nil_r); rewrite Hrt; try done; intros _;
    cbn [fmap list_fmap option_fmap option_map option_list reports omap list_omap app is_some];
    (split_and!; [repeat first [apply Forall_nil_2|apply Forall_cons_2; [reflexivity|]]|done|done]).
Qed.

End proxy_scan.

Definition scan_config : Config := default_config "127.0.0.1" 44444.
Definition wifi : InterfaceBinding := MkInterfaceBinding 0x0A000002 3 "wlan0".
Definition willing (k : nat) : TestChance := MkTestChance true true true true 7 false probe_chance.
Definition phase1_entries : list SniProbeEntry := [MkSniProbe "a.com" 1 blank 80; MkSniProbe "b.com" 2 blank 0].
Lemma willing_lawful n sd : lawful_answers (willing <$> seq 0 n) sd.
Proof. generalize 0. induction n as [|n IH]; intros k; [done|]. exact (IH (S k)). Qed.

