(* ===== verification/Program.v ===== *)
(** * The program

    Model of [main], [run] and the dispatch of [run_config] of
    [crates/zerodpi/src/main.rs]: the configuration, the root helper, the right
    to intercept packets, and the mode that is entered.  The interactive
    session is [Reload]'s; installing the crypto provider and logging are left
    out. *)
From stdpp Require Import base list numbers strings.
From Stdlib Require Import ZArith Lia Ascii.
From S2P Require Import Prelude Text NetAddr Interceptor Flow Config Methods Composite Protocol WireMethod Netmon ScanList Scanner TargetPool Rescan MethodScan ProxyTest Screens Reload Headless CommandLine Startup Launch ScanModes.
Local Open Scope string_scope.
Local Open Scope nat_scope.
Local Open Scope list_scope.

Inductive Step :=
  | Write (e : RuntimeEvent)
  | ConnectHelper (socket session_file : string) (expected_uid : Z)
  | CheckAccess
  | Interactive (cfg : Config)
  | InMode (a : Act)
  | InScan (a : ScanAct).
Notation prog := (proc Step).

(** The root helper that has authenticated. *)
Record Peer := MkPeer { pe_pid : Z; pe_uid : Z; pe_major : Z; pe_minor : Z; pe_capabilities : list string }.

(** What the program meets before it enters a mode. *)
Record Host := MkHost {
  h_version : string; h_pid : Z; h_uid : Z;
  h_exe_dir : option string; h_cwd : option string;
  h_parse : string → result Config;                        (* [Config::from_file] *)
  h_max_permits : Z;
  h_resuid : option (Z * Z * Z);                           (* real, effective, saved *)
  h_connect : string → string → Z → Peer + string;         (* [RemoteHelperClient::connect] *)
  h_access : bool;                                         (* [has_packet_interception_access] *)
  h_session : () + string }.                               (* how the interactive session ends *)

(** What the scan modes meet. *)
Record ScanHost := MkScanHost {
  sh_dir : string; sh_saved_ok : bool;
  sh_headless_sni : result (list SniProbeEntry) * list RuntimeEvent; sh_sni_screen : ScreenEnd SniProbeEntry;
  sh_headless_ip : list IpAddr → list IpProbeEntry * list RuntimeEvent; sh_ip_screen : ScreenEnd IpProbeEntry;
  sh_valid_name : string → bool; sh_methods : nat → MethodChance; sh_methods_screen : option (list MethodScanEntry);
  sh_shuts_down : bool; sh_socks5 : bool; sh_tests : nat → TestChance; sh_tests_screen : option (list ProxyTestEntry) }.

Definition within {W W' A} (f : W → W') (m : proc W A) : proc W' A :=
  λ es, let '(o, l) := m [] in (o, es ++ (f <$> l)).
Definition write (a : Args) (e : RuntimeEvent) : prog () := acts (Write <$> emit (a_json_events a) e).

(** ** Texts *)
Definition quoted (s : string) : string := let q := String "034"%char EmptyString in q +:+ s +:+ q.
Definition root_required_message (cfg : Config) : string :=
  "MODE = " +:+ quoted (MODE cfg) +:+ " with BYPASS_METHOD = " +:+ quoted (list_show (BYPASS_METHOD cfg)) +:+
  " requires packet interception; on Android the app must start the packaged root helper while keeping the data plane under the app UID. Rootless alternatives are MODE = "
  +:+ quoted "ip_bypass" +:+ ", scan-only modes, or BYPASS_METHOD = " +:+ quoted "tls_frag" +:+ " / " +:+
  quoted "tls_padding" +:+ " / " +:+ quoted "mixed_case_sni" +:+ " / " +:+ quoted "sni_boundary_frag" +:+ " / " +:+
  quoted "ccs_prefix" +:+ " where supported.".
Definition rootless_alternatives : list string :=
  ((λ mode, "MODE = " +:+ quoted mode) <$> ["ip_bypass"; "sni_scan"; "ip_scan"]) ++
  ((λ m, "BYPASS_METHOD = " +:+ quoted m +:+ " for supported relay modes") <$>
    ["tls_frag"; "tls_padding"; "mixed_case_sni"; "sni_boundary_frag"; "ccs_prefix"]).

Section program.
Context (h : Host) (su : Surroundings) (sh : ScanHost).

(** ** The root helper *)
Definition verify_data_plane_uid (expected_uid : Z) : prog () :=
  match h_resuid h with
  | None => fail_with UidRefused
  | Some (real, effective, saved) =>
      when (negb ((real =? expected_uid) && (effective =? expected_uid) && (saved =? expected_uid))%Z) (fail_with UidRefused)
  end.
Definition connect_external_helper (a : Args) (root_required : bool) : prog (option Peer) :=
  match a_root_helper_socket a, a_root_helper_session_file a, a_expected_data_plane_uid a with
  | None, None, None => mret None
  | Some socket, Some session_file, Some expected_uid =>
      when (negb root_required) (fail_with HelperNotNeeded);;
      verify_data_plane_uid expected_uid;;
      act (ConnectHelper socket session_file expected_uid);;
      match h_connect h socket session_file expected_uid with
      | inl peer => mret (Some peer)
      | inr e => fail_with (HelperUnreachable e)
      end
  | _, _, _ => fail_with BootstrapIncomplete
  end.

(** ** Modes *)
Definition run_config (cfg : Config) (no_tui : bool) (peer : option Peer) : prog () :=
  let helper := is_some peer in
  let headless_sni := sh_headless_sni sh in let sni_screen := sh_sni_screen sh in
  let headless_ip := sh_headless_ip sh in let ip_screen := sh_ip_screen sh in
  let dir := sh_dir sh in let saved_ok := sh_saved_ok sh in
  let scan_uplink := su_scan_uplink su in let uplink := su_uplink su in
  if String.eqb (MODE cfg) "ip_bypass" then within InMode (ip_bypass_main su no_tui None cfg)
  else if String.eqb (MODE cfg) "ip_bypass_plus" then within InMode (ip_bypass_plus_main su no_tui None helper cfg)
  else if String.eqb (MODE cfg) "sni_scan" then
    within InScan (sni_scan_main dir no_tui saved_ok scan_uplink cfg headless_sni sni_screen)
  else if String.eqb (MODE cfg) "ip_scan" then
    within InScan (ip_scan_main dir no_tui saved_ok scan_uplink cfg (su_ips su) headless_ip ip_screen)
  else if String.eqb (MODE cfg) "proxy_scan" then
    within InScan (proxy_scan_main dir no_tui saved_ok scan_uplink uplink cfg helper (sh_shuts_down sh) headless_sni
      sni_screen (sh_socks5 sh) (sh_tests sh) (sh_tests_screen sh))
  else if String.eqb (MODE cfg) "sni_method_scan" then
    within InScan (sni_method_scan_main dir no_tui saved_ok scan_uplink uplink (sh_valid_name sh) (sh_methods sh)
      (sh_methods_screen sh) cfg headless_sni sni_screen)
  else if String.eqb (MODE cfg) "ip_method_scan" then
    within InScan (ip_method_scan_main dir no_tui saved_ok scan_uplink uplink (sh_valid_name sh) (sh_methods sh)
      (sh_methods_screen sh) cfg (su_ips su) headless_ip ip_screen)
  else within InMode (sni_spoof_main su no_tui None helper cfg).

(** ** [run] *)
Definition load (a : Args) : prog (string * Config) :=
  path ← or_fail (config_path a (h_exe_dir h) (h_cwd h)) NoConfigPath;
  match load_config (h_max_permits h) (h_parse h path) a with
  | Ok cfg => mret (path, cfg)
  | Err e => fail_with (ConfigRefused e)
  end.
Definition ensure_access (a : Args) (cfg : Config) : prog () :=
  act CheckAccess;;
  when (negb (h_access h))
    (write a (EvRootRequired (MODE cfg) (list_show (BYPASS_METHOD cfg)) (root_required_message cfg) rootless_alternatives);;
     fail_with AccessRefused).
Definition admit_config (a : Args) : prog (Config * option Peer) :=
  '(path, cfg) ← load a;
  when (CUSTOM_DNS_ENABLED cfg) (match custom_dns_servers cfg with Ok _ => mret () | Err _ => fail_with NoDnsServers end);;
  let root_required := requires_packet_interception cfg in
  peer ← connect_external_helper a root_required;
  match peer with
  | Some p => write a (EvHelperAuthenticated (pe_pid p) (pe_uid p) (pe_major p) (pe_minor p) (pe_capabilities p))
  | None => mret ()
  end;;
  write a (EvConfigLoaded path (MODE cfg) (list_show (BYPASS_METHOD cfg)) (LISTEN_HOST cfg) (LISTEN_PORT cfg)
    (AUTO_SELECT cfg) (a_no_tui a || a_json_events a) root_required);;
  when (root_required && is_none peer) (ensure_access a cfg);;
  mret (cfg, peer).
Definition run (a : Args) : prog () :=
  '(cfg, peer) ← admit_config a;
  let no_tui := a_no_tui a || a_json_events a in
  if negb no_tui && is_proxy_mode (MODE cfg) then
    act (Interactive cfg);;
    match h_session h with inl _ => mret () | inr e => fail_with (SessionEnded e) end
  else run_config cfg no_tui peer.

(** [main]; [message]: the text of a failure. *)
Definition main (message : Failure → string) (a : Args) : Outcome () * list Step :=
  let '(o, es) := (write a (EvStartup CONTRACT_VERSION (h_version h) (h_pid h) (h_uid h));; run a) [] in
  match o with
  | Failed f => (o, es ++ (Write <$> emit (a_json_events a) (EvFatalError (message f))))
  | _ => (o, es)
  end.
End program.

(** ** What is done beside the result *)
Section adds.
Context {W : Type} (P : W → Prop).

(** Whatever was done before, only steps of [P] are added. *)
Definition adds {A} (m : proc W A) : Prop := ∀ es, ∃ l, (m es).2 = es ++ l ∧ Forall P l.
Definition adds_nothing {A} (m : proc W A) : Prop := ∀ es, (m es).2 = es.

Lemma adds_quiet {A} (m : proc W A) : adds_nothing m → adds m.
Proof. intros H es. exists []. by rewrite app_nil_r. Qed.
Lemma adds_ret {A} (a : A) : adds (mret a).
Proof. by apply adds_quiet. Qed.
Lemma adds_fail {A} f : adds (fail_with (A := A) f).
Proof. by apply adds_quiet. Qed.
Lemma adds_lift {A} (x : exec A) : adds (lift x).
Proof. apply adds_quiet. intros es. by destruct x. Qed.
Lemma adds_or_fail {A} (o : option A) f : adds (or_fail o f).
Proof. apply adds_quiet. intros es. by destruct o. Qed.
Lemma adds_acts l : Forall P l → adds (acts l).
Proof. intros H es. by exists l. Qed.
Lemma adds_act a : P a → adds (act a).
Proof. intros H es. exists [a]. by split; [|apply Forall_singleton]. Qed.
Lemma adds_bind {A B} (m : proc W A) (k : A → proc W B) : adds m → (∀ a, adds (k a)) → adds (m ≫= k).
Proof.
  intros Hm Hk es. destruct (Hm es) as (l & E & Hl). unfold mbind, proc_bind.
  destruct (m es) as [[a|f|] es1]; cbn [snd] in *; subst es1; [|by exists l..].
  destruct (Hk a (es ++ l)) as (l' & -> & Hl'). exists (l ++ l'). rewrite <- (assoc_L (++)).
  by split; [|apply Forall_app].
Qed.
Lemma adds_when b m : (b = true → adds m) → adds (when b m).
Proof. destruct b; [|intros _; apply adds_ret]. intros H. by apply H. Qed.
End adds.
Lemma adds_impl {W A} (P Q : W → Prop) (m : proc W A) : adds P m → (∀ a, P a → Q a) → adds Q m.
Proof. intros H HPQ es. destruct (H es) as (l & -> & Hl). exists l. split; [done|]. by eapply Forall_impl. Qed.
Lemma adds_both {W A} (P Q : W → Prop) (m : proc W A) : adds P m → adds Q m → adds (λ a, P a ∧ Q a) m.
Proof.
  intros HP HQ es. destruct (HP es) as (l & E & Hl), (HQ es) as (l' & E' & Hl'). exists l. split; [done|].
  rewrite E in E'. apply app_inv_head in E' as <-. by apply Forall_and.
Qed.
Lemma adds_within {W W' A} (f : W → W') (P : W' → Prop) (m : proc W A) : adds (λ a, P (f a)) m → adds P (within f m).
Proof.
  intros H es. unfold within. destruct (H []) as (l & E & Hl). destruct (m []) as [o l']. cbn in E; subst l'.
  exists (f <$> l). split; [done|]. by apply Forall_fmap.
Qed.
Lemma adds_from_nothing {W A} (P : W → Prop) (m : proc W A) a : adds P m → a ∈ (m []).2 → P a.
Proof. intros H. destruct (H []) as (l & -> & Hl). rewrite Forall_forall in Hl. apply Hl. Qed.

Create HintDb adds.
#[export] Hint Resolve adds_ret adds_fail adds_lift adds_or_fail adds_acts adds_act adds_bind adds_when : adds.
(** Follows the code: a step at a time, both sides of each decision. *)
Ltac adds_steps :=
  repeat match goal with
  | |- adds _ (mbind _ _) => apply adds_bind
  | |- ∀ _, adds _ _ => intros ?
  | |- adds _ (let '(_, _) := ?x in _) => destruct x
  | |- adds _ (match ?x with _ => _ end) => destruct x eqn:?
  | |- adds _ (when _ _) => apply adds_when; intros ?
  | |- adds _ (with_session _ _) => apply adds_when; intros ?
  | |- adds _ _ => solve [auto with adds]
  end.

(** *** The modes *)

(** A plane is only attempted by a method that needs it: through the helper
    when there is one, else here; [ip_bypass] ([plane] false) never does. *)
Definition plane_act (cfg : Config) (helper plane : bool) (a : Act) : Prop :=
  match a with
  | OpenLocal _ => plane = true ∧ helper = false ∧ is_socket_only (BYPASS_METHOD cfg) = false
  | PrepareRemote _ => plane = true ∧ helper = true ∧ is_socket_only (BYPASS_METHOD cfg) = false
  | _ => True
  end.
#[export] Hint Extern 0 (plane_act _ _ _ _) => solve [cbn; auto] : adds.

Section modes.
Context (su : Surroundings) (no_tui : bool) (session : option (option (list TargetPool.Target))) (helper : bool).

Lemma prepare_plane_adds cfg b : adds (plane_act cfg helper true) (prepare_plane su session helper cfg b).
Proof. unfold prepare_plane. adds_steps. Qed.
Lemma serve_adds cfg plane mode automatic b l : adds (plane_act cfg helper plane) (serve su no_tui session mode automatic b l).
Proof. unfold serve. adds_steps. all: unfold need_session. all: adds_steps. Qed.
Lemma restored_pool_adds cfg plane c : adds (plane_act cfg helper plane) (restored_pool su session c).
Proof. unfold restored_pool. adds_steps. Qed.
Lemma find_sni_target_adds cfg plane c : adds (plane_act cfg helper plane) (find_sni_target su no_tui session c).
Proof.
  unfold find_sni_target, ip_target, sni_entries, resolve_single_sni, select_sni, new_pool, need_session.
  apply adds_bind; [apply restored_pool_adds|]. adds_steps.
Qed.
Lemma find_ip_target_adds cfg plane plus c : adds (plane_act cfg helper plane) (find_ip_target su no_tui session plus c).
Proof.
  unfold find_ip_target, active_ip, scanned_ip, ip_target, new_pool, own_pool, need_session.
  apply adds_bind; [apply restored_pool_adds|]. adds_steps.
Qed.

Lemma sni_spoof_adds cfg : adds (plane_act cfg helper true) (sni_spoof_main su no_tui session helper cfg).
Proof.
  unfold sni_spoof_main, spawn_rescan, own_pool.
  pose proof find_sni_target_adds. pose proof prepare_plane_adds. pose proof serve_adds. adds_steps.
Qed.
Lemma ip_bypass_adds cfg plane : adds (plane_act cfg helper plane) (ip_bypass_main su no_tui session cfg).
Proof.
  unfold ip_bypass_main, spawn_rescan. pose proof find_ip_target_adds. pose proof serve_adds. adds_steps.
Qed.
Lemma ip_bypass_plus_adds cfg : adds (plane_act cfg helper true) (ip_bypass_plus_main su no_tui session helper cfg).
Proof.
  unfold ip_bypass_plus_main, spawn_rescan.
  pose proof find_ip_target_adds. pose proof prepare_plane_adds. pose proof serve_adds. adds_steps.
Qed.
End modes.

(** The tests of a proxy scan: requests only with a helper, engines only
    without, and only for a method that needs one. *)
Definition test_act (cfg : Config) (helper : bool) (a : ScanAct) : Prop :=
  match a with
  | SRequest _ _ => helper = true
  | STest effects => ∀ f, TestOpen f ∈ effects → helper = false ∧ is_socket_only (BYPASS_METHOD cfg) = false
  | _ => True
  end.
#[export] Hint Extern 0 (test_act _ _ _) => solve [cbn; auto] : adds.

Section scans.
Context (dir : string) (no_tui saved_ok : bool) (scan_uplink : option InterfaceBinding) (uplink : Z → option InterfaceBinding).
Context (cfg : Config) (helper : bool).

Lemma tells_adds l : Forall (test_act cfg helper) (STell <$> l).
Proof. apply Forall_fmap, Forall_true. done. Qed.
Lemma scanned_adds {A} (ranked : A → A → bool) headless screen : adds (test_act cfg helper) (scanned no_tui ranked headless screen).
Proof. unfold scanned, of_result. pose proof tells_adds. adds_steps. Qed.
Lemma save_adds path r : adds (test_act cfg helper) (save saved_ok path r).
Proof. unfold save. adds_steps. Qed.
Lemma listed_ips_adds ips : adds (test_act cfg helper) (listed_ips ips).
Proof. unfold listed_ips, of_result. adds_steps. Qed.
Lemma method_scan_adds valid_name chances c target screen mode :
  adds (test_act cfg helper) (method_scan_phase1 dir no_tui saved_ok uplink valid_name chances c target screen mode).
Proof.
  unfold method_scan_phase1. pose proof tells_adds. pose proof save_adds. adds_steps.
  apply adds_act. by destruct no_tui.
Qed.

Lemma probe_opens_nothing config candidate timed_out c f : TestOpen f ∉ (run_socks5_probe config candidate timed_out c).2.
Proof.
  unfold run_socks5_probe. destruct (parse_url_host_port _) as [[host port]|]; [destruct (socks5_http_probe _ _ _ _ _ _)|];
    cbn [snd]; rewrite !elem_of_app, !elem_of_cons, !elem_of_nil; naive_solver.
Qed.
Lemma test_one_adds iface candidate c : Forall (test_act cfg helper) (test_one cfg helper iface candidate c).2.
Proof.
  pose proof (probe_opens_nothing cfg candidate (tc_timed_out c) (tc_probe c)) as Hp.
  unfold test_one, test_candidate_full, test_candidate_with_flow_controller.
  destruct helper.
  - destruct (tc_configured c), (tc_helper_opens c), (run_socks5_probe _ _ _ _) as [r effects]; cbn [negb snd] in *;
      repeat apply Forall_cons_2; try done; intros f Hf; by destruct (Hp f).
  - destruct (is_socket_only (BYPASS_METHOD cfg)) eqn:Hs; [|destruct (build_method cfg (tc_seed c)), (tc_opens c)];
      destruct (run_socks5_probe _ _ _ _) as [r effects]; cbn [negb snd] in *; apply Forall_singleton; try done;
      intros f Hf; by destruct (Hp f).
Qed.
Lemma phase2_adds iface sd l : Forall (test_act cfg helper) (phase2 cfg helper sd iface l).2.
Proof.
  unfold phase2. cbn [snd]. apply Forall_app. split; [|destruct helper; [by apply Forall_singleton|done]].
  apply Forall_concat, Forall_fmap, Forall_fmap, Forall_true. intros [e c]. cbn [compose].
  apply Forall_app. split; [apply test_one_adds|by apply Forall_singleton].
Qed.

Lemma proxy_scan_adds sd headless screen1 socks5 chances screen : adds (test_act cfg helper)
  (proxy_scan_main dir no_tui saved_ok scan_uplink uplink cfg helper sd headless screen1 socks5 chances screen).
Proof.
  unfold proxy_scan_main, proxy_rows, report_proxy. apply adds_bind; [auto with adds|intros _].
  apply adds_bind; [apply scanned_adds|intros phase1]. do 3 (apply adds_bind; [adds_steps|intros ?]).
  apply adds_bind; [adds_steps|intros b].
  pose proof (phase2_adds (ib_ip b) sd (imap (λ k c, (c, chances k)) (proxy_candidates cfg phase1))) as H2.
  destruct (phase2 _ _ _ _ _) as [entries effects]. cbn [snd] in H2. pose proof tells_adds. pose proof save_adds.
  adds_steps; apply adds_acts, Forall_app; auto.
Qed.
Lemma sni_scan_adds c headless screen : adds (test_act cfg helper) (sni_scan_main dir no_tui saved_ok scan_uplink c headless screen).
Proof. unfold sni_scan_main. pose proof (@scanned_adds). pose proof save_adds. adds_steps. Qed.
Lemma ip_scan_adds c ips headless screen : adds (test_act cfg helper) (ip_scan_main dir no_tui saved_ok scan_uplink c ips headless screen).
Proof. unfold ip_scan_main. pose proof (@scanned_adds). pose proof save_adds. pose proof listed_ips_adds. adds_steps. Qed.
Lemma sni_method_scan_adds valid_name chances ms c headless screen : adds (test_act cfg helper)
  (sni_method_scan_main dir no_tui saved_ok scan_uplink uplink valid_name chances ms c headless screen).
Proof. unfold sni_method_scan_main. pose proof (@scanned_adds). pose proof method_scan_adds. adds_steps. Qed.
Lemma ip_method_scan_adds valid_name chances ms c ips headless screen : adds (test_act cfg helper)
  (ip_method_scan_main dir no_tui saved_ok scan_uplink uplink valid_name chances ms c ips headless screen).
Proof.
  unfold ip_method_scan_main. pose proof (@scanned_adds). pose proof method_scan_adds. pose proof listed_ips_adds.
  adds_steps.
Qed.
End scans.

(** ** Admission *)
Section admission.
Context (h : Host) (su : Surroundings) (sh : ScanHost).

(** The configuration is the file's with the overrides, validated; with a
    helper, it needs one, was asked for it by the user it runs as, and has
    authenticated; without, the program may intercept packets if it has to. *)
Definition admitted (a : Args) (cfg : Config) (peer : option Peer) : Prop :=
  (∃ path parsed, config_path a (h_exe_dir h) (h_cwd h) = Some path ∧ h_parse h path = Ok parsed ∧
    cfg = apply_args a parsed ∧ Config.validate (h_max_permits h) cfg = Ok ()) ∧
  match peer with
  | Some p =>
      requires_packet_interception cfg = true ∧ ∃ socket session_file uid,
      a_root_helper_socket a = Some socket ∧ a_root_helper_session_file a = Some session_file ∧
      a_expected_data_plane_uid a = Some uid ∧ h_resuid h = Some (uid, uid, uid) ∧
      h_connect h socket session_file uid = inl p
  | None => requires_packet_interception cfg = true → h_access h = true
  end.
(** What may be done once it is: packets are only intercepted here without a
    helper and if the mode needs it, and only a helper is asked. *)
Definition permitted (a : Args) (cfg : Config) (peer : option Peer) (s : Step) : Prop :=
  match s with
  | Interactive c => c = cfg ∧ is_proxy_mode (MODE cfg) = true ∧ a_no_tui a = false ∧ a_json_events a = false
  | InMode (OpenLocal _) => peer = None ∧ requires_packet_interception cfg = true
  | InMode (PrepareRemote _) | InScan (SRequest _ _) => is_some peer = true
  | InScan (STest effects) => ∀ f, TestOpen f ∈ effects → peer = None ∧ requires_packet_interception cfg = true
  | _ => True
  end.
Definition is_prologue (s : Step) : Prop :=
  match s with Write _ | ConnectHelper _ _ _ | CheckAccess => True | _ => False end.
#[local] Hint Extern 0 (is_prologue _) => exact I : adds.

Lemma write_adds a e : adds is_prologue (write a e).
Proof. unfold write, emit. destruct (a_json_events a); apply adds_acts; [by apply Forall_singleton|done]. Qed.
Lemma admit_adds a : adds is_prologue (admit_config h a).
Proof.
  unfold admit_config, load, connect_external_helper, verify_data_plane_uid, ensure_access. pose proof write_adds.
  adds_steps.
Qed.

Lemma validated_mode mp cfg : Config.validate mp cfg = Ok () → MODE cfg ∈ MODES.
Proof.
  intros H. unfold Config.validate in H. do 4 (apply r_bind_ok in H as (_ & _ & H)). unfold validate_mode in H.
  apply bail_if_ok in H as [_ H]. apply bail_if_ok in H as [H _]. apply str_mem_spec. by destruct (str_mem _ _).
Qed.

Lemma connect_ok a required es peer es' : connect_external_helper h a required es = (Returned peer, es') →
  match peer with
  | Some p => required = true ∧ ∃ socket session_file uid,
      a_root_helper_socket a = Some socket ∧ a_root_helper_session_file a = Some session_file ∧
      a_expected_data_plane_uid a = Some uid ∧ h_resuid h = Some (uid, uid, uid) ∧
      h_connect h socket session_file uid = inl p
  | None => True
  end.
Proof.
  unfold connect_external_helper, verify_data_plane_uid.
  destruct (a_root_helper_socket a) as [socket|], (a_root_helper_session_file a) as [file|],
    (a_expected_data_plane_uid a) as [uid|]; try done; [|by intros [= <- <-]].
  intros (? & es1 & [Hr _]%when_fail_returned & (? & es2 & Hu & (? & es3 & _ & Hc)%bind_returned)%bind_returned)%bind_returned.
  destruct (h_connect h socket file uid) as [p|e] eqn:Ec; [|done]. injection Hc as <- <-.
  destruct (h_resuid h) as [[[r e] s]|]; [|done]. apply when_fail_returned in Hu as [Hu _].
  apply negb_false_iff in Hu. rewrite !andb_true_iff, !Z.eqb_eq in Hu.
  split; [by destruct required|]. exists socket, file, uid. destruct Hu as [[-> ->] ->]. done.
Qed.

Lemma admit_ok a es cfg peer es' : admit_config h a es = (Returned (cfg, peer), es') → admitted a cfg peer.
Proof.
  unfold admit_config, load.
  intros ([path c] & es1 & (p' & es1' & [Hp _]%or_fail_returned & Hl)%bind_returned & H)%bind_returned.
  destruct (load_config _ _ _) as [c'|e] eqn:El; [|done]. injection Hl as -> -> ->.
  apply load_config_ok in El as (parsed & Hparse & El & Hv).
  apply bind_returned in H as (? & es2 & _ & H). apply bind_returned in H as (peer' & es3 & Hc & H).
  apply connect_ok in Hc. apply bind_returned in H as (? & es4 & _ & H). apply bind_returned in H as (? & es5 & _ & H).
  apply bind_returned in H as (? & es6 & Ha & H). injection H as -> -> _.
  split; [by exists path, parsed|]. destruct peer as [p|]; [done|]. intros Hr. rewrite Hr in Ha. cbn [andb is_none when] in Ha.
  unfold ensure_access in Ha. apply bind_returned in Ha as (? & es7 & _ & Ha).
  destruct (h_access h); [done|]. by apply bind_returned in Ha as (? & es8 & _ & ?).
Qed.

Lemma plane_permitted a cfg peer s : MODE cfg = "sni_spoof" ∨ MODE cfg = "ip_bypass_plus" →
  plane_act cfg (is_some peer) true s → permitted a cfg peer (InMode s).
Proof.
  unfold permitted, requires_packet_interception, mode_requires_packet_interception, plane_act.
  intros Hm. destruct s; try done; [by intros (_ & ? & _)|]. intros (_ & Hp & ->). destruct peer; [done|]. split; [done|].
  by destruct Hm as [-> | ->].
Qed.
Lemma quiet_permitted a cfg peer s : plane_act cfg (is_some peer) false s → permitted a cfg peer (InMode s).
Proof. destruct s; try done; by intros [? _]. Qed.
Lemma tests_permitted a cfg peer s : MODE cfg = "proxy_scan" → test_act cfg (is_some peer) s → permitted a cfg peer (InScan s).
Proof.
  intros Hm. destruct s; try done. intros H f Hf. destruct (H f Hf) as [Hp Hs].
  unfold requires_packet_interception, mode_requires_packet_interception. rewrite Hm, Hs. by destruct peer.
Qed.
Lemma scan_permitted a cfg peer (m : proc ScanAct ()) : (∀ helper, adds (test_act cfg helper) m) →
  adds (λ s, permitted a cfg peer (InScan s)) m.
Proof.
  intros H. eapply adds_impl; [apply adds_both; [apply (H true)|apply (H false)]|]. intros s [Ht Hf].
  destruct s; try done. intros f Hin. by destruct (Ht f Hin).
Qed.

Lemma run_config_adds a cfg peer no_tui : MODE cfg ∈ MODES →
  adds (permitted a cfg peer) (run_config su sh cfg no_tui peer).
Proof.
  intros Hm. unfold run_config.
  destruct (String.eqb_spec (MODE cfg) "ip_bypass") as [E1|N1].
  { apply adds_within. eapply adds_impl; [apply (ip_bypass_adds su no_tui None (is_some peer) cfg false)|]. apply quiet_permitted. }
  destruct (String.eqb_spec (MODE cfg) "ip_bypass_plus") as [E2|N2].
  { apply adds_within. eapply adds_impl; [apply ip_bypass_plus_adds|]. intros s. apply plane_permitted. by right. }
  destruct (String.eqb_spec (MODE cfg) "sni_scan") as [E3|N3].
  { apply adds_within, scan_permitted. intros; apply sni_scan_adds. }
  destruct (String.eqb_spec (MODE cfg) "ip_scan") as [E4|N4].
  { apply adds_within, scan_permitted. intros; apply ip_scan_adds. }
  destruct (String.eqb_spec (MODE cfg) "proxy_scan") as [E5|N5].
  { apply adds_within. eapply adds_impl; [apply proxy_scan_adds|]. intros s. by apply tests_permitted. }
  destruct (String.eqb_spec (MODE cfg) "sni_method_scan") as [E6|N6].
  { apply adds_within, scan_permitted. intros; apply sni_method_scan_adds. }
  destruct (String.eqb_spec (MODE cfg) "ip_method_scan") as [E7|N7].
  { apply adds_within, scan_permitted. intros; apply ip_method_scan_adds. }
  apply adds_within. eapply adds_impl; [apply sni_spoof_adds|]. intros s. apply plane_permitted. left.
  unfold MODES in Hm. rewrite !elem_of_cons, elem_of_nil in Hm. tauto.
Qed.

End admission.

(** ** Runs *)
Section runs.
Definition headless_args : Args :=
  MkArgs (Some "/etc/zerodpi.toml") None None true true false (Some "example.com") None None None None None None false false
    None None None None None.
Definition host (access : bool) : Host :=
  MkHost "1.0" 100 1000 None None (λ _, Ok (default_config "127.0.0.1" 8443)) 1024 (Some (1000, 1000, 1000)%Z)
    (λ _ _ _, inr "refused") access (inl ()).
Definition no_scans : ScanHost :=
  MkScanHost "/etc" true (Ok [], []) (ScanLeft []) (λ _, ([], [])) (ScanLeft []) (λ _, true)
    (λ _, MkMethodChance 0 None (λ _, good_chance)) None true true willing None.

Example run_serves : run (host true) fair no_scans headless_args [] =
  (Returned (), [CheckAccess;
    InMode (Tell (EvSelectedTarget TargetSni (Some "example.com") (IpV4 0x01010101) (Some 0%Z)));
    InMode (OpenLocal lan); InMode (StartMonitor 0x01010101 lan); InMode (SpawnRecovery false lan);
    InMode (SpawnProxy SniSpoof [TargetPool.target_sni "example.com" 0x01010101 0]); InMode Serve]).
Proof. vm_compute. reflexivity. Qed.
Example run_refused : run (host false) fair no_scans headless_args [] = (Failed AccessRefused, [CheckAccess]).
Proof. vm_compute. reflexivity. Qed.
End runs.
